(* ===== verification/_CoqProject ===== *)
-Q . S2P
Prelude.v
ResourceWire.v
ProtocolIds.v
SessionLifecycle.v
ResourceSession.v
JsonFields.v
LogicWorker.v
ChatSession.v
Sha256.v
PasswordHash.v
UploadFile.v
Database.v
ResourceDb.v
FileWorker.v
FileWorkerProofs.v
TxLogic.v
ChatDb.v
ChatDbMessages.v
ChatFriends.v
ChatSync.v
SystemDb.v
ChatUsers.v
ChatLogic.v
ChatHandlers.v
LocalDb.v
LocalStore.v
LocalSync.v
ClientSync.v
SyncLoop.v
ResourceTransfer.v
Outbox.v
OutboxSystem.v
TransferEngine.v
TransferSlots.v
TransferTimers.v
StatusService.v
GateAccounts.v
GateSafety.v
GateSystem.v
GateLogin.v
GatePool.v
GateHttp.v
GateExecutor.v
BlobFrames.v
DownloadWorker.v
DownloadProofs.v
Cleanup.v
CleanupProofs.v
DownloadSystem.v
ResourceDispatch.v
ResourceCodec.v
ResourceLink.v
DownloadClient.v
DownloadEnd.v
ClientSocket.v
ClientHandlers.v
ClientChannel.v
ChannelProofs.v
ChatLink.v
FileChannel.v
FileChannelProofs.v
Base64.v
AvatarWorker.v
AvatarClient.v
AvatarLink.v
AvatarEnd.v
