(* ===== verification/Prelude.v ===== *)
(** * mychatter: a verification library (root file)

    mychatter is a chat system: a Qt client (client/llfcchat), an HTTP gate
    (server/GateServer), a ChatServer for messages (server/ChatServer), a
    ResourceServer for pictures and files (server/ResourceServer), and a
    MySQL database the servers share. This library models the parts that
    decide whether a message or a file arrives, once, and proves that it does.

    ** How the program is put together

    A client sends a text (request 1017) or the metadata of a resource (1503)
    to the ChatServer, which stores it in one transaction with an event for
    the recipient; the events of a user are numbered without gaps. A resource
    is then uploaded to the ResourceServer in chunks (1505, binary frames),
    or proved to be known already (1513); when it is complete the same
    transaction publishes it and appends its event. The client follows its
    event log page by page and applies each page to a local SQLite file. What
    it sends waits in an outbox of that file until the database has recorded
    the server's answer.

    ** The files

    Shared by all: this file (bytes, integers of a width, the tape of
    failures, sequential option and result notations, generic lemmas).

    Wire and sessions. ResourceWire.v: proto/resource_wire.h. ProtocolIds.v:
    proto/protocol_ids.h and the handler tables. JsonFields.v: the parsers of
    request fields in ChatServer/src/LogicSystem.cpp and
    ResourceServer/src/ResourceLogicWorker.cpp. SessionLifecycle.v:
    common/include/SessionLifecycle.h. ResourceSession.v, ChatSession.v: the
    CSession.cpp of the two servers. LogicWorker.v: common/src/LogicWorker.cpp.
    Theorems: round trips of frames under any segmentation, bounds on what a
    peer can make the server read, exact budgets, one winner of a close.

    Digests and files. Sha256.v, PasswordHash.v: the helpers of common/src.
    UploadFile.v: ResourceServer/src/ResourceUploadFile.cpp on a disk of
    inodes, names and flushed state. Theorems: verified writes, recovery to a
    confirmed prefix, durable directories, renames that replace nothing.

    Database. Database.v: the tables of the rebuild script, the statements and
    transactions. TxLogic.v: rules to verify a transaction for every outcome
    of its statements. ResourceDb.v: ResourceServer/src/MysqlDao.cpp. ChatDb.v
    with ChatDbMessages.v, ChatFriends.v, ChatSync.v and ChatUsers.v:
    ChatServer/src/MysqlDao.cpp. SystemDb.v: both servers on one database, its
    invariant, and the refinement of the events by append-only logs.

    Servers' handlers. FileWorker.v with FileWorkerProofs.v: the upload side of
    ResourceServer/src/FileWorker.cpp. ChatLogic.v, ChatHandlers.v:
    ChatServer/src/LogicSystem.cpp. Theorems: published content is never
    replaced, a success answer means what it says, a message is stored before
    its answer, malformed requests and exceptions.
    DownloadWorker.v: the requests 1509 and 1511 of the same file, beside the
    uploads; DownloadProofs.v: a download that runs from the first offset to
    the last returns the published bytes. Cleanup.v, CleanupProofs.v: the
    periodic RunResourceCleanup of ResourceServer/src/ResourceServer.cpp,
    page by page, what it expires and which files it unlinks, and that the
    scan ends. BlobFrames.v: which of these operations keep published content.
    DownloadSystem.v: uploads, downloads, cleanup, logins and the ChatServer
    as one transition system; every answered chunk is a piece of the
    published file and goes to a member of the thread only.
    ResourceDispatch.v: ResourceServer/src/ResourceLogicWorker.cpp, which turns each
    frame of a session into an answer or a task for a worker; every task
    belongs to a login that Redis confirmed.

    Accounts. StatusService.v: StatusServer/src/StatusServiceImpl.cpp, the
    least loaded server and the token in Redis. GateAccounts.v: the account
    handlers of GateServer/src/LogicSystem.cpp over GateServer/src/MysqlDao.cpp
    and Redis. GateSafety.v: invariants of the accounts and codes of
    verification. GateSystem.v, GateLogin.v: gate, StatusServer, ChatServer
    and ResourceServer together, from a registration to an authorised
    session. GatePool.v: the pools of connections. GateHttp.v: percent
    decoding and the request line. GateExecutor.v: the bounded executor of the
    handlers and its shut-down.

    Client. LocalDb.v, LocalStore.v, LocalSync.v: store/localchatdb.cpp and
    its worker thread. ClientSync.v: store/chatsyncmanager.cpp. SyncLoop.v:
    client and server in a loop until the client has caught up. Outbox.v,
    OutboxSystem.v: store/outboxdispatcher.cpp, alone and interleaved with
    the database worker. ResourceTransfer.v, TransferEngine.v,
    TransferSlots.v, TransferTimers.v: net/transferengine.cpp, its slots and
    its time-outs.

    Connections of the client. ClientSocket.v: the interface of QTcpSocket with
    its laws, and the framing both channels share. ClientChannel.v and
    ClientHandlers.v: net/tcpmgr.cpp, the slots of the socket, the send queue
    and the handlers that turn answers into signals. ChannelProofs.v: frames
    are the same under any segmentation, the server reads a prefix of what was
    queued, the state stays well formed, each reconnection is answered once.
    ChatLink.v: a text from the outbox through the handler of the ChatServer
    into the database and back. FileChannel.v, FileChannelProofs.v:
    net/filetcpmgr.cpp; no frame but the login leaves before the login of this
    connection has been confirmed, and a lost connection is tried again after
    a delay that grows up to a limit.

    Downloads from end to end. ResourceCodec.v: net/resourcecodec.cpp.
    ResourceLink.v: what the codec writes the server's dispatch reads, and
    back. DownloadClient.v, DownloadEnd.v: the engine, the codec, the dispatch
    and the worker together; a member of a thread ends with the published
    file.

    Avatars. Base64.v: ResourceServer/src/base64.cpp against RFC 4648.
    AvatarWorker.v: the requests 1601 and 1603 in ResourceServer/src/
    FileWorker.cpp. AvatarClient.v: both directions in net/filetcpmgr.cpp with
    the registers of store/usermgr.cpp and app/userinfopage.cpp. AvatarLink.v:
    one packet from one side to the other. AvatarEnd.v: an uploaded picture is
    the picture that is downloaded.

    ** How it is modelled

    State is a record and an operation a function from the state to the state
    and its effects; threads are step relations (BeginClose, session_step,
    sys_step, the reachable states of SystemDb.v). What the environment
    decides, an SQL error, a failing write, a lost commit, is read from a
    [tape], so a theorem about all tapes covers all failures. An exception
    that leaves a handler is [None] where the code lets it end the process.

    Transactions are serial: the code locks the rows it depends on
    ([SELECT ... FOR UPDATE]), and a transaction is one step of SystemDb.v.
    The collation of text keys is a parameter ([weight]); so are the digest
    (EVP, QCryptographicHash), the key derivation (PKCS5_PBKDF2_HMAC), the
    serialisation of JSON text and the sockets, each a class or an argument
    with only its documented facts. QMap iterates in the order of the keys'
    bytes, which is QString's order for the ASCII identifiers in use; QHash
    iterates in any order. Queued signals arrive in order and one at a time.
    The creation of the local schema (initSchema) is one step.

    QTcpSocket is a class with documented laws; what is queued and what is
    written are kept as observations beside the state. Signals are collected
    as outputs of a slot, and what the receiver sends in turn comes back as a
    later event. The Base64 and MD5 of Qt are a class, with RFC 4648 as the
    law of the first. A stream that is closed may lose bytes without a report
    (ofstream's destructor).

    Fuel: a loop that is not structural carries fuel, and a theorem or the
    caller shows that it is enough. Retries of a deadlock use the constant of
    the code; [promote] turns at most once per queued transfer; [exchange] of
    SyncLoop.v takes the number of missing events; [pump] fills every window
    once, and once more after a failing send; the receive loops of the channels
    take the bytes in the buffer, as each turn takes at least one; [exchange]
    of AvatarEnd.v takes the packets and three more.

    The clean-up reads the list of a directory and the age of each file as
    inputs. In DownloadSystem.v one upload worker and one download worker run
    beside the other parts (the servers start several of each; a request of
    one session stays with one worker); a step of the upload worker is one
    whole request; a sweep of the clean-up does not remove the part file of a
    session that is still open, which is what its age limit is for.

    ** Not modelled

    The Qt widgets and dialogs, the cropping of avatars and the rendering of
    bubbles (user interface only); the caches of store/usermgr.cpp and
    store/userdata.cpp that only the pages read; the client's HTTP requests
    (QNetworkAccessManager); boost::asio, boost::beast, gRPC, hiredis and the
    MySQL connector (libraries) with the pool of Redis connections and the
    lock in Redis (common/src/RedisConPool.cpp, DistLock.cpp), whose commands
    are the operations on the Redis state of StatusService.v; configuration
    files; the Node.js mail service; multi-server presence (the gRPC kick
    between servers, ChatServiceImpl.cpp) beyond the checks the handlers
    make. *)

From stdpp Require Export base gmap sets list strings.
From Stdlib Require Export ZArith Lia.
From Stdlib Require Export Strings.Byte.

#[global] Set Default Proof Using "Type".
Open Scope Z_scope.

(** ** Bytes and byte strings *)

(** A [std::string] or a byte buffer of the code is a list of bytes. *)
Abbreviation bytes := (list Byte.byte).

#[global] Instance byte_eq_decision : EqDecision Byte.byte := Byte.byte_eq_dec.

#[global] Program Instance byte_countable : Countable Byte.byte :=
  inj_countable Byte.to_N Byte.of_N _.
Next Obligation. intros b. apply Byte.of_to_N. Qed.

(** The unsigned value of a byte, [static_cast<unsigned char>(c)]. *)
Definition bval (b : Byte.byte) : Z := Z.of_N (Byte.to_N b).

(** [static_cast<char>(z)]: the low eight bits of an integer. *)
Definition mkbyte (z : Z) : Byte.byte :=
  match Byte.of_N (Z.to_N (z mod 256)) with
  | Some b => b
  | None => Byte.x00
  end.

(** A literal of the source as a byte string. *)
Definition lit (s : String.string) : bytes := String.list_byte_of_string s.

Declare Scope chat_scope.
Delimit Scope chat_scope with chat.
Notation "§ s" := (lit s%string) (at level 1, format "§ s") : chat_scope.
Open Scope chat_scope.

Lemma bval_range b : 0 <= bval b < 256.
Proof. unfold bval. pose proof (Byte.to_N_bounded b). lia. Qed.

Lemma bval_mkbyte z : bval (mkbyte z) = z mod 256.
Proof.
  unfold bval, mkbyte.
  assert (0 <= z mod 256 < 256) as Hr by (apply Z.mod_pos_bound; lia).
  destruct (Byte.of_N (Z.to_N (z mod 256))) as [b|] eqn:E.
  - apply Byte.to_of_N in E. rewrite E. lia.
  - apply Byte.of_N_None_iff in E. lia.
Qed.

Lemma mkbyte_bval b : mkbyte (bval b) = b.
Proof.
  unfold mkbyte. rewrite Z.mod_small by apply bval_range.
  unfold bval. rewrite N2Z.id, Byte.of_to_N. done.
Qed.

Lemma bval_inj b1 b2 : bval b1 = bval b2 → b1 = b2.
Proof. intros H. rewrite <- (mkbyte_bval b1), <- (mkbyte_bval b2). by rewrite H. Qed.

Lemma bval_mkbyte_small z : 0 <= z < 256 → bval (mkbyte z) = z.
Proof. intros. rewrite bval_mkbyte. by apply Z.mod_small. Qed.

(** ** Machine integers

    Integers of the code are [Z]; the conversions that can wrap are written
    out with the functions below. *)

Definition u16 (z : Z) : Z := z mod 2 ^ 16.
Definition u32 (z : Z) : Z := z mod 2 ^ 32.
Definition u64 (z : Z) : Z := z mod 2 ^ 64.

(** Two's complement narrowing to [int] and [long long]. *)
Definition s32 (z : Z) : Z := (z + 2 ^ 31) mod 2 ^ 32 - 2 ^ 31.
Definition s64 (z : Z) : Z := (z + 2 ^ 63) mod 2 ^ 64 - 2 ^ 63.

Definition int_max : Z := 2 ^ 31 - 1.
Definition int64_max : Z := 2 ^ 63 - 1.
Definition uint64_max : Z := 2 ^ 64 - 1.

Lemma u64_small z : 0 <= z < 2 ^ 64 → u64 z = z.
Proof. intros. unfold u64. by apply Z.mod_small. Qed.

Lemma u64_range z : 0 <= u64 z < 2 ^ 64.
Proof. unfold u64. apply Z.mod_pos_bound. lia. Qed.

Lemma s32_small z : - 2 ^ 31 <= z < 2 ^ 31 → s32 z = z.
Proof. intros. unfold s32. rewrite Z.mod_small; lia. Qed.

(** The length of a buffer as [size()] reports it. *)
Definition zlen {A} (l : list A) : Z := Z.of_nat (length l).

Lemma zlen_nonneg {A} (l : list A) : 0 <= zlen l.
Proof. unfold zlen. lia. Qed.

Lemma zlen_app {A} (l k : list A) : zlen (l ++ k) = zlen l + zlen k.
Proof. unfold zlen. rewrite length_app. lia. Qed.

Lemma zlen_snoc {A} (l : list A) x : zlen (l ++ [x]) = zlen l + 1.
Proof. by rewrite zlen_app. Qed.

Lemma zlen_nil_inv {A} (l : list A) : zlen l = 0 → l = [].
Proof. unfold zlen. destruct l; simpl; [done | lia]. Qed.

Lemma zlen_pos {A} (l : list A) : l ≠ [] → 0 < zlen l.
Proof. unfold zlen. destruct l; simpl; [done | lia]. Qed.

(** [l.substr(off, len)] inside the bounds. *)
Definition zslice {A} (l : list A) (off len : Z) : list A :=
  take (Z.to_nat len) (drop (Z.to_nat off) l).

Definition ztake {A} (n : Z) (l : list A) : list A := take (Z.to_nat n) l.

Lemma zlen_ztake {A} (l : list A) n : 0 <= n <= zlen l → zlen (ztake n l) = n.
Proof. unfold zlen, ztake. intros. rewrite length_take. lia. Qed.

Lemma zlen_zslice {A} (l : list A) off len :
  0 <= off → 0 <= len → off + len <= zlen l → zlen (zslice l off len) = len.
Proof. unfold zlen, zslice. intros. rewrite length_take, length_drop. lia. Qed.

Lemma ztake_nil_inv {A} (l : list A) n : 0 < n → ztake n l = [] → l = [].
Proof.
  unfold ztake. intros Hn. destruct (Z.to_nat n) eqn:E; [lia |]. by destruct l.
Qed.

Lemma ztake_all {A} (l : list A) n : zlen l <= n → ztake n l = l.
Proof. unfold zlen, ztake. intros. apply take_ge. lia. Qed.

Lemma ztake_app_le {A} (l k : list A) n : n <= zlen l → ztake n (l ++ k) = ztake n l.
Proof.
  unfold zlen, ztake. intros. rewrite take_app_le; [done | lia].
Qed.

Lemma ztake_ztake {A} (l : list A) n m : 0 <= n <= m → ztake n (ztake m l) = ztake n l.
Proof.
  intros. unfold ztake. rewrite take_take. f_equal. lia.
Qed.

(** A prefix and the slice after it make the longer prefix. *)
Lemma ztake_zslice {A} (l : list A) off len :
  0 <= off → 0 <= len → ztake off l ++ zslice l off len = ztake (off + len) l.
Proof.
  intros. unfold ztake, zslice.
  rewrite Z2Nat.inj_add by lia. by rewrite take_take_drop.
Qed.

(** ** Faults of the environment

    Every call of the operating system or of a library that the code checks
    for failure takes its outcome from a tape: [IoOk], or [IoFail n] where
    [n] is the number of bytes a failing write has put on the disk. The end
    of the tape means that nothing fails any more, so a theorem for every
    tape is a theorem for every finite pattern of failures. *)

Inductive io_outcome :=
  | IoOk
  | IoFail (partial : nat).

Definition tape := list io_outcome.

Definition tape_next (t : tape) : io_outcome * tape :=
  match t with
  | [] => (IoOk, [])
  | o :: t' => (o, t')
  end.

Definition io_ok (o : io_outcome) : bool :=
  match o with IoOk => true | IoFail _ => false end.

(** ** Automation *)

Create HintDb chat.
Create Rewrite HintDb chat.
#[export] Hint Resolve bval_range zlen_nonneg u64_range : chat.
#[export] Hint Rewrite @zlen_app bval_mkbyte mkbyte_bval : chat.

(** Split the matches, conditionals and lets the goal is stuck on, keeping
    the equations. *)
Ltac split_match :=
  match goal with
  | |- context [match ?x with _ => _ end] =>
      first [ is_var x; destruct x | destruct x eqn:? ]
  | H : context [match ?x with _ => _ end] |- _ =>
      first [ is_var x; destruct x | destruct x eqn:? ]
  end.

(** Turn the boolean comparisons of the code into arithmetic. *)
Ltac bool_to_prop :=
  repeat match goal with
  | H : _ && _ = true |- _ => apply andb_prop in H; destruct H
  | H : _ || _ = false |- _ => apply orb_false_elim in H; destruct H
  | H : _ || _ = true |- _ => apply orb_prop in H
  | H : _ && _ = false |- _ => apply andb_false_iff in H
  | H : negb _ = true |- _ => apply negb_true_iff in H
  | H : negb _ = false |- _ => apply negb_false_iff in H
  | H : (_ =? _) = true |- _ => apply Z.eqb_eq in H
  | H : (_ =? _) = false |- _ => apply Z.eqb_neq in H
  | H : (_ <? _) = true |- _ => apply Z.ltb_lt in H
  | H : (_ <? _) = false |- _ => apply Z.ltb_ge in H
  | H : (_ <=? _) = true |- _ => apply Z.leb_le in H
  | H : (_ <=? _) = false |- _ => apply Z.leb_gt in H
  | H : bool_decide _ = true |- _ => apply bool_decide_eq_true in H
  | H : bool_decide _ = false |- _ => apply bool_decide_eq_false in H
  end.

(** ** Reachability

    The states a step relation reaches from an initial state. *)

Inductive reachable {S L : Type} (init : S → Prop) (step : S → L → S → Prop) : S → Prop :=
  | reach_init s : init s → reachable init step s
  | reach_step s l s' : reachable init step s → step s l s' → reachable init step s'.

Lemma reachable_invariant {S L : Type} (init : S → Prop) (step : S → L → S → Prop)
    (I : S → Prop) :
  (∀ s, init s → I s) → (∀ s l s', I s → step s l s' → I s') →
  ∀ s, reachable init step s → I s.
Proof. intros Hi Hs s Hr. induction Hr; eauto. Qed.

(** ** Byte strings in order

    [operator<] of [std::string] compares unsigned bytes. *)

Fixpoint bytes_leb (a b : bytes) : bool :=
  match a, b with
  | [], _ => true
  | _, [] => false
  | x :: a, y :: b => (bval x <? bval y) || ((bval x =? bval y) && bytes_leb a b)
  end.
Definition bytes_le (a b : bytes) : Prop := bytes_leb a b = true.
#[global] Instance bytes_le_dec a b : Decision (bytes_le a b) := decide (bytes_leb a b = true).

#[global] Instance bytes_le_total : Total bytes_le.
Proof.
  intros a. unfold bytes_le. induction a as [| x a IH]; intros [| y b]; cbn; [by left.. | by right |].
  destruct (Z.lt_trichotomy (bval x) (bval y)) as [H | [H | H]].
  - left. by rewrite (proj2 (Z.ltb_lt _ _) H).
  - rewrite H, Z.eqb_refl, Z.ltb_irrefl. apply IH.
  - right. by rewrite (proj2 (Z.ltb_lt _ _) H).
Qed.

#[global] Instance bytes_le_trans : Transitive bytes_le.
Proof.
  intros a. unfold bytes_le. induction a as [| x a IH]; intros [| y b] [| z c]; cbn; try done.
  intros H1 H2. apply orb_true_iff in H1, H2. apply orb_true_iff. rewrite !andb_true_iff, !Z.ltb_lt, !Z.eqb_eq in *.
  destruct H1 as [H1 | [H1 H1']], H2 as [H2 | [H2 H2']]; [left; lia.. |]. right. split; [lia | by eapply IH].
Qed.

Lemma bytes_le_antisymm a b : bytes_le a b → bytes_le b a → a = b.
Proof.
  unfold bytes_le. revert b. induction a as [| x a IH]; intros [| y b]; cbn; try done.
  rewrite !orb_true_iff, !andb_true_iff, !Z.ltb_lt, !Z.eqb_eq. intros [H1 | [H1 H1']] [H2 | [H2 H2']]; [lia.. |].
  f_equal; [by apply bval_inj | by apply IH].
Qed.
