(* ===== verification/ResourceWire.v ===== *)
(** * The binary chunk frame (proto/resource_wire.h)

    The body of a 1505 request and of a 1512 response is
    [u16 meta_len, big endian][meta][raw]. [EncodeFrame] and [DecodeFrame]
    are total functions on byte strings; [None] stands for the [false] the
    code returns without touching its output. A null output pointer of
    [EncodeFrame] is the argument [out_null]. *)

From S2P Require Import Prelude.

Definition kResourceChunkSize : Z := 256 * 1024.
Definition kMaxMetaLen : Z := 8 * 1024.
Definition kMaxFrameBody : Z := 2 + 8 * 1024 + kResourceChunkSize.

(** The two bytes [(meta_len >> 8) & 0xFF] and [meta_len & 0xFF]. *)
Definition be16 (n : Z) : bytes :=
  [mkbyte (Z.land (Z.shiftr n 8) 255); mkbyte (Z.land n 255)].

#[global] Arguments be16 : simpl never.

Definition EncodeFrame (meta raw : bytes) (out_null : bool) : option bytes :=
  if out_null then None
  else if (zlen meta =? 0) || (kMaxMetaLen <? zlen meta) then None
  else if kResourceChunkSize <? zlen raw then None
  else
    let total := u64 (u64 (2 + zlen meta) + zlen raw) in
    if kMaxFrameBody <? total then None
    else
      let meta_len := u16 (zlen meta) in
      Some (be16 meta_len ++ meta ++ raw).

(** [PeekMetaLen] on a buffer of at least [len] bytes. *)
Definition PeekMetaLen (buf : option bytes) (len : Z) (out_null : bool) : option Z :=
  match buf with
  | None => None
  | Some b =>
      if out_null || (len <? 2) then None
      else match b with
      | hi :: lo :: _ => Some (u16 (Z.lor (Z.shiftl (bval hi) 8) (bval lo)))
      | _ => None
      end
  end.

Definition DecodeFrame (frame : bytes) : option (bytes * bytes) :=
  if (zlen frame <? 3) || (kMaxFrameBody <? zlen frame) then None
  else match PeekMetaLen (Some frame) (zlen frame) false with
  | None => None
  | Some meta_len =>
      if (meta_len =? 0) || (kMaxMetaLen <? meta_len) then None
      else
        let header := 2 in
        if zlen frame - header <? meta_len then None
        else
          let raw_len := zlen frame - header - meta_len in
          if kResourceChunkSize <? raw_len then None
          else Some (zslice frame header meta_len,
                     zslice frame (header + meta_len) raw_len)
  end.

(** ** Lemmas *)

Lemma land_255 n : Z.land n 255 = n mod 256.
Proof. change 255 with (Z.ones 8). by rewrite Z.land_ones. Qed.

Lemma shiftr_8 n : Z.shiftr n 8 = n / 256.
Proof. by rewrite Z.shiftr_div_pow2. Qed.

Lemma lor_shift8 hi lo : 0 <= lo < 256 → Z.lor (Z.shiftl hi 8) lo = hi * 256 + lo.
Proof.
  intros Hlo. rewrite Z.shiftl_mul_pow2 by lia. change (2 ^ 8) with 256.
  rewrite <- Z.add_lor_land.
  replace (Z.land (hi * 256) lo) with 0; [lia |].
  symmetry. apply Z.bits_inj'. intros n H0n. rewrite Z.land_spec, Z.bits_0.
  destruct (Z.ltb_spec n 8) as [Hn | Hn].
  - change 256 with (2 ^ 8). rewrite Z.mul_pow2_bits_low by lia. done.
  - rewrite andb_comm, (Z.bits_above_log2 lo n); [done | lia |].
    destruct (decide (lo = 0)) as [-> | Hne]; [cbn; lia |].
    apply Z.log2_lt_pow2; [lia |].
    eapply Z.lt_le_trans; [apply Hlo |]. change 256 with (2 ^ 8).
    apply Z.pow_le_mono_r; lia.
Qed.

Lemma peek_be16 n rest len :
  0 <= n < 2 ^ 16 → 2 <= len → PeekMetaLen (Some (be16 n ++ rest)) len false = Some n.
Proof.
  intros Hn Hlen. unfold PeekMetaLen, be16. cbn [app].
  destruct (Z.ltb_spec len 2); [lia |]. cbn [orb].
  rewrite !bval_mkbyte, !land_255, !shiftr_8, !Z.mod_mod by lia.
  rewrite lor_shift8 by (apply Z.mod_pos_bound; lia).
  f_equal. unfold u16.
  rewrite (Z.mod_small (n / 256)) by (Z.div_mod_to_equations; lia).
  rewrite Z.mod_small; Z.div_mod_to_equations; lia.
Qed.

Lemma be16_bytes hi lo :
  be16 (Z.lor (Z.shiftl (bval hi) 8) (bval lo)) = [hi; lo].
Proof.
  pose proof (bval_range hi). pose proof (bval_range lo).
  unfold be16. rewrite lor_shift8, !land_255, shiftr_8 by lia.
  rewrite <- (mkbyte_bval hi) at 3. rewrite <- (mkbyte_bval lo) at 3.
  repeat f_equal; Z.div_mod_to_equations; lia.
Qed.

Lemma zlen_be16 n : zlen (be16 n) = 2.
Proof. done. Qed.

Lemma zslice_app_l {A} (l k : list A) len : len = zlen l → zslice (l ++ k) 0 len = l.
Proof.
  intros ->. unfold zslice, zlen. rewrite Z2Nat.inj_0, drop_0, Nat2Z.id.
  apply take_app_length.
Qed.

Lemma zslice_skip {A} (l k : list A) off len :
  off = zlen l → zslice (l ++ k) off len = take (Z.to_nat len) k.
Proof.
  intros ->. unfold zslice, zlen. rewrite Nat2Z.id, drop_app_length. done.
Qed.

(** The frames the encoder can produce: the exact conditions it accepts. *)
Definition frame_ok (meta raw : bytes) : Prop :=
  1 <= zlen meta <= kMaxMetaLen ∧ zlen raw <= kResourceChunkSize.

Lemma EncodeFrame_spec meta raw :
  EncodeFrame meta raw false =
    if bool_decide (frame_ok meta raw) then Some (be16 (zlen meta) ++ meta ++ raw) else None.
Proof.
  unfold EncodeFrame, frame_ok.
  pose proof (zlen_nonneg meta). pose proof (zlen_nonneg raw).
  destruct (Z.eqb_spec (zlen meta) 0) as [Hz | Hz];
    destruct (Z.ltb_spec kMaxMetaLen (zlen meta)) as [H1 | H1]; cbn [orb];
    try (rewrite bool_decide_eq_false_2 by lia; done).
  destruct (Z.ltb_spec kResourceChunkSize (zlen raw)) as [H2 | H2];
    [by rewrite bool_decide_eq_false_2 by lia |].
  unfold kMaxFrameBody, kMaxMetaLen, kResourceChunkSize in *.
  rewrite (u64_small (2 + zlen meta)), u64_small by lia.
  destruct (Z.ltb_spec (2 + 8 * 1024 + 256 * 1024) (2 + zlen meta + zlen raw)); [lia |].
  rewrite bool_decide_eq_true_2 by lia.
  unfold u16. rewrite (Z.mod_small (zlen meta)) by lia. done.
Qed.

(** The frame layout of any two leading bytes followed by the rest. *)
Lemma DecodeFrame_layout meta raw frame :
  DecodeFrame frame = Some (meta, raw) ↔
  frame_ok meta raw ∧ frame = be16 (zlen meta) ++ meta ++ raw.
Proof.
  unfold frame_ok, DecodeFrame. split.
  - destruct frame as [| hi [| lo rest]]; try done.
    destruct (_ || _) eqn:Hlen; [done |]. bool_to_prop.
    unfold PeekMetaLen. replace (zlen _ <? 2) with false by (symmetry; apply Z.ltb_ge; lia).
    cbn [orb]. pose proof (bval_range hi). pose proof (bval_range lo).
    set (ml := Z.lor (Z.shiftl (bval hi) 8) (bval lo)).
    assert (Hml : u16 ml = ml).
    { unfold ml, u16. rewrite lor_shift8 by lia. apply Z.mod_small. lia. }
    rewrite Hml. destruct ((ml =? 0) || (kMaxMetaLen <? ml)) eqn:Hm; [done |].
    bool_to_prop. assert (0 <= ml) by (unfold ml; rewrite lor_shift8; lia).
    destruct (Z.ltb_spec (zlen (hi :: lo :: rest) - 2) ml) as [| Hrest]; [done |].
    destruct (Z.ltb_spec kResourceChunkSize (zlen (hi :: lo :: rest) - 2 - ml)) as [| Hraw]; [done |].
    assert (Hz : zlen (hi :: lo :: rest) = 2 + zlen rest) by (unfold zlen; cbn; lia).
    rewrite Hz in *. intros [= <- <-].
    assert (Hmeta : zslice (hi :: lo :: rest) 2 ml = ztake ml rest) by done.
    assert (Hr : zslice (hi :: lo :: rest) (2 + ml) (2 + zlen rest - 2 - ml) = drop (Z.to_nat ml) rest).
    { unfold zslice. rewrite Z2Nat.inj_add by lia. cbn [Nat.add drop].
      change (Z.to_nat 2) with 2%nat. cbn [Nat.add drop].
      apply take_ge. rewrite length_drop. unfold zlen. lia. }
    rewrite Hmeta, Hr, zlen_ztake by lia.
    split; [split; [lia |] |].
    + unfold zlen in *. rewrite length_drop. lia.
    + unfold ml. rewrite be16_bytes. cbn. do 2 f_equal. unfold ztake. by rewrite take_drop.
  - intros [[Hm Hr] ->].
    unfold kMaxFrameBody, kMaxMetaLen, kResourceChunkSize in *.
    pose proof (zlen_nonneg raw).
    rewrite peek_be16; [| lia | rewrite !zlen_app, zlen_be16; lia].
    rewrite !zlen_app, zlen_be16.
    repeat match goal with |- context [?a <? ?b] => destruct (Z.ltb_spec a b); [lia |] end.
    destruct (Z.eqb_spec (zlen meta) 0); [lia |]. cbn [orb].
    f_equal. f_equal.
    + rewrite zslice_skip by done. unfold zlen. rewrite Nat2Z.id. apply take_app_length.
    + rewrite app_assoc, zslice_skip by (by rewrite zlen_app, zlen_be16).
      apply take_ge. unfold zlen. lia.
Qed.

(** ** Properties *)

(** Encoding then decoding a frame gives back exactly the two parts. Whenever
    [EncodeFrame] accepts a metadata block and a raw chunk, [DecodeFrame] of
    the bytes it produced returns the same block and the same chunk. *)
Theorem EncodeFrame_DecodeFrame meta raw frame :
  EncodeFrame meta raw false = Some frame → DecodeFrame frame = Some (meta, raw).
Proof.
  rewrite EncodeFrame_spec. case_bool_decide; [| done]. intros [= <-].
  by apply DecodeFrame_layout.
Qed.

Lemma EncodeFrame_DecodeFrame_witness :
  EncodeFrame (§ "{}") (§ "abc") false = Some (be16 2 ++ § "{}" ++ § "abc") ∧
  DecodeFrame (be16 2 ++ § "{}" ++ § "abc") = Some (§ "{}", § "abc").
Proof.
  split; [vm_compute; reflexivity |].
  apply EncodeFrame_DecodeFrame. vm_compute. reflexivity.
Defined.

(** The frame format is canonical and [DecodeFrame] is exact. A byte string decodes to
    a pair of parts if and only if it is the encoding of that pair, so every
    accepted frame respects both budgets (metadata of 1 to 8192 bytes, chunk
    of at most 262144 bytes), and no two different byte strings carry the
    same content. *)
Theorem DecodeFrame_iff_EncodeFrame meta raw frame :
  DecodeFrame frame = Some (meta, raw) ↔ EncodeFrame meta raw false = Some frame.
Proof.
  rewrite DecodeFrame_layout, EncodeFrame_spec. case_bool_decide as Hok.
  - split; [intros [_ ->]; done | intros [= <-]; done].
  - split; [intros [? _]; done | done].
Qed.

(** The encoder accepts exactly the parts within the budgets, and the frame
    then fits the receive limit of a session. *)
Lemma EncodeFrame_bounds meta raw frame :
  EncodeFrame meta raw false = Some frame → frame_ok meta raw ∧ 3 <= zlen frame <= kMaxFrameBody.
Proof.
  rewrite EncodeFrame_spec. case_bool_decide as Hok; [| done]. intros Hf%(inj Some). subst frame.
  split; [done |]. destruct Hok as [Hm Hr]. pose proof (zlen_nonneg raw).
  rewrite !zlen_app, zlen_be16. unfold kMaxFrameBody, kMaxMetaLen in *. lia.
Qed.
