(* ===== verification/ProtocolIds.v ===== *)
(** * Protocol numbers (proto/protocol_ids.h)

    The message identifiers of the TCP and HTTP protocols and the two error
    tables, as the enumerations of the header with their numeric values, and
    the two request-to-response tables of the servers
    (ChatServer/include/const.h and ResourceServer's ResourceLogicWorker.cpp). *)

From S2P Require Import Prelude.

Inductive MsgId :=
  | MSG_GET_VARIFY_CODE
  | MSG_REG_USER
  | MSG_RESET_PWD
  | MSG_LOGIN_USER
  | MSG_REASSIGN_CHAT
  | MSG_CHAT_LOGIN
  | MSG_CHAT_LOGIN_RSP
  | MSG_HEART_BEAT_REQ
  | MSG_HEARTBEAT_RSP
  | MSG_NOTIFY_OFF_LINE
  | MSG_SEARCH_USER_REQ
  | MSG_SEARCH_USER_RSP
  | MSG_ADD_FRIEND_REQ
  | MSG_ADD_FRIEND_RSP
  | MSG_HANDLE_FRIEND_REQ
  | MSG_HANDLE_FRIEND_RSP
  | MSG_TEXT_CHAT_REQ
  | MSG_TEXT_CHAT_RSP
  | MSG_CREATE_PRIVATE_CHAT_REQ
  | MSG_CREATE_PRIVATE_CHAT_RSP
  | MSG_LOAD_CHAT_THREAD_REQ
  | MSG_LOAD_CHAT_THREAD_RSP
  | MSG_LOAD_CHAT_MSG_REQ
  | MSG_LOAD_CHAT_MSG_RSP
  | MSG_SYNC_USER_MESSAGE_REQ
  | MSG_SYNC_USER_MESSAGE_RSP
  | MSG_RESOURCE_LOGIN_REQ
  | MSG_RESOURCE_LOGIN_RSP
  | MSG_CREATE_RESOURCE_REQ
  | MSG_CREATE_RESOURCE_RSP
  | MSG_RESOURCE_CHUNK_UPLOAD_REQ
  | MSG_RESOURCE_CHUNK_UPLOAD_RSP
  | MSG_RESOURCE_UPLOAD_PROGRESS_REQ
  | MSG_RESOURCE_UPLOAD_PROGRESS_RSP
  | MSG_RESOURCE_DOWN_INFO_REQ
  | MSG_RESOURCE_DOWN_INFO_RSP
  | MSG_RESOURCE_CHUNK_DOWN_REQ
  | MSG_RESOURCE_CHUNK_DOWN_RSP
  | MSG_RESOURCE_INSTANT_PROOF_REQ
  | MSG_RESOURCE_INSTANT_PROOF_RSP
  | MSG_UPLOAD_HEAD_ICON_REQ
  | MSG_UPLOAD_HEAD_ICON_RSP
  | MSG_DOWN_LOAD_FILE_REQ
  | MSG_DOWN_LOAD_FILE_RSP
  | MSG_NOTIFY_USER_MESSAGE.

#[global] Instance MsgId_eq_decision : EqDecision MsgId.
Proof. solve_decision. Defined.

Definition MsgId_code (e : MsgId) : Z :=
  match e with
  | MSG_GET_VARIFY_CODE => 1001
  | MSG_REG_USER => 1002
  | MSG_RESET_PWD => 1003
  | MSG_LOGIN_USER => 1004
  | MSG_REASSIGN_CHAT => 1005
  | MSG_CHAT_LOGIN => 1101
  | MSG_CHAT_LOGIN_RSP => 1102
  | MSG_HEART_BEAT_REQ => 1103
  | MSG_HEARTBEAT_RSP => 1104
  | MSG_NOTIFY_OFF_LINE => 1105
  | MSG_SEARCH_USER_REQ => 1201
  | MSG_SEARCH_USER_RSP => 1202
  | MSG_ADD_FRIEND_REQ => 1203
  | MSG_ADD_FRIEND_RSP => 1204
  | MSG_HANDLE_FRIEND_REQ => 1205
  | MSG_HANDLE_FRIEND_RSP => 1206
  | MSG_TEXT_CHAT_REQ => 1301
  | MSG_TEXT_CHAT_RSP => 1302
  | MSG_CREATE_PRIVATE_CHAT_REQ => 1303
  | MSG_CREATE_PRIVATE_CHAT_RSP => 1304
  | MSG_LOAD_CHAT_THREAD_REQ => 1401
  | MSG_LOAD_CHAT_THREAD_RSP => 1402
  | MSG_LOAD_CHAT_MSG_REQ => 1403
  | MSG_LOAD_CHAT_MSG_RSP => 1404
  | MSG_SYNC_USER_MESSAGE_REQ => 1405
  | MSG_SYNC_USER_MESSAGE_RSP => 1406
  | MSG_RESOURCE_LOGIN_REQ => 1501
  | MSG_RESOURCE_LOGIN_RSP => 1502
  | MSG_CREATE_RESOURCE_REQ => 1503
  | MSG_CREATE_RESOURCE_RSP => 1504
  | MSG_RESOURCE_CHUNK_UPLOAD_REQ => 1505
  | MSG_RESOURCE_CHUNK_UPLOAD_RSP => 1506
  | MSG_RESOURCE_UPLOAD_PROGRESS_REQ => 1507
  | MSG_RESOURCE_UPLOAD_PROGRESS_RSP => 1508
  | MSG_RESOURCE_DOWN_INFO_REQ => 1509
  | MSG_RESOURCE_DOWN_INFO_RSP => 1510
  | MSG_RESOURCE_CHUNK_DOWN_REQ => 1511
  | MSG_RESOURCE_CHUNK_DOWN_RSP => 1512
  | MSG_RESOURCE_INSTANT_PROOF_REQ => 1513
  | MSG_RESOURCE_INSTANT_PROOF_RSP => 1514
  | MSG_UPLOAD_HEAD_ICON_REQ => 1601
  | MSG_UPLOAD_HEAD_ICON_RSP => 1602
  | MSG_DOWN_LOAD_FILE_REQ => 1603
  | MSG_DOWN_LOAD_FILE_RSP => 1604
  | MSG_NOTIFY_USER_MESSAGE => 1701
  end.

Definition MsgId_all : list MsgId :=
  [MSG_GET_VARIFY_CODE;
   MSG_REG_USER;
   MSG_RESET_PWD;
   MSG_LOGIN_USER;
   MSG_REASSIGN_CHAT;
   MSG_CHAT_LOGIN;
   MSG_CHAT_LOGIN_RSP;
   MSG_HEART_BEAT_REQ;
   MSG_HEARTBEAT_RSP;
   MSG_NOTIFY_OFF_LINE;
   MSG_SEARCH_USER_REQ;
   MSG_SEARCH_USER_RSP;
   MSG_ADD_FRIEND_REQ;
   MSG_ADD_FRIEND_RSP;
   MSG_HANDLE_FRIEND_REQ;
   MSG_HANDLE_FRIEND_RSP;
   MSG_TEXT_CHAT_REQ;
   MSG_TEXT_CHAT_RSP;
   MSG_CREATE_PRIVATE_CHAT_REQ;
   MSG_CREATE_PRIVATE_CHAT_RSP;
   MSG_LOAD_CHAT_THREAD_REQ;
   MSG_LOAD_CHAT_THREAD_RSP;
   MSG_LOAD_CHAT_MSG_REQ;
   MSG_LOAD_CHAT_MSG_RSP;
   MSG_SYNC_USER_MESSAGE_REQ;
   MSG_SYNC_USER_MESSAGE_RSP;
   MSG_RESOURCE_LOGIN_REQ;
   MSG_RESOURCE_LOGIN_RSP;
   MSG_CREATE_RESOURCE_REQ;
   MSG_CREATE_RESOURCE_RSP;
   MSG_RESOURCE_CHUNK_UPLOAD_REQ;
   MSG_RESOURCE_CHUNK_UPLOAD_RSP;
   MSG_RESOURCE_UPLOAD_PROGRESS_REQ;
   MSG_RESOURCE_UPLOAD_PROGRESS_RSP;
   MSG_RESOURCE_DOWN_INFO_REQ;
   MSG_RESOURCE_DOWN_INFO_RSP;
   MSG_RESOURCE_CHUNK_DOWN_REQ;
   MSG_RESOURCE_CHUNK_DOWN_RSP;
   MSG_RESOURCE_INSTANT_PROOF_REQ;
   MSG_RESOURCE_INSTANT_PROOF_RSP;
   MSG_UPLOAD_HEAD_ICON_REQ;
   MSG_UPLOAD_HEAD_ICON_RSP;
   MSG_DOWN_LOAD_FILE_REQ;
   MSG_DOWN_LOAD_FILE_RSP;
   MSG_NOTIFY_USER_MESSAGE].

Inductive CommonErrCode :=
  | ERR_SUCCESS
  | ERR_JSON
  | ERR_RPC_FAILED
  | ERR_VARIFY_EXPIRED
  | ERR_VARIFY_CODE
  | ERR_USER_EXIST
  | ERR_PASSWD
  | ERR_EMAIL_NOT_MATCH
  | ERR_PASSWD_UP_FAILED
  | ERR_PASSWD_INVALID
  | ERR_TOKEN_INVALID
  | ERR_UID_INVALID
  | ERR_CREATE_CHAT_FAILED
  | ERR_LOAD_CHAT_FAILED
  | ERR_MESSAGE_STORE_FAILED
  | ERR_RECIPIENT_OFFLINE
  | ERR_SERVER_BUSY
  | ERR_MESSAGE_CONFLICT
  | ERR_NO_CHAT_SERVER
  | ERR_RESOURCE_INVALID
  | ERR_RESOURCE_SIZE_EXCEEDED
  | ERR_FRIEND_REQUEST_NOT_FOUND
  | ERR_FRIEND_REQUEST_HANDLED
  | ERR_ALREADY_FRIENDS
  | ERR_FRIEND_ACTION_INVALID
  | ERR_SYNC_CURSOR_INVALID.

#[global] Instance CommonErrCode_eq_decision : EqDecision CommonErrCode.
Proof. solve_decision. Defined.

Definition CommonErrCode_code (e : CommonErrCode) : Z :=
  match e with
  | ERR_SUCCESS => 0
  | ERR_JSON => 2001
  | ERR_RPC_FAILED => 2002
  | ERR_VARIFY_EXPIRED => 2003
  | ERR_VARIFY_CODE => 2004
  | ERR_USER_EXIST => 2005
  | ERR_PASSWD => 2006
  | ERR_EMAIL_NOT_MATCH => 2007
  | ERR_PASSWD_UP_FAILED => 2008
  | ERR_PASSWD_INVALID => 2009
  | ERR_TOKEN_INVALID => 2010
  | ERR_UID_INVALID => 2011
  | ERR_CREATE_CHAT_FAILED => 2012
  | ERR_LOAD_CHAT_FAILED => 2013
  | ERR_MESSAGE_STORE_FAILED => 2014
  | ERR_RECIPIENT_OFFLINE => 2015
  | ERR_SERVER_BUSY => 2016
  | ERR_MESSAGE_CONFLICT => 2017
  | ERR_NO_CHAT_SERVER => 2018
  | ERR_RESOURCE_INVALID => 2019
  | ERR_RESOURCE_SIZE_EXCEEDED => 2020
  | ERR_FRIEND_REQUEST_NOT_FOUND => 2021
  | ERR_FRIEND_REQUEST_HANDLED => 2022
  | ERR_ALREADY_FRIENDS => 2023
  | ERR_FRIEND_ACTION_INVALID => 2024
  | ERR_SYNC_CURSOR_INVALID => 2025
  end.

Definition CommonErrCode_all : list CommonErrCode :=
  [ERR_SUCCESS;
   ERR_JSON;
   ERR_RPC_FAILED;
   ERR_VARIFY_EXPIRED;
   ERR_VARIFY_CODE;
   ERR_USER_EXIST;
   ERR_PASSWD;
   ERR_EMAIL_NOT_MATCH;
   ERR_PASSWD_UP_FAILED;
   ERR_PASSWD_INVALID;
   ERR_TOKEN_INVALID;
   ERR_UID_INVALID;
   ERR_CREATE_CHAT_FAILED;
   ERR_LOAD_CHAT_FAILED;
   ERR_MESSAGE_STORE_FAILED;
   ERR_RECIPIENT_OFFLINE;
   ERR_SERVER_BUSY;
   ERR_MESSAGE_CONFLICT;
   ERR_NO_CHAT_SERVER;
   ERR_RESOURCE_INVALID;
   ERR_RESOURCE_SIZE_EXCEEDED;
   ERR_FRIEND_REQUEST_NOT_FOUND;
   ERR_FRIEND_REQUEST_HANDLED;
   ERR_ALREADY_FRIENDS;
   ERR_FRIEND_ACTION_INVALID;
   ERR_SYNC_CURSOR_INVALID].

Inductive ResourceErrCode :=
  | RS_FILE_NOT_EXISTS
  | RS_FILE_SAVE_REDIS_FAILED
  | RS_CREATE_FILE_PATH_FAILED
  | RS_FILE_WRITE_PERMISSION
  | RS_FILE_READ_PERMISSION
  | RS_FILE_SEQ_INVALID
  | RS_FILE_OFFSET_INVALID
  | RS_FILE_READ_FAILED
  | RS_REDIS_READ_ERR
  | RS_SERVER_IP_ERR
  | RS_MSG_ID_ERR
  | RS_FILE_HASH_MISMATCH
  | RS_FILE_SIZE_EXCEEDED
  | RS_RESOURCE_NOT_READY
  | RS_RESOURCE_FORBIDDEN
  | RS_RESOURCE_STATE_INVALID
  | RS_FILE_CONTENT_MISMATCH
  | RS_INSTANT_PROOF_INVALID.

#[global] Instance ResourceErrCode_eq_decision : EqDecision ResourceErrCode.
Proof. solve_decision. Defined.

Definition ResourceErrCode_code (e : ResourceErrCode) : Z :=
  match e with
  | RS_FILE_NOT_EXISTS => 2101
  | RS_FILE_SAVE_REDIS_FAILED => 2102
  | RS_CREATE_FILE_PATH_FAILED => 2103
  | RS_FILE_WRITE_PERMISSION => 2104
  | RS_FILE_READ_PERMISSION => 2105
  | RS_FILE_SEQ_INVALID => 2106
  | RS_FILE_OFFSET_INVALID => 2107
  | RS_FILE_READ_FAILED => 2108
  | RS_REDIS_READ_ERR => 2109
  | RS_SERVER_IP_ERR => 2110
  | RS_MSG_ID_ERR => 2111
  | RS_FILE_HASH_MISMATCH => 2112
  | RS_FILE_SIZE_EXCEEDED => 2113
  | RS_RESOURCE_NOT_READY => 2114
  | RS_RESOURCE_FORBIDDEN => 2115
  | RS_RESOURCE_STATE_INVALID => 2116
  | RS_FILE_CONTENT_MISMATCH => 2117
  | RS_INSTANT_PROOF_INVALID => 2118
  end.

Definition ResourceErrCode_all : list ResourceErrCode :=
  [RS_FILE_NOT_EXISTS;
   RS_FILE_SAVE_REDIS_FAILED;
   RS_CREATE_FILE_PATH_FAILED;
   RS_FILE_WRITE_PERMISSION;
   RS_FILE_READ_PERMISSION;
   RS_FILE_SEQ_INVALID;
   RS_FILE_OFFSET_INVALID;
   RS_FILE_READ_FAILED;
   RS_REDIS_READ_ERR;
   RS_SERVER_IP_ERR;
   RS_MSG_ID_ERR;
   RS_FILE_HASH_MISMATCH;
   RS_FILE_SIZE_EXCEEDED;
   RS_RESOURCE_NOT_READY;
   RS_RESOURCE_FORBIDDEN;
   RS_RESOURCE_STATE_INVALID;
   RS_FILE_CONTENT_MISMATCH;
   RS_INSTANT_PROOF_INVALID].

(** The upper bound a TCP frame header may carry. *)
Definition kMaxMsgId : Z := 2048.
(** ** ChatServer: handler registration and the response table *)

Module Chat.

(** The message types [LogicSystem::RegisterCallBacks] installs a handler for. *)
Definition RegisterCallBacks : list MsgId :=
  [MSG_CHAT_LOGIN; MSG_SEARCH_USER_REQ; MSG_ADD_FRIEND_REQ; MSG_HANDLE_FRIEND_REQ;
   MSG_TEXT_CHAT_REQ; MSG_HEART_BEAT_REQ; MSG_LOAD_CHAT_THREAD_REQ;
   MSG_CREATE_PRIVATE_CHAT_REQ; MSG_LOAD_CHAT_MSG_REQ; MSG_CREATE_RESOURCE_REQ;
   MSG_SYNC_USER_MESSAGE_REQ].

(** The switch of [ReqToRspId] in ChatServer/include/const.h; 0 is its default. *)
Definition ReqToRspId (req_id : Z) : Z :=
  if req_id =? MsgId_code MSG_CHAT_LOGIN then MsgId_code MSG_CHAT_LOGIN_RSP
  else if req_id =? MsgId_code MSG_SEARCH_USER_REQ then MsgId_code MSG_SEARCH_USER_RSP
  else if req_id =? MsgId_code MSG_ADD_FRIEND_REQ then MsgId_code MSG_ADD_FRIEND_RSP
  else if req_id =? MsgId_code MSG_HANDLE_FRIEND_REQ then MsgId_code MSG_HANDLE_FRIEND_RSP
  else if req_id =? MsgId_code MSG_TEXT_CHAT_REQ then MsgId_code MSG_TEXT_CHAT_RSP
  else if req_id =? MsgId_code MSG_HEART_BEAT_REQ then MsgId_code MSG_HEARTBEAT_RSP
  else if req_id =? MsgId_code MSG_LOAD_CHAT_THREAD_REQ then MsgId_code MSG_LOAD_CHAT_THREAD_RSP
  else if req_id =? MsgId_code MSG_CREATE_PRIVATE_CHAT_REQ then MsgId_code MSG_CREATE_PRIVATE_CHAT_RSP
  else if req_id =? MsgId_code MSG_LOAD_CHAT_MSG_REQ then MsgId_code MSG_LOAD_CHAT_MSG_RSP
  else if req_id =? MsgId_code MSG_CREATE_RESOURCE_REQ then MsgId_code MSG_CREATE_RESOURCE_RSP
  else if req_id =? MsgId_code MSG_SYNC_USER_MESSAGE_REQ then MsgId_code MSG_SYNC_USER_MESSAGE_RSP
  else 0.

End Chat.

(** ** ResourceServer: handler registration and the response table *)

Module Resource.

Definition RegisterCallBacks : list MsgId :=
  [MSG_UPLOAD_HEAD_ICON_REQ; MSG_DOWN_LOAD_FILE_REQ; MSG_RESOURCE_CHUNK_UPLOAD_REQ;
   MSG_RESOURCE_UPLOAD_PROGRESS_REQ; MSG_RESOURCE_INSTANT_PROOF_REQ;
   MSG_RESOURCE_DOWN_INFO_REQ; MSG_RESOURCE_CHUNK_DOWN_REQ; MSG_RESOURCE_LOGIN_REQ].

Definition ReqToRspId (msg_type : Z) : Z :=
  if msg_type =? MsgId_code MSG_UPLOAD_HEAD_ICON_REQ then MsgId_code MSG_UPLOAD_HEAD_ICON_RSP
  else if msg_type =? MsgId_code MSG_DOWN_LOAD_FILE_REQ then MsgId_code MSG_DOWN_LOAD_FILE_RSP
  else if msg_type =? MsgId_code MSG_RESOURCE_CHUNK_UPLOAD_REQ then MsgId_code MSG_RESOURCE_CHUNK_UPLOAD_RSP
  else if msg_type =? MsgId_code MSG_RESOURCE_UPLOAD_PROGRESS_REQ then MsgId_code MSG_RESOURCE_UPLOAD_PROGRESS_RSP
  else if msg_type =? MsgId_code MSG_RESOURCE_DOWN_INFO_REQ then MsgId_code MSG_RESOURCE_DOWN_INFO_RSP
  else if msg_type =? MsgId_code MSG_RESOURCE_CHUNK_DOWN_REQ then MsgId_code MSG_RESOURCE_CHUNK_DOWN_RSP
  else if msg_type =? MsgId_code MSG_RESOURCE_INSTANT_PROOF_REQ then MsgId_code MSG_RESOURCE_INSTANT_PROOF_RSP
  else 0.

End Resource.

(** ** Properties *)

(** A boolean test over a complete enumeration decides a universal claim. *)
Lemma MsgId_forall (P : MsgId → bool) : forallb P MsgId_all = true → ∀ m, P m = true.
Proof.
  intros H m. rewrite forallb_forall in H. apply H.
  destruct m; vm_compute; tauto.
Qed.

(** Two different message identifiers never share a number, and every
    number passes the header check of both servers. *)
Lemma MsgId_code_inj m n : MsgId_code m = MsgId_code n → m = n.
Proof. destruct m, n; vm_compute; congruence. Qed.

Lemma MsgId_code_bound m : 1001 <= MsgId_code m <= kMaxMsgId.
Proof. destruct m; vm_compute; split; congruence. Qed.

(** The two error tables and the message identifiers use disjoint ranges. *)
Lemma error_codes_disjoint (m : MsgId) (c : CommonErrCode) (r : ResourceErrCode) :
  MsgId_code m ≠ CommonErrCode_code c ∧ MsgId_code m ≠ ResourceErrCode_code r ∧
  CommonErrCode_code c ≠ ResourceErrCode_code r.
Proof.
  assert (1001 <= MsgId_code m <= 1701) by (destruct m; vm_compute; split; congruence).
  assert (CommonErrCode_code c = 0 ∨ 2001 <= CommonErrCode_code c <= 2025)
    by (destruct c; vm_compute; first [left; reflexivity | right; split; congruence]).
  assert (2101 <= ResourceErrCode_code r <= 2118) by (destruct r; vm_compute; split; congruence).
  lia.
Qed.

(** A table entry of either server answers a request with the next number. *)
Lemma ReqToRspId_next_chat req : Chat.ReqToRspId req ≠ 0 →
  ∃ q, q ∈ Chat.RegisterCallBacks ∧ MsgId_code q = req ∧ Chat.ReqToRspId req = req + 1 ∧ Z.odd req = true.
Proof.
  unfold Chat.ReqToRspId. intros H.
  repeat match type of H with context [?a =? MsgId_code ?q] =>
    destruct (Z.eqb_spec a (MsgId_code q));
    [ subst; exists q; split; [| split; [| split]]; [set_solver | done | reflexivity | reflexivity] |] end.
  done.
Qed.

Lemma ReqToRspId_next_resource req : Resource.ReqToRspId req ≠ 0 →
  ∃ q, q ∈ Resource.RegisterCallBacks ∧ MsgId_code q = req ∧ Resource.ReqToRspId req = req + 1 ∧ Z.odd req = true.
Proof.
  unfold Resource.ReqToRspId. intros H.
  repeat match type of H with context [?a =? MsgId_code ?q] =>
    destruct (Z.eqb_spec a (MsgId_code q));
    [ subst; exists q; split; [| split; [| split]]; [set_solver | done | reflexivity | reflexivity] |] end.
  done.
Qed.

(** The response tables and the handler tables agree. On the ChatServer every message
    type with a registered handler has a response identifier, and it is the
    number after the request; the same holds on the ResourceServer except
    for the login handshake, the only message it handles before
    authentication. Conversely a type with a response identifier is an odd
    number with a registered handler. *)
Theorem response_tables_cover_handlers :
  (∀ q, q ∈ Chat.RegisterCallBacks ↔ Chat.ReqToRspId (MsgId_code q) ≠ 0) ∧
  (∀ q, q ∈ Resource.RegisterCallBacks ∧ q ≠ MSG_RESOURCE_LOGIN_REQ ↔
        Resource.ReqToRspId (MsgId_code q) ≠ 0) ∧
  (∀ req, Chat.ReqToRspId req ≠ 0 → Chat.ReqToRspId req = req + 1 ∧ Z.odd req = true) ∧
  (∀ req, Resource.ReqToRspId req ≠ 0 → Resource.ReqToRspId req = req + 1 ∧ Z.odd req = true).
Proof.
  split; [| split; [| split]].
  - intros q. destruct q; apply (bool_decide_unpack _); vm_compute; exact I.
  - intros q. destruct q; apply (bool_decide_unpack _); vm_compute; exact I.
  - intros req H. destruct (ReqToRspId_next_chat req H) as (q & _ & _ & ? & ?). done.
  - intros req H. destruct (ReqToRspId_next_resource req H) as (q & _ & _ & ? & ?). done.
Qed.
