(* ===== verification/SessionLifecycle.v ===== *)
(** * Session lifecycle (server/common/include/SessionLifecycle.h)

    The atomic state machine every TCP session carries. The member functions
    are functions on the state with their result; the loop of [BeginClose]
    (an atomic load followed by weak compare-and-exchange) is also modelled
    at the grain of its atomic accesses, for any number of threads that race
    to close the same session. *)

From S2P Require Import Prelude.

Inductive State := Open | Draining | Closing | Closed.

#[global] Instance State_eq_decision : EqDecision State.
Proof. solve_decision. Defined.

Definition IsOpen (s : State) : bool := bool_decide (s = Open).

Definition GetState (s : State) : State := s.

(** [compare_exchange_strong(expected, desired)] on the current state. *)
Definition cas (s expected desired : State) : bool * State :=
  if decide (s = expected) then (true, desired) else (false, s).

Definition BeginDrain (s : State) : bool * State := cas s Open Draining.

(** The whole loop of [BeginClose] when no other thread interferes. *)
Definition BeginClose (s : State) : bool * State :=
  match s with
  | Open | Draining => (true, Closing)
  | Closing | Closed => (false, s)
  end.

Definition CompleteClose (s : State) : bool * State := cas s Closing Closed.

(** The order of the states: a session only moves forward. *)
Definition rank (s : State) : nat :=
  match s with Open => 0 | Draining => 1 | Closing => 2 | Closed => 3 end.

Inductive lifecycle_op := OpBeginDrain | OpBeginClose | OpCompleteClose.

Definition run_op (s : State) (o : lifecycle_op) : bool * State :=
  match o with
  | OpBeginDrain => BeginDrain s
  | OpBeginClose => BeginClose s
  | OpCompleteClose => CompleteClose s
  end.

(** ** The threads of a racing [BeginClose] *)

(** Where a thread stands in [BeginClose]: before the load, in the loop with
    the value it holds in [current], or returned. *)
Inductive close_pc :=
  | PcLoad
  | PcLoop (current : State)
  | PcReturn (r : bool).

Record close_state := CloseState {
  shared : State;
  threads : list close_pc;
}.

(** The loop test [current == Open || current == Draining]. *)
Definition loop_test (current : State) : close_pc :=
  match current with
  | Open | Draining => PcLoop current
  | Closing | Closed => PcReturn false
  end.

Inductive close_step : close_state → nat → close_state → Prop :=
  | step_load i s ts :
      ts !! i = Some PcLoad →
      close_step (CloseState s ts) i (CloseState s (<[i := loop_test s]> ts))
  | step_cas_success i s ts :
      ts !! i = Some (PcLoop s) →
      close_step (CloseState s ts) i (CloseState Closing (<[i := PcReturn true]> ts))
  (* a weak exchange may fail even when the values agree; it reloads [current] *)
  | step_cas_failure i s cur ts :
      ts !! i = Some (PcLoop cur) →
      close_step (CloseState s ts) i (CloseState s (<[i := loop_test s]> ts))
  (* another thread runs BeginDrain or CompleteClose meanwhile *)
  | step_drain i s ts :
      close_step (CloseState s ts) i (CloseState (BeginDrain s).2 ts)
  | step_complete i s ts :
      close_step (CloseState s ts) i (CloseState (CompleteClose s).2 ts).

Definition close_init (st : close_state) : Prop :=
  shared st = Open ∧ Forall (λ pc, pc = PcLoad) (threads st).

Definition won (pc : close_pc) : nat :=
  match pc with PcReturn true => 1 | _ => 0 end%nat.

(** How many threads saw [BeginClose] return [true]. *)
Fixpoint winners (ts : list close_pc) : nat :=
  match ts with
  | [] => 0
  | pc :: ts => won pc + winners ts
  end%nat.

Definition closing_count (s : State) : nat :=
  match s with Open | Draining => 0 | Closing | Closed => 1 end%nat.

(** A thread in the loop holds Open or Draining; nobody returns [false]
    before the session is closing. *)
Definition pc_ok (s : State) (pc : close_pc) : Prop :=
  match pc with
  | PcLoad => True
  | PcLoop cur => cur = Open ∨ cur = Draining
  | PcReturn _ => s = Closing ∨ s = Closed
  end.

Definition close_inv (st : close_state) : Prop :=
  winners (threads st) = closing_count (shared st) ∧
  Forall (pc_ok (shared st)) (threads st).

(** ** Lemmas *)

Lemma winners_insert ts i old new :
  ts !! i = Some old → (winners (<[i := new]> ts) + won old = winners ts + won new)%nat.
Proof.
  revert i. induction ts as [| pc ts IH]; intros [| i] H; simplify_eq/=; [lia |].
  specialize (IH i H). lia.
Qed.

Lemma pc_ok_mono s s' pc : (rank s <= rank s')%nat → pc_ok s pc → pc_ok s' pc.
Proof. destruct pc, s, s'; cbn; intuition (congruence || lia). Qed.

Lemma pc_ok_loop_test s : pc_ok s (loop_test s).
Proof. destruct s; cbn; auto. Qed.

Lemma won_loop_test s : won (loop_test s) = 0%nat.
Proof. by destruct s. Qed.

Lemma run_op_rank s o : (rank s <= rank (run_op s o).2)%nat.
Proof. destruct s, o; apply Nat.leb_le; reflexivity. Qed.

Lemma closing_count_drain s : closing_count (BeginDrain s).2 = closing_count s.
Proof. by destruct s. Qed.

Lemma closing_count_complete s : closing_count (CompleteClose s).2 = closing_count s.
Proof. by destruct s. Qed.

Lemma close_init_inv st : close_init st → close_inv st.
Proof.
  destruct st as [s ts]. intros [Hs H]. cbn in Hs, H. subst s. split; cbn [shared threads].
  - induction H as [| pc ts -> H IH]; [done | cbn; done].
  - eapply Forall_impl; [exact H |]. intros pc ->. done.
Qed.

Lemma close_step_inv st i st' : close_inv st → close_step st i st' → close_inv st'.
Proof.
  intros [Hw Hp] Hs.
  assert (Hpc : ∀ s ts j pc, Forall (pc_ok s) ts → ts !! j = Some pc → pc_ok s pc)
    by (intros *; rewrite Forall_lookup; eauto).
  destruct Hs as [i s ts Hi | i s ts Hi | i s cur ts Hi | i s ts | i s ts];
    cbn in *; split; cbn [shared threads].
  - pose proof (winners_insert ts i _ (loop_test s) Hi) as H.
    rewrite won_loop_test in H. cbn in H. lia.
  - apply Forall_insert; [done | apply pc_ok_loop_test].
  - pose proof (winners_insert ts i _ (PcReturn true) Hi) as H. cbn in H.
    pose proof (Hpc _ _ _ _ Hp Hi) as [-> | ->]; cbn in Hw; cbn; lia.
  - apply Forall_insert; [| cbn; auto].
    eapply Forall_impl; [exact Hp |]. intros pc. apply pc_ok_mono.
    pose proof (Hpc _ _ _ _ Hp Hi) as [-> | ->]; cbn; lia.
  - pose proof (winners_insert ts i _ (loop_test s) Hi) as H.
    rewrite won_loop_test in H. cbn in H. lia.
  - apply Forall_insert; [done | apply pc_ok_loop_test].
  - by rewrite closing_count_drain.
  - eapply Forall_impl; [exact Hp |]. intros pc. apply pc_ok_mono.
    apply (run_op_rank s OpBeginDrain).
  - by rewrite closing_count_complete.
  - eapply Forall_impl; [exact Hp |]. intros pc. apply pc_ok_mono.
    apply (run_op_rank s OpCompleteClose).
Qed.

(** ** Properties *)

(** Exactly one thread closes a session. In every interleaving of any number of
    threads that call [BeginClose] on the same session, with [BeginDrain] and
    [CompleteClose] running beside them and with spurious failures of the weak
    exchange, at most one call returns [true], and once any call has returned
    [false] exactly one has returned [true]. *)
Theorem BeginClose_single_winner st :
  reachable close_init close_step st →
  (winners (threads st) <= 1)%nat ∧
  (PcReturn false ∈ threads st → winners (threads st) = 1%nat).
Proof.
  intros Hr. apply (reachable_invariant _ _ close_inv close_init_inv close_step_inv) in Hr.
  destruct Hr as [Hw Hp]. rewrite Hw. split; [destruct (shared st); cbn; lia |].
  intros Hin. rewrite Forall_forall in Hp. specialize (Hp _ Hin).
  cbn in Hp. by destruct Hp as [-> | ->].
Qed.

Lemma BeginClose_single_winner_witness :
  let st := CloseState Closing [PcReturn true; PcReturn false] in
  reachable close_init close_step st ∧ winners (threads st) = 1%nat.
Proof.
  assert (Hr : reachable close_init close_step (CloseState Closing [PcReturn true; PcReturn false])).
  { apply (reach_step _ _ (CloseState Closing [PcReturn true; PcLoad]) 1%nat);
      [| apply (step_load 1 Closing [PcReturn true; PcLoad]); reflexivity].
    apply (reach_step _ _ (CloseState Open [PcLoop Open; PcLoad]) 0%nat);
      [| apply (step_cas_success 0 Open [PcLoop Open; PcLoad]); reflexivity].
    apply (reach_step _ _ (CloseState Open [PcLoad; PcLoad]) 0%nat);
      [| apply (step_load 0 Open [PcLoad; PcLoad]); reflexivity].
    apply reach_init. split; [reflexivity | repeat constructor]. }
  split; [exact Hr |].
  apply (BeginClose_single_winner _ Hr).
  apply (proj2 (list_elem_of_In _ _)). right. left. reflexivity.
Defined.

(** The lifecycle only moves forward: an operation that succeeds raises the
    rank, one that fails changes nothing, and an operation that has succeeded
    fails in every later state. *)
Lemma run_op_success_once s o s' :
  (run_op s o).1 = true → (rank (run_op s o).2 <= rank s')%nat → (run_op s' o).1 = false.
Proof. destruct s, o, s'; vm_compute; intros; (done || lia). Qed.

Lemma run_op_failure s o : (run_op s o).1 = false → (run_op s o).2 = s.
Proof. destruct s, o; done. Qed.
