(* ===== verification/ResourceSession.v ===== *)
(** * TCP sessions of the ResourceServer (ResourceServer/src/CSession.cpp)

    Framing: [SendNode] builds a frame of a 6-byte header and a body, and
    [AsyncReadHead] decides what to do with a received header. Sending: any
    worker thread calls [Send], [SendAndClose] or [Close]; what they post runs
    later on the session's IO thread, which also runs the completions of the
    asynchronous writes. [session_step] interleaves all of them, one critical
    section at a time. Receiving: a frame body takes a quota token that is
    given back when the task that holds it is destroyed. *)

From S2P Require Import Prelude ProtocolIds ResourceWire SessionLifecycle.

Definition HEAD_TOTAL_LEN : Z := 6.
Definition kMaxFrameBodyLen : Z := kMaxFrameBody.
Definition kMaxSendQueFrames : Z := 1024.
Definition kMaxSendQueBytes : Z := 64 * 1024 * 1024.
Definition kMaxSessionInflightTaskBytes : Z := 8 * 1024 * 1024.
Definition kUnauthedMaxBodyLen : Z := 4096.

(** ** Frames *)

(** The four bytes of a length in network order. *)
Definition be32 (n : Z) : bytes :=
  [mkbyte (Z.shiftr n 24); mkbyte (Z.shiftr n 16); mkbyte (Z.shiftr n 8); mkbyte n].

(** The buffer of a [SendNode]: type, length and body, [_total_len] long. *)
Definition SendNode (msg : bytes) (msg_type : Z) : bytes :=
  be16 (u16 msg_type) ++ be32 (u32 (zlen msg)) ++ msg.

Definition network_to_host_short (b : bytes) : Z :=
  match b with
  | [b0; b1] => bval b0 * 256 + bval b1
  | _ => 0
  end.

Definition network_to_host_long (b : bytes) : Z :=
  match b with
  | [b0; b1; b2; b3] => ((bval b0 * 256 + bval b1) * 256 + bval b2) * 256 + bval b3
  | _ => 0
  end.

(** What the completion of a header read does: close the session, drop the
    header of a session that is no longer open, or read a body. *)
Inductive head_result :=
  | HeadClose
  | HeadIgnored
  | HeadBody (msg_type msg_len : Z).

Definition AsyncReadHead (st : State) (authed ec : bool) (head : bytes) : head_result :=
  if ec then HeadClose
  else if zlen head <? HEAD_TOTAL_LEN then HeadClose
  else if negb (IsOpen st) then HeadIgnored
  else
    let msg_type := network_to_host_short (zslice head 0 2) in
    if kMaxMsgId <? msg_type then HeadClose
    else
      let msg_len := network_to_host_long (zslice head 2 4) in
      if (msg_len =? 0) || (kMaxFrameBodyLen <? msg_len) then HeadClose
      else if negb authed && (kUnauthedMaxBodyLen <? msg_len) then HeadClose
      else HeadBody msg_type msg_len.

(** ** The session object *)

(** A closure posted to the IO thread: the body of [Send], of
    [SendAndClose], or the socket teardown that [Close] dispatches. The first
    two own a budget guard for their frame. *)
Inductive posted_task :=
  | PostSend (frame : bytes)
  | PostSendAndClose (frame : bytes)
  | PostTeardown.

Record session := Session {
  lifecycle : State;
  socket_open : bool;
  send_que : list bytes;
  writing : bool;              (* an async_write of the front is outstanding *)
  send_pending_frames : Z;
  send_pending_bytes : Z;
  posted : list posted_task;
  authed : bool;
  user_uid : Z;
  inflight_task_bytes : Z;
  quotas : list Z;             (* live SessionTaskQuota tokens *)
}.

Definition set_send s lc q w := Session lc (socket_open s) q w (send_pending_frames s)
  (send_pending_bytes s) (posted s) (authed s) (user_uid s) (inflight_task_bytes s) (quotas s).
Definition set_budget s f b := Session (lifecycle s) (socket_open s) (send_que s) (writing s)
  f b (posted s) (authed s) (user_uid s) (inflight_task_bytes s) (quotas s).
Definition set_posted s p := Session (lifecycle s) (socket_open s) (send_que s) (writing s)
  (send_pending_frames s) (send_pending_bytes s) p (authed s) (user_uid s)
  (inflight_task_bytes s) (quotas s).
Definition set_quota s n q := Session (lifecycle s) (socket_open s) (send_que s) (writing s)
  (send_pending_frames s) (send_pending_bytes s) (posted s) (authed s) (user_uid s) n q.

(** A session the server has just accepted. *)
Definition new_session : session :=
  Session Open true [] false 0 0 [] false 0 0 [].

(** ** Budgets *)

Definition TryReserveSendBudget (s : session) (frame_bytes : Z) : option session :=
  if (kMaxSendQueFrames <=? send_pending_frames s)
     || (kMaxSendQueBytes <? u64 (send_pending_bytes s + frame_bytes)) then None
  else Some (set_budget s (send_pending_frames s + 1) (u64 (send_pending_bytes s + frame_bytes))).

(** [ReleaseSendBudget], and the same code inlined where the lock is held. *)
Definition ReleaseSendBudget (s : session) (frame_bytes : Z) : session :=
  set_budget s
    (if 0 <? send_pending_frames s then send_pending_frames s - 1 else send_pending_frames s)
    (if frame_bytes <=? send_pending_bytes s then send_pending_bytes s - frame_bytes else 0).

Definition TryAcquireTaskBytes (s : session) (n : Z) : option session :=
  if n =? 0 then Some s
  else
    let current := inflight_task_bytes s in
    if (kMaxSessionInflightTaskBytes <? current)
       || (kMaxSessionInflightTaskBytes - current <? n) then None
    else Some (set_quota s (u64 (current + n)) (quotas s)).

Definition ReleaseTaskBytes (s : session) (n : Z) : session :=
  if n =? 0 then s else set_quota s (u64 (inflight_task_bytes s - n)) (quotas s).

(** [SessionTaskQuota::Acquire]: a token of [n] bytes, or nothing. *)
Definition AcquireQuota (s : session) (n : Z) : option session :=
  match TryAcquireTaskBytes s n with
  | None => None
  | Some s' => Some (set_quota s' (inflight_task_bytes s') (n :: quotas s'))
  end.

(** [~SessionTaskQuota] of the [i]-th live token. *)
Definition DestroyQuota (s : session) (i : nat) : session :=
  match quotas s !! i with
  | None => s
  | Some n =>
      let s' := ReleaseTaskBytes s n in
      set_quota s' (inflight_task_bytes s') (delete i (quotas s'))
  end.

(** ** Operations *)

Definition TrySetAuth (s : session) (uid : Z) : bool * session :=
  if uid <=? 0 then (false, s)
  else if negb (IsOpen (lifecycle s)) || authed s then (false, s)
  else (true, Session (lifecycle s) (socket_open s) (send_que s) (writing s)
          (send_pending_frames s) (send_pending_bytes s) (posted s) true uid
          (inflight_task_bytes s) (quotas s)).

Definition Close (s : session) : session :=
  let '(won, lc) := BeginClose (lifecycle s) in
  if won then
    set_posted (set_send s lc (send_que s) (writing s)) (posted s ++ [PostTeardown])
  else s.

(** The closure [Close] dispatches: the socket closes and the state becomes Closed. *)
Definition Teardown (s : session) : session :=
  Session (CompleteClose (lifecycle s)).2 false (send_que s) (writing s)
    (send_pending_frames s) (send_pending_bytes s) (posted s) (authed s) (user_uid s)
    (inflight_task_bytes s) (quotas s).

Definition Send (s : session) (msg : bytes) (msg_type : Z) : session :=
  match TryReserveSendBudget s (u64 (HEAD_TOTAL_LEN + zlen msg)) with
  | None => Close s
  | Some s' => set_posted s' (posted s' ++ [PostSend (SendNode msg msg_type)])
  end.

Definition SendAndClose (s : session) (msg : bytes) (msg_type : Z) : session :=
  match TryReserveSendBudget s (u64 (HEAD_TOTAL_LEN + zlen msg)) with
  | None => Close s
  | Some s' => set_posted s' (posted s' ++ [PostSendAndClose (SendNode msg msg_type)])
  end.

(** Queue a frame; the first frame of an idle queue starts a write. *)
Definition enqueue (s : session) (lc : State) (frame : bytes) : session :=
  let q := send_que s ++ [frame] in
  set_send s lc q (if 1 <? zlen q then writing s else true).

(** The closure of [Send]; its guard gives the budget back when the frame is
    not queued. *)
Definition run_send (s : session) (frame : bytes) : session :=
  if negb (IsOpen (lifecycle s)) || negb (socket_open s) then ReleaseSendBudget s (zlen frame)
  else enqueue s (lifecycle s) frame.

Definition run_send_and_close (s : session) (frame : bytes) : session :=
  if negb (socket_open s) then Close (ReleaseSendBudget s (zlen frame))
  else
    let '(ok, lc) := BeginDrain (lifecycle s) in
    if negb ok then ReleaseSendBudget s (zlen frame)
    else enqueue s lc frame.

(** [ClearSendQueueLocked]: every queued frame gives its budget back. *)
Fixpoint clear_budget (s : session) (q : list bytes) : session :=
  match q with
  | [] => s
  | f :: q => clear_budget (ReleaseSendBudget s (zlen f)) q
  end.

Definition ClearSendQueueLocked (s : session) : session :=
  let s' := clear_budget s (send_que s) in
  set_send s' (lifecycle s') [] (writing s').

(** The completion of an asynchronous write. *)
Definition HandleWrite (s : session) (error : bool) : session :=
  if negb error then
    let s1 := match send_que s with
      | [] => s
      | f :: q => let s' := ReleaseSendBudget s (zlen f) in
                  set_send s' (lifecycle s') q (writing s')
      end in
    match send_que s1 with
    | _ :: _ => set_send s1 (lifecycle s1) (send_que s1) true
    | [] =>
        let s2 := set_send s1 (lifecycle s1) [] false in
        if decide (GetState (lifecycle s2) = Draining) then Close s2 else s2
    end
  else
    let s1 := ClearSendQueueLocked s in
    Close (set_send s1 (lifecycle s1) (send_que s1) false).

(** The completion of a body read: the frame needs a quota token. *)
Definition AsyncReadBody (s : session) (total_len : Z) (ec : bool) (got : Z) : option session * session :=
  if ec then (None, Close s)
  else if got <? total_len then (None, Close s)
  else if negb (IsOpen (lifecycle s)) then (None, s)
  else match AcquireQuota s (u64 (HEAD_TOTAL_LEN + total_len)) with
       | None => (None, Close s)
       | Some s' => (Some s', s')
       end.

(** What runs on the IO thread for a posted closure. *)
Definition run_posted (s : session) (t : posted_task) : session :=
  match t with
  | PostSend f => run_send s f
  | PostSendAndClose f => run_send_and_close s f
  | PostTeardown => Teardown s
  end.

(** A closure that is destroyed without running only frees its guard. *)
Definition drop_posted (s : session) (t : posted_task) : session :=
  match t with
  | PostSend f | PostSendAndClose f => ReleaseSendBudget s (zlen f)
  | PostTeardown => s
  end.

(** ** Interleavings *)

Inductive label :=
  | LSend (msg : bytes) (msg_type : Z)
  | LSendAndClose (msg : bytes) (msg_type : Z)
  | LClose                       (* any caller, or the drain timer *)
  | LAuth (uid : Z)
  | LRun (i : nat)               (* the IO thread runs a posted closure *)
  | LDrop (i : nat)              (* the io_context is destroyed with it *)
  | LWritten (error : bool)
  | LReadBody (total_len : Z) (ec : bool) (got : Z)
  | LTaskDone (i : nat).

Inductive session_step : session → label → session → Prop :=
  | ss_send s msg t :
      zlen msg < 2 ^ 62 → session_step s (LSend msg t) (Send s msg t)
  | ss_send_and_close s msg t :
      zlen msg < 2 ^ 62 → session_step s (LSendAndClose msg t) (SendAndClose s msg t)
  | ss_close s : session_step s LClose (Close s)
  | ss_auth s uid : session_step s (LAuth uid) (TrySetAuth s uid).2
  | ss_run s i t : posted s !! i = Some t →
      session_step s (LRun i) (run_posted (set_posted s (delete i (posted s))) t)
  | ss_drop s i t : posted s !! i = Some t →
      session_step s (LDrop i) (drop_posted (set_posted s (delete i (posted s))) t)
  | ss_written s error : writing s = true → session_step s (LWritten error) (HandleWrite s error)
  | ss_read_body s n ec got : 1 <= n <= kMaxFrameBodyLen →
      session_step s (LReadBody n ec got) (AsyncReadBody s n ec got).2
  | ss_task_done s i : session_step s (LTaskDone i) (DestroyQuota s i).

Definition session_init (s : session) : Prop := s = new_session.

(** ** The accounting invariant *)

Definition task_frame (t : posted_task) : list bytes :=
  match t with
  | PostSend f | PostSendAndClose f => [f]
  | PostTeardown => []
  end.

(** Frames that hold a reservation: posted or queued. *)
Definition reserved (s : session) : list bytes := (posted s ≫= task_frame) ++ send_que s.

Fixpoint frames_bytes (l : list bytes) : Z :=
  match l with
  | [] => 0
  | f :: l => zlen f + frames_bytes l
  end.

Fixpoint zsum (l : list Z) : Z :=
  match l with
  | [] => 0
  | n :: l => n + zsum l
  end.

Definition send_exact (s : session) : Prop :=
  send_pending_frames s = zlen (reserved s) ∧
  send_pending_bytes s = frames_bytes (reserved s).

Definition session_inv (s : session) : Prop :=
  send_exact s ∧
  send_pending_frames s <= kMaxSendQueFrames ∧
  send_pending_bytes s <= kMaxSendQueBytes ∧
  (writing s = true ↔ send_que s ≠ []) ∧
  inflight_task_bytes s = zsum (quotas s) ∧
  Forall (λ n, 0 <= n) (quotas s) ∧
  inflight_task_bytes s <= kMaxSessionInflightTaskBytes ∧
  (authed s = true ↔ user_uid s ≠ 0).

(** ** Lemmas on the measures *)

Definition posted_frames (p : list posted_task) : Z := zlen (p ≫= task_frame).
Definition posted_bytes (p : list posted_task) : Z := frames_bytes (p ≫= task_frame).

#[local] Arguments posted_frames : simpl never.
#[local] Arguments posted_bytes : simpl never.
#[local] Arguments zlen {_} _ : simpl never.
#[local] Arguments Z.add : simpl never.
#[local] Arguments Z.sub : simpl never.
#[local] Arguments Z.leb : simpl never.
#[local] Arguments Z.ltb : simpl never.

Lemma frames_bytes_app l k : frames_bytes (l ++ k) = frames_bytes l + frames_bytes k.
Proof. induction l; cbn; lia. Qed.

Lemma frames_bytes_nonneg l : 0 <= frames_bytes l.
Proof. induction l as [| f l IH]; cbn; [lia | pose proof (zlen_nonneg f); lia]. Qed.

Lemma send_exact_alt s :
  send_exact s ↔ send_pending_frames s = posted_frames (posted s) + zlen (send_que s) ∧
                 send_pending_bytes s = posted_bytes (posted s) + frames_bytes (send_que s).
Proof.
  unfold send_exact, reserved, posted_frames, posted_bytes.
  by rewrite zlen_app, frames_bytes_app.
Qed.

Lemma posted_app p t :
  posted_frames (p ++ [t]) = posted_frames p + zlen (task_frame t) ∧
  posted_bytes (p ++ [t]) = posted_bytes p + frames_bytes (task_frame t).
Proof.
  unfold posted_frames, posted_bytes. rewrite bind_app. cbn.
  rewrite app_nil_r, zlen_app, frames_bytes_app. done.
Qed.

Lemma posted_delete p i t :
  p !! i = Some t →
  posted_frames p = posted_frames (delete i p) + zlen (task_frame t) ∧
  posted_bytes p = posted_bytes (delete i p) + frames_bytes (task_frame t).
Proof.
  intros Hi. unfold posted_frames, posted_bytes.
  rewrite <- (take_drop_middle p i t Hi) at 1 3.
  rewrite delete_take_drop, !bind_app. cbn.
  rewrite !zlen_app, !frames_bytes_app. lia.
Qed.

Lemma zsum_nonneg l : Forall (λ n, 0 <= n) l → 0 <= zsum l.
Proof. induction 1; cbn; lia. Qed.

Lemma zsum_delete l i n : l !! i = Some n → zsum l = zsum (delete i l) + n.
Proof.
  revert i. induction l as [| m l IH]; intros [| i] H; simplify_eq/=; [lia |].
  specialize (IH i H). lia.
Qed.

Lemma zlen_be32 n : zlen (be32 n) = 4.
Proof. done. Qed.

Lemma zlen_SendNode msg t : zlen msg < 2 ^ 32 → zlen (SendNode msg t) = HEAD_TOTAL_LEN + zlen msg.
Proof.
  intros. unfold SendNode. rewrite !zlen_app, zlen_be16, zlen_be32. unfold HEAD_TOTAL_LEN. lia.
Qed.

(** ** Each operation keeps the accounting *)

(** The part of the invariant that [Close] and the closures share. *)
Ltac open_session s H :=
  destruct s; unfold session_inv in H |- *; rewrite send_exact_alt in H;
  try rewrite send_exact_alt; cbn in *;
  destruct H as ((?&?)&?&?&?&?&?&?&?).

Ltac solve_session :=
  unfold kMaxSendQueFrames, kMaxSendQueBytes, kMaxSessionInflightTaskBytes in *;
  repeat match goal with
  | |- _ ∧ _ => split
  | |- Forall _ (_ :: _) => constructor
  end; first [done | lia].

Lemma inv_close s : session_inv s → session_inv (Close s).
Proof.
  intros H. unfold Close. destruct (BeginClose (lifecycle s)) as [[] lc]; [| done].
  open_session s H. destruct (posted_app posted0 PostTeardown) as [-> ->]. cbn.
  rewrite !Z.add_0_r. auto 10.
Qed.

(** Giving back the budget of a frame that was counted and is no longer
    reserved restores the exact count. *)
Lemma inv_release s (f : bytes) :
  send_pending_frames s = posted_frames (posted s) + zlen (send_que s) + 1 →
  send_pending_bytes s = posted_bytes (posted s) + frames_bytes (send_que s) + zlen f →
  let s' := ReleaseSendBudget s (zlen f) in
  send_pending_frames s' = posted_frames (posted s') + zlen (send_que s') ∧
  send_pending_bytes s' = posted_bytes (posted s') + frames_bytes (send_que s').
Proof.
  intros Hf Hb. cbn. rewrite Hf, Hb.
  pose proof (zlen_nonneg (posted s ≫= task_frame)). pose proof (zlen_nonneg (send_que s)).
  pose proof (frames_bytes_nonneg (posted s ≫= task_frame)).
  pose proof (frames_bytes_nonneg (send_que s)).
  unfold posted_frames, posted_bytes in *.
  destruct (Z.ltb_spec 0 (zlen (posted s ≫= task_frame) + zlen (send_que s) + 1)); [| lia].
  destruct (Z.leb_spec (zlen f) (frames_bytes (posted s ≫= task_frame) + frames_bytes (send_que s) + zlen f)); lia.
Qed.

(** A state whose counters also cover one frame [f] that a running closure owns. *)
Definition owes (f : bytes) (s : session) : Prop :=
  send_pending_frames s = posted_frames (posted s) + zlen (send_que s) + 1 ∧
  send_pending_bytes s = posted_bytes (posted s) + frames_bytes (send_que s) + zlen f ∧
  send_pending_frames s <= kMaxSendQueFrames ∧
  send_pending_bytes s <= kMaxSendQueBytes ∧
  (writing s = true ↔ send_que s ≠ []) ∧
  inflight_task_bytes s = zsum (quotas s) ∧
  Forall (λ n, 0 <= n) (quotas s) ∧
  inflight_task_bytes s <= kMaxSessionInflightTaskBytes ∧
  (authed s = true ↔ user_uid s ≠ 0).

Lemma inv_owes s i t f :
  session_inv s → posted s !! i = Some t → task_frame t = [f] →
  owes f (set_posted s (delete i (posted s))).
Proof.
  intros H Hi Ht. pose proof (posted_delete _ _ _ Hi) as [Hf Hb]. rewrite Ht in Hf, Hb.
  open_session s H. unfold owes; cbn in *. change (zlen [f]) with 1 in Hf.
  solve_session.
Qed.

Lemma owes_release s (f : bytes) : owes f s → session_inv (ReleaseSendBudget s (zlen f)).
Proof.
  intros (Hf & Hb & Hlf & Hlb & Hrest).
  pose proof (inv_release s f Hf Hb) as [Hf' Hb'].
  pose proof (zlen_nonneg f).
  split; [apply send_exact_alt; done |].
  split; [cbn in *; lia |]. split; [cbn in *; lia |]. done.
Qed.

Lemma owes_enqueue s f lc : owes f s → session_inv (enqueue s lc f).
Proof.
  intros (Hf & Hb & Hlf & Hlb & Hw & Hrest). unfold enqueue.
  split; [| split; [| split; [| split]]]; cbn.
  - apply send_exact_alt. cbn. rewrite zlen_app, frames_bytes_app. cbn.
    change (zlen [f]) with 1. lia.
  - lia.
  - lia.
  - rewrite zlen_app. change (zlen [f]) with 1.
    destruct (Z.ltb_spec 1 (zlen (send_que s) + 1)) as [Hq | Hq].
    + rewrite Hw. split; intros _; [by destruct (send_que s) |].
      intros Hnil. unfold zlen in Hq. rewrite Hnil in Hq. cbn in Hq. lia.
    + split; [intros _; by destruct (send_que s) | done].
  - done.
Qed.

Lemma inv_run_posted s i t :
  session_inv s → posted s !! i = Some t →
  session_inv (run_posted (set_posted s (delete i (posted s))) t).
Proof.
  intros H Hi. destruct t as [f | f |]; cbn.
  - pose proof (inv_owes s i _ f H Hi eq_refl) as Ho. unfold run_send.
    case_match; [by apply owes_release | by apply owes_enqueue].
  - pose proof (inv_owes s i _ f H Hi eq_refl) as Ho. unfold run_send_and_close.
    case_match; [apply inv_close; by apply owes_release |].
    destruct (BeginDrain _) as [[] lc]; cbn; [by apply owes_enqueue | by apply owes_release].
  - pose proof (posted_delete _ _ _ Hi) as [Hf Hb]. cbn in Hf, Hb.
    open_session s H. change (zlen []) with 0 in Hf.
    solve_session.
Qed.

Lemma inv_drop_posted s i t :
  session_inv s → posted s !! i = Some t →
  session_inv (drop_posted (set_posted s (delete i (posted s))) t).
Proof.
  intros H Hi. destruct t as [f | f |]; cbn.
  - apply owes_release. eapply inv_owes; eauto.
  - apply owes_release. eapply inv_owes; eauto.
  - pose proof (posted_delete _ _ _ Hi) as [Hf Hb]. cbn in Hf, Hb.
    open_session s H. change (zlen []) with 0 in Hf.
    solve_session.
Qed.

Lemma inv_reserve s msg t mk :
  zlen msg < 2 ^ 62 → (∀ f, task_frame (mk f) = [f]) → session_inv s →
  session_inv
    match TryReserveSendBudget s (u64 (HEAD_TOTAL_LEN + zlen msg)) with
    | None => Close s
    | Some s' => set_posted s' (posted s' ++ [mk (SendNode msg t)])
    end.
Proof.
  intros Hm Hmk H. unfold TryReserveSendBudget.
  destruct (_ || _) eqn:Hlim; [by apply inv_close |]. bool_to_prop.
  pose proof (zlen_nonneg msg). unfold HEAD_TOTAL_LEN, kMaxSendQueBytes, kMaxSendQueFrames in *.
  pose proof (frames_bytes_nonneg (reserved s)).
  assert (send_pending_bytes s = frames_bytes (reserved s)) as Hb by apply H.
  assert (send_pending_bytes s <= 64 * 1024 * 1024) as Hb' by apply H.
  assert (u64 (6 + zlen msg) = 6 + zlen msg) as E1 by (apply u64_small; lia).
  rewrite E1 in *.
  assert (u64 (send_pending_bytes s + (6 + zlen msg)) = send_pending_bytes s + (6 + zlen msg)) as E2
    by (apply u64_small; lia).
  rewrite E2 in *.
  assert (Hn : zlen (SendNode msg t) = 6 + zlen msg) by (apply zlen_SendNode; lia).
  destruct (posted_app (posted s) (mk (SendNode msg t))) as [Ef Eb]. rewrite Hmk in Ef, Eb.
  change (zlen [SendNode msg t]) with 1 in Ef. cbn in Eb.
  clear Hb. open_session s H.
  solve_session.
Qed.

Lemma inv_clear_budget s q :
  posted_frames (posted s) + zlen q = send_pending_frames s →
  posted_bytes (posted s) + frames_bytes q = send_pending_bytes s →
  let s' := clear_budget s q in
  posted s' = posted s ∧ lifecycle s' = lifecycle s ∧ writing s' = writing s ∧
  authed s' = authed s ∧ user_uid s' = user_uid s ∧
  inflight_task_bytes s' = inflight_task_bytes s ∧ quotas s' = quotas s ∧
  send_pending_frames s' = posted_frames (posted s) ∧
  send_pending_bytes s' = posted_bytes (posted s).
Proof.
  revert s. induction q as [| f q IH]; intros s Hf Hb; cbn.
  - change (zlen []) with 0 in Hf. cbn in Hb. repeat split; lia || done.
  - assert (Hz : zlen (f :: q) = 1 + zlen q) by (unfold zlen; cbn; lia).
    rewrite Hz in Hf. cbn in Hb.
    pose proof (zlen_nonneg (posted s ≫= task_frame)). pose proof (zlen_nonneg q).
    pose proof (frames_bytes_nonneg (posted s ≫= task_frame)).
    pose proof (frames_bytes_nonneg q).
    unfold posted_frames, posted_bytes in *.
    destruct (IH (ReleaseSendBudget s (zlen f))) as (?&?&?&?&?&?&?&?&?); [| | auto 20];
      cbn; rewrite <- ?Hf, <- ?Hb;
      match goal with |- context [if ?c then _ else _] => destruct c eqn:? end;
      bool_to_prop; lia.
Qed.

Lemma inv_handle_write s error :
  writing s = true → session_inv s → session_inv (HandleWrite s error).
Proof.
  intros Hw H. unfold HandleWrite. destruct error; cbn.
  - apply inv_close. unfold ClearSendQueueLocked.
    destruct H as (He & Hlf & Hlb & _ & Hrest). apply send_exact_alt in He as [Hf Hb].
    destruct (inv_clear_budget s (send_que s)) as (E1&E2&E3&E4&E5&E6&E7&E8&E9); [lia | lia |].
    pose proof (zlen_nonneg (send_que s)). pose proof (frames_bytes_nonneg (send_que s)).
    split; [apply send_exact_alt; cbn; rewrite E1, E8, E9; change (zlen []) with 0; lia |].
    split; [cbn; lia |]. split; [cbn; lia |]. split; [cbn; split; done |].
    cbn. rewrite E4, E5, E6, E7. done.
  - destruct H as (He & Hlf & Hlb & Hq & Hrest). apply send_exact_alt in He as [Hf Hb].
    destruct (send_que s) as [| f q] eqn:Eq; [by apply Hq in Hw |].
    assert (Hz : zlen (f :: q) = 1 + zlen q) by (unfold zlen; cbn; lia).
    rewrite Hz in Hf. cbn in Hb.
    set (s0 := set_send s (lifecycle s) q true).
    destruct (inv_release s0 f) as [Hf' Hb']; [unfold s0; cbn; lia | unfold s0; cbn; lia |].
    cbn in Hf', Hb'. pose proof (zlen_nonneg f).
    assert (Hall : ∀ w, (w = true ↔ q ≠ []) →
      session_inv (set_send (ReleaseSendBudget s (zlen f)) (lifecycle s) q w)).
    { intros w Hw'. split; [apply send_exact_alt; cbn; done |].
      split; [cbn in *; lia |]. split; [cbn in *; lia |]. split; [done | done]. }
    cbn. destruct q as [| g q].
    + case_decide; [apply inv_close |]; apply (Hall false); done.
    + apply (Hall true). done.
Qed.

Lemma inv_quota s n s' :
  0 <= n < 2 ^ 62 → session_inv s → AcquireQuota s n = Some s' → session_inv s'.
Proof.
  intros Hn H. unfold AcquireQuota, TryAcquireTaskBytes.
  destruct (Z.eqb_spec n 0) as [-> | Hne].
  - intros [= <-]. open_session s H. solve_session.
  - destruct (_ || _) eqn:Hlim; [done |]. bool_to_prop. intros [= <-].
    pose proof (zsum_nonneg (quotas s)) as Hz.
    assert (Forall (λ n, 0 <= n) (quotas s)) as HF by apply H. specialize (Hz HF).
    assert (inflight_task_bytes s = zsum (quotas s)) as Hi by apply H.
    unfold kMaxSessionInflightTaskBytes in *.
    assert (u64 (inflight_task_bytes s + n) = inflight_task_bytes s + n) as E
      by (apply u64_small; lia).
    open_session s H. rewrite E. solve_session.
Qed.

Lemma inv_destroy_quota s i : session_inv s → session_inv (DestroyQuota s i).
Proof.
  intros H. unfold DestroyQuota. destruct (quotas s !! i) as [n |] eqn:Ei; [| done].
  assert (Forall (λ n, 0 <= n) (quotas s)) as HF by apply H.
  pose proof (zsum_delete _ _ _ Ei) as Hs.
  assert (HFd : Forall (λ n, 0 <= n) (delete i (quotas s))) by (by apply Forall_delete).
  pose proof (zsum_nonneg _ HFd). rewrite Forall_lookup in HF. pose proof (HF _ _ Ei) as Hn.
  assert (inflight_task_bytes s = zsum (quotas s)) as Hi by apply H.
  assert (inflight_task_bytes s <= 8 * 1024 * 1024) as Hl by apply H.
  unfold ReleaseTaskBytes. destruct (Z.eqb_spec n 0) as [-> | Hne].
  - open_session s H. solve_session.
  - assert (u64 (inflight_task_bytes s - n) = inflight_task_bytes s - n) as E
      by (apply u64_small; lia).
    open_session s H. rewrite E. solve_session.
Qed.

Lemma inv_auth s uid : session_inv s → session_inv (TrySetAuth s uid).2.
Proof.
  intros H. unfold TrySetAuth. destruct (Z.leb_spec uid 0); [done |].
  destruct (_ || _); [done |]. open_session s H.
  solve_session.
Qed.

Lemma session_step_inv s l s' : session_inv s → session_step s l s' → session_inv s'.
Proof.
  intros H Hs. destruct Hs as [s msg t Hm | s msg t Hm | s | s uid | s i t Hi | s i t Hi
    | s e Hw | s n ec got Hn | s i].
  - by apply (inv_reserve s msg t PostSend).
  - by apply (inv_reserve s msg t PostSendAndClose).
  - by apply inv_close.
  - by apply inv_auth.
  - by apply inv_run_posted.
  - by apply inv_drop_posted.
  - by apply inv_handle_write.
  - unfold AsyncReadBody. repeat case_match; cbn; try done; try by apply inv_close.
    eapply inv_quota; [| done | done].
    unfold HEAD_TOTAL_LEN, kMaxFrameBodyLen, kMaxFrameBody, kResourceChunkSize in *.
    rewrite u64_small; lia.
  - by apply inv_destroy_quota.
Qed.

Lemma session_init_inv s : session_init s → session_inv s.
Proof.
  intros ->. unfold session_inv, send_exact; cbn. repeat split; try done; try lia.
Qed.

(** ** Framing lemmas *)

Lemma host_short_be16 n : 0 <= n < 2 ^ 16 → network_to_host_short (be16 n) = n.
Proof.
  intros. unfold be16, network_to_host_short. rewrite !bval_mkbyte, !land_255, !Z.mod_mod, shiftr_8 by lia.
  rewrite (Z.mod_small (n / 256)) by (Z.div_mod_to_equations; lia).
  Z.div_mod_to_equations; lia.
Qed.

Lemma host_long_be32 n : 0 <= n < 2 ^ 32 → network_to_host_long (be32 n) = n.
Proof.
  intros. unfold be32, network_to_host_long. rewrite !bval_mkbyte, !Z.shiftr_div_pow2 by lia.
  change (2 ^ 24) with 16777216. change (2 ^ 16) with 65536. change (2 ^ 8) with 256.
  Z.div_mod_to_equations; lia.
Qed.

Lemma host_long_range b : 0 <= network_to_host_long b < 2 ^ 32.
Proof.
  unfold network_to_host_long. destruct b as [| b0 [| b1 [| b2 [| b3 [|]]]]]; try lia.
  pose proof (bval_range b0). pose proof (bval_range b1).
  pose proof (bval_range b2). pose proof (bval_range b3). lia.
Qed.

Lemma SendNode_head msg t :
  zslice (ztake HEAD_TOTAL_LEN (SendNode msg t)) 0 2 = be16 (u16 t) ∧
  zslice (ztake HEAD_TOTAL_LEN (SendNode msg t)) 2 4 = be32 (u32 (zlen msg)).
Proof. split; reflexivity. Qed.

(** ** Properties *)

(** A frame the server builds is read back with the same type and length. For every
    body the framing allows, the header of the [SendNode] buffer is accepted by
    [AsyncReadHead] on an open authenticated session and yields the message type
    and exactly the length of the body that follows the header. *)
Theorem SendNode_AsyncReadHead msg t :
  0 <= t <= kMaxMsgId → 1 <= zlen msg <= kMaxFrameBodyLen →
  AsyncReadHead Open true false (ztake HEAD_TOTAL_LEN (SendNode msg t)) = HeadBody t (zlen msg) ∧
  drop 6 (SendNode msg t) = msg.
Proof.
  intros Ht Hm. unfold kMaxMsgId, kMaxFrameBodyLen, kMaxFrameBody, kResourceChunkSize in *.
  split; [| reflexivity]. unfold AsyncReadHead.
  destruct (SendNode_head msg t) as [-> ->].
  assert (Hlen : zlen (ztake HEAD_TOTAL_LEN (SendNode msg t)) = 6).
  { apply zlen_ztake. rewrite zlen_SendNode by lia. unfold HEAD_TOTAL_LEN. lia. }
  rewrite Hlen. unfold u16, u32. rewrite !Z.mod_small by lia.
  rewrite host_short_be16, host_long_be32 by lia.
  cbn [IsOpen negb andb]. unfold kMaxMsgId, kMaxFrameBodyLen, kMaxFrameBody, kResourceChunkSize, HEAD_TOTAL_LEN.
  repeat match goal with |- context [?a <? ?b] => destruct (Z.ltb_spec a b); [lia |] end.
  destruct (Z.eqb_spec (zlen msg) 0); [lia |]. done.
Qed.

Lemma SendNode_AsyncReadHead_witness :
  AsyncReadHead Open true false (ztake HEAD_TOTAL_LEN (SendNode (§ "{}") 1506)) = HeadBody 1506 2.
Proof.
  apply (SendNode_AsyncReadHead (§ "{}") 1506); vm_compute; split; congruence.
Defined.

(** A received header can only ask for a body the session is ready for. Whatever
    the six bytes are, when [AsyncReadHead] goes on to read a body its length is
    between 1 and the frame limit (and at most 4096 before authentication), its
    type is at most 2048, and the session is open; so the buffer that is
    allocated for the body has exactly the length that is then read. *)
Theorem AsyncReadHead_body_bounds st auth ec head t n :
  AsyncReadHead st auth ec head = HeadBody t n →
  st = Open ∧ 0 <= t <= kMaxMsgId ∧ 1 <= n <= kMaxFrameBodyLen ∧
  (auth = false → n <= kUnauthedMaxBodyLen).
Proof.
  unfold AsyncReadHead. repeat case_match; try done. intros [= <- <-]. bool_to_prop.
  pose proof (host_long_range (zslice head 2 4)).
  assert (0 <= network_to_host_short (zslice head 0 2)).
  { unfold network_to_host_short. repeat case_match; try lia.
    pose proof (bval_range b). pose proof (bval_range b0). lia. }
  assert (st = Open) as ->.
  { unfold IsOpen in *. by destruct st. }
  repeat split; try lia. intros ->. cbn in *.
  match goal with H : (_ <? _) = false ∨ _ |- _ => idtac | _ => idtac end.
  intuition bool_to_prop; try discriminate; lia.
Qed.

Lemma AsyncReadHead_body_bounds_witness :
  AsyncReadHead Open false false (SendNode [] 1501 ++ []) = HeadClose ∧
  ∃ t n, AsyncReadHead Open false false (be16 1501 ++ be32 2) = HeadBody t n ∧ n <= kUnauthedMaxBodyLen.
Proof.
  split; [vm_compute; reflexivity |]. exists 1501, 2.
  assert (H : AsyncReadHead Open false false (be16 1501 ++ be32 2) = HeadBody 1501 2)
    by (vm_compute; reflexivity).
  split; [exact H |]. apply (AsyncReadHead_body_bounds _ _ _ _ _ _ H). reflexivity.
Defined.

(** C32: the send and task budgets of a session are exact in every interleaving. After
    any sequence of sends from any thread, closures run or destroyed on the IO
    thread, write completions, body reads and task completions, the pending
    counters equal the number and the total size of the frames that are posted
    or queued, both stay within the limits (1024 frames, 64 MiB), the task bytes
    in flight equal the sum of the live tokens and stay within 8 MiB, and a
    write is outstanding exactly when the queue is not empty. *)
Theorem session_budgets_exact s :
  reachable session_init session_step s →
  send_pending_frames s = zlen (reserved s) ∧
  send_pending_bytes s = frames_bytes (reserved s) ∧
  zlen (reserved s) <= kMaxSendQueFrames ∧
  frames_bytes (reserved s) <= kMaxSendQueBytes ∧
  inflight_task_bytes s = zsum (quotas s) ∧ zsum (quotas s) <= kMaxSessionInflightTaskBytes ∧
  (writing s = true ↔ send_que s ≠ []).
Proof.
  intros Hr. apply (reachable_invariant _ _ session_inv session_init_inv session_step_inv) in Hr.
  destruct Hr as ((Hf & Hb) & Hlf & Hlb & Hw & Hi & _ & Hl & _).
  rewrite <- Hf, <- Hb, <- Hi. done.
Qed.

Lemma session_budgets_exact_witness :
  let s := Send new_session (§ "{}") 1502 in
  reachable session_init session_step s ∧ send_pending_bytes s = 8 ∧
  zlen (reserved s) <= kMaxSendQueFrames.
Proof.
  assert (Hr : reachable session_init session_step (Send new_session (§ "{}") 1502)).
  { eapply reach_step; [apply reach_init; reflexivity |].
    apply ss_send. vm_compute. reflexivity. }
  split; [exact Hr |]. split; [vm_compute; reflexivity |].
  apply (session_budgets_exact _ Hr).
Defined.

(** The queue of a session that is no longer Open only shrinks: nothing is
    sent after the final frame of [SendAndClose]. *)
Lemma no_send_after_drain s l s' :
  session_step s l s' → lifecycle s ≠ Open → send_que s' `suffix_of` send_que s.
Proof.
  intros Hs Hn.
  assert (Hclose : ∀ x, send_que (Close x) = send_que x).
  { intros x. unfold Close. by destruct (BeginClose (lifecycle x)) as [[] ?]. }
  assert (Hclear : ∀ x q, send_que (clear_budget x q) = send_que x).
  { intros x q. revert x. induction q as [| f q IH]; intros x; [done |]. cbn. by rewrite IH. }
  destruct Hs as [s msg t Hm | s msg t Hm | s | s uid | s i t Hi | s i t Hi
    | s e Hw | s n ec got Hb | s i].
  - unfold Send, TryReserveSendBudget. case_match; [| by rewrite Hclose].
    case_match; [done |]. simplify_eq. done.
  - unfold SendAndClose, TryReserveSendBudget. case_match; [| by rewrite Hclose].
    case_match; [done |]. simplify_eq. done.
  - by rewrite Hclose.
  - unfold TrySetAuth. repeat case_match; done.
  - destruct t as [f | f |]; cbn; [| | done].
    + unfold run_send. cbn. unfold IsOpen. rewrite bool_decide_eq_false_2 by done. done.
    + unfold run_send_and_close. cbn. destruct (socket_open s); cbn; [| by rewrite Hclose].
      unfold BeginDrain, cas. rewrite decide_False by done. done.
  - by destruct t.
  - unfold HandleWrite. destruct e; cbn.
    + rewrite Hclose. cbn. apply suffix_nil.
    + destruct (send_que s) as [| f [| g q]] eqn:E; cbn -[GetState]; rewrite ?E; cbn -[GetState];
        try case_decide; rewrite ?Hclose; try apply suffix_nil. apply suffix_cons_r. done.
  - unfold AsyncReadBody. repeat case_match; cbn; rewrite ?Hclose; try done.
    unfold AcquireQuota, TryAcquireTaskBytes in *. repeat case_match; simplify_eq; done.
  - unfold DestroyQuota, ReleaseTaskBytes. repeat case_match; done.
Qed.
