(* ===== verification/JsonFields.v ===== *)
(** * JSON values and the field parsers of the servers

    [json] is the value type of the JSON library the servers use; the text
    syntax is not modelled, only what the code does with a parsed value. The
    parsers are those of ChatServer/src/LogicSystem.cpp and
    ResourceServer/src/ResourceLogicWorker.cpp: decimal identifiers, integers
    that must not be narrowed, file names, avatar names and MIME types. *)

From S2P Require Import Prelude.

#[local] Arguments zlen {_} _ : simpl never.

(** ** Values *)

(** [JFloat] keeps the integral part only: the code never looks further. *)
Inductive json :=
  | JNull
  | JBool (b : bool)
  | JInteger (z : Z)             (* number_integer, a negative literal *)
  | JUnsigned (z : Z)            (* number_unsigned *)
  | JFloat (trunc : Z)
  | JString (s : bytes)
  | JArray (l : list json)
  | JObject (o : list (bytes * json)).

Definition is_object (v : json) : bool := match v with JObject _ => true | _ => false end.
Definition is_string (v : json) : bool := match v with JString _ => true | _ => false end.
Definition is_number_unsigned (v : json) : bool := match v with JUnsigned _ => true | _ => false end.
Definition is_number_integer (v : json) : bool :=
  match v with JInteger _ | JUnsigned _ => true | _ => false end.

(** The field of an object, if [contains] holds. *)
Fixpoint assoc (k : bytes) (o : list (bytes * json)) : option json :=
  match o with
  | [] => None
  | (k', v) :: o => if decide (k = k') then Some v else assoc k o
  end.

Definition field (v : json) (k : bytes) : option json :=
  match v with JObject o => assoc k o | _ => None end.

(** [get<std::string>()]; [None] is the exception. *)
Definition get_string (v : json) : option bytes :=
  match v with JString s => Some s | _ => None end.

(** [get<int>()] converts any number with a C++ cast; [None] is the exception. *)
Definition get_int (v : json) : option Z :=
  match v with
  | JInteger z | JUnsigned z | JFloat z => Some (s32 z)
  | JBool b => Some (if b then 1 else 0)
  | _ => None
  end.

(** ** Decimal numbers *)

Definition isdigit (b : Byte.byte) : bool := (48 <=? bval b) && (bval b <=? 57).

Definition digits_value (s : bytes) : Z := fold_left (λ acc b, acc * 10 + (bval b - 48)) s 0.

(** [std::stoull] on a string of digits only; [None] is [std::out_of_range]. *)
Definition stoull_digits (s : bytes) : option Z :=
  if uint64_max <? digits_value s then None else Some (digits_value s).

(** [std::to_string] of a non-negative integer. *)
Fixpoint to_digits (fuel : nat) (n : Z) (acc : bytes) : bytes :=
  match fuel with
  | O => acc
  | S fuel =>
      let acc := mkbyte (48 + n mod 10) :: acc in
      if n <? 10 then acc else to_digits fuel (n / 10) acc
  end.

Definition to_string (n : Z) : bytes := to_digits (S (Z.to_nat (Z.log2 n))) n [].

(** [std::to_string(long long)] *)
Definition ll_string (z : Z) : bytes := if z <? 0 then § "-" ++ to_string (- z) else to_string z.

Definition ParseJsonId (v : json) : option Z :=
  match v with
  | JString s =>
      if bool_decide (s = []) || negb (forallb isdigit s) then None
      else match stoull_digits s with
           | None => None
           | Some n => if int64_max <? n then None else Some n
           end
  | _ => None
  end.

Definition ParseJsonUInt64 (v : json) : option Z :=
  match v with
  | JString s =>
      if bool_decide (s = []) || negb (forallb isdigit s) then None
      else match stoull_digits s with
           | None => None
           | Some n => if n <=? int64_max then Some n else None
           end
  | _ => None
  end.

Definition ParseJsonInt (v : json) : option Z :=
  match v with
  | JUnsigned value => if int_max <? value then None else Some value
  | JInteger value => if (value <? - 2 ^ 31) || (int_max <? value) then None else Some value
  | _ => None
  end.

Definition ParseJsonUid (v : json) : option Z :=
  match ParseJsonInt v with
  | Some n => if 0 <? n then Some n else None
  | None => None
  end.

(** ** File names *)

Definition name_byte_dropped (c : Byte.byte) : bool :=
  (bval c =? 47) || (bval c =? 92) || (bval c <? 32) || (bval c =? 127).

Definition is_continuation (c : Byte.byte) : bool := Z.land (bval c) 192 =? 128.

(** The loop that moves the cut back to a character boundary. *)
Fixpoint utf8_cut (out : bytes) (cut : nat) : nat :=
  match cut with
  | O => O
  | S cut' =>
      match out !! cut with
      | Some c => if is_continuation c then utf8_cut out cut' else cut
      | None => cut
      end
  end.

Definition SanitizeFileName (name : bytes) : option bytes :=
  let out := List.filter (λ c, negb (name_byte_dropped c)) name in
  let out := if 255 <? zlen out then take (utf8_cut out 255) out else out in
  if bool_decide (out = []) then None else Some out.

(** [name.find("..") != npos] *)
Fixpoint has_dotdot (name : bytes) : bool :=
  match name with
  | [] => false
  | a :: rest =>
      match rest with
      | [] => false
      | b :: _ => ((bval a =? 46) && (bval b =? 46)) || has_dotdot rest
      end
  end.

Definition IsValidAvatarName (name : bytes) : bool :=
  match name with
  | [] => false
  | c0 :: _ =>
      if (128 <? zlen name) || (bval c0 =? 46) then false
      else if has_dotdot name then false
      else forallb (λ c, negb ((bval c =? 47) || (bval c =? 92) || (bval c <? 32))) name
  end.

(** ** MIME types *)

Definition mime_byte (c : Byte.byte) : bool :=
  ((65 <=? bval c) && (bval c <=? 90)) || ((97 <=? bval c) && (bval c <=? 122)) ||
  ((48 <=? bval c) && (bval c <=? 57)) || (bval c =? 46) || (bval c =? 43) || (bval c =? 45).

Definition seg_ok (seg : bytes) : bool := negb (bool_decide (seg = [])) && forallb mime_byte seg.

(** [find('/')]: what is before the first slash and what is after it. *)
Fixpoint split_slash (s : bytes) : option (bytes * bytes) :=
  match s with
  | [] => None
  | c :: s =>
      if bval c =? 47 then Some ([], s)
      else match split_slash s with
           | None => None
           | Some (a, b) => Some (c :: a, b)
           end
  end.

Definition IsValidMimeType (mime : bytes) : bool :=
  if bool_decide (mime = []) || (128 <? zlen mime) then false
  else match split_slash mime with
       | None => false
       | Some (ty, sub) =>
           match split_slash sub with
           | Some _ => false
           | None => seg_ok ty && seg_ok sub
           end
       end.

(** ** Lemmas on decimals *)

Lemma isdigit_mkbyte d : 0 <= d <= 9 → isdigit (mkbyte (48 + d)) = true ∧ bval (mkbyte (48 + d)) = 48 + d.
Proof.
  intros Hd. unfold isdigit. rewrite bval_mkbyte_small by lia.
  split; [| done]. apply andb_true_intro. split; apply Z.leb_le; lia.
Qed.

Lemma digits_value_acc s acc :
  fold_left (λ acc b, acc * 10 + (bval b - 48)) s acc =
  acc * 10 ^ zlen s + digits_value s.
Proof.
  unfold digits_value. revert acc. induction s as [| b s IH]; intros acc; cbn [fold_left].
  { unfold zlen. cbn. lia. }
  rewrite (IH (acc * 10 + _)), (IH (0 * 10 + _)).
  replace (zlen (b :: s)) with (Z.succ (zlen s)) by (unfold zlen; cbn; lia).
  rewrite Z.pow_succ_r by apply zlen_nonneg. lia.
Qed.

Lemma digits_value_nonneg s : forallb isdigit s = true → 0 <= digits_value s.
Proof.
  intros H. unfold digits_value.
  assert (Hg : ∀ acc, 0 <= acc → 0 <= fold_left (λ acc b, acc * 10 + (bval b - 48)) s acc).
  { revert H. induction s as [| b s IH]; cbn; intros H acc Ha; [done |].
    apply andb_prop in H as [Hb H]. apply (IH H). unfold isdigit in Hb. bool_to_prop. lia. }
  by apply Hg.
Qed.

Lemma to_digits_spec fuel n acc :
  0 <= n < 10 ^ Z.of_nat fuel → fuel ≠ O →
  ∃ ds, to_digits fuel n acc = ds ++ acc ∧ ds ≠ [] ∧ forallb isdigit ds = true ∧
        digits_value ds = n.
Proof.
  revert n acc. induction fuel as [| fuel IH]; intros n acc Hn Hf; [done |]. cbn [to_digits].
  assert (Hm : 0 <= n mod 10 < 10) by (apply Z.mod_pos_bound; lia).
  assert (n mod 10 <= 9) by lia.
  destruct (isdigit_mkbyte (n mod 10)) as [Hd Hv]; [lia |].
  destruct (n <? 10) eqn:E; bool_to_prop.
  - exists [mkbyte (48 + n mod 10)]. split; [done |]. split; [done |]. cbn [forallb].
    rewrite Hd. split; [done |]. unfold digits_value. cbn [fold_left]. rewrite Hv.
    rewrite Z.mod_small; lia.
  - rewrite Nat2Z.inj_succ, Z.pow_succ_r in Hn by lia.
    assert (Hq : 0 <= n / 10 < 10 ^ Z.of_nat fuel).
    { split; [apply Z.div_pos; lia | apply Z.div_lt_upper_bound; lia]. }
    destruct (IH (n / 10) (mkbyte (48 + n mod 10) :: acc) Hq) as (ds & He & Hne & Hds & Hval).
    { intros ->. cbn in Hq. pose proof (Z.div_mod n 10). lia. }
    exists (ds ++ [mkbyte (48 + n mod 10)]). rewrite He, <- app_assoc. split; [done |].
    split; [by destruct ds |]. rewrite forallb_app, Hds. cbn [forallb andb]. rewrite Hd.
    split; [done |]. unfold digits_value. rewrite fold_left_app. cbn [fold_left].
    unfold digits_value in Hval. rewrite Hval, Hv. pose proof (Z.div_mod n 10). lia.
Qed.

Lemma to_string_spec n :
  0 <= n → to_string n ≠ [] ∧ forallb isdigit (to_string n) = true ∧
           digits_value (to_string n) = n.
Proof.
  intros Hn. unfold to_string.
  destruct (to_digits_spec (S (Z.to_nat (Z.log2 n))) n []) as (ds & -> & ?); [| done |].
  2: { by rewrite app_nil_r. }
  split; [done |]. rewrite Nat2Z.inj_succ, Z2Nat.id by apply Z.log2_nonneg.
  destruct (decide (n = 0)) as [-> | Hz]; [cbn; lia |].
  destruct (Z.log2_spec n) as [_ Hl]; [lia |].
  eapply Z.lt_le_trans; [exact Hl |]. apply Z.pow_le_mono_l. lia.
Qed.

(** Identifiers survive the wire, and nothing else is accepted. [ParseJsonId] and
    [ParseJsonUInt64] read back every identifier that the servers print with
    [std::to_string], they accept the same values, and what they accept is a
    non-empty string of digits whose value fits a signed 64-bit column. *)
Theorem ParseJsonId_round_trip :
  (∀ n, 0 <= n <= int64_max → ParseJsonId (JString (to_string n)) = Some n) ∧
  (∀ v, ParseJsonUInt64 v = ParseJsonId v) ∧
  (∀ v n, ParseJsonId v = Some n →
     0 <= n <= int64_max ∧
     ∃ s, v = JString s ∧ s ≠ [] ∧ forallb isdigit s = true ∧ digits_value s = n).
Proof.
  split; [| split].
  - intros n Hn. destruct (to_string_spec n) as (Hne & Hd & Hv); [lia |].
    unfold ParseJsonId, stoull_digits. rewrite bool_decide_eq_false_2, Hd, Hv by done. cbn [orb negb].
    rewrite (proj2 (Z.ltb_ge uint64_max n)), (proj2 (Z.ltb_ge int64_max n));
      unfold uint64_max, int64_max in *; lia || done.
  - intros [| | | | | s | |]; try done. cbn. case_match; [done |].
    destruct (stoull_digits s) as [n |]; [| done].
    rewrite Z.leb_antisym. by destruct (int64_max <? n).
  - intros [| | | | | s | |] n; try done. unfold ParseJsonId.
    destruct (bool_decide (s = []) || negb (forallb isdigit s)) eqn:E; [done |].
    unfold stoull_digits. destruct (uint64_max <? digits_value s); [done |].
    destruct (int64_max <? digits_value s) eqn:E2; [done |].
    intros H%(inj Some); subst n. bool_to_prop.
    split; [split; [by apply digits_value_nonneg | done] |]. by exists s.
Qed.

(** ** Lemmas on file names *)

(** Continuation bytes announced by the first byte of a character. *)
Definition utf8_tail (lead : Byte.byte) : option nat :=
  if bval lead <? 128 then Some 0%nat
  else if (192 <=? bval lead) && (bval lead <? 224) then Some 1%nat
  else if (224 <=? bval lead) && (bval lead <? 240) then Some 2%nat
  else if (240 <=? bval lead) && (bval lead <? 248) then Some 3%nat
  else None.

(** Sequences of complete UTF-8 characters. *)
Inductive utf8_seq : bytes → Prop :=
  | utf8_nil : utf8_seq []
  | utf8_char lead tail rest :
      utf8_tail lead = Some (length tail) → Forall (λ c, is_continuation c = true) tail →
      utf8_seq rest → utf8_seq (lead :: tail ++ rest).

Lemma is_continuation_range c : is_continuation c = true ↔ 128 <= bval c < 192.
Proof.
  unfold is_continuation. destruct c; vm_compute; split; intros; try done; intuition congruence.
Qed.

Lemma utf8_tail_lead lead n : utf8_tail lead = Some n → is_continuation lead = false ∧ (n <= 3)%nat.
Proof.
  intros H. split.
  - apply not_true_is_false. rewrite is_continuation_range. intros Hc. revert H. unfold utf8_tail.
    rewrite (proj2 (Z.ltb_ge (bval lead) 128)), (proj2 (Z.leb_gt 192 (bval lead))),
      (proj2 (Z.leb_gt 224 (bval lead))), (proj2 (Z.leb_gt 240 (bval lead))) by lia. done.
  - revert H. unfold utf8_tail. repeat case_match; intros [=]; lia.
Qed.

Definition kept (c : Byte.byte) : bool := negb (name_byte_dropped c).

Lemma kept_high c : 128 <= bval c → kept c = true.
Proof.
  intros H. unfold kept, name_byte_dropped.
  rewrite (proj2 (Z.eqb_neq (bval c) 47)), (proj2 (Z.eqb_neq (bval c) 92)),
    (proj2 (Z.ltb_ge (bval c) 32)), (proj2 (Z.eqb_neq (bval c) 127)) by lia. done.
Qed.

(** Dropping separators and control characters keeps characters whole. *)
Lemma utf8_filter s : utf8_seq s → utf8_seq (List.filter kept s).
Proof.
  induction 1 as [| lead tail rest Hl Ht Hr IH]; [constructor |].
  assert (Hk : List.filter kept tail = tail).
  { clear Hl. induction Ht as [| c t Hc Ht IHt]; [done |]. cbn.
    rewrite kept_high by (apply is_continuation_range in Hc; lia). by rewrite IHt. }
  cbn. rewrite List.filter_app, Hk. destruct (kept lead) eqn:E; [by constructor |].
  destruct tail as [| c t]; [done |]. exfalso.
  rewrite kept_high in E; [done |]. revert Hl. unfold utf8_tail.
  destruct (bval lead <? 128) eqn:El; [done | bool_to_prop; lia].
Qed.

(** Cutting in front of a byte that starts a character keeps characters whole. *)
Lemma utf8_take s n c :
  utf8_seq s → s !! n = Some c → is_continuation c = false → utf8_seq (take n s).
Proof.
  intros Hs. revert n. induction Hs as [| lead tail rest Hl Ht Hr IH]; intros n Hn Hc; [done |].
  destruct n as [| n]; [constructor |]. simpl in Hn |- *.
  destruct (decide (n < length tail)%nat) as [Hlt | Hge].
  - rewrite lookup_app_l in Hn by done.
    pose proof (Forall_lookup_1 _ _ _ _ Ht Hn) as Hct. cbn in Hct. congruence.
  - rewrite lookup_app_r in Hn by lia. rewrite take_app_ge by lia.
    constructor; [done | done |]. by eapply IH.
Qed.

Lemma utf8_cut_boundary s n :
  (n < length s)%nat → (utf8_cut s n <= n)%nat ∧
  (utf8_cut s n = O ∨ ∃ c, s !! utf8_cut s n = Some c ∧ is_continuation c = false).
Proof.
  induction n as [| n IH]; intros Hn; cbn [utf8_cut]; [split; [lia | by left] |].
  destruct (lookup_lt_is_Some_2 s (S n) Hn) as [c Hc]. rewrite Hc.
  destruct (is_continuation c) eqn:E.
  - destruct IH as [Hle Hor]; [lia |]. split; [lia | done].
  - split; [lia |]. right. by exists c.
Qed.

(** The cut of a sequence of whole characters moves back three bytes at most. *)
Lemma utf8_cut_close s n :
  utf8_seq s → (3 < n < length s)%nat → (0 < utf8_cut s n)%nat.
Proof.
  intros Hs Hn.
  assert (Hgen : ∀ j, (j < length s)%nat → utf8_cut s j = O →
            ∀ k, (0 < k <= j)%nat → ∃ c, s !! k = Some c ∧ is_continuation c = true).
  { clear Hs Hn. induction j as [| j IH]; cbn [utf8_cut]; intros Hj Hz k Hk; [lia |].
    destruct (lookup_lt_is_Some_2 s (S j) Hj) as [c Hc]. rewrite Hc in Hz.
    destruct (is_continuation c) eqn:E; [| done].
    destruct (decide (k = S j)) as [-> | Hne]; [by exists c |]. apply IH; [lia | done | lia]. }
  destruct (decide (utf8_cut s n = O)) as [Hz | ?]; [exfalso | lia].
  assert (Hall : ∀ k, (0 < k <= 4)%nat → ∃ c, s !! k = Some c ∧ is_continuation c = true).
  { intros k Hk. apply (Hgen n); lia || done. }
  destruct Hs as [| lead tail rest Hl Ht Hr]; [cbn in Hn; lia |].
  destruct (utf8_tail_lead _ _ Hl) as [_ Hlen].
  destruct (Hall (S (length tail))) as (c & Hc & Hcc); [lia |].
  simpl in Hc. rewrite lookup_app_r, Nat.sub_diag in Hc by lia.
  destruct Hr as [| lead' tail' rest' Hl' _ _]; [done |]. cbn in Hc. simplify_eq.
  destruct (utf8_tail_lead _ _ Hl'). congruence.
Qed.

(** A sanitised file name is safe to store and to show. It has at most 255 bytes, is
    not empty, and holds no path separator and no control character; when
    the name received is well-formed UTF-8 so is the result, the truncation
    never splits a character, and the name is rejected only when nothing but
    dropped bytes was sent. *)
Theorem SanitizeFileName_safe name :
  match SanitizeFileName name with
  | Some out =>
      0 < zlen out <= 255 ∧ Forall (λ c, name_byte_dropped c = false) out ∧
      (utf8_seq name → utf8_seq out) ∧
      out `prefix_of` List.filter kept name
  | None => utf8_seq name → Forall (λ c, name_byte_dropped c = true) name
  end.
Proof.
  unfold SanitizeFileName. fold kept. set (f := List.filter kept name).
  assert (Hf : Forall (λ c, name_byte_dropped c = false) f).
  { apply Forall_forall. intros c Hc. apply list_elem_of_In, filter_In in Hc as [_ Hc].
    by apply negb_true_iff in Hc. }
  assert (Hu : utf8_seq name → utf8_seq f) by apply utf8_filter.
  destruct (255 <? zlen f) eqn:E.
  - apply Z.ltb_lt in E.
    assert (Hl : (255 < length f)%nat) by (unfold zlen in E; lia).
    destruct (utf8_cut_boundary f 255 Hl) as [Hle Hb].
    destruct (bool_decide (take (utf8_cut f 255) f = [])) eqn:Ez; bool_to_prop.
    + intros Hn. exfalso. assert (0 < utf8_cut f 255)%nat by (apply utf8_cut_close; [auto | lia]).
      apply (f_equal length) in Ez. rewrite length_take in Ez. cbn [length] in Ez.
      lia.
    + split_and!.
      * by apply zlen_pos.
      * unfold zlen. rewrite length_take. lia.
      * by apply Forall_take.
      * intros Hn. destruct Hb as [Hz | (c & Hc & Hcc)].
        -- rewrite Hz. constructor.
        -- by eapply utf8_take; [apply Hu | |].
      * exists (drop (utf8_cut f 255) f). by rewrite take_drop.
  - apply Z.ltb_ge in E. destruct (bool_decide (f = [])) eqn:Ez; bool_to_prop.
    + intros _. apply Forall_forall. intros c Hc. apply not_false_iff_true. intros Hd.
      assert (Hin : c ∈ f). { apply list_elem_of_In, filter_In. unfold kept. rewrite Hd.
        split; [by apply list_elem_of_In | done]. }
      rewrite Ez in Hin. by apply not_elem_of_nil in Hin.
    + split_and!; [| done | done | done | done].
      by apply zlen_pos.
Qed.
