(* ===== verification/LogicWorker.v ===== *)
(** * The task worker shared by the servers (common/src/LogicWorker.cpp)

    One thread executes posted closures in FIFO order. [Post] and the flag
    set by [Stop] are critical sections of the callers' threads; [RunLoop] is
    the worker thread, one step per critical section or task. *)

From S2P Require Import Prelude.

Section worker.
  Context {Task : Type}.

(** [_stopping], [_task_que], the task [RunLoop] holds, and whether the
    thread has left [RunLoop]. [accepted] and [executed] record the history:
    the tasks [Post] has accepted and the tasks that have run. *)
Record worker := Worker {
  stopping : bool;
  task_que : list Task;
  running : option Task;
  exited : bool;
  accepted : list Task;
  executed : list Task;
}.

Definition new_worker : worker := Worker false [] None false [] [].

Definition Post (w : worker) (task : Task) : bool * worker :=
  if stopping w then (false, w)
  else (true, Worker (stopping w) (task_que w ++ [task]) (running w) (exited w)
                (accepted w ++ [task]) (executed w)).

(** The critical section of [Stop]: [true] for the caller that goes on to
    join the thread. *)
Definition Stop_request (w : worker) : bool * worker :=
  (negb (stopping w),
   Worker true (task_que w) (running w) (exited w) (accepted w) (executed w)).

(** One step of the worker thread: run the task it holds, or take the next
    one, or leave the loop; [None] while it waits or after it has left. *)
Definition RunLoop (w : worker) : option worker :=
  if exited w then None
  else match running w with
  | Some task => Some (Worker (stopping w) (task_que w) None false (accepted w)
                         (executed w ++ [task]))
  | None =>
      if negb (stopping w || negb (bool_decide (task_que w = []))) then None
      else match task_que w with
      | [] => Some (Worker (stopping w) [] None true (accepted w) (executed w))
      | task :: q => Some (Worker (stopping w) q (Some task) false (accepted w) (executed w))
      end
  end.

Inductive worker_label := LPost (task : Task) | LStop | LLoop.

Inductive worker_step : worker → worker_label → worker → Prop :=
  | ws_post w task : worker_step w (LPost task) (Post w task).2
  | ws_stop w : worker_step w LStop (Stop_request w).2
  | ws_loop w w' : RunLoop w = Some w' → worker_step w LLoop w'.

Definition worker_init (w : worker) : Prop := w = new_worker.

Definition worker_inv (w : worker) : Prop :=
  accepted w = executed w ++ option_list (running w) ++ task_que w ∧
  (exited w = true → stopping w = true ∧ running w = None ∧ task_que w = []).

Lemma worker_step_inv w l w' : worker_inv w → worker_step w l w' → worker_inv w'.
Proof.
  intros Hi Hs. pose proof Hi as [Ha Hx]. destruct Hs as [w task | w | w w' Hl].
  - unfold Post. destruct (stopping w) eqn:E; cbn; [exact Hi |]. split; cbn.
    + rewrite Ha. by rewrite <- !app_assoc.
    + intros Hex. destruct (Hx Hex) as [? _]. congruence.
  - split; cbn; [done |]. intros Hex. by destruct (Hx Hex) as (_ & ? & ?).
  - revert Hl. unfold RunLoop. destruct (exited w) eqn:E; [done |].
    destruct (running w) as [task |] eqn:Er.
    + intros H%(inj Some); subst w'. split; cbn; [| done]. rewrite Ha. cbn.
      by rewrite <- !app_assoc.
    + case_match eqn:Eg; [done |]. destruct (task_que w) as [| t q] eqn:Eq;
        intros H%(inj Some); subst w'; split; cbn in *; try done.
      intros _. split; [| done]. by destruct (stopping w).
Qed.

(** The worker thread on its own, until it stops making steps. *)
Fixpoint run_loop (fuel : nat) (w : worker) : worker :=
  match fuel with
  | O => w
  | S fuel => match RunLoop w with Some w' => run_loop fuel w' | None => w end
  end.

(** Steps that are left: two for each queued task, one for the task that
    runs, one to leave the loop. *)
Definition work_left (w : worker) : nat :=
  (if exited w then 0 else 2 * length (task_que w) + length (option_list (running w)) + 1)%nat.

Lemma RunLoop_progress w :
  stopping w = true → exited w = false → ∃ w', RunLoop w = Some w' ∧
    stopping w' = true ∧ accepted w' = accepted w ∧ (work_left w' < work_left w)%nat.
Proof.
  intros Hs He. unfold RunLoop, work_left. rewrite He, Hs.
  destruct (running w).
  { eexists. split; [done |]. cbn. split_and!; [done | done | lia]. }
  cbn. destruct (task_que w); eexists; (split; [done |]); cbn; split_and!; done || lia.
Qed.

Lemma run_loop_exits fuel w :
  worker_inv w → stopping w = true → (work_left w <= fuel)%nat →
  exited (run_loop fuel w) = true ∧ executed (run_loop fuel w) = accepted w.
Proof.
  revert w. induction fuel as [| fuel IH]; intros w Hi Hs Hf.
  - assert (He : exited w = true).
    { unfold work_left in Hf. destruct (exited w); [done | lia]. }
    destruct Hi as [Ha Hx]. destruct (Hx He) as (_ & Hr & Hq). cbn.
    rewrite Ha, Hr, Hq. cbn. by rewrite app_nil_r.
  - destruct (exited w) eqn:He.
    + cbn. unfold RunLoop. rewrite He. destruct Hi as [Ha Hx].
      destruct (Hx He) as (_ & Hr & Hq). split; [done |]. rewrite Ha, Hr, Hq. cbn.
      by rewrite app_nil_r.
    + destruct (RunLoop_progress w Hs He) as (w' & Hl & Hs' & Ha' & Hlt).
      cbn. rewrite Hl. rewrite <- Ha'. apply IH; [| done | lia].
      eapply worker_step_inv; [exact Hi | by apply ws_loop].
Qed.

(** Accepted tasks run exactly once and in order, and none is lost at shutdown. In
    every interleaving of posting threads, stopping threads and the worker
    thread, the accepted tasks are the executed ones, then the one that is
    running, then the queue; when the thread has left its loop everything
    accepted has been executed; and once a stop is requested [Post] refuses
    every task while the worker thread, left to run, executes all that was
    accepted and leaves its loop. *)
Theorem worker_runs_accepted_in_order w :
  reachable worker_init worker_step w →
  accepted w = executed w ++ option_list (running w) ++ task_que w ∧
  (exited w = true → executed w = accepted w) ∧
  (stopping w = true →
     (∀ task, Post w task = (false, w)) ∧
     let w' := run_loop (work_left w) w in
     exited w' = true ∧ executed w' = accepted w).
Proof.
  intros Hr. assert (Hi : worker_inv w).
  { eapply reachable_invariant, Hr; [| exact worker_step_inv]. by intros ? ->. }
  pose proof Hi as [Ha Hx]. split; [done |]. split.
  - intros He. destruct (Hx He) as (_ & Hrn & Hq). rewrite Ha, Hrn, Hq. cbn.
    by rewrite app_nil_r.
  - intros Hs. split.
    + intros task. unfold Post. by rewrite Hs.
    + by apply run_loop_exits.
Qed.
End worker.

Arguments worker : clear implicits.

Lemma worker_runs_accepted_in_order_witness :
  let w := (Stop_request (Post (Post new_worker 7%nat).2 8%nat).2).2 in
  stopping w = true ∧ executed (run_loop (work_left w) w) = [7%nat; 8%nat].
Proof.
  set (w := (Stop_request (Post (Post new_worker 7%nat).2 8%nat).2).2).
  assert (Hr : reachable worker_init worker_step w).
  { eapply reach_step; [| apply ws_stop]. eapply reach_step; [| apply ws_post].
    eapply reach_step; [| apply ws_post]. by apply reach_init. }
  assert (Hs : stopping w = true) by reflexivity.
  destruct (worker_runs_accepted_in_order w Hr) as (_ & _ & H).
  split; [exact Hs |]. apply (H Hs).
Defined.
