(* ===== verification/ChatSession.v ===== *)
(** * TCP sessions of the ChatServer (ChatServer/src/CSession.cpp)

    Receiving: [asyncReadLen] collects the bytes of a header or a body from
    whatever segments the socket delivers, [AsyncReadHead] decodes a 4-byte
    header whose fields are signed 16-bit integers, and [AsyncReadBody]
    routes the message to a logic worker. Sending: closures posted to the
    socket's IO thread fill a queue whose front is written asynchronously.
    [session_step] interleaves the callers' threads and the IO thread. *)

From S2P Require Import Prelude ProtocolIds ResourceWire SessionLifecycle JsonFields.

Definition s16 (z : Z) : Z := (z + 2 ^ 15) mod 2 ^ 16 - 2 ^ 15.
Definition SHRT_MAX : Z := 32767.
Definition MAX_LENGTH : Z := 2048.
Definition HEAD_TOTAL_LEN : Z := 4.
Definition MAX_SENDQUE : Z := 1000.
Definition kMaxSendPayload : Z := SHRT_MAX - HEAD_TOTAL_LEN.

(** ** Buffers *)

(** The constructor of [MsgNode] for a [short] length: the array has
    [max_len + 1] bytes and [_data[max_len]] is written. *)
Inductive alloc_result :=
  | AllocThrows                  (* std::bad_array_new_length *)
  | AllocOutOfBounds             (* a write outside of the array *)
  | AllocOk (total_len : Z).

Definition MsgNode (max_len : Z) : alloc_result :=
  let n := max_len + 1 in
  if n <? 0 then AllocThrows
  else if (0 <=? max_len) && (max_len <? n) then AllocOk max_len
  else AllocOutOfBounds.

(** The frame a [SendNode] holds: its first [_total_len] bytes are written to
    the socket. *)
Definition SendNode (msg : bytes) (msg_type : Z) : bytes :=
  let max_len := s16 (zlen msg) in
  be16 (u16 msg_type) ++ be16 (u16 max_len) ++ ztake max_len msg.

(** ** Reading *)

(** [asyncReadLen]: the segments the socket still has, the bytes read so far
    and the bytes wanted. The result is the error flag, the bytes handed to
    the handler and the segments left; the end of the list is the end of the
    stream, which is an error. *)
Fixpoint asyncReadLen (segs : list bytes) (got : bytes) (total_len : Z) : bool * bytes * list bytes :=
  match segs with
  | [] => if zlen got =? total_len then (false, got, []) else (true, got, [])
  | seg :: rest =>
      let room := total_len - zlen got in
      if room =? 0 then (false, got, segs)
      else if zlen seg <=? room then
        let got' := got ++ seg in
        if total_len <=? zlen got' then (false, got', rest)
        else asyncReadLen rest got' total_len
      else (false, got ++ ztake room seg, drop (Z.to_nat room) seg :: rest)
  end.

Definition asyncReadFull (segs : list bytes) (maxLength : Z) : bool * bytes * list bytes :=
  asyncReadLen segs [] maxLength.

Definition network_to_host_short (b : bytes) : Z :=
  match b with
  | [b0; b1] => s16 (bval b0 * 256 + bval b1)
  | _ => 0
  end.

Inductive head_result :=
  | HeadClose
  | HeadIgnored
  | HeadOutOfBounds
  | HeadBody (msg_type msg_len : Z).

Definition AsyncReadHead (st : State) (ec : bool) (head : bytes) : head_result :=
  if ec then HeadClose
  else if zlen head <? HEAD_TOTAL_LEN then HeadClose
  else if negb (IsOpen st) then HeadIgnored
  else
    let msg_type := network_to_host_short (zslice head 0 2) in
    if MAX_LENGTH <? msg_type then HeadClose
    else
      let msg_len := network_to_host_short (zslice head 2 2) in
      if MAX_LENGTH <? msg_len then HeadClose
      else match MsgNode msg_len with
           | AllocThrows => HeadClose
           | AllocOutOfBounds => HeadOutOfBounds
           | AllocOk _ => HeadBody msg_type msg_len
           end.

(** The read loop of an open session whose messages are all accepted: each
    body is read in full and handed on, then the next header is read. *)
Fixpoint receive_frames (fuel : nat) (segs : list bytes) : list (Z * bytes) * head_result :=
  match fuel with
  | O => ([], HeadIgnored)
  | S fuel =>
      let '(ec, head, segs1) := asyncReadFull segs HEAD_TOTAL_LEN in
      match AsyncReadHead Open ec head with
      | HeadBody msg_type msg_len =>
          let '(ec2, body, segs2) := asyncReadFull segs1 msg_len in
          if ec2 then ([], HeadClose)
          else let '(msgs, r) := receive_frames fuel segs2 in ((msg_type, body) :: msgs, r)
      | r => ([], r)
      end
  end.

(** ** Lemmas on frames *)

#[local] Arguments zlen {_} _ : simpl never.
#[local] Arguments ztake {_} _ _ : simpl never.

Lemma s16_small z : - 2 ^ 15 <= z < 2 ^ 15 → s16 z = z.
Proof. intros. unfold s16. rewrite Z.mod_small; lia. Qed.

Lemma network_to_host_short_be16 n :
  network_to_host_short (be16 (u16 n)) = s16 n.
Proof.
  unfold be16, network_to_host_short. rewrite !bval_mkbyte, shiftr_8, !land_255.
  unfold u16, s16. f_equal.
  rewrite (Z.mod_mod (n mod 2 ^ 16) 256), (Z.mod_mod (n mod 2 ^ 16 / 256) 256) by lia.
  assert (0 <= n mod 2 ^ 16 < 2 ^ 16) by (apply Z.mod_pos_bound; lia).
  rewrite !(Z.mod_small (n mod 2 ^ 16 / 256)) by
    (split; [apply Z.div_pos; lia | apply Z.div_lt_upper_bound; lia]).
  replace (n mod 2 ^ 16 / 256 * 256 + (n mod 2 ^ 16) mod 256) with (n mod 2 ^ 16)
    by (pose proof (Z.div_mod (n mod 2 ^ 16) 256); lia).
  rewrite Zplus_mod_idemp_l. done.
Qed.

(** What the header handler does with each header of an open session. *)
Lemma AsyncReadHead_cases (head : bytes) :
  zlen head = HEAD_TOTAL_LEN →
  let ty := network_to_host_short (zslice head 0 2) in
  let len := network_to_host_short (zslice head 2 2) in
  AsyncReadHead Open false head =
    if MAX_LENGTH <? ty then HeadClose
    else if len =? -1 then HeadOutOfBounds
    else if (0 <=? len) && (len <=? MAX_LENGTH) then HeadBody ty len
    else HeadClose.
Proof.
  intros Hl ty len. unfold AsyncReadHead. fold ty len. rewrite Hl. cbn [IsOpen negb Z.ltb].
  replace (negb (IsOpen Open)) with false by done. cbn -[MsgNode Z.ltb Z.leb Z.eqb].
  rewrite Z.ltb_irrefl. destruct (MAX_LENGTH <? ty); [done |]. unfold MsgNode, MAX_LENGTH in *.
  destruct (2048 <? len) eqn:E1; bool_to_prop.
  - rewrite (proj2 (Z.eqb_neq len (-1))), (proj2 (Z.leb_gt len 2048)), andb_false_r by lia. done.
  - rewrite (proj2 (Z.leb_le len 2048)), andb_true_r by lia.
    destruct (len + 1 <? 0) eqn:E2; bool_to_prop.
    + rewrite (proj2 (Z.eqb_neq len (-1))), (proj2 (Z.leb_gt 0 len)) by lia. done.
    + rewrite (proj2 (Z.ltb_lt len (len + 1))), andb_true_r by lia.
      destruct (0 <=? len) eqn:E3; bool_to_prop.
      * by rewrite (proj2 (Z.eqb_neq len (-1))) by lia.
      * replace len with (-1) by lia. done.
Qed.

(** C34: the length check of a ChatServer header admits one length that corrupts memory.
    For a complete header of an open session whose type passes, a length
    field of 0xFFFF reads as -1, passes the test against [MAX_LENGTH], and
    the receive buffer is written outside of its bounds; every other header
    is either refused or starts a body read of at most [MAX_LENGTH] bytes,
    the size of the session's read buffer. *)
Theorem AsyncReadHead_out_of_bounds_iff (head : bytes) :
  zlen head = HEAD_TOTAL_LEN →
  (AsyncReadHead Open false head = HeadOutOfBounds ↔
     network_to_host_short (zslice head 0 2) <= MAX_LENGTH ∧
     network_to_host_short (zslice head 2 2) = -1) ∧
  (∀ ty len, AsyncReadHead Open false head = HeadBody ty len →
     0 <= len <= MAX_LENGTH ∧ MsgNode len = AllocOk len).
Proof.
  intros Hl. rewrite (AsyncReadHead_cases head Hl).
  set (ty := network_to_host_short (zslice head 0 2)).
  set (len := network_to_host_short (zslice head 2 2)). split.
  - destruct (MAX_LENGTH <? ty) eqn:E1; bool_to_prop; [split; [done | lia] |].
    destruct (len =? -1) eqn:E2; bool_to_prop; [done |].
    case_match; (split; [done | lia]).
  - intros ty' len'. destruct (MAX_LENGTH <? ty); [done |]. destruct (len =? -1); [done |].
    destruct ((0 <=? len) && (len <=? MAX_LENGTH)) eqn:E; [| done]. bool_to_prop.
    intros [= <- <-]. split; [lia |]. unfold MsgNode.
    rewrite (proj2 (Z.ltb_ge (len + 1) 0)), (proj2 (Z.leb_le 0 len)),
      (proj2 (Z.ltb_lt len (len + 1))) by lia. done.
Qed.

Lemma AsyncReadHead_out_of_bounds_iff_witness :
  AsyncReadHead Open false [x04; x4d; xff; xff] = HeadOutOfBounds.
Proof.
  apply (AsyncReadHead_out_of_bounds_iff [x04; x4d; xff; xff]); [reflexivity |].
  split; [vm_compute; discriminate | vm_compute; reflexivity].
Defined.

(** ** Reassembly *)

Lemma ztake_0 {A} n (l : list A) : n <= 0 → ztake n l = [].
Proof. intros. unfold ztake. by replace (Z.to_nat n) with O by lia. Qed.

Lemma asyncReadLen_complete segs got total_len :
  zlen got <= total_len → total_len - zlen got <= zlen (concat segs) →
  ∃ rest, asyncReadLen segs got total_len =
            (false, got ++ ztake (total_len - zlen got) (concat segs), rest) ∧
          concat rest = drop (Z.to_nat (total_len - zlen got)) (concat segs).
Proof.
  revert got. induction segs as [| seg segs IH]; intros got Hg Hc; cbn -[Z.sub].
  - unfold zlen in Hc at 2. cbn in Hc. rewrite (proj2 (Z.eqb_eq _ _)) by lia.
    exists []. rewrite ztake_0, app_nil_r by lia. by rewrite drop_nil.
  - cbn in Hc. rewrite zlen_app in Hc.
    destruct (total_len - zlen got =? 0) eqn:E0; bool_to_prop.
    { exists (seg :: segs). rewrite E0. by rewrite ztake_0, app_nil_r by lia. }
    destruct (zlen seg <=? total_len - zlen got) eqn:E1; bool_to_prop.
    + destruct (total_len <=? zlen (got ++ seg)) eqn:E2; bool_to_prop; rewrite zlen_app in E2.
      * exists segs. assert (Heq : total_len - zlen got = zlen seg) by lia. rewrite Heq.
        unfold ztake, zlen. rewrite Nat2Z.id, take_app_length, drop_app_length. done.
      * destruct (IH (got ++ seg)) as (rest & He & Hr); [rewrite zlen_app; lia.. |].
        exists rest. rewrite He, Hr, zlen_app. split.
        -- f_equal. f_equal. rewrite <- app_assoc. f_equal. unfold ztake, zlen in *.
           rewrite take_app_ge by lia. f_equal. f_equal. lia.
        -- unfold zlen in *. rewrite drop_app_ge by lia. f_equal. lia.
    + exists (drop (Z.to_nat (total_len - zlen got)) seg :: segs).
      unfold ztake, zlen in *. rewrite take_app_le, drop_app_le by lia. done.
Qed.

Lemma asyncReadFull_complete segs n hd tl :
  concat segs = hd ++ tl → zlen hd = n →
  ∃ rest, asyncReadFull segs n = (false, hd, rest) ∧ concat rest = tl.
Proof.
  intros Hc <-. unfold asyncReadFull.
  destruct (asyncReadLen_complete segs [] (zlen hd)) as (rest & He & Hr).
  { unfold zlen. cbn. lia. }
  { rewrite Hc, zlen_app. pose proof (zlen_nonneg tl). unfold zlen at 2. cbn. lia. }
  exists rest. rewrite He, Hr, Hc. unfold ztake, zlen. cbn.
  rewrite Z.sub_0_r, Nat2Z.id, take_app_length, drop_app_length. done.
Qed.

Lemma asyncReadFull_eof segs n :
  concat segs = [] → 0 < n → asyncReadFull segs n = (true, [], []).
Proof.
  unfold asyncReadFull. intros Hc Hn. induction segs as [| seg segs IH]; cbn.
  - rewrite (proj2 (Z.eqb_neq _ _)); [done | unfold zlen; cbn; lia].
  - cbn in Hc. apply app_eq_nil in Hc as [-> Hc]. unfold zlen. cbn.
    rewrite (proj2 (Z.eqb_neq _ _)), (proj2 (Z.leb_le _ _)), (proj2 (Z.leb_gt _ _)) by lia.
    by apply IH.
Qed.

(** Messages a client may send: the type and the length pass the checks. *)
Definition sendable (m : Z * bytes) : Prop := 0 <= m.1 <= MAX_LENGTH ∧ zlen m.2 <= MAX_LENGTH.

Lemma chat_SendNode_head ty (msg : bytes) :
  sendable (ty, msg) → SendNode msg ty = (be16 (u16 ty) ++ be16 (u16 (zlen msg))) ++ msg ∧
  AsyncReadHead Open false (be16 (u16 ty) ++ be16 (u16 (zlen msg))) = HeadBody ty (zlen msg).
Proof.
  intros [Ht Hm]. cbn in Ht, Hm. pose proof (zlen_nonneg msg). unfold MAX_LENGTH in *.
  assert (Hs : s16 (zlen msg) = zlen msg) by (apply s16_small; lia).
  assert (Hst : s16 ty = ty) by (apply s16_small; lia).
  split.
  - unfold SendNode. rewrite Hs, ztake_all by lia. by rewrite app_assoc.
  - rewrite AsyncReadHead_cases by (rewrite zlen_app, !zlen_be16; done).
    rewrite zslice_app_l by (rewrite zlen_be16; done).
    replace (zslice (be16 (u16 ty) ++ be16 (u16 (zlen msg))) 2 2) with (be16 (u16 (zlen msg))).
    2: { symmetry. rewrite (zslice_skip (be16 (u16 ty)) (be16 (u16 (zlen msg))) 2 2)
           by (rewrite zlen_be16; done).
         by rewrite take_ge. }
    rewrite !network_to_host_short_be16, Hs, Hst. unfold MAX_LENGTH.
    rewrite (proj2 (Z.ltb_ge 2048 ty)), (proj2 (Z.eqb_neq (zlen msg) (-1))),
      (proj2 (Z.leb_le 0 (zlen msg))), (proj2 (Z.leb_le (zlen msg) 2048)) by lia. done.
Qed.

(** Messages are reassembled whatever the network does to the stream. However the
    bytes of a sequence of frames built by [SendNode] are cut into segments,
    the read loop delivers exactly the messages that were sent, in order and
    with their types, and then sees the end of the stream. *)
Theorem receive_frames_any_segmentation (msgs : list (Z * bytes)) (segs : list bytes) :
  Forall sendable msgs →
  concat segs = concat (map (λ m, SendNode m.2 m.1) msgs) →
  receive_frames (S (length msgs)) segs = (msgs, HeadClose).
Proof.
  intros Hm. revert segs. induction Hm as [| [ty msg] msgs Hs Hm IH]; intros segs Hc.
  - cbn in Hc. cbn -[asyncReadFull]. rewrite (asyncReadFull_eof segs HEAD_TOTAL_LEN Hc); done.
  - destruct (chat_SendNode_head ty msg Hs) as [Hn Hh]. cbn [map concat fst snd] in Hc. rewrite Hn in Hc.
    rewrite <- app_assoc in Hc.
    change (length ((ty, msg) :: msgs)) with (S (length msgs)). remember (S (length msgs)) as f.
    cbn -[asyncReadFull].
    destruct (asyncReadFull_complete segs HEAD_TOTAL_LEN _ _ Hc) as (r1 & -> & Hr1).
    { by rewrite zlen_app, !zlen_be16. }
    rewrite Hh.
    destruct (asyncReadFull_complete r1 (zlen msg) _ _ Hr1 eq_refl) as (r2 & -> & Hr2).
    by rewrite (IH r2 Hr2).
Qed.

Lemma receive_frames_any_segmentation_witness :
  let msgs := [(1101, § "{}"); (1103, § "hi!")] in
  let stream := concat (map (λ m, SendNode m.2 m.1) msgs) in
  receive_frames 3 [take 1 stream; zslice stream 1 6; drop 7 stream] = (msgs, HeadClose).
Proof.
  apply (receive_frames_any_segmentation [(1101, § "{}"); (1103, § "hi!")]).
  - repeat constructor; vm_compute; discriminate.
  - vm_compute. reflexivity.
Defined.

(** ** The session object *)

(** The JSON library: parsing may fail. *)
Class JsonLib := {
  json_parse : bytes → option json;
  json_dump : json → bytes;
}.

Inductive posted_task :=
  | PostSend (msg : bytes) (msg_type : Z)
  | PostSendAndClose (msg : bytes) (msg_type : Z)
  | PostTeardown.

(** The members of [CSession], and what it has asked of others: the
    messages handed to the logic workers with their routing uid, the number
    of [RemoveSession] calls and the presence clean-ups it has posted. *)
Record session := Session {
  lifecycle : State;
  socket_open : bool;
  send_que : list bytes;
  writing : bool;
  drain_timer : bool;
  posted : list posted_task;
  user_uid : Z;
  routing_uid : Z;
  last_heartbeat : Z;
  delivered : list (Z * Z * bytes);
  removals : Z;
  cleanups : list Z;
}.

Definition new_session (now : Z) : session :=
  Session Open true [] false false [] 0 0 now [] 0 [].

Definition set_lifecycle (s : session) (lc : State) : session :=
  Session lc (socket_open s) (send_que s) (writing s) (drain_timer s) (posted s) (user_uid s)
    (routing_uid s) (last_heartbeat s) (delivered s) (removals s) (cleanups s).
Definition set_que (s : session) (q : list bytes) (w : bool) : session :=
  Session (lifecycle s) (socket_open s) q w (drain_timer s) (posted s) (user_uid s)
    (routing_uid s) (last_heartbeat s) (delivered s) (removals s) (cleanups s).
Definition set_timer (s : session) (b : bool) : session :=
  Session (lifecycle s) (socket_open s) (send_que s) (writing s) b (posted s) (user_uid s)
    (routing_uid s) (last_heartbeat s) (delivered s) (removals s) (cleanups s).
Definition set_posted (s : session) (p : list posted_task) : session :=
  Session (lifecycle s) (socket_open s) (send_que s) (writing s) (drain_timer s) p (user_uid s)
    (routing_uid s) (last_heartbeat s) (delivered s) (removals s) (cleanups s).
Definition set_uids (s : session) (u r : Z) : session :=
  Session (lifecycle s) (socket_open s) (send_que s) (writing s) (drain_timer s) (posted s) u
    r (last_heartbeat s) (delivered s) (removals s) (cleanups s).

(** ** Operations *)

Definition TrySetUserId (s : session) (uid : Z) : bool * session :=
  if uid <=? 0 then (false, s)
  else if negb (IsOpen (lifecycle s)) || negb (user_uid s =? 0) then (false, s)
  else (true, set_uids s uid (routing_uid s)).

Definition BindRoutingUid (s : session) (uid : Z) : bool * session :=
  if routing_uid s =? 0 then (true, set_uids s (user_uid s) uid)
  else (routing_uid s =? uid, s).

(** [Close]: the winner dispatches the teardown, leaves the connection table
    and posts the clean-up of the user it was bound to. *)
Definition Close (s : session) : session :=
  let '(ok, lc) := BeginClose (lifecycle s) in
  if negb ok then s
  else
    let uid := user_uid s in
    Session lc (socket_open s) (send_que s) (writing s) (drain_timer s)
      (posted s ++ [PostTeardown]) (user_uid s) (routing_uid s) (last_heartbeat s) (delivered s)
      (removals s + 1) (if 0 <? uid then cleanups s ++ [uid] else cleanups s).

(** The closure [Close] dispatches to the IO thread. *)
Definition Teardown (s : session) : session :=
  Session (CompleteClose (lifecycle s)).2 false (send_que s) (writing s) false (posted s)
    (user_uid s) (routing_uid s) (last_heartbeat s) (delivered s) (removals s) (cleanups s).

Definition Send (s : session) (msg : bytes) (msg_type : Z) : session :=
  set_posted s (posted s ++ [PostSend msg msg_type]).

Definition SendAndClose (s : session) (msg : bytes) (msg_type : Z) : session :=
  set_posted s (posted s ++ [PostSendAndClose msg msg_type]).

Definition run_send (s : session) (msg : bytes) (msg_type : Z) : session :=
  if negb (IsOpen (lifecycle s)) || negb (socket_open s) then s
  else if kMaxSendPayload <? s32 (zlen msg) then s
  else
    let send_que_size := zlen (send_que s) in
    if MAX_SENDQUE <? send_que_size then s
    else set_que s (send_que s ++ [SendNode msg msg_type])
           (if 0 <? send_que_size then writing s else true).

Definition run_send_and_close (s : session) (msg : bytes) (msg_type : Z) : session :=
  if negb (socket_open s) then Close s
  else
    let '(ok, lc) := BeginDrain (lifecycle s) in
    if negb ok then s
    else
      let s1 := set_lifecycle s lc in
      if kMaxSendPayload <? s32 (zlen msg) then Close s1
      else
        let q := send_que s1 ++ [SendNode msg msg_type] in
        set_que (set_timer s1 true) q (if zlen q =? 1 then true else writing s1).

Definition run_posted (s : session) (t : posted_task) : session :=
  match t with
  | PostSend msg ty => run_send s msg ty
  | PostSendAndClose msg ty => run_send_and_close s msg ty
  | PostTeardown => Teardown s
  end.

(** The completion of a write; [_send_que.pop()] removes the front. *)
Definition HandleWrite (s : session) (error : bool) : session :=
  if negb error then
    let q := tail (send_que s) in
    match q with
    | _ :: _ => set_que s q true
    | [] =>
        let s1 := set_que s [] false in
        if decide (GetState (lifecycle s1) = Draining) then Close s1 else s1
    end
  else Close (set_que s (send_que s) false).

Definition NotifyOffline {J : JsonLib} (s : session) (uid : Z) : session :=
  SendAndClose s
    (json_dump (JObject [(§ "error", JInteger (CommonErrCode_code ERR_SUCCESS)); (§ "uid", JInteger uid)]))
    (MsgId_code MSG_NOTIFY_OFF_LINE).

Definition UpdateHeartbeat (s : session) (now : Z) : session :=
  Session (lifecycle s) (socket_open s) (send_que s) (writing s) (drain_timer s) (posted s)
    (user_uid s) (routing_uid s) now (delivered s) (removals s) (cleanups s).

(** [threshold_cfg] is the configured value, [None] when it is not set. *)
Definition IsHeartbeatExpired (s : session) (threshold_cfg : option Z) (now : Z) : bool :=
  if negb (IsOpen (lifecycle s)) then false
  else
    let threshold := match threshold_cfg with
      | Some parsed => if 0 <? parsed then parsed else 20
      | None => 20
      end in
    threshold <? now - last_heartbeat s.

(** The routing uid a login message declares; 0 when there is none. *)
Definition login_uid {J : JsonLib} (body : bytes) : Z :=
  match json_parse body with
  | Some root =>
      match field root (§ "uid") with
      | Some v => if is_number_integer v then default 0 (get_int v) else 0
      | None => 0
      end
  | None => 0
  end.

(** The end of the body handler: the message goes to its logic worker, or
    is refused with a final SERVER_BUSY frame. [posted_ok] is the answer of
    [PostMsgToQue]; the flag says whether the next header is read. *)
Definition post_message {J : JsonLib} (s : session) (msg_type : Z) (body : bytes)
    (posted_ok : bool) : bool * session :=
  if posted_ok then
    (true, Session (lifecycle s) (socket_open s) (send_que s) (writing s) (drain_timer s)
             (posted s) (user_uid s) (routing_uid s) (last_heartbeat s)
             (delivered s ++ [(routing_uid s, msg_type, body)]) (removals s) (cleanups s))
  else
    let rsp_id := Chat.ReqToRspId msg_type in
    if negb (rsp_id =? 0) then
      (false, SendAndClose s
         (json_dump (JObject [(§ "error", JInteger (CommonErrCode_code ERR_SERVER_BUSY))])) rsp_id)
    else (false, Close s).

(** The completion of a body read. *)
Definition AsyncReadBody {J : JsonLib} (s : session) (msg_type total_len : Z) (ec : bool)
    (body : bytes) (now : Z) (posted_ok : bool) : bool * session :=
  if ec then (false, Close s)
  else if zlen body <? total_len then (false, Close s)
  else if negb (IsOpen (lifecycle s)) then (false, s)
  else
    let s := UpdateHeartbeat s now in
    if msg_type =? MsgId_code MSG_CHAT_LOGIN then
      let uid := login_uid body in
      let '(ok, s1) := if uid <=? 0 then (false, s) else BindRoutingUid s uid in
      if negb ok then
        (false, SendAndClose s1
           (json_dump (JObject [(§ "error", JInteger (CommonErrCode_code ERR_UID_INVALID))]))
           (MsgId_code MSG_CHAT_LOGIN_RSP))
      else post_message s1 msg_type body posted_ok
    else if routing_uid s =? 0 then (false, Close s)
    else post_message s msg_type body posted_ok.

(** ** Interleavings *)

Inductive label :=
  | LSend (msg : bytes) (msg_type : Z)
  | LSendAndClose (msg : bytes) (msg_type : Z)
  | LClose                      (* heartbeat sweep, server stop, a failed read *)
  | LDrainTimeout
  | LLogin (uid : Z)
  | LRun (i : nat)
  | LWritten (error : bool)
  | LReadBody (msg_type total_len : Z) (ec : bool) (body : bytes) (now : Z) (posted_ok : bool).

Inductive session_step {J : JsonLib} : session → label → session → Prop :=
  | cs_send s msg t : session_step s (LSend msg t) (Send s msg t)
  | cs_send_and_close s msg t : session_step s (LSendAndClose msg t) (SendAndClose s msg t)
  | cs_close s : session_step s LClose (Close s)
  | cs_timeout s : drain_timer s = true → session_step s LDrainTimeout (Close s)
  | cs_login s uid : session_step s (LLogin uid) (TrySetUserId s uid).2
  | cs_run s i t : posted s !! i = Some t →
      session_step s (LRun i) (run_posted (set_posted s (delete i (posted s))) t)
  | cs_written s error : writing s = true → session_step s (LWritten error) (HandleWrite s error)
  | cs_read_body s ty n ec body now ok :
      session_step s (LReadBody ty n ec body now ok) (AsyncReadBody s ty n ec body now ok).2.

Definition session_init (s : session) : Prop := ∃ now, s = new_session now.

(** ** The session invariant *)

Definition live (lc : State) : bool :=
  match lc with Open | Draining => true | Closing | Closed => false end.

Definition expected_cleanups (s : session) : list Z :=
  if live (lifecycle s) then [] else if 0 <? user_uid s then [user_uid s] else [].

Definition session_inv (s : session) : Prop :=
  zlen (send_que s) <= MAX_SENDQUE + (if IsOpen (lifecycle s) then 1 else 2) ∧
  (writing s = true → send_que s ≠ []) ∧
  (live (lifecycle s) = true → send_que s ≠ [] → writing s = true) ∧
  removals s = (if live (lifecycle s) then 0 else 1) ∧
  cleanups s = expected_cleanups s ∧
  0 <= routing_uid s ∧
  Forall (λ d, d.1.1 = routing_uid s ∧ 0 < routing_uid s) (delivered s).

Lemma IsOpen_cases lc : IsOpen lc = match lc with Open => true | _ => false end.
Proof. by destruct lc. Qed.

Lemma Close_inv s : session_inv s → session_inv (Close s).
Proof.
  unfold session_inv, Close, expected_cleanups. rewrite !IsOpen_cases.
  intros (Hq & Hw & Hl & Hr & Hc & Hu & Hd).
  destruct (lifecycle s) eqn:E; cbn in *; rewrite ?E in *; try (by split_and!);
    rewrite Hr, Hc; split_and!; try done; lia.
Qed.

(** The fields [Close] does not touch. *)
Lemma Close_frame s :
  send_que (Close s) = send_que s ∧ user_uid (Close s) = user_uid s ∧
  routing_uid (Close s) = routing_uid s ∧ delivered (Close s) = delivered s.
Proof. unfold Close. by destruct (BeginClose (lifecycle s)) as [[] lc]. Qed.

#[local] Arguments Close : simpl never.

Lemma run_send_inv s msg t : session_inv s → session_inv (run_send s msg t).
Proof.
  intros Hi. unfold run_send. destruct (IsOpen (lifecycle s)) eqn:Eo; cbn; [| done].
  destruct (socket_open s); cbn; [| done].
  destruct (kMaxSendPayload <? s32 (zlen msg)); [done |].
  destruct (MAX_SENDQUE <? zlen (send_que s)) eqn:E; [done |]. bool_to_prop.
  destruct Hi as (Hq & Hw & Hl & Hr & Hc & Hu & Hd).
  split_and!; cbn; try done.
  - rewrite Eo, zlen_snoc. lia.
  - intros _. by destruct (send_que s).
  - intros Hlv _. destruct (0 <? zlen (send_que s)) eqn:E2; [| done].
    apply Hl; [done |]. intros Hn. by rewrite Hn in E2.
Qed.

Lemma run_send_and_close_inv s msg t : session_inv s → session_inv (run_send_and_close s msg t).
Proof.
  intros Hi. unfold run_send_and_close. destruct (socket_open s); cbn; [| by apply Close_inv].
  unfold BeginDrain, cas. destruct (decide (lifecycle s = Open)) as [Eo |]; cbn; [| done].
  assert (Hi' : session_inv (set_lifecycle s Draining)).
  { revert Hi. unfold session_inv, expected_cleanups. rewrite !IsOpen_cases, Eo. cbn.
    intros (Hq & Hrest). split; [lia | done]. }
  destruct (kMaxSendPayload <? s32 (zlen msg)); [by apply Close_inv |].
  destruct Hi as (Hq & Hw & Hl & Hr & Hc & Hu & Hd).
  rewrite IsOpen_cases, Eo in Hq. unfold expected_cleanups in Hc. rewrite Eo in *. cbn in *.
  unfold session_inv, expected_cleanups. cbn. split_and!; try done.
  - rewrite zlen_snoc, IsOpen_cases. lia.
  - intros _. by destruct (send_que s).
  - intros _ _. destruct (zlen (send_que s ++ [SendNode msg t]) =? 1) eqn:E1; [done |].
    apply Hl; [done |]. intros Hn. by rewrite Hn in E1.
Qed.

Lemma HandleWrite_inv s e : session_inv s → writing s = true → session_inv (HandleWrite s e).
Proof.
  intros Hi Hwr. pose proof Hi as (Hq & Hw & Hl & Hr & Hc & Hu & Hd).
  unfold HandleWrite. destruct e; cbn -[GetState].
  - clear Hq Hw Hl Hr Hc Hu Hd. revert Hi.
    unfold session_inv, Close, expected_cleanups, set_que. cbn. rewrite !IsOpen_cases.
    destruct (lifecycle s) eqn:E; cbn; rewrite ?E; cbn; intros (Hq & Hw & Hl & Hr & Hc & Hu & Hd);
      split_and!; rewrite ?Hr, ?Hc; try done; lia.
  - specialize (Hw Hwr). destruct (send_que s) as [| f [| g q]] eqn:Eq; [done | |]; cbn -[GetState].
    + assert (Hi' : session_inv (set_que s [] false)).
      { unfold session_inv. cbn. split_and!; try done.
        change (zlen []) with 0. unfold MAX_SENDQUE. destruct (IsOpen (lifecycle s)); lia. }
      case_decide; [by apply Close_inv | done].
    + unfold session_inv. cbn. split_and!; try done.
      unfold zlen in *. cbn [length] in *. destruct (IsOpen (lifecycle s)); lia.
Qed.

Lemma post_message_inv {J : JsonLib} s ty body ok :
  session_inv s → 0 < routing_uid s → session_inv (post_message s ty body ok).2.
Proof.
  intros Hi Hr. unfold post_message. destruct ok.
  - destruct Hi as (Hq & Hw & Hl & Hrm & Hc & Hu & Hd). unfold session_inv. cbn.
    split_and!; try done. apply Forall_app. split; [done |]. by constructor.
  - case_match; [exact Hi | by apply Close_inv].
Qed.

Lemma AsyncReadBody_inv {J : JsonLib} s ty n ec body now ok :
  session_inv s → session_inv (AsyncReadBody s ty n ec body now ok).2.
Proof.
  intros Hi. unfold AsyncReadBody. destruct ec; [by apply Close_inv |].
  destruct (zlen body <? n); [by apply Close_inv |].
  destruct (IsOpen (lifecycle s)) eqn:Eo; cbn -[UpdateHeartbeat]; [| done].
  set (s0 := UpdateHeartbeat s now). assert (H0 : session_inv s0) by done.
  destruct (ty =? 1101); cbv zeta.
  - destruct (login_uid body <=? 0) eqn:El; [exact H0 |]. bool_to_prop.
    unfold BindRoutingUid. destruct (routing_uid s0 =? 0) eqn:Er; bool_to_prop.
    + cbn -[post_message]. apply post_message_inv; [| done].
      destruct H0 as (Hq & Hw & Hl & Hrm & Hc & Hu & Hd). unfold session_inv. cbn.
      split_and!; try done; [lia |]. apply Forall_impl with (1 := Hd). cbn in *. intros d [? ?]. lia.
    + destruct (routing_uid s0 =? login_uid body); cbn -[json_dump]; [| exact H0].
      apply post_message_inv; [done |]. destruct H0 as (_ & _ & _ & _ & _ & Hu & _). lia.
  - destruct (routing_uid s0 =? 0) eqn:Er; [by apply Close_inv |]. bool_to_prop.
    apply post_message_inv; [done |]. destruct H0 as (_ & _ & _ & _ & _ & Hu & _). lia.
Qed.

Lemma chat_step_inv {J : JsonLib} s l s' : session_inv s → session_step s l s' → session_inv s'.
Proof.
  intros Hi Hs. destruct Hs as [s msg t | s msg t | s | s Ht | s uid | s i t Hp | s e Hw | s ty n ec b now ok];
    try done; try (by apply Close_inv); try (by apply AsyncReadBody_inv).
  - unfold TrySetUserId. destruct (uid <=? 0); [done |].
    destruct (IsOpen (lifecycle s)) eqn:Eo; cbn; [| done].
    destruct (user_uid s =? 0); cbn; [| done].
    revert Hi. unfold session_inv, expected_cleanups. cbn. rewrite IsOpen_cases in Eo.
    by destruct (lifecycle s).
  - destruct t; cbn; [by apply run_send_inv | by apply run_send_and_close_inv |].
    revert Hi. unfold session_inv, Teardown, expected_cleanups. rewrite !IsOpen_cases. cbn.
    by destruct (lifecycle s).
  - by apply HandleWrite_inv.
Qed.

(** A ChatServer session is torn down once, with the right identity. In every
    interleaving of senders, logins, closers and IO completions: a write is
    outstanding only on a non-empty queue and, while the session is alive,
    exactly then; the queue never holds more than [MAX_SENDQUE + 2] frames;
    the session leaves the connection table exactly once, when it starts to
    close, and its presence clean-up is then issued exactly once, for the
    user bound at that moment if there is one; and every message that
    reached the logic workers carries the one positive routing uid the
    connection was bound to. *)
Theorem session_closes_once {J : JsonLib} s :
  reachable session_init session_step s →
  zlen (send_que s) <= MAX_SENDQUE + 2 ∧
  (writing s = true → send_que s ≠ []) ∧
  (live (lifecycle s) = true → (writing s = true ↔ send_que s ≠ [])) ∧
  removals s = (if live (lifecycle s) then 0 else 1) ∧
  cleanups s = (if live (lifecycle s) then [] else if 0 <? user_uid s then [user_uid s] else []) ∧
  Forall (λ d, d.1.1 = routing_uid s ∧ 0 < routing_uid s) (delivered s).
Proof.
  intros Hr. apply (reachable_invariant _ _ session_inv) in Hr; [| | exact chat_step_inv].
  - destruct Hr as (Hq & Hw & Hl & Hrm & Hc & Hu & Hd). split_and!; try done; [| naive_solver].
    destruct (IsOpen (lifecycle s)); lia.
  - intros x [now ->]. unfold session_inv. cbn. split_and!; done.
Qed.

Lemma session_closes_once_witness :
  let J := {| json_parse := λ _, Some (JObject [(§ "uid", JUnsigned 42)]); json_dump := λ _, § "{}" |} in
  let s1 := (AsyncReadBody (new_session 0) 1101 2 false (§ "{}") 5 true).2 in
  let s := Close (TrySetUserId s1 42).2 in
  reachable session_init session_step s ∧ delivered s = [(42, 1101, § "{}")] ∧
  removals s = 1 ∧ cleanups s = [42].
Proof.
  intros J s1 s.
  assert (Hr : reachable session_init session_step s).
  { eapply reach_step; [| apply cs_close]. eapply reach_step; [| apply cs_login].
    eapply reach_step; [| apply cs_read_body]. apply reach_init. by exists 0. }
  destruct (session_closes_once s Hr) as (_ & _ & _ & Hrm & Hc & _).
  split; [exact Hr |]. split; [vm_compute; reflexivity |].
  split; [exact Hrm | exact Hc].
Defined.

(** Binding is write-once: a user or routing uid never changes after it is set. *)
Lemma uids_write_once {J : JsonLib} s l s' :
  session_step s l s' →
  (user_uid s ≠ 0 → user_uid s' = user_uid s) ∧ (routing_uid s ≠ 0 → routing_uid s' = routing_uid s).
Proof.
  assert (Hc : ∀ x, user_uid (Close x) = user_uid x ∧ routing_uid (Close x) = routing_uid x).
  { intros x. pose proof (Close_frame x). tauto. }
  assert (Hcl : ∀ x y, (user_uid x, routing_uid x) = (user_uid y, routing_uid y) →
    (user_uid y ≠ 0 → user_uid (Close x) = user_uid y) ∧
    (routing_uid y ≠ 0 → routing_uid (Close x) = routing_uid y)).
  { intros x y [= <- <-]. split; intros _; apply Hc. }
  intros Hs. destruct Hs as [s msg t | s msg t | s | s Ht | s uid | s i t Hp | s e Hw | s ty n ec b now ok];
    try done; try (by apply Hcl).
  - unfold TrySetUserId. repeat case_match; try done. cbn. bool_to_prop. split; [lia | done].
  - destruct t; cbn; [| |done].
    + unfold run_send. by repeat case_match.
    + unfold run_send_and_close. cbn. destruct (socket_open s); cbn; [| by apply Hcl].
      unfold BeginDrain, cas. case_decide; cbn; [| done]. case_match; [| done].
      by apply Hcl.
  - unfold HandleWrite. destruct e; cbn -[GetState]; [by apply Hcl |].
    destruct (tail (send_que s)); [| done]. case_decide; [by apply Hcl | done].
  - unfold AsyncReadBody, BindRoutingUid. repeat case_match; cbn in *; simplify_eq;
      try (by apply Hcl); try done.
    all: assert (Hp : ∀ x, user_uid (post_message x ty b ok).2 = user_uid x ∧
           routing_uid (post_message x ty b ok).2 = routing_uid x)
         by (intros x; unfold post_message; repeat case_match; done || apply Hc).
    all: bool_to_prop; split; intros Hz; first [exact (proj1 (Hp _)) | exact (proj2 (Hp _)) | done].
Qed.
