(* ===== verification/Sha256.v ===== *)
(** * SHA-256 helpers (common/src/Sha256.cpp)

    The digest itself is the crypto library's: [Sha256Lib] names it and the
    one fact the code relies on, its length. Whether a library call fails is
    read from the tape. Modelled here: the hexadecimal encoding, the one-shot
    digest, the chunked digest of a file, the streaming context with its
    cached result, and the checks on digests and secrets. *)

From S2P Require Import Prelude.

Class Sha256Lib := {
  sha256 : bytes → bytes;
  sha256_length : ∀ m, length (sha256 m) = 32%nat;
}.

(** ** Hexadecimal *)

(** [kHex[i]] *)
Definition hex_digit (i : Z) : Byte.byte := if i <? 10 then mkbyte (48 + i) else mkbyte (87 + i).

Fixpoint ToLowerHex (data : bytes) : bytes :=
  match data with
  | [] => []
  | b :: data => hex_digit (Z.shiftr (bval b) 4) :: hex_digit (Z.land (bval b) 15) :: ToLowerHex data
  end.

Definition is_lower_hex (c : Byte.byte) : bool :=
  ((48 <=? bval c) && (bval c <=? 57)) || ((97 <=? bval c) && (bval c <=? 102)).

Definition IsValidSha256Hex (hex : bytes) : bool :=
  if negb (zlen hex =? 64) then false else forallb is_lower_hex hex.

Lemma hex_digit_lower i : 0 <= i < 16 → is_lower_hex (hex_digit i) = true.
Proof.
  intros Hi. unfold hex_digit, is_lower_hex.
  destruct (i <? 10) eqn:E; bool_to_prop; rewrite !bval_mkbyte_small by lia.
  - rewrite (proj2 (Z.leb_le _ _)), (proj2 (Z.leb_le _ _)) by lia. done.
  - rewrite (proj2 (Z.leb_le 97 _)), (proj2 (Z.leb_le _ 102)), orb_true_r by lia. done.
Qed.

Lemma nibbles b :
  0 <= Z.shiftr (bval b) 4 < 16 ∧ 0 <= Z.land (bval b) 15 < 16 ∧
  bval b = Z.shiftr (bval b) 4 * 16 + Z.land (bval b) 15.
Proof.
  pose proof (bval_range b) as Hb.
  rewrite Z.shiftr_div_pow2 by lia. change 15 with (Z.ones 4). rewrite Z.land_ones by lia.
  change (2 ^ 4) with 16. pose proof (Z.mod_pos_bound (bval b) 16).
  pose proof (Z.div_mod (bval b) 16). split_and!; lia.
Qed.

Lemma ToLowerHex_length data : length (ToLowerHex data) = (2 * length data)%nat.
Proof. induction data as [| b data IH]; cbn [ToLowerHex length]; lia. Qed.

Lemma ToLowerHex_lower data : forallb is_lower_hex (ToLowerHex data) = true.
Proof.
  induction data as [| b data IH]; [done |]. destruct (nibbles b) as (H1 & H2 & _).
  cbn [ToLowerHex forallb]. by rewrite !hex_digit_lower, IH.
Qed.

Lemma ToLowerHex_nil_iff data : ToLowerHex data = [] ↔ data = [].
Proof. by destruct data. Qed.

Section sha256.
  Context `{Sha256Lib}.

Definition kFileChunkBytes : Z := 1024 * 1024.

(** ** One-shot digests *)

Definition Sha256Hex (data : bytes) (t : tape) : bytes * tape :=
  let '(o, t) := tape_next t in
  (if io_ok o then ToLowerHex (sha256 data) else [], t).

(** The read loop of [Sha256FileHex]: what is left of the file and what the
    context has absorbed; [None] is [ok == false]. A failing [fread] may
    still deliver some bytes, the next one reports the error. *)
Fixpoint hash_loop (fuel : nat) (rest absorbed : bytes) (t : tape) : option bytes * tape :=
  match fuel with
  | O => (None, t)
  | S fuel =>
      let '(o, t) := tape_next t in
      let chunk := match o with
        | IoOk => ztake kFileChunkBytes rest
        | IoFail k => take k (ztake kFileChunkBytes rest)
        end in
      if zlen chunk =? 0 then
        ((if io_ok o then Some absorbed else None), t)
      else
        let '(u, t) := tape_next t in
        if io_ok u then hash_loop fuel (drop (length chunk) rest) (absorbed ++ chunk) t
        else (None, t)
  end.

(** [content] is what the path holds, [None] if it cannot be opened. *)
Definition Sha256FileHex (content : option bytes) (t : tape) : bytes * tape :=
  match content with
  | None => ([], t)
  | Some content =>
      let '(c, t) := tape_next t in
      if negb (io_ok c) then ([], t)
      else
        let '(i, t) := tape_next t in
        if negb (io_ok i) then ([], t)
        else
          match hash_loop (S (length content)) content [] t with
          | (None, t) => ([], t)
          | (Some absorbed, t) =>
              let '(f, t) := tape_next t in
              (if io_ok f then ToLowerHex (sha256 absorbed) else [], t)
          end
  end.

(** ** The streaming context *)

(** [_ctx] with what it has absorbed ([None] is the null pointer), [_final]. *)
Record Sha256Stream := Stream { ctx : option bytes; final : bytes }.

(** [Init] on a null context: the allocation and [EVP_DigestInit_ex]. *)
Definition Init (t : tape) : Sha256Stream * tape :=
  let '(a, t) := tape_next t in
  if negb (io_ok a) then (Stream None [], t)
  else
    let '(i, t) := tape_next t in
    (Stream (if io_ok i then Some [] else None) [], t).

Definition Update (s : Sha256Stream) (data : bytes) (t : tape) : bool * Sha256Stream * tape :=
  match ctx s with
  | None => (false, s, t)
  | Some absorbed =>
      if negb (bool_decide (final s = [])) then (false, s, t)
      else
        match tape_next t with
        | (IoOk, t) => (true, Stream (Some (absorbed ++ data)) [], t)
        | (IoFail k, t) => (false, Stream (Some (absorbed ++ take k data)) [], t)
        end
  end.

Definition FinalHex (s : Sha256Stream) (t : tape) : bytes * Sha256Stream * tape :=
  if negb (bool_decide (final s = [])) then (final s, s, t)
  else
    match ctx s with
    | None => ([], s, t)
    | Some absorbed =>
        let '(f, t) := tape_next t in
        if io_ok f then
          let hex := ToLowerHex (sha256 absorbed) in (hex, Stream (Some absorbed) hex, t)
        else ([], s, t)
    end.

Definition Reset (s : Sha256Stream) (t : tape) : Sha256Stream * tape := Init t.

(** [data.size()] updates in a row. *)
Fixpoint update_all (s : Sha256Stream) (chunks : list bytes) (t : tape) : bool * Sha256Stream * tape :=
  match chunks with
  | [] => (true, s, t)
  | c :: chunks =>
      let '(ok, s, t) := Update s c t in
      if ok then update_all s chunks t else (false, s, t)
  end.

(** [CRYPTO_memcmp] compares all of both buffers. *)
Definition ConstantTimeEquals (a b : option bytes) (len : Z) : bool :=
  if len =? 0 then true
  else match a, b with
       | Some a, Some b => bool_decide (ztake len a = ztake len b)
       | _, _ => false
       end.

(** [RandomBytes] fills [len] bytes from [entropy] or fails. *)
Definition RandomBytes (entropy : bytes) (out_null : bool) (len : Z) (t : tape) : option bytes * tape :=
  if out_null || (len =? 0) then (None, t)
  else
    let '(o, t) := tape_next t in
    (if io_ok o then Some (ztake len entropy) else None, t).

(** ** Lemmas *)

Lemma Sha256_hex_valid m : IsValidSha256Hex (ToLowerHex (sha256 m)) = true.
Proof.
  unfold IsValidSha256Hex, zlen. rewrite ToLowerHex_length, sha256_length. cbn.
  apply ToLowerHex_lower.
Qed.

Lemma Sha256_hex_not_nil m : ToLowerHex (sha256 m) ≠ [].
Proof.
  intros Hn. apply (f_equal length) in Hn. rewrite ToLowerHex_length, sha256_length in Hn. done.
Qed.

Lemma hash_loop_sound fuel rest absorbed t out t' :
  hash_loop fuel rest absorbed t = (Some out, t') → out = absorbed ++ rest.
Proof.
  revert rest absorbed t. induction fuel as [| fuel IH]; intros rest absorbed t; [done |].
  cbn -[ztake zlen]. destruct (tape_next t) as [o t1].
  set (chunk := match o with IoOk => _ | IoFail k => _ end).
  destruct (zlen chunk =? 0) eqn:E.
  - apply Z.eqb_eq, zlen_nil_inv in E. destruct o; [| done]. intros [= <- _].
    apply ztake_nil_inv in E as ->; [by rewrite app_nil_r | done].
  - destruct (tape_next t1) as [u t2]. destruct (io_ok u); [| done].
    intros Hh. rewrite (IH _ _ _ Hh), <- app_assoc. f_equal.
    assert (Hp : chunk `prefix_of` rest).
    { unfold chunk, ztake. destruct o as [| k].
      - exists (drop (Z.to_nat kFileChunkBytes) rest). by rewrite take_drop.
      - rewrite take_take. eexists. symmetry. apply take_drop. }
    clear Hh. clearbody chunk. destruct Hp as [k ->]. by rewrite drop_app_length.
Qed.

Lemma hash_loop_total fuel rest absorbed :
  (length rest < fuel)%nat → ∃ out, hash_loop fuel rest absorbed [] = (Some out, []).
Proof.
  revert rest absorbed. induction fuel as [| fuel IH]; intros rest absorbed Hf; [lia |].
  cbn -[ztake zlen]. destruct (zlen (ztake kFileChunkBytes rest) =? 0) eqn:E; [by eexists |].
  apply IH. rewrite length_drop. bool_to_prop.
  destruct (ztake kFileChunkBytes rest) as [| b k] eqn:Ek; [done |].
  destruct rest; [unfold ztake in Ek; by rewrite take_nil in Ek |]. cbn [length] in *. lia.
Qed.

Lemma Sha256FileHex_cases (content : bytes) (t : tape) :
  (Sha256FileHex (Some content) t).1 = [] ∨
  (Sha256FileHex (Some content) t).1 = ToLowerHex (sha256 content).
Proof.
  unfold Sha256FileHex.
  destruct (tape_next t) as [c t1]. destruct (io_ok c); [| by left]. cbn [negb].
  destruct (tape_next t1) as [i t2]. destruct (io_ok i); [| by left]. cbn [negb].
  destruct (hash_loop _ content [] t2) as [[out |] t3] eqn:E; [| by left].
  apply hash_loop_sound in E as ->. cbn [app].
  destruct (tape_next t3) as [f t4]. destruct (io_ok f); [by right | by left].
Qed.

(** A file digest is right or empty. Whatever reads, allocations and digest calls
    fail, [Sha256FileHex] returns either the empty string or the 64 lower-case
    hex digits of the digest of the whole file, which [Sha256Hex] also
    computes; and when nothing fails it returns the digest. *)
Theorem Sha256FileHex_right_or_empty (content : bytes) (t : tape) :
  ((Sha256FileHex (Some content) t).1 = [] ∨
   ((Sha256FileHex (Some content) t).1 = (Sha256Hex content []).1 ∧
    IsValidSha256Hex (Sha256FileHex (Some content) t).1 = true)) ∧
  Sha256FileHex (Some content) [] = (ToLowerHex (sha256 content), []) ∧
  (Sha256FileHex None t).1 = [].
Proof.
  split; [| split; [| done]].
  - destruct (Sha256FileHex_cases content t) as [Hc | Hc]; rewrite Hc; [by left | right].
    split; [done | apply Sha256_hex_valid].
  - unfold Sha256FileHex. cbn -[hash_loop].
    destruct (hash_loop_total (S (length content)) content []) as [out He]; [lia |].
    rewrite He. apply hash_loop_sound in He as ->. done.
Qed.

Lemma update_all_absorbs s chunks t s' t' absorbed :
  ctx s = Some absorbed → update_all s chunks t = (true, s', t') →
  ctx s' = Some (absorbed ++ concat chunks) ∧ (chunks ≠ [] → final s = []) ∧
  (final s = [] → final s' = []).
Proof.
  revert s t absorbed. induction chunks as [| c chunks IH]; intros s t absorbed Hc; cbn.
  { intros [= <- <-]. rewrite app_nil_r. done. }
  unfold Update. rewrite Hc. destruct (bool_decide (final s = [])) eqn:Ef; cbn; [| done].
  bool_to_prop. destruct (tape_next t) as [[| k] t1]; [| done]. intros Hu.
  apply (IH _ _ (absorbed ++ c)) in Hu as (H1 & _ & H3); [| done].
  rewrite H1, app_assoc. split_and!; try done. intros _. by apply H3.
Qed.

(** Streaming is the same as hashing at once. However the data is cut into updates and
    whatever calls fail, if every update of a fresh context succeeded then
    [FinalHex] returns the digest of the concatenation or the empty string;
    a digest is cached: asking again gives the same one without another
    library call, and a finalised context refuses more data. *)
Theorem Sha256Stream_is_Sha256Hex (chunks : list bytes) (t0 t t1 t2 t3 : tape)
    (s0 s1 s2 : Sha256Stream) (hex : bytes) :
  Init t0 = (s0, t) → ctx s0 ≠ None →
  update_all s0 chunks t = (true, s1, t1) →
  FinalHex s1 t2 = (hex, s2, t3) →
  (hex = [] ∨ hex = (Sha256Hex (concat chunks) []).1) ∧
  (t2 = [] → hex = (Sha256Hex (concat chunks) []).1) ∧
  (hex ≠ [] → ∀ t' more, FinalHex s2 t' = (hex, s2, t') ∧ Update s2 more t' = (false, s2, t')).
Proof.
  intros Hi Hn Hu Hf.
  assert (Hs0 : s0 = Stream (Some []) []).
  { revert Hi Hn. unfold Init. destruct (tape_next t0) as [a ta].
    destruct (io_ok a); cbn; [| by intros [= <- _]].
    destruct (tape_next ta) as [i ti]. destruct (io_ok i); by intros [= <- _]. }
  subst s0. apply (update_all_absorbs _ _ _ _ _ []) in Hu as (Hc & _ & Hfin); [| done].
  cbn in Hc, Hfin. specialize (Hfin eq_refl).
  revert Hf. unfold FinalHex. rewrite Hfin, Hc. cbn.
  destruct t2 as [| o t2]; [| destruct (io_ok o) eqn:Eo]; cbn; rewrite ?Eo; intros [= <- <- <-].
  1, 2: split; [by right |]; split; [done |]; intros _ t' more; unfold FinalHex, Update; cbn;
    rewrite (bool_decide_eq_false_2 (ToLowerHex _ = [])) by apply Sha256_hex_not_nil; done.
  split; [by left |]. split; [| done]. intros [=].
Qed.
End sha256.

(** A digest for the witnesses: 32 copies of the length of the message. *)
Definition toy_sha256 : Sha256Lib.
Proof. refine {| sha256 := λ m, repeat (mkbyte (zlen m)) 32 |}. intros m. by rewrite repeat_length. Defined.

Lemma Sha256Stream_is_Sha256Hex_witness :
  let S := toy_sha256 in
  let s1 := Stream (Some (§ "abcd")) [] in
  (FinalHex s1 []).1.1 = (Sha256Hex (§ "abcd") []).1.
Proof.
  intros S s1. destruct (FinalHex s1 []) as [[hex s2] t3] eqn:E.
  apply (Sha256Stream_is_Sha256Hex [§ "ab"; § "cd"] [] [] [] [] t3 (Stream (Some []) []) s1 s2 hex);
    [reflexivity | discriminate | reflexivity | exact E | reflexivity].
Defined.
