(* ===== verification/PasswordHash.v ===== *)
(** * Stored passwords (common/src/PasswordHash.cpp)

    PBKDF2 and the random generator are the crypto library's: [Pbkdf2Lib]
    names the derivation and its output length. Modelled here: the text
    format of a stored hash, its parser down to [std::stol], and the two
    entry points [HashPassword] and [VerifyPassword]. *)

From S2P Require Import Prelude JsonFields Sha256.

(** [PKCS5_PBKDF2_HMAC] of a password with its length argument, a salt and
    an iteration count; [None] when the call does not return 1. *)
Class Pbkdf2Lib := {
  pbkdf2 : bytes → Z → bytes → Z → option bytes;
  pbkdf2_length : ∀ pw n salt i dk, pbkdf2 pw n salt i = Some dk → length dk = 32%nat;
}.

Definition kHashPrefix : bytes := § "pbkdf2-sha256".
Definition kSaltBytes : Z := 16.
Definition kPbkdf2Iterations : Z := 600000.

(** ** Hexadecimal *)

Definition HexNibble (c : Byte.byte) : Z :=
  if (48 <=? bval c) && (bval c <=? 57) then bval c - 48
  else if (97 <=? bval c) && (bval c <=? 102) then bval c - 97 + 10
  else if (65 <=? bval c) && (bval c <=? 70) then bval c - 65 + 10
  else -1.

(** The loop of [FromHex], two characters per byte. *)
Fixpoint hex_pairs (s : bytes) : option bytes :=
  match s with
  | [] => Some []
  | c1 :: rest =>
      match rest with
      | [] => Some []
      | c2 :: rest =>
          let hi := HexNibble c1 in
          let lo := HexNibble c2 in
          if (hi <? 0) || (lo <? 0) then None
          else match hex_pairs rest with
               | None => None
               | Some out => Some (mkbyte (Z.lor (Z.shiftl hi 4) lo) :: out)
               end
      end
  end.

Definition FromHex (s : bytes) : option bytes :=
  if bool_decide (s = []) || negb (zlen s mod 2 =? 0) then None else hex_pairs s.

(** ** Numbers *)

Definition isspace (c : Byte.byte) : bool :=
  (bval c =? 32) || ((9 <=? bval c) && (bval c <=? 13)).

Fixpoint skip_spaces (s : bytes) : bytes :=
  match s with
  | [] => []
  | c :: s' => if isspace c then skip_spaces s' else s
  end.

Fixpoint take_digits (s : bytes) : bytes :=
  match s with
  | [] => []
  | c :: s => if isdigit c then c :: take_digits s else []
  end.

Definition long_max : Z := 2 ^ 63 - 1.
Definition long_min : Z := - 2 ^ 63.

(** [std::stol(s, &consumed, 10)]: leading white space, an optional sign and
    digits; [None] is an exception, and the second part is [consumed]. *)
Definition stol (s : bytes) : option (Z * Z) :=
  let s1 := skip_spaces s in
  let '(neg, s2) := match s1 with
    | c :: s2 => if bval c =? 45 then (true, s2) else if bval c =? 43 then (false, s2) else (false, s1)
    | [] => (false, [])
    end in
  let ds := take_digits s2 in
  if bool_decide (ds = []) then None
  else
    let v := if neg then - digits_value ds else digits_value ds in
    if (v <? long_min) || (long_max <? v) then None
    else Some (v, zlen s - zlen s2 + zlen ds).

(** ** The stored format *)

Record ParsedHash := Parsed { iterations : Z; salt : bytes; dk : bytes }.

(** The splitting loop of [ParseHash]; [cur] is the part being read. *)
Fixpoint split_dollar (s cur : bytes) : list bytes :=
  match s with
  | [] => [cur]
  | c :: s => if bval c =? 36 then cur :: split_dollar s [] else split_dollar s (cur ++ [c])
  end.

Definition ParseHash (stored : bytes) : option ParsedHash :=
  match split_dollar stored [] with
  | [p0; p1; p2; p3] =>
      if negb (bool_decide (p0 = kHashPrefix)) then None
      else if (zlen p1 <? 3) || negb (bool_decide (ztake 2 p1 = § "i=")) then None
      else match stol (drop 2 p1) with
           | None => None
           | Some (iter, consumed) =>
               if negb (consumed =? zlen p1 - 2) then None
               else if iter <=? 0 then None
               else match FromHex p2 with
                    | None => None
                    | Some out_salt =>
                        match FromHex p3 with
                        | None => None
                        | Some out_dk => Some (Parsed (s32 iter) out_salt out_dk)
                        end
                    end
           end
  | _ => None
  end.

Section password.
  Context `{Pbkdf2Lib}.

Definition DeriveKey (pw salt : bytes) (iterations : Z) (t : tape) : option bytes * tape :=
  let '(o, t) := tape_next t in
  (if io_ok o then pbkdf2 pw (s32 (zlen pw)) salt iterations else None, t).

(** [entropy] is what [RAND_bytes] writes; the empty string is failure. *)
Definition HashPassword (pw entropy : bytes) (t : tape) : bytes * tape :=
  let '(r, t) := tape_next t in
  if negb (io_ok r) then ([], t)
  else
    let salt := ztake kSaltBytes entropy in
    match DeriveKey pw salt kPbkdf2Iterations t with
    | (None, t) => ([], t)
    | (Some dk, t) =>
        (kHashPrefix ++ § "$i=" ++ to_string kPbkdf2Iterations ++ § "$" ++ ToLowerHex salt
           ++ § "$" ++ ToLowerHex dk, t)
    end.

Definition VerifyPassword (pw stored : bytes) (t : tape) : bool * tape :=
  if bool_decide (stored = []) then (false, t)
  else match ParseHash stored with
       | None => (false, t)
       | Some parsed =>
           match DeriveKey pw (salt parsed) (iterations parsed) t with
           | (None, t) => (false, t)
           | (Some key, t) =>
               if negb (zlen key =? zlen (dk parsed)) then (false, t)
               else (bool_decide (key = dk parsed), t)
           end
       end.
End password.

(** ** Lemmas *)

Lemma HexNibble_hex_digit i : 0 <= i < 16 → HexNibble (hex_digit i) = i.
Proof.
  intros Hi. unfold hex_digit, HexNibble.
  destruct (i <? 10) eqn:E; bool_to_prop; rewrite !bval_mkbyte_small by lia.
  - rewrite (proj2 (Z.leb_le 48 _)), (proj2 (Z.leb_le _ 57)) by lia. cbn [andb]. lia.
  - rewrite (proj2 (Z.leb_gt _ 57)), andb_false_r by lia.
    rewrite (proj2 (Z.leb_le 97 _)), (proj2 (Z.leb_le _ 102)) by lia. cbn [andb]. lia.
Qed.

Lemma hex_pairs_ToLowerHex data : hex_pairs (ToLowerHex data) = Some data.
Proof.
  induction data as [| b data IH]; [done |]. destruct (nibbles b) as (H1 & H2 & Hb).
  cbn [ToLowerHex hex_pairs]. rewrite !HexNibble_hex_digit, IH by done.
  rewrite (proj2 (Z.ltb_ge (Z.shiftr (bval b) 4) 0)), (proj2 (Z.ltb_ge (Z.land (bval b) 15) 0)) by lia.
  cbn [orb]. f_equal. f_equal. rewrite <- (mkbyte_bval b) at 3. f_equal.
  rewrite Hb at 3. rewrite <- Z.add_lor_land.
  rewrite <- (Z.shiftl_mul_pow2 _ 4) by lia.
  assert (Hz : Z.land (Z.shiftl (Z.shiftr (bval b) 4) 4) (Z.land (bval b) 15) = 0).
  { apply Z.bits_inj'. intros k Hk. rewrite Z.land_spec, Z.bits_0.
    destruct (decide (k < 4)).
    - by rewrite Z.shiftl_spec_low.
    - rewrite Z.land_spec. change 15 with (Z.ones 4).
      rewrite (Z.ones_spec_high 4 k), !andb_false_r by lia. done. }
  rewrite Hz. lia.
Qed.

Lemma FromHex_ToLowerHex data : data ≠ [] → FromHex (ToLowerHex data) = Some data.
Proof.
  intros Hd. unfold FromHex.
  rewrite bool_decide_eq_false_2 by (by rewrite ToLowerHex_nil_iff).
  unfold zlen. rewrite ToLowerHex_length, Nat2Z.inj_mul, Z.mul_comm, Z.mod_mul by lia.
  apply hex_pairs_ToLowerHex.
Qed.

Definition no_dollar (s : bytes) : Prop := Forall (λ c, (bval c =? 36) = false) s.

Lemma split_dollar_part p rest cur :
  no_dollar p → split_dollar (p ++ § "$" ++ rest) cur = (cur ++ p) :: split_dollar rest [].
Proof.
  intros Hp. revert cur. induction Hp as [| c p Hc Hp IH]; intros cur.
  - cbn. by rewrite app_nil_r.
  - change ((c :: p) ++ § "$" ++ rest) with (c :: (p ++ § "$" ++ rest)). cbn [split_dollar].
    rewrite Hc, IH. by rewrite <- app_assoc.
Qed.

Lemma split_dollar_last p cur : no_dollar p → split_dollar p cur = [cur ++ p].
Proof.
  intros Hp. revert cur. induction Hp as [| c p Hc Hp IH]; intros cur; cbn.
  - by rewrite app_nil_r.
  - rewrite Hc, IH. by rewrite <- app_assoc.
Qed.

Lemma no_dollar_hex data : no_dollar (ToLowerHex data).
Proof.
  apply Forall_forall. intros c Hc%list_elem_of_In.
  pose proof (proj1 (forallb_forall _ _) (ToLowerHex_lower data) c Hc) as Hl.
  unfold is_lower_hex in Hl. apply Z.eqb_neq. apply orb_prop in Hl as [Hl | Hl]; bool_to_prop; lia.
Qed.

Lemma ParseHash_format salt dk :
  salt ≠ [] → dk ≠ [] →
  ParseHash (kHashPrefix ++ § "$i=" ++ to_string kPbkdf2Iterations ++ § "$" ++ ToLowerHex salt
               ++ § "$" ++ ToLowerHex dk) = Some (Parsed kPbkdf2Iterations salt dk).
Proof.
  intros Hs Hd. unfold ParseHash.
  change (§ "$i=" ++ to_string kPbkdf2Iterations ++ § "$" ++ ToLowerHex salt ++ § "$" ++ ToLowerHex dk)
    with (§ "$" ++ (§ "i=600000") ++ § "$" ++ ToLowerHex salt ++ § "$" ++ ToLowerHex dk).
  rewrite split_dollar_part by (by repeat constructor).
  rewrite split_dollar_part by (by repeat constructor).
  rewrite split_dollar_part by apply no_dollar_hex.
  rewrite split_dollar_last by apply no_dollar_hex.
  cbn [app]. rewrite !FromHex_ToLowerHex by done. reflexivity.
Qed.

(** A stored password verifies exactly against the passwords that derive the same key.
    Whenever [HashPassword] produced a hash, [VerifyPassword] of any password
    against it re-derives the key with the salt and the iteration count that
    were used, and answers true exactly when the keys are equal; so the
    original password always verifies when no library call fails, and a
    failing call only ever refuses. *)
Theorem VerifyPassword_HashPassword `{Pbkdf2Lib} (pw pw' entropy stored : bytes) (t t' tv : tape) :
  kSaltBytes <= zlen entropy →
  HashPassword pw entropy t = (stored, t') → stored ≠ [] →
  let salt := ztake kSaltBytes entropy in
  (VerifyPassword pw' stored []).1 =
    bool_decide (pbkdf2 pw' (s32 (zlen pw')) salt kPbkdf2Iterations =
                 pbkdf2 pw (s32 (zlen pw)) salt kPbkdf2Iterations) ∧
  (VerifyPassword pw stored []).1 = true ∧
  ((VerifyPassword pw' stored tv).1 = true → (VerifyPassword pw' stored []).1 = true).
Proof.
  intros He Hh Hn salt.
  assert (Hs : salt ≠ []).
  { intros Hz. apply (f_equal zlen) in Hz. unfold salt in Hz.
    rewrite zlen_ztake in Hz by (split; [done | exact He]). done. }
  revert Hh. unfold HashPassword, DeriveKey. fold salt.
  destruct (tape_next t) as [r t1]. destruct (io_ok r); cbn [negb]; [| by intros [= <- _]].
  destruct (tape_next t1) as [o t2]. destruct (io_ok o); [| by intros [= <- _]].
  destruct (pbkdf2 pw (s32 (zlen pw)) salt kPbkdf2Iterations) as [key |] eqn:Ek; [| by intros [= <- _]].
  intros Heq%(f_equal fst). cbn [fst] in Heq.
  assert (Hk : key ≠ []) by (intros ->; by apply pbkdf2_length in Ek).
  assert (Hv : ∀ p tp, VerifyPassword p stored tp =
    (let '(o, t) := tape_next tp in
     (if io_ok o then bool_decide (pbkdf2 p (s32 (zlen p)) salt kPbkdf2Iterations = Some key) else false, t))).
  { intros p tp. unfold VerifyPassword. rewrite bool_decide_eq_false_2 by done.
    rewrite <- Heq, ParseHash_format by done. unfold DeriveKey. cbn [PasswordHash.salt iterations PasswordHash.dk].
    destruct (tape_next tp) as [op tq]. destruct (io_ok op); [| done].
    destruct (pbkdf2 p (s32 (zlen p)) salt kPbkdf2Iterations) as [key' |] eqn:Ek'; [| done].
    unfold zlen. rewrite (pbkdf2_length _ _ _ _ _ Ek), (pbkdf2_length _ _ _ _ _ Ek'). cbn [Z.eqb negb].
    rewrite Z.eqb_refl. cbn [negb]. f_equal. apply bool_decide_ext. naive_solver. }
  rewrite !Hv, Ek. cbn. split; [done |]. split; [by apply bool_decide_eq_true_2 |].
  destruct (tape_next tv) as [ov tv']. by destruct (io_ok ov).
Qed.

(** A derivation for the witnesses. *)
Definition toy_pbkdf2 : Pbkdf2Lib.
Proof.
  refine {| pbkdf2 := λ pw n salt i, Some (repeat (mkbyte (n + zlen salt)) 32) |}.
  intros pw n salt i dk Hd%(inj Some). subst dk. by rewrite repeat_length.
Defined.

Lemma VerifyPassword_HashPassword_witness :
  let P := toy_pbkdf2 in
  let stored := (HashPassword (§ "secret") (§ "0123456789abcdef") []).1 in
  (VerifyPassword (§ "secret") stored []).1 = true.
Proof.
  intros P stored.
  refine (proj1 (proj2 (VerifyPassword_HashPassword (§ "secret") (§ "secret")
    (§ "0123456789abcdef") stored [] [] [] _ _ _))).
  - vm_compute. discriminate.
  - vm_compute. reflexivity.
  - vm_compute. discriminate.
Defined.

(** What [ParseHash] accepts, and the one number it gets wrong. Every accepted string
    has four parts with the right prefix, a salt and a key, and its count is
    the [int] conversion of a positive [long]; so a count above the range of
    [int] is accepted and truncated, and a stored hash that asks for
    4294967297 iterations is verified with a single one. *)
Theorem ParseHash_truncates_iterations (stored : bytes) (p : ParsedHash) :
  ParseHash stored = Some p →
  (salt p ≠ [] ∧ dk p ≠ [] ∧ ∃ n, 0 < n <= long_max ∧ iterations p = s32 n) ∧
  option_map iterations (ParseHash (§ "pbkdf2-sha256$i=4294967297$00$00")) = Some 1.
Proof.
  intros Hp. split; [| reflexivity]. revert Hp. unfold ParseHash.
  destruct (split_dollar stored []) as [| p0 [| p1 [| p2 [| p3 [|]]]]]; try done.
  destruct (negb (bool_decide (p0 = kHashPrefix))); [done |].
  destruct ((zlen p1 <? 3) || _); [done |].
  destruct (stol (drop 2 p1)) as [[iter consumed] |] eqn:Es; [| done].
  destruct (negb (consumed =? zlen p1 - 2)); [done |].
  destruct (iter <=? 0) eqn:Ei; [done |]. bool_to_prop.
  destruct (FromHex p2) as [out_salt |] eqn:E2; [| done].
  destruct (FromHex p3) as [out_dk |] eqn:E3; [| done].
  intros H%(inj Some); subst p. cbn [salt dk iterations].
  assert (Hx : ∀ h d, FromHex h = Some d → d ≠ []).
  { intros h d. unfold FromHex. destruct (bool_decide (h = []) || _) eqn:E; [done |].
    apply orb_false_elim in E as [E1 E4]. bool_to_prop.
    destruct h as [| c1 [| c2 h]]; [done | by unfold zlen in E4 |]. cbn [hex_pairs].
    repeat case_match; intros [= <-]; done. }
  split; [by eapply Hx |]. split; [by eapply Hx |].
  exists iter. split; [| done]. split; [lia |].
  revert Es. unfold stol. repeat case_match; intros [= <- _]; bool_to_prop; lia.
Qed.

Lemma ParseHash_truncates_iterations_witness :
  option_map iterations (ParseHash (§ "pbkdf2-sha256$i=+600000$0aFF$01")) = Some 600000 ∧
  option_map iterations (ParseHash (§ "pbkdf2-sha256$i=4294967297$00$00")) = Some 1.
Proof.
  split; [vm_compute; reflexivity |].
  apply (ParseHash_truncates_iterations (§ "pbkdf2-sha256$i=2$00$01") (Parsed 2 [x00] [x01])).
  vm_compute. reflexivity.
Defined.
