(* ===== verification/UploadFile.v ===== *)
(** * Upload files on disk (ResourceServer/src/ResourceUploadFile.cpp)

    The POSIX branch of the file operations under an upload: verified chunk
    writes, recovery of a partial file, flushing, and the durable installation
    of a finished file as a blob. [disk] is the file system the code sees:
    names lead to inodes, so the two names [link] makes share their bytes;
    and which directories and inodes have been synced since they last
    changed. The outcomes of the system calls come from a tape. *)

From S2P Require Import Prelude ProtocolIds JsonFields Sha256.

(** ** Paths *)

(** A path is its root flag and its components, the last one first. *)
Record path := Path { absolute : bool; rcomps : list bytes }.

#[global] Instance path_eq_decision : EqDecision path.
Proof. solve_decision. Defined.

#[global] Program Instance path_countable : Countable path :=
  inj_countable (λ p, (absolute p, rcomps p)) (λ '(a, c), Some (Path a c)) _.
Next Obligation. by intros []. Qed.

(** [path / component] *)
Definition child (p : path) (c : bytes) : path := Path (absolute p) (c :: rcomps p).

Definition parent_path (p : path) : path :=
  match rcomps p with
  | [] => Path false []
  | _ :: rest => Path (absolute p) rest
  end.

(** The empty path; as a directory it is the current one. *)
Definition path_empty (p : path) : bool := negb (absolute p) && bool_decide (rcomps p = []).

(** ** The file system *)

Record disk := Disk {
  names : gmap path nat;
  inodes : gmap nat bytes;
  dirs : gset path;
  synced : gset path;            (* directories whose entries are on the disk *)
  flushed : gset nat;            (* inodes whose bytes are on the disk *)
}.

Definition content (d : disk) (p : path) : option bytes := names d !! p ≫= λ i, inodes d !! i.

(** The state monad of the code below: a disk and the outcomes to come. *)
Definition IO (A : Type) : Type := disk → tape → A * disk * tape.
#[global] Instance IO_ret : MRet IO := λ A a d t, (a, d, t).
#[global] Instance IO_bind : MBind IO := λ A B k m d t, let '(a, d', t') := m d t in k a d' t'.

Definition get : IO disk := λ d t, (d, d, t).
Definition put (d : disk) : IO unit := λ _ t, (tt, d, t).

(** The outcome of the next system call. *)
Definition syscall : IO io_outcome := λ d t, let '(o, t') := tape_next t in (o, d, t').

(** A digest of bytes in memory takes its outcome from the same tape. *)
Definition with_tape {A} (f : tape → A * tape) : IO A := λ d t, let '(a, t') := f t in (a, d, t').

(** *** Changes *)

Definition set_bytes (d : disk) (i : nat) (data : bytes) : disk :=
  Disk (names d) (<[i := data]> (inodes d)) (dirs d) (synced d) (flushed d ∖ {[i]}).

(** The entry [p] appears or goes: its directory has to be synced again. *)
Definition add_name (d : disk) (p : path) (i : nat) : disk :=
  Disk (<[p := i]> (names d)) (inodes d) (dirs d) (synced d ∖ {[parent_path p]}) (flushed d).
Definition del_name (d : disk) (p : path) : disk :=
  Disk (delete p (names d)) (inodes d) (dirs d) (synced d ∖ {[parent_path p]}) (flushed d).
Definition add_dir (d : disk) (p : path) : disk :=
  Disk (names d) (inodes d) (dirs d ∪ {[p]}) (synced d ∖ {[parent_path p; p]}) (flushed d).
Definition mark_synced (d : disk) (p : path) : disk :=
  Disk (names d) (inodes d) (dirs d) (synced d ∪ {[p]}) (flushed d).
Definition mark_flushed (d : disk) (i : nat) : disk :=
  Disk (names d) (inodes d) (dirs d) (synced d) (flushed d ∪ {[i]}).

(** A new empty file. *)
Definition create_file (d : disk) (p : path) : disk :=
  let i := fresh (dom (inodes d)) in
  add_name (set_bytes d i []) p i.

(** Writing [data] at an offset; a hole is filled with zeros. *)
Definition write_at (f : bytes) (off : Z) (data : bytes) : bytes :=
  let n := Z.to_nat off in
  take n (f ++ replicate (n - length f) x00) ++ data ++ drop (n + length data) f.

(** ** File helpers *)

Section upload.
  Context `{Sha256Lib}.

(** [ReadLength], and [DiskFileLength] of FileWorker.cpp: a missing file has
    length 0; [None] is a failure. *)
Definition ReadLength (p : path) : IO (option Z) :=
  s ← syscall;
  d ← get;
  if negb (io_ok s) then mret None
  else match content d p with
       | None => if decide (p ∈ dirs d) then mret None else mret (Some 0)
       | Some f => o ← syscall; mret (if io_ok o then Some (zlen f) else None)
       end.

(** The bytes a stream delivers from an offset; a failure makes it short. *)
Definition read_range (f : bytes) (offset len : Z) (o : io_outcome) : bytes :=
  match o with
  | IoOk => zslice f offset len
  | IoFail k => take k (zslice f offset len)
  end.

Definition HashRange (p : path) (offset len : Z) : IO bytes :=
  o ← syscall;
  d ← get;
  match (if io_ok o then content d p else None) with
  | None => mret []
  | Some f =>
      r ← syscall;
      let data := read_range f offset len r in
      if negb (zlen data =? len) then mret []
      else with_tape (Sha256Hex data)
  end.

(** The part of [WriteAndVerify] on an open stream. *)
Definition write_and_read_back (p : path) (i : nat) (offset : Z) (data : bytes) : IO bool :=
  w ← syscall;
  d ← get;
  let f := default [] (inodes d !! i) in
  match w with
  | IoFail k => put (set_bytes d i (write_at f offset (take k data)));; mret false
  | IoOk =>
      put (set_bytes d i (write_at f offset data));;
      r ← syscall;
      d ← get;
      mret (bool_decide (read_range (default [] (inodes d !! i)) offset (zlen data) r = data))
  end.

Definition WriteAndVerify (p : path) (offset : Z) (data : bytes) : IO bool :=
  o ← syscall;
  d ← get;
  match (if io_ok o then names d !! p else None) with
  | Some i => write_and_read_back p i offset data
  | None =>
      if negb (offset =? 0) then mret false
      else
        c ← syscall;
        d ← get;
        if negb (io_ok c) || negb (bool_decide (parent_path p ∈ dirs d)) then mret false
        else
          match names d !! p with Some _ => mret tt | None => put (create_file d p) end;;
          o2 ← syscall;
          d ← get;
          match (if io_ok o2 then names d !! p else None) with
          | None => mret false
          | Some i => write_and_read_back p i offset data
          end
  end.

Definition TruncateUploadFile (p : path) (received : Z) : IO bool :=
  l ← ReadLength p;
  match l with
  | None => mret false
  | Some size =>
      if size <? received then mret false
      else if size =? received then mret true
      else
        o ← syscall;
        d ← get;
        match (if io_ok o then names d !! p else None) with
        | None => mret false
        | Some i => put (set_bytes d i (ztake received (default [] (inodes d !! i))));; mret true
        end
  end.

(** The new [received], or failure. *)
Definition RecoverUploadFile (p : path) (total_size chunk_size : Z) : IO (option Z) :=
  if chunk_size =? 0 then mret None
  else
    l ← ReadLength p;
    match l with
    | None => mret None
    | Some size =>
        let resume := if (size =? 0) || (total_size <? size) then 0
                      else (size - 1) / chunk_size * chunk_size in
        ok ← TruncateUploadFile p resume;
        mret (if (ok : bool) then Some resume else None)
    end.

(** [create_directories]: the missing ancestors, outermost first; a failure
    leaves the first [k] of them behind. *)
Fixpoint ancestors (abs : bool) (rc : list bytes) : list path :=
  match rc with
  | [] => []
  | _ :: rest => ancestors abs rest ++ [Path abs rc]
  end.

Definition create_directories (p : path) : IO bool :=
  o ← syscall;
  d ← get;
  let missing := filter (λ a, a ∉ dirs d) (ancestors (absolute p) (rcomps p)) in
  if existsb (λ a, bool_decide (is_Some (names d !! a))) missing then mret false
  else match o with
  | IoOk => put (foldl add_dir d missing);; mret true
  | IoFail k => put (foldl add_dir d (take k missing));; mret false
  end.

(** [WriteUploadChunk]: the error code and the new [received]. *)
Definition WriteUploadChunk (p : path) (total_size chunk_size offset : Z) (data chunk_sha256 : bytes)
    (received : Z) : IO (Z * Z) :=
  let err e r := mret (ResourceErrCode_code e, r) in
  if chunk_size =? 0 then err RS_FILE_OFFSET_INVALID received
  else
    let length := zlen data in
    if (length =? 0) || (chunk_size <? length) then err RS_FILE_SIZE_EXCEEDED received
    else if negb (offset mod chunk_size =? 0) || (total_size <? offset)
            || (total_size - offset <? length) then err RS_FILE_OFFSET_INVALID received
    else if negb (length =? Z.min chunk_size (total_size - offset)) then
      err RS_FILE_SIZE_EXCEEDED received
    else if (received <? offset) || ((offset <? received) && (received <? offset + length)) then
      err RS_FILE_OFFSET_INVALID received
    else
      ok ← (if negb (IsValidSha256Hex chunk_sha256) then mret false
            else h ← with_tape (Sha256Hex data); mret (bool_decide (h = chunk_sha256)));
      if negb ok then err RS_FILE_HASH_MISMATCH received
      else if offset <? received then
        disk_hash ← HashRange p offset length;
        if bool_decide (disk_hash = []) then err RS_FILE_READ_FAILED received
        else if bool_decide (disk_hash = chunk_sha256) then
          mret (CommonErrCode_code ERR_SUCCESS, received)
        else
          t ← TruncateUploadFile p offset;
          if negb t then err RS_FILE_WRITE_PERMISSION received
          else err RS_FILE_HASH_MISMATCH offset
      else
        made ← (if path_empty (parent_path p) then mret true else create_directories (parent_path p));
        if negb made then err RS_CREATE_FILE_PATH_FAILED received
        else
          w ← WriteAndVerify p offset data;
          if negb w then
            TruncateUploadFile p received;;
            err RS_FILE_WRITE_PERMISSION received
          else mret (CommonErrCode_code ERR_SUCCESS, received + length).
End upload.

(** ** Durability *)

Definition FlushFileToDisk (p : path) : IO bool :=
  o ← syscall;
  d ← get;
  match (if io_ok o then names d !! p else None) with
  | None => mret false
  | Some i =>
      f ← syscall;
      if io_ok f then d ← get; put (mark_flushed d i);; mret true else mret false
  end.

(** The empty path is opened as the current directory. *)
Definition FsyncDirectory (p : path) : IO bool :=
  o ← syscall;
  d ← get;
  if negb (io_ok o) || negb (bool_decide (p ∈ dirs d)) then mret false
  else
    f ← syscall;
    if io_ok f then d ← get; put (mark_synced d p);; mret true else mret false.

(** [is_directory(p, ec)]: false when the status cannot be read. *)
Definition is_directory (p : path) : IO bool :=
  o ← syscall;
  d ← get;
  mret (io_ok o && bool_decide (p ∈ dirs d)).

(** The levels that are missing, the leaf first. *)
Fixpoint missing_levels (abs : bool) (rc : list bytes) : IO (list path) :=
  if path_empty (Path abs rc) then mret []
  else
    b ← is_directory (Path abs rc);
    if (b : bool) then mret []
    else match rc with
         | [] => mret [Path abs rc]
         | _ :: rest =>
             if path_empty (Path abs rest) then mret [Path abs rc]
             else ms ← missing_levels abs rest; mret (Path abs rc :: ms)
         end.

(** [create_directory]: true unless an error code is set. *)
Definition create_directory (p : path) : IO bool :=
  o ← syscall;
  d ← get;
  if negb (io_ok o) then mret false
  else if decide (p ∈ dirs d) then mret true
  else if negb (bool_decide (parent_path p ∈ dirs d)) || bool_decide (is_Some (names d !! p)) then
    mret false
  else put (add_dir d p);; mret true.

Fixpoint create_levels (ps : list path) : IO bool :=
  match ps with
  | [] => mret true
  | p :: ps =>
      ok ← create_directory p;
      ok ← (if (ok : bool) then mret true else is_directory p);
      if (ok : bool) then create_levels ps else mret false
  end.

(** The loop that syncs a directory and every directory above it. *)
Fixpoint fsync_chain (abs : bool) (rc : list bytes) : IO bool :=
  ok ← FsyncDirectory (Path abs rc);
  if negb ok then mret false
  else match rc with
       | [] => mret true
       | _ :: rest => if path_empty (Path abs rest) then mret true else fsync_chain abs rest
       end.

Definition EnsureDirectoryDurable (p : path) : IO bool :=
  if path_empty p then mret true
  else
    ms ← missing_levels (absolute p) (rcomps p);
    ok ← create_levels (reverse ms);
    if negb ok then mret false else fsync_chain (absolute p) (rcomps p).

(** The end of [DurableRename]. *)
Definition sync_parents (from to : path) : IO bool :=
  ok ← FsyncDirectory (parent_path to);
  if decide (parent_path from = parent_path to) then mret ok
  else
    ok2 ← FsyncDirectory (parent_path from);
    mret (ok2 && ok).

(** The result and [*already_exists]; [want_exists] says that pointer is given. *)
Definition DurableRename (from to : path) (replace want_exists : bool) : IO (bool * bool) :=
  ok ← EnsureDirectoryDurable (parent_path to);
  if negb ok then mret (false, false)
  else if negb replace then
    o ← syscall;
    d ← get;
    if negb (io_ok o) then mret (false, false)
    else if bool_decide (is_Some (names d !! to)) || bool_decide (to ∈ dirs d) then
      if want_exists then mret (true, true) else mret (false, false)
    else match names d !! from with
         | None => mret (false, false)
         | Some i =>
             put (add_name d to i);;
             u ← syscall;
             if negb (io_ok u) then mret (false, false)
             else d ← get; put (del_name d from);; ok ← sync_parents from to; mret (ok, false)
         end
  else
    o ← syscall;
    d ← get;
    match (if io_ok o then names d !! from else None) with
    | None => mret (false, false)
    | Some i =>
        put (add_name (del_name d from) to i);;
        ok ← sync_parents from to; mret (ok, false)
    end.

(** ** The layout of the store *)

Definition ResourceUploadingPartPath (root : path) (message_id : Z) : path :=
  child (child root (§ "uploading")) (ll_string message_id ++ § ".part").

Definition ResourceBlobPath (root : path) (sha256_hex : bytes) : path :=
  child (child (child root (§ "blobs")) (ztake 2 sha256_hex)) sha256_hex.

(** ** What a step may change *)

(** Every name leads to an inode. *)
Definition disk_wf (d : disk) : Prop := ∀ p i, names d !! p = Some i → is_Some (inodes d !! i).

Definition part_bytes (d : disk) (p : path) : bytes := default [] (content d p).

(** Another name of the same inode. *)
Definition aliases (d : disk) (p q : path) : Prop :=
  ∃ i, names d !! p = Some i ∧ names d !! q = Some i.

(** A step that writes through [p] only: names other than [p] keep their
    inodes, none becomes an alias of [p], and those that are not aliases of
    it keep their bytes. *)
Definition writes_only (p : path) (d d' : disk) : Prop :=
  (∀ q, q ≠ p → names d' !! q = names d !! q) ∧
  (∀ q, q ≠ p → aliases d' p q → aliases d p q) ∧
  (∀ q, q ≠ p → ¬ aliases d p q → content d' q = content d q).

Lemma writes_only_trans p d d1 d2 : writes_only p d d1 → writes_only p d1 d2 → writes_only p d d2.
Proof.
  intros (Hn1 & Ha1 & Hc1) (Hn2 & Ha2 & Hc2). split_and!; intros q Hq.
  - by rewrite Hn2, Hn1.
  - intros Ha. by apply Ha1, Ha2.
  - intros Ha. rewrite Hc2, Hc1; [done | done | done | done |]. intros Ha'. by apply Ha, Ha1.
Qed.

#[local] Arguments zlen {_} _ : simpl never.

Lemma content_set_bytes d i f p :
  content (set_bytes d i f) p = if decide (names d !! p = Some i) then Some f else content d p.
Proof.
  unfold content. cbn. case_decide as E.
  - rewrite E. cbn. by rewrite lookup_insert_eq.
  - destruct (names d !! p) as [j |]; [| done]. cbn. rewrite lookup_insert_ne; [done | congruence].
Qed.

Lemma set_bytes_wf d i f : disk_wf d → disk_wf (set_bytes d i f).
Proof.
  intros Hw p j Hp. cbn in *. destruct (decide (i = j)) as [-> |].
  - rewrite lookup_insert_eq. done.
  - rewrite lookup_insert_ne by done. by apply (Hw p).
Qed.

Lemma set_bytes_writes_only d p i f : names d !! p = Some i → writes_only p d (set_bytes d i f).
Proof.
  intros Hp. split; [done |]. split; [done |]. intros q Hq Ha. rewrite content_set_bytes.
  case_decide as E; [| done]. destruct Ha. by exists i.
Qed.

Lemma part_bytes_set_bytes d p i f : names d !! p = Some i → part_bytes (set_bytes d i f) p = f.
Proof. intros Hp. unfold part_bytes. rewrite content_set_bytes. by rewrite decide_True. Qed.

Lemma content_named d p i : disk_wf d → names d !! p = Some i →
  ∃ f, inodes d !! i = Some f ∧ content d p = Some f.
Proof. intros Hw Hp. destruct (Hw p i Hp) as [f Hf]. exists f. unfold content. by rewrite Hp. Qed.

Lemma create_file_spec d p :
  disk_wf d → names d !! p = None →
  let i := fresh (dom (inodes d)) in
  disk_wf (create_file d p) ∧ names (create_file d p) !! p = Some i ∧
  inodes (create_file d p) !! i = Some [] ∧ writes_only p d (create_file d p).
Proof.
  intros Hw Hp i. assert (Hi : inodes d !! i = None) by (apply not_elem_of_dom, is_fresh).
  assert (Hfresh : ∀ q, names d !! q ≠ Some i).
  { intros q Hq. destruct (Hw q i Hq) as [f Hf]. congruence. }
  unfold create_file. fold i. split_and!.
  - intros q j. cbn. destruct (decide (q = p)) as [-> |].
    + rewrite lookup_insert_eq. intros [= <-]. by rewrite lookup_insert_eq.
    + rewrite lookup_insert_ne by done. intros Hq. rewrite lookup_insert_ne by (intros ->; by apply (Hfresh q)).
      by apply (Hw q).
  - cbn. by rewrite lookup_insert_eq.
  - cbn. by rewrite lookup_insert_eq.
  - split_and!; intros q Hq; cbn.
    + by rewrite lookup_insert_ne.
    + intros (j & Hj & Hqj). cbn in Hj, Hqj. rewrite lookup_insert_eq in Hj.
      rewrite lookup_insert_ne in Hqj by done. simplify_eq. by destruct (Hfresh q).
    + intros _. unfold content. cbn. rewrite lookup_insert_ne by done.
      destruct (names d !! q) as [j |] eqn:Ej; [| done]. cbn.
      rewrite lookup_insert_ne; [done |]. intros ->. by apply (Hfresh q).
Qed.

(** *** [write_at] *)

Lemma write_at_append (f : bytes) off data :
  0 <= off <= zlen f → write_at f off data = ztake off f ++ data ++ drop (Z.to_nat off + length data) f.
Proof.
  intros H. unfold write_at, ztake, zlen in *. rewrite take_app_le by lia. done.
Qed.

Lemma zlen_drop {A} (l : list A) n : zlen (drop n l) = Z.max 0 (zlen l - Z.of_nat n).
Proof. unfold zlen. rewrite length_drop. lia. Qed.

Lemma write_at_spec (f : bytes) off data :
  0 <= off <= zlen f →
  ztake (off + zlen data) (write_at f off data) = ztake off f ++ data ∧
  zlen (write_at f off data) = Z.max (zlen f) (off + zlen data).
Proof.
  intros H. rewrite write_at_append by done. split.
  - rewrite app_assoc. rewrite ztake_app_le by (rewrite zlen_app, zlen_ztake; lia).
    apply ztake_all. rewrite zlen_app, zlen_ztake; lia.
  - rewrite !zlen_app, zlen_ztake, zlen_drop by lia. unfold zlen in *. lia.
Qed.

Lemma write_at_prefix (f : bytes) off data n :
  0 <= n <= off → off <= zlen f → ztake n (write_at f off data) = ztake n f.
Proof.
  intros Hn Hf. rewrite write_at_append by lia.
  rewrite ztake_app_le by (rewrite zlen_ztake; lia). apply ztake_ztake. lia.
Qed.

Section upload_specs.
  Context `{Sha256Lib}.

Lemma ReadLength_spec p d t r d' t' :
  ReadLength p d t = (r, d', t') →
  d' = d ∧ (r = None ∨ r = Some (zlen (part_bytes d p))).
Proof.
  unfold ReadLength, part_bytes, mbind, IO_bind, syscall, get, mret, IO_ret.
  destruct (tape_next t) as [s t1]. destruct (io_ok s); [| intros [= <- <- <-]; auto].
  cbn [negb]. destruct (content d p) as [f |].
  - destruct (tape_next t1) as [o t2]. intros [= <- <- <-]. destruct (io_ok o); auto.
  - case_decide; intros [= <- <- <-]; auto.
Qed.

Lemma ReadLength_ok p d :
  p ∉ dirs d → ReadLength p d [] = (Some (zlen (part_bytes d p)), d, []).
Proof.
  intros Hd. unfold ReadLength, part_bytes. cbv [mbind IO_bind syscall get mret IO_ret]. cbn.
  destruct (content d p); cbn; [done |]. by rewrite decide_False.
Qed.

Lemma read_range_full f off len o :
  0 <= off → 0 <= len → zlen (read_range f off len o) = len → read_range f off len o = zslice f off len.
Proof.
  intros Ho Hl. destruct o as [| k]; [done |]. cbn. intros Hz.
  rewrite take_ge; [done |]. unfold zlen in Hz. rewrite length_take in Hz.
  unfold zslice in *. rewrite length_take in *. lia.
Qed.

Lemma HashRange_spec p off len d t h d' t' :
  0 <= off → 0 <= len → HashRange p off len d t = (h, d', t') →
  d' = d ∧ (h = [] ∨ (h = ToLowerHex (sha256 (zslice (part_bytes d p) off len)) ∧
                      zlen (zslice (part_bytes d p) off len) = len)).
Proof.
  intros Ho Hl. unfold HashRange, part_bytes, Sha256Hex, with_tape, mbind, IO_bind, syscall, get, mret, IO_ret.
  destruct (tape_next t) as [o t1].
  destruct (if io_ok o then content d p else None) as [f |] eqn:Ef; [| intros [= <- <- <-]; auto].
  assert (Hf : content d p = Some f) by (by destruct (io_ok o)).
  destruct (tape_next t1) as [r t2].
  destruct (zlen (read_range f off len r) =? len) eqn:Ez; cbn [negb]; [| intros [= <- <- <-]; auto].
  apply Z.eqb_eq in Ez. rewrite Hf. cbn [default from_option id].
  pose proof (read_range_full _ _ _ _ Ho Hl Ez) as Hrr. rewrite Hrr in Ez |- *.
  destruct (tape_next t2) as [e t3]. destruct (io_ok e); intros [= <- <- <-]; auto.
Qed.

Lemma write_and_read_back_spec p i off data d t b d' t' f :
  inodes d !! i = Some f → write_and_read_back p i off data d t = (b, d', t') →
  ∃ data', d' = set_bytes d i (write_at f off data') ∧ (length data' <= length data)%nat ∧
           (b = true → data' = data).
Proof.
  intros Hi. unfold write_and_read_back, mbind, IO_bind, syscall, get, mret, IO_ret, put.
  destruct (tape_next t) as [w t1]. rewrite Hi. cbn [default from_option id]. destruct w as [| k].
  - destruct (tape_next t1) as [r t2]. intros [= <- <- <-]. by exists data.
  - intros [= <- <- <-]. exists (take k data). split; [done |].
    split; [rewrite length_take; lia | done].
Qed.

Lemma opened_write_spec p i off data d t b d' t' :
  disk_wf d → names d !! p = Some i → write_and_read_back p i off data d t = (b, d', t') →
  disk_wf d' ∧ writes_only p d d' ∧
  ∃ data', (b = true → data' = data) ∧ (length data' <= length data)%nat ∧
    part_bytes d' p = write_at (part_bytes d p) off data'.
Proof.
  intros Hw Hp Hr. destruct (content_named d p i Hw Hp) as (f & Hf & Hcf).
  destruct (write_and_read_back_spec _ _ _ _ _ _ _ _ _ _ Hf Hr) as (data' & -> & Hl & Hb).
  split; [by apply set_bytes_wf |]. split; [by apply set_bytes_writes_only |].
  exists data'. split_and!; [done | done |]. rewrite part_bytes_set_bytes by done.
  f_equal. unfold part_bytes. by rewrite Hcf.
Qed.

(** A branch that returns without touching the disk. *)
Ltac unchanged := intros [= <- <- <-]; split_and!; first [done | by left].

Lemma WriteAndVerify_spec p off data d t b d' t' :
  disk_wf d → WriteAndVerify p off data d t = (b, d', t') →
  disk_wf d' ∧ writes_only p d d' ∧
  ((part_bytes d' p = part_bytes d p ∧ b = false) ∨
   (∃ data', (b = true → data' = data) ∧ (length data' <= length data)%nat ∧
      part_bytes d' p = write_at (part_bytes d p) off data')).
Proof.
  intros Hw. unfold WriteAndVerify, mbind, IO_bind, syscall, get, mret, IO_ret, put.
  destruct (tape_next t) as [o t1].
  destruct (if io_ok o then names d !! p else None) as [i |] eqn:Eo.
  { intros Hr. assert (Hp : names d !! p = Some i) by (by destruct (io_ok o)).
    destruct (opened_write_spec _ _ _ _ _ _ _ _ _ Hw Hp Hr) as (? & ? & ?). auto. }
  destruct (negb (off =? 0)) eqn:E0; [unchanged |].
  destruct (tape_next t1) as [c t2].
  destruct (negb (io_ok c) || negb (bool_decide (parent_path p ∈ dirs d))) eqn:Ec; [unchanged |].
  destruct (names d !! p) as [i |] eqn:Ep.
  - destruct (tape_next t2) as [o2 t3]. destruct (io_ok o2); [| unchanged].
    rewrite Ep. intros Hr. destruct (opened_write_spec _ _ _ _ _ _ _ _ _ Hw Ep Hr) as (? & ? & ?).
    auto.
  - destruct (create_file_spec d p Hw Ep) as (Hw' & Hp' & Hi' & Hwo).
    assert (Hpb : part_bytes (create_file d p) p = part_bytes d p).
    { unfold part_bytes, content. rewrite Hp', Ep. cbn [mbind option_bind]. by rewrite Hi'. }
    destruct (tape_next t2) as [o2 t3]. destruct (io_ok o2).
    + rewrite Hp'. intros Hr. destruct (opened_write_spec _ _ _ _ _ _ _ _ _ Hw' Hp' Hr) as (Hw2 & Hwo2 & Hex).
      split; [done |]. split; [by eapply writes_only_trans |].
      right. by rewrite <- Hpb.
    + intros [= <- <- <-]. split_and!; [done | done | by left].
Qed.

Lemma TruncateUploadFile_spec p r d t b d' t' :
  disk_wf d → 0 <= r → TruncateUploadFile p r d t = (b, d', t') →
  disk_wf d' ∧ writes_only p d d' ∧
  (if b then r <= zlen (part_bytes d p) ∧ part_bytes d' p = ztake r (part_bytes d p) else d' = d).
Proof.
  intros Hw Hr. unfold TruncateUploadFile, mbind, IO_bind, syscall, get, mret, IO_ret, put.
  destruct (ReadLength p d t) as [[l d1] t1] eqn:El.
  destruct (ReadLength_spec _ _ _ _ _ _ El) as [-> Hl].
  destruct l as [size |]; [| unchanged].
  destruct Hl as [Hl | Hl]; [done |]. simplify_eq.
  destruct (zlen (part_bytes d p) <? r) eqn:E1; [unchanged |].
  destruct (zlen (part_bytes d p) =? r) eqn:E2; bool_to_prop.
  { intros [= <- <- <-]. split_and!; try done. by rewrite ztake_all by lia. }
  destruct (tape_next t1) as [o t2].
  destruct (if io_ok o then names d !! p else None) as [i |] eqn:Eo; [| unchanged].
  assert (Hp : names d !! p = Some i) by (by destruct (io_ok o)).
  intros [= <- <- <-]. split_and!; [by apply set_bytes_wf | by apply set_bytes_writes_only | done |].
  rewrite part_bytes_set_bytes by done. f_equal. unfold part_bytes, content. by rewrite Hp.
Qed.

(** The state of a partial file: [r] bytes are confirmed, and what lies
    beyond them is at most one unconfirmed chunk inside the declared size. *)
Definition part_ok (d : disk) (p : path) (total chunk r : Z) : Prop :=
  0 <= r <= total ∧ r <= zlen (part_bytes d p) <= Z.min total (r + chunk).

Lemma RecoverUploadFile_spec p total chunk d t r d' t' :
  disk_wf d → 0 < chunk → 0 <= total → RecoverUploadFile p total chunk d t = (Some r, d', t') →
  disk_wf d' ∧ writes_only p d d' ∧ part_ok d' p total chunk r ∧
  part_bytes d' p = ztake r (part_bytes d p) ∧ zlen (part_bytes d' p) = r ∧ r mod chunk = 0 ∧
  ((r = 0 ∧ (zlen (part_bytes d p) = 0 ∨ total < zlen (part_bytes d p))) ∨
   r < zlen (part_bytes d p) <= r + chunk).
Proof.
  intros Hw Hc Ht. unfold RecoverUploadFile, mbind, IO_bind, mret, IO_ret.
  rewrite (proj2 (Z.eqb_neq chunk 0)) by lia.
  destruct (ReadLength p d t) as [[l d1] t1] eqn:El.
  destruct (ReadLength_spec _ _ _ _ _ _ El) as [-> Hl].
  destruct l as [size |]; [| done]. destruct Hl as [Hl | Hl]; [done |].
  simplify_eq. set (size := zlen (part_bytes d p)) in *.
  set (resume := if (size =? 0) || (total <? size) then 0 else (size - 1) / chunk * chunk).
  destruct (TruncateUploadFile p resume d t1) as [[ok d2] t2] eqn:Et.
  destruct ok; [| done]. intros [= <- <- <-].
  assert (Hsize : 0 <= size) by apply zlen_nonneg.
  assert (Hres : 0 <= resume <= total ∧ resume mod chunk = 0 ∧
            ((resume = 0 ∧ (size = 0 ∨ total < size)) ∨ resume < size <= resume + chunk)).
  { unfold resume. destruct ((size =? 0) || (total <? size)) eqn:E; bool_to_prop.
    - rewrite Z.mod_0_l by lia. split_and!; [lia | lia | done |]. left. by destruct E; bool_to_prop; auto.
    - pose proof (Z.div_mod (size - 1) chunk). pose proof (Z.mod_pos_bound (size - 1) chunk).
      rewrite Z.mod_mul by lia. split_and!; [| lia | done | right; lia].
      apply Z.mul_nonneg_nonneg; [apply Z.div_pos; lia | lia]. }
  destruct (TruncateUploadFile_spec _ _ _ _ _ _ _ Hw (proj1 (proj1 Hres)) Et) as (Hw' & Hwo & Hle & Hpb).
  assert (Hz : zlen (part_bytes d2 p) = resume) by (rewrite Hpb; apply zlen_ztake; lia).
  split_and!; try done; try lia.
  all: unfold part_ok; rewrite ?Hz; try lia.
Qed.
Lemma foldl_add_dir_names d ps :
  names (foldl add_dir d ps) = names d ∧ inodes (foldl add_dir d ps) = inodes d.
Proof. revert d. induction ps as [| q ps IH]; intros d; [done |]. cbn. by destruct (IH (add_dir d q)). Qed.

Lemma create_directories_spec p d t b d' t' :
  create_directories p d t = (b, d', t') → names d' = names d ∧ inodes d' = inodes d.
Proof.
  unfold create_directories, mbind, IO_bind, syscall, get, mret, IO_ret, put.
  destruct (tape_next t) as [o t1]. case_match; [by intros [= <- <- <-] |].
  destruct o; intros [= <- <- <-]; apply foldl_add_dir_names.
Qed.

Lemma same_files d d' p :
  names d' = names d → inodes d' = inodes d →
  (disk_wf d → disk_wf d') ∧ writes_only p d d' ∧ ∀ q, part_bytes d' q = part_bytes d q.
Proof.
  unfold disk_wf, writes_only, aliases, part_bytes, content. intros -> ->. done.
Qed.

(** What a chunk write promises about the confirmed bytes. *)
Definition chunk_result (p : path) (total chunk off : Z) (data sha : bytes) (r : Z) (d : disk)
    (err r' : Z) (d' : disk) : Prop :=
  let old := part_bytes d p in
  let new := part_bytes d' p in
  disk_wf d' ∧ writes_only p d d' ∧ part_ok d' p total chunk r' ∧
  (err = 0 →
     sha = ToLowerHex (sha256 data) ∧ 0 < zlen data ∧ zlen data = Z.min chunk (total - off) ∧
     ((off = r ∧ r' = r + zlen data ∧ ztake r' new = ztake r old ++ data) ∨
      (off < r ∧ r' = r ∧ d' = d ∧ ToLowerHex (sha256 (zslice old off (zlen data))) = sha))) ∧
  (err ≠ 0 → (r' = r ∨ r' = off ∧ off < r) ∧ ztake r' new = ztake r' old).

Lemma chunk_result_unchanged p total chunk off data sha r d err :
  disk_wf d → part_ok d p total chunk r → err ≠ 0 →
  chunk_result p total chunk off data sha r d err r d.
Proof. intros. unfold chunk_result. split_and!; try done. intros _. split; [by left | done]. Qed.

(** The append path: directories, verified write, rollback. *)
Lemma append_chunk_result p total chunk data sha r d t :
  disk_wf d → 0 < zlen data → part_ok d p total chunk r → zlen data = Z.min chunk (total - r) →
  sha = ToLowerHex (sha256 data) →
  ∀ err r' d' t',
  (w ← WriteAndVerify p r data;
   if negb w then TruncateUploadFile p r;; mret (ResourceErrCode_code RS_FILE_WRITE_PERMISSION, r)
   else mret (CommonErrCode_code ERR_SUCCESS, r + zlen data)) d t = ((err, r'), d', t') →
  chunk_result p total chunk r data sha r d err r' d'.
Proof.
  intros Hw Hz Hok Hlen Hsha err r' d' t'. unfold mbind, IO_bind, mret, IO_ret.
  destruct (WriteAndVerify p r data d t) as [[w d1] t1] eqn:Ew.
  destruct (WriteAndVerify_spec _ _ _ _ _ _ _ _ Hw Ew) as (Hw1 & Hwo1 & Hc).
  pose proof Hok as [Hr Hl].
  assert (Hb : ztake r (part_bytes d1 p) = ztake r (part_bytes d p) ∧
               r <= zlen (part_bytes d1 p) <= Z.min total (r + chunk) ∧
               (w = true → ztake (r + zlen data) (part_bytes d1 p) = ztake r (part_bytes d p) ++ data ∧
                           zlen (part_bytes d1 p) = r + zlen data)).
  { destruct Hc as [[-> ->] | (data' & Hd & Hle & ->)]; [done |].
    destruct (write_at_spec (part_bytes d p) r data') as [Ht Hlw]; [lia |].
    assert (zlen data' <= zlen data) by (unfold zlen; lia). pose proof (zlen_nonneg data').
    split; [apply write_at_prefix; lia |]. rewrite Hlw. split; [lia |].
    intros Hwt. rewrite (Hd Hwt) in *. split; [done | lia]. }
  destruct Hb as (Hpre & Hbd & Hsucc). destruct w; cbn [negb].
  - destruct (Hsucc eq_refl) as [Hnew Hnl]. intros [= <- <- <- <-]. unfold chunk_result.
    split_and!; try done; [split; lia |].
    intros _. split; [done |]. split; [done |]. split; [done |]. by left.
  - destruct (TruncateUploadFile p r d1 t1) as [[b d2] t2] eqn:Et.
    destruct (TruncateUploadFile_spec _ _ _ _ _ _ _ Hw1 (proj1 Hr) Et) as (Hw2 & Hwo2 & Hb2).
    intros [= <- <- <- <-].
    unfold chunk_result. split_and!; try done; [by eapply writes_only_trans | |].
    + destruct b; [| by subst d2]. destruct Hb2 as [Hle Hpb]. unfold part_ok.
      rewrite Hpb, zlen_ztake by lia. lia.
    + intros _. split; [by left |]. destruct b; [| by subst d2].
      destruct Hb2 as [Hle ->]. rewrite ztake_ztake by lia. done.
Qed.

Lemma WriteUploadChunk_spec p total chunk off data sha r d t err r' d' t' :
  disk_wf d → 0 < chunk → 0 <= off → part_ok d p total chunk r →
  WriteUploadChunk p total chunk off data sha r d t = ((err, r'), d', t') →
  chunk_result p total chunk off data sha r d err r' d'.
Proof.
  intros Hw Hc Ho Hok. pose proof Hok as [Hr Hl].
  assert (Hun : ∀ e (x : tape), ResourceErrCode_code e ≠ 0 →
    ((ResourceErrCode_code e, r), d, x) = ((err, r'), d', t') →
    chunk_result p total chunk off data sha r d err r' d').
  { intros e x Hne [= <- <- <- <-]. by apply chunk_result_unchanged. }
  unfold WriteUploadChunk. rewrite (proj2 (Z.eqb_neq chunk 0)) by lia. cbv zeta.
  destruct ((zlen data =? 0) || (chunk <? zlen data)) eqn:E1; [by apply Hun |].
  destruct (negb (off mod chunk =? 0) || (total <? off) || (total - off <? zlen data)) eqn:E2;
    [by apply Hun |].
  destruct (negb (zlen data =? Z.min chunk (total - off))) eqn:E3; [by apply Hun |].
  destruct ((r <? off) || ((off <? r) && (r <? off + zlen data))) eqn:E4; [by apply Hun |].
  apply negb_false_iff, Z.eqb_eq in E3. apply orb_false_elim in E1 as [E1 _], E4 as [E4 E5].
  apply Z.eqb_neq in E1. apply Z.ltb_ge in E4. pose proof (zlen_nonneg data) as Hnn.
  unfold mbind at 1, IO_bind at 1.
  lazymatch goal with |- context [(if negb (IsValidSha256Hex sha) then ?a else ?b) d t] =>
    set (hashed := (if negb (IsValidSha256Hex sha) then a else b) d t) end.
  assert (Hhash : hashed.1.2 = d ∧ (hashed.1.1 = true → sha = ToLowerHex (sha256 data))).
  { unfold hashed, with_tape, Sha256Hex, mbind, IO_bind, mret, IO_ret.
    destruct (IsValidSha256Hex sha) eqn:Ev; cbn [negb]; [| done].
    destruct (tape_next t) as [o t1]. split; [done |]. cbn. intros Hb%bool_decide_eq_true.
    destruct (io_ok o); [done |]. by subst sha. }
  destruct hashed as [[ok dx] t1]. cbn [fst snd] in Hhash. destruct Hhash as [-> Hsha].
  destruct ok; cbn [negb]; [specialize (Hsha eq_refl) | by apply Hun].
  destruct (off <? r) eqn:E6; bool_to_prop.
  - unfold mbind at 1, IO_bind at 1. destruct (HashRange p off (zlen data) d t1) as [[h d1] t2] eqn:Eh.
    destruct (HashRange_spec _ _ _ _ _ _ _ _ Ho Hnn Eh) as [-> Hh].
    destruct (bool_decide (h = [])) eqn:E7; [by apply Hun |]. bool_to_prop.
    destruct Hh as [Hh | [Hh _]]; [done |].
    destruct (bool_decide (h = sha)) eqn:E8; bool_to_prop.
    + intros [= <- <- <- <-]. unfold chunk_result. split_and!; try done.
      intros _. split; [done |]. split; [lia |]. split; [done |]. right. by rewrite <- Hh.
    + unfold mbind, IO_bind. destruct (TruncateUploadFile p off d t2) as [[b d2] t3] eqn:Et.
      destruct (TruncateUploadFile_spec _ _ _ _ _ _ _ Hw Ho Et) as (Hw2 & Hwo2 & Hb2).
      destruct b; cbn [negb]; [| subst d2; by apply Hun]. destruct Hb2 as [Hle Hpb].
      intros [= <- <- <- <-]. unfold chunk_result. split_and!; try done.
      * unfold part_ok. rewrite Hpb, zlen_ztake by lia. lia.
      * intros _. split; [by right |]. rewrite Hpb. apply ztake_ztake. lia.
  - assert (off = r) as -> by lia.
    unfold mbind at 1, IO_bind at 1.
    lazymatch goal with |- context [(if path_empty (parent_path p) then ?a else ?b) d t1] =>
      set (made := (if path_empty (parent_path p) then a else b) d t1) end.
    assert (Hmade : names made.1.2 = names d ∧ inodes made.1.2 = inodes d).
    { unfold made. destruct (path_empty (parent_path p)); [done |].
      destruct (create_directories (parent_path p) d t1) as [[b d1] t2] eqn:Ec.
      by apply create_directories_spec in Ec. }
    destruct made as [[mk d1] t2]. cbn [fst snd] in Hmade. destruct Hmade as [Hn1 Hi1].
    destruct (same_files d d1 p Hn1 Hi1) as (Hwf & Hwo & Hpb). specialize (Hwf Hw).
    assert (Hok1 : part_ok d1 p total chunk r) by (unfold part_ok; by rewrite Hpb).
    destruct mk; cbn [negb].
    + intros Hrun. eapply append_chunk_result in Hrun; [| done | lia | done | done | done].
      destruct Hrun as (Hw2 & Hwo2 & Hok2 & Hs2 & He2). rewrite Hpb in Hs2.
      unfold chunk_result. split_and!; try done; [by eapply writes_only_trans | |].
      * intros He. destruct (Hs2 He) as (? & ? & ? & [? | (? & _)]); [by auto | lia].
      * intros He. rewrite <- (Hpb p). by apply He2.
    + intros [= <- <- <- <-]. unfold chunk_result. rewrite Hpb. split_and!; try done.
      intros _. split; [by left | done].
Qed.

(** C15: confirmed bytes are never lost and never altered. From a state in which [r] bytes
    of the partial file are confirmed, whatever a chunk request carries and
    whichever calls fail, [WriteUploadChunk] ends in such a state again. On
    success the chunk's bytes hash to the announced digest and are either
    appended to the confirmed prefix or equal, by digest, to the bytes already
    there; on an error the confirmed prefix is kept as it was, except that a
    damaged earlier chunk moves it back to the start of that chunk. Files
    that are not this upload's keep their bytes. *)
Theorem WriteUploadChunk_confirmed p total chunk off data sha r d t err r' d' t' :
  disk_wf d → 0 < chunk → 0 <= off → part_ok d p total chunk r →
  WriteUploadChunk p total chunk off data sha r d t = ((err, r'), d', t') →
  chunk_result p total chunk off data sha r d err r' d'.
Proof. intros Hw Hc Ho Hok. by apply WriteUploadChunk_spec. Qed.
End upload_specs.

Section recovery.
  Context `{Sha256Lib}.

(** Recovery after a crash keeps confirmed bytes only. Whatever part of the last,
    unconfirmed chunk had reached the disk, [RecoverUploadFile] cuts the file
    to a chunk boundary at or below the confirmed count, gives up at most one
    chunk of confirmed bytes, keeps the bytes below the cut, and leaves a
    state from which chunk writes can go on. *)
Theorem RecoverUploadFile_keeps_confirmed p total chunk r d t r2 d' t' :
  disk_wf d → 0 < chunk → part_ok d p total chunk r → r mod chunk = 0 ∨ r = total →
  RecoverUploadFile p total chunk d t = (Some r2, d', t') →
  r2 <= r <= r2 + chunk ∧ r2 mod chunk = 0 ∧ part_ok d' p total chunk r2 ∧
  part_bytes d' p = ztake r2 (part_bytes d p) ∧ writes_only p d d'.
Proof.
  intros Hw Hc [Hr Hl] Hm Hrun.
  apply RecoverUploadFile_spec in Hrun as (Hw' & Hwo & Hok & Hpb & Hz & Hmod & Hsz); [| done | done | lia].
  assert (Hle : r2 <= r <= r2 + chunk).
  { destruct Hsz as [[-> Hsz] | Hsz]; [| destruct Hm as [Hm | Hm]; [| lia]].
    - lia.
    - pose proof (Z.div_mod r2 chunk). pose proof (Z.div_mod r chunk). rewrite Hm in *. rewrite Hmod in *.
      split; [| lia]. destruct (decide (r2 <= r)); [done |]. exfalso.
      assert (r / chunk < r2 / chunk) by nia. nia. }
  done.
Qed.
End recovery.

(** ** Durability of names *)

(** Every directory above [Path abs rc] has its entries on the disk, so the
    path survives a crash. *)
Fixpoint entry_durable (d : disk) (abs : bool) (rc : list bytes) : Prop :=
  match rc with
  | [] => True
  | _ :: rest => Path abs rest ∈ synced d ∧ entry_durable d abs rest
  end.

Definition name_durable (d : disk) (p : path) : Prop := entry_durable d (absolute p) (rcomps p).

(** [d'] differs from [d] in directories and syncs only. *)
Definition same_entries (d d' : disk) : Prop :=
  names d' = names d ∧ inodes d' = inodes d ∧ flushed d' = flushed d.

Lemma same_entries_trans d d1 d2 : same_entries d d1 → same_entries d1 d2 → same_entries d d2.
Proof. unfold same_entries. intros (-> & -> & ->). done. Qed.

Lemma FsyncDirectory_spec p d t b d' t' :
  FsyncDirectory p d t = (b, d', t') →
  same_entries d d' ∧ dirs d' = dirs d ∧
  synced d' = (if b then synced d ∪ {[p]} else synced d) ∧ (b = true → p ∈ dirs d).
Proof.
  unfold FsyncDirectory, mbind, IO_bind, syscall, get, mret, IO_ret, put.
  destruct (tape_next t) as [o t1].
  destruct (negb (io_ok o) || negb (bool_decide (p ∈ dirs d))) eqn:E; [by intros [= <- <- <-] |].
  destruct (tape_next t1) as [f t2]. bool_to_prop.
  destruct (io_ok f); intros [= <- <- <-]; cbn; by split_and!.
Qed.

Lemma fsync_chain_spec abs rc d t d' t' :
  path_empty (Path abs rc) = false → fsync_chain abs rc d t = (true, d', t') →
  same_entries d d' ∧ dirs d' = dirs d ∧ synced d ⊆ synced d' ∧ Path abs rc ∈ synced d' ∧
  Path abs rc ∈ dirs d' ∧ (abs = true → entry_durable d' abs rc) ∧
  (abs = false → Path false [] ∈ synced d' → Path false [] ∈ synced d).
Proof.
  revert d t. induction rc as [| c rc IH]; intros d t Hne; cbn [fsync_chain];
    unfold mbind, IO_bind, mret, IO_ret;
    destruct (FsyncDirectory _ d t) as [[b d1] t1] eqn:Ef;
    destruct (FsyncDirectory_spec _ _ _ _ _ _ Ef) as (Hs & Hd & Hsy & Hb);
    (destruct b; cbn [negb]; [| done]).
  - intros [= <- <-]. rewrite Hsy, Hd. specialize (Hb eq_refl).
    clear Ef Hd Hsy. split_and!; try done; set_solver.
  - destruct (path_empty (Path abs rc)) eqn:Ep.
    + intros [= <- <-]. rewrite Hsy, Hd. specialize (Hb eq_refl).
      clear Ef Hd Hsy. split_and!; try done; clear -Hb Ep; set_solver.
    + intros Hrun. destruct (IH _ _ eq_refl Hrun) as (Hs2 & Hd2 & Hsub & Hin & Hdir & Hdur & Hanc).
      split_and!.
      * by eapply same_entries_trans.
      * by rewrite Hd2.
      * rewrite Hsy in Hsub. set_solver.
      * rewrite Hsy in Hsub. set_solver.
      * rewrite Hd2, Hd. by apply Hb.
      * intros Ha. cbn. split; [done | by apply Hdur].
      * intros Ha Hx. apply (Hanc Ha) in Hx. rewrite Hsy in Hx. set_solver.
Qed.

Lemma fsync_chain_same abs rc d t b d' t' :
  fsync_chain abs rc d t = (b, d', t') → same_entries d d'.
Proof.
  revert d t. induction rc as [| c rc IH]; intros d t; cbn [fsync_chain];
    unfold mbind, IO_bind, mret, IO_ret;
    destruct (FsyncDirectory _ d t) as [[b1 d1] t1] eqn:Ef;
    destruct (FsyncDirectory_spec _ _ _ _ _ _ Ef) as (Hs & _);
    (destruct b1; cbn [negb]; [| by intros [= <- <- <-]]).
  - by intros [= <- <- <-].
  - destruct (path_empty (Path abs rc)); [by intros [= <- <- <-] |].
    intros Hrun. eapply same_entries_trans; [exact Hs | by eapply IH].
Qed.

Lemma create_directory_spec p d t b d' t' :
  create_directory p d t = (b, d', t') →
  same_entries d d' ∧ dirs d ⊆ dirs d' ∧ synced d' ⊆ synced d.
Proof.
  unfold create_directory, mbind, IO_bind, syscall, get, mret, IO_ret, put.
  destruct (tape_next t) as [o t1]. destruct (negb (io_ok o)); [by intros [= <- <- <-] |].
  case_decide; [by intros [= <- <- <-] |].
  case_match; intros [= <- <- <-]; [done |]. cbn. split_and!; [done | set_solver..].
Qed.

Lemma create_levels_spec ps d t b d' t' :
  create_levels ps d t = (b, d', t') →
  same_entries d d' ∧ dirs d ⊆ dirs d' ∧ synced d' ⊆ synced d.
Proof.
  revert d t. induction ps as [| p ps IH]; intros d t; cbn [create_levels];
    unfold mbind, IO_bind, mret, IO_ret; [by intros [= <- <- <-] |].
  destruct (create_directory p d t) as [[b1 d1] t1] eqn:Ec.
  apply create_directory_spec in Ec as (Hs & Hd & Hsy).
  assert (Hrest : ∀ x, create_levels ps d1 x = (b, d', t') →
    same_entries d d' ∧ dirs d ⊆ dirs d' ∧ synced d' ⊆ synced d).
  { intros x Hx. apply IH in Hx as (Hs2 & Hd2 & Hsy2).
    split_and!; [by eapply same_entries_trans | set_solver..]. }
  destruct b1; [by apply Hrest |]. unfold is_directory, mbind, IO_bind, syscall, get, mret, IO_ret.
  destruct (tape_next t1) as [o t2].
  destruct (io_ok o && bool_decide (p ∈ dirs d1)); [by apply Hrest |]. by intros [= <- <- <-].
Qed.

Lemma missing_levels_same abs rc d t ms d' t' :
  missing_levels abs rc d t = (ms, d', t') → d' = d.
Proof.
  revert t ms. induction rc as [| c rc IH]; intros t ms; cbn [missing_levels];
    (case_match; [by intros [= <- <- <-] |]);
    unfold is_directory, mbind, IO_bind, syscall, get, mret, IO_ret;
    destruct (tape_next t) as [o t1];
    match goal with |- context [io_ok o && ?b] => destruct (io_ok o && b) end;
    try (by intros [= <- <- <-]).
  case_match; [by intros [= <- <- <-] |].
  destruct (missing_levels abs rc d t1) as [[ms' d1] t2] eqn:Em. intros [= <- <- <-]. by eapply IH.
Qed.

Lemma EnsureDirectoryDurable_spec p d t b d' t' :
  EnsureDirectoryDurable p d t = (b, d', t') →
  same_entries d d' ∧
  (b = true → path_empty p = false → p ∈ dirs d' ∧ p ∈ synced d' ∧
     (absolute p = true → name_durable d' p) ∧
     (absolute p = false → Path false [] ∈ synced d' → Path false [] ∈ synced d)).
Proof.
  unfold EnsureDirectoryDurable. destruct (path_empty p) eqn:Ep.
  { intros [= <- <- <-]. done. }
  unfold mbind, IO_bind, mret, IO_ret.
  destruct (missing_levels _ _ d t) as [[ms d1] t1] eqn:Em. apply missing_levels_same in Em as ->.
  destruct (create_levels (reverse ms) d t1) as [[ok d2] t2] eqn:Ec.
  apply create_levels_spec in Ec as (Hs & Hd & Hsy). destruct ok; cbn [negb].
  - intros Hrun. split.
    { eapply same_entries_trans; [exact Hs | by eapply fsync_chain_same]. }
    intros -> _. destruct p as [abs rc].
    apply fsync_chain_spec in Hrun as (Hs2 & Hd2 & Hsub & Hin & Hdir & Hdur & Hanc); [| done].
    split_and!; try done. intros Ha Hx. apply (Hanc Ha) in Hx. set_solver.
  - by intros [= <- <- <-].
Qed.

(** What [DurableRename] without replacement can have done: nothing, only the
    new name, or the whole move. An existing target is never replaced. *)
Definition rename_effect (from to : path) (d : disk) (ok existed : bool) (d' : disk) : Prop :=
  inodes d' = inodes d ∧ flushed d' = flushed d ∧
  (existed = true → ok = true ∧ names d' = names d ∧ (is_Some (names d !! to) ∨ to ∈ dirs d')) ∧
  (existed = false → ok = true → ∃ i, names d !! from = Some i ∧ names d !! to = None ∧
     names d' = delete from (<[to := i]> (names d))) ∧
  (ok = false → names d' = names d ∨
     ∃ i, names d !! from = Some i ∧ names d !! to = None ∧
       (names d' = <[to := i]> (names d) ∨ names d' = delete from (<[to := i]> (names d)))).

Lemma sync_parents_spec from to d t b d' t' :
  sync_parents from to d t = (b, d', t') →
  same_entries d d' ∧ synced d ⊆ synced d' ∧
  (b = true → parent_path to ∈ synced d' ∧ parent_path from ∈ synced d').
Proof.
  unfold sync_parents, mbind, IO_bind, mret, IO_ret.
  destruct (FsyncDirectory (parent_path to) d t) as [[b1 d1] t1] eqn:E1.
  apply FsyncDirectory_spec in E1 as (Hs1 & _ & Hsy1 & _).
  case_decide as Heq.
  - intros [= <- <- <-]. rewrite Heq. split; [done |]. rewrite Hsy1.
    split; [destruct b1; [apply union_subseteq_l | done] |].
    intros ->. split; apply elem_of_union_r, elem_of_singleton_2; done.
  - destruct (FsyncDirectory (parent_path from) d1 t1) as [[b2 d2] t2] eqn:E2.
    apply FsyncDirectory_spec in E2 as (Hs2 & _ & Hsy2 & _).
    intros [= <- <- <-]. split; [by eapply same_entries_trans |]. rewrite Hsy2, Hsy1.
    split; [destruct b1, b2; rewrite ?Hsy1; set_solver |].
    intros [-> ->]%andb_prop. set_solver.
Qed.

Lemma entry_durable_mono d d' abs rc :
  synced d ⊆ synced d' → entry_durable d abs rc → entry_durable d' abs rc.
Proof. intros Hs. induction rc as [| c rc IH]; [done |]. cbn. intros [? ?]. split; [set_solver | auto]. Qed.

Lemma entry_durable_back d d' abs rc q1 q2 :
  entry_durable d abs rc → synced d ∖ {[q1; q2]} ⊆ synced d' → q1 ∈ synced d' → q2 ∈ synced d' →
  entry_durable d' abs rc.
Proof.
  intros Hd Hs H1 H2. assert (Hsub : synced d ⊆ synced d').
  { intros x Hx. destruct (decide (x = q1)) as [-> |]; [done |].
    destruct (decide (x = q2)) as [-> |]; [done |]. set_solver. }
  by eapply entry_durable_mono.
Qed.

Lemma DurableRename_spec from to d t ok ex d' t' :
  from ≠ to → DurableRename from to false true d t = ((ok, ex), d', t') →
  rename_effect from to d ok ex d' ∧
  (ok = true → absolute to = true → rcomps to ≠ [] → name_durable d' to).
Proof.
  intros Hft. unfold DurableRename, mbind, IO_bind, mret, IO_ret, syscall, get, put.
  destruct (EnsureDirectoryDurable (parent_path to) d t) as [[b d1] t1] eqn:Ee.
  apply EnsureDirectoryDurable_spec in Ee as ((Hn1 & Hi1 & Hf1) & Hdur).
  destruct b; cbn [negb].
  2: { intros [= <- <- <- <-]. split; [| done]. unfold rename_effect. rewrite Hn1. naive_solver. }
  assert (Hdur1 : absolute to = true → rcomps to ≠ [] →
            parent_path to ∈ synced d1 ∧ name_durable d1 (parent_path to)).
  { intros Ha Hr. destruct to as [a rc]. cbn in Ha, Hr. subst a. destruct rc as [| c rc]; [done |].
    destruct Hdur as (_ & ? & Hd & _); [done | done |]. split; [done | by apply Hd]. }
  assert (Hto : ∀ dd, absolute to = true → rcomps to ≠ [] → parent_path to ∈ synced dd →
            name_durable dd (parent_path to) → name_durable dd to).
  { intros dd Ha Hr. destruct to as [a [| c rc]]; [done |]. cbn in Ha. subst a. done. }
  destruct (tape_next t1) as [o t2]. destruct (io_ok o); cbn [negb].
  2: { intros [= <- <- <- <-]. split; [| done]. unfold rename_effect. rewrite Hn1. naive_solver. }
  destruct (bool_decide (is_Some (names d1 !! to)) || bool_decide (to ∈ dirs d1)) eqn:Eex.
  { intros [= <- <- <- <-]. split.
    - unfold rename_effect. rewrite <- Hn1, Hi1, Hf1. split_and!; try done. intros _. split_and!; try done.
      apply orb_prop in Eex as [E | E]; bool_to_prop; auto.
    - intros _ Ha Hr. destruct (Hdur1 Ha Hr). by apply Hto. }
  apply orb_false_elim in Eex as [Eno _]. apply bool_decide_eq_false in Eno.
  assert (Hno : names d !! to = None) by (rewrite <- Hn1; by apply eq_None_not_Some).
  rewrite Hn1. destruct (names d !! from) as [i |] eqn:Efrom.
  2: { intros [= <- <- <- <-]. split; [| done]. unfold rename_effect. rewrite Hn1. naive_solver. }
  destruct (tape_next t2) as [u t3]. destruct (io_ok u); cbn [negb].
  2: { intros [= <- <- <- <-]. split; [| done]. unfold rename_effect. cbn. rewrite Hn1.
       split_and!; try done. intros _. right. exists i. auto. }
  destruct (sync_parents from to _ t3) as [[b2 d3] t4] eqn:Es.
  apply sync_parents_spec in Es as ((Hn3 & Hi3 & Hf3) & Hsy3 & Hb3). cbn in Hn3, Hi3, Hf3, Hsy3.
  intros [= <- <- <- <-]. rewrite Hn1 in Hn3. split.
  - unfold rename_effect. rewrite Hn3, Hi3, Hf3. split_and!; try done.
    + intros _ _. by exists i.
    + intros _. right. exists i. auto.
  - intros -> Ha Hr. destruct (Hb3 eq_refl) as [Hpt Hpf]. destruct (Hdur1 Ha Hr) as [_ Hd1].
    apply Hto; [done | done | done |].
    eapply (entry_durable_back _ _ _ _ (parent_path to) (parent_path from)); [exact Hd1 | | done | done].
    clear -Hsy3. set_solver.
Qed.

Section durability_claims.
  Context `{Sha256Lib}.

(** A directory reported durable is reachable after a crash, if its path is absolute.
    When [EnsureDirectoryDurable] returns true the directory exists, it and
    every directory above it have been synced, and no file changed; for a
    relative path the loop stops before the directory that anchors the path,
    so the entry of the topmost component is synced only if it was before. *)
Theorem EnsureDirectoryDurable_chain p d t d' t' :
  EnsureDirectoryDurable p d t = (true, d', t') → path_empty p = false →
  same_entries d d' ∧ p ∈ dirs d' ∧ p ∈ synced d' ∧
  (absolute p = true → name_durable d' p) ∧
  (absolute p = false → Path false [] ∉ synced d → Path false [] ∉ synced d').
Proof.
  intros He Hne. apply EnsureDirectoryDurable_spec in He as (Hs & Hd).
  destruct (Hd eq_refl Hne) as (H1 & H2 & H3 & H4). split_and!; try done. auto.
Qed.

(** Installing a file never overwrites one. Without replacement [DurableRename] either
    reports that the target exists and changes no name, or moves the inode to
    a name that was free; no inode's bytes change in any case, and when it
    reports success the target's name is durable up to the root. *)
Theorem DurableRename_no_replace from to d t ok ex d' t' :
  from ≠ to → DurableRename from to false true d t = ((ok, ex), d', t') →
  inodes d' = inodes d ∧
  (∀ i, names d !! to = Some i → names d' !! to = Some i ∧ (ok = true → ex = true)) ∧
  (ok = true → ex = false → content d' to = content d from ∧ names d' !! from = None) ∧
  (ok = true → absolute to = true → rcomps to ≠ [] → name_durable d' to).
Proof.
  intros Hft Hr. destruct (DurableRename_spec _ _ _ _ _ _ _ _ Hft Hr) as ((Hi & Hf & He & Hn & Hx) & Hd).
  split_and!; try done.
  - intros i Hto. destruct ok, ex.
    + destruct (He eq_refl) as (_ & -> & _). done.
    + destruct (Hn eq_refl eq_refl) as (j & _ & Hno & _). congruence.
    + by destruct (He eq_refl).
    + split; [| done]. destruct (Hx eq_refl) as [-> | (j & _ & Hno & _)]; [done | congruence].
  - intros -> ->. destruct (Hn eq_refl eq_refl) as (i & Hfrom & Hno & Hn').
    unfold content. rewrite Hn', Hi. split.
    + rewrite lookup_delete_ne, lookup_insert_eq, Hfrom by done. done.
    + by rewrite lookup_delete_eq.
Qed.
End durability_claims.

(** ** Concrete runs *)

(** A store at [/r] with an upload of "abcdef" in chunks of four bytes. *)
Definition demo_root : path := Path true [§ "r"].
Definition demo_part : path := ResourceUploadingPartPath demo_root 7.
Definition demo_blob : path := ResourceBlobPath demo_root (§ "ab12").

Definition demo_disk (f : bytes) : disk :=
  Disk {[ demo_part := 0%nat ]} {[ 0%nat := f ]}
    {[ Path true []; demo_root; child demo_root (§ "uploading") ]} ∅ ∅.

Lemma run_eta {A} (r : A * disk * tape) : r = (r.1.1, r.1.2, r.2).
Proof. by destruct r as [[a d] t]. Qed.

Lemma demo_disk_wf f : disk_wf (demo_disk f).
Proof.
  intros p i. unfold demo_disk. cbn [names inodes].
  destruct (decide (p = demo_part)) as [-> |].
  - rewrite lookup_singleton_eq. intros [= <-]. by rewrite lookup_singleton_eq.
  - by rewrite lookup_singleton_ne.
Qed.

Lemma demo_part_ok : part_ok (demo_disk (§ "abcdx")) demo_part 6 4 4.
Proof. vm_compute. split; split; discriminate. Qed.

Lemma WriteUploadChunk_confirmed_witness :
  let S := toy_sha256 in
  let sha := ToLowerHex (sha256 (§ "ef")) in
  let r := WriteUploadChunk demo_part 6 4 4 (§ "ef") sha 4 (demo_disk (§ "abcdx")) [] in
  r.1.1 = (0, 6) ∧ part_bytes r.1.2 demo_part = § "abcdef" ∧
  chunk_result demo_part 6 4 4 (§ "ef") sha 4 (demo_disk (§ "abcdx")) 0 6 r.1.2.
Proof.
  intros S sha r. assert (Hr : r.1.1 = (0, 6)) by (vm_compute; reflexivity).
  split; [exact Hr |]. split; [vm_compute; reflexivity |].
  apply (WriteUploadChunk_confirmed demo_part 6 4 4 (§ "ef") sha 4 (demo_disk (§ "abcdx")) []
           0 6 r.1.2 r.2).
  - apply demo_disk_wf.
  - reflexivity.
  - discriminate.
  - apply demo_part_ok.
  - rewrite <- Hr. exact (run_eta _).
Defined.

Lemma RecoverUploadFile_keeps_confirmed_witness :
  let r := RecoverUploadFile demo_part 6 4 (demo_disk (§ "abcdx")) [] in
  r.1.1 = Some 4 ∧ part_bytes r.1.2 demo_part = § "abcd".
Proof.
  intros r. assert (Hr : r.1.1 = Some 4) by (vm_compute; reflexivity). split; [exact Hr |].
  change (§ "abcd") with (ztake 4 (§ "abcdx")).
  refine (proj1 (proj2 (proj2 (proj2 (RecoverUploadFile_keeps_confirmed demo_part 6 4 4
    (demo_disk (§ "abcdx")) [] 4 r.1.2 r.2 _ _ _ _ _))))).
  - apply demo_disk_wf.
  - reflexivity.
  - apply demo_part_ok.
  - left. reflexivity.
  - rewrite <- Hr. exact (run_eta _).
Defined.

Lemma EnsureDirectoryDurable_chain_witness :
  let r := EnsureDirectoryDurable (Path true [§ "b"; § "r"]) (demo_disk []) [] in
  let q := EnsureDirectoryDurable (Path false [§ "b"])
             (Disk ∅ ∅ {[ Path false [] ]} ∅ ∅) [] in
  r.1.1 = true ∧ name_durable r.1.2 (Path true [§ "b"; § "r"]) ∧
  q.1.1 = true ∧ Path false [] ∉ synced q.1.2.
Proof.
  intros r q. assert (Hr : r.1.1 = true) by (vm_compute; reflexivity).
  assert (Hq : q.1.1 = true) by (vm_compute; reflexivity).
  assert (Hre : r = (true, r.1.2, r.2)) by (rewrite <- Hr; exact (run_eta _)).
  assert (Hqe : q = (true, q.1.2, q.2)) by (rewrite <- Hq; exact (run_eta _)).
  split; [exact Hr |]. split; [| split; [exact Hq |]].
  - apply (EnsureDirectoryDurable_chain _ _ _ _ _ Hre); reflexivity.
  - apply (EnsureDirectoryDurable_chain _ _ _ _ _ Hqe); [reflexivity | reflexivity |].
    apply not_elem_of_empty.
Defined.

Lemma DurableRename_no_replace_witness :
  let r := DurableRename demo_part demo_blob false true (demo_disk (§ "abcdef")) [] in
  r.1.1 = (true, false) ∧ content r.1.2 demo_blob = Some (§ "abcdef") ∧ name_durable r.1.2 demo_blob.
Proof.
  intros r. assert (Hr : r.1.1 = (true, false)) by (vm_compute; reflexivity).
  assert (Hre : r = ((true, false), r.1.2, r.2)) by (rewrite <- Hr; exact (run_eta _)).
  assert (Hft : demo_part ≠ demo_blob) by (apply (bool_decide_unpack _); vm_compute; exact I).
  destruct (DurableRename_no_replace _ _ _ _ _ _ _ _ Hft Hre) as (_ & _ & Hc & Hd).
  split; [exact Hr |]. split.
  - destruct Hc as [-> _]; reflexivity.
  - apply Hd; [reflexivity | reflexivity | discriminate].
Defined.

(** ** A failed unlink *)

Lemma TruncateUploadFile_names p r d t b d' t' :
  TruncateUploadFile p r d t = (b, d', t') → names d' = names d.
Proof.
  unfold TruncateUploadFile, mbind, IO_bind, syscall, get, mret, IO_ret, put.
  destruct (ReadLength p d t) as [[l d1] t1] eqn:El. apply ReadLength_spec in El as [-> _].
  destruct l as [size |]; [| by intros [= <- <- <-]].
  do 2 (case_match; [by intros [= <- <- <-] |]). destruct (tape_next t1) as [o t2].
  case_match; by intros [= <- <- <-].
Qed.

Lemma RecoverUploadFile_names p total chunk d t r d' t' :
  RecoverUploadFile p total chunk d t = (r, d', t') → names d' = names d.
Proof.
  unfold RecoverUploadFile, mbind, IO_bind, mret, IO_ret. case_match; [by intros [= <- <- <-] |].
  destruct (ReadLength p d t) as [[l d1] t1] eqn:El. apply ReadLength_spec in El as [-> _].
  destruct l as [size |]; [| by intros [= <- <- <-]].
  destruct (TruncateUploadFile p _ d t1) as [[ok d2] t2] eqn:Et. apply TruncateUploadFile_names in Et.
  by intros [= <- <- <-].
Qed.

Lemma alias_bytes d p q i : names d !! p = Some i → names d !! q = Some i → part_bytes d p = part_bytes d q.
Proof. unfold part_bytes, content. by intros -> ->. Qed.

(** A failed unlink leaves the upload and the blob on the same bytes. When
    [DurableRename] has linked the target but could not remove the source, it
    reports failure and keeps both names; they are one inode, so when the
    upload is recovered later, as every reload of its session does, the bytes
    that are cut from the upload are cut from the installed blob as well. *)
Theorem DurableRename_failed_unlink_aliases from to d t d1 t1 total chunk t2 r d2 t3 :
  disk_wf d → from ≠ to → 0 < chunk → 0 <= total →
  DurableRename from to false true d t = ((false, false), d1, t1) →
  names d !! to = None → is_Some (names d1 !! to) → is_Some (names d1 !! from) →
  RecoverUploadFile from total chunk d1 t2 = (Some r, d2, t3) →
  content d1 to = content d from ∧
  part_bytes d2 to = ztake r (part_bytes d1 to).
Proof.
  intros Hw Hft Hc Ht Hr Hno Hto Hfrom Hrec.
  destruct (DurableRename_spec _ _ _ _ _ _ _ _ Hft Hr) as ((Hi & _ & _ & _ & Hx) & _).
  destruct (Hx eq_refl) as [Hn | (i & Hi1 & _ & [Hn | Hn])]; rewrite Hn in Hto, Hfrom.
  - rewrite Hno in Hto. by apply is_Some_None in Hto.
  - assert (Hp : names d1 !! from = Some i) by (rewrite Hn; by rewrite lookup_insert_ne).
    assert (Hq : names d1 !! to = Some i) by (rewrite Hn; by rewrite lookup_insert_eq).
    assert (Hw1 : disk_wf d1).
    { intros p j. rewrite Hn, Hi. destruct (decide (p = to)) as [-> |].
      - rewrite lookup_insert_eq. intros [= <-]. by apply (Hw from).
      - rewrite lookup_insert_ne by done. apply Hw. }
    split; [unfold content; by rewrite Hq, Hi, Hi1 |].
    pose proof (RecoverUploadFile_names _ _ _ _ _ _ _ _ Hrec) as Hn2.
    destruct (RecoverUploadFile_spec _ _ _ _ _ _ _ _ Hw1 Hc Ht Hrec) as (_ & _ & _ & Hpb & _).
    rewrite <- (alias_bytes d1 from to i Hp Hq), <- Hpb. symmetry.
    rewrite <- Hn2 in Hp, Hq. exact (alias_bytes d2 from to i Hp Hq).
  - rewrite lookup_delete_eq in Hfrom. by apply is_Some_None in Hfrom.
Qed.

Lemma DurableRename_failed_unlink_aliases_witness :
  let t := replicate 14 IoOk ++ [IoFail 0] in
  let r := DurableRename demo_part demo_blob false true (demo_disk (§ "abcdef")) t in
  let q := RecoverUploadFile demo_part 6 4 r.1.2 [] in
  r.1.1 = (false, false) ∧ content r.1.2 demo_blob = Some (§ "abcdef") ∧
  q.1.1 = Some 4 ∧ part_bytes q.1.2 demo_blob = § "abcd".
Proof.
  intros t r q. assert (Hr : r.1.1 = (false, false)) by (vm_compute; reflexivity).
  assert (Hq : q.1.1 = Some 4) by (vm_compute; reflexivity).
  assert (Hre : r = ((false, false), r.1.2, r.2)) by (rewrite <- Hr; exact (run_eta _)).
  assert (Hqe : q = (Some 4, q.1.2, q.2)) by (rewrite <- Hq; exact (run_eta _)).
  assert (Hft : demo_part ≠ demo_blob) by (apply (bool_decide_unpack _); vm_compute; exact I).
  destruct (DurableRename_failed_unlink_aliases demo_part demo_blob (demo_disk (§ "abcdef")) t
    r.1.2 r.2 6 4 [] 4 q.1.2 q.2 (demo_disk_wf _) Hft ltac:(reflexivity) ltac:(discriminate) Hre)
    as [Hc Hb]; [vm_compute; reflexivity | | | exact Hqe |].
  - vm_compute. by eexists.
  - vm_compute. by eexists.
  - split; [exact Hr |]. split; [rewrite Hc; reflexivity |]. split; [exact Hq |].
    rewrite Hb. unfold part_bytes. rewrite Hc. reflexivity.
Defined.
