(* ===== verification/Database.v ===== *)
(** * The MySQL database the servers share

    Tables as the rebuild script of the repository declares them, the
    statements the DAOs run on them, and transactions. A statement takes its
    outcome from the tape: it may raise an [SQLException], a deadlock or
    another one; the outcome of a commit may be lost although the commit was
    applied. The row locks ([FOR UPDATE]) make the transactions of different
    connections serial, so a transaction is one step. *)

From S2P Require Import Prelude.

(** ** Tables *)

Inductive MessageStatus := Pending | Published | Failed.
#[global] Instance MessageStatus_eq_dec : EqDecision MessageStatus.
Proof. solve_decision. Defined.

Definition MessageStatus_code (s : MessageStatus) : Z :=
  match s with Pending => 0 | Published => 1 | Failed => 2 end.

Inductive FriendRequestStatus := FrPending | FrAccepted | FrRejected.
#[global] Instance FriendRequestStatus_eq_dec : EqDecision FriendRequestStatus.
Proof. solve_decision. Defined.

(** [ChatMsgType] and [UserEventType]. *)
Definition TEXT : Z := 0.
Definition PIC : Z := 1.
Definition FILE : Z := 3.
Definition FRIEND_APPLY : Z := 10.
Definition FRIEND_ACCEPT : Z := 11.
Definition FRIEND_REJECT : Z := 12.

(** What other users see of a user. *)
Record profile := Profile {
  nickname : bytes;
  profile_bio : bytes;
  gender : Z;
  avatar_key : bytes;
}.

Definition no_profile : profile := Profile [] [] 0 [].

Record user_row := UserRow {
  username : bytes;
  email : bytes;
  password_hash : bytes;
  user_profile : profile;
  last_event_seq : Z;
}.

Record msg_row := MsgRow {
  m_thread : Z;
  m_sender : Z;
  m_client : bytes;
  m_type : Z;
  m_text : option bytes;
  m_status : MessageStatus;
  m_created : bytes;
}.

Record res_row := ResRow { r_name : bytes; r_size : Z; r_sha : bytes; r_mime : bytes }.

Record freq_row := FreqRow {
  f_requester : Z;
  f_target : Z;
  f_client : bytes;
  f_message : bytes;
  f_status : FriendRequestStatus;
  f_thread : option Z;
}.

Record event_row := EventRow { e_type : Z; e_message : option Z; e_friend : option Z }.

#[global] Instance res_row_eq_dec : EqDecision res_row.
Proof. solve_decision. Defined.
#[global] Instance event_row_eq_dec : EqDecision event_row.
Proof. solve_decision. Defined.

(** [next_id] stands for the auto-increment counters: no identifier at or
    above it has been given out. *)
Record db := Db {
  users : gmap Z user_row;
  friendships : gset (Z * Z);
  private_chats : gmap Z (Z * Z);        (* lower and higher user *)
  chat_messages : gmap Z msg_row;
  message_resources : gmap Z res_row;
  friend_requests : gmap Z freq_row;
  user_events : gmap (Z * Z) event_row;  (* recipient and sequence number *)
  next_id : Z;
}.

Definition set_users (d : db) x := Db x (friendships d) (private_chats d) (chat_messages d)
  (message_resources d) (friend_requests d) (user_events d) (next_id d).
Definition set_friendships (d : db) x := Db (users d) x (private_chats d) (chat_messages d)
  (message_resources d) (friend_requests d) (user_events d) (next_id d).
Definition set_chats (d : db) x := Db (users d) (friendships d) x (chat_messages d)
  (message_resources d) (friend_requests d) (user_events d) (next_id d).
Definition set_messages (d : db) x := Db (users d) (friendships d) (private_chats d) x
  (message_resources d) (friend_requests d) (user_events d) (next_id d).
Definition set_resources (d : db) x := Db (users d) (friendships d) (private_chats d)
  (chat_messages d) x (friend_requests d) (user_events d) (next_id d).
Definition set_requests (d : db) x := Db (users d) (friendships d) (private_chats d)
  (chat_messages d) (message_resources d) x (user_events d) (next_id d).
Definition set_events (d : db) x := Db (users d) (friendships d) (private_chats d)
  (chat_messages d) (message_resources d) (friend_requests d) x (next_id d).
Definition set_next (d : db) x := Db (users d) (friendships d) (private_chats d)
  (chat_messages d) (message_resources d) (friend_requests d) (user_events d) x.

(** The other member of a private chat, as the [CASE] of the queries has it. *)
Definition other_member (pc : Z * Z) (sender : Z) : Z :=
  if decide (pc.1 = sender) then pc.2 else pc.1.

Definition recipient_of (d : db) (m : msg_row) : option Z :=
  option_map (λ pc, other_member pc (m_sender m)) (private_chats d !! m_thread m).

(** ** Statements and transactions *)

Inductive sql_error := SqlError | SqlDeadlock.

(** [IoFail 1] is error 1213. *)
Definition error_of (n : nat) : sql_error := if decide (n = 1%nat) then SqlDeadlock else SqlError.

(** Code that may raise an [SQLException]. *)
Definition Tx (A : Type) : Type := db → tape → (sql_error + A) * db * tape.
#[global] Instance Tx_ret : MRet Tx := λ A a d t, (inr a, d, t).
#[global] Instance Tx_bind : MBind Tx := λ A B k m d t,
  match m d t with
  | (inl e, d', t') => (inl e, d', t')
  | (inr a, d', t') => k a d' t'
  end.

(** One statement. *)
Definition exec {A} (f : db → A * db) : Tx A := λ d t,
  match tape_next t with
  | (IoOk, t') => let '(a, d') := f d in (inr a, d', t')
  | (IoFail n, t') => (inl (error_of n), d, t')
  end.

Definition query {A} (f : db → A) : Tx A := exec (λ d, (f d, d)).

(** A statement the constraints of the tables may refuse. *)
Definition exec_or_error {A} (f : db → option (A * db)) : Tx A := λ d t,
  match tape_next t with
  | (IoOk, t') => match f d with
                  | Some (a, d') => (inr a, d', t')
                  | None => (inl SqlError, d, t')
                  end
  | (IoFail n, t') => (inl (error_of n), d, t')
  end.

(** Undoing a transaction keeps the auto-increment counters. *)
Definition rollback_to (d0 d : db) : db := set_next d0 (next_id d).

(** How a transaction body ends: with a commit or a rollback, and a value. *)
Inductive finish_kind := Commit | Rollback.

(** A transaction: the body runs on the database, its end decides. A failing
    commit is applied all the same when its outcome is [IoFail n] with
    [2 <= n]; anything that goes wrong after a commit is an exception too. *)
Definition transaction {A} (body : Tx (finish_kind * A)) : Tx A := λ d0 t,
  match tape_next t with
  | (IoFail n, t1) => (inl (error_of n), d0, t1)
  | (IoOk, t1) =>
      match body d0 t1 with
      | (inl e, d, t2) => (inl e, rollback_to d0 d, t2)
      | (inr (Rollback, a), d, t2) =>
          match tape_next t2 with
          | (IoOk, t3) => (inr a, rollback_to d0 d, t3)
          | (IoFail n, t3) => (inl (error_of n), rollback_to d0 d, t3)
          end
      | (inr (Commit, a), d, t2) =>
          match tape_next t2 with
          | (IoOk, t3) => (inr a, d, t3)
          | (IoFail n, t3) =>
              (inl (error_of n), if decide (2 <= n)%nat then d else rollback_to d0 d, t3)
          end
      end
  end.

(** ** Statements the DAOs share *)

(** [SELECT last_event_seq ... FOR UPDATE] *)
Definition read_event_head (uid : Z) : Tx (option Z) :=
  query (λ d, option_map last_event_seq (users d !! uid)).

(** [UPDATE users SET last_event_seq]: the number of rows. *)
Definition update_event_head (uid seq : Z) : Tx Z :=
  exec (λ d, match users d !! uid with
    | Some u => (1, set_users d (<[uid := UserRow (username u) (email u) (password_hash u) (user_profile u) seq]> (users d)))
    | None => (0, d)
    end).

(** Whether a row would break a unique key of [user_events]. *)
Definition event_conflict (d : db) (uid seq : Z) (e : event_row) : bool :=
  bool_decide (is_Some (user_events d !! (uid, seq))) ||
  bool_decide (map_Exists (λ k e', k.1 = uid ∧ e' = e) (user_events d)).

Definition insert_event (uid seq : Z) (e : event_row) : Tx Z :=
  exec_or_error (λ d,
    if event_conflict d uid seq e then None
    else Some (1, set_events d (<[(uid, seq) := e]> (user_events d)))).

(** [SELECT event_seq FROM user_events WHERE recipient_user_id=? AND ...] *)
Definition event_seq_of (d : db) (uid : Z) (e : event_row) : option Z :=
  match filter (λ p, p.1.1 = uid ∧ p.2 = e) (map_to_list (user_events d)) with
  | [] => None
  | p :: _ => Some p.1.2
  end.

Definition message_event (ty mid : Z) : event_row := EventRow ty (Some mid) None.
Definition friend_event (ty fid : Z) : event_row := EventRow ty None (Some fid).

(** ** Invariants *)

(** The events of every user are numbered 1 to [last_event_seq] without a
    gap, and no event occurs twice. *)
Definition events_gapless (d : db) : Prop :=
  (∀ uid s, is_Some (user_events d !! (uid, s)) ↔
     ∃ u, users d !! uid = Some u ∧ 1 <= s <= last_event_seq u) ∧
  (∀ uid s1 s2 e, user_events d !! (uid, s1) = Some e → user_events d !! (uid, s2) = Some e → s1 = s2).

(** A message is published exactly when its recipient has its event. *)
Definition published_iff_event (d : db) : Prop :=
  ∀ mid m, chat_messages d !! mid = Some m →
    ∀ r, recipient_of d m = Some r →
    (m_status m = Published ↔ ∃ s, user_events d !! (r, s) = Some (message_event (m_type m) mid)).

(** Message events belong to recipients of messages of their type. *)
Definition events_refer (d : db) : Prop :=
  ∀ uid s ty mid, user_events d !! (uid, s) = Some (message_event ty mid) →
    ∃ m, chat_messages d !! mid = Some m ∧ m_type m = ty ∧ recipient_of d m = Some uid.

(** The unique key of [chat_messages] and the counters. *)
Definition keys_ok (d : db) : Prop :=
  (∀ i j m n, chat_messages d !! i = Some m → chat_messages d !! j = Some n →
     m_sender m = m_sender n → m_client m = m_client n → i = j) ∧
  (∀ i, next_id d <= i → chat_messages d !! i = None ∧ private_chats d !! i = None ∧
     friend_requests d !! i = None) ∧
  (∀ mid m, chat_messages d !! mid = Some m → is_Some (recipient_of d m)) ∧
  (∀ u r, users d !! u = Some r → 0 <= last_event_seq r).

Definition db_inv (d : db) : Prop :=
  events_gapless d ∧ published_iff_event d ∧ events_refer d ∧ keys_ok d.

(** ** Lemmas *)

Lemma event_seq_of_Some d uid e s :
  event_seq_of d uid e = Some s → user_events d !! (uid, s) = Some e.
Proof.
  unfold event_seq_of. destruct (filter _ _) as [| [[u s'] e'] l] eqn:E; [done |].
  intros [= <-]. assert (Hin : ((u, s'), e') ∈ filter (λ p, p.1.1 = uid ∧ p.2 = e) (map_to_list (user_events d))).
  { rewrite E. left. }
  apply list_elem_of_filter in Hin as [[Hu He] Hin]. cbn in *. subst.
  by apply elem_of_map_to_list in Hin.
Qed.

Lemma event_seq_of_None d uid e s :
  event_seq_of d uid e = None → user_events d !! (uid, s) ≠ Some e.
Proof.
  unfold event_seq_of. destruct (filter _ _) as [| [[u s'] e'] l] eqn:E; [| done].
  intros _ Hs. assert (Hin : ((uid, s), e) ∈ filter (λ p, p.1.1 = uid ∧ p.2 = e) (map_to_list (user_events d))).
  { apply list_elem_of_filter. split; [done |]. by apply elem_of_map_to_list. }
  rewrite E in Hin. by apply not_elem_of_nil in Hin.
Qed.

Lemma event_seq_of_unique d uid e s :
  events_gapless d → user_events d !! (uid, s) = Some e → event_seq_of d uid e = Some s.
Proof.
  intros [_ Hu] Hs. destruct (event_seq_of d uid e) as [s' |] eqn:E.
  - apply event_seq_of_Some in E. f_equal. by eapply Hu.
  - by destruct (event_seq_of_None _ _ _ _ E Hs).
Qed.

(** A rollback undoes everything but the counters. *)
Lemma rollback_to_inv d0 d : db_inv d0 → next_id d0 <= next_id d → db_inv (rollback_to d0 d).
Proof.
  intros (He & Hp & Hr & (Hk & Hn & Hrest)) Hle. split_and!; try done.
  split; [done |]. split; [| done]. intros i Hi. apply Hn. cbn in Hi. lia.
Qed.

(** The database after one more event of [uid]. *)
Definition append_event (d : db) (uid : Z) (e : event_row) : db :=
  match users d !! uid with
  | Some u =>
      let seq := last_event_seq u + 1 in
      set_events (set_users d (<[uid := UserRow (username u) (email u) (password_hash u) (user_profile u) seq]> (users d)))
        (<[(uid, seq) := e]> (user_events d))
  | None => d
  end.

(** Appending a new event keeps the numbering gapless. *)
Lemma append_event_gapless d uid u e :
  events_gapless d → 0 <= last_event_seq u → users d !! uid = Some u →
  (∀ s, user_events d !! (uid, s) ≠ Some e) →
  events_gapless (append_event d uid e).
Proof.
  intros [Hg Hu] Hpos Huid Hnew. unfold append_event. rewrite Huid. set (seq := last_event_seq u + 1).
  assert (Hfree : user_events d !! (uid, seq) = None).
  { apply eq_None_not_Some. intros Hs. apply Hg in Hs as (u' & Hu' & Hr). simplify_eq. unfold seq in Hr. lia. }
  split.
  - intros uid' s. cbn. destruct (decide ((uid', s) = (uid, seq))) as [Heq | Hne].
    + injection Heq as -> ->. rewrite !lookup_insert_eq. split; [| by eexists].
      intros _. eexists. split; [done |]. cbn. unfold seq. lia.
    + rewrite lookup_insert_ne by congruence. rewrite Hg.
      destruct (decide (uid' = uid)) as [-> |].
      * rewrite lookup_insert_eq, Huid. split; intros (u' & [= <-] & Hr); (eexists; split; [done |]).
        -- cbn. unfold seq. lia.
        -- cbn in Hr. unfold seq in *. destruct (decide (s = last_event_seq u + 1)); [congruence | lia].
      * by rewrite lookup_insert_ne by congruence.
  - intros uid' s1 s2 e'. cbn.
    destruct (decide ((uid', s1) = (uid, seq))) as [Heq1 | Hne1], (decide ((uid', s2) = (uid, seq))) as [Heq2 | Hne2].
    + congruence.
    + injection Heq1 as -> ->. rewrite lookup_insert_eq, lookup_insert_ne by congruence.
      intros [= <-] Hs. by destruct (Hnew s2).
    + injection Heq2 as -> ->. rewrite lookup_insert_ne, lookup_insert_eq by congruence.
      intros Hs [= <-]. by destruct (Hnew s1).
    + rewrite !lookup_insert_ne by congruence. apply Hu.
Qed.

Lemma event_conflict_false d uid seq e :
  user_events d !! (uid, seq) = None → (∀ s, user_events d !! (uid, s) ≠ Some e) →
  event_conflict d uid seq e = false.
Proof.
  intros Hf Hn. unfold event_conflict. rewrite Hf. apply orb_false_intro.
  - apply bool_decide_eq_false. by intros [? [=]].
  - apply bool_decide_eq_false. intros ([u s] & e' & Hs & Hu & He). cbn in Hu. subst. by destruct (Hn s).
Qed.
