(* ===== verification/ResourceDb.v ===== *)
(** * The ResourceServer's DAO (ResourceServer/src/MysqlDao.cpp)

    Publishing an uploaded resource: in one transaction the message becomes
    Published, the recipient's event head advances and the event row is
    inserted; deadlocks are retried a bounded number of times. Also the
    lookups the file workers branch on, and the state changes of failed and
    expired uploads. *)

From S2P Require Import Prelude Database.

Inductive PublishResult := PubPublished | PubAlreadyPublished | PubNotPending | PubNotFound | PubTransient.
Inductive TriState := TriYes | TriNo | TriTransient.

#[global] Instance PublishResult_eq_dec : EqDecision PublishResult.
Proof. solve_decision. Defined.

Definition kPublishDeadlockMaxRetries : nat := 3.

(** Code of the DAO after its exceptions are handled. *)
Definition Dao (A : Type) : Type := db → tape → A * db * tape.

(** [pool_->getConnection()]: null when the pool is stopped. *)
Definition with_connection {A} (none : A) (k : Dao A) : Dao A := λ d t,
  match tape_next t with
  | (IoOk, t') => k d t'
  | (IoFail _, t') => (none, d, t')
  end.

(** [try ... catch (const sql::SQLException&)] *)
Definition catch {A} (m : Tx A) (h : sql_error → A) : Dao A := λ d t,
  match m d t with
  | (inl e, d', t') => (h e, d', t')
  | (inr a, d', t') => (a, d', t')
  end.

(** A statement outside of a transaction: when its outcome is [IoFail n] with
    [2 <= n] it took effect although it is reported as failed. *)
Definition exec_auto {A} (f : db → A * db) : Tx A := λ d t,
  match tape_next t with
  | (IoOk, t') => let '(a, d') := f d in (inr a, d', t')
  | (IoFail n, t') => (inl (error_of n), if decide (2 <= n)%nat then (f d).2 else d, t')
  end.

(** The row of the joined query: sender, type, status and recipient. *)
Definition publish_row_of (d : db) (mid : Z) : option (Z * Z * MessageStatus * Z) :=
  m ← chat_messages d !! mid;
  pc ← private_chats d !! m_thread m;
  _ ← message_resources d !! mid;
  Some (m_sender m, m_type m, m_status m, other_member pc (m_sender m)).

Definition with_status (m : msg_row) (s : MessageStatus) : msg_row :=
  MsgRow (m_thread m) (m_sender m) (m_client m) (m_type m) (m_text m) s (m_created m).

(** [UPDATE chat_messages SET status=? WHERE message_id=? AND status=?] *)
Definition update_status (mid : Z) (new old : MessageStatus) (d : db) : Z * db :=
  match chat_messages d !! mid with
  | Some m =>
      if decide (m_status m = old) then
        (1, set_messages d (<[mid := with_status m new]> (chat_messages d)))
      else (0, d)
  | None => (0, d)
  end.

(** The body of [CompleteResourceUploadOnce]; counters stay below 2^64. *)
Definition publish_body (mid sender : Z) : Tx (finish_kind * (PublishResult * Z)) :=
  row ← query (λ d, publish_row_of d mid);
  match row with
  | None => mret (Rollback, (PubNotFound, 0))
  | Some (row_sender, message_type, status, recipient) =>
      if negb (row_sender =? sender) then mret (Rollback, (PubNotFound, 0))
      else if (negb (message_type =? PIC) && negb (message_type =? FILE)) || (recipient <=? 0) then
        mret (Rollback, (PubNotFound, 0))
      else match status with
      | Published =>
          existing ← query (λ d, event_seq_of d recipient (message_event message_type mid));
          match existing with
          | None => mret (Rollback, (PubNotFound, 0))
          | Some event_seq => mret (Commit, (PubAlreadyPublished, event_seq))
          end
      | Failed => mret (Rollback, (PubNotPending, 0))
      | Pending =>
          head ← read_event_head recipient;
          match head with
          | None => mret (Rollback, (PubNotFound, 0))
          | Some last =>
              let event_seq := last + 1 in
              n ← update_event_head recipient event_seq;
              if negb (n =? 1) then mret (Rollback, (PubTransient, event_seq))
              else
                n ← exec (update_status mid Published Pending);
                if negb (n =? 1) then mret (Rollback, (PubTransient, event_seq))
                else
                  n ← insert_event recipient event_seq (message_event message_type mid);
                  if negb (n =? 1) then mret (Rollback, (PubTransient, event_seq))
                  else mret (Commit, (PubPublished, event_seq))
          end
      end
  end.

(** The result, the event number and the deadlock flag. *)
Definition CompleteResourceUploadOnce (mid sender : Z) : Dao (PublishResult * Z * bool) :=
  with_connection (PubTransient, 0, false)
    (catch ('(rc, seq) ← transaction (publish_body mid sender); mret (rc, seq, false))
       (λ e, (PubTransient, 0, match e with SqlDeadlock => true | SqlError => false end))).

(** The retry loop: [attempts] more attempts after this one. *)
Fixpoint publish_loop (attempts : nat) (mid sender : Z) : Dao (PublishResult * Z) := λ d t,
  let '((rc, seq, deadlock), d', t') := CompleteResourceUploadOnce mid sender d t in
  match attempts with
  | S attempts =>
      if negb (bool_decide (rc = PubTransient)) || negb deadlock then ((rc, seq), d', t')
      else publish_loop attempts mid sender d' t'
  | O => ((rc, seq), d', t')
  end.

Definition CompleteResourceUpload (mid sender : Z) : Dao (PublishResult * Z) :=
  publish_loop (kPublishDeadlockMaxRetries - 1) mid sender.

Definition MarkResourceFailed (mid : Z) : Dao bool :=
  with_connection false
    (catch (n ← exec_auto (update_status mid Failed Pending); mret (n =? 1)) (λ _, false)).

(** The SELECT EXISTS of the two lookups. *)
Definition published_with_sha (d : db) (sha : bytes) (p : Z → msg_row → res_row → bool) : bool :=
  existsb (λ x : Z * res_row,
    match chat_messages d !! x.1 with
    | Some m => bool_decide (m_status m = Published) && bool_decide (r_sha x.2 = sha) && p x.1 m x.2
    | None => false
    end) (map_to_list (message_resources d)).

Definition SenderHasPublishedContent (sender : Z) (sha : bytes) (size : Z) : Dao TriState :=
  with_connection TriTransient
    (catch (hit ← query (λ d, published_with_sha d sha
                      (λ _ m r, (r_size r =? size) && (m_sender m =? sender)));
            mret (if (hit : bool) then TriYes else TriNo)) (λ _, TriTransient)).

Definition BlobHasPublishedReference (sha : bytes) : Dao TriState :=
  with_connection TriTransient
    (catch (hit ← query (λ d, published_with_sha d sha (λ _ _ _, true));
            mret (if (hit : bool) then TriYes else TriNo)) (λ _, TriTransient)).

(** A [ChatMessage] of the resource projection. *)
Record ChatMessage := ChatMsg {
  message_id : Z;
  sender_user_id : Z;
  recipient_user_id : Z;
  message_type : Z;
  status : MessageStatus;
  event_seq : Z;                 (* COALESCE(e.event_seq, 0) *)
  resource : res_row;
}.

Inductive ChatMsgLookup := LkFound (m : ChatMessage) | LkNotFound | LkTransient.

Definition chat_message_of (d : db) (mid : Z) : option ChatMessage :=
  m ← chat_messages d !! mid;
  pc ← private_chats d !! m_thread m;
  r ← message_resources d !! mid;
  let recipient := other_member pc (m_sender m) in
  Some (ChatMsg mid (m_sender m) recipient (m_type m) (m_status m)
          (default 0 (event_seq_of d recipient (message_event (m_type m) mid))) r).

Definition GetChatMsgById (mid : Z) : Dao ChatMsgLookup :=
  with_connection LkTransient
    (catch (row ← query (λ d, chat_message_of d mid);
            mret (match row with Some m => LkFound m | None => LkNotFound end)) (λ _, LkTransient)).

(** The loop of [MarkResourceExpired]. *)
Fixpoint expire_all (mids : list Z) : Tx unit :=
  match mids with
  | [] => mret tt
  | mid :: mids => exec (update_status mid Failed Pending);; expire_all mids
  end.

Definition MarkResourceExpired (mids : list Z) : Dao bool :=
  if bool_decide (mids = []) then λ d t, (true, d, t)
  else
    with_connection false
      (catch (transaction (expire_all mids;; mret (Commit, true))) (λ _, false)).

(** *** The user's avatar *)

Definition with_avatar (icon : bytes) (u : user_row) : user_row :=
  UserRow (username u) (email u) (password_hash u)
    (Profile (nickname (user_profile u)) (profile_bio (user_profile u)) (gender (user_profile u)) icon) (last_event_seq u).

(** [UPDATE users SET avatar_key=? WHERE user_id=?]: the rows it changes. *)
Definition update_avatar (uid : Z) (icon : bytes) (d : db) : Z * db :=
  match users d !! uid with
  | Some u => (if decide (avatar_key (user_profile u) = icon) then 0 else 1, set_users d (<[uid := with_avatar icon u]> (users d)))
  | None => (0, d)
  end.

Definition UpdateHeadInfo (uid : Z) (icon : bytes) : Dao bool :=
  with_connection false (catch (n ← exec_auto (update_avatar uid icon); mret (n =? 1)) (λ _, false)).

(** ** Lemmas *)

(** The database after a publication. *)
Definition publish_effect (d : db) (mid : Z) (m : msg_row) (r : Z) : db :=
  append_event (set_messages d (<[mid := with_status m Published]> (chat_messages d))) r
    (message_event (m_type m) mid).

(** The message can be published or has been: the checks of the transaction. *)
Definition publishable (d : db) (mid sender : Z) (m : msg_row) (r : Z) : Prop :=
  chat_messages d !! mid = Some m ∧ recipient_of d m = Some r ∧
  is_Some (message_resources d !! mid) ∧ m_sender m = sender ∧
  (m_type m = PIC ∨ m_type m = FILE) ∧ 0 < r.

Lemma publish_row_of_Some d mid s ty st r :
  publish_row_of d mid = Some (s, ty, st, r) →
  ∃ m, chat_messages d !! mid = Some m ∧ recipient_of d m = Some r ∧
       is_Some (message_resources d !! mid) ∧ m_sender m = s ∧ m_type m = ty ∧ m_status m = st.
Proof.
  unfold publish_row_of, recipient_of. destruct (chat_messages d !! mid) as [m |] eqn:Em; [| done].
  cbn. destruct (private_chats d !! m_thread m) as [pc |] eqn:Ep; [| done].
  cbn. destruct (message_resources d !! mid) as [res |] eqn:Er; [| done].
  cbn. intros [= <- <- <- <-]. exists m. rewrite Ep. done.
Qed.

Lemma publish_row_of_publishable d mid sender m r :
  publishable d mid sender m r → publish_row_of d mid = Some (sender, m_type m, m_status m, r).
Proof.
  intros (Hm & Hr & [res Hres] & <- & _). unfold publish_row_of, recipient_of in *.
  rewrite Hm. cbn. destruct (private_chats d !! m_thread m); [| done]. cbn in *. simplify_eq.
  rewrite Hres. done.
Qed.

Lemma publish_effect_inv d mid m r u :
  db_inv d → chat_messages d !! mid = Some m → recipient_of d m = Some r →
  m_status m ≠ Published → users d !! r = Some u → db_inv (publish_effect d mid m r).
Proof.
  intros (Hg & Hp & Hr & (Hk & Hn & Hpc & Hpos)) Hm Hrec Hst Hu.
  set (d1 := set_messages d (<[mid := with_status m Published]> (chat_messages d))).
  set (e := message_event (m_type m) mid). set (seq := last_event_seq u + 1).
  assert (Hnew : ∀ s, user_events d !! (r, s) ≠ Some e).
  { intros s Hs. apply Hst. apply (Hp mid m Hm r Hrec). by exists s. }
  assert (Hd2 : publish_effect d mid m r =
    set_events (set_users d1 (<[r := UserRow (username u) (email u) (password_hash u) (user_profile u) seq]> (users d)))
      (<[(r, seq) := e]> (user_events d))).
  { unfold publish_effect, append_event. cbn. by rewrite Hu. }
  assert (Hg2 : events_gapless (publish_effect d mid m r)).
  { unfold publish_effect. fold d1 e. apply (append_event_gapless d1 r u e); [done | by eapply Hpos | done | done]. }
  assert (Hrec2 : ∀ x, recipient_of (publish_effect d mid m r) x = recipient_of d x)
    by (intros x; rewrite Hd2; done).
  assert (Hseq : user_events d !! (r, seq) = None).
  { apply eq_None_not_Some. intros Hs. apply (proj1 Hg) in Hs as (u' & Hu' & Hle). simplify_eq.
    unfold seq in Hle. lia. }
  split_and!; [done | | |].
  - intros mid' m' Hm' r' Hr'. rewrite Hrec2 in Hr'. rewrite Hd2 in Hm' |- *. cbn in Hm' |- *.
    destruct (decide (mid' = mid)) as [-> |].
    + rewrite lookup_insert_eq in Hm'. injection Hm' as <-. cbn.
      assert (r' = r) as -> by (change (recipient_of d m = Some r') in Hr'; congruence).
      split; [intros _; exists seq; by rewrite lookup_insert_eq | done].
    + rewrite lookup_insert_ne in Hm' by done. rewrite (Hp mid' m' Hm' r' Hr').
      split; intros [s Hs].
      * exists s. rewrite lookup_insert_ne; [done |]. intros [= <- <-]. congruence.
      * destruct (decide ((r, seq) = (r', s))) as [Heq | Hne].
        -- rewrite Heq, lookup_insert_eq in Hs. unfold e, message_event in Hs. congruence.
        -- rewrite lookup_insert_ne in Hs by done. by exists s.
  - intros uid s ty mid' Hs. rewrite Hd2 in Hs. cbn in Hs.
    assert (Hold : ∀ x, chat_messages d !! mid' = Some x → m_type x = ty → recipient_of d x = Some uid →
      ∃ y, chat_messages (publish_effect d mid m r) !! mid' = Some y ∧ m_type y = ty ∧
           recipient_of (publish_effect d mid m r) y = Some uid).
    { intros x Hx Hty Hux. setoid_rewrite Hrec2. rewrite Hd2. cbn.
      destruct (decide (mid' = mid)) as [-> |].
      - rewrite lookup_insert_eq. simplify_eq. by eexists.
      - rewrite lookup_insert_ne by done. by eexists. }
    destruct (decide ((r, seq) = (uid, s))) as [Heq | Hne].
    + rewrite Heq, lookup_insert_eq in Hs. injection Heq as <- <-.
      unfold e, message_event in Hs. injection Hs as <- <-. by apply (Hold m).
    + rewrite lookup_insert_ne in Hs by done. destruct (Hr uid s ty mid' Hs) as (x & Hx & Hty & Hux).
      by apply (Hold x).
  - rewrite Hd2. unfold keys_ok. cbn.
    assert (Hlk : ∀ i x, <[mid := with_status m Published]> (chat_messages d) !! i = Some x →
      ∃ y, chat_messages d !! i = Some y ∧ m_sender x = m_sender y ∧ m_client x = m_client y ∧
           m_thread x = m_thread y).
    { intros i x. destruct (decide (i = mid)) as [-> |].
      - rewrite lookup_insert_eq. intros [= <-]. by exists m.
      - rewrite lookup_insert_ne by done. intros Hx. by exists x. }
    split_and!.
    + intros i j x y Hx Hy Hs Hc. apply Hlk in Hx as (x' & Hx & ? & ? & _), Hy as (y' & Hy & ? & ? & _).
      apply (Hk i j x' y'); congruence.
    + intros i Hi. destruct (Hn i Hi) as (Hi1 & ? & ?). split_and!; try done.
      rewrite lookup_insert_ne; [done |]. intros ->. congruence.
    + intros i x Hx. apply Hlk in Hx as (y & Hy & Hsx & _ & Htx). destruct (Hpc i y Hy) as [q Hq].
      exists q. unfold recipient_of in *. cbn. rewrite Htx, Hsx. done.
    + intros v row. destruct (decide (v = r)) as [-> |].
      * rewrite lookup_insert_eq. intros [= <-]. cbn. pose proof (Hpos r u Hu). unfold seq. lia.
      * rewrite lookup_insert_ne by done. apply Hpos.
Qed.

Lemma rollback_to_same d0 d : next_id d = next_id d0 → rollback_to d0 d = d0.
Proof. unfold rollback_to, set_next. intros ->. by destruct d0. Qed.

(** What the body of the transaction can have decided. *)
Definition body_result (mid sender : Z) (d : db) (res : sql_error + (finish_kind * (PublishResult * Z)))
    (d2 : db) : Prop :=
  next_id d2 = next_id d ∧
  match res with
  | inl _ => True
  | inr (Rollback, (rc, _)) => rc ≠ PubPublished ∧ rc ≠ PubAlreadyPublished
  | inr (Commit, (rc, seq)) =>
      ∃ m r, publishable d mid sender m r ∧
        ((rc = PubAlreadyPublished ∧ m_status m = Published ∧ d2 = d ∧
          user_events d !! (r, seq) = Some (message_event (m_type m) mid)) ∨
         (rc = PubPublished ∧ m_status m = Pending ∧ d2 = publish_effect d mid m r ∧
          ∃ u, users d !! r = Some u ∧ seq = last_event_seq u + 1))
  end.

(** The three updates of a pending message. *)
Lemma publish_pending_spec d mid sender m r t res d2 t2 :
  publishable d mid sender m r → m_status m = Pending →
  (head ← read_event_head r;
   match head with
   | None => mret (Rollback, (PubNotFound, 0))
   | Some last =>
       let event_seq := last + 1 in
       n ← update_event_head r event_seq;
       if negb (n =? 1) then mret (Rollback, (PubTransient, event_seq))
       else
         n ← exec (update_status mid Published Pending);
         if negb (n =? 1) then mret (Rollback, (PubTransient, event_seq))
         else
           n ← insert_event r event_seq (message_event (m_type m) mid);
           if negb (n =? 1) then mret (Rollback, (PubTransient, event_seq))
           else mret (Commit, (PubPublished, event_seq))
   end) d t = (res, d2, t2) → body_result mid sender d res d2.
Proof.
  intros Hpub Hst. pose proof Hpub as (Hm & _).
  unfold mbind, Tx_bind, mret, Tx_ret, read_event_head, query, exec at 1, update_event_head.
  destruct (tape_next t) as [[| n] t1]; [| by intros [= <- <- <-]].
  destruct (users d !! r) as [u |] eqn:Hu; cbn [option_map]; [| by intros [= <- <- <-]].
  unfold exec at 1. destruct (tape_next t1) as [[| n] t3]; [| by intros [= <- <- <-]].
  rewrite Hu. cbn [Z.eqb negb Pos.eqb]. unfold exec at 1.
  destruct (tape_next t3) as [[| n] t4]; [| by intros [= <- <- <-]].
  unfold update_status. cbn [chat_messages set_users]. rewrite Hm, decide_True by done.
  cbn [Z.eqb negb Pos.eqb]. unfold insert_event, exec_or_error.
  destruct (tape_next t4) as [[| n] t5]; [| by intros [= <- <- <-]].
  destruct (event_conflict _ r (last_event_seq u + 1) _); [by intros [= <- <- <-] |].
  cbn [Z.eqb negb Pos.eqb]. intros [= <- <- <-]. split; [done |]. exists m, r. split; [done |]. right.
  split_and!; try done; [| by exists u]. unfold publish_effect, append_event. cbn. by rewrite Hu.
Qed.

Lemma publish_body_spec d mid sender t res d2 t2 :
  publish_body mid sender d t = (res, d2, t2) → body_result mid sender d res d2.
Proof.
  unfold publish_body. unfold mbind at 1, Tx_bind at 1, query at 1, exec at 1.
  destruct (tape_next t) as [[| n] t1]; [| by intros [= <- <- <-]].
  destruct (publish_row_of d mid) as [[[[s ty] st] r] |] eqn:Erow; [| by intros [= <- <- <-]].
  apply publish_row_of_Some in Erow as (m & Hm & Hr & Hres & Hs & Hty & Hst).
  destruct (negb (s =? sender)) eqn:Es; [by intros [= <- <- <-] |].
  destruct ((negb (ty =? PIC) && negb (ty =? FILE)) || (r <=? 0)) eqn:Et; [by intros [= <- <- <-] |].
  apply negb_false_iff, Z.eqb_eq in Es. apply orb_false_elim in Et as [Et Er0]. apply Z.leb_gt in Er0.
  assert (Hpub : publishable d mid sender m r).
  { unfold publishable. split_and!; try done; [congruence |].
    apply andb_false_iff in Et as [E | E]; bool_to_prop; subst ty; auto. }
  subst ty st. destruct (m_status m) eqn:Em.
  - by apply publish_pending_spec.
  - unfold mbind, Tx_bind, query, exec, mret, Tx_ret.
    destruct (tape_next t1) as [[| n] t3]; [| by intros [= <- <- <-]].
    destruct (event_seq_of d r (message_event (m_type m) mid)) as [seq |] eqn:Ee; intros [= <- <- <-]; [| done].
    split; [done |]. exists m, r. split; [done |]. left. apply event_seq_of_Some in Ee. done.
  - by intros [= <- <- <-].
Qed.

(** The two possible effects of a publication attempt. *)
Definition publish_outcome (mid sender : Z) (d : db) (rc : PublishResult) (seq : Z) (d' : db) : Prop :=
  (d' = d ∧ rc ≠ PubPublished ∧
     (rc = PubAlreadyPublished → ∃ m r, publishable d mid sender m r ∧ m_status m = Published ∧
        user_events d !! (r, seq) = Some (message_event (m_type m) mid))) ∨
  ((rc = PubPublished ∨ rc = PubTransient) ∧
     ∃ m r u, publishable d mid sender m r ∧ m_status m = Pending ∧ users d !! r = Some u ∧
       d' = publish_effect d mid m r ∧ (rc = PubPublished → seq = last_event_seq u + 1)).

Lemma CompleteResourceUploadOnce_spec mid sender d t rc seq dl d' t' :
  CompleteResourceUploadOnce mid sender d t = ((rc, seq, dl), d', t') →
  publish_outcome mid sender d rc seq d' ∧ (dl = true → d' = d).
Proof.
  unfold CompleteResourceUploadOnce, with_connection.
  assert (Hsame : ∀ (q : Z) (b : bool) x, ((PubTransient, q, b), d, x) = ((rc, seq, dl), d', t') →
    publish_outcome mid sender d rc seq d' ∧ (dl = true → d' = d)).
  { intros q b x [= <- <- <- <- <-]. split; [left | done]. split_and!; done. }
  destruct (tape_next t) as [[| n] t1]; [| by apply Hsame].
  unfold catch, mbind, Tx_bind, mret, Tx_ret, transaction.
  destruct (tape_next t1) as [[| n] t2]; [| by apply Hsame].
  destruct (publish_body mid sender d t2) as [[res d2] t3] eqn:Eb.
  apply publish_body_spec in Eb as [Hn Hres].
  rewrite (rollback_to_same d d2 Hn).
  destruct res as [e | [[] [rc0 seq0]]]; [by apply Hsame | |].
  - destruct Hres as (m & r & Hpub & Hc).
    destruct (tape_next t3) as [[| n] t4].
    + intros [= <- <- <- <- <-]. split; [| done].
      destruct Hc as [(-> & Hst & -> & Hev) | (-> & Hst & -> & u & Hu & Hseq)].
      * left. split_and!; try done. intros _. by exists m, r.
      * right. split; [by left |]. exists m, r, u. done.
    + unfold error_of. destruct (decide (n = 1%nat)) as [-> | Hn1].
      { rewrite decide_False by lia. by apply Hsame. }
      destruct (decide (2 <= n)%nat); [| by apply Hsame].
      destruct Hc as [(-> & Hst & -> & Hev) | (-> & Hst & -> & u & Hu & Hseq)]; [by apply Hsame |].
      intros [= <- <- <- <- <-]. split; [| done]. right. split; [by right |]. by exists m, r, u.
  - destruct Hres as [Hr1 Hr2]. destruct (tape_next t3) as [[| n] t4]; [| by apply Hsame].
    intros [= <- <- <- <- <-]. split; [| done]. left. done.
Qed.

Lemma publish_loop_spec k mid sender d t rc seq d' t' :
  publish_loop k mid sender d t = ((rc, seq), d', t') → publish_outcome mid sender d rc seq d'.
Proof.
  revert d t. induction k as [| k IH]; intros d t; cbn;
    destruct (CompleteResourceUploadOnce mid sender d t) as [[[[rc0 seq0] dl] d1] t1] eqn:Eo;
    apply CompleteResourceUploadOnce_spec in Eo as [Ho Hd].
  - by intros [= <- <- <- <-].
  - destruct (negb (bool_decide (rc0 = PubTransient)) || negb dl) eqn:E; [by intros [= <- <- <- <-] |].
    apply orb_false_elim in E as [_ E]. apply negb_false_iff in E. rewrite (Hd E). apply IH.
Qed.

Lemma CompleteResourceUpload_spec mid sender d t rc seq d' t' :
  CompleteResourceUpload mid sender d t = ((rc, seq), d', t') → publish_outcome mid sender d rc seq d'.
Proof. apply publish_loop_spec. Qed.

(** A published message: another attempt finds its event. *)
Lemma publish_again mid sender d m r seq :
  events_gapless d → publishable d mid sender m r → m_status m = Published →
  user_events d !! (r, seq) = Some (message_event (m_type m) mid) →
  CompleteResourceUpload mid sender d [] = ((PubAlreadyPublished, seq), d, []).
Proof.
  intros Hg Hpub Hst Hev. pose proof Hpub as (_ & _ & _ & _ & Hty & Hr0).
  unfold CompleteResourceUpload. cbn [kPublishDeadlockMaxRetries Nat.sub publish_loop].
  unfold CompleteResourceUploadOnce, with_connection, catch, mbind, Tx_bind, mret, Tx_ret, transaction,
    publish_body, mbind, Tx_bind, query, exec. cbn [tape_next].
  rewrite (publish_row_of_publishable _ _ _ _ _ Hpub), Hst, Z.eqb_refl. cbn [negb].
  assert (Ht : (negb (m_type m =? PIC) && negb (m_type m =? FILE)) || (r <=? 0) = false).
  { rewrite (proj2 (Z.leb_gt r 0)), orb_false_r by lia. by destruct Hty as [-> | ->]. }
  rewrite Ht, (event_seq_of_unique _ _ _ _ Hg Hev). cbn. done.
Qed.

Lemma publish_effect_published d mid sender m r u :
  publishable d mid sender m r → users d !! r = Some u →
  publishable (publish_effect d mid m r) mid sender (with_status m Published) r ∧
  user_events (publish_effect d mid m r) !! (r, last_event_seq u + 1) = Some (message_event (m_type m) mid).
Proof.
  intros (Hm & Hr & Hres & Hs & Hty & Hr0) Hu. unfold publish_effect, append_event, publishable.
  cbn. rewrite Hu. cbn. rewrite !lookup_insert_eq. split_and!; done.
Qed.


(** ** The other statements *)

(** The rows of messages keep everything but the status; what is published
    stays published, and what becomes published is message [mid]. *)
Definition rows_kept (mid : Z) (b b' : db) : Prop :=
  message_resources b' = message_resources b ∧
  (∀ n, chat_messages b !! n = None → chat_messages b' !! n = None) ∧
  (∀ n m, chat_messages b !! n = Some m →
     ∃ m', chat_messages b' !! n = Some m' ∧ m_sender m' = m_sender m ∧
       (m_status m' = m_status m ∨ n = mid ∧ m_status m ≠ Published)).

Lemma rows_kept_refl mid b : rows_kept mid b b.
Proof. split_and!; [done | done |]. intros n m Hm. exists m. auto. Qed.

Lemma status_rows_kept mid b m st us evs fr pc nx re :
  chat_messages b !! mid = Some m → m_status m ≠ Published →
  rows_kept mid b (Db us fr pc (<[mid := with_status m st]> (chat_messages b)) (message_resources b) re evs nx).
Proof.
  intros Hm Hst. split_and!; [done | |].
  - intros n Hn. cbn. rewrite lookup_insert_ne; [done | congruence].
  - intros n x Hx. cbn. destruct (decide (n = mid)) as [-> |].
    + rewrite lookup_insert_eq. simplify_eq. eexists. split; [done |]. cbn. auto.
    + rewrite lookup_insert_ne by done. exists x. auto.
Qed.

Lemma publish_outcome_rows mid sender d rc seq d' :
  publish_outcome mid sender d rc seq d' → rows_kept mid d d'.
Proof.
  intros [(-> & _) | (_ & m & r & u & (Hm & _) & Hst & Hu & -> & _)]; [apply rows_kept_refl |].
  unfold publish_effect, append_event. cbn. rewrite Hu.
  apply (status_rows_kept mid d m Published); [done | congruence].
Qed.

Lemma publish_outcome_inv mid sender d rc seq d' :
  db_inv d → publish_outcome mid sender d rc seq d' → db_inv d'.
Proof.
  intros Hinv [(-> & _) | (_ & m & r & u & (Hm & Hr & _) & Hst & Hu & -> & _)]; [done |].
  eapply publish_effect_inv; [done | done | done | congruence | done].
Qed.

Lemma publish_outcome_done mid sender d rc seq d' :
  publish_outcome mid sender d rc seq d' → rc = PubPublished ∨ rc = PubAlreadyPublished →
  ∃ m r, chat_messages d' !! mid = Some m ∧ m_status m = Published ∧ recipient_of d' m = Some r ∧
    user_events d' !! (r, seq) = Some (message_event (m_type m) mid) ∧
    ∃ m0, chat_messages d !! mid = Some m0 ∧ m_type m0 = m_type m ∧ recipient_of d m0 = Some r.
Proof.
  intros [(-> & Hne & Ha) | (Hrc & m & r & u & Hpub & Hst & Hu & -> & Hs)] [-> | ->]; try done.
  - destruct (Ha eq_refl) as (m & r & (Hm & Hr & _) & Hst & Hev). exists m, r. split_and!; try done. by exists m.
  - destruct (publish_effect_published _ _ _ _ _ _ Hpub Hu) as ((Hm & Hr & _) & Hev).
    exists (with_status m Published), r. rewrite (Hs eq_refl). split_and!; try done.
    exists m. by destruct Hpub as (? & ? & _).
  - by destruct Hrc.
Qed.

(** Marking a pending message as failed. *)
Definition fail_effect (d : db) (mid : Z) (m : msg_row) : db :=
  set_messages d (<[mid := with_status m Failed]> (chat_messages d)).

Lemma fail_effect_inv d mid m :
  db_inv d → chat_messages d !! mid = Some m → m_status m = Pending → db_inv (fail_effect d mid m).
Proof.
  intros (Hg & Hp & Hr & (Hk & Hn & Hpc & Hpos)) Hm Hst.
  assert (Hlk : ∀ i x, chat_messages (fail_effect d mid m) !! i = Some x →
    ∃ y, chat_messages d !! i = Some y ∧ m_sender x = m_sender y ∧ m_client x = m_client y ∧
         m_thread x = m_thread y ∧ m_type x = m_type y ∧
         (m_status x = m_status y ∨ m_status x ≠ Published ∧ m_status y ≠ Published)).
  { intros i x. cbn. destruct (decide (i = mid)) as [-> |].
    - rewrite lookup_insert_eq. intros [= <-]. exists m. rewrite Hst. cbn. auto 10.
    - rewrite lookup_insert_ne by done. intros Hx. exists x. auto 10. }
  assert (Hrec : ∀ x y, m_thread x = m_thread y → m_sender x = m_sender y →
    recipient_of (fail_effect d mid m) x = recipient_of d y).
  { intros x y Ht Hs. unfold recipient_of. cbn. by rewrite Ht, Hs. }
  split_and!; [done | | |].
  - intros i x Hx r Hxr. apply Hlk in Hx as (y & Hy & Hs & _ & Ht & Hty & Hstat).
    rewrite (Hrec x y Ht Hs) in Hxr. rewrite Hty. cbn. rewrite <- (Hp i y Hy r Hxr).
    destruct Hstat as [-> | [? ?]]; tauto.
  - intros uid s ty i Hs. destruct (Hr uid s ty i Hs) as (y & Hy & Hty & Hu).
    destruct (decide (i = mid)) as [-> |].
    + exists (with_status m Failed). cbn. rewrite lookup_insert_eq. simplify_eq.
      split_and!; [done | done |]. by rewrite (Hrec _ m).
    + exists y. cbn. rewrite lookup_insert_ne by done. split_and!; [done | done |]. by rewrite (Hrec _ y).
  - unfold keys_ok. split_and!.
    + intros i j x y Hx Hy Hs Hc. apply Hlk in Hx as (x' & Hx & ? & ? & _), Hy as (y' & Hy & ? & ? & _).
      apply (Hk i j x' y'); congruence.
    + intros i Hi. destruct (Hn i Hi) as (Hi1 & ? & ?). split_and!; try done. cbn.
      rewrite lookup_insert_ne; [done | congruence].
    + intros i x Hx. apply Hlk in Hx as (y & Hy & Hsx & _ & Htx & _). rewrite (Hrec x y Htx Hsx). by eapply Hpc.
    + done.
Qed.

(** Nothing becomes published. *)
Definition none_published (b b' : db) : Prop :=
  ∀ n m', chat_messages b' !! n = Some m' → m_status m' = Published →
    ∃ m, chat_messages b !! n = Some m ∧ m_status m = Published.

Lemma update_status_fail mid d n d' :
  db_inv d → update_status mid Failed Pending d = (n, d') →
  db_inv d' ∧ rows_kept mid d d' ∧ none_published d d'.
Proof.
  intros Hinv.
  assert (Hsame : db_inv d ∧ rows_kept mid d d ∧ none_published d d).
  { split; [done |]. split; [apply rows_kept_refl |]. intros i x Hx Hs. by exists x. }
  unfold update_status. destruct (chat_messages d !! mid) as [m |] eqn:Em; [| by intros [= <- <-]].
  case_decide as Hst; intros [= <- <-]; [| done].
  split; [by apply fail_effect_inv |].
  split; [apply (status_rows_kept mid d m Failed); [done | congruence] |].
  intros i x. cbn. destruct (decide (i = mid)) as [-> |].
  - rewrite lookup_insert_eq. by intros [= <-].
  - rewrite lookup_insert_ne by done. intros Hx Hs. by exists x.
Qed.

Lemma MarkResourceFailed_spec mid d t b d' t' :
  db_inv d → MarkResourceFailed mid d t = (b, d', t') →
  db_inv d' ∧ rows_kept mid d d' ∧ none_published d d'.
Proof.
  intros Hinv. unfold MarkResourceFailed, with_connection, catch, mbind, Tx_bind, mret, Tx_ret, exec_auto.
  assert (Hsame : db_inv d ∧ rows_kept mid d d ∧ none_published d d).
  { split; [done |]. split; [apply rows_kept_refl |]. intros i x Hx Hs. by exists x. }
  destruct (tape_next t) as [[| n] t1]; [| by intros [= <- <- <-]].
  destruct (update_status mid Failed Pending d) as [a d1] eqn:Eu.
  pose proof (update_status_fail _ _ _ _ Hinv Eu) as Hok. cbn.
  destruct (tape_next t1) as [[| n] t2]; [by intros [= <- <- <-] |].
  case_decide; by intros [= <- <- <-].
Qed.

Lemma GetChatMsgById_spec mid d t r d' t' :
  GetChatMsgById mid d t = (r, d', t') → d' = d ∧ (∀ m, r = LkFound m → chat_message_of d mid = Some m).
Proof.
  unfold GetChatMsgById, with_connection, catch, mbind, Tx_bind, mret, Tx_ret, query, exec.
  destruct (tape_next t) as [[| n] t1]; [| by intros [= <- <- <-]].
  destruct (tape_next t1) as [[| n] t2]; intros [= <- <- <-]; [| done].
  split; [done |]. intros m. destruct (chat_message_of d mid); by intros [= <-].
Qed.

Lemma chat_message_of_Some d mid c :
  chat_message_of d mid = Some c →
  ∃ m, chat_messages d !! mid = Some m ∧ message_resources d !! mid = Some (resource c) ∧
    sender_user_id c = m_sender m ∧ message_type c = m_type m ∧ status c = m_status m ∧
    recipient_of d m = Some (recipient_user_id c) ∧
    event_seq c = default 0 (event_seq_of d (recipient_user_id c) (message_event (m_type m) mid)).
Proof.
  unfold chat_message_of, recipient_of. destruct (chat_messages d !! mid) as [m |] eqn:Em; [| done].
  cbn. destruct (private_chats d !! m_thread m) as [pc |] eqn:Ep; [| done].
  cbn. destruct (message_resources d !! mid) as [res |] eqn:Er; [| done].
  cbn. intros [= <-]. exists m. cbn. rewrite Ep. done.
Qed.

Lemma published_with_sha_Some d sha p :
  published_with_sha d sha p = true →
  ∃ mid m res, chat_messages d !! mid = Some m ∧ m_status m = Published ∧
    message_resources d !! mid = Some res ∧ r_sha res = sha ∧ p mid m res = true.
Proof.
  unfold published_with_sha. intros ([mid res] & Hin & Hb)%existsb_exists.
  apply list_elem_of_In, elem_of_map_to_list in Hin. cbn in Hb.
  destruct (chat_messages d !! mid) as [m |] eqn:Em; [| done]. bool_to_prop. by exists mid, m, res.
Qed.

Lemma published_with_sha_None d sha mid m res :
  published_with_sha d sha (λ _ _ _, true) = false →
  chat_messages d !! mid = Some m → m_status m = Published →
  message_resources d !! mid = Some res → r_sha res ≠ sha.
Proof.
  intros Hf Hm Hst Hr Hsha. apply not_true_iff_false in Hf. apply Hf.
  unfold published_with_sha. apply existsb_exists. exists (mid, res).
  split; [by apply list_elem_of_In, elem_of_map_to_list |]. cbn. rewrite Hm.
  by rewrite !bool_decide_true.
Qed.

Lemma SenderHasPublishedContent_spec sender sha size d t r d' t' :
  SenderHasPublishedContent sender sha size d t = (r, d', t') →
  d' = d ∧ (r = TriYes → ∃ mid m res, chat_messages d !! mid = Some m ∧ m_status m = Published ∧
    message_resources d !! mid = Some res ∧ r_sha res = sha ∧ r_size res = size).
Proof.
  unfold SenderHasPublishedContent, with_connection, catch, mbind, Tx_bind, mret, Tx_ret, query, exec.
  destruct (tape_next t) as [[| n] t1]; [| by intros [= <- <- <-]].
  destruct (tape_next t1) as [[| n] t2]; intros [= <- <- <-]; [| done].
  split; [done |]. destruct (published_with_sha _ _ _) eqn:E; [| done]. intros _.
  apply published_with_sha_Some in E as (mid & m & res & Hm & Hst & Hr & Hsha & Hp).
  bool_to_prop. by exists mid, m, res.
Qed.

Lemma BlobHasPublishedReference_spec sha d t r d' t' :
  BlobHasPublishedReference sha d t = (r, d', t') →
  d' = d ∧ (r = TriNo → ∀ mid m res, chat_messages d !! mid = Some m → m_status m = Published →
    message_resources d !! mid = Some res → r_sha res ≠ sha).
Proof.
  unfold BlobHasPublishedReference, with_connection, catch, mbind, Tx_bind, mret, Tx_ret, query, exec.
  destruct (tape_next t) as [[| n] t1]; [| by intros [= <- <- <-]].
  destruct (tape_next t1) as [[| n] t2]; intros [= <- <- <-]; [| done].
  split; [done |]. destruct (published_with_sha _ _ _) eqn:E; [done |]. intros _ mid m res.
  by apply published_with_sha_None.
Qed.

(** ** A concrete database *)

(** Two pending pictures of user 1 for user 2, with the same content. *)
Definition demo_msg (client : bytes) : msg_row := MsgRow 5 1 client PIC None Pending (§ "2026-01-01").

Definition demo_db_of (res : res_row) : db :=
  Db {[ 1 := UserRow (§ "a") (§ "a@x") [] no_profile 0; 2 := UserRow (§ "b") (§ "b@x") [] no_profile 0 ]}
     {[ (1, 2) ]} {[ 5 := (1, 2) ]} {[ 9 := demo_msg (§ "c1"); 10 := demo_msg (§ "c2") ]}
     {[ 9 := res; 10 := res ]} ∅ ∅ 11.

Definition demo_db : db := demo_db_of (ResRow (§ "f.png") 6 (§ "ab") (§ "image/png")).

Lemma demo_no_events res k : user_events (demo_db_of res) !! k = None.
Proof. apply lookup_empty. Qed.

Lemma demo_messages res i m : chat_messages (demo_db_of res) !! i = Some m →
  (i = 9 ∧ m = demo_msg (§ "c1")) ∨ (i = 10 ∧ m = demo_msg (§ "c2")).
Proof.
  unfold demo_db_of. cbn [chat_messages]. intros H. apply lookup_insert_Some in H as [[<- <-] | [_ H]]; [by left |].
  apply lookup_singleton_Some in H as [<- <-]. by right.
Qed.

Lemma demo_db_inv res : db_inv (demo_db_of res).
Proof.
  split_and!.
  - split; [| intros uid s1 s2 e H; by rewrite demo_no_events in H].
    intros uid s. split; [intros [? H]; by rewrite demo_no_events in H |].
    intros (u & Hu & Hs). exfalso. unfold demo_db_of in Hu. cbn [users] in Hu.
    destruct (decide (uid = 1)) as [-> |]; [| destruct (decide (uid = 2)) as [-> |]].
    + rewrite lookup_insert_eq in Hu. simplify_eq. cbn in Hs. lia.
    + rewrite lookup_insert_ne, lookup_singleton_eq in Hu by done. simplify_eq. cbn in Hs. lia.
    + by rewrite lookup_insert_ne, lookup_singleton_ne in Hu by done.
  - intros mid m Hm r Hr. apply demo_messages in Hm.
    split; [by destruct Hm as [[_ ->] | [_ ->]] |]. intros [s Hs]. by rewrite demo_no_events in Hs.
  - intros uid s ty mid H. by rewrite demo_no_events in H.
  - split_and!.
    + intros i j m n Hm Hn _ Hc.
      apply demo_messages in Hm as [[-> ->] | [-> ->]], Hn as [[-> ->] | [-> ->]]; done.
    + unfold demo_db_of. cbn [next_id chat_messages private_chats friend_requests].
      intros i Hi. rewrite lookup_insert_ne, !lookup_singleton_ne by lia. done.
    + intros mid m Hm. apply demo_messages in Hm as [[_ ->] | [_ ->]]; by eexists.
    + intros u r Hr. unfold demo_db_of in Hr. cbn [users] in Hr. destruct (decide (u = 1)) as [-> |].
      * rewrite lookup_insert_eq in Hr. by simplify_eq.
      * rewrite lookup_insert_ne in Hr by done. apply lookup_singleton_Some in Hr as [_ <-]. done.
Qed.

