(* ===== verification/FileWorker.v ===== *)
(** * The upload worker (ResourceServer/src/FileWorker.cpp, class FileWorker)

    One worker thread owns the upload sessions of its messages. Chunks are
    written to [uploading/<id>.part]; the last one triggers the whole-file
    check, the installation of the content-addressed blob and the publication
    in the database. The closure of request 1507 (ResourceLogicWorker.cpp)
    runs on the same worker and hands out the challenge that
    [HandleInstantProof] consumes. The handlers are state-passing programs on
    the disk, the database and the worker's session table; every fallible
    call takes its outcome from the tape. The clock is read once per handler;
    times are nanoseconds. *)

From S2P Require Import Prelude ResourceWire ProtocolIds JsonFields Sha256 UploadFile Database ResourceDb.

(** ** State *)

Definition kSecond : Z := 1000000000.
Definition kSessionIdleTimeout : Z := 30 * 60 * kSecond.
Definition kInstantProofChallengeTtl : Z := 120 * kSecond.
Definition kUploadChunkSize : Z := kResourceChunkSize.

(** The challenge fields of [UploadSession]; connections are numbered, and
    [weak_ptr::lock] gives the requesting connection back exactly when it is
    the one stored. *)
Record challenge := Challenge {
  nonce_raw : bytes;
  ch_offset : Z;
  ch_length : Z;
  ch_active : bool;
  ch_session : option Z;
  ch_issued_at : Z;
  ch_suppressed : bool;
}.

Record UploadSession := Upload {
  file_size_bytes : Z;
  sha256_of : bytes;
  received : Z;
  sender_of : Z;
  recipient_id : Z;
  last_active : Z;
  whole_hash_mismatches : Z;
  hasher : Sha256Stream;
  hash_valid : bool;
  final_hex : bytes;
  chal : challenge;
}.

Definition set_received s r := Upload (file_size_bytes s) (sha256_of s) r (sender_of s)
  (recipient_id s) (last_active s) (whole_hash_mismatches s) (hasher s) (hash_valid s) (final_hex s) (chal s).
Definition set_last_active s now := Upload (file_size_bytes s) (sha256_of s) (received s) (sender_of s)
  (recipient_id s) now (whole_hash_mismatches s) (hasher s) (hash_valid s) (final_hex s) (chal s).
Definition set_mismatches s n := Upload (file_size_bytes s) (sha256_of s) (received s) (sender_of s)
  (recipient_id s) (last_active s) n (hasher s) (hash_valid s) (final_hex s) (chal s).
Definition set_hash s h v f := Upload (file_size_bytes s) (sha256_of s) (received s) (sender_of s)
  (recipient_id s) (last_active s) (whole_hash_mismatches s) h v f (chal s).
Definition set_chal s c := Upload (file_size_bytes s) (sha256_of s) (received s) (sender_of s)
  (recipient_id s) (last_active s) (whole_hash_mismatches s) (hasher s) (hash_valid s) (final_hex s) c.

Definition deactivate (c : challenge) : challenge :=
  Challenge (nonce_raw c) (ch_offset c) (ch_length c) false (ch_session c) (ch_issued_at c) (ch_suppressed c).
Definition suppress (c : challenge) : challenge :=
  Challenge (nonce_raw c) (ch_offset c) (ch_length c) (ch_active c) (ch_session c) (ch_issued_at c) true.

(** What the handlers of one worker see: the disk, the database, the session
    table, the replies sent (connection, message id, JSON) and the
    notifications posted (message, type, recipient). *)
Record worker := Worker {
  w_disk : disk;
  w_db : db;
  upload_sessions : gmap Z UploadSession;
  sent : list (Z * Z * json);
  notified : list (Z * Z * Z);
}.

Definition W (A : Type) : Type := worker → tape → A * worker * tape.
#[global] Instance W_ret : MRet W := λ A a w t, (a, w, t).
#[global] Instance W_bind : MBind W := λ A B k m w t, let '(a, w', t') := m w t in k a w' t'.

(** File-system and database code on a worker. *)
Definition io {A} (m : IO A) : W A := λ w t,
  let '(a, d, t') := m (w_disk w) t in
  (a, Worker d (w_db w) (upload_sessions w) (sent w) (notified w), t').
Definition dao {A} (m : Dao A) : W A := λ w t,
  let '(a, d, t') := m (w_db w) t in
  (a, Worker (w_disk w) d (upload_sessions w) (sent w) (notified w), t').

Definition update_sessions (f : gmap Z UploadSession → gmap Z UploadSession) : W unit := λ w t,
  (tt, Worker (w_disk w) (w_db w) (f (upload_sessions w)) (sent w) (notified w), t).
Definition put_session (mid : Z) (s : UploadSession) : W unit := update_sessions (<[mid := s]>).
Definition erase_session (mid : Z) : W unit := update_sessions (delete mid).

(** The callback of a task: a reply on its connection. *)
Definition send (conn msg_type : Z) (j : json) : W unit := λ w t,
  (tt, Worker (w_disk w) (w_db w) (upload_sessions w) (sent w ++ [(conn, msg_type, j)]) (notified w), t).

(** [UserMessageNotifier::Post] *)
Definition notify (mid ty recipient : Z) : W unit := λ w t,
  (tt, Worker (w_disk w) (w_db w) (upload_sessions w) (sent w) (notified w ++ [(mid, ty, recipient)]), t).

(** ** JSON of the replies *)

Definition jint (z : Z) : json := JInteger z.
Definition jtext (z : Z) : json := JString (ll_string z).

Definition ok_code : Z := CommonErrCode_code ERR_SUCCESS.
Definition rpc_failed : Z := CommonErrCode_code ERR_RPC_FAILED.
Definition rs (e : ResourceErrCode) : Z := ResourceErrCode_code e.
Definition st (s : MessageStatus) : Z := MessageStatus_code s.

(** The fields every 1506 reply carries. *)
Definition chunk_fields (error mid offset server_offset status : Z) : list (bytes * json) :=
  [(§ "error", jint error); (§ "message_id", jtext mid); (§ "offset", jtext offset);
   (§ "server_offset", jtext server_offset); (§ "status", jint status)].

Definition chunk_reply (error mid offset server_offset status event_seq : Z) : json :=
  JObject (chunk_fields error mid offset server_offset status ++
           (if 0 <? event_seq then [(§ "event_seq", jtext event_seq)] else [])).

Definition published_chunk_reply (mid offset server_offset event_seq : Z) : json :=
  JObject (chunk_fields ok_code mid offset server_offset (st Published) ++ [(§ "event_seq", jtext event_seq)]).

Definition proof_error (error mid status : Z) : json :=
  JObject [(§ "error", jint error); (§ "message_id", jtext mid); (§ "status", jint status)].

Definition proof_success (mid size event_seq : Z) : json :=
  JObject [(§ "error", jint ok_code); (§ "message_id", jtext mid); (§ "status", jint (st Published));
           (§ "server_offset", jtext size); (§ "event_seq", jtext event_seq)].

Definition progress_error (mid error : Z) (status : option Z) : json :=
  JObject ([(§ "message_id", jtext mid); (§ "error", jint error)] ++
           match status with Some s => [(§ "status", jint s)] | None => [] end).

Definition progress_success (mid server_offset size status : Z) (sha : bytes) (event_seq : Z) : json :=
  JObject ([(§ "message_id", jtext mid); (§ "error", jint ok_code); (§ "server_offset", jtext server_offset);
            (§ "file_size_bytes", jtext size); (§ "status", jint status); (§ "sha256", JString sha);
            (§ "chunk_size", jtext kUploadChunkSize)] ++
           (if 0 <? event_seq then [(§ "event_seq", jtext event_seq)] else [])).

Definition progress_challenge (mid size : Z) (sha nonce_hex : bytes) (offset length : Z) : json :=
  JObject [(§ "message_id", jtext mid); (§ "error", jint ok_code); (§ "mode", JString (§ "proof"));
           (§ "server_offset", jtext 0); (§ "file_size_bytes", jtext size);
           (§ "status", jint (st Pending)); (§ "sha256", JString sha);
           (§ "chunk_size", jtext kUploadChunkSize);
           (§ "challenge", JObject [(§ "nonce", JString nonce_hex); (§ "offset", jtext offset);
                                    (§ "length", jtext length)])].

(** ** More file operations *)

(** [boost::filesystem::remove] with an error code: true unless it is set.
    A directory goes only when it is empty. *)
Definition empty_dir (d : disk) (p : path) : bool :=
  bool_decide (set_Forall (λ q, parent_path q ≠ p) (dom (names d))) &&
  bool_decide (set_Forall (λ q, parent_path q ≠ p) (dirs d)).

Definition remove_dir (d : disk) (p : path) : disk :=
  Disk (names d) (inodes d) (dirs d ∖ {[p]}) (synced d ∖ {[parent_path p]}) (flushed d).

Definition remove (p : path) : IO bool :=
  o ← syscall;
  d ← get;
  if negb (io_ok o) then mret false
  else match names d !! p with
       | Some _ => put (del_name d p);; mret true
       | None =>
           if bool_decide (p ∈ dirs d) then
             if empty_dir d p then put (remove_dir d p);; mret true else mret false
           else mret true
       end.

(** [boost::filesystem::copy_file]: an existing target is an error, a failed
    write leaves a part of the copy behind. *)
Definition copy_file (from to : path) : IO bool :=
  o ← syscall;
  d ← get;
  match (if io_ok o then content d from else None) with
  | None => mret false
  | Some f =>
      if bool_decide (is_Some (names d !! to)) || bool_decide (to ∈ dirs d) ||
         negb (bool_decide (parent_path to ∈ dirs d)) then mret false
      else
        let d1 := create_file d to in
        let i := fresh (dom (inodes d)) in
        w ← syscall;
        match w with
        | IoOk => put (set_bytes d1 i f);; mret true
        | IoFail k => put (set_bytes d1 i (take k f));; mret false
        end
  end.

(** [file_size(path, ec)]; [None] is an error. *)
Definition file_size (p : path) : IO (option Z) :=
  o ← syscall;
  d ← get;
  mret (if io_ok o then option_map zlen (content d p) else None).

(** An [ifstream] that reads [len] bytes at an offset: [None] if it does not open. *)
Definition read_section (p : path) (offset len : Z) : IO (option bytes) :=
  o ← syscall;
  d ← get;
  match (if io_ok o then content d p else None) with
  | None => mret None
  | Some f => r ← syscall; mret (Some (read_range f offset len r))
  end.

Section file_worker.
  Context `{Sha256Lib} (root : path).

Definition UploadingPartPath (mid : Z) : path := ResourceUploadingPartPath root mid.
Definition BlobPathOf (sha : bytes) : path := ResourceBlobPath root sha.
Definition DiskFileLength (p : path) : IO (option Z) := ReadLength p.

(** [Sha256FileHex] of a path. *)
Definition hash_file (p : path) : IO bytes :=
  o ← syscall;
  d ← get;
  with_tape (Sha256FileHex (if io_ok o then content d p else None)).

Definition RemoveStubPart (mid : Z) : W unit := io (remove (UploadingPartPath mid));; mret tt.

(** ** The session table *)

Definition FindUploadSession (now mid : Z) : W (option UploadSession) := λ w t,
  match upload_sessions w !! mid with
  | None => (None, w, t)
  | Some s => let s := set_last_active s now in
              let '(_, w', t') := put_session mid s w t in (Some s, w', t')
  end.

Definition no_challenge : challenge := Challenge [] 0 0 false None 0 false.

Definition LoadUploadSession (now mid : Z) (msg : ChatMessage) : W (option UploadSession) :=
  h ← io (with_tape Init);
  r ← io (RecoverUploadFile (UploadingPartPath mid) (r_size (resource msg)) kUploadChunkSize);
  match r with
  | None => mret None
  | Some r =>
      let s := Upload (r_size (resource msg)) (r_sha (resource msg)) r (sender_user_id msg)
                 (recipient_user_id msg) now 0 h (r =? 0) [] no_challenge in
      put_session mid s;; mret (Some s)
  end.

Definition idle (now : Z) (s : UploadSession) : bool := kSessionIdleTimeout <? now - last_active s.

Definition EvictIdleUploadSessions (now : Z) : W unit :=
  update_sessions (filter (λ p, idle now p.2 = false)).

Definition EvictUploadSession (mid : Z) : W unit := erase_session mid.

(** ** The completion of an upload *)

(** The digest of the whole file: streamed, recomputed or cached. *)
Definition whole_hash (mid : Z) (s : UploadSession) : W UploadSession :=
  if negb (bool_decide (final_hex s = [])) then mret s
  else
    s ← (if hash_valid s then
           '(hex, h) ← io (with_tape (λ t, let '(hex, h, t) := FinalHex (hasher s) t in ((hex, h), t)));
           mret (set_hash s h (hash_valid s) hex)
         else mret s);
    s ← (if bool_decide (final_hex s = []) then
           hex ← io (hash_file (UploadingPartPath mid)); mret (set_hash s (hasher s) (hash_valid s) hex)
         else mret s);
    put_session mid s;; mret s.

(** [restore_part_after_publish_failure]: the offset to report. *)
Definition restore_part (mid : Z) (s : UploadSession) : W Z :=
  let part := UploadingPartPath mid in
  let base := BlobPathOf (sha256_of s) in
  let expected := received s in
  let fall_back : W Z :=
    r ← io (RecoverUploadFile part (file_size_bytes s) kUploadChunkSize);
    erase_session mid;;
    mret (default 0 r) in
  part_len ← io (DiskFileLength part);
  if bool_decide (part_len = Some expected) then mret expected
  else
    base_len ← io (DiskFileLength base);
    if bool_decide (base_len = Some expected) then
      removed ← io (remove part);
      copied ← io (copy_file base part);
      (if (removed : bool) && (copied : bool) then
         copied_len ← io (DiskFileLength part);
         if bool_decide (copied_len = Some expected) then mret expected else fall_back
       else fall_back)
    else fall_back.

(** A digest that does not match: start over, or give up the third time. *)
Definition hash_mismatch (conn mid offset : Z) (s : UploadSession) : W unit :=
  let part := UploadingPartPath mid in
  let respond_pending error server_offset :=
    send conn (MsgId_code MSG_RESOURCE_CHUNK_UPLOAD_RSP)
      (chunk_reply error mid offset server_offset (st Pending) 0) in
  let s := set_mismatches s (whole_hash_mismatches s + 1) in
  put_session mid s;;
  if 3 <=? whole_hash_mismatches s then
    marked ← dao (MarkResourceFailed mid);
    if negb marked then respond_pending rpc_failed (received s)
    else
      io (remove part);;
      erase_session mid;;
      send conn (MsgId_code MSG_RESOURCE_CHUNK_UPLOAD_RSP)
        (chunk_reply (rs RS_RESOURCE_STATE_INVALID) mid offset 0 (st Failed) 0)
  else
    removed ← io (remove part);
    if negb removed then respond_pending (rs RS_FILE_WRITE_PERMISSION) (received s)
    else
      h ← io (with_tape (Reset (hasher s)));
      put_session mid (set_hash (set_received s 0) h true []);;
      respond_pending (rs RS_FILE_CONTENT_MISMATCH) 0.

(** Installing the blob: an existing one must have the right length and
    digest and be flushed; [false] is the failure of any step. *)
Definition install_blob (mid : Z) (s : UploadSession) : W bool :=
  let part := UploadingPartPath mid in
  let base := BlobPathOf (sha256_of s) in
  ready ← io (EnsureDirectoryDurable (parent_path base));
  if negb ready then mret false
  else
    '(renamed, dedup_hit) ← io (DurableRename part base false true);
    if negb renamed then mret false
    else if (dedup_hit : bool) then
      existing_len ← io (DiskFileLength base);
      let len_ok := bool_decide (existing_len = Some (file_size_bytes s)) in
      hex_ok ← (if len_ok then hex ← io (hash_file base); mret (bool_decide (hex = sha256_of s))
                else mret false);
      (if negb len_ok || negb hex_ok then mret false
       else
         flushed ← io (FlushFileToDisk base);
         if negb flushed then mret false
         else io (remove part);; mret true)
    else mret true.

(** The critical section of the CAS/GC mutex; [None] when it has replied. *)
Definition publish_section (conn mid offset : Z) (s : UploadSession) : W (option (Z * ChatMessage)) :=
  let respond_pending error :=
    off ← restore_part mid s;
    send conn (MsgId_code MSG_RESOURCE_CHUNK_UPLOAD_RSP)
      (chunk_reply error mid offset off (st Pending) 0);;
    mret None in
  let respond_final error :=
    erase_session mid;;
    send conn (MsgId_code MSG_RESOURCE_CHUNK_UPLOAD_RSP)
      (chunk_reply error mid offset 0 (st Failed) 0);;
    mret None in
  installed ← install_blob mid s;
  if negb installed then respond_pending (rs RS_FILE_WRITE_PERMISSION)
  else
    lookup ← dao (GetChatMsgById mid);
    match lookup with
    | LkNotFound => respond_final (rs RS_MSG_ID_ERR)
    | LkTransient => respond_pending rpc_failed
    | LkFound canonical =>
        '(rc, event_seq) ← dao (ResourceDb.CompleteResourceUpload mid (sender_user_id canonical));
        match rc with
        | PubPublished | PubAlreadyPublished => mret (Some (event_seq, canonical))
        | PubNotPending => respond_final (rs RS_RESOURCE_STATE_INVALID)
        | PubNotFound => respond_final (rs RS_MSG_ID_ERR)
        | PubTransient => respond_pending rpc_failed
        end
    end.

Definition CompleteResourceUpload (conn mid offset : Z) (s : UploadSession) : W unit :=
  let part := UploadingPartPath mid in
  let respond_pending error server_offset :=
    send conn (MsgId_code MSG_RESOURCE_CHUNK_UPLOAD_RSP)
      (chunk_reply error mid offset server_offset (st Pending) 0) in
  s ← whole_hash mid s;
  if bool_decide (final_hex s = []) then respond_pending (rs RS_FILE_READ_FAILED) (received s)
  else if negb (bool_decide (final_hex s = sha256_of s)) then hash_mismatch conn mid offset s
  else
    ok ← io (FlushFileToDisk part);
    if negb ok then respond_pending (rs RS_FILE_WRITE_PERMISSION) (received s)
    else
      published ← publish_section conn mid offset s;
      match published with
      | None => mret tt
      | Some (event_seq, canonical) =>
          erase_session mid;;
          send conn (MsgId_code MSG_RESOURCE_CHUNK_UPLOAD_RSP)
            (published_chunk_reply mid offset (received s) event_seq);;
          notify mid (message_type canonical) (recipient_user_id canonical)
      end.

(** ** Request 1505 *)

(** The session of a message that is not cached; [None] when it has replied. *)
Definition open_session (now conn uid mid : Z) (offset : Z) : W (option UploadSession) :=
  let respond error server_offset status event_seq :=
    send conn (MsgId_code MSG_RESOURCE_CHUNK_UPLOAD_RSP)
      (chunk_reply error mid offset server_offset status event_seq);; mret None in
  lookup ← dao (GetChatMsgById mid);
  match lookup with
  | LkNotFound => respond (rs RS_MSG_ID_ERR) 0 (-1) 0
  | LkTransient => respond rpc_failed 0 (-1) 0
  | LkFound msg =>
      if (uid =? 0) || negb (uid =? sender_user_id msg) then respond (rs RS_RESOURCE_FORBIDDEN) 0 (-1) 0
      else if negb (message_type msg =? PIC) && negb (message_type msg =? FILE) then
        respond (rs RS_RESOURCE_STATE_INVALID) 0 (-1) 0
      else match status msg with
      | Published => respond ok_code (r_size (resource msg)) (st Published) (event_seq msg)
      | Failed => respond (rs RS_RESOURCE_STATE_INVALID) 0 (st Failed) 0
      | Pending =>
          s ← LoadUploadSession now mid msg;
          match s with
          | None => respond rpc_failed 0 (-1) 0
          | Some s => mret (Some s)
          end
      end
  end.

(** Writing the chunk and what follows from it; [offset] is the [long long]
    of the task. *)
Definition write_chunk (conn mid offset : Z) (chunk_sha256 data : bytes) (s : UploadSession) : W unit :=
  let respond error server_offset status :=
    send conn (MsgId_code MSG_RESOURCE_CHUNK_UPLOAD_RSP)
      (chunk_reply error mid offset server_offset status 0) in
  let s := set_chal s (suppress (deactivate (chal s))) in
  let received_before := received s in
  '(error, r) ← io (WriteUploadChunk (UploadingPartPath mid) (file_size_bytes s) kUploadChunkSize
                      (u64 offset) data chunk_sha256 (received s));
  let s := set_received s r in
  if negb (error =? ok_code) then
    put_session mid (set_hash s (hasher s) false []);;
    respond error (received s) (-1)
  else
    s ← (if (u64 offset =? received_before) && hash_valid s then
           '(ok, h) ← io (with_tape (λ t, let '(ok, h, t) := Update (hasher s) data t in ((ok, h), t)));
           mret (set_hash s h ok (final_hex s))
         else mret s);
    put_session mid s;;
    if received s =? file_size_bytes s then CompleteResourceUpload conn mid offset s
    else respond ok_code (received s) (st Pending).

(** [session_open] is [_session->IsOpen()] when the task starts. *)
Definition HandleResourceChunk (now conn uid mid offset : Z) (session_open : bool)
    (chunk_sha256 data : bytes) : W unit :=
  if negb session_open then mret tt
  else
    EvictIdleUploadSessions now;;
    cached ← FindUploadSession now mid;
    s ← match cached with
        | Some s => mret (Some s)
        | None => open_session now conn uid mid offset
        end;
    match s with
    | None => mret tt
    | Some s =>
        if (uid =? 0) || negb (uid =? sender_of s) then
          send conn (MsgId_code MSG_RESOURCE_CHUNK_UPLOAD_RSP)
            (chunk_reply (rs RS_RESOURCE_FORBIDDEN) mid offset 0 (-1) 0)
        else write_chunk conn mid offset chunk_sha256 data s
    end.

(** ** Request 1513 *)

(** The check of the proof and the publication, under the CAS/GC mutex; the
    event number, or [None] when it has replied. *)
Definition proof_section (conn mid : Z) (msg : ChatMessage) (proof_hex : bytes) (s : UploadSession)
  : W (option Z) :=
  let fail error status :=
    send conn (MsgId_code MSG_RESOURCE_INSTANT_PROOF_RSP) (proof_error error mid status);; mret None in
  let suppressed error :=
    put_session mid (set_chal s (suppress (chal s)));; fail error (st Pending) in
  section ← io (read_section (BlobPathOf (r_sha (resource msg))) (ch_offset (chal s)) (ch_length (chal s)));
  match section with
  | None => suppressed (rs RS_INSTANT_PROOF_INVALID)
  | Some section =>
      if negb (zlen section =? ch_length (chal s)) then suppressed (rs RS_FILE_READ_FAILED)
      else
        expect ← io (with_tape (Sha256Hex (nonce_raw (chal s) ++ section)));
        if negb (zlen expect =? 64) then suppressed rpc_failed
        else if negb (ConstantTimeEquals (Some expect) (Some proof_hex) (zlen expect)) then
          suppressed (rs RS_INSTANT_PROOF_INVALID)
        else
          '(rc, event_seq) ← dao (ResourceDb.CompleteResourceUpload mid (sender_user_id msg));
          match rc with
          | PubPublished | PubAlreadyPublished => mret (Some event_seq)
          | PubNotPending => erase_session mid;; fail (rs RS_RESOURCE_STATE_INVALID) (st Failed)
          | PubNotFound => erase_session mid;; fail (rs RS_MSG_ID_ERR) (st Failed)
          | PubTransient => fail rpc_failed (st Pending)
          end
  end.

(** The challenge of the session is one this connection may answer now. *)
Definition challenge_usable (now conn : Z) (c : challenge) : bool :=
  ch_active c && negb (kInstantProofChallengeTtl <? now - ch_issued_at c) &&
  bool_decide (ch_session c = Some conn).

Definition HandleInstantProof (now conn req_uid mid : Z) (proof_hex : bytes) : W unit :=
  let respond j := send conn (MsgId_code MSG_RESOURCE_INSTANT_PROOF_RSP) j in
  let fail_proof error status := respond (proof_error error mid status) in
  lookup ← dao (GetChatMsgById mid);
  match lookup with
  | LkNotFound => erase_session mid;; fail_proof (rs RS_MSG_ID_ERR) (st Failed)
  | LkTransient => fail_proof rpc_failed (st Pending)
  | LkFound msg =>
      if (req_uid =? 0) || negb (req_uid =? sender_user_id msg) then
        fail_proof (rs RS_RESOURCE_FORBIDDEN) (st (status msg))
      else match status msg with
      | Published =>
          erase_session mid;; RemoveStubPart mid;;
          respond (proof_success mid (r_size (resource msg)) (event_seq msg))
      | Failed => erase_session mid;; fail_proof (rs RS_RESOURCE_STATE_INVALID) (st Failed)
      | Pending =>
          w ← (λ w t, (upload_sessions w !! mid, w, t));
          match w with
          | None => fail_proof (rs RS_INSTANT_PROOF_INVALID) (st Pending)
          | Some s =>
              if negb (challenge_usable now conn (chal s)) then
                fail_proof (rs RS_INSTANT_PROOF_INVALID) (st Pending)
              else
                let s := set_chal s (deactivate (chal s)) in
                if negb (IsValidSha256Hex proof_hex) then
                  put_session mid (set_chal s (suppress (chal s)));;
                  fail_proof (rs RS_INSTANT_PROOF_INVALID) (st Pending)
                else
                  put_session mid s;;
                  proved ← proof_section conn mid msg proof_hex s;
                  match proved with
                  | None => mret tt
                  | Some event_seq =>
                      erase_session mid;; RemoveStubPart mid;;
                      respond (proof_success mid (r_size (resource msg)) event_seq);;
                      notify mid (message_type msg) (recipient_user_id msg)
                  end
          end
      end
  end.

(** ** Request 1507 (the closure of handleResourceUploadProgress) *)

(** Eight random bytes as a number. *)
Definition rand64_of (off_raw : bytes) : Z :=
  fold_left (λ acc b, u64 (Z.lor (Z.shiftl acc 8) (bval b))) off_raw 0.

(** Section and nonce of a new challenge, if both random reads succeed. *)
Definition new_challenge (entropy : bytes) (now conn size : Z) : tape → option challenge * tape := λ t,
  let length := if size <? 64 * 1024 then size else 64 * 1024 in
  match RandomBytes (ztake 16 entropy) false 16 t with
  | (None, t) => (None, t)
  | (Some nonce, t) =>
      match RandomBytes (zslice entropy 16 8) false 8 t with
      | (None, t) => (None, t)
      | (Some off_raw, t) =>
          let offset := if size <=? length then 0 else rand64_of off_raw mod (size - length + 1) in
          (Some (Challenge nonce offset length true (Some conn) now false), t)
      end
  end.

(** Whether the sender may prove possession instead of uploading; [None] is
    a transient failure of the database. *)
Definition instant_hit (uid : Z) (res : res_row) : W (option bool) :=
  published ← dao (SenderHasPublishedContent uid (r_sha res) (r_size res));
  match published with
  | TriTransient => mret None
  | TriNo => mret (Some false)
  | TriYes =>
      n ← io (file_size (BlobPathOf (r_sha res)));
      mret (Some (bool_decide (n = Some (r_size res))))
  end.

(** The Pending case once the session is there; [entropy] is what the random
    source delivers. *)
Definition pending_progress (entropy : bytes) (now conn uid mid : Z) (msg : ChatMessage) (s : UploadSession)
  : W unit :=
  let respond j := send conn (MsgId_code MSG_RESOURCE_UPLOAD_PROGRESS_RSP) j in
  let res := resource msg in
  let progress :=
    respond (progress_success mid (received s) (r_size res) (st Pending) (r_sha res) (event_seq msg)) in
  if negb (received s =? 0) || ch_suppressed (chal s) || (r_size res <=? 0) then progress
  else
    hit ← instant_hit uid res;
    match hit with
    | None => respond (progress_error mid rpc_failed (Some (st Pending)))
    | Some false => progress
    | Some true =>
        c ← io (with_tape (new_challenge entropy now conn (r_size res)));
        match c with
        | None => progress
        | Some c =>
            put_session mid (set_chal s c);;
            respond (progress_challenge mid (r_size res) (r_sha res) (ToLowerHex (nonce_raw c))
                       (ch_offset c) (ch_length c))
        end
    end.

Definition UploadProgress (entropy : bytes) (now conn uid mid : Z) : W unit :=
  let respond j := send conn (MsgId_code MSG_RESOURCE_UPLOAD_PROGRESS_RSP) j in
  lookup ← dao (GetChatMsgById mid);
  match lookup with
  | LkNotFound => respond (progress_error mid (rs RS_MSG_ID_ERR) None)
  | LkTransient => respond (progress_error mid rpc_failed None)
  | LkFound msg =>
      if (uid =? 0) || negb (uid =? sender_user_id msg) then
        respond (progress_error mid (rs RS_RESOURCE_FORBIDDEN) None)
      else if negb (message_type msg =? PIC) && negb (message_type msg =? FILE) then
        respond (progress_error mid (rs RS_RESOURCE_STATE_INVALID) None)
      else match status msg with
      | Published =>
          let res := resource msg in
          respond (progress_success mid (r_size res) (r_size res) (st Published) (r_sha res) (event_seq msg))
      | Failed =>
          EvictUploadSession mid;;
          respond (progress_error mid (rs RS_RESOURCE_STATE_INVALID) (Some (st Failed)))
      | Pending =>
          cached ← FindUploadSession now mid;
          s ← match cached with Some s => mret (Some s) | None => LoadUploadSession now mid msg end;
          match s with
          | None => respond (progress_error mid (rs RS_FILE_WRITE_PERMISSION) None)
          | Some s => pending_progress entropy now conn uid mid msg s
          end
      end
  end.
End file_worker.
