(* ===== verification/FileWorkerProofs.v ===== *)
(** * The upload worker keeps published content safe

    The invariant of a worker: every published resource message is backed by
    a blob with the declared size and digest, and every session agrees with
    its database row and its partial file. The lemmas follow the calls of
    FileWorker.cpp; the theorems are about whole requests. *)

From S2P Require Import Prelude ResourceWire ProtocolIds JsonFields Sha256 UploadFile Database ResourceDb FileWorker.

#[local] Arguments zlen {_} _ : simpl never.
#[local] Arguments ztake {_} _ _ : simpl never.

(** ** Inversion of the monad *)

Lemma W_bind_inv {A B} (m : W A) (k : A → W B) w t b w2 t2 :
  (m ≫= k) w t = (b, w2, t2) → ∃ a w1 t1, m w t = (a, w1, t1) ∧ k a w1 t1 = (b, w2, t2).
Proof.
  unfold mbind, W_bind. destruct (m w t) as [[a w1] t1] eqn:E. intros Hk. by exists a, w1, t1.
Qed.

Lemma IO_bind_inv {A B} (m : IO A) (k : A → IO B) d t b d2 t2 :
  (m ≫= k) d t = (b, d2, t2) → ∃ a d1 t1, m d t = (a, d1, t1) ∧ k a d1 t1 = (b, d2, t2).
Proof.
  unfold mbind, IO_bind. destruct (m d t) as [[a d1] t1] eqn:E. intros Hk. by exists a, d1, t1.
Qed.

Definition with_disk (w : worker) (d : disk) : worker :=
  Worker d (w_db w) (upload_sessions w) (sent w) (notified w).
Definition with_db (w : worker) (d : db) : worker :=
  Worker (w_disk w) d (upload_sessions w) (sent w) (notified w).

Lemma io_inv {A} (m : IO A) w t a w' t' :
  io m w t = (a, w', t') → ∃ d', m (w_disk w) t = (a, d', t') ∧ w' = with_disk w d'.
Proof. unfold io. destruct (m (w_disk w) t) as [[a0 d] t0]. intros [= <- <- <-]. by exists d. Qed.

Lemma dao_inv {A} (m : Dao A) w t a w' t' :
  dao m w t = (a, w', t') → ∃ d', m (w_db w) t = (a, d', t') ∧ w' = with_db w d'.
Proof. unfold dao. destruct (m (w_db w) t) as [[a0 d] t0]. intros [= <- <- <-]. by exists d. Qed.

Ltac wbind H a w1 t1 H1 := apply W_bind_inv in H as (a & w1 & t1 & H1 & H).
Ltac iobind H a d1 t1 H1 := apply IO_bind_inv in H as (a & d1 & t1 & H1 & H).
Ltac wret H := unfold mret, W_ret, IO_ret in H; simplify_eq.

(** ** Paths of the store *)

Lemma to_string_inj n m : 0 <= n → 0 <= m → to_string n = to_string m → n = m.
Proof.
  intros Hn Hm He. destruct (to_string_spec n Hn) as (_ & _ & <-), (to_string_spec m Hm) as (_ & _ & <-).
  by rewrite He.
Qed.

Section proofs.
  Context `{Sha256Lib} (root : path).
  Abbreviation Part := (UploadingPartPath root).
  Abbreviation Blob := (BlobPathOf root).

Lemma part_blob_ne mid sha : Part mid ≠ Blob sha.
Proof.
  intros He. apply (f_equal (length ∘ rcomps)) in He. cbn in He. lia.
Qed.

Lemma part_inj m n : 0 < m → 0 < n → Part m = Part n → m = n.
Proof.
  intros Hm Hn He. apply (f_equal rcomps) in He. cbn in He. injection He as He.
  apply app_inv_tail in He. unfold ll_string in He.
  rewrite !(proj2 (Z.ltb_ge _ _)) in He by lia. apply to_string_inj; lia || done.
Qed.

Lemma blob_inj s1 s2 : Blob s1 = Blob s2 → s1 = s2.
Proof. intros He. by injection He. Qed.

(** ** The invariant *)

(** The blob of a digest holds [size] bytes with that digest. *)
Definition backed (d : disk) (sha : bytes) (size : Z) : Prop :=
  ∃ f, content d (Blob sha) = Some f ∧ zlen f = size ∧ ToLowerHex (sha256 f) = sha.

Definition published_backed (d : disk) (b : db) : Prop :=
  ∀ mid m res, chat_messages b !! mid = Some m → m_status m = Published →
    message_resources b !! mid = Some res → backed d (r_sha res) (r_size res).

(** Some published message has this content. *)
Definition published_content (b : db) (sha : bytes) (size : Z) : Prop :=
  ∃ mid m res, chat_messages b !! mid = Some m ∧ m_status m = Published ∧
    message_resources b !! mid = Some res ∧ r_sha res = sha ∧ r_size res = size.

(** Keys and sizes are positive ([AUTO_INCREMENT], [chk_message_resources_size]). *)
Definition rows_positive (b : db) : Prop :=
  (∀ mid m, chat_messages b !! mid = Some m → 0 < mid) ∧
  (∀ mid res, message_resources b !! mid = Some res → 0 < r_size res).

(** The session agrees with the rows of its message. *)
Definition session_row (b : db) (mid : Z) (s : UploadSession) : Prop :=
  ∃ m res, chat_messages b !! mid = Some m ∧ message_resources b !! mid = Some res ∧
    file_size_bytes s = r_size res ∧ sha256_of s = r_sha res ∧ sender_of s = m_sender m.

Definition session_ok (d : disk) (b : db) (mid : Z) (s : UploadSession) : Prop :=
  session_row b mid s ∧
  part_ok d (Part mid) (file_size_bytes s) kUploadChunkSize (received s) ∧
  (ch_active (chal s) = true → published_content b (sha256_of s) (file_size_bytes s)).

(** The streamed and the cached digest are those of the partial file. *)
Definition hash_ok (d : disk) (mid : Z) (s : UploadSession) : Prop :=
  (hash_valid s = true →
     (∀ a, ctx (hasher s) = Some a → a = ztake (received s) (part_bytes d (Part mid))) ∧
     (final_hex s = [] → final (hasher s) = [])) ∧
  (final_hex s ≠ [] → received s = file_size_bytes s ∧
     final_hex s = ToLowerHex (sha256 (part_bytes d (Part mid)))).

(** A partial file has no second name. *)
Definition private (d : disk) (p : path) : Prop := ∀ q, q ≠ p → ¬ aliases d p q.
Definition parts_private (d : disk) : Prop := ∀ mid, private d (Part mid).

Definition worker_ok (w : worker) : Prop :=
  disk_wf (w_disk w) ∧ db_inv (w_db w) ∧ rows_positive (w_db w) ∧
  published_backed (w_disk w) (w_db w) ∧
  map_Forall (session_ok (w_disk w) (w_db w)) (upload_sessions w).

Definition worker_trusted (w : worker) : Prop :=
  parts_private (w_disk w) ∧ map_Forall (hash_ok (w_disk w)) (upload_sessions w).

(** ** What a step may change *)

(** Blobs stay as they are. *)
Definition blobs_kept (d d' : disk) : Prop :=
  ∀ sha f, content d (Blob sha) = Some f → content d' (Blob sha) = Some f.

(** The other partial files stay as they are. *)
Definition parts_kept (mid : Z) (d d' : disk) : Prop :=
  ∀ n, Part n ≠ Part mid → part_bytes d' (Part n) = part_bytes d (Part n).

Lemma backed_kept d d' sha size : blobs_kept d d' → backed d sha size → backed d' sha size.
Proof. intros Hk (f & Hf & Hr). exists f. split; [by apply Hk | done]. Qed.

Lemma published_backed_kept d d' b : blobs_kept d d' → published_backed d b → published_backed d' b.
Proof. intros Hk Hp mid m res Hm Hst Hr. eapply backed_kept; [done | by eapply Hp]. Qed.

Lemma blobs_kept_trans d d1 d2 : blobs_kept d d1 → blobs_kept d1 d2 → blobs_kept d d2.
Proof. unfold blobs_kept. auto. Qed.

Lemma parts_kept_trans mid d d1 d2 : parts_kept mid d d1 → parts_kept mid d1 d2 → parts_kept mid d d2.
Proof. intros H1 H2 n Hn. by rewrite H2, H1. Qed.

(** Writing through a private partial file. *)
Lemma writes_only_kept mid d d' :
  writes_only (Part mid) d d' → private d (Part mid) →
  blobs_kept d d' ∧ parts_kept mid d d' ∧ private d' (Part mid).
Proof.
  intros (Hn & Ha & Hc) Hp. split_and!.
  - intros sha f Hf. rewrite Hc; [done | by apply not_eq_sym, part_blob_ne | by apply Hp, not_eq_sym, part_blob_ne].
  - intros n Hne. unfold part_bytes. rewrite Hc; [done | done | by apply Hp].
  - intros q Hq Hal. by apply (Hp q Hq), Ha.
Qed.

Lemma writes_only_private mid d d' :
  writes_only (Part mid) d d' → parts_private d → parts_private d'.
Proof.
  intros Hw Hp n q Hq (i & Hi & Hi'). destruct (decide (Part n = Part mid)) as [He |].
  - destruct (writes_only_kept _ _ _ Hw (Hp mid)) as (_ & _ & Hpr). rewrite He in *. apply (Hpr q Hq). by exists i.
  - destruct Hw as (Hn & Ha & _). rewrite Hn in Hi by done.
    destruct (decide (q = Part mid)) as [-> |].
    + apply (Hp mid (Part n)); [done |]. apply Ha; [done |]. exists i. split; [done | by rewrite Hn].
    + rewrite Hn in Hi' by done. apply (Hp n q Hq). by exists i.
Qed.

(** Two names of one partial file and of one blob. *)
Lemma part_bytes_path d p q : p = q → part_bytes d p = part_bytes d q.
Proof. by intros ->. Qed.

(** *** File operations *)

Ltac unchanged := intros [= <- <- <-]; split_and!; first [done | by left].

Lemma remove_spec p d t b d' t' :
  remove p d t = (b, d', t') →
  (disk_wf d → disk_wf d') ∧ inodes d' = inodes d ∧ flushed d' = flushed d ∧
  (names d' = names d ∨ names d' = delete p (names d)) ∧ synced d ∖ {[parent_path p]} ⊆ synced d' ∧
  (if b then names d' !! p = None else d' = d).
Proof.
  unfold remove, mbind, IO_bind, mret, IO_ret, syscall, get, put. destruct (tape_next t) as [o t1].
  destruct (io_ok o); cbn [negb]; [| by intros [= <- <- <-]; split_and!; auto; clear; set_solver].
  destruct (names d !! p) as [i |] eqn:Ep.
  - intros [= <- <- <-]. cbn. split_and!; auto; try (by rewrite lookup_delete_eq).
    intros Hw q j. cbn. intros [_ Hq]%lookup_delete_Some. by apply (Hw q j).
  - destruct (bool_decide _); [| by intros [= <- <- <-]; split_and!; auto; clear; set_solver].
    destruct (empty_dir d p); intros [= <- <- <-]; split_and!; auto; clear; set_solver.
Qed.

Lemma remove_writes_only p d t b d' t' : remove p d t = (b, d', t') → writes_only p d d'.
Proof.
  intros Hr. apply remove_spec in Hr as (_ & Hi & _ & Hn & _ & _).
  destruct Hn as [Hn | Hn]; [apply (same_files d d' p Hn Hi) |].
  split_and!.
  - intros q Hq. rewrite Hn. by rewrite lookup_delete_ne.
  - intros q Hq (i & Hi' & _). by rewrite Hn, lookup_delete_eq in Hi'.
  - intros q Hq _. unfold content. rewrite Hn, Hi. by rewrite lookup_delete_ne.
Qed.

Lemma copy_file_spec p q d t b d' t' :
  disk_wf d → copy_file p q d t = (b, d', t') →
  disk_wf d' ∧ writes_only q d d' ∧ flushed d' ⊆ flushed d ∧
  (d' = d ∧ b = false ∨
   ∃ f k, content d p = Some f ∧ part_bytes d' q = take k f ∧ (b = true → take k f = f)).
Proof.
  intros Hw. unfold copy_file, mbind, IO_bind, mret, IO_ret, syscall, get, put.
  destruct (tape_next t) as [o t1].
  destruct (if io_ok o then content d p else None) as [f |] eqn:Ef; [| unchanged].
  assert (Hf : content d p = Some f) by (by destruct (io_ok o)).
  destruct (_ || _ || _) eqn:E; [unchanged |].
  apply orb_false_elim in E as [[E _]%orb_false_elim _]. apply bool_decide_eq_false in E.
  assert (Hq : names d !! q = None) by (by apply eq_None_not_Some).
  destruct (create_file_spec d q Hw Hq) as (Hw1 & Hn1 & Hi1 & Hwo1).
  set (i := fresh (dom (inodes d))) in *.
  assert (Hset : ∀ g, disk_wf (set_bytes (create_file d q) i g) ∧
    writes_only q d (set_bytes (create_file d q) i g) ∧
    flushed (set_bytes (create_file d q) i g) ⊆ flushed d ∧
    part_bytes (set_bytes (create_file d q) i g) q = g).
  { intros g. split_and!; [by apply set_bytes_wf | | | by apply part_bytes_set_bytes].
    - eapply writes_only_trans; [exact Hwo1 | by apply set_bytes_writes_only].
    - cbn. clear. set_solver. }
  destruct (tape_next t1) as [w t2]. destruct w as [| k]; intros [= <- <- <-].
  - destruct (Hset f) as (? & ? & ? & ?). split_and!; try done. right.
    exists f, (length f). by rewrite firstn_all.
  - destruct (Hset (take k f)) as (? & ? & ? & ?). split_and!; try done. right. by exists f, k.
Qed.

Lemma hash_file_spec p d t h d' t' :
  hash_file p d t = (h, d', t') →
  d' = d ∧ (h = [] ∨ ∃ f, content d p = Some f ∧ h = ToLowerHex (sha256 f)).
Proof.
  unfold hash_file, with_tape, mbind, IO_bind, mret, IO_ret, syscall, get.
  destruct (tape_next t) as [o t1].
  destruct (Sha256FileHex _ t1) as [h0 t2] eqn:Eh. intros [= <- <- <-]. split; [done |].
  destruct (io_ok o); [| left; by cbn in Eh; simplify_eq].
  destruct (content d p) as [f |]; [| left; by cbn in Eh; simplify_eq].
  destruct (Sha256FileHex_cases f t1) as [Hc | Hc]; rewrite Eh in Hc; cbn in Hc; [by left |].
  right. by exists f.
Qed.

Lemma FlushFileToDisk_spec p d t b d' t' :
  FlushFileToDisk p d t = (b, d', t') →
  if b then ∃ i, names d !! p = Some i ∧ d' = mark_flushed d i else d' = d.
Proof.
  unfold FlushFileToDisk, mbind, IO_bind, mret, IO_ret, syscall, get, put.
  destruct (tape_next t) as [o t1].
  destruct (if io_ok o then names d !! p else None) as [i |] eqn:Ef; [| by intros [= <- <- <-]].
  destruct (tape_next t1) as [f t2]. destruct (io_ok f); intros [= <- <- <-]; [| done].
  exists i. by destruct (io_ok o).
Qed.

(** *** The new blob *)

(** [p]'s bytes are safe on the disk. *)
Definition on_disk (d : disk) (p : path) : Prop := ∃ i, names d !! p = Some i ∧ i ∈ flushed d.

(** Removing the partial file does not undo the durability of the blob. *)
Lemma entry_durable_minus d d' x abs rc :
  synced d ∖ {[x]} ⊆ synced d' → (∀ k, Path abs (drop (S k) rc) ≠ x) →
  entry_durable d abs rc → entry_durable d' abs rc.
Proof.
  intros Hs. induction rc as [| c rc IH]; [done |]. cbn. intros Hx [H1 H2]. split.
  - specialize (Hx 0%nat). rewrite drop_0 in Hx. clear IH H2. set_solver.
  - apply IH; [| done]. intros k. apply (Hx (S k)).
Qed.

Lemma blob_not_under_uploading mid sha k :
  Path (absolute (Blob sha)) (drop (S k) (rcomps (Blob sha))) ≠ parent_path (Part mid).
Proof.
  cbn. intros [= He]. destruct k as [| [| k]].
  - apply (f_equal length) in He. cbn in He. lia.
  - cbn in He. discriminate He.
  - apply (f_equal length) in He. cbn [length drop] in He. rewrite length_drop in He. lia.
Qed.

Lemma name_durable_kept mid sha d d' :
  synced d ∖ {[parent_path (Part mid)]} ⊆ synced d' →
  name_durable d (Blob sha) → name_durable d' (Blob sha).
Proof. intros Hs. apply (entry_durable_minus _ _ _ _ _ Hs). apply blob_not_under_uploading. Qed.

(** The partial file [p] has got the second name [b], or has been renamed to it. *)
Definition linked (p b : path) (d d' : disk) : Prop :=
  ∃ i, names d !! p = Some i ∧ names d !! b = None ∧
    (names d' = <[b := i]> (names d) ∨ names d' = delete p (<[b := i]> (names d))).

Lemma rename_effect_names p b d ok ex d' :
  rename_effect p b d ok ex d' → inodes d' = inodes d ∧ (names d' = names d ∨ linked p b d d').
Proof.
  intros (Hi & _ & He & Hn & Hx). split; [done |]. destruct ok, ex.
  - left. by destruct (He eq_refl) as (_ & ? & _).
  - right. destruct (Hn eq_refl eq_refl) as (i & ? & ? & ?). exists i. auto.
  - by destruct (He eq_refl).
  - destruct (Hx eq_refl) as [? | (i & ? & ? & ?)]; [by left | right]. by exists i.
Qed.

(** The two cases keep all files but the partial one, under their names. *)
Lemma linked_content p b d d' q :
  inodes d' = inodes d → linked p b d d' → q ≠ p → is_Some (content d q) → content d' q = content d q.
Proof.
  intros Hi (i & Hp & Hb & Hn) Hq [f Hf].
  assert (Hqb : q ≠ b) by (intros ->; unfold content in Hf; by rewrite Hb in Hf).
  unfold content. rewrite Hi. destruct Hn as [-> | ->]; by rewrite ?lookup_delete_ne, lookup_insert_ne by done.
Qed.

Lemma linked_wf p b d d' : inodes d' = inodes d → linked p b d d' → disk_wf d → disk_wf d'.
Proof.
  intros Hi (i & Hp & Hb & Hn) Hw q j Hq. rewrite Hi.
  assert (Hq' : <[b := i]> (names d) !! q = Some j).
  { destruct Hn as [Hn | Hn]; rewrite Hn in Hq; [done |]. by apply lookup_delete_Some in Hq as []. }
  destruct (decide (q = b)) as [-> |].
  - rewrite lookup_insert_eq in Hq'. simplify_eq. by apply (Hw p).
  - rewrite lookup_insert_ne in Hq' by done. by apply (Hw q).
Qed.

Lemma linked_aliases p b d d' q :
  linked p b d d' → private d p → q ≠ p → aliases d' p q → q = b ∧ names d' = <[b := default 0%nat (names d !! p)]> (names d).
Proof.
  intros (i & Hp & Hb & Hn) Hpr Hq (j & Hj & Hj'). rewrite Hp. cbn.
  destruct Hn as [Hn | Hn]; rewrite Hn in Hj, Hj'.
  - split; [| done]. rewrite lookup_insert_ne in Hj by (intros <-; congruence). simplify_eq.
    destruct (decide (q = b)) as [| Hqb]; [done |]. rewrite lookup_insert_ne in Hj' by done.
    destruct (Hpr q Hq). by exists i.
  - by rewrite lookup_delete_eq in Hj.
Qed.

Lemma linked_parts_kept mid sha d d' :
  inodes d' = inodes d → linked (Part mid) (Blob sha) d d' → parts_kept mid d d'.
Proof.
  intros Hi (i & Hp & Hb & Hn) n Hne. unfold part_bytes, content. rewrite Hi.
  destruct Hn as [-> | ->]; rewrite ?lookup_delete_ne, lookup_insert_ne; try done.
  all: apply not_eq_sym, part_blob_ne.
Qed.

Lemma same_names_kept mid d d' :
  inodes d' = inodes d → names d' = names d →
  (disk_wf d → disk_wf d') ∧ blobs_kept d d' ∧ parts_kept mid d d' ∧
  (∀ p, part_bytes d' p = part_bytes d p) ∧ (∀ p q, aliases d' p q → aliases d p q).
Proof.
  intros Hi Hn. unfold disk_wf, blobs_kept, parts_kept, part_bytes, content, aliases. rewrite Hi, Hn. done.
Qed.

(** Once the second name is the only one, partial files are private again. *)
Lemma moved_private p b d d' i :
  names d !! p = Some i → names d' = delete p (<[b := i]> (names d)) → (∀ n, Part n ≠ b) →
  private d p → parts_private d → parts_private d'.
Proof.
  intros Hp Hn Hb Hpr Hall n q Hq (j & Hj & Hj'). rewrite Hn in Hj, Hj'.
  apply lookup_delete_Some in Hj as [Hnp Hj], Hj' as [Hqp Hj'].
  rewrite lookup_insert_ne in Hj by apply not_eq_sym, Hb.
  destruct (decide (q = b)) as [-> | Hqb].
  - rewrite lookup_insert_eq in Hj'. simplify_eq. apply (Hpr (Part n)); [done |]. by exists j.
  - rewrite lookup_insert_ne in Hj' by done. apply (Hall n q Hq). by exists j.
Qed.

(** What [install_blob] leaves behind when it fails: either nothing changed
    but directories, or the partial file [f] is linked to the blob. *)
Definition install_failed (mid : Z) (sha : bytes) (d d' : disk) : Prop :=
  inodes d' = inodes d ∧ (names d' = names d ∨ linked (Part mid) (Blob sha) d d').

Definition install_done (mid : Z) (sha : bytes) (size : Z) (d d' : disk) : Prop :=
  disk_wf d' ∧ blobs_kept d d' ∧ parts_kept mid d d' ∧ parts_private d' ∧ backed d' sha size ∧
  (absolute root = true → name_durable d' (Blob sha)) ∧ on_disk d' (Blob sha).

Lemma content_bytes d p f : content d p = Some f → part_bytes d p = f.
Proof. unfold part_bytes. by intros ->. Qed.

Lemma content_nonempty d p : 0 < zlen (part_bytes d p) → content d p = Some (part_bytes d p).
Proof. unfold part_bytes. by destruct (content d p). Qed.

Lemma moved_done mid sha d d' i :
  disk_wf d → parts_private d → 0 < zlen (part_bytes d (Part mid)) →
  ToLowerHex (sha256 (part_bytes d (Part mid))) = sha →
  inodes d' = inodes d → flushed d' = flushed d → i ∈ flushed d →
  names d !! Part mid = Some i → names d !! Blob sha = None →
  names d' = delete (Part mid) (<[Blob sha := i]> (names d)) →
  (absolute root = true → name_durable d' (Blob sha)) →
  install_done mid sha (zlen (part_bytes d (Part mid))) d d'.
Proof.
  intros Hw Hpr Hz Hsha Hi Hfl Hf Hp Hb Hn Hdur.
  assert (Hl : linked (Part mid) (Blob sha) d d') by (exists i; auto).
  assert (Hnb : names d' !! Blob sha = Some i).
  { rewrite Hn, lookup_delete_ne by apply part_blob_ne. by rewrite lookup_insert_eq. }
  split_and!.
  - by eapply linked_wf.
  - intros sha' f Hf'. erewrite linked_content; [exact Hf' | done | exact Hl | by apply not_eq_sym, part_blob_ne | done].
  - by eapply linked_parts_kept.
  - eapply moved_private; [exact Hp | exact Hn | intros n; apply part_blob_ne | apply Hpr | exact Hpr].
  - exists (part_bytes d (Part mid)). split; [| done]. unfold content. rewrite Hnb, Hi. cbn.
    apply content_nonempty in Hz. unfold content in Hz. by rewrite Hp in Hz.
  - done.
  - exists i. by rewrite Hfl.
Qed.

(** The checks of an existing blob. *)
Lemma dedup_spec mid s w t b w' t' :
  (existing_len ← io (DiskFileLength (Blob (sha256_of s)));
   let len_ok := bool_decide (existing_len = Some (file_size_bytes s)) in
   hex_ok ← (if len_ok then hex ← io (hash_file (Blob (sha256_of s))); mret (bool_decide (hex = sha256_of s))
             else mret false);
   (if negb len_ok || negb hex_ok then mret false
    else
      flushed ← io (FlushFileToDisk (Blob (sha256_of s)));
      if negb flushed then mret false
      else io (remove (Part mid));; mret true)) w t = (b, w', t') →
  sha256_of s ≠ [] →
  ∃ d', w' = with_disk w d' ∧
    if b then ∃ i d1, names (w_disk w) !! Blob (sha256_of s) = Some i ∧
      d1 = mark_flushed (w_disk w) i ∧ backed (w_disk w) (sha256_of s) (file_size_bytes s) ∧
      ∃ b2 t1 t2, remove (Part mid) d1 t1 = (b2, d', t2)
    else d' = w_disk w.
Proof.
  intros Hrun Hne. wbind Hrun len w1 t1 H1. apply io_inv in H1 as (d1 & H1 & ->).
  apply ReadLength_spec in H1 as [-> Hlen]. cbv zeta in Hrun.
  destruct (bool_decide (len = Some (file_size_bytes s))) eqn:El; cbn [negb orb] in Hrun.
  2: { wbind Hrun hx w2 t2 H2. wret H2. wret Hrun. exists (w_disk w). by destruct w. }
  apply bool_decide_eq_true in El as ->. destruct Hlen as [Hlen | Hlen]; [done |]. simplify_eq.
  wbind Hrun hx w2 t2 H2. wbind H2 hex w3 t3 H3. apply io_inv in H3 as (d3 & H3 & ->).
  apply hash_file_spec in H3 as [-> Hhex]. wret H2. cbn [w_disk with_disk] in *.
  destruct (bool_decide (hex = sha256_of s)) eqn:Ehx; cbn [negb] in Hrun.
  2: { wret Hrun. exists (w_disk w). by destruct w. }
  apply bool_decide_eq_true in Ehx as ->.
  wbind Hrun fl w4 t4 H4. apply io_inv in H4 as (d4 & H4 & ->). apply FlushFileToDisk_spec in H4.
  destruct fl; cbn [negb] in Hrun.
  2: { wret Hrun. exists (w_disk w). subst. by destruct w. }
  destruct H4 as (i & Hi & ->). cbn [w_disk with_disk] in *.
  wbind Hrun u w5 t5 H5. apply io_inv in H5 as (d5 & H5 & ->). wret Hrun.
  exists d5. split; [by destruct w |]. exists i, (mark_flushed (w_disk w) i). split_and!; try done.
  - destruct Hhex as [Hhex | (f & Hf & Hhex)].
    + done.
    + exists f. split; [done |]. split; [| done].
      rewrite <- (content_bytes _ _ _ Hf). lia.
  - by eexists _, _, _.
Qed.

Lemma remove_part_keeps mid sha d d' t b t' :
  disk_wf d → parts_private d → remove (Part mid) d t = (b, d', t') →
  disk_wf d' ∧ blobs_kept d d' ∧ parts_kept mid d d' ∧ parts_private d' ∧
  (name_durable d (Blob sha) → name_durable d' (Blob sha)) ∧
  (on_disk d (Blob sha) → on_disk d' (Blob sha)).
Proof.
  intros Hw Hpr Hr. pose proof (remove_writes_only _ _ _ _ _ _ Hr) as Hwo.
  destruct (writes_only_kept _ _ _ Hwo (Hpr mid)) as (Hk & Hpk & _).
  apply remove_spec in Hr as (Hw' & Hi & Hf & Hn & Hs & _). split_and!; auto.
  - by eapply writes_only_private.
  - by apply (name_durable_kept mid).
  - intros (i & Hb & Hfl). exists i. rewrite Hf. split; [| done].
    destruct Hn as [-> | ->]; [done |]. by rewrite lookup_delete_ne by apply part_blob_ne.
Qed.

Lemma install_blob_spec mid s w t b w' t' :
  disk_wf (w_disk w) → parts_private (w_disk w) →
  on_disk (w_disk w) (Part mid) →
  zlen (part_bytes (w_disk w) (Part mid)) = file_size_bytes s → 0 < file_size_bytes s →
  ToLowerHex (sha256 (part_bytes (w_disk w) (Part mid))) = sha256_of s →
  install_blob root mid s w t = (b, w', t') →
  ∃ d', w' = with_disk w d' ∧
    if b then install_done mid (sha256_of s) (file_size_bytes s) (w_disk w) d'
    else install_failed mid (sha256_of s) (w_disk w) d'.
Proof.
  intros Hw Hpr Hod Hz Hpos Hsha Hrun.
  assert (Hne : sha256_of s ≠ []) by (rewrite <- Hsha; apply Sha256_hex_not_nil).
  unfold install_blob in Hrun. wbind Hrun ready w1 t1 H1. apply io_inv in H1 as (d1 & H1 & ->).
  apply EnsureDirectoryDurable_spec in H1 as ((Hn1 & Hi1 & Hf1) & _).
  assert (Hfail : ∀ d', inodes d' = inodes (w_disk w) → names d' = names (w_disk w) →
    ∃ d2, with_disk w d' = with_disk w d2 ∧ install_failed mid (sha256_of s) (w_disk w) d2).
  { intros d' ? ?. exists d'. split; [done |]. split; auto. }
  destruct ready; cbn [negb] in Hrun; [| wret Hrun; by apply Hfail].
  wbind Hrun r w2 t2 H2. apply io_inv in H2 as (d2 & H2 & ->). destruct r as [renamed dedup].
  apply DurableRename_spec in H2 as [Heff Hdur]; [| apply part_blob_ne]. cbn [w_disk with_disk] in *.
  destruct renamed; cbn [negb] in Hrun.
  2: { wret Hrun. exists d2. split; [done |].
       apply rename_effect_names in Heff as [Hi2 Hn2]. rewrite Hi1 in Hi2. unfold linked in Hn2.
       rewrite Hn1 in Hn2. split; [done | exact Hn2]. }
  destruct Heff as (Hi2 & Hf2 & He & Hn & _). specialize (Hdur eq_refl).
  rewrite Hi1 in Hi2. rewrite Hf1 in Hf2. rewrite Hn1 in He, Hn.
  destruct dedup.
  - destruct (He eq_refl) as (_ & Hn2 & _).
    apply dedup_spec in Hrun as (d3 & -> & Hb); [| done]. cbn [w_disk with_disk] in Hb.
    destruct b; [| subst d3; by apply Hfail].
    exists d3. split; [done |]. destruct Hb as (i & d4 & Hbi & -> & Hbk & b2 & t3 & t4 & Hrm).
    destruct (same_names_kept mid (w_disk w) d2 Hi2 Hn2) as (Hw2 & Hk2 & Hpk2 & Hpb2 & Hal2).
    assert (Hpr2 : parts_private d2) by (intros n q Hq Ha; by apply (Hpr n q Hq), Hal2).
    destruct (remove_part_keeps _ (sha256_of s) (mark_flushed d2 i) _ _ _ _ (Hw2 Hw) Hpr2 Hrm)
      as (Hw3 & Hk3 & Hpk3 & Hpr3 & Hd3 & Ho3).
    split_and!; try done.
    + by eapply blobs_kept_trans.
    + by eapply parts_kept_trans.
    + by eapply backed_kept.
    + intros Ha. apply Hd3. apply (entry_durable_mono d2); [done |]. by apply Hdur.
    + apply Ho3. exists i. split; [done |]. cbn. clear. set_solver.
  - wret Hrun. destruct (Hn eq_refl eq_refl) as (i & Hp & Hb & Hn2).
    exists d2. split; [done |]. rewrite <- Hz.
    apply (moved_done _ _ _ _ i); try done; [lia | | by auto].
    destruct Hod as (j & Hj & Hjf). congruence.
Qed.

(** *** The way back after a failed publication *)

Definition without (w : worker) (mid : Z) : worker :=
  Worker (w_disk w) (w_db w) (delete mid (upload_sessions w)) (sent w) (notified w).

Lemma erase_inv mid w t u w' t' : erase_session mid w t = (u, w', t') → w' = without w mid ∧ t' = t.
Proof. by intros [= <- <- <-]. Qed.

Lemma RecoverUploadFile_any p total chunk d t r d' t' :
  disk_wf d → 0 < chunk → 0 <= total → RecoverUploadFile p total chunk d t = (r, d', t') →
  disk_wf d' ∧ writes_only p d d'.
Proof.
  intros Hw Hc Ht Hr. destruct r as [r |].
  - by apply RecoverUploadFile_spec in Hr as (? & ? & _).
  - unfold RecoverUploadFile in Hr. rewrite (proj2 (Z.eqb_neq chunk 0)) in Hr by lia.
    iobind Hr l d1 t1 H1. apply ReadLength_spec in H1 as [-> Hl]. destruct l as [l |]; [| by wret Hr].
    destruct Hl as [| [= Hl]]; [done |]. pose proof (zlen_nonneg (part_bytes d p)).
    iobind Hr ok d2 t2 H2. unfold mret, IO_ret in Hr. destruct ok; simplify_eq.
    apply TruncateUploadFile_spec in H2 as (? & ? & _); [done | done |].
    case_match eqn:E; [lia |]. apply orb_false_elim in E as [E _]. bool_to_prop.
    apply Z.mul_nonneg_nonneg; [apply Z.div_pos |]; lia.
Qed.

Lemma fall_back_spec mid s w t off w' t' :
  disk_wf (w_disk w) → 0 <= file_size_bytes s →
  (r ← io (RecoverUploadFile (Part mid) (file_size_bytes s) kUploadChunkSize);
   erase_session mid;;
   mret (default 0 r)) w t = (off, w', t') →
  ∃ d', w' = without (with_disk w d') mid ∧ disk_wf d' ∧ writes_only (Part mid) (w_disk w) d'.
Proof.
  intros Hw Hs Hrun. wbind Hrun r w1 t1 H1. apply io_inv in H1 as (d1 & H1 & ->).
  apply RecoverUploadFile_any in H1 as (Hw1 & Hwo1); [| done | done | done].
  wbind Hrun u w2 t2 H2. apply erase_inv in H2 as [-> ->]. wret Hrun. by exists d1.
Qed.

Lemma restore_part_spec mid s w t off w' t' :
  disk_wf (w_disk w) → 0 <= file_size_bytes s → restore_part root mid s w t = (off, w', t') →
  ∃ d', (w' = with_disk w d' ∧ zlen (part_bytes d' (Part mid)) = received s ∨
         w' = without (with_disk w d') mid) ∧
    disk_wf d' ∧ writes_only (Part mid) (w_disk w) d'.
Proof.
  intros Hw Hs Hrun. unfold restore_part in Hrun. cbv zeta in Hrun.
  wbind Hrun pl w1 t1 H1. apply io_inv in H1 as (d1 & H1 & ->). apply ReadLength_spec in H1 as [-> Hpl].
  destruct (bool_decide (pl = _)) eqn:Epl.
  { apply bool_decide_eq_true in Epl as ->. destruct Hpl as [| Hpl]; [done |]. wret Hrun.
    exists (w_disk w). split; [left; split; [by destruct w | done] |]. done. }
  assert (Hfb : ∀ d1 t1, disk_wf d1 → writes_only (Part mid) (w_disk w) d1 → 
    (r ← io (RecoverUploadFile (Part mid) (file_size_bytes s) kUploadChunkSize);
     erase_session mid;; mret (default 0 r)) (with_disk w d1) t1 = (off, w', t') →
    ∃ d', (w' = with_disk w d' ∧ zlen (part_bytes d' (Part mid)) = received s ∨
         w' = without (with_disk w d') mid) ∧
    disk_wf d' ∧ writes_only (Part mid) (w_disk w) d').
  { intros d2 t2 Hw2 Hwo2 Hr. apply fall_back_spec in Hr as (d' & -> & Hw' & Hwo'); [| done | done].
    exists d'. split; [by right |]. split; [done |]. by eapply writes_only_trans. }
  wbind Hrun bl w2 t2 H2. apply io_inv in H2 as (d2 & H2 & ->). apply ReadLength_spec in H2 as [-> _].
  cbn [with_disk w_disk] in *.
  destruct (bool_decide (bl = _)); [| by apply (Hfb (w_disk w) t2)].
  wbind Hrun rm w3 t3 H3. apply io_inv in H3 as (d3 & H3 & ->).
  pose proof (remove_writes_only _ _ _ _ _ _ H3) as Hwo3. apply remove_spec in H3 as (Hw3 & _).
  wbind Hrun cp w4 t4 H4. apply io_inv in H4 as (d4 & H4 & ->). cbn [with_disk w_disk] in *.
  apply copy_file_spec in H4 as (Hw4 & Hwo4 & _); [| by apply Hw3].
  assert (Hwo : writes_only (Part mid) (w_disk w) d4) by (by eapply writes_only_trans).
  destruct (rm && cp); [| by apply (Hfb d4 t4)].
  wbind Hrun cl w5 t5 H5. apply io_inv in H5 as (d5 & H5 & ->). apply ReadLength_spec in H5 as [-> Hcl].
  cbn [with_disk w_disk] in *.
  destruct (bool_decide (cl = _)) eqn:Ecl; [| by apply (Hfb d4 t5)].
  apply bool_decide_eq_true in Ecl as ->. destruct Hcl as [| Hcl]; [done |]. wret Hrun.
  exists d4. split; [by left |]. done.
Qed.

(** *** The parts of the invariant a request on [mid] keeps *)

Definition frame_ok (mid : Z) (w : worker) : Prop :=
  disk_wf (w_disk w) ∧ db_inv (w_db w) ∧ rows_positive (w_db w) ∧
  published_backed (w_disk w) (w_db w) ∧
  map_Forall (session_ok (w_disk w) (w_db w)) (delete mid (upload_sessions w)).

Definition frame_trusted (mid : Z) (w : worker) : Prop :=
  parts_private (w_disk w) ∧ map_Forall (hash_ok (w_disk w)) (delete mid (upload_sessions w)).

(** Two workers with the same parts but for the session of [mid]. *)
Definition same_but (mid : Z) (w w' : worker) : Prop :=
  w_disk w' = w_disk w ∧ w_db w' = w_db w ∧
  delete mid (upload_sessions w') = delete mid (upload_sessions w).

Lemma frame_ok_same mid w w' : same_but mid w w' → frame_ok mid w → frame_ok mid w'.
Proof. unfold frame_ok. by intros (-> & -> & ->). Qed.

Lemma frame_trusted_same mid w w' : same_but mid w w' → frame_trusted mid w → frame_trusted mid w'.
Proof. unfold frame_trusted. by intros (-> & _ & ->). Qed.

Lemma worker_ok_frame mid w :
  worker_ok w ↔ frame_ok mid w ∧
    ∀ s, upload_sessions w !! mid = Some s → session_ok (w_disk w) (w_db w) mid s.
Proof.
  unfold worker_ok, frame_ok. split.
  - intros (? & ? & ? & ? & Hs). split_and!; try done; [| by intros s Hl; apply Hs].
    intros n s [_ Hn]%lookup_delete_Some. by apply Hs.
  - intros ((? & ? & ? & ? & Hs) & Hm). split_and!; try done.
    intros n s Hn. destruct (decide (n = mid)) as [-> |]; [by apply Hm |].
    apply Hs. by rewrite lookup_delete_ne.
Qed.

Lemma worker_trusted_frame mid w :
  worker_trusted w ↔ frame_trusted mid w ∧
    ∀ s, upload_sessions w !! mid = Some s → hash_ok (w_disk w) mid s.
Proof.
  unfold worker_trusted, frame_trusted. split.
  - intros (? & Hs). split_and!; try done; [| by intros s Hl; apply Hs].
    intros n s [_ Hn]%lookup_delete_Some. by apply Hs.
  - intros ((? & Hs) & Hm). split_and!; try done.
    intros n s Hn. destruct (decide (n = mid)) as [-> |]; [by apply Hm |].
    apply Hs. by rewrite lookup_delete_ne.
Qed.

Lemma session_row_pos b n s : rows_positive b → session_row b n s → 0 < n ∧ 0 < file_size_bytes s.
Proof. intros [Hk Hr] (m & res & Hm & Hres & -> & _). split; [by eapply Hk | by eapply Hr]. Qed.

Lemma session_row_kept k b b' n s : rows_kept k b b' → session_row b n s → session_row b' n s.
Proof.
  intros (He & _ & Hm) (m & res & Hn & Hr & ? & ? & ?). destruct (Hm n m Hn) as (m' & Hn' & Hs & _).
  exists m', res. rewrite He, Hs. done.
Qed.

Lemma published_content_kept k b b' sha size :
  rows_kept k b b' → published_content b sha size → published_content b' sha size.
Proof.
  intros (He & _ & Hm) (n & m & res & Hn & Hst & Hr & ? & ?).
  destruct (Hm n m Hn) as (m' & Hn' & _ & Hst'). exists n, m', res. rewrite He.
  destruct Hst' as [-> | [_ []]]; done.
Qed.

Lemma rows_positive_kept k b b' : rows_kept k b b' → rows_positive b → rows_positive b'.
Proof.
  intros (He & Hnew & _) [Hk Hr]. split; [| by rewrite He]. intros n m Hm.
  destruct (chat_messages b !! n) as [x |] eqn:E; [by eapply Hk |]. by rewrite (Hnew n E) in Hm.
Qed.

(** A change of the disk that keeps blobs and other partial files. *)
Lemma frame_ok_disk mid w d' :
  0 < mid → frame_ok mid w → disk_wf d' → blobs_kept (w_disk w) d' → parts_kept mid (w_disk w) d' →
  frame_ok mid (with_disk w d').
Proof.
  intros Hmid (Hw & Hinv & Hpos & Hpb & Hs) Hw' Hk Hpk. split_and!; try done; [by eapply published_backed_kept |].
  intros n s Hn. specialize (Hs n s Hn). destruct Hs as (Hrow & Hpart & Hch). split_and!; [done | | done].
  destruct (session_row_pos _ _ _ Hpos Hrow). apply lookup_delete_Some in Hn as [Hne _].
  unfold part_ok. cbn [with_disk w_disk]. rewrite (Hpk n); [done |]. intros He. apply Hne. symmetry. by apply part_inj.
Qed.

Lemma frame_trusted_disk mid w d' :
  0 < mid → frame_ok mid w → frame_trusted mid w → parts_private d' → parts_kept mid (w_disk w) d' →
  frame_trusted mid (with_disk w d').
Proof.
  intros Hmid (_ & _ & Hpos & _ & Hs) (_ & Ht) Hp Hpk. split; [done |].
  intros n s Hn. specialize (Hs n s Hn) as (Hrow & _). specialize (Ht n s Hn).
  destruct (session_row_pos _ _ _ Hpos Hrow). apply lookup_delete_Some in Hn as [Hne _].
  unfold hash_ok. cbn [with_disk w_disk]. rewrite (Hpk n); [done |]. intros He. apply Hne. symmetry. by apply part_inj.
Qed.

(** A change of the database that publishes at most [mid]. *)
Lemma frame_ok_db mid w b' :
  frame_ok mid w → db_inv b' → rows_kept mid (w_db w) b' →
  (∀ m m' res, chat_messages (w_db w) !! mid = Some m → m_status m ≠ Published →
     chat_messages b' !! mid = Some m' → m_status m' = Published →
     message_resources (w_db w) !! mid = Some res → backed (w_disk w) (r_sha res) (r_size res)) →
  frame_ok mid (with_db w b').
Proof.
  intros (Hw & Hinv & Hpos & Hpb & Hs) Hinv' Hk Hnew. split_and!; try done.
  - by eapply rows_positive_kept.
  - intros n m' res Hm' Hst Hres. pose proof Hk as (He & Hn & Hm). cbn in Hres, Hm'. rewrite He in Hres.
    destruct (chat_messages (w_db w) !! n) as [m |] eqn:Em; [| by rewrite (Hn n Em) in Hm'].
    destruct (Hm n m Em) as (m2 & Hm2 & _ & Hc). simplify_eq.
    destruct Hc as [Hc | [-> Hc]]; [eapply Hpb; [done | congruence | done] |]. by eapply Hnew.
  - intros n s Hn. destruct (Hs n s Hn) as (Hrow & Hpart & Hch). split_and!; [by eapply session_row_kept | done |].
    intros Ha. eapply published_content_kept; [done | by apply Hch].
Qed.

(** *** The publication of an upload *)

Lemma failed_then_restored mid sha d d1 d2 :
  private d (Part mid) → install_failed mid sha d d1 → writes_only (Part mid) d1 d2 →
  blobs_kept d d2 ∧ parts_kept mid d d2.
Proof.
  intros Hpr (Hi & [Hn | Hl]) Hwo.
  - destruct (same_names_kept mid d d1 Hi Hn) as (_ & Hk & Hpk & _ & Hal).
    destruct (writes_only_kept _ _ _ Hwo) as (Hk2 & Hpk2 & _).
    { intros q Hq Ha. by apply (Hpr q Hq), Hal. }
    split; [by eapply blobs_kept_trans | by eapply parts_kept_trans].
  - destruct Hwo as (_ & _ & Hc). pose proof Hl as (i & _ & Hb & _). split.
    + intros sha' f Hf. rewrite Hc.
      * erewrite linked_content; [exact Hf | done | exact Hl | by apply not_eq_sym, part_blob_ne | done].
      * apply not_eq_sym, part_blob_ne.
      * intros Ha. destruct (linked_aliases _ _ _ _ _ Hl Hpr (not_eq_sym (part_blob_ne mid sha')) Ha) as [He _].
        unfold content in Hf. by rewrite He, Hb in Hf.
    + intros n Hn. rewrite <- (linked_parts_kept _ _ _ _ Hi Hl n Hn). unfold part_bytes. rewrite Hc; [done | done |].
      intros Ha. destruct (linked_aliases _ _ _ _ _ Hl Hpr Hn Ha) as [He _]. by apply part_blob_ne in He.
Qed.

(** The session of a complete upload, as it stands in the table. *)
Definition complete_session (mid : Z) (s : UploadSession) (w : worker) : Prop :=
  0 < mid ∧ upload_sessions w !! mid = Some s ∧ session_row (w_db w) mid s ∧
  received s = file_size_bytes s ∧ ch_active (chal s) = false.

Lemma complete_session_row b mid s : rows_positive b → session_row b mid s → 0 <= file_size_bytes s.
Proof. intros Hp Hr. destruct (session_row_pos _ _ _ Hp Hr). lia. Qed.

(** A reply with an error; unless it is one the client answers by trying
    again, the worker is in a trusted state. *)
Definition error_reply (conn mid offset : Z) (w w' : worker) : Prop :=
  ∃ error off stt, error ≠ 0 ∧ (stt = st Pending ∨ worker_trusted w') ∧
    sent w' = sent w ++ [(conn, MsgId_code MSG_RESOURCE_CHUNK_UPLOAD_RSP, chunk_reply error mid offset off stt 0)].

Lemma send_inv conn ty j w t u w' t' :
  send conn ty j w t = (u, w', t') →
  w' = Worker (w_disk w) (w_db w) (upload_sessions w) (sent w ++ [(conn, ty, j)]) (notified w).
Proof. by intros [= <- <- <-]. Qed.

(** Restoring the partial file and replying. *)
Lemma respond_pending_spec {A} (x : A) conn mid offset s error w t a w' t' :
  complete_session mid s w → error ≠ 0 → disk_wf (w_disk w) → rows_positive (w_db w) →
  (∀ d2, disk_wf d2 → writes_only (Part mid) (w_disk w) d2 → frame_ok mid (with_disk w d2)) →
  (off ← restore_part root mid s;
   send conn (MsgId_code MSG_RESOURCE_CHUNK_UPLOAD_RSP) (chunk_reply error mid offset off (st Pending) 0);;
   mret x) w t = (a, w', t') →
  a = x ∧ worker_ok w' ∧ error_reply conn mid offset w w' ∧ notified w' = notified w.
Proof.
  intros (Hmid & Hs & Hrow & Hrec & Hch) He Hw Hpos Hfr Hrun.
  wbind Hrun off w1 t1 H1. pose proof (complete_session_row _ _ _ Hpos Hrow) as Hsz.
  apply restore_part_spec in H1 as (d' & Hw1 & Hwf & Hwo); [| done | done].
  wbind Hrun u w2 t2 H2. apply send_inv in H2 as ->. wret Hrun. split; [done |].
  specialize (Hfr d' Hwf Hwo). split; [| split].
  - apply (worker_ok_frame mid). destruct Hw1 as [[-> Hz] | ->].
    + split; [by eapply frame_ok_same; [| exact Hfr] |]. intros x Hx. cbn in Hx |- *. simplify_eq.
      split_and!; [done | | by rewrite Hch]. unfold part_ok. rewrite Hz, Hrec.
      unfold kUploadChunkSize, kResourceChunkSize. lia.
    + split; [| cbn; intros x Hx; by rewrite lookup_delete_eq in Hx].
      eapply frame_ok_same; [| exact Hfr]. split_and!; try done. cbn. by rewrite delete_delete_eq.
  - exists error, off, (st Pending). split; [done |]. split; [by left |]. cbn. destruct Hw1 as [[-> _] | ->]; done.
  - destruct Hw1 as [[-> _] | ->]; done.
Qed.

(** Giving the upload up. *)
Lemma respond_final_spec {A} (x : A) conn mid offset error w t a w' t' :
  error ≠ 0 → frame_ok mid w → frame_trusted mid w →
  (erase_session mid;;
   send conn (MsgId_code MSG_RESOURCE_CHUNK_UPLOAD_RSP) (chunk_reply error mid offset 0 (st Failed) 0);;
   mret x) w t = (a, w', t') →
  a = x ∧ worker_ok w' ∧ error_reply conn mid offset w w' ∧ notified w' = notified w.
Proof.
  intros He Hf Ht Hrun. wbind Hrun u w1 t1 H1. apply erase_inv in H1 as [-> ->].
  wbind Hrun u2 w2 t2 H2. apply send_inv in H2 as ->. wret Hrun.
  split; [done |]. split; [| split; [| done]].
  - apply (worker_ok_frame mid). split; [| cbn; intros y Hy; by rewrite lookup_delete_eq in Hy].
    eapply frame_ok_same; [| exact Hf]. split_and!; try done. cbn. by rewrite delete_delete_eq.
  - eexists _, _, _. split; [done |]. split; [right | done].
    apply (worker_trusted_frame mid). split; [| cbn; intros y Hy; by rewrite lookup_delete_eq in Hy].
    eapply frame_trusted_same; [| exact Ht]. split_and!; try done. cbn. by rewrite delete_delete_eq.
Qed.

(** What a successful publication leaves: the event is in the database, the
    blob is whole, flushed and (below an absolute root) reachable after a crash. *)
Definition published (mid seq : Z) (c : ChatMessage) (sha : bytes) (size : Z) (w : worker) : Prop :=
  (∃ m, chat_messages (w_db w) !! mid = Some m ∧ m_status m = Published ∧ message_type c = m_type m ∧
     recipient_of (w_db w) m = Some (recipient_user_id c) ∧
     user_events (w_db w) !! (recipient_user_id c, seq) = Some (message_event (m_type m) mid)) ∧
  backed (w_disk w) sha size ∧
  (absolute root = true → name_durable (w_disk w) (Blob sha)) ∧ on_disk (w_disk w) (Blob sha).

Lemma publish_section_spec conn mid offset s w t r w' t' :
  complete_session mid s w → frame_ok mid w → frame_trusted mid w →
  on_disk (w_disk w) (Part mid) → zlen (part_bytes (w_disk w) (Part mid)) = file_size_bytes s →
  ToLowerHex (sha256 (part_bytes (w_disk w) (Part mid))) = sha256_of s →
  publish_section root conn mid offset s w t = (r, w', t') →
  notified w' = notified w ∧
  match r with
  | Some (seq, c) => frame_ok mid w' ∧ frame_trusted mid w' ∧ sent w' = sent w ∧
      published mid seq c (sha256_of s) (file_size_bytes s) w'
  | None => worker_ok w' ∧ error_reply conn mid offset w w'
  end.
Proof.
  intros Hcs Hf Ht Hod Hz Hsha Hrun. pose proof Hcs as (Hmid & Hs & Hrow & Hrec & Hch).
  pose proof Hf as (Hw & Hinv & Hpos & Hpb & _). pose proof Ht as [Hpr _].
  destruct (session_row_pos _ _ _ Hpos Hrow) as [_ Hsz].
  unfold publish_section in Hrun. cbv zeta in Hrun. wbind Hrun b w1 t1 H1.
  apply install_blob_spec in H1 as (d1 & -> & Hins); try done.
  destruct b; cbn [negb] in Hrun.
  2: { apply respond_pending_spec in Hrun as (-> & Hok & Her & Hn); try done.
       - destruct Hins as [Hi [Hn | Hl]]; cbn; [by apply (proj1 (same_names_kept mid _ _ Hi Hn)) | by eapply linked_wf].
       - intros d2 Hw2 Hwo. destruct (failed_then_restored _ _ _ _ _ (Hpr mid) Hins Hwo).
         by apply (frame_ok_disk mid w). }
  destruct Hins as (Hw1 & Hk1 & Hpk1 & Hpr1 & Hb1 & Hd1 & Ho1).
  assert (Hf1 : frame_ok mid (with_disk w d1)) by by apply frame_ok_disk.
  assert (Ht1 : frame_trusted mid (with_disk w d1)) by by apply frame_trusted_disk.
  wbind Hrun lk w2 t2 H2. apply dao_inv in H2 as (b2 & H2 & ->).
  apply GetChatMsgById_spec in H2 as [-> Hlk].
  assert (Hpend : ∀ b2 error t2, frame_ok mid (with_db (with_disk w d1) b2) → rows_kept mid (w_db w) b2 → error ≠ 0 →
    (off ← restore_part root mid s;
     send conn (MsgId_code MSG_RESOURCE_CHUNK_UPLOAD_RSP) (chunk_reply error mid offset off (st Pending) 0);;
     mret None) (with_db (with_disk w d1) b2) t2 = (r, w', t') →
    notified w' = notified w ∧ r = None ∧ worker_ok w' ∧ error_reply conn mid offset w w').
  { intros b2 error t3 Hfb Hrk He Hr. apply respond_pending_spec in Hr as (-> & Hok & Her & Hn); try done.
    - split_and!; try done. by eapply session_row_kept.
    - by apply Hfb.
    - intros d2 Hw2 Hwo. destruct (writes_only_kept _ _ _ Hwo (Hpr1 mid)) as (? & ? & _).
      by apply (frame_ok_disk mid (with_db (with_disk w d1) b2)). }
  assert (Hfin : ∀ b2 error t2, frame_ok mid (with_db (with_disk w d1) b2) → error ≠ 0 →
    (erase_session mid;;
     send conn (MsgId_code MSG_RESOURCE_CHUNK_UPLOAD_RSP) (chunk_reply error mid offset 0 (st Failed) 0);;
     mret None) (with_db (with_disk w d1) b2) t2 = (r, w', t') →
    notified w' = notified w ∧ r = None ∧ worker_ok w' ∧ error_reply conn mid offset w w').
  { intros b2 error t3 Hfb He Hr. by apply respond_final_spec in Hr as (-> & ? & ? & ?). }
  destruct lk as [c | |].
  2: { by destruct (Hfin (w_db w) (rs RS_MSG_ID_ERR) _ Hf1 ltac:(done) Hrun) as (? & -> & ? & ?). }
  2: { by destruct (Hpend (w_db w) rpc_failed _ Hf1 (rows_kept_refl _ _) ltac:(done) Hrun) as (? & -> & ? & ?). }
  specialize (Hlk c eq_refl). apply chat_message_of_Some in Hlk as (m & Hm & Hres & Hsnd & Hty & Hst & Hrecp & _).
  wbind Hrun pr w3 t3 H3. destruct pr as [rc seq]. apply dao_inv in H3 as (b3 & H3 & ->).
  apply CompleteResourceUpload_spec in H3. cbn [w_db with_disk with_db] in *.
  pose proof (publish_outcome_rows _ _ _ _ _ _ H3) as Hrk.
  assert (Hf3 : frame_ok mid (with_db (with_disk w d1) b3)).
  { apply (frame_ok_db mid (with_disk w d1) b3); [done | by eapply publish_outcome_inv | done |].
    intros x x' res _ _ _ _ Hr. destruct Hrow as (y & res' & _ & Hr' & Hsz' & Hsh' & _).
    cbn in Hr. simplify_eq. by rewrite <- Hsz', <- Hsh'. }
  destruct rc.
  1, 2: wret Hrun; split; [done |]; split; [done |]; split; [done |]; split; [done |];
    (split; [| done]);
    destruct (publish_outcome_done _ _ _ _ _ _ H3 ltac:(auto)) as (x & rr & Hx & Hxs & Hxr & Hev & y & Hy & Hxy & Hyr);
    simplify_eq; exists x; split_and!; [done | done | congruence | done | done].
  - by destruct (Hfin b3 (rs RS_RESOURCE_STATE_INVALID) _ Hf3 ltac:(done) Hrun) as (? & -> & ? & ?).
  - by destruct (Hfin b3 (rs RS_MSG_ID_ERR) _ Hf3 ltac:(done) Hrun) as (? & -> & ? & ?).
  - by destruct (Hpend b3 rpc_failed _ Hf3 Hrk ltac:(done) Hrun) as (? & -> & ? & ?).
Qed.

(** *** The completion point *)

(** [s'] differs from [s] in the digest fields and the mismatch counter only. *)
Definition same_upload (s s' : UploadSession) : Prop :=
  file_size_bytes s' = file_size_bytes s ∧ sha256_of s' = sha256_of s ∧ received s' = received s ∧
  sender_of s' = sender_of s ∧ chal s' = chal s.

Lemma put_inv mid s w t u w' t' :
  put_session mid s w t = (u, w', t') →
  w' = Worker (w_disk w) (w_db w) (<[mid := s]> (upload_sessions w)) (sent w) (notified w) ∧ t' = t.
Proof. by intros [= <- <- <-]. Qed.

Lemma put_same_but mid s w :
  same_but mid w (Worker (w_disk w) (w_db w) (<[mid := s]> (upload_sessions w)) (sent w) (notified w)).
Proof. split_and!; try done. cbn. apply delete_insert_eq. Qed.

Lemma session_ok_same d b mid s s' : same_upload s s' → session_ok d b mid s → session_ok d b mid s'.
Proof. unfold session_ok, session_row. by intros (-> & -> & -> & -> & ->). Qed.

Lemma io_with_tape_inv {A} (f : tape → A * tape) w t a w' t' :
  io (with_tape f) w t = (a, w', t') → w' = w ∧ f t = (a, t').
Proof. unfold io, with_tape. destruct (f t) as [a0 t0]. intros [= <- <- <-]. by destruct w. Qed.

(** The digest that [whole_hash] finds is the one of the partial file. *)
Lemma whole_hash_spec mid s w t s1 w' t' :
  hash_ok (w_disk w) mid s → received s = file_size_bytes s →
  zlen (part_bytes (w_disk w) (Part mid)) = file_size_bytes s →
  upload_sessions w !! mid = Some s →
  whole_hash root mid s w t = (s1, w', t') →
  same_upload s s1 ∧ hash_ok (w_disk w) mid s1 ∧ same_but mid w w' ∧
  upload_sessions w' !! mid = Some s1 ∧ sent w' = sent w ∧ notified w' = notified w.
Proof.
  intros [Hv Hfin] Hrec Hz Hs Hrun. unfold whole_hash in Hrun.
  destruct (bool_decide (final_hex s = [])) eqn:Ef; cbn [negb] in Hrun; [| by injection Hrun as <- <- <-].
  apply bool_decide_eq_true in Ef.
  wbind Hrun s2 w2 t2 H2.
  assert (H2' : w2 = w ∧ same_upload s s2 ∧ hash_ok (w_disk w) mid s2).
  { destruct (hash_valid s) eqn:Ev; [| injection H2 as <- <- <-; split; [done |]; split; [done |]; split; [by rewrite Ev | done]].
    wbind H2 r w3 t3 H3. destruct r as [hex h]. apply io_with_tape_inv in H3 as [-> H3]. injection H2 as <- <- <-.
    split; [done |]. split; [done |]. destruct (Hv eq_refl) as [Hctx Hf0]. specialize (Hf0 Ef).
    unfold FinalHex in H3. rewrite Hf0 in H3. cbn in H3.
    assert (Hbad : hash_ok (w_disk w) mid (set_hash s (hasher s) true [])).
    { split; [| done]. intros _. split; [exact Hctx | by intros _]. }
    destruct (ctx (hasher s)) as [a |] eqn:Ec; [| by simplify_eq].
    destruct (tape_next t) as [f t4]. destruct (io_ok f); [| by simplify_eq].
    injection H3 as <- <- <-. pose proof (Hctx a eq_refl) as ->.
    split; cbn.
    - intros _. split; [by intros ? [= <-] | intros Hn]. by apply Sha256_hex_not_nil in Hn.
    - intros _. split; [done |]. rewrite Hrec, ztake_all by lia. done. }
  destruct H2' as (-> & Hsu & Hh). clear H2. wbind Hrun s3 w3 t3 H3.
  assert (H3' : w3 = w ∧ same_upload s s3 ∧ hash_ok (w_disk w) mid s3).
  { destruct (bool_decide (final_hex s2 = [])) eqn:Ef2; [| by injection H3 as <- <- <-].
    apply bool_decide_eq_true in Ef2. wbind H3 hex w4 t4 H4. apply io_inv in H4 as (d4 & H4 & ->).
    apply hash_file_spec in H4 as [-> Hhex]. injection H3 as <- <- <-. destruct Hsu as (Hs1 & Hs2 & Hs3 & Hs4 & Hs5).
    split; [by destruct w |]. split; [by split_and! |]. destruct Hh as [Hh _].
    split; cbn.
    - intros Hx. destruct (Hh Hx) as [Hc Hf0]. auto.
    - intros Hne. split; [congruence |]. destruct Hhex as [-> | (f & Hf & ->)]; [done |].
      by rewrite (content_bytes _ _ _ Hf). }
  destruct H3' as (-> & Hsu3 & Hh3). clear H3. wbind Hrun u w5 t5 H5. apply put_inv in H5 as [-> ->].
  injection Hrun as <- <- <-. split; [done |]. split; [done |]. split; [apply put_same_but |].
  cbn. by rewrite lookup_insert_eq.
Qed.

(** Dropping the session of [mid] and its partial file. *)
Lemma dropped_ok mid w d' x :
  0 < mid → frame_ok mid w → frame_trusted mid w → disk_wf d' → writes_only (Part mid) (w_disk w) d' →
  let w' := Worker d' (w_db w) (delete mid (upload_sessions w)) x (notified w) in
  worker_ok w' ∧ worker_trusted w'.
Proof.
  intros Hmid Hf Ht Hw' Hwo w'. pose proof Ht as [Hpr _].
  destruct (writes_only_kept _ _ _ Hwo (Hpr mid)) as (Hk & Hpk & _).
  pose proof (writes_only_private _ _ _ Hwo Hpr) as Hpr'.
  pose proof (frame_ok_disk mid w d' Hmid Hf Hw' Hk Hpk) as Hf'.
  pose proof (frame_trusted_disk mid w d' Hmid Hf Ht Hpr' Hpk) as Ht'.
  assert (Hsame : same_but mid (with_disk w d') w') by (split_and!; try done; cbn; by rewrite delete_delete_eq).
  split; [apply (worker_ok_frame mid) | apply (worker_trusted_frame mid)].
  - split; [by eapply frame_ok_same | cbn; intros y Hy; by rewrite lookup_delete_eq in Hy].
  - split; [by eapply frame_trusted_same | cbn; intros y Hy; by rewrite lookup_delete_eq in Hy].
Qed.

(** Putting a session of [mid] back. *)
Lemma put_back_ok mid w d' s' x :
  0 < mid → frame_ok mid w → frame_trusted mid w → disk_wf d' → writes_only (Part mid) (w_disk w) d' →
  session_ok d' (w_db w) mid s' →
  let w' := Worker d' (w_db w) (<[mid := s']> (upload_sessions w)) x (notified w) in
  worker_ok w' ∧ (hash_ok d' mid s' → worker_trusted w').
Proof.
  intros Hmid Hf Ht Hw' Hwo Hs' w'. pose proof Ht as [Hpr _].
  destruct (writes_only_kept _ _ _ Hwo (Hpr mid)) as (Hk & Hpk & _).
  pose proof (writes_only_private _ _ _ Hwo Hpr) as Hpr'.
  pose proof (frame_ok_disk mid w d' Hmid Hf Hw' Hk Hpk) as Hf'.
  pose proof (frame_trusted_disk mid w d' Hmid Hf Ht Hpr' Hpk) as Ht'.
  assert (Hsame : same_but mid (with_disk w d') w') by (split_and!; try done; cbn; apply delete_insert_eq).
  split; [apply (worker_ok_frame mid) | intros Hh; apply (worker_trusted_frame mid)].
  - split; [by eapply frame_ok_same |]. intros y Hy. cbn in Hy. rewrite lookup_insert_eq in Hy. by simplify_eq.
  - split; [by eapply frame_trusted_same |]. intros y Hy. cbn in Hy. rewrite lookup_insert_eq in Hy. by simplify_eq.
Qed.

(** A reply in a state where nothing but the session of [mid] has changed. *)
Lemma error_send_spec conn mid offset error off w0 w s' t u w' t' :
  0 < mid → error ≠ 0 → frame_ok mid w → frame_trusted mid w →
  upload_sessions w !! mid = Some s' → session_ok (w_disk w) (w_db w) mid s' → hash_ok (w_disk w) mid s' →
  sent w = sent w0 →
  send conn (MsgId_code MSG_RESOURCE_CHUNK_UPLOAD_RSP)
    (chunk_reply error mid offset off (st Pending) 0) w t = (u, w', t') →
  worker_ok w' ∧ error_reply conn mid offset w0 w' ∧ notified w' = notified w.
Proof.
  intros Hmid He Hf Ht Hs Hok Hh Hsent Hrun. apply send_inv in Hrun as ->.
  split; [| split; [| done]].
  - apply (worker_ok_frame mid). split; [by eapply frame_ok_same; [| exact Hf] |].
    cbn. intros x Hx. by simplify_eq.
  - exists error, off, (st Pending). split; [done |]. split; [by left |]. cbn. by rewrite Hsent.
Qed.

Lemma hash_mismatch_spec conn mid offset s w t u w' t' :
  complete_session mid s w → frame_ok mid w → frame_trusted mid w →
  session_ok (w_disk w) (w_db w) mid s → hash_ok (w_disk w) mid s →
  hash_mismatch root conn mid offset s w t = (u, w', t') →
  worker_ok w' ∧ error_reply conn mid offset w w' ∧ notified w' = notified w.
Proof.
  intros (Hmid & Hs & Hrow & Hrec & Hch) Hf Ht Hok Hh Hrun. unfold hash_mismatch in Hrun. cbv zeta in Hrun.
  set (s1 := set_mismatches s _) in Hrun.
  assert (Hsu : same_upload s s1) by done.
  assert (Hok1 := session_ok_same _ _ _ _ _ Hsu Hok). assert (Hh1 : hash_ok (w_disk w) mid s1) by exact Hh.
  wbind Hrun v w1 t1 H1. apply put_inv in H1 as [-> ->].
  set (w1 := Worker _ _ _ _ _) in Hrun.
  assert (Hf1 : frame_ok mid w1) by (eapply frame_ok_same; [apply put_same_but | done]).
  assert (Ht1 : frame_trusted mid w1) by (eapply frame_trusted_same; [apply put_same_but | done]).
  assert (Hs1 : upload_sessions w1 !! mid = Some s1) by apply lookup_insert_eq.
  destruct (3 <=? whole_hash_mismatches s1).
  - wbind Hrun marked w2 t2 H2. apply dao_inv in H2 as (b2 & H2 & ->).
    destruct (MarkResourceFailed_spec _ _ _ _ _ _ (proj1 (proj2 Hf1)) H2) as (Hinv2 & Hrk & Hnp).
    assert (Hf2 : frame_ok mid (with_db w1 b2)).
    { apply frame_ok_db; [done | done | done |]. intros m m' res Hm Hst Hm' Hst' _.
      destruct (Hnp _ _ Hm' Hst') as (m2 & Hm2 & Hst2). congruence. }
    assert (Hok2 : session_ok (w_disk w) b2 mid s1).
    { destruct Hok1 as (Hr1 & Hp1 & Hc1). split_and!; [by eapply session_row_kept | done |].
      intros Ha. cbn in Ha. by rewrite Hch in Ha. }
    destruct marked; cbn [negb] in Hrun.
    + wbind Hrun rm w3 t3 H3. apply io_inv in H3 as (d3 & H3 & ->).
      pose proof (remove_writes_only _ _ _ _ _ _ H3) as Hwo. apply remove_spec in H3 as (Hw3 & _).
      wbind Hrun v2 w4 t4 H4. apply erase_inv in H4 as [-> ->]. apply send_inv in Hrun as ->.
      destruct (dropped_ok mid (with_db w1 b2) d3
        (sent w ++ [(conn, MsgId_code MSG_RESOURCE_CHUNK_UPLOAD_RSP,
           chunk_reply (rs RS_RESOURCE_STATE_INVALID) mid offset 0 (st Failed) 0)]) Hmid Hf2 Ht1
        (Hw3 (proj1 Hf)) Hwo) as [Hwok Htr].
      split; [exact Hwok |]. split; [| done]. exists (rs RS_RESOURCE_STATE_INVALID), 0, (st Failed).
      split; [done |]. split; [right; exact Htr | done].
    + eapply (error_send_spec _ _ _ _ _ w) in Hrun; try done.
  - wbind Hrun rm w3 t3 H3. apply io_inv in H3 as (d3 & H3 & ->).
    pose proof (remove_writes_only _ _ _ _ _ _ H3) as Hwo. apply remove_spec in H3 as (Hw3 & _ & _ & _ & _ & Hb).
    destruct rm; cbn [negb] in Hrun.
    2: { subst d3. eapply (error_send_spec _ _ _ _ _ w) in Hrun; try done. }
    wbind Hrun h w4 t4 H4. apply io_with_tape_inv in H4 as [-> H4].
    wbind Hrun v2 w5 t5 H5. apply put_inv in H5 as [-> ->]. apply send_inv in Hrun as ->.
    assert (Hpb : part_bytes d3 (Part mid) = []) by (unfold part_bytes, content; by rewrite Hb).
    destruct (put_back_ok mid w1 d3 (set_hash (set_received s1 0) h true [])
      (sent w ++ [(conn, MsgId_code MSG_RESOURCE_CHUNK_UPLOAD_RSP,
        chunk_reply (rs RS_FILE_CONTENT_MISMATCH) mid offset 0 (st Pending) 0)]) Hmid Hf1 Ht1
      (Hw3 (proj1 Hf)) Hwo) as [Hwok _].
    { destruct Hok1 as (Hr1 & Hp1 & Hc1). split_and!; [done | | done].
      pose proof (complete_session_row _ _ _ (proj1 (proj2 (proj2 Hf))) Hrow).
      unfold part_ok. rewrite Hpb. change (zlen []) with 0. cbn [file_size_bytes received set_hash set_received].
      change (file_size_bytes s1) with (file_size_bytes s). unfold kUploadChunkSize, kResourceChunkSize. lia. }
    split; [exact Hwok |]. split; [| done]. exists (rs RS_FILE_CONTENT_MISMATCH), 0, (st Pending).
    split; [done |]. split; [by left | done].
Qed.

(** ** Whole requests *)

Definition rsp (conn : Z) (j : json) : Z * Z * json :=
  (conn, MsgId_code MSG_RESOURCE_CHUNK_UPLOAD_RSP, j).

(** What request 1505 does: no reply, an error, progress, an upload that was
    published before, or a publication. *)
Inductive chunk_outcome (conn mid offset : Z) (w w' : worker) : Prop :=
  | OutSilent :
      worker_trusted w' → sent w' = sent w → notified w' = notified w → chunk_outcome conn mid offset w w'
  | OutError :
      error_reply conn mid offset w w' → notified w' = notified w → chunk_outcome conn mid offset w w'
  | OutProgress r :
      worker_trusted w' → notified w' = notified w →
      sent w' = sent w ++ [rsp conn (chunk_reply ok_code mid offset r (st Pending) 0)] →
      chunk_outcome conn mid offset w w'
  | OutAlready m res seq :
      worker_trusted w' → notified w' = notified w →
      chat_messages (w_db w') !! mid = Some m → m_status m = Published →
      message_resources (w_db w') !! mid = Some res →
      sent w' = sent w ++ [rsp conn (chunk_reply ok_code mid offset (r_size res) (st Published) seq)] →
      chunk_outcome conn mid offset w w'
  | OutPublished seq c sha size :
      worker_trusted w' → published mid seq c sha size w' →
      sent w' = sent w ++ [rsp conn (published_chunk_reply mid offset size seq)] →
      notified w' = notified w ++ [(mid, message_type c, recipient_user_id c)] →
      chunk_outcome conn mid offset w w'.

Lemma chunk_outcome_from conn mid offset w w1 w' :
  sent w1 = sent w → notified w1 = notified w →
  chunk_outcome conn mid offset w1 w' → chunk_outcome conn mid offset w w'.
Proof.
  intros Hs Hn [| (e & off & stt & He & Ho & Hsent) | r | m res seq | seq c sha size].
  - apply OutSilent; [done | congruence..].
  - apply OutError; [exists e, off, stt | congruence]. split; [done |]. split; [done | congruence].
  - apply (OutProgress _ _ _ _ _ r); [done | congruence..].
  - apply (OutAlready _ _ _ _ _ m res seq); [done | congruence | done | done | done | congruence].
  - apply (OutPublished _ _ _ _ _ seq c sha size); [done | done | congruence..].
Qed.

Lemma CompleteResourceUpload_done conn mid offset s w t u w' t' :
  complete_session mid s w → frame_ok mid w → frame_trusted mid w →
  session_ok (w_disk w) (w_db w) mid s → hash_ok (w_disk w) mid s →
  CompleteResourceUpload root conn mid offset s w t = (u, w', t') →
  worker_ok w' ∧ chunk_outcome conn mid offset w w'.
Proof.
  intros Hcs Hf Ht Hok Hh Hrun. pose proof Hcs as (Hmid & Hs & Hrow & Hrec & Hch).
  assert (Hz : zlen (part_bytes (w_disk w) (Part mid)) = file_size_bytes s).
  { destruct Hok as (_ & [? ?] & _). lia. }
  unfold CompleteResourceUpload in Hrun. cbv zeta in Hrun. wbind Hrun s1 w1 t1 H1.
  apply whole_hash_spec in H1 as (Hsu & Hh1 & Hsame & Hs1 & Hse1 & Hno1); try done.
  pose proof (frame_ok_same _ _ _ Hsame Hf) as Hf1. pose proof (frame_trusted_same _ _ _ Hsame Ht) as Ht1.
  destruct Hsame as (Hd1 & Hb1 & _). rewrite <- Hd1 in *. rewrite <- Hb1 in *.
  assert (Hok1 := session_ok_same _ _ _ _ _ Hsu Hok). destruct Hsu as (Hsz1 & Hsh1 & Hr1 & Hsn1 & Hch1).
  assert (Hcs1 : complete_session mid s1 w1).
  { split_and!; try done; [apply Hok1 | congruence | congruence]. }
  assert (Herr : error_reply conn mid offset w1 w' → notified w' = notified w1 → chunk_outcome conn mid offset w w').
  { intros (e & off & stt & He & Hor & Hsent) Hn. apply OutError; [| congruence].
    exists e, off, stt. by rewrite <- Hse1. }
  destruct (bool_decide (final_hex s1 = [])) eqn:E1.
  { eapply (error_send_spec _ _ _ _ _ w1) in Hrun as (? & ? & ?); try done. auto. }
  apply bool_decide_eq_false in E1. destruct Hh1 as [Hv1 Hf1']. destruct (Hf1' E1) as [_ Hhex].
  destruct (bool_decide (final_hex s1 = sha256_of s1)) eqn:E2; cbn [negb] in Hrun.
  2: { eapply hash_mismatch_spec in Hrun as (? & ? & ?); try done. auto. }
  apply bool_decide_eq_true in E2.
  wbind Hrun fl w2 t2 H2. apply io_inv in H2 as (d2 & H2 & ->). apply FlushFileToDisk_spec in H2.
  destruct fl; cbn [negb] in Hrun.
  2: { subst d2. eapply (error_send_spec _ _ _ _ _ w1) in Hrun as (? & ? & ?); try done. auto. }
  destruct H2 as (i & Hi & ->). set (w2 := with_disk w1 _) in Hrun.
  assert (Hf2 : frame_ok mid w2) by apply Hf1. assert (Ht2 : frame_trusted mid w2) by apply Ht1.
  wbind Hrun r w3 t3 H3. eapply publish_section_spec in H3 as [Hn3 Hr3]; try done.
  2: { exists i. split; [done |]. cbn. clear. set_solver. }
  2: { cbn. change (part_bytes (mark_flushed (w_disk w1) i) (Part mid)) with (part_bytes (w_disk w1) (Part mid)). congruence. }
  2: { cbn. change (part_bytes (mark_flushed (w_disk w1) i) (Part mid)) with (part_bytes (w_disk w1) (Part mid)). congruence. }
  destruct r as [[seq c] |].
  2: { injection Hrun as <- <- <-. destruct Hr3. split; [done |]. by apply Herr. }
  destruct Hr3 as (Hf3 & Ht3 & Hse3 & Hpub).
  wbind Hrun v w4 t4 H4. apply erase_inv in H4 as [-> ->]. wbind Hrun v2 w5 t5 H5. apply send_inv in H5 as ->.
  injection Hrun as <- <- <-. split.
  - apply (worker_ok_frame mid). split; [| cbn; intros y Hy; by rewrite lookup_delete_eq in Hy].
    eapply frame_ok_same; [| exact Hf3]. split_and!; try done. cbn. by rewrite delete_delete_eq.
  - apply (OutPublished _ _ _ _ _ seq c (sha256_of s1) (file_size_bytes s1)).
    + apply (worker_trusted_frame mid). split; [| cbn; intros y Hy; by rewrite lookup_delete_eq in Hy].
      eapply frame_trusted_same; [| exact Ht3]. split_and!; try done. cbn. by rewrite delete_delete_eq.
    + done.
    + cbn. rewrite Hse3. cbn. rewrite Hse1. unfold rsp. do 5 f_equal. lia.
    + cbn. rewrite Hn3. cbn. by rewrite Hno1.
Qed.

(** The streamed digest after a confirmed chunk. *)
Lemma update_hash_spec mid s r data off w t s2 w' t' d' :
  hash_ok (w_disk w) mid s → 0 <= received s <= file_size_bytes s →
  off = received s ∧ r = received s + zlen data ∧ 0 < zlen data ∧ r <= file_size_bytes s ∧
    ztake r (part_bytes d' (Part mid)) = ztake (received s) (part_bytes (w_disk w) (Part mid)) ++ data ∨
  off < received s ∧ r = received s ∧ d' = w_disk w →
  (if (off =? received s) && hash_valid (set_received s r) then
     '(ok, h) ← io (with_tape (λ t, let '(ok, h, t) := Update (hasher s) data t in ((ok, h), t)));
     mret (set_hash (set_received s r) h ok (final_hex (set_received s r)))
   else mret (set_received s r)) (with_disk w d') t = (s2, w', t') →
  w' = with_disk w d' ∧ hash_ok d' mid s2 ∧
  file_size_bytes s2 = file_size_bytes s ∧ sha256_of s2 = sha256_of s ∧ received s2 = r ∧
  sender_of s2 = sender_of s ∧ chal s2 = chal s.
Proof.
  intros [Hv Hf] Hr Hc Hrun. destruct Hc as [(-> & -> & Hz & Hle & Hpre) | (Hlt & -> & ->)].
  - assert (Hnf : final_hex s = []).
    { destruct (final_hex s) eqn:E; [done |]. destruct Hf as [Hf _]; [done |]. lia. }
    rewrite Z.eqb_refl in Hrun. cbn [andb] in Hrun.
    destruct (hash_valid (set_received s (received s + zlen data))) eqn:Ev; cbn in Ev.
    2: { injection Hrun as <- <- <-. split; [done |]. split; [| done].
         split; cbn; [by rewrite Ev | by rewrite Hnf]. }
    wbind Hrun x w2 t2 H2. destruct x as [ok h]. apply io_with_tape_inv in H2 as [-> H2].
    injection Hrun as <- <- <-. split; [done |]. split; [| done]. destruct (Hv Ev) as [Hctx Hf0].
    unfold Update in H2. rewrite (Hf0 Hnf) in H2. cbn in H2.
    destruct (ctx (hasher s)) as [a |] eqn:Ec.
    + destruct (tape_next t) as [[| k] t3]; injection H2 as <- <- <-.
      * pose proof (Hctx a eq_refl) as ->. split; cbn; [| by rewrite Hnf].
        intros _. split; [| done]. intros ? [= <-]. by rewrite Hpre.
      * split; cbn; [done | by rewrite Hnf].
    + injection H2 as <- <- <-. split; cbn; [done | by rewrite Hnf].
  - rewrite (proj2 (Z.eqb_neq off (received s))) in Hrun by lia. cbn [andb] in Hrun.
    injection Hrun as <- <- <-. split; [done |]. split; [| done]. by split.
Qed.

Lemma write_chunk_done conn mid offset sha data s w t u w' t' :
  0 < mid → upload_sessions w !! mid = Some s →
  frame_ok mid w → frame_trusted mid w →
  session_ok (w_disk w) (w_db w) mid s → hash_ok (w_disk w) mid s →
  write_chunk root conn mid offset sha data s w t = (u, w', t') →
  worker_ok w' ∧ chunk_outcome conn mid offset w w'.
Proof.
  intros Hmid Hs Hf Ht Hok Hh Hrun. unfold write_chunk in Hrun. cbv zeta in Hrun.
  set (s1 := set_chal s (suppress (deactivate (chal s)))) in Hrun.
  pose proof Hok as (Hrow & Hpart & _). pose proof Hf as (Hw & _ & Hpos & _ & _).
  destruct (session_row_pos _ _ _ Hpos Hrow) as [_ Hsz].
  assert (Hoff : 0 <= u64 offset) by apply u64_range.
  wbind Hrun x w1 t1 H1. destruct x as [err r]. apply io_inv in H1 as (d1 & H1 & ->).
  eapply WriteUploadChunk_spec in H1 as (Hw1 & Hwo & Hpo & Hsucc & Herr); [| done | done | done | exact Hpart].
  destruct (negb (err =? ok_code)) eqn:Ee; cbv iota in Hrun.
  - assert (He : err ≠ 0) by (bool_to_prop; done).
    wbind Hrun v w2 t2 H2. apply put_inv in H2 as [-> ->]. apply send_inv in Hrun as ->.
    set (s2 := set_hash (set_received s1 r) (hasher (set_received s1 r)) false []).
    destruct (put_back_ok mid w d1 s2
      (sent w ++ [rsp conn (chunk_reply err mid offset r (-1) 0)]) Hmid Hf Ht Hw1 Hwo) as [Hwok Htr].
    { split_and!; [done | exact Hpo | done]. }
    split; [exact Hwok |]. apply OutError; [| done]. exists err, r, (-1). split; [done |]. split; [right | done].
    apply Htr. split; [done |]. by intros ?.
  - assert (He : err = 0) by (by bool_to_prop). destruct (Hsucc He) as (_ & Hz & _ & Hc).
    wbind Hrun s2 w2 t2 H2.
    eapply (update_hash_spec mid s1 r data (u64 offset)) in H2 as (-> & Hh2 & Hsz2 & Hsh2 & Hr2 & Hsn2 & Hch2);
      [| exact Hh | exact (proj1 Hpart) |].
    2: { destruct Hc as [(Ho & -> & Hpre) | (Ho & -> & -> & _)]; [left | by right].
         destruct Hpo as [[_ Hle] _]. split_and!; try done. }
    assert (Hok2 : session_ok d1 (w_db w) mid s2).
    { split_and!; [| by rewrite Hsz2, Hr2 | by rewrite Hch2].
      destruct Hrow as (m & res & ? & ? & ? & ? & ?). exists m, res. rewrite Hsz2, Hsh2, Hsn2. done. }
    wbind Hrun v w3 t3 H3. apply put_inv in H3 as [-> ->].
    destruct (put_back_ok mid w d1 s2 (sent w) Hmid Hf Ht Hw1 Hwo Hok2) as [Hwok Htr].
    specialize (Htr Hh2).
    destruct (received s2 =? file_size_bytes s2) eqn:Er.
    + apply Z.eqb_eq in Er. apply (worker_ok_frame mid) in Hwok as [Hf3 _].
      apply (worker_trusted_frame mid) in Htr as [Ht3 _].
      eapply CompleteResourceUpload_done in Hrun as [Hwok' Hout]; try done.
      * split; [done |]. by eapply chunk_outcome_from; [| | exact Hout].
      * split_and!; try done; [cbn; apply lookup_insert_eq | apply Hok2 | by rewrite Hch2].
    + apply send_inv in Hrun as ->. split.
      * apply (worker_ok_frame mid) in Hwok as [Hf3 Hm3]. apply (worker_ok_frame mid).
        split; [by eapply frame_ok_same; [| exact Hf3] | exact Hm3].
      * apply (OutProgress _ _ _ _ _ (received s2)); [exact Htr | done | done].
Qed.

(** A worker that is in order, with or without the session of [mid]. *)
Definition opened (mid : Z) (so : option UploadSession) (w w' : worker) : Prop :=
  worker_ok w' ∧ worker_trusted w' ∧ w_db w' = w_db w ∧ sent w' = sent w ∧ notified w' = notified w ∧
  upload_sessions w' !! mid = so.

Lemma Init_fresh t h t' : Init t = (h, t') → final h = [] ∧ ∀ a, ctx h = Some a → a = [].
Proof.
  unfold Init. destruct (tape_next t) as [a t1]. destruct (io_ok a); cbn; [| by intros [= <- _]].
  destruct (tape_next t1) as [i t2]. destruct (io_ok i); intros [= <- _]; [| done]. split; [done |].
  by intros b [= <-].
Qed.

Lemma LoadUploadSession_done now mid c w t so w' t' :
  worker_ok w → worker_trusted w → upload_sessions w !! mid = None →
  chat_message_of (w_db w) mid = Some c →
  LoadUploadSession root now mid c w t = (so, w', t') → opened mid so w w'.
Proof.
  intros Hok Ht Hs Hc Hrun. apply chat_message_of_Some in Hc as (m & Hm & Hres & Hsnd & _).
  pose proof Hok as (Hw & _ & Hpos & _). pose proof (proj1 Hpos mid m Hm) as Hmid.
  pose proof (proj2 Hpos mid _ Hres) as Hsz.
  apply (worker_ok_frame mid) in Hok as [Hf _]. apply (worker_trusted_frame mid) in Ht as [Htr _].
  unfold LoadUploadSession in Hrun. wbind Hrun h w1 t1 H1. apply io_with_tape_inv in H1 as [-> H1].
  apply Init_fresh in H1 as [Hfin Hctx].
  wbind Hrun r w2 t2 H2. apply io_inv in H2 as (d2 & H2 & ->).
  destruct r as [r |].
  - apply RecoverUploadFile_spec in H2 as (Hw2 & Hwo & Hpo & _); [| done | done | lia].
    wbind Hrun u w3 t3 H3. apply put_inv in H3 as [-> ->]. injection Hrun as <- <- <-.
    set (s' := Upload _ _ _ _ _ _ _ _ _ _ _).
    destruct (put_back_ok mid w d2 s' (sent w) Hmid Hf Htr Hw2 Hwo) as [Hwok Htr'].
    { split_and!; [| exact Hpo | done]. by exists m, (resource c). }
    split_and!; try done; [apply Htr' | apply lookup_insert_eq].
    split; [| done]. cbn. intros Hr0. apply Z.eqb_eq in Hr0 as ->. split; [| done].
    intros a Ha. by rewrite (Hctx a Ha).
  - injection Hrun as <- <- <-.
    apply RecoverUploadFile_any in H2 as (Hw2 & Hwo); [| done | done | lia].
    destruct (dropped_ok mid w d2 (sent w) Hmid Hf Htr Hw2 Hwo) as [H1 H3].
    rewrite delete_id in H1, H3 by done. done.
Qed.

Lemma filter_ok {P : Z → UploadSession → Prop} (F : Z * UploadSession → Prop) `{∀ x, Decision (F x)}
    (S : gmap Z UploadSession) :
  map_Forall P S → map_Forall P (filter F S).
Proof. intros Hs n s [Hn _]%map_lookup_filter_Some. by apply Hs. Qed.

Lemma FindUploadSession_spec now mid w t so w' t' :
  worker_ok w → worker_trusted w → FindUploadSession now mid w t = (so, w', t') → opened mid so w w'.
Proof.
  intros Hok Ht. unfold FindUploadSession. destruct (upload_sessions w !! mid) as [s |] eqn:Es.
  2: { intros [= <- <- <-]. by split_and!. }
  cbn. intros [= <- <- <-].
  pose proof Hok as (Hw & _ & Hpos & _ & Hs). destruct (Hs mid s Es) as (Hrow & Hp & Hc).
  destruct (session_row_pos _ _ _ Hpos Hrow) as [Hmid _].
  pose proof (proj2 Ht mid s Es) as Hh.
  apply (worker_ok_frame mid) in Hok as [Hf _]. apply (worker_trusted_frame mid) in Ht as [Htr _].
  destruct (put_back_ok mid w (w_disk w) (set_last_active s now) (sent w) Hmid Hf Htr Hw) as [Hwok Htr'];
    [by split_and! | by split_and! |].
  split_and!; try done; [by apply Htr' | apply lookup_insert_eq].
Qed.

(** A reply that changes nothing else. *)
Lemma sent_ok w x : worker_ok w → worker_ok (Worker (w_disk w) (w_db w) (upload_sessions w) x (notified w)).
Proof. done. Qed.

Lemma sent_trusted w x :
  worker_trusted w → worker_trusted (Worker (w_disk w) (w_db w) (upload_sessions w) x (notified w)).
Proof. done. Qed.

Lemma open_session_done now conn uid mid offset w t so w' t' :
  worker_ok w → worker_trusted w → upload_sessions w !! mid = None →
  open_session root now conn uid mid offset w t = (so, w', t') →
  match so with
  | Some s => opened mid so w w'
  | None => worker_ok w' ∧ chunk_outcome conn mid offset w w'
  end.
Proof.
  intros Hok Ht Hs Hrun. unfold open_session in Hrun. cbv zeta in Hrun.
  assert (Herr : ∀ error off stt w1 t1, error ≠ 0 → opened mid None w w1 →
    (send conn (MsgId_code MSG_RESOURCE_CHUNK_UPLOAD_RSP) (chunk_reply error mid offset off stt 0);; mret None)
      w1 t1 = (so, w', t') → so = None ∧ worker_ok w' ∧ chunk_outcome conn mid offset w w').
  { intros error off stt w1 t1 He (Hok1 & Ht1 & _ & Hse & Hno & _) Hr.
    wbind Hr u w2 t2 H2. apply send_inv in H2 as ->. injection Hr as <- <- <-.
    split; [done |]. split; [exact Hok1 |]. apply OutError; [| exact Hno]. exists error, off, stt.
    split; [done |]. split; [right; exact Ht1 |]. cbn. by rewrite Hse. }
  assert (Hself : opened mid None w w) by (by split_and!).
  wbind Hrun lk w1 t1 H1. apply dao_inv in H1 as (b & H1 & ->). apply GetChatMsgById_spec in H1 as [-> Hlk].
  assert (Hw : with_db w (w_db w) = w) by (by destruct w). rewrite Hw in Hrun.
  destruct lk as [c | |].
  2: { by apply (Herr (rs RS_MSG_ID_ERR)) in Hrun as (-> & ?). }
  2: { by apply (Herr rpc_failed) in Hrun as (-> & ?). }
  specialize (Hlk c eq_refl).
  destruct ((uid =? 0) || _). { by apply (Herr (rs RS_RESOURCE_FORBIDDEN)) in Hrun as (-> & ?). }
  destruct (negb _ && _). { by apply (Herr (rs RS_RESOURCE_STATE_INVALID)) in Hrun as (-> & ?). }
  destruct (status c) eqn:Est.
  - wbind Hrun so1 w2 t2 H2. apply LoadUploadSession_done in H2; try done.
    destruct so1 as [s |]; [by injection Hrun as <- <- <- |].
    by apply (Herr rpc_failed) in Hrun as (-> & ?).
  - apply chat_message_of_Some in Hlk as (m & Hm & Hres & _ & _ & Hst & _).
    wbind Hrun u w2 t2 H2. apply send_inv in H2 as ->. injection Hrun as <- <- <-.
    split; [by apply sent_ok |].
    apply (OutAlready _ _ _ _ _ m (resource c) (event_seq c)); try done. by rewrite <- Hst.
  - by apply (Herr (rs RS_RESOURCE_STATE_INVALID)) in Hrun as (-> & ?).
Qed.

Lemma HandleResourceChunk_done now conn uid mid offset open sha data w t u w' t' :
  worker_ok w → worker_trusted w →
  HandleResourceChunk root now conn uid mid offset open sha data w t = (u, w', t') →
  worker_ok w' ∧ chunk_outcome conn mid offset w w'.
Proof.
  intros Hok Ht Hrun. unfold HandleResourceChunk in Hrun.
  destruct open; cbn [negb] in Hrun.
  2: { injection Hrun as <- <- <-. split; [done | by apply OutSilent]. }
  wbind Hrun v w1 t1 H1. injection H1 as <- <- <-.
  set (w1 := Worker _ _ _ _ _) in Hrun.
  assert (Hok1 : worker_ok w1).
  { destruct Hok as (? & ? & ? & ? & Hs). split_and!; try done. by apply filter_ok. }
  assert (Ht1 : worker_trusted w1) by (destruct Ht; split; [done | by apply filter_ok]).
  wbind Hrun cached w2 t2 H2. apply FindUploadSession_spec in H2; [| done | done].
  wbind Hrun so w3 t3 H3.
  assert (Hso : match so with
    | Some s => opened mid so w1 w3
    | None => worker_ok w3 ∧ chunk_outcome conn mid offset w1 w3
    end).
  { destruct cached as [s |]; [by injection H3 as <- <- <- |].
    destruct H2 as (Hok2 & Ht2 & Hdb & Hse & Hno & Hs). apply open_session_done in H3; try done.
    destruct so as [s |].
    - destruct H3 as (? & ? & ? & ? & ? & ?). split_and!; try done; congruence.
    - destruct H3 as [Hok3 Hout]. split; [done |].
      exact (chunk_outcome_from _ _ _ _ _ _ Hse Hno Hout). }
  destruct so as [s |].
  2: { injection Hrun as <- <- <-. destruct Hso as [? Hout]. split; [done |].
       by apply (chunk_outcome_from _ _ _ w w1). }
  destruct Hso as (Hok3 & Ht3 & Hdb & Hse & Hno & Hs).
  destruct ((uid =? 0) || _).
  - apply send_inv in Hrun as ->. split; [by apply sent_ok |]. apply OutError; [| exact Hno].
    exists (rs RS_RESOURCE_FORBIDDEN), 0, (-1). split; [done |]. split; [right; by apply sent_trusted |].
    cbn. by rewrite Hse.
  - pose proof Hok3 as (_ & _ & Hpos & _ & Hss). pose proof (Hss mid s Hs) as Hsok.
    destruct (session_row_pos _ _ _ Hpos (proj1 Hsok)) as [Hmid _].
    pose proof (proj2 Ht3 mid s Hs) as Hh.
    apply (worker_ok_frame mid) in Hok3 as [Hf _]. apply (worker_trusted_frame mid) in Ht3 as [Htr _].
    apply write_chunk_done in Hrun as [Hok' Hout]; try done. split; [done |].
    exact (chunk_outcome_from _ _ _ w w3 _ Hse Hno Hout).
Qed.

Lemma without_ok w mid : worker_ok w → worker_ok (without w mid).
Proof.
  intros (? & ? & ? & ? & Hs). split_and!; try done. cbn. intros n s [_ Hn]%lookup_delete_Some. by apply Hs.
Qed.

Lemma without_trusted w mid : worker_trusted w → worker_trusted (without w mid).
Proof.
  intros (? & Hs). split; [done |]. cbn. intros n s [_ Hn]%lookup_delete_Some. by apply Hs.
Qed.

(** *** Request 1507 *)

Lemma instant_hit_spec uid res w t r w' t' :
  instant_hit root uid res w t = (r, w', t') →
  w' = w ∧ (r = Some true → published_content (w_db w) (r_sha res) (r_size res)).
Proof.
  intros Hrun. unfold instant_hit in Hrun. wbind Hrun tri w1 t1 H1.
  apply dao_inv in H1 as (b & H1 & ->). apply SenderHasPublishedContent_spec in H1 as [-> Hyes].
  assert (Hw : with_db w (w_db w) = w) by (by destruct w). rewrite Hw in Hrun.
  destruct tri; [| by injection Hrun as <- <- <- ..].
  wbind Hrun n w2 t2 H2. apply io_inv in H2 as (d & H2 & ->). injection Hrun as <- <- <-.
  unfold file_size, mbind, IO_bind, syscall, get, mret, IO_ret in H2.
  destruct (tape_next t1) as [o t3]. injection H2 as _ <- _. split; [by destruct w |]. intros _.
  destruct (Hyes eq_refl) as (mid & m & r & ? & ? & ? & ? & ?). by exists mid, m, r.
Qed.

Definition progress_only (w w' : worker) : Prop :=
  worker_ok w' ∧ worker_trusted w' ∧ w_db w' = w_db w ∧ notified w' = notified w ∧
  ∃ conn j, sent w' = sent w ++ [(conn, MsgId_code MSG_RESOURCE_UPLOAD_PROGRESS_RSP, j)].

Lemma progress_send conn j w w1 t u w' t' so mid :
  opened mid so w w1 →
  send conn (MsgId_code MSG_RESOURCE_UPLOAD_PROGRESS_RSP) j w1 t = (u, w', t') → progress_only w w'.
Proof.
  intros (Hok & Ht & Hdb & Hse & Hno & _) Hr. apply send_inv in Hr as ->. split_and!; try done.
  exists conn, j. cbn. by rewrite Hse.
Qed.

Lemma pending_progress_done entropy now conn uid mid c s w0 w t u w' t' :
  opened mid (Some s) w0 w → chat_message_of (w_db w) mid = Some c →
  pending_progress root entropy now conn uid mid c s w t = (u, w', t') → progress_only w0 w'.
Proof.
  intros Hop Hc Hrun. unfold pending_progress in Hrun. cbv zeta in Hrun.
  destruct (negb (received s =? 0) || _ || _); [by eapply progress_send |].
  wbind Hrun hit w1 t1 H1. apply instant_hit_spec in H1 as [-> Hhit].
  destruct hit as [[] |]; [| by eapply progress_send ..].
  wbind Hrun ch w2 t2 H2. apply io_with_tape_inv in H2 as [-> H2].
  destruct ch as [ch |]; [| by eapply progress_send].
  pose proof Hop as (Hok & Ht & Hdb & Hse & Hno & Hs).
  pose proof Hok as (Hw & _ & Hpos & _ & Hss). destruct (Hss mid s Hs) as (Hrow & Hp & _).
  pose proof (proj2 Ht mid s Hs) as Hh. destruct (session_row_pos _ _ _ Hpos Hrow) as [Hmid _].
  apply (worker_ok_frame mid) in Hok as [Hf _]. apply (worker_trusted_frame mid) in Ht as [Htr _].
  wbind Hrun v w3 t3 H3. apply put_inv in H3 as [-> ->]. apply send_inv in Hrun as ->.
  destruct (put_back_ok mid w (w_disk w) (set_chal s ch) (sent w ++ [(conn, MsgId_code MSG_RESOURCE_UPLOAD_PROGRESS_RSP,
    progress_challenge mid (r_size (resource c)) (r_sha (resource c)) (ToLowerHex (nonce_raw ch)) (ch_offset ch) (ch_length ch))])
    Hmid Hf Htr Hw) as [Hwok Htr']; [by split_and! | |].
  { split_and!; [exact Hrow | exact Hp |]. intros _. apply chat_message_of_Some in Hc as (m & Hm & Hres & _).
    destruct Hrow as (m' & res & _ & Hres' & Hsz & Hsh & _). simplify_eq. cbn [set_chal sha256_of file_size_bytes].
    rewrite Hsz, Hsh. by apply Hhit. }
  split_and!; [exact Hwok | by apply Htr' | done | done |]. eexists _, _. cbn. by rewrite Hse.
Qed.

Lemma UploadProgress_done entropy now conn uid mid w t u w' t' :
  worker_ok w → worker_trusted w →
  UploadProgress root entropy now conn uid mid w t = (u, w', t') → progress_only w w'.
Proof.
  intros Hok Ht Hrun. unfold UploadProgress in Hrun. cbv zeta in Hrun.
  assert (Hself : opened mid (upload_sessions w !! mid) w w) by (by split_and!).
  wbind Hrun lk w1 t1 H1. apply dao_inv in H1 as (b & H1 & ->). apply GetChatMsgById_spec in H1 as [-> Hlk].
  assert (Hw : with_db w (w_db w) = w) by (by destruct w). rewrite Hw in Hrun.
  destruct lk as [c | |]; [| by eapply progress_send ..]. specialize (Hlk c eq_refl).
  destruct ((uid =? 0) || _); [by eapply progress_send |].
  destruct (negb _ && _); [by eapply progress_send |].
  destruct (status c).
  - wbind Hrun cached w2 t2 H2. apply FindUploadSession_spec in H2; [| done | done].
    wbind Hrun so w3 t3 H3.
    assert (Hop : opened mid so w w3).
    { destruct cached as [s |]; [by injection H3 as <- <- <- |].
      destruct H2 as (Hok2 & Ht2 & Hdb & Hse & Hno & Hs). apply LoadUploadSession_done in H3; [| done | done | done |].
      - destruct H3 as (? & ? & ? & ? & ? & ?). split_and!; try done; congruence.
      - by rewrite Hdb. }
    destruct so as [s |]; [| by eapply progress_send].
    eapply pending_progress_done; [exact Hop | | exact Hrun]. destruct Hop as (_ & _ & -> & _). done.
  - by eapply progress_send.
  - wbind Hrun v w2 t2 H2. apply erase_inv in H2 as [-> ->]. eapply (progress_send _ _ _ _ _ _ _ _ None mid); [| exact Hrun].
    split_and!; try done; try (cbn; by rewrite lookup_delete_eq).
    + by apply without_ok.
    + by apply without_trusted.
Qed.

(** *** Request 1513 *)

Definition prsp (conn : Z) (j : json) : Z * Z * json :=
  (conn, MsgId_code MSG_RESOURCE_INSTANT_PROOF_RSP, j).

(** No challenge of [mid] can be answered any more. *)
Definition challenge_dead (mid : Z) (w : worker) : Prop :=
  ∀ s, upload_sessions w !! mid = Some s → ch_active (chal s) = false.

(** The proof is the digest of the nonce and the section of the blob. *)
Definition proof_right (d : disk) (sha : bytes) (c : challenge) (proof : bytes) : Prop :=
  ∃ f, content d (Blob sha) = Some f ∧
    let section := zslice f (ch_offset c) (ch_length c) in
    zlen section = ch_length c ∧ proof = ToLowerHex (sha256 (nonce_raw c ++ section)).

(** A challenge handed out to this connection at most 120 seconds ago. *)
Definition challenge_live (now conn : Z) (c : challenge) : Prop :=
  ch_active c = true ∧ now - ch_issued_at c <= 120 * 1000000000 ∧ ch_session c = Some conn.

Lemma challenge_usable_live now conn c : challenge_usable now conn c = true → challenge_live now conn c.
Proof.
  unfold challenge_usable, challenge_live, kInstantProofChallengeTtl, kSecond. intros Hu. bool_to_prop.
  by split; [| split; [lia |]].
Qed.

Inductive proof_outcome (now conn mid : Z) (proof : bytes) (w w' : worker) : Prop :=
  | ProofError error stt :
      error ≠ 0 → notified w' = notified w →
      sent w' = sent w ++ [prsp conn (proof_error error mid stt)] →
      challenge_dead mid w' ∨ upload_sessions w' = upload_sessions w ∧ w_db w' = w_db w →
      proof_outcome now conn mid proof w w'
  | ProofAlready m res seq :
      notified w' = notified w → w_db w' = w_db w →
      chat_messages (w_db w) !! mid = Some m → m_status m = Published →
      message_resources (w_db w) !! mid = Some res →
      sent w' = sent w ++ [prsp conn (proof_success mid (r_size res) seq)] →
      challenge_dead mid w' → proof_outcome now conn mid proof w w'
  | ProofDone s seq m ty rcp res :
      upload_sessions w !! mid = Some s → challenge_live now conn (chal s) →
      message_resources (w_db w) !! mid = Some res →
      proof_right (w_disk w) (r_sha res) (chal s) proof →
      chat_messages (w_db w') !! mid = Some m → m_status m = Published →
      recipient_of (w_db w') m = Some rcp →
      user_events (w_db w') !! (rcp, seq) = Some (message_event ty mid) → ty = m_type m →
      sent w' = sent w ++ [prsp conn (proof_success mid (r_size res) seq)] →
      notified w' = notified w ++ [(mid, ty, rcp)] →
      challenge_dead mid w' → proof_outcome now conn mid proof w w'.

Lemma read_section_spec p off len d t r d' t' :
  read_section p off len d t = (r, d', t') →
  d' = d ∧ ∀ sec, r = Some sec → zlen sec = len →
    ∃ f, content d p = Some f ∧ sec = zslice f off len.
Proof.
  unfold read_section, mbind, IO_bind, syscall, get, mret, IO_ret.
  destruct (tape_next t) as [o t1].
  destruct (if io_ok o then content d p else None) as [f |] eqn:Ef; [| by intros [= <- <- <-]].
  assert (Hf : content d p = Some f) by (by destruct (io_ok o)).
  destruct (tape_next t1) as [r0 t2]. intros [= <- <- <-]. split; [done |].
  intros sec [= <-] Hz. exists f. split; [done |]. destruct r0 as [| k]; [done |]. cbn in Hz |- *.
  apply take_ge. unfold zlen in Hz. rewrite length_take in Hz. unfold zslice in *. rewrite length_take in *. lia.
Qed.

(** A step that keeps worker and database and only replies. *)
Lemma proof_send conn error mid stt w0 w t u w' t' :
  sent w = sent w0 → notified w = notified w0 →
  send conn (MsgId_code MSG_RESOURCE_INSTANT_PROOF_RSP) (proof_error error mid stt) w t = (u, w', t') →
  w' = Worker (w_disk w) (w_db w) (upload_sessions w) (sent w0 ++ [prsp conn (proof_error error mid stt)]) (notified w0).
Proof. intros Hs Hn Hr. apply send_inv in Hr as ->. by rewrite Hs, Hn. Qed.

Definition proof_failed (conn mid : Z) (w w' : worker) : Prop :=
  worker_ok w' ∧ worker_trusted w' ∧ notified w' = notified w ∧ challenge_dead mid w' ∧
  ∃ error stt, error ≠ 0 ∧ sent w' = sent w ++ [prsp conn (proof_error error mid stt)].

(** A reply after the session of [mid] has been dropped or replaced by one
    without a challenge. *)
Lemma proof_drop_send conn mid error stt w t u w' t' :
  worker_ok w → worker_trusted w → error ≠ 0 →
  (erase_session mid;;
   send conn (MsgId_code MSG_RESOURCE_INSTANT_PROOF_RSP) (proof_error error mid stt)) w t = (u, w', t') →
  proof_failed conn mid w w'.
Proof.
  intros Hok Ht He Hr. wbind Hr v w1 t1 H1. apply erase_inv in H1 as [-> ->]. apply send_inv in Hr as ->.
  split_and!; try done; [by apply without_ok | by apply without_trusted | |].
  - intros s Hs. cbn in Hs. by rewrite lookup_delete_eq in Hs.
  - by exists error, stt.
Qed.

(** Replacing the challenge of a session by an inactive one. *)
Lemma put_chal_ok mid s c w :
  worker_ok w → worker_trusted w → upload_sessions w !! mid = Some s → ch_active c = false →
  let w' := Worker (w_disk w) (w_db w) (<[mid := set_chal s c]> (upload_sessions w)) (sent w) (notified w) in
  worker_ok w' ∧ worker_trusted w' ∧ challenge_dead mid w'.
Proof.
  intros Hok Ht Hs Hc w'. pose proof Hok as (Hw & _ & Hpos & _ & Hss). destruct (Hss mid s Hs) as (Hrow & Hp & _).
  pose proof (proj2 Ht mid s Hs) as Hh. destruct (session_row_pos _ _ _ Hpos Hrow) as [Hmid _].
  apply (worker_ok_frame mid) in Hok as [Hf _]. apply (worker_trusted_frame mid) in Ht as [Htr _].
  destruct (put_back_ok mid w (w_disk w) (set_chal s c) (sent w) Hmid Hf Htr Hw) as [Hwok Htr']; [by split_and! | |].
  { split_and!; [exact Hrow | exact Hp |]. cbn. by rewrite Hc. }
  split; [exact Hwok |]. split; [by apply Htr' |]. intros x Hx. cbn in Hx. rewrite lookup_insert_eq in Hx.
  by simplify_eq.
Qed.

Lemma put_suppressed_send conn mid error stt s w t u w' t' :
  worker_ok w → worker_trusted w → upload_sessions w !! mid = Some s → ch_active (chal s) = false → error ≠ 0 →
  (put_session mid (set_chal s (suppress (chal s)));;
   send conn (MsgId_code MSG_RESOURCE_INSTANT_PROOF_RSP) (proof_error error mid stt)) w t = (u, w', t') →
  proof_failed conn mid w w'.
Proof.
  intros Hok Ht Hs Hc He Hr. wbind Hr v w1 t1 H1. apply put_inv in H1 as [-> ->]. apply send_inv in Hr as ->.
  destruct (put_chal_ok mid s (suppress (chal s)) w Hok Ht Hs Hc) as (H1 & H2 & H3).
  split_and!; try done. by exists error, stt.
Qed.

Lemma fail_none_inv {A} (m : W unit) w t (r : option A) w' t' :
  (m;; mret None) w t = (r, w', t') → r = None ∧ ∃ u, m w t = (u, w', t').
Proof. intros Hr. wbind Hr u w1 t1 H1. injection Hr as <- <- <-. split; [done |]. by exists u. Qed.

Lemma W_assoc {A B C} (m : W A) (k : A → W B) (l : B → W C) w t :
  ((m ≫= k) ≫= l) w t = (m ≫= λ a, k a ≫= l) w t.
Proof. unfold mbind, W_bind. by destruct (m w t) as [[a w1] t1]. Qed.

Lemma proof_section_done conn mid c proof s w t r w' t' :
  worker_ok w → worker_trusted w → upload_sessions w !! mid = Some s → ch_active (chal s) = false →
  published_content (w_db w) (sha256_of s) (file_size_bytes s) →
  chat_message_of (w_db w) mid = Some c → IsValidSha256Hex proof = true →
  proof_section root conn mid c proof s w t = (r, w', t') →
  match r with
  | None => proof_failed conn mid w w'
  | Some seq => worker_ok w' ∧ worker_trusted w' ∧ sent w' = sent w ∧ notified w' = notified w ∧
      proof_right (w_disk w) (r_sha (resource c)) (chal s) proof ∧
      ∃ m, chat_messages (w_db w') !! mid = Some m ∧ m_status m = Published ∧
        recipient_of (w_db w') m = Some (recipient_user_id c) ∧ message_type c = m_type m ∧
        user_events (w_db w') !! (recipient_user_id c, seq) = Some (message_event (message_type c) mid)
  end.
Proof.
  intros Hok Ht Hs Hc Hpc Hmsg Hv Hrun. unfold proof_section in Hrun. cbv zeta in Hrun.
  assert (Hsup : ∀ error t1, error ≠ 0 →
    (put_session mid (set_chal s (suppress (chal s)));;
     send conn (MsgId_code MSG_RESOURCE_INSTANT_PROOF_RSP) (proof_error error mid (st Pending));; mret None) w t1
      = (r, w', t') → r = None ∧ proof_failed conn mid w w').
  { intros error t1 He Hr. rewrite <- W_assoc in Hr. apply fail_none_inv in Hr as (-> & u & Hr). split; [done |].
    by eapply put_suppressed_send in Hr. }
  wbind Hrun sec w1 t1 H1. apply io_inv in H1 as (d & H1 & ->). apply read_section_spec in H1 as [-> Hsec].
  assert (Hw : with_disk w (w_disk w) = w) by (by destruct w). rewrite Hw in Hrun.
  destruct sec as [sec |].
  2: { apply (Hsup (rs RS_INSTANT_PROOF_INVALID)) in Hrun as [-> ?]; done. }
  destruct (zlen sec =? ch_length (chal s)) eqn:Ez; cbn [negb] in Hrun.
  2: { apply (Hsup (rs RS_FILE_READ_FAILED)) in Hrun as [-> ?]; done. }
  apply Z.eqb_eq in Ez. destruct (Hsec sec eq_refl Ez) as (f & Hf & ->).
  wbind Hrun expect w2 t2 H2. apply io_with_tape_inv in H2 as [-> H2].
  destruct (zlen expect =? 64) eqn:E64; cbn [negb] in Hrun.
  2: { apply (Hsup rpc_failed) in Hrun as [-> ?]; done. }
  destruct (ConstantTimeEquals _ _ _) eqn:Ec; cbn [negb] in Hrun.
  2: { apply (Hsup (rs RS_INSTANT_PROOF_INVALID)) in Hrun as [-> ?]; done. }
  apply Z.eqb_eq in E64.
  assert (Hpr : proof_right (w_disk w) (r_sha (resource c)) (chal s) proof).
  { exists f. split; [done |]. cbv zeta. split; [done |].
    unfold ConstantTimeEquals in Ec. rewrite (proj2 (Z.eqb_neq (zlen expect) 0)) in Ec by lia.
    apply bool_decide_eq_true in Ec. unfold IsValidSha256Hex in Hv.
    destruct (zlen proof =? 64) eqn:Ep; [apply Z.eqb_eq in Ep | done].
    rewrite !ztake_all in Ec by lia. subst proof. unfold Sha256Hex in H2.
    destruct (tape_next t1) as [o t3]. injection H2 as <- _. destruct (io_ok o); [done |].
    done. }
  wbind Hrun x w3 t3 H3. destruct x as [rc seq]. apply dao_inv in H3 as (b & H3 & ->).
  apply CompleteResourceUpload_spec in H3. apply chat_message_of_Some in Hmsg as (m & Hm & Hres & Hsnd & Hty & Hst & Hrcp & _).
  pose proof Hok as (Hwf & Hinv & Hpos & Hpb & Hss). pose proof (Hss mid s Hs) as (Hrow & Hp & _).
  pose proof (publish_outcome_rows _ _ _ _ _ _ H3) as Hrk.
  pose proof (proj2 Ht mid s Hs) as Hh.
  assert (Hok3 : worker_ok (with_db w b)).
  { pose proof Hok as [Hfr _]%(worker_ok_frame mid). apply (worker_ok_frame mid). split.
    - apply (frame_ok_db mid w b); [done | by eapply publish_outcome_inv | done |].
      intros y y' res _ _ _ _ Hr. destruct Hrow as (z & res' & _ & Hr' & Hsz & Hsh & _). simplify_eq.
      rewrite <- Hsz, <- Hsh. destruct Hpc as (n & mm & rr & Hn & Hnst & Hnr & <- & <-). exact (Hpb n mm rr Hn Hnst Hnr).
    - cbn. intros y Hy. assert (y = s) as -> by congruence.
      split_and!; [by eapply session_row_kept | done | by rewrite Hc]. }
  assert (Ht3 : worker_trusted (with_db w b)) by exact Ht.
  destruct rc.
  1, 2: injection Hrun as <- <- <-;
    destruct (publish_outcome_done _ _ _ _ _ _ H3 ltac:(auto)) as (y & rr & Hy & Hyst & Hyr & Hev & z & Hz & Hzt & Hzr);
    simplify_eq; cbn [with_db w_db]; split_and!; try done; exists y; split_and!; try done; congruence.
  - rewrite <- W_assoc in Hrun. apply fail_none_inv in Hrun as (-> & u & Hrun).
    by eapply (proof_drop_send _ _ (rs RS_RESOURCE_STATE_INVALID)) in Hrun.
  - rewrite <- W_assoc in Hrun. apply fail_none_inv in Hrun as (-> & u & Hrun).
    by eapply (proof_drop_send _ _ (rs RS_MSG_ID_ERR)) in Hrun.
  - apply fail_none_inv in Hrun as (-> & u & Hrun). apply send_inv in Hrun as ->.
    split_and!; try done; [cbn; intros y Hy; cbn in Hy; congruence |]. by exists rpc_failed, (st Pending).
Qed.

Lemma RemoveStubPart_spec mid w t u w' t' :
  0 < mid → worker_ok w → worker_trusted w → upload_sessions w !! mid = None →
  RemoveStubPart root mid w t = (u, w', t') →
  worker_ok w' ∧ worker_trusted w' ∧ w_db w' = w_db w ∧ sent w' = sent w ∧ notified w' = notified w ∧
  upload_sessions w' = upload_sessions w.
Proof.
  intros Hmid Hok Ht Hs Hr. unfold RemoveStubPart in Hr. wbind Hr b w1 t1 H1.
  apply io_inv in H1 as (d & H1 & ->). injection Hr as <- <- <-.
  pose proof (remove_writes_only _ _ _ _ _ _ H1) as Hwo. apply remove_spec in H1 as (Hw & _).
  pose proof Hok as (Hwf & _).
  apply (worker_ok_frame mid) in Hok as [Hf _]. apply (worker_trusted_frame mid) in Ht as [Htr _].
  destruct (dropped_ok mid w d (sent w) Hmid Hf Htr (Hw Hwf) Hwo) as [H1 H2].
  rewrite delete_id in H1, H2 by done. done.
Qed.

(** After the message has been published: the session and the stub go. *)
Lemma proof_success_tail mid w t k w' t' (A := unit) :
  0 < mid → worker_ok w → worker_trusted w →
  (erase_session mid;; RemoveStubPart root mid;; k) w t = (tt, w', t') →
  ∃ w1 t1, k w1 t1 = (tt, w', t') ∧ worker_ok w1 ∧ worker_trusted w1 ∧ w_db w1 = w_db w ∧
    sent w1 = sent w ∧ notified w1 = notified w ∧ upload_sessions w1 !! mid = None.
Proof.
  intros Hmid Hok Ht Hr. wbind Hr u w1 t1 H1. apply erase_inv in H1 as [-> ->].
  wbind Hr u2 w2 t2 H2. apply RemoveStubPart_spec in H2 as (? & ? & ? & ? & ? & Hs); try done.
  - exists w2, t2. split_and!; try done. rewrite Hs. cbn. by rewrite lookup_delete_eq.
  - by apply without_ok.
  - by apply without_trusted.
  - cbn. by rewrite lookup_delete_eq.
Qed.

Lemma unit_eta (u : unit) : u = tt.
Proof. by destruct u. Qed.

Lemma HandleInstantProof_done now conn uid mid proof w t u w' t' :
  worker_ok w → worker_trusted w →
  HandleInstantProof root now conn uid mid proof w t = (u, w', t') →
  worker_ok w' ∧ worker_trusted w' ∧ proof_outcome now conn mid proof w w'.
Proof.
  intros Hok Ht Hrun. unfold HandleInstantProof in Hrun. cbv zeta in Hrun. rewrite (unit_eta u) in Hrun.
  assert (Hfail : ∀ w1, w_db w1 = w_db w → proof_failed conn mid w1 w' → sent w1 = sent w → notified w1 = notified w →
    worker_ok w' ∧ worker_trusted w' ∧ proof_outcome now conn mid proof w w').
  { intros w1 Hdb (Hok' & Ht' & Hn & Hd & e & stt & He & Hse) Hs1 Hn1. split_and!; try done.
    apply (ProofError _ _ _ _ _ _ e stt); [done | congruence | congruence | by left]. }
  assert (Hsimple : ∀ error stt t1, error ≠ 0 →
    send conn (MsgId_code MSG_RESOURCE_INSTANT_PROOF_RSP) (proof_error error mid stt) w t1 = (tt, w', t') →
    worker_ok w' ∧ worker_trusted w' ∧ proof_outcome now conn mid proof w w').
  { intros error stt t1 He Hr. apply send_inv in Hr as ->. split; [done |]. split; [done |].
    by apply (ProofError _ _ _ _ _ _ error stt); [| | | right]. }
  wbind Hrun lk w1 t1 H1. apply dao_inv in H1 as (b & H1 & ->). apply GetChatMsgById_spec in H1 as [-> Hlk].
  assert (Hw : with_db w (w_db w) = w) by (by destruct w). rewrite Hw in Hrun.
  destruct lk as [c | |].
  2: { eapply proof_drop_send in Hrun; [| done..]. by eapply Hfail. }
  2: { by eapply Hsimple in Hrun. }
  specialize (Hlk c eq_refl). pose proof Hlk as Hmsg.
  apply chat_message_of_Some in Hlk as (m & Hm & Hres & Hsnd & Hty & Hst & Hrcp & _).
  pose proof (proj1 (proj1 (proj2 (proj2 Hok))) mid m Hm) as Hmid.
  destruct ((uid =? 0) || _); [by eapply Hsimple in Hrun |].
  destruct (status c) eqn:Est.
  - wbind Hrun so w2 t2 H2. injection H2 as <- <- <-.
    destruct (upload_sessions w !! mid) as [s |] eqn:Es; [| by eapply Hsimple in Hrun].
    destruct (challenge_usable now conn (chal s)) eqn:Eu; cbn [negb] in Hrun; [| by eapply Hsimple in Hrun].
    pose proof (challenge_usable_live _ _ _ Eu) as Hlive. pose proof (proj1 Hlive) as Hact.
    pose proof (proj2 (proj2 (proj2 (proj2 Hok))) mid s Es) as (_ & _ & Hpc). specialize (Hpc Hact).
    set (c1 := deactivate (chal s)) in Hrun.
    destruct (IsValidSha256Hex proof) eqn:Ev; cbn [negb] in Hrun.
    2: { wbind Hrun v w3 t3 H3. apply put_inv in H3 as [-> ->]. apply send_inv in Hrun as ->.
         destruct (put_chal_ok mid s (suppress c1) w Hok Ht Es eq_refl) as (H3 & H4 & H5).
         split; [exact H3 |]. split; [exact H4 |].
         apply (ProofError _ _ _ _ _ _ (rs RS_INSTANT_PROOF_INVALID) (st Pending)); [done | done | done | by left]. }
    wbind Hrun v w3 t3 H3. apply put_inv in H3 as [-> ->].
    destruct (put_chal_ok mid s c1 w Hok Ht Es eq_refl) as (Hok3 & Ht3 & _).
    set (w3 := Worker _ _ _ _ _) in *.
    wbind Hrun r w4 t4 H4.
    eapply (proof_section_done conn mid c proof (set_chal s c1) w3) in H4; try done; [| apply lookup_insert_eq].
    destruct r as [seq |].
    2: { injection Hrun as <- <-. by eapply (Hfail w3). }
    destruct H4 as (Hok4 & Ht4 & Hse4 & Hno4 & Hpr & x & Hx & Hxs & Hxr & Hxt & Hxe).
    apply proof_success_tail in Hrun as (w5 & t5 & Hrun & Hok5 & Ht5 & Hdb5 & Hse5 & Hno5 & Hs5); try done.
    wbind Hrun v2 w6 t6 H6. apply send_inv in H6 as ->. injection Hrun as <- <-.
    split; [done |]. split; [done |].
    apply (ProofDone _ _ _ _ _ _ s seq x (message_type c) (recipient_user_id c) (resource c));
      cbn [w_db sent notified]; rewrite ?Hdb5; try done.
    + by rewrite Hse5, Hse4.
    + by rewrite Hno5, Hno4.
    + intros y Hy. cbn in Hy. by rewrite Hs5 in Hy.
  - apply proof_success_tail in Hrun as (w5 & t5 & Hrun & Hok5 & Ht5 & Hdb5 & Hse5 & Hno5 & Hs5); try done.
    apply send_inv in Hrun as ->. split; [done |]. split; [done |].
    apply (ProofAlready _ _ _ _ _ _ m (resource c) (event_seq c)); cbn [w_db sent notified]; try done.
    + by rewrite Hse5.
    + intros y Hy. cbn in Hy. by rewrite Hs5 in Hy.
  - eapply proof_drop_send in Hrun; [| done..]. by eapply Hfail.
Qed.

(** ** The theorems *)

(** The requests a file worker serves. *)
Inductive request :=
  | ReqChunk (now conn uid mid offset : Z) (open : bool) (sha data : bytes)
  | ReqProof (now conn uid mid : Z) (proof : bytes)
  | ReqProgress (entropy : bytes) (now conn uid mid : Z).

Definition serve (r : request) : W unit :=
  match r with
  | ReqChunk now conn uid mid offset open sha data =>
      HandleResourceChunk root now conn uid mid offset open sha data
  | ReqProof now conn uid mid proof => HandleInstantProof root now conn uid mid proof
  | ReqProgress entropy now conn uid mid => UploadProgress root entropy now conn uid mid
  end.

Lemma upload_requests_ok r w t u w' t' :
  worker_ok w → worker_trusted w → serve r w t = (u, w', t') →
  worker_ok w' ∧ (worker_trusted w' ∨ ∃ conn mid offset error off, error ≠ 0 ∧
     sent w' = sent w ++ [rsp conn (chunk_reply error mid offset off (st Pending) 0)]).
Proof.
  intros Hok Ht Hr. destruct r as [now conn uid mid offset open sha data | now conn uid mid proof | entropy now conn uid mid].
  - apply HandleResourceChunk_done in Hr as [Hok' Hout]; [| done | done]. split; [done |].
    destruct Hout as [| (e & off & stt & He & [-> | ?] & Hs) | | |]; [by left | | by left ..].
    right. by exists conn, mid, offset, e, off.
  - apply HandleInstantProof_done in Hr as (? & ? & _); auto.
  - apply UploadProgress_done in Hr as (? & ? & _); auto.
Qed.




(** Restoring may take an untrusted blob. After a failed publication, when the length
    of the intact partial file cannot be read and a blob of the same length
    is in place, the partial file is replaced by a copy of that blob, whatever
    its bytes, and the session with its cached digest is kept. *)
Theorem restore_part_takes_any_blob mid s w k g t' off w' :
  disk_wf (w_disk w) → content (w_disk w) (Blob (sha256_of s)) = Some g → zlen g = received s →
  Part mid ∉ dirs (w_disk w) → parent_path (Part mid) ∈ dirs (w_disk w) →
  is_Some (names (w_disk w) !! Part mid) →
  restore_part root mid s w [IoFail k] = (off, w', t') →
  off = received s ∧ content (w_disk w') (Part mid) = Some g ∧
  upload_sessions w' = upload_sessions w.
Proof.
  intros Hw Hg Hz Hnd Hpd [i Hi] Hr. unfold restore_part in Hr. cbv zeta in Hr.
  wbind Hr pl w1 t1 H1. apply io_inv in H1 as (d1 & H1 & ->). injection H1 as <- <- <-.
  cbn [bool_decide decide] in Hr. rewrite bool_decide_eq_false_2 in Hr by done.
  wbind Hr bl w2 t2 H2. apply io_inv in H2 as (d2 & H2 & ->). cbn [with_disk w_disk] in H2.
  unfold DiskFileLength, ReadLength, mbind, IO_bind, syscall, get, mret, IO_ret in H2. cbn in H2.
  rewrite Hg in H2. injection H2 as <- <- <-. rewrite Hz, bool_decide_eq_true_2 in Hr by done.
  wbind Hr rm w3 t3 H3. apply io_inv in H3 as (d3 & H3 & ->). cbn [with_disk w_disk] in H3.
  unfold remove, mbind, IO_bind, syscall, get, put, mret, IO_ret in H3. cbn in H3.
  rewrite Hi in H3. injection H3 as <- <- <-.
  wbind Hr cp w4 t4 H4. apply io_inv in H4 as (d4 & H4 & ->). cbn [with_disk w_disk] in H4.
  unfold copy_file, mbind, IO_bind, syscall, get, put, mret, IO_ret in H4. cbn [tape_next io_ok] in H4.
  assert (Hg' : content (del_name (w_disk w) (Part mid)) (Blob (sha256_of s)) = Some g).
  { unfold content. cbn. rewrite lookup_delete_ne by apply part_blob_ne. exact Hg. }
  rewrite Hg' in H4. cbn [dirs names del_name] in H4.
  rewrite lookup_delete_eq, (bool_decide_eq_false_2 (is_Some None)), (bool_decide_eq_false_2 (Part mid ∈ _)),
    (bool_decide_eq_true_2 (parent_path _ ∈ _)) in H4; [| done | done | by intros [? [=]]].
  cbn [orb negb] in H4. injection H4 as <- <- <-. cbn [andb] in Hr.
  set (d4 := set_bytes _ _ _) in Hr.
  assert (Hc : content d4 (Part mid) = Some g).
  { unfold content, d4. cbn. rewrite lookup_insert_eq. cbn. by rewrite lookup_insert_eq. }
  wbind Hr cl w5 t5 H5. apply io_inv in H5 as (d5 & H5 & ->). cbn [with_disk w_disk] in H5.
  unfold DiskFileLength, ReadLength, mbind, IO_bind, syscall, get, mret, IO_ret in H5. cbn [tape_next io_ok negb] in H5.
  rewrite Hc in H5. injection H5 as <- <- <-.
  rewrite Hz, bool_decide_eq_true_2 in Hr by done. injection Hr as <- <- <-. done.
Qed.
End proofs.

(** ** A concrete worker *)

Definition demo_sha : bytes := ToLowerHex (@sha256 toy_sha256 (§ "abcdef")).

(** An empty store with its directories, and pending messages of six bytes. *)
Definition demo_worker : worker :=
  Worker (Disk ∅ ∅ {[ Path true []; demo_root; child demo_root (§ "uploading"); child demo_root (§ "blobs") ]} ∅ ∅)
    (demo_db_of (ResRow (§ "f.png") 6 demo_sha (§ "image/png"))) ∅ [] [].

Lemma demo_worker_ok : @worker_ok toy_sha256 demo_root demo_worker.
Proof.
  split; [| split; [apply demo_db_inv | split; [split | split]]].
  - intros p i Hp. cbn [demo_worker w_disk names] in Hp. by rewrite lookup_empty in Hp.
  - intros mid m Hm. apply demo_messages in Hm as [[-> _] | [-> _]]; done.
  - intros mid res Hr. cbn [demo_worker w_db demo_db_of message_resources] in Hr.
    apply lookup_insert_Some in Hr as [[_ <-] | [_ Hr]]; [done |]. apply lookup_singleton_Some in Hr as [_ <-]. done.
  - intros mid m res Hm. apply demo_messages in Hm as [[_ ->] | [_ ->]]; done.
  - apply map_Forall_empty.
Qed.

Lemma demo_worker_trusted : @worker_trusted toy_sha256 demo_root demo_worker.
Proof.
  split; [| apply map_Forall_empty]. intros mid q _ (i & Hi & _).
  cbn [demo_worker w_disk names] in Hi. by rewrite lookup_empty in Hi.
Qed.

Definition demo_request : request := ReqChunk 0 7 1 9 0 true demo_sha (§ "abcdef").

Definition demo_result : unit * worker * tape :=
  @serve toy_sha256 demo_root demo_request demo_worker [].

Lemma demo_result_sent : sent demo_result.1.2 = [rsp 7 (published_chunk_reply 9 0 6 1)].
Proof. vm_compute. reflexivity. Qed.

Lemma run_W {A} (r : A * worker * tape) : r = (r.1.1, r.1.2, r.2).
Proof. by destruct r as [[a w] t]. Qed.



(** Message 9 has been published; message 10 asks for a challenge and
    answers it. *)
Definition demo_entropy : bytes := § "0123456789abcdef01234567".
Definition demo_challenged : unit * worker * tape :=
  @serve toy_sha256 demo_root (ReqProgress demo_entropy 5 7 1 10) demo_result.1.2 [].

Definition demo_proof : bytes := ToLowerHex (@sha256 toy_sha256 (ztake 16 demo_entropy ++ § "abcdef")).
Definition demo_proved : unit * worker * tape :=
  @HandleInstantProof toy_sha256 demo_root 6 7 1 10 demo_proof demo_challenged.1.2 [].

Lemma demo_result_ok :
  @worker_ok toy_sha256 demo_root demo_result.1.2 ∧ @worker_trusted toy_sha256 demo_root demo_result.1.2.
Proof.
  destruct (@HandleResourceChunk_done toy_sha256 demo_root 0 7 1 9 0 true demo_sha (§ "abcdef") demo_worker []
    _ _ _ demo_worker_ok demo_worker_trusted (run_W demo_result)) as [Hok Hout].
  split; [exact Hok |].
  destruct Hout as [Ht | (e & off & stt & He & _ & Hs) _ | r Ht | m res seq Ht | seq c sha size Ht];
    [exact Ht | exfalso | exact Ht | exact Ht | exact Ht].
  pose proof (eq_trans (eq_sym demo_result_sent) Hs) as Hx.
  apply (f_equal (λ l, match l with [(_, _, JObject ((_, JInteger z) :: _))] => z | _ => 1 end)) in Hx.
  apply He. symmetry. exact Hx.
Qed.

Lemma demo_challenged_ok :
  @worker_ok toy_sha256 demo_root demo_challenged.1.2 ∧ @worker_trusted toy_sha256 demo_root demo_challenged.1.2.
Proof.
  destruct demo_result_ok as [H1 H2].
  destruct (@UploadProgress_done toy_sha256 demo_root demo_entropy 5 7 1 10 _ [] _ _ _ H1 H2 (run_W demo_challenged))
    as (H3 & H4 & _). done.
Qed.


(** A worker whose partial file holds "abcdef" and whose blob "abcxyz". *)
Definition demo_bad_disk : disk :=
  Disk {[ UploadingPartPath demo_root 9 := 0%nat; BlobPathOf demo_root demo_sha := 1%nat ]}
    {[ 0%nat := § "abcdef"; 1%nat := § "abcxyz" ]}
    {[ demo_root; child demo_root (§ "uploading") ]} ∅ ∅.

Definition demo_session : UploadSession :=
  Upload 6 demo_sha 6 1 2 0 0 (Stream (Some (§ "abcdef")) demo_sha) true demo_sha no_challenge.

Definition demo_bad_worker : worker :=
  Worker demo_bad_disk (w_db demo_worker) {[ 9 := demo_session ]} [] [].

Lemma restore_part_takes_any_blob_witness :
  let r := @restore_part demo_root 9 demo_session demo_bad_worker [IoFail 0] in
  r.1.1 = 6 ∧ content (w_disk r.1.2) (UploadingPartPath demo_root 9) = Some (§ "abcxyz").
Proof.
  intros r.
  destruct (@restore_part_takes_any_blob demo_root 9 demo_session demo_bad_worker 0 (§ "abcxyz")
    r.2 r.1.1 r.1.2) as (H1 & H2 & _); [| | | | | | exact (run_W r) | by split].
  - intros p i Hp. unfold demo_bad_worker, demo_bad_disk in *. cbn [w_disk names inodes] in *.
    apply lookup_insert_Some in Hp as [[_ <-] | [_ Hp]]; [by rewrite lookup_insert_eq |].
    apply lookup_singleton_Some in Hp as [_ <-]. by rewrite lookup_insert_ne, lookup_singleton_eq.
  - unfold content. unfold demo_bad_worker, demo_bad_disk. cbn [w_disk names inodes].
    rewrite lookup_insert_ne by (apply part_blob_ne). by rewrite lookup_singleton_eq.
  - reflexivity.
  - vm_compute. set_solver.
  - unfold demo_bad_worker, demo_bad_disk. cbn [w_disk dirs]. set_solver.
  - unfold demo_bad_worker, demo_bad_disk. cbn [w_disk names]. by rewrite lookup_insert_eq.
Defined.
