(* ===== verification/TxLogic.v ===== *)
(** * A program logic for transactions

    Rules in the style of weakest preconditions for the statements of
    Database.v: a body is verified for every outcome of every statement at
    once, and the rule of [transaction] gives what is left in the tables when
    the commit fails or its outcome is lost. Also the sorted selections
    ([ORDER BY ... LIMIT]) of the queries. *)

From stdpp Require Import sorting.
From S2P Require Import Prelude Database ResourceDb.

(** From [d], the code ends well in [Q], or raises an exception in [E]. *)
Definition tx_wp {A} (m : Tx A) (E : db → Prop) (Q : A → db → Prop) (d : db) : Prop :=
  ∀ t, match m d t with
       | (inl _, d', _) => E d'
       | (inr a, d', _) => Q a d'
       end.

Lemma tx_wp_ret {A} (a : A) E Q d : Q a d → tx_wp (mret a) E Q d.
Proof. by intros H t. Qed.

Lemma tx_wp_bind {A B} (m : Tx A) (k : A → Tx B) E Q d :
  tx_wp m E (λ a, tx_wp (k a) E Q) d → tx_wp (m ≫= k) E Q d.
Proof.
  intros H t. specialize (H t). unfold mbind, Tx_bind.
  destruct (m d t) as [[[e | a] d'] t']; [done |]. apply H.
Qed.

Lemma tx_wp_exec {A} (f : db → A * db) E (Q : A → db → Prop) d :
  E d → Q (f d).1 (f d).2 → tx_wp (exec f) E Q d.
Proof.
  intros HE HQ t. unfold exec. destruct (tape_next t) as [[| n] t']; [| done].
  by destruct (f d).
Qed.

Lemma tx_wp_query {A} (f : db → A) E (Q : A → db → Prop) d : E d → Q (f d) d → tx_wp (query f) E Q d.
Proof. intros HE HQ. by apply tx_wp_exec. Qed.

Lemma tx_wp_exec_or_error {A} (f : db → option (A * db)) E (Q : A → db → Prop) d :
  E d → (∀ a d', f d = Some (a, d') → Q a d') → tx_wp (exec_or_error f) E Q d.
Proof.
  intros HE HQ t. unfold exec_or_error. destruct (tape_next t) as [[| n] t']; [| done].
  destruct (f d) as [[a d'] |] eqn:E1; [| done]. by apply HQ.
Qed.

Lemma tx_wp_mono {A} (m : Tx A) (E E' : db → Prop) (Q Q' : A → db → Prop) d :
  (∀ d, E d → E' d) → (∀ a d, Q a d → Q' a d) → tx_wp m E Q d → tx_wp m E' Q' d.
Proof. intros HE HQ H t. specialize (H t). destruct (m d t) as [[[e | a] d'] t']; eauto. Qed.

(** One step of a body; the side conditions are left. *)
Ltac tx_step :=
  lazymatch goal with
  | |- tx_wp (mret _) _ _ _ => apply tx_wp_ret
  | |- tx_wp (_ ≫= _) _ _ _ => apply tx_wp_bind
  | |- tx_wp (query _) _ _ _ => apply tx_wp_query
  | |- tx_wp (exec _) _ _ _ => apply tx_wp_exec
  | |- tx_wp (exec_or_error _) _ _ _ => apply tx_wp_exec_or_error
  end.

(** The tables are those of [d], the counters may have advanced. *)
Definition same_rows (d d' : db) : Prop := next_id d <= next_id d' ∧ d' = set_next d (next_id d').

Lemma same_rows_refl d : same_rows d d.
Proof. split; [lia |]. by destruct d. Qed.

Lemma same_rows_trans d1 d2 d3 : same_rows d1 d2 → same_rows d2 d3 → same_rows d1 d3.
Proof. intros [H1 E1] [H2 E2]. split; [lia |]. rewrite E2, E1. done. Qed.

#[global] Instance same_rows_preorder : PreOrder same_rows.
Proof. split; [exact same_rows_refl | exact same_rows_trans]. Qed.

Lemma same_rows_rollback d0 d : next_id d0 <= next_id d → same_rows d0 (rollback_to d0 d).
Proof. by split. Qed.

Lemma same_rows_set_next d n : next_id d <= n → same_rows d (set_next d n).
Proof. by split. Qed.

(** How a transaction ends: rolled back, or committed; a committed one may
    be reported as an error that is not a deadlock. *)
Definition tx_outcome {A} (QR : A → Prop) (QC : A → db → Prop) (d0 : db) (r : sql_error + A) (d' : db) : Prop :=
  (same_rows d0 d' ∧ match r with inl _ => True | inr a => QR a end) ∨
  (∃ a, QC a d' ∧ (r = inr a ∨ r = inl SqlError)).

Definition no_undo (d0 d : db) : Prop := next_id d0 <= next_id d.

Lemma transaction_outcome {A} (body : Tx (finish_kind * A)) QR QC d0 t r d' t' :
  tx_wp body (no_undo d0)
    (λ x d, no_undo d0 d ∧ match x.1 with Rollback => QR x.2 | Commit => QC x.2 d end) d0 →
  transaction body d0 t = (r, d', t') → tx_outcome QR QC d0 r d'.
Proof.
  intros Hb. unfold transaction, tx_outcome.
  destruct (tape_next t) as [[| n] t1]; [| intros [= <- <- <-]; left; split; [apply same_rows_refl | done]].
  specialize (Hb t1). destruct (body d0 t1) as [[[e | [[] a]] d] t2].
  - intros [= <- <- <-]. left. split; [by apply same_rows_rollback | done].
  - destruct Hb as [Hn Hc]. cbn in Hc. destruct (tape_next t2) as [[| n] t3]; intros [= <- <- <-].
    + right. exists a. auto.
    + case_decide.
      * right. exists a. split; [done |]. right. unfold error_of. by rewrite decide_False by lia.
      * left. split; [by apply same_rows_rollback | done].
  - destruct Hb as [Hn Hc]. destruct (tape_next t2) as [[| n] t3]; intros [= <- <- <-];
      left; (split; [by apply same_rows_rollback | done]).
Qed.

(** A query when nothing fails. *)
Lemma query_bind_run {A B} (f : db → A) (k : A → Tx B) d : (query f ≫= k) d [] = k (f d) d [].
Proof. done. Qed.

(** ** Invariants and counters *)

Lemma db_inv_same_rows d d' : same_rows d d' → db_inv d → db_inv d'.
Proof. intros [Hn Hd] Hinv. rewrite Hd. by apply (rollback_to_inv d d'). Qed.

(** ** Selections in order *)

Section selection.
Context {A : Type} (key : A → Z).

Definition key_le (x y : A) : Prop := key x <= key y.
#[local] Instance key_le_dec x y : Decision (key_le x y).
Proof. unfold key_le. apply _. Defined.

(** [ORDER BY key ASC] *)
Definition order_by (l : list A) : list A := merge_sort key_le l.
(** [ORDER BY key DESC] *)
Definition order_by_desc (l : list A) : list A := reverse (order_by l).
(** [LIMIT n] *)
Definition limit (n : Z) (l : list A) : list A := take (Z.to_nat n) l.

#[local] Instance key_le_total : Total key_le.
Proof. intros x y. unfold key_le. lia. Qed.
#[local] Instance key_le_trans : Transitive key_le.
Proof. intros x y z. unfold key_le. lia. Qed.

Lemma order_by_perm l : order_by l ≡ₚ l.
Proof. apply merge_sort_Permutation. Qed.

Lemma order_by_elem x l : x ∈ order_by l ↔ x ∈ l.
Proof. by rewrite order_by_perm. Qed.

Lemma order_by_sorted l : StronglySorted Z.le (key <$> order_by l).
Proof.
  assert (H : StronglySorted key_le (order_by l)) by by apply (StronglySorted_merge_sort key_le).
  induction H as [| x k Hk IH Hx]; cbn; constructor; [done |].
  apply Forall_forall. intros z [y [-> Hy]]%list_elem_of_fmap.
  rewrite Forall_forall in Hx. by apply Hx.
Qed.

(** The keys of a selection are determined by which keys are selected. *)
Lemma order_by_keys l (ks : list Z) :
  NoDup (key <$> l) → NoDup ks → StronglySorted Z.le ks →
  (∀ k, k ∈ (key <$> l) ↔ k ∈ ks) → key <$> order_by l = ks.
Proof.
  intros Hl Hks Hs Heq. apply (StronglySorted_unique Z.le); [apply order_by_sorted | done |].
  rewrite order_by_perm. by apply NoDup_Permutation.
Qed.
Lemma order_by_key_sorted l : StronglySorted key_le (order_by l).
Proof. by apply (StronglySorted_merge_sort key_le). Qed.

(** Selecting before or after sorting is the same. *)
Lemma order_by_filter (P : A → Prop) `{∀ x, Decision (P x)} l :
  NoDup (key <$> l) → filter P (order_by l) = order_by (filter P l).
Proof.
  intros Hnd. apply (StronglySorted_unique_strong key_le).
  - intros x y Hx Hy Hxy Hyx. apply list_elem_of_filter in Hx as [_ Hx]. rewrite order_by_elem in Hx, Hy.
    apply list_elem_of_filter in Hy as [_ Hy]. apply list_elem_of_lookup in Hx as [a Ha], Hy as [b Hb].
    assert (E : key x = key y) by (unfold key_le in *; lia).
    assert (a = b) as ->; [| by simplify_eq].
    eapply (NoDup_lookup _ a b (key x) Hnd); rewrite list_lookup_fmap; [by rewrite Ha | by rewrite Hb, E].
  - induction (order_by_key_sorted l) as [| x k Hk IH Hx]; [constructor |].
    rewrite filter_cons. case_decide; [| done]. constructor; [done |].
    apply Forall_forall. intros y [_ Hy]%list_elem_of_filter. rewrite Forall_forall in Hx. by apply Hx.
  - apply order_by_key_sorted.
  - by rewrite !order_by_perm.
Qed.
End selection.
