(* ===== verification/ChatDb.v ===== *)
(** * The ChatServer's DAO (ChatServer/src/MysqlDao.cpp)

    Storing a chat message, friend requests and their answers, private chats,
    and the queries of the offline synchronisation. The unique keys over a
    client's identifiers compare under the collation of the column, which is
    not the code's: [weight] is the weight string two identifiers share when
    they are equal for the database. *)

From S2P Require Import Prelude Database ResourceDb TxLogic.

(** [MysqlDao.h] *)
Inductive SaveMessageResult := SmStored | SmDuplicate | SmConflict | SmFailed.
Inductive FriendOperationResult :=
  FoStored | FoDuplicate | FoConflict | FoNotFound | FoAlreadyHandled | FoAlreadyFriends | FoForbidden | FoFailed.

#[global] Instance SaveMessageResult_eq_dec : EqDecision SaveMessageResult.
Proof. solve_decision. Defined.
#[global] Instance FriendOperationResult_eq_dec : EqDecision FriendOperationResult.
Proof. solve_decision. Defined.

(** [ChatMessage] of data.h; a resource is its row. *)
Record ChatMessage := ChatMsg {
  message_id : Z;
  thread_id : Z;
  sender_user_id : Z;
  recipient_user_id : Z;
  client_message_id : bytes;
  message_type : Z;
  text_content : bytes;
  status : MessageStatus;
  created_at : bytes;
  resource : option res_row;
  event_seq : Z;
}.

(** [created_at], set by the database for display, is left out. *)
Record FriendRequest := FriendReq {
  friend_request_id : Z;
  requester_user_id : Z;
  target_user_id : Z;
  client_request_id : bytes;
  request_message : bytes;
  request_status : FriendRequestStatus;
  request_thread_id : Z;
  request_event_seq : Z;
}.

Record UserEvent := UserEv {
  ev_seq : Z;
  ev_type : Z;
  ev_message : option ChatMessage;
  ev_friend_request : option FriendRequest;
}.

Definition is_resource_type (ty : Z) : bool := (ty =? PIC) || (ty =? FILE).

(** A projected row: the columns of a missing resource row read as empty. *)
Definition ReadMessage (mid : Z) (m : msg_row) (pc : Z * Z) (r : option res_row) : ChatMessage :=
  ChatMsg mid (m_thread m) (m_sender m) (other_member pc (m_sender m)) (m_client m) (m_type m)
    (default [] (m_text m)) (m_status m) (m_created m)
    (if is_resource_type (m_type m) then Some (default (ResRow [] 0 [] []) r) else None) 0.

Definition ReadFriendRequest (fid : Z) (f : freq_row) : FriendRequest :=
  FriendReq fid (f_requester f) (f_target f) (f_client f) (f_message f) (f_status f)
    (default 0 (f_thread f)) 0.

Definition with_message_event (c : ChatMessage) (seq : Z) : ChatMessage :=
  ChatMsg (message_id c) (thread_id c) (sender_user_id c) (recipient_user_id c) (client_message_id c)
    (message_type c) (text_content c) (status c) (created_at c) (resource c) seq.

Definition with_request_event (r : FriendRequest) (seq : Z) : FriendRequest :=
  FriendReq (friend_request_id r) (requester_user_id r) (target_user_id r) (client_request_id r)
    (request_message r) (request_status r) (request_thread_id r) seq.

(** The joined row of a message. *)
Definition message_of (d : db) (mid : Z) : option ChatMessage :=
  m ← chat_messages d !! mid;
  pc ← private_chats d !! m_thread m;
  Some (ReadMessage mid m pc (message_resources d !! mid)).

Definition request_of (d : db) (fid : Z) : option FriendRequest :=
  option_map (ReadFriendRequest fid) (friend_requests d !! fid).

(** The rows of a table that satisfy a condition, by ascending key. *)
Definition rows_where {A} (p : Z → A → bool) (m : gmap Z A) : list (Z * A) :=
  order_by fst (filter (λ x, p x.1 x.2 = true) (map_to_list m)).

(** ** Statements *)

(** [SELECT LAST_INSERT_ID()] after a statement that left [id]. *)
Definition LastInsertId (id : Z) : Tx Z := query (λ _, id).

Definition ReadPrivateChatMembers (tid : Z) : Tx (option (Z * Z)) := query (λ d, private_chats d !! tid).

(** Event numbers stay below 2^64. *)
Definition AllocateEventSeq (uid : Z) : Tx (bool * Z) :=
  head ← read_event_head uid;
  match head with
  | None => mret (false, 0)
  | Some last =>
      n ← update_event_head uid (last + 1);
      mret (n =? 1, last + 1)
  end.

Definition InsertMessageEvent (uid seq ty mid : Z) : Tx bool :=
  n ← insert_event uid seq (message_event ty mid); mret (n =? 1).

Definition InsertFriendEvent (uid seq ty fid : Z) : Tx bool :=
  n ← insert_event uid seq (friend_event ty fid); mret (n =? 1).

(** [INSERT INTO private_chats ... ON DUPLICATE KEY UPDATE]: the identifier
    of the new or of the old row; a duplicate uses up an identifier too. *)
Definition chat_of_pair (d : db) (lower higher : Z) : option Z :=
  match rows_where (λ _ pc, bool_decide (pc = (lower, higher))) (private_chats d) with
  | [] => None
  | x :: _ => Some x.1
  end.

Definition upsert_chat (lower higher : Z) (d : db) : option (Z * db) :=
  if bool_decide (is_Some (users d !! lower)) && bool_decide (is_Some (users d !! higher)) &&
     (lower <? higher)
  then match chat_of_pair d lower higher with
       | Some tid => Some (tid, set_next d (next_id d + 1))
       | None => Some (next_id d,
                   set_next (set_chats d (<[next_id d := (lower, higher)]> (private_chats d))) (next_id d + 1))
       end
  else None.

(** [INSERT IGNORE INTO friendships] *)
Definition insert_friendship (lower higher : Z) (d : db) : unit * db :=
  (tt, set_friendships d ({[ (lower, higher) ]} ∪ friendships d)).

Section collation.
Context (weight : bytes → bytes).

(** [WHERE m.sender_user_id=? AND m.client_message_id=?] *)
Definition client_row (d : db) (sender : Z) (client : bytes) : option Z :=
  match rows_where (λ _ m, (m_sender m =? sender) && bool_decide (weight (m_client m) = weight client))
          (chat_messages d) with
  | [] => None
  | x :: _ => Some x.1
  end.

Definition existing_message (d : db) (sender : Z) (client : bytes) : option ChatMessage :=
  mid ← client_row d sender client; message_of d mid.

(** The new row's number of rows and identifier; the unique key, the foreign
    keys and the checks of the table may refuse it. *)
Definition insert_chat_message (row : msg_row) : Tx (Z * Z) :=
  exec_or_error (λ d,
    if bool_decide (client_row d (m_sender row) (m_client row) = None) &&
       bool_decide (is_Some (private_chats d !! m_thread row)) &&
       bool_decide (is_Some (users d !! m_sender row))
    then Some ((1, next_id d),
           set_next (set_messages d (<[next_id d := row]> (chat_messages d))) (next_id d + 1))
    else None).

Definition insert_resource (mid : Z) (r : res_row) : Tx Z :=
  exec_or_error (λ d,
    if bool_decide (message_resources d !! mid = None) && (0 <? r_size r)
    then Some (1, set_resources d (<[mid := r]> (message_resources d)))
    else None).

(** ** Storing a message *)

Definition same_message (stored message : ChatMessage) : bool :=
  let same := (thread_id stored =? thread_id message) &&
              (sender_user_id stored =? sender_user_id message) &&
              (message_type stored =? message_type message) &&
              bool_decide (text_content stored = text_content message) in
  match resource stored, resource message with
  | Some r, Some r' => same && bool_decide (r = r')
  | None, None => same
  | _, _ => false
  end.

Definition stored_as (message : ChatMessage) (mid recipient : Z) (st : MessageStatus) (seq : Z) : ChatMessage :=
  ChatMsg mid (thread_id message) (sender_user_id message) recipient (client_message_id message)
    (message_type message) (text_content message) st (created_at message) (resource message) seq.

(** The branch of a client identifier that is already there. *)
Definition add_existing (stored message : ChatMessage) : Tx (finish_kind * (SaveMessageResult * ChatMessage)) :=
  if negb (same_message stored message) then mret (Rollback, (SmConflict, message))
  else if bool_decide (status stored = Published) then
    event ← query (λ d, event_seq_of d (recipient_user_id stored)
                          (message_event (message_type stored) (message_id stored)));
    mret (Commit, (SmDuplicate, match event with
                                | Some seq => with_message_event stored seq
                                | None => stored
                                end))
  else mret (Commit, (SmDuplicate, stored)).

(** The branch of a new one: the message row with its resource row, or with
    its event. *)
Definition add_new (message : ChatMessage) (recipient : Z) : Tx (finish_kind * (SaveMessageResult * ChatMessage)) :=
  let resource_message := is_resource_type (message_type message) in
  if (resource_message && bool_decide (resource message = None)) ||
     (negb resource_message && negb (message_type message =? TEXT))
  then mret (Rollback, (SmFailed, message))
  else
    let st := if resource_message then Pending else Published in
    '(n, last) ← insert_chat_message
      (MsgRow (thread_id message) (sender_user_id message) (client_message_id message)
         (message_type message) (if resource_message then None else Some (text_content message)) st
         (created_at message));
    if negb (n =? 1) then mret (Rollback, (SmFailed, message))
    else
      mid ← LastInsertId last;
      match (if resource_message then resource message else None) with
      | Some r =>
          n ← insert_resource mid r;
          if negb (n =? 1) then mret (Rollback, (SmFailed, message))
          else mret (Commit, (SmStored, stored_as message mid recipient st (event_seq message)))
      | None =>
          '(ok, seq) ← AllocateEventSeq recipient;
          if negb ok then mret (Rollback, (SmFailed, message))
          else
            ok ← InsertMessageEvent recipient seq (message_type message) mid;
            if negb (ok : bool) then mret (Rollback, (SmFailed, message))
            else mret (Commit, (SmStored, stored_as message mid recipient st seq))
      end.

Definition AddChatMsgTransaction (message : ChatMessage) : Tx (finish_kind * (SaveMessageResult * ChatMessage)) :=
  members ← ReadPrivateChatMembers (thread_id message);
  match members with
  | None => mret (Rollback, (SmFailed, message))
  | Some (lower, higher) =>
      if negb (sender_user_id message =? lower) && negb (sender_user_id message =? higher)
      then mret (Rollback, (SmFailed, message))
      else
        let recipient := if sender_user_id message =? lower then higher else lower in
        existing ← query (λ d, existing_message d (sender_user_id message) (client_message_id message));
        match existing with
        | Some stored => add_existing stored message
        | None => add_new message recipient
        end
  end.

(** The retry loop of [AddChatMsg], [retries] retries from its last one; what a
    failed attempt wrote to the message is written again by the next one. *)
Fixpoint save_loop (retries : nat) (message : ChatMessage) : Dao (SaveMessageResult * ChatMessage) := λ d t,
  match transaction (AddChatMsgTransaction message) d t with
  | (inr r, d', t') => (r, d', t')
  | (inl e, d', t') =>
      match tape_next t' with                       (* the handler's rollback *)
      | (IoFail _, t'') => ((SmFailed, message), d', t'')
      | (IoOk, t'') =>
          match e, retries with
          | SqlDeadlock, S retries => save_loop retries message d' t''
          | _, _ => ((SmFailed, message), d', t'')
          end
      end
  end.

Definition AddChatMsg (deadlock_retries : nat) (message : ChatMessage) : Dao (SaveMessageResult * ChatMessage) :=
  if (thread_id message <=? 0) || (sender_user_id message <=? 0) ||
     bool_decide (client_message_id message = [])
  then λ d t, ((SmFailed, message), d, t)
  else with_connection (SmFailed, message) (save_loop deadlock_retries message).

End collation.
