(* ===== verification/ChatDbMessages.v ===== *)
(** * Storing messages: invariants and proofs for ChatDb.v *)

From S2P Require Import Prelude Database ResourceDb TxLogic ChatDb.

(** ** Invariants of the tables the ChatServer writes *)

(** A text message is published with its text; a resource message has its
    resource row and no text. *)
Definition message_row_ok (m : msg_row) (r : option res_row) : Prop :=
  (m_type m = TEXT ∧ m_status m = Published ∧ is_Some (m_text m) ∧ r = None) ∨
  (is_resource_type (m_type m) = true ∧ m_text m = None ∧ is_Some r).

Record tables_ok (weight : bytes → bytes) (d : db) : Prop := {
  t_inv : db_inv d;
  t_next : 0 < next_id d;
  t_ids : ∀ i, i <= 0 → chat_messages d !! i = None ∧ private_chats d !! i = None;
  t_clients : ∀ i j m n, chat_messages d !! i = Some m → chat_messages d !! j = Some n →
    m_sender m = m_sender n → weight (m_client m) = weight (m_client n) → i = j;
  t_messages : ∀ i m, chat_messages d !! i = Some m → message_row_ok m (message_resources d !! i);
  t_members : ∀ i m pc, chat_messages d !! i = Some m → private_chats d !! m_thread m = Some pc →
    m_sender m = pc.1 ∨ m_sender m = pc.2;
  t_resources : ∀ i, is_Some (message_resources d !! i) → is_Some (chat_messages d !! i);
  t_chats : ∀ i lo hi, private_chats d !! i = Some (lo, hi) →
    0 < lo < hi ∧ is_Some (users d !! lo) ∧ is_Some (users d !! hi);
  t_pairs : ∀ i j pc, private_chats d !! i = Some pc → private_chats d !! j = Some pc → i = j;
}.

(** ** Lemmas on selections *)

Lemma rows_where_elem {A} (p : Z → A → bool) (m : gmap Z A) i x :
  (i, x) ∈ rows_where p m ↔ m !! i = Some x ∧ p i x = true.
Proof.
  unfold rows_where. rewrite order_by_elem, list_elem_of_filter, elem_of_map_to_list. cbn. tauto.
Qed.

Lemma rows_where_nil {A} (p : Z → A → bool) (m : gmap Z A) :
  rows_where p m = [] ↔ ∀ i x, m !! i = Some x → p i x = false.
Proof.
  split.
  - intros E i x Hx. apply not_true_iff_false. intros Hp.
    assert (H : (i, x) ∈ rows_where p m) by by apply rows_where_elem.
    rewrite E in H. by apply not_elem_of_nil in H.
  - intros H. destruct (rows_where p m) as [| [i x] l] eqn:E; [done |].
    assert (Hx : (i, x) ∈ rows_where p m) by (rewrite E; left).
    apply rows_where_elem in Hx as [Hx Hp]. rewrite (H _ _ Hx) in Hp. done.
Qed.

Section messages.
Context (weight : bytes → bytes).

Lemma client_row_Some d s c i :
  client_row weight d s c = Some i →
  ∃ m, chat_messages d !! i = Some m ∧ m_sender m = s ∧ weight (m_client m) = weight c.
Proof.
  unfold client_row. destruct (rows_where _ _) as [| [j m] l] eqn:E; [done |]. intros [= <-].
  assert (H : (j, m) ∈ (j, m) :: l) by left. rewrite <- E in H.
  apply rows_where_elem in H as [Hm Hp]. bool_to_prop. by exists m.
Qed.

Lemma client_row_None d s c i m :
  client_row weight d s c = None → chat_messages d !! i = Some m → m_sender m = s →
  weight (m_client m) ≠ weight c.
Proof.
  unfold client_row. destruct (rows_where _ _) as [| x l] eqn:E; [| done]. intros _ Hm Hs Hw.
  pose proof (proj1 (rows_where_nil _ _) E i m Hm) as H. cbn in H.
  rewrite Hs, Z.eqb_refl, bool_decide_true in H by done. done.
Qed.

Lemma client_row_intro d s c i m :
  tables_ok weight d → chat_messages d !! i = Some m → m_sender m = s → weight (m_client m) = weight c →
  client_row weight d s c = Some i.
Proof.
  intros Hok Hm Hs Hw. destruct (client_row weight d s c) as [j |] eqn:E.
  - apply client_row_Some in E as (n & Hn & Hsn & Hwn). f_equal.
    eapply (t_clients weight d Hok); [done.. | congruence | congruence].
  - by destruct (client_row_None _ _ _ _ _ E Hm Hs Hw).
Qed.

Lemma message_of_Some d i c :
  message_of d i = Some c →
  ∃ m pc, chat_messages d !! i = Some m ∧ private_chats d !! m_thread m = Some pc ∧
    c = ReadMessage i m pc (message_resources d !! i).
Proof.
  unfold message_of. destruct (chat_messages d !! i) as [m |]; [| done]. cbn.
  destruct (private_chats d !! m_thread m) as [pc |] eqn:E; [| done]. cbn. intros [= <-]. by exists m, pc.
Qed.

(** ** What a stored message changes *)

Definition row_of (message : ChatMessage) : msg_row :=
  let rm := is_resource_type (message_type message) in
  MsgRow (thread_id message) (sender_user_id message) (client_message_id message) (message_type message)
    (if rm then None else Some (text_content message)) (if rm then Pending else Published) (created_at message).

Definition insert_message (d : db) (row : msg_row) : db :=
  set_next (set_messages d (<[next_id d := row]> (chat_messages d))) (next_id d + 1).

Definition store_effect (d : db) (message : ChatMessage) (recipient : Z) : db :=
  let d1 := insert_message d (row_of message) in
  match (if is_resource_type (message_type message) then resource message else None) with
  | Some r => set_resources d1 (<[next_id d := r]> (message_resources d))
  | None => append_event d1 recipient (message_event (message_type message) (next_id d))
  end.

(** What the checks of the transaction have established. *)
Record storable (d : db) (message : ChatMessage) (recipient : Z) : Prop := {
  st_chat : ∃ pc, private_chats d !! thread_id message = Some pc ∧
              (sender_user_id message = pc.1 ∨ sender_user_id message = pc.2) ∧
              recipient = other_member pc (sender_user_id message);
  st_new : client_row weight d (sender_user_id message) (client_message_id message) = None;
  st_type : message_type message = TEXT ∨
            (is_resource_type (message_type message) = true ∧ is_Some (resource message));
}.

Lemma tables_ok_same_rows d d' : same_rows d d' → tables_ok weight d → tables_ok weight d'.
Proof.
  intros Hs [Hi Hn ? ? ? ? ? ? ?]. pose proof (db_inv_same_rows _ _ Hs Hi) as Hi'.
  destruct Hs as [Hle Hd]. constructor; [done | lia | rewrite Hd; done..].
Qed.

Lemma fresh_message d : db_inv d → chat_messages d !! next_id d = None.
Proof. intros (_ & _ & _ & (_ & Hn & _)). apply (Hn (next_id d)). lia. Qed.

Lemma no_event_of_fresh d uid s ty : db_inv d → user_events d !! (uid, s) ≠ Some (message_event ty (next_id d)).
Proof.
  intros Hinv He. pose proof (fresh_message d Hinv) as Hf. destruct Hinv as (_ & _ & Hr & _).
  destruct (Hr _ _ _ _ He) as (m & Hm & _). congruence.
Qed.

Lemma append_event_users d r e i : is_Some (users d !! i) → is_Some (users (append_event d r e) !! i).
Proof.
  unfold append_event. destruct (users d !! r) as [u |] eqn:E; [| done]. cbn.
  destruct (decide (i = r)) as [-> |]; [by rewrite lookup_insert_eq | by rewrite lookup_insert_ne].
Qed.

(** Appending an event changes the event heads and the events only. *)
Lemma append_event_frame d r e :
  chat_messages (append_event d r e) = chat_messages d ∧ private_chats (append_event d r e) = private_chats d ∧
  message_resources (append_event d r e) = message_resources d ∧
  friend_requests (append_event d r e) = friend_requests d ∧ next_id (append_event d r e) = next_id d ∧
  friendships (append_event d r e) = friendships d.
Proof. unfold append_event. by destruct (users d !! r). Qed.

Lemma append_event_keys d r e : keys_ok d → keys_ok (append_event d r e).
Proof.
  intros (Hk & Hn & Hp & Hu). destruct (append_event_frame d r e) as (E1 & E2 & _ & E3 & E4 & _).
  unfold keys_ok, recipient_of in *. rewrite E1, E2, E3, E4. split_and!; try done.
  intros i row. unfold append_event. destruct (users d !! r) as [u |] eqn:E; [| by apply Hu]. cbn.
  destruct (decide (i = r)) as [-> |].
  - rewrite lookup_insert_eq. intros [= <-]. cbn. pose proof (Hu r u E). lia.
  - rewrite lookup_insert_ne by done. apply Hu.
Qed.

Lemma append_event_lookup d r e u k :
  users d !! r = Some u →
  user_events (append_event d r e) !! k =
    if decide (k = (r, last_event_seq u + 1)) then Some e else user_events d !! k.
Proof.
  intros Hu. unfold append_event. rewrite Hu. cbn. case_decide as E.
  - rewrite E. apply lookup_insert_eq.
  - by apply lookup_insert_ne.
Qed.

Lemma event_free d r u :
  events_gapless d → users d !! r = Some u → user_events d !! (r, last_event_seq u + 1) = None.
Proof.
  intros [Hg _] Hu. apply eq_None_not_Some. intros Hs. apply Hg in Hs as (u' & Hu' & Hr).
  simplify_eq. lia.
Qed.

Lemma insert_message_lookup d row i m :
  chat_messages (insert_message d row) !! i = Some m →
  (i = next_id d ∧ m = row) ∨ (i ≠ next_id d ∧ chat_messages d !! i = Some m).
Proof.
  cbn. destruct (decide (i = next_id d)) as [-> |].
  - rewrite lookup_insert_eq. intros [= <-]. by left.
  - rewrite lookup_insert_ne by done. by right.
Qed.

Lemma insert_message_clients d row :
  tables_ok weight d → client_row weight d (m_sender row) (m_client row) = None →
  ∀ i j m n, chat_messages (insert_message d row) !! i = Some m →
    chat_messages (insert_message d row) !! j = Some n →
    m_sender m = m_sender n → weight (m_client m) = weight (m_client n) → i = j.
Proof.
  intros Hok Hnew i j m n Hm Hn Hs Hw.
  apply insert_message_lookup in Hm as [[-> ->] | [_ Hm]], Hn as [[-> ->] | [_ Hn]]; try done.
  - by destruct (client_row_None _ _ _ _ _ Hnew Hn).
  - by destruct (client_row_None _ _ _ _ _ Hnew Hm).
  - by eapply (t_clients weight d Hok).
Qed.

Lemma insert_message_keys d row :
  tables_ok weight d → client_row weight d (m_sender row) (m_client row) = None →
  is_Some (private_chats d !! m_thread row) → keys_ok (insert_message d row).
Proof.
  intros Hok Hnew [pc Hpc]. destruct (t_inv weight d Hok) as (_ & _ & _ & (_ & Hn & Hp & Hu)). split_and!.
  - intros i j m n Hm Hn' Hs Hc. eapply (insert_message_clients d row Hok Hnew); [done.. | congruence].
  - intros i Hi. cbn in Hi |- *. destruct (Hn i) as (? & ? & ?); [lia |].
    by rewrite lookup_insert_ne by lia.
  - intros i m Hm. unfold recipient_of. cbn [private_chats insert_message set_next set_messages].
    apply insert_message_lookup in Hm as [[-> ->] | [_ Hm]]; [by rewrite Hpc | by apply (Hp i m)].
  - exact Hu.
Qed.

(** A pending resource message brings no event. *)
Lemma insert_pending_inv d row :
  tables_ok weight d → client_row weight d (m_sender row) (m_client row) = None →
  is_Some (private_chats d !! m_thread row) → m_status row = Pending → db_inv (insert_message d row).
Proof.
  intros Hok Hnew Hpc Hst. pose proof (t_inv weight d Hok) as Hinv.
  pose proof Hinv as (Hg & Hp & Hr & _). pose proof (fresh_message d Hinv) as Hf.
  split; [exact Hg | split; [| split; [| by apply insert_message_keys]]].
  - intros i m Hm r Hrec. cbn [user_events insert_message set_next set_messages].
    change (recipient_of d m = Some r) in Hrec.
    apply insert_message_lookup in Hm as [[-> ->] | [_ Hm]]; [| by apply Hp].
    rewrite Hst. split; [done |]. intros [s Hs]. by destruct (no_event_of_fresh d r s _ Hinv Hs).
  - intros uid s ty mid Hs. destruct (Hr uid s ty mid Hs) as (m & Hm & Hrest). exists m.
    split; [| done]. cbn. rewrite lookup_insert_ne; [done |]. congruence.
Qed.

(** A published text message comes with its event. *)
Lemma insert_published_inv d row r u :
  tables_ok weight d → client_row weight d (m_sender row) (m_client row) = None →
  recipient_of d row = Some r → users d !! r = Some u → m_status row = Published →
  db_inv (append_event (insert_message d row) r (message_event (m_type row) (next_id d))).
Proof.
  intros Hok Hnew Hrec Hu Hst. pose proof (t_inv weight d Hok) as Hinv.
  pose proof Hinv as (Hg & Hp & Hr & (_ & _ & _ & Hpos)). pose proof (fresh_message d Hinv) as Hf.
  set (d1 := insert_message d row). set (e := message_event (m_type row) (next_id d)).
  destruct (append_event_frame d1 r e) as (E1 & E2 & _).
  assert (Hrec' : ∀ x, recipient_of (append_event d1 r e) x = recipient_of d x)
    by (intros x; unfold recipient_of; by rewrite E2).
  assert (Hev : ∀ k, user_events (append_event d1 r e) !! k =
    if decide (k = (r, last_event_seq u + 1)) then Some e else user_events d !! k)
    by (intros k; apply (append_event_lookup d1 r e u k Hu)).
  split; [| split; [| split]].
  - apply (append_event_gapless d1 r u); [exact Hg | by eapply Hpos | done |].
    intros s. by apply (no_event_of_fresh d r s).
  - intros i m Hm r' Hr'. rewrite Hrec' in Hr'. rewrite E1 in Hm. setoid_rewrite Hev.
    apply insert_message_lookup in Hm as [[-> ->] | [Hne Hm]].
    + rewrite Hst. split; [| done]. intros _. simplify_eq. exists (last_event_seq u + 1).
      by rewrite decide_True.
    + rewrite (Hp i m Hm r' Hr'). split; intros [s Hs]; exists s.
      * rewrite decide_False; [done |]. intros [= -> ->]. by rewrite (event_free d r u) in Hs.
      * case_decide; [| done]. unfold e, message_event in Hs. congruence.
  - intros uid s ty mid Hs. rewrite Hev in Hs. setoid_rewrite Hrec'. rewrite E1. case_decide as Hk.
    + injection Hk as -> ->. unfold e, message_event in Hs. injection Hs as <- <-. exists row.
      split; [| done]. cbn. by rewrite lookup_insert_eq.
    + destruct (Hr uid s ty mid Hs) as (m & Hm & Hrest). exists m. split; [| done].
      cbn. rewrite lookup_insert_ne; [done |]. congruence.
  - apply append_event_keys. apply insert_message_keys; [done.. |].
    unfold recipient_of in Hrec. by destruct (private_chats d !! m_thread row).
Qed.

(** Everything but [db_inv] for a new row, whatever is written beside it. *)
Lemma store_rows_ok d row res d' :
  tables_ok weight d → client_row weight d (m_sender row) (m_client row) = None →
  message_row_ok row res → db_inv d' →
  (∀ pc, private_chats d !! m_thread row = Some pc → m_sender row = pc.1 ∨ m_sender row = pc.2) →
  chat_messages d' = <[next_id d := row]> (chat_messages d) → private_chats d' = private_chats d →
  message_resources d' = partial_alter (λ _, res) (next_id d) (message_resources d) →
  next_id d' = next_id d + 1 → (∀ i, is_Some (users d !! i) → is_Some (users d' !! i)) →
  tables_ok weight d'.
Proof.
  intros Hok Hnew Hrow Hinv Hmem Em Ep Er En Hu. pose proof (t_next weight d Hok) as Hn0.
  constructor; rewrite ?Em, ?Ep, ?Er, ?En.
  - done.
  - lia.
  - intros i Hi. destruct (t_ids weight d Hok i Hi). by rewrite lookup_insert_ne by lia.
  - exact (insert_message_clients d row Hok Hnew).
  - intros i m Hm. apply (insert_message_lookup d row) in Hm as [[-> ->] | [Hne Hm]].
    + by rewrite lookup_partial_alter_eq.
    + rewrite lookup_partial_alter_ne by done. by apply (t_messages weight d Hok).
  - intros i m pc Hm. apply (insert_message_lookup d row) in Hm as [[-> ->] | [_ Hm]]; [apply Hmem |].
    by apply (t_members weight d Hok i).
  - intros i Hi. destruct (decide (i = next_id d)) as [-> |]; [by rewrite lookup_insert_eq |].
    rewrite lookup_partial_alter_ne in Hi by done. rewrite lookup_insert_ne by done.
    by apply (t_resources weight d Hok).
  - intros i lo hi Hi. destruct (t_chats weight d Hok i lo hi Hi) as (? & ? & ?). auto.
  - apply (t_pairs weight d Hok).
Qed.

Lemma no_resource_of_fresh d : tables_ok weight d → message_resources d !! next_id d = None.
Proof.
  intros Hok. apply eq_None_not_Some. intros Hs. apply (t_resources weight d Hok) in Hs as [m Hm].
  by rewrite fresh_message in Hm by apply (t_inv weight d Hok).
Qed.

Lemma storable_recipient d message recipient :
  storable d message recipient →
  recipient_of d (row_of message) = Some recipient ∧ is_Some (private_chats d !! thread_id message).
Proof.
  intros [(pc & Hpc & _ & Hr) _ _]. unfold recipient_of. cbn. rewrite Hpc. cbn. by rewrite Hr.
Qed.

Lemma storable_user d message recipient :
  tables_ok weight d → storable d message recipient → is_Some (users d !! recipient).
Proof.
  intros Hok [([lo hi] & Hpc & Hs & ->) _ _].
  destruct (t_chats weight d Hok _ _ _ Hpc) as (_ & ? & ?). unfold other_member. cbn. by case_decide.
Qed.

Lemma store_effect_ok d message recipient :
  tables_ok weight d → storable d message recipient → tables_ok weight (store_effect d message recipient).
Proof.
  intros Hok Hst. pose proof (storable_user _ _ _ Hok Hst) as [u Hu].
  destruct (storable_recipient _ _ _ Hst) as [Hrec Hpc].
  assert (Hmem : ∀ pc, private_chats d !! m_thread (row_of message) = Some pc →
    m_sender (row_of message) = pc.1 ∨ m_sender (row_of message) = pc.2).
  { destruct (st_chat _ _ _ Hst) as (pc & Hpc' & Hs & _). cbn. intros pc'. rewrite Hpc'. by intros [= <-]. }
  pose proof (st_new _ _ _ Hst) as Hnew.
  unfold store_effect. destruct (st_type _ _ _ Hst) as [Ht | [Ht [r Hr]]].
  - rewrite Ht. cbn [is_resource_type Z.eqb orb TEXT PIC FILE].
    set (e := message_event TEXT (next_id d)).
    destruct (append_event_frame (insert_message d (row_of message)) recipient e) as (E1 & E2 & E3 & _ & E4 & _).
    apply (store_rows_ok d (row_of message) None); [done | done | | | done | done | done | | done | ].
    + left. unfold row_of. rewrite Ht. split; [done |]. by split; [| split; [eexists |]].
    + unfold e. replace TEXT with (m_type (row_of message)) by done.
      apply (insert_published_inv d _ recipient u); [done.. |]. unfold row_of. by rewrite Ht.
    + rewrite E3. change (message_resources (insert_message d (row_of message))) with (message_resources d).
      rewrite <- (partial_alter_self (message_resources d) (next_id d)) at 1. by rewrite no_resource_of_fresh.
    + intros i Hi. by apply append_event_users.
  - rewrite Ht, Hr. apply (store_rows_ok d (row_of message) (Some r)); [done | done | | | done | done..].
    + right. unfold row_of. rewrite Ht. cbn. by rewrite Ht.
    + apply (insert_pending_inv d (row_of message)); [done.. |]. unfold row_of. by rewrite Ht.
Qed.

(** ** The transaction *)

(** What a stored row becomes in the answer to a duplicate. *)
Definition duplicate_of (d : db) (stored : ChatMessage) : ChatMessage :=
  if bool_decide (status stored = Published) then
    match event_seq_of d (recipient_user_id stored) (message_event (message_type stored) (message_id stored)) with
    | Some seq => with_message_event stored seq
    | None => stored
    end
  else stored.

Record duplicated (d : db) (message stored : ChatMessage) : Prop := {
  du_chat : ∃ pc, private_chats d !! thread_id message = Some pc ∧
              (sender_user_id message = pc.1 ∨ sender_user_id message = pc.2);
  du_row : existing_message weight d (sender_user_id message) (client_message_id message) = Some stored;
  du_same : same_message stored message = true;
}.

(** The message a new row is reported with. *)
Definition stored_result (d : db) (message : ChatMessage) (recipient : Z) : ChatMessage :=
  if is_resource_type (message_type message) then
    stored_as message (next_id d) recipient Pending (event_seq message)
  else stored_as message (next_id d) recipient Published
         (match users d !! recipient with Some u => last_event_seq u + 1 | None => 0 end).

Definition save_commit (d : db) (message : ChatMessage) (x : SaveMessageResult * ChatMessage) (d' : db) : Prop :=
  (x.1 = SmDuplicate ∧ d' = d ∧ ∃ stored, duplicated d message stored ∧ x.2 = duplicate_of d stored) ∨
  (x.1 = SmStored ∧ ∃ recipient, storable d message recipient ∧ d' = store_effect d message recipient ∧
     x.2 = stored_result d message recipient).

Definition save_rollback (x : SaveMessageResult * ChatMessage) : Prop := x.1 = SmConflict ∨ x.1 = SmFailed.

Abbreviation save_wp d message m := (tx_wp m (no_undo d)
  (λ x d', no_undo d d' ∧ match x.1 with Rollback => save_rollback x.2 | Commit => save_commit d message x.2 d' end)).

Lemma no_undo_refl d : no_undo d d.
Proof. unfold no_undo. lia. Qed.

Lemma save_wp_rollback d d' message rc c :
  no_undo d d' → rc = SmConflict ∨ rc = SmFailed → save_wp d message (mret (Rollback, (rc, c))) d'.
Proof. intros Hn Hrc. by apply tx_wp_ret. Qed.

Lemma save_wp_commit d d' message x :
  no_undo d d' → save_commit d message x d' → save_wp d message (mret (Commit, x)) d'.
Proof. intros Hn Hx. by apply tx_wp_ret. Qed.

Lemma add_existing_wp d message stored :
  duplicated d message stored ∨ same_message stored message = false →
  save_wp d message (add_existing stored message) d.
Proof.
  intros Hdu. unfold add_existing. destruct (same_message stored message) eqn:Es; cbn [negb].
  - destruct Hdu as [Hdu |]; [| done].
    assert (Hc : save_commit d message (SmDuplicate, duplicate_of d stored) d)
      by (left; split; [done |]; split; [done |]; by exists stored).
    unfold duplicate_of in Hc. destruct (bool_decide _).
    + tx_step. tx_step; [apply no_undo_refl |]. apply save_wp_commit; [apply no_undo_refl | done].
    + apply save_wp_commit; [apply no_undo_refl | done].
  - apply save_wp_rollback; [apply no_undo_refl | by left].
Qed.

Lemma AllocateEventSeq_wp (uid : Z) (d0 d : db) (Q : bool * Z → db → Prop) :
  no_undo d0 d → (∀ z, Q (false, z) d) →
  (∀ u, users d !! uid = Some u →
     Q (true, last_event_seq u + 1)
       (set_users d (<[uid := UserRow (username u) (email u) (password_hash u) (user_profile u) (last_event_seq u + 1)]> (users d)))) →
  tx_wp (AllocateEventSeq uid) (no_undo d0) Q d.
Proof.
  intros Hn Hf Ht. unfold AllocateEventSeq, read_event_head, update_event_head.
  tx_step. tx_step; [done |]. destruct (users d !! uid) as [u |] eqn:Hu; cbn [option_map].
  - tx_step. tx_step; [done |]. rewrite Hu. cbn [fst snd Z.eqb Pos.eqb]. apply tx_wp_ret. by apply Ht.
  - by apply tx_wp_ret.
Qed.

Lemma insert_event_wp (d0 d : db) (uid seq : Z) (e : event_row) (Q : Z → db → Prop) :
  no_undo d0 d → Q 1 (set_events d (<[(uid, seq) := e]> (user_events d))) →
  tx_wp (insert_event uid seq e) (no_undo d0) Q d.
Proof.
  intros Hn HQ. unfold insert_event. tx_step; [done |]. intros a d'. cbn. destruct (event_conflict d uid seq e); [done |].
  by intros [= <- <-].
Qed.

Lemma add_new_wp d message recipient :
  (∃ pc, private_chats d !! thread_id message = Some pc ∧
     (sender_user_id message = pc.1 ∨ sender_user_id message = pc.2) ∧
     recipient = other_member pc (sender_user_id message)) →
  save_wp d message (add_new weight message recipient) d.
Proof.
  intros Hpc. pose proof (no_undo_refl d) as Hn. unfold add_new.
  destruct (_ || _) eqn:Eg; [apply save_wp_rollback; auto |]. apply orb_false_elim in Eg as [Eg1 Eg2].
  unfold insert_chat_message. tx_step. tx_step; [done |]. intros [n last] d'. cbn [m_sender m_client m_thread].
  destruct (bool_decide _ && _ && _) eqn:Ei; [| done]. intros [= <- <- <-]. bool_to_prop.
  assert (Hst : storable d message recipient).
  { constructor; [done | done |]. destruct (is_resource_type (message_type message)).
    - right. split; [done |]. destruct Eg1 as [| Eg1%bool_decide_eq_false]; [done |]. by destruct (resource message).
    - left. destruct Eg2 as [| Eg2%negb_false_iff]; [done |]. by bool_to_prop. }
  assert (Hn1 : ∀ x, no_undo d (set_next x (next_id d + 1))) by (intros x; unfold no_undo; cbn; lia).
  cbn [Z.eqb Pos.eqb negb]. unfold LastInsertId. tx_step. tx_step; [apply Hn1 |].
  assert (Hc : save_commit d message (SmStored, stored_result d message recipient) (store_effect d message recipient))
    by (right; split; [done |]; by exists recipient).
  unfold stored_result, store_effect, row_of in Hc.
  destruct (is_resource_type (message_type message)).
  - destruct (resource message) as [r |]; [| by destruct Eg1 as [| Eg1%bool_decide_eq_false]].
    unfold insert_resource. tx_step. tx_step; [apply Hn1 |]. intros n d2. cbn.
    destruct (_ && _); [| done]. intros [= <- <-]. cbn [Z.eqb Pos.eqb negb].
    apply save_wp_commit; [unfold no_undo; cbn; lia | exact Hc].
  - tx_step. apply AllocateEventSeq_wp; [apply Hn1 | intros z; apply save_wp_rollback; auto |].
    intros u Hu. cbn [negb]. unfold InsertMessageEvent. cbn in Hu.
    tx_step. tx_step. apply insert_event_wp; [unfold no_undo; cbn; lia |].
    apply tx_wp_ret. cbn [Z.eqb Pos.eqb negb]. apply save_wp_commit; [unfold no_undo; cbn; lia |].
    unfold append_event in Hc. cbn in Hc. by rewrite Hu in Hc.
Qed.

Lemma AddChatMsgTransaction_wp d message : save_wp d message (AddChatMsgTransaction weight message) d.
Proof.
  pose proof (no_undo_refl d) as Hn. unfold AddChatMsgTransaction, ReadPrivateChatMembers.
  tx_step. tx_step; [done |].
  destruct (private_chats d !! thread_id message) as [[lo hi] |] eqn:Epc; [| apply save_wp_rollback; auto].
  destruct (negb (_ =? lo) && negb (_ =? hi)) eqn:Em; [apply save_wp_rollback; auto |].
  assert (Hm : sender_user_id message = lo ∨ sender_user_id message = hi) by (bool_to_prop; destruct Em; bool_to_prop; auto).
  tx_step. tx_step; [done |].
  destruct (existing_message weight d _ _) as [stored |] eqn:Ee.
  - apply add_existing_wp. destruct (same_message stored message) eqn:Es; [left | by right].
    constructor; [by exists (lo, hi) | done | done].
  - apply add_new_wp. exists (lo, hi). split; [done |]. split; [done |].
    unfold other_member. cbn. destruct (sender_user_id message =? lo) eqn:El; case_decide; bool_to_prop; congruence.
Qed.

(** ** The retry loop *)

Definition save_outcome (d : db) (message : ChatMessage) (rc : SaveMessageResult) (c : ChatMessage) (d' : db) : Prop :=
  (same_rows d d' ∧ rc ≠ SmStored ∧
     (rc = SmDuplicate → ∃ stored, duplicated d' message stored ∧ c = duplicate_of d' stored)) ∨
  (∃ d0 recipient, same_rows d d0 ∧ storable d0 message recipient ∧ d' = store_effect d0 message recipient ∧
     (rc = SmFailed ∨ rc = SmStored ∧ c = stored_result d0 message recipient)).

Lemma save_outcome_failed d d' message c : same_rows d d' → save_outcome d message SmFailed c d'.
Proof. intros Hs. left. by split_and!. Qed.

Lemma save_outcome_trans d d1 message rc c d' :
  same_rows d d1 → save_outcome d1 message rc c d' → save_outcome d message rc c d'.
Proof.
  intros Hs [(H1 & H2) | (d0 & r & H1 & H2)].
  - left. split; [by etrans | done].
  - right. exists d0, r. split; [by etrans | done].
Qed.

Lemma save_commit_outcome d message rc c d' rc' :
  save_commit d message (rc, c) d' → rc' = rc ∨ rc' = SmFailed → save_outcome d message rc' c d'.
Proof.
  intros [(Hrc & -> & stored & Hdu & Hc) | (Hrc & r & Hst & -> & Hc)] Hrc'; cbn in Hrc, Hc; subst rc c.
  - left. split; [reflexivity |]. split; [by destruct Hrc' as [-> | ->] |]. intros _. by exists stored.
  - right. exists d, r. split; [reflexivity |]. split; [done |]. split; [done |].
    destruct Hrc' as [-> | ->]; auto.
Qed.

Lemma save_outcome_lost d message rc c d' c' :
  save_commit d message (rc, c) d' → save_outcome d message SmFailed c' d'.
Proof.
  intros [(_ & -> & _) | (_ & r & Hst & -> & _)]; [by apply save_outcome_failed |].
  right. exists d, r. split_and!; auto. reflexivity.
Qed.

Lemma save_loop_spec k message d t rc c d' t' :
  save_loop weight k message d t = ((rc, c), d', t') → save_outcome d message rc c d'.
Proof.
  revert d t. induction k as [| k IH]; intros d t; cbn;
    destruct (transaction _ d t) as [[r d1] t1] eqn:Et;
    apply (transaction_outcome _ _ _ _ _ _ _ _ (AddChatMsgTransaction_wp d message)) in Et;
    destruct r as [e | [rc1 c1]].
  all: try (intros [= <- <- <- <-]; destruct Et as [[Hs [Hr | Hr]] | ([rc2 c2] & Hc & [Heq | Heq])];
    cbn in *; subst; simplify_eq;
    [left; by split_and! | by apply save_outcome_failed | by eapply save_commit_outcome; [| left]]).
  all: assert (Hf : ∀ x, save_outcome d message SmFailed x d1)
    by (intros x; destruct Et as [[Hs _] | ([rc2 c2] & Hc & _)];
        [by apply save_outcome_failed | by eapply save_outcome_lost]).
  all: destruct (tape_next t1) as [[| n] t2]; [| by intros [= <- <- <- <-]].
  all: destruct e; try by intros [= <- <- <- <-].
  intros Hl. apply IH in Hl. destruct Et as [[Hs _] | (x & _ & [|])]; [| done..].
  by eapply save_outcome_trans.
Qed.

Lemma AddChatMsg_spec k message d t rc c d' t' :
  AddChatMsg weight k message d t = ((rc, c), d', t') → save_outcome d message rc c d'.
Proof.
  unfold AddChatMsg, with_connection. destruct (_ || _).
  - intros [= <- <- <- <-]. apply save_outcome_failed. reflexivity.
  - destruct (tape_next t) as [[| n] t1]; [apply save_loop_spec |].
    intros [= <- <- <- <-]. apply save_outcome_failed. reflexivity.
Qed.

(** ** Retries *)

(** A message as the handlers build it. *)
Record sendable (message : ChatMessage) : Prop := {
  se_thread : 0 < thread_id message;
  se_sender : 0 < sender_user_id message;
  se_client : client_message_id message ≠ [];
  se_seq : event_seq message = 0;
  se_shape : (message_type message = TEXT ∧ resource message = None) ∨
             (is_resource_type (message_type message) = true ∧ text_content message = []);
}.

Lemma add_existing_again d message stored :
  same_message stored message = true →
  add_existing stored message d [] = (inr (Commit, (SmDuplicate, duplicate_of d stored)), d, []).
Proof.
  intros Hs. unfold add_existing, duplicate_of. rewrite Hs. cbn [negb].
  by destruct (bool_decide (status stored = Published)).
Qed.

Lemma duplicated_again k message d stored :
  sendable message → duplicated d message stored →
  AddChatMsg weight k message d [] = ((SmDuplicate, duplicate_of d stored), d, []).
Proof.
  intros [Ht Hs Hc _ _] [([lo hi] & Hpc & Hm) Hrow Hsame]. unfold AddChatMsg, with_connection.
  rewrite (proj2 (Z.leb_gt _ 0) Ht), (proj2 (Z.leb_gt _ 0) Hs), bool_decide_false by done.
  cbn [orb tape_next].
  assert (Hbody : AddChatMsgTransaction weight message d [] =
    (inr (Commit, (SmDuplicate, duplicate_of d stored)), d, [])).
  { unfold AddChatMsgTransaction, ReadPrivateChatMembers. unfold mbind, Tx_bind, query, exec.
    cbn [tape_next]. rewrite Hpc.
    replace (negb (sender_user_id message =? lo) && negb (sender_user_id message =? hi)) with false.
    2: { symmetry. apply andb_false_iff. rewrite !negb_false_iff, !Z.eqb_eq. exact Hm. }
    rewrite Hrow. by apply add_existing_again. }
  assert (Htx : transaction (AddChatMsgTransaction weight message) d [] = (inr (SmDuplicate, duplicate_of d stored), d, []))
    by (unfold transaction; cbn [tape_next]; by rewrite Hbody).
  destruct k; cbn [save_loop]; by rewrite Htx.
Qed.

Lemma store_effect_row d message r :
  chat_messages (store_effect d message r) !! next_id d = Some (row_of message) ∧
  private_chats (store_effect d message r) = private_chats d ∧
  (resource message = None → message_resources (store_effect d message r) = message_resources d) ∧
  (is_resource_type (message_type message) = true → ∀ res, resource message = Some res →
     message_resources (store_effect d message r) !! next_id d = Some res).
Proof.
  unfold store_effect.
  set (e := message_event (message_type message) (next_id d)).
  destruct (append_event_frame (insert_message d (row_of message)) r e) as (E1 & E2 & E3 & _).
  destruct (is_resource_type (message_type message)) eqn:E, (resource message) as [res |];
    rewrite ?E1, ?E2, ?E3; cbn; rewrite ?lookup_insert_eq; split_and!; try done; intros _; congruence.
Qed.

Lemma stored_duplicated d message r :
  tables_ok weight d → storable d message r → sendable message →
  ∃ stored, duplicated (store_effect d message r) message stored ∧
    message_id (duplicate_of (store_effect d message r) stored) = message_id (stored_result d message r) ∧
    event_seq (duplicate_of (store_effect d message r) stored) = event_seq (stored_result d message r).
Proof.
  intros Hok Hst Hse. set (d' := store_effect d message r).
  pose proof (store_effect_ok _ _ _ Hok Hst) as Hok'. fold d' in Hok'.
  destruct (storable_user _ _ _ Hok Hst) as [u Hu].
  destruct (store_effect_row d message r) as (Hrow & Hpcs & Hnores & Hres). fold d' in Hrow, Hpcs, Hnores, Hres.
  destruct (st_chat _ _ _ Hst) as (pc & Hpc & Hmem & Hr).
  set (stored := ReadMessage (next_id d) (row_of message) pc (message_resources d' !! next_id d)).
  assert (Hex : existing_message weight d' (sender_user_id message) (client_message_id message) = Some stored).
  { unfold existing_message. rewrite (client_row_intro d' _ _ (next_id d) (row_of message)) by done. cbn.
    unfold message_of. rewrite Hrow. cbn. by rewrite Hpcs, Hpc. }
  exists stored. destruct (se_shape _ Hse) as [[Ht Hr0] | [Ht Ht0]].
  - assert (Hev : event_seq_of d' r (message_event TEXT (next_id d)) = Some (last_event_seq u + 1)).
    { apply event_seq_of_unique; [apply (t_inv _ _ Hok') |]. unfold d', store_effect. rewrite Ht. cbn.
      rewrite (append_event_lookup _ r _ u); [by rewrite decide_True | done]. }
    split; [constructor; [by exists pc; rewrite Hpcs | done |] |].
    + unfold same_message, stored, ReadMessage, row_of. cbn. rewrite Ht, Hr0. cbn.
      by rewrite !Z.eqb_refl, bool_decide_true.
    + unfold duplicate_of, stored, stored_result, ReadMessage, row_of. cbn. rewrite Ht. cbn.
      rewrite <- Hr, Hev, Hu. done.
  - destruct (st_type _ _ _ Hst) as [Ht' | [_ [res Hres0]]]; [by rewrite Ht' in Ht |].
    assert (Hlk : message_resources d' !! next_id d = Some res) by by apply Hres.
    split; [constructor; [by exists pc; rewrite Hpcs | done |] |].
    + unfold same_message, stored, ReadMessage, row_of. cbn. rewrite Ht, Hres0, Hlk, Ht0. cbn.
      by rewrite !Z.eqb_refl, !bool_decide_true.
    + unfold duplicate_of, stored, stored_result, ReadMessage, row_of. cbn. rewrite Ht. cbn.
      by rewrite (se_seq _ Hse).
Qed.

(** C2: sending a message is idempotent.
    Whatever fails, [AddChatMsg] keeps the tables consistent and either
    leaves the rows alone or stores the message once, a text together with
    its recipient's next event. Once it is stored, also when the outcome of
    the commit was lost, another attempt is a duplicate that finds the same
    message number and event number and changes nothing. *)
Theorem AddChatMsg_stores_once k message d t rc c d' t' :
  tables_ok weight d → sendable message →
  AddChatMsg weight k message d t = ((rc, c), d', t') →
  tables_ok weight d' ∧
  (same_rows d d' ∨ ∃ d0 recipient, same_rows d d0 ∧ storable d0 message recipient ∧
                      d' = store_effect d0 message recipient) ∧
  (rc = SmStored ∨ rc = SmDuplicate → ∀ k', ∃ c',
     AddChatMsg weight k' message d' [] = ((SmDuplicate, c'), d', []) ∧
     message_id c' = message_id c ∧ event_seq c' = event_seq c) ∧
  (¬ same_rows d d' → ∀ k', ∃ c', AddChatMsg weight k' message d' [] = ((SmDuplicate, c'), d', [])).
Proof.
  intros Hok Hse Hrun. apply AddChatMsg_spec in Hrun.
  destruct Hrun as [(Hs & Hrc & Hdu) | (d0 & r & Hs & Hst & -> & Hrc)].
  - split; [by eapply tables_ok_same_rows |]. split; [by left |]. split; [| done].
    intros [-> | ->] k'; [done |]. destruct (Hdu eq_refl) as (stored & Hd & ->).
    exists (duplicate_of d' stored). split; [by apply duplicated_again | done].
  - assert (Hok0 : tables_ok weight d0) by by eapply tables_ok_same_rows.
    destruct (stored_duplicated d0 message r Hok0 Hst Hse) as (stored & Hd & Hid & Hseq).
    assert (Hagain : ∀ k', AddChatMsg weight k' message (store_effect d0 message r) [] =
      ((SmDuplicate, duplicate_of (store_effect d0 message r) stored), store_effect d0 message r, []))
      by (intros k'; by apply duplicated_again).
    split; [by apply store_effect_ok |]. split; [right; by exists d0, r |].
    split; [| intros _ k'; by eexists].
    intros Hrc' k'. eexists. split; [by apply Hagain |].
    destruct Hrc as [-> | [-> ->]]; [by destruct Hrc' | done].
Qed.

End messages.

(** ** A concrete run *)

(** A collation that ignores the case of letters. *)
Definition demo_weight (s : bytes) : bytes :=
  map (λ b, if (65 <=? bval b) && (bval b <=? 90) then mkbyte (bval b + 32) else b) s.

Lemma demo_chats res i pc : private_chats (demo_db_of res) !! i = Some pc → i = 5 ∧ pc = (1, 2).
Proof. unfold demo_db_of. cbn [private_chats]. intros H. by apply lookup_singleton_Some in H as [<- <-]. Qed.

Lemma demo_tables_ok res : tables_ok demo_weight (demo_db_of res).
Proof.
  assert (Hm : ∀ i m, chat_messages (demo_db_of res) !! i = Some m →
    message_resources (demo_db_of res) !! i = Some res ∧ m_type m = PIC ∧ m_text m = None ∧
    m_sender m = 1 ∧ (i = 9 ∧ m_client m = § "c1" ∨ i = 10 ∧ m_client m = § "c2")).
  { intros i m [[-> ->] | [-> ->]]%demo_messages; split_and!; try done; auto. }
  constructor.
  - apply demo_db_inv.
  - done.
  - intros i Hi. unfold demo_db_of. cbn [chat_messages private_chats].
    by rewrite lookup_insert_ne, !lookup_singleton_ne by lia.
  - intros i j m n (_ & _ & _ & _ & Hi)%Hm (_ & _ & _ & _ & Hj)%Hm _ Hw.
    destruct Hi as [[-> Hi] | [-> Hi]], Hj as [[-> Hj] | [-> Hj]]; try done; by rewrite Hi, Hj in Hw.
  - intros i m (Hr & Ht & Hx & _)%Hm. right. by rewrite Ht, Hx, Hr.
  - intros i m pc (_ & _ & _ & Hs & _)%Hm [_ ->]%demo_chats. rewrite Hs. by left.
  - intros i [x Hx]. unfold demo_db_of in *. cbn [message_resources chat_messages] in *.
    destruct (decide (i = 9)) as [-> | H9]; [by rewrite lookup_insert_eq |].
    rewrite lookup_insert_ne in Hx by done. rewrite lookup_insert_ne by done. apply lookup_singleton_Some in Hx as [<- _].
    by rewrite lookup_singleton_eq.
  - intros i lo hi [_ [= -> ->]]%demo_chats. split; [lia |]. split; by eexists.
  - intros i j pc [-> _]%demo_chats [-> _]%demo_chats. done.
Qed.

Definition demo_text : ChatMessage :=
  ChatMsg 0 5 1 0 (§ "c3") TEXT (§ "hi") Pending (§ "2026-01-01") None 0.

(** The first attempt meets a deadlock, the second one loses its commit. *)
Definition demo_save_tape : tape := [IoOk; IoOk; IoOk; IoFail 1; IoOk] ++ repeat IoOk 8 ++ [IoFail 2].

Lemma AddChatMsg_stores_once_witness :
  let r := AddChatMsg demo_weight 2 demo_text demo_db demo_save_tape in
  r.1.1.1 = SmFailed ∧ message_of r.1.2 11 ≠ None ∧
  ∃ c', AddChatMsg demo_weight 2 demo_text r.1.2 [] = ((SmDuplicate, c'), r.1.2, []).
Proof.
  intros r. assert (Hm : message_of r.1.2 11 ≠ None) by (vm_compute; discriminate).
  split; [vm_compute; reflexivity |]. split; [exact Hm |].
  assert (He : AddChatMsg demo_weight 2 demo_text demo_db demo_save_tape = ((r.1.1.1, r.1.1.2), r.1.2, r.2))
    by (fold r; by destruct r as [[[? ?] ?] ?]).
  assert (Hse : sendable demo_text) by (constructor; [vm_compute; done.. | by left]).
  assert (Hne : ¬ same_rows demo_db r.1.2).
  { intros [_ Hd]. apply Hm. unfold message_of. rewrite Hd. vm_compute. reflexivity. }
  exact (proj2 (proj2 (proj2 (AddChatMsg_stores_once demo_weight 2 demo_text demo_db _ _ _ _ _
    (demo_tables_ok _) Hse He))) Hne 2%nat).
Defined.
