(* ===== verification/ChatFriends.v ===== *)
(** * Friend requests and private chats (ChatServer/src/MysqlDao.cpp)

    [AddFriendApply], [HandleFriendApply] and [CreatePrivateChat]: their
    transactions, what each of them does to the tables, and the invariant
    that ties friendships, private chats, requests and events together. *)

From S2P Require Import Prelude Database ResourceDb TxLogic ChatDb ChatDbMessages.

(** [FriendHandleOutput] *)
Record handle_output := HandleOut {
  out_request : option FriendRequest;
  out_thread_id : Z;
  out_peer_user_id : Z;
}.

(** The [catch] of the two operations calls [rollback] outside of any [try]:
    when it fails the exception leaves the function, which is [None]. *)
Definition friend_catch {A} (none : A) (m : Tx (FriendOperationResult * A)) :
    Dao (option (FriendOperationResult * A)) := λ d t,
  match m d t with
  | (inr x, d', t') => (Some x, d', t')
  | (inl _, d', t') =>
      match tape_next t' with
      | (IoOk, t'') => (Some (FoFailed, none), d', t'')
      | (IoFail _, t'') => (None, d', t'')
      end
  end.

Definition is_user (d : db) (uid : Z) : bool := bool_decide (is_Some (users d !! uid)).

(** [ORDER BY friend_request_id LIMIT 1] *)
Definition first_request (d : db) (p : freq_row → bool) : option FriendRequest :=
  match rows_where (λ _ f, p f) (friend_requests d) with
  | [] => None
  | x :: _ => Some (ReadFriendRequest x.1 x.2)
  end.

Section collation.
Context (weight : bytes → bytes).

Definition same_request_key (requester : Z) (client : bytes) (f : freq_row) : bool :=
  (f_requester f =? requester) && bool_decide (weight (f_client f) = weight client).

Definition pending_between (requester target : Z) (f : freq_row) : bool :=
  (f_requester f =? requester) && (f_target f =? target) && bool_decide (f_status f = FrPending).

Definition insert_request (row : freq_row) : Tx (Z * Z) :=
  exec_or_error (λ d,
    if bool_decide (first_request d (same_request_key (f_requester row) (f_client row)) = None) &&
       is_user d (f_requester row) && is_user d (f_target row) && negb (f_requester row =? f_target row)
    then Some ((1, next_id d),
           set_next (set_requests d (<[next_id d := row]> (friend_requests d))) (next_id d + 1))
    else None).

(** The insert branch of [AddFriendApply]. *)
Definition add_request (requester target : Z) (message client : bytes) :
    Tx (finish_kind * (FriendOperationResult * option FriendRequest)) :=
  '(n, last) ← insert_request (FreqRow requester target client message FrPending None);
  if negb (n =? 1) then mret (Rollback, (FoFailed, None))
  else
    request_id ← LastInsertId last;
    if request_id <=? 0 then mret (Rollback, (FoFailed, None))
    else
      '(ok, seq) ← AllocateEventSeq target;
      if negb ok then mret (Rollback, (FoFailed, None))
      else
        ok ← InsertFriendEvent target seq FRIEND_APPLY request_id;
        if negb (ok : bool) then mret (Rollback, (FoFailed, None))
        else
          read ← query (λ d, request_of d request_id);
          match read with
          | None => mret (Rollback, (FoFailed, None))
          | Some request => mret (Commit, (FoStored, Some (with_request_event request seq)))
          end.

Definition add_friend_body (requester target : Z) (message client : bytes) :
    Tx (finish_kind * (FriendOperationResult * option FriendRequest)) :=
  found ← query (λ d, is_user d target);
  if negb (found : bool) then mret (Rollback, (FoNotFound, None))
  else
    found ← query (λ d, is_user d requester);
    if negb (found : bool) then mret (Rollback, (FoNotFound, None))
    else
      let lower := Z.min requester target in
      let higher := Z.max requester target in
      friends ← query (λ d, bool_decide ((lower, higher) ∈ friendships d));
      if (friends : bool) then mret (Rollback, (FoAlreadyFriends, None))
      else
        by_key ← query (λ d, first_request d (same_request_key requester client));
        match by_key with
        | Some request =>
            let same := (target_user_id request =? target) &&
                        bool_decide (request_message request = message) in
            mret (Commit, (if same then FoDuplicate else FoConflict, Some request))
        | None =>
            pending ← query (λ d, first_request d (pending_between requester target));
            match pending with
            | Some request => mret (Commit, (FoDuplicate, Some request))
            | None => add_request requester target message client
            end
        end.

Definition AddFriendApply (requester target : Z) (message client : bytes) :
    Dao (option (FriendOperationResult * option FriendRequest)) :=
  if (requester <=? 0) || (target <=? 0) || (requester =? target) || bool_decide (client = [])
  then λ d t, (Some (FoFailed, None), d, t)
  else with_connection (Some (FoFailed, None))
         (friend_catch None (transaction (add_friend_body requester target message client))).

End collation.

(** ** Answering a request *)

Definition answered (f : freq_row) (st : FriendRequestStatus) (tid : option Z) : freq_row :=
  FreqRow (f_requester f) (f_target f) (f_client f) (f_message f) st tid.

(** [UPDATE friend_requests SET status=1,thread_id=? WHERE status=0 AND (...)] *)
Definition accept_requests (tid lower higher : Z) (d : db) : unit * db :=
  (tt, set_requests d ((λ f,
    if bool_decide (f_status f = FrPending) &&
       ((f_requester f =? lower) && (f_target f =? higher) || (f_requester f =? higher) && (f_target f =? lower))
    then answered f FrAccepted (Some tid) else f) <$> friend_requests d)).

(** [UPDATE friend_requests SET status=2 WHERE friend_request_id=? AND status=0] *)
Definition reject_request (fid : Z) (d : db) : Z * db :=
  match friend_requests d !! fid with
  | Some f =>
      if decide (f_status f = FrPending)
      then (1, set_requests d (<[fid := answered f FrRejected (f_thread f)]> (friend_requests d)))
      else (0, d)
  | None => (0, d)
  end.

Definition with_answer (r : FriendRequest) (st : FriendRequestStatus) (tid seq : Z) : FriendRequest :=
  FriendReq (friend_request_id r) (requester_user_id r) (target_user_id r) (client_request_id r)
    (request_message r) st tid seq.

Definition no_output : handle_output := HandleOut None 0 0.

(** The event for the requester that ends both branches. *)
Definition answer_event (fid : Z) (request : FriendRequest) (st : FriendRequestStatus) (tid ty : Z) (out_tid : Z) :
    Tx (finish_kind * (FriendOperationResult * handle_output)) :=
  '(ok, seq) ← AllocateEventSeq (requester_user_id request);
  if negb ok then mret (Rollback, (FoFailed, no_output))
  else
    ok ← InsertFriendEvent (requester_user_id request) seq ty fid;
    if negb (ok : bool) then mret (Rollback, (FoFailed, no_output))
    else mret (Commit, (FoStored, HandleOut (Some (with_answer request st tid seq)) out_tid (requester_user_id request))).

Definition accept_branch (fid : Z) (request : FriendRequest) :
    Tx (finish_kind * (FriendOperationResult * handle_output)) :=
  let lower := Z.min (requester_user_id request) (target_user_id request) in
  let higher := Z.max (requester_user_id request) (target_user_id request) in
  last ← exec_or_error (upsert_chat lower higher);
  tid ← LastInsertId last;
  if tid <=? 0 then mret (Rollback, (FoFailed, no_output))
  else
    exec (insert_friendship lower higher);;
    exec (accept_requests tid lower higher);;
    answer_event fid request FrAccepted tid FRIEND_ACCEPT tid.

Definition reject_branch (fid : Z) (request : FriendRequest) :
    Tx (finish_kind * (FriendOperationResult * handle_output)) :=
  n ← exec (reject_request fid);
  if negb (n =? 1) then mret (Rollback, (FoAlreadyHandled, no_output))
  else answer_event fid request FrRejected (request_thread_id request) FRIEND_REJECT 0.

Definition handle_friend_body (handler fid : Z) (accept : bool) :
    Tx (finish_kind * (FriendOperationResult * handle_output)) :=
  row ← query (λ d, request_of d fid);
  match row with
  | None => mret (Rollback, (FoNotFound, no_output))
  | Some request =>
      if negb (target_user_id request =? handler)
      then mret (Rollback, (FoForbidden, HandleOut (Some request) 0 0))
      else
        let desired := if accept then FrAccepted else FrRejected in
        if negb (bool_decide (request_status request = FrPending)) then
          mret (Commit, (if bool_decide (request_status request = desired) then FoDuplicate else FoAlreadyHandled,
                         HandleOut (Some request) (request_thread_id request) (requester_user_id request)))
        else if accept then accept_branch fid request
        else reject_branch fid request
  end.

Definition HandleFriendApply (handler fid : Z) (accept : bool) :
    Dao (option (FriendOperationResult * handle_output)) :=
  with_connection (Some (FoFailed, no_output))
    (friend_catch no_output (transaction (handle_friend_body handler fid accept))).

(** [CreatePrivateChat]: success and the thread. One statement with
    autocommit, so its effect may survive a reported failure. *)
Definition upsert_auto (lower higher : Z) : Tx (option Z) :=
  exec_auto (λ d, match upsert_chat lower higher d with
                  | Some (tid, d') => (Some tid, d')
                  | None => (None, d)
                  end).

Definition CreatePrivateChat (requester target : Z) : Dao (bool * Z) :=
  if (requester <=? 0) || (target <=? 0) || (requester =? target) then λ d t, ((false, 0), d, t)
  else
    with_connection (false, 0)
      (catch (res ← upsert_auto (Z.min requester target) (Z.max requester target);
              match res with
              | None => mret (false, 0)                 (* the foreign keys refuse it *)
              | Some last => tid ← LastInsertId last; mret (0 <? tid, tid)
              end) (λ _, (false, 0))).

(** ** The invariant *)

Definition pair_of (f : freq_row) : Z * Z :=
  (Z.min (f_requester f) (f_target f), Z.max (f_requester f) (f_target f)).

(** The events a request gives rise to: for the target when it is made, for
    the requester when it is answered. *)
Definition event_due (f : freq_row) (ty uid : Z) : Prop :=
  (ty = FRIEND_APPLY ∧ uid = f_target f) ∨
  (ty = FRIEND_ACCEPT ∧ uid = f_requester f ∧ f_status f = FrAccepted) ∨
  (ty = FRIEND_REJECT ∧ uid = f_requester f ∧ f_status f = FrRejected).

Record request_row_ok (d : db) (i : Z) (f : freq_row) : Prop := {
  fr_users : 0 < f_requester f ∧ 0 < f_target f ∧ f_requester f ≠ f_target f ∧
             is_Some (users d !! f_requester f) ∧ is_Some (users d !! f_target f);
  fr_id : 0 < i;
  fr_accepted : f_status f = FrAccepted →
    ∃ tid, f_thread f = Some tid ∧ private_chats d !! tid = Some (pair_of f) ∧ pair_of f ∈ friendships d;
  fr_pending : f_status f = FrPending → pair_of f ∉ friendships d;
}.

Record friends_ok (weight : bytes → bytes) (d : db) : Prop := {
  f_rows : ∀ i f, friend_requests d !! i = Some f → request_row_ok d i f;
  f_clients : ∀ i j f g, friend_requests d !! i = Some f → friend_requests d !! j = Some g →
    f_requester f = f_requester g → weight (f_client f) = weight (f_client g) → i = j;
  f_pendings : ∀ i j f g, friend_requests d !! i = Some f → friend_requests d !! j = Some g →
    f_requester f = f_requester g → f_target f = f_target g →
    f_status f = FrPending → f_status g = FrPending → i = j;
  f_friend_chat : ∀ p, p ∈ friendships d → ∃ tid, private_chats d !! tid = Some p;
  f_events : ∀ uid s ty fid, user_events d !! (uid, s) = Some (friend_event ty fid) →
    ∃ f, friend_requests d !! fid = Some f ∧ event_due f ty uid;
  f_kinds : ∀ uid s e, user_events d !! (uid, s) = Some e →
    (∃ ty mid, e = message_event ty mid) ∨ (∃ ty fid, e = friend_event ty fid);
}.

(** Every request is announced to its target. *)
Definition notified (d : db) : Prop :=
  ∀ i f, friend_requests d !! i = Some f →
    ∃ s, user_events d !! (f_target f, s) = Some (friend_event FRIEND_APPLY i).

Definition chat_ok (weight : bytes → bytes) (d : db) : Prop :=
  tables_ok weight d ∧ friends_ok weight d ∧ notified d.

(** ** Frames *)

Section frames.
Context (weight : bytes → bytes).

Lemma chat_ok_same_rows d d' : same_rows d d' → chat_ok weight d → chat_ok weight d'.
Proof.
  intros Hs (Ht & Hf & Hn). pose proof (tables_ok_same_rows weight _ _ Hs Ht) as Ht'.
  destruct Hs as [_ Hd]. split; [done |]. split; [| by rewrite Hd].
  destruct Hf as [Hr ? ? ? ? ?]. rewrite Hd. constructor; [| done..].
  intros i f Hi. destruct (Hr i f Hi). by constructor.
Qed.

(** More private chats, everything else the same. *)
Record more_chats (d d' : db) : Prop := {
  mc_chats : ∀ i pc, private_chats d !! i = Some pc → private_chats d' !! i = Some pc;
  mc_next : next_id d <= next_id d';
  mc_same : d' = set_next (set_chats d (private_chats d')) (next_id d');
}.

Lemma recipient_more d d' m r :
  more_chats d d' → recipient_of d m = Some r → recipient_of d' m = Some r.
Proof.
  intros Hm. unfold recipient_of. destruct (private_chats d !! m_thread m) as [pc |] eqn:E; [| done].
  by rewrite (mc_chats _ _ Hm _ _ E).
Qed.

Lemma more_chats_inv d d' :
  more_chats d d' → (∀ i, next_id d' <= i → private_chats d' !! i = None) → db_inv d → db_inv d'.
Proof.
  intros Hm Hfree (Hg & Hp & Hr & (Hk & Hn & Hrec & Hu)).
  assert (Hrec' : ∀ i m r, chat_messages d !! i = Some m → recipient_of d' m = Some r → recipient_of d m = Some r).
  { intros i m r Hi Hr'. destruct (Hrec i m Hi) as [r0 Hr0].
    rewrite (recipient_more _ _ _ _ Hm Hr0) in Hr'. congruence. }
  pose proof (mc_next _ _ Hm) as Hle. pose proof (recipient_more d d') as Hmore. specialize (Hmore).
  assert (Eu : users d' = users d) by by rewrite (mc_same _ _ Hm).
  assert (Em : chat_messages d' = chat_messages d) by by rewrite (mc_same _ _ Hm).
  assert (Ee : user_events d' = user_events d) by by rewrite (mc_same _ _ Hm).
  assert (Ef : friend_requests d' = friend_requests d) by by rewrite (mc_same _ _ Hm).
  unfold db_inv, events_gapless, published_iff_event, events_refer, keys_ok. rewrite Eu, Em, Ee, Ef.
  split; [done | split; [| split; [| split; [done | split; [| split]]]]].
  - intros i m Hi r Hr'. apply (Hp i m Hi). by eapply Hrec'.
  - intros uid s ty mid Hs. destruct (Hr _ _ _ _ Hs) as (m & Hi & Hty & Hm'). exists m.
    split; [done |]. split; [done |]. by apply Hmore.
  - intros i Hi. destruct (Hn i) as (? & _ & ?); [lia |]. auto.
  - intros i m Hi. destruct (Hrec i m Hi) as [r Hr']. exists r. by apply Hmore.
  - done.
Qed.

(** Appending an event that is not a message's. *)
Lemma append_friend_event_inv d r u ty fid :
  db_inv d → users d !! r = Some u → (∀ s, user_events d !! (r, s) ≠ Some (friend_event ty fid)) →
  db_inv (append_event d r (friend_event ty fid)).
Proof.
  intros (Hg & Hp & Hr & Hk) Hu Hnew. set (e := friend_event ty fid).
  destruct (append_event_frame d r e) as (E1 & E2 & _).
  assert (Hev : ∀ k ty' mid, user_events (append_event d r e) !! k = Some (message_event ty' mid) ↔
    user_events d !! k = Some (message_event ty' mid)).
  { intros k ty' mid. rewrite (append_event_lookup d r e u k Hu). case_decide as Hk'; [| done].
    rewrite Hk'. split; [done |]. by rewrite (event_free d r u). }
  split; [| split; [| split]].
  - apply (append_event_gapless d r u); [done | | done | done]. by apply Hk in Hu.
  - intros i m Hm r' Hr'. rewrite E1 in Hm. unfold recipient_of in Hr'. rewrite E2 in Hr'.
    setoid_rewrite Hev. by apply Hp.
  - intros uid s ty' mid Hs%Hev. unfold recipient_of. rewrite E1, E2. by apply (Hr uid s).
  - by apply append_event_keys.
Qed.

Lemma tables_ok_frame d d' :
  tables_ok weight d → db_inv d' → next_id d <= next_id d' →
  chat_messages d' = chat_messages d → private_chats d' = private_chats d →
  message_resources d' = message_resources d →
  (∀ i, is_Some (users d !! i) → is_Some (users d' !! i)) → tables_ok weight d'.
Proof.
  intros [Hi Hn ? ? ? ? ? Hc ?] Hi' Hle E1 E2 E3 Hu. constructor; rewrite ?E1, ?E2, ?E3; try done; [lia |].
  intros i lo hi Hpc. destruct (Hc i lo hi Hpc) as (? & ? & ?). auto.
Qed.

Lemma request_row_ok_frame d d' i f :
  (∀ i, is_Some (users d !! i) → is_Some (users d' !! i)) →
  (∀ i pc, private_chats d !! i = Some pc → private_chats d' !! i = Some pc) →
  friendships d' = friendships d → request_row_ok d i f → request_row_ok d' i f.
Proof.
  intros Hu Hc Hf [(? & ? & ? & ? & ?) ? Ha Hp]. constructor; rewrite ?Hf; [| done | | done].
  - auto 10.
  - intros Hst. destruct (Ha Hst) as (tid & ? & ? & ?). eauto.
Qed.

(** A friend event that is due. *)
Lemma append_due_event_ok d r ty fid f :
  tables_ok weight d → friends_ok weight d → friend_requests d !! fid = Some f → event_due f ty r →
  (∀ s, user_events d !! (r, s) ≠ Some (friend_event ty fid)) →
  is_Some (users d !! r) →
  tables_ok weight (append_event d r (friend_event ty fid)) ∧ friends_ok weight (append_event d r (friend_event ty fid)).
Proof.
  intros Ht Hf Hfid Hdue Hnew [u Hu]. set (e := friend_event ty fid).
  destruct (append_event_frame d r e) as (E1 & E2 & E3 & E4 & E5 & E6).
  assert (Hlk : ∀ k, user_events (append_event d r e) !! k =
    if decide (k = (r, last_event_seq u + 1)) then Some e else user_events d !! k)
    by (intros k; apply (append_event_lookup d r e u k Hu)).
  split.
  - apply (tables_ok_frame d); [done | | by rewrite E5 | done | done | done |].
    + eapply append_friend_event_inv; [apply (t_inv _ _ Ht) | done..].
    + intros i. apply append_event_users.
  - destruct Hf as [Hr ? ? Hc He Hk]. constructor; rewrite ?E4; [| done | done | | |].
    + intros i g Hi. eapply request_row_ok_frame; [intros j; apply append_event_users | by rewrite E2 | done | by apply Hr].
    + rewrite E6, E2. done.
    + intros uid s ty' fid' Hs. rewrite Hlk in Hs. case_decide as Ek; [| by eapply He].
      injection Ek as -> ->. unfold e, friend_event in Hs. injection Hs as <- <-. by exists f.
    + intros uid s e' Hs. rewrite Hlk in Hs. case_decide; [| by eapply Hk].
      injection Hs as <-. right. by exists ty, fid.
Qed.

Lemma append_event_notified d r e u :
  events_gapless d → users d !! r = Some u → notified d → notified (append_event d r e).
Proof.
  intros Hg Hu Hn i f. destruct (append_event_frame d r e) as (_ & _ & _ & E4 & _). rewrite E4. intros Hi.
  destruct (Hn i f Hi) as [s Hs]. exists s. rewrite (append_event_lookup d r e u _ Hu).
  case_decide as Hk; [| done]. rewrite Hk in Hs. by rewrite (event_free d r u) in Hs.
Qed.

End frames.

(** ** Effects *)

Section effects.
Context (weight : bytes → bytes).

Definition insert_row (d : db) (row : freq_row) : db :=
  set_next (set_requests d (<[next_id d := row]> (friend_requests d))) (next_id d + 1).

Definition request_effect (d : db) (row : freq_row) : db :=
  append_event (insert_row d row) (f_target row) (friend_event FRIEND_APPLY (next_id d)).

Lemma first_request_None d p i f : first_request d p = None → friend_requests d !! i = Some f → p f = false.
Proof.
  unfold first_request. destruct (rows_where _ _) as [| x l] eqn:E; [| done]. intros _.
  apply (proj1 (rows_where_nil _ _) E i f).
Qed.

Lemma first_request_Some d p r :
  first_request d p = Some r →
  ∃ i f, friend_requests d !! i = Some f ∧ p f = true ∧ r = ReadFriendRequest i f.
Proof.
  unfold first_request. destruct (rows_where _ _) as [| [i f] l] eqn:E; [done |]. intros [= <-].
  assert (H : (i, f) ∈ (i, f) :: l) by left. rewrite <- E in H.
  apply rows_where_elem in H as [Hf Hp]. by exists i, f.
Qed.

Lemma first_request_unique d p i f :
  friend_requests d !! i = Some f → p f = true →
  (∀ j g, friend_requests d !! j = Some g → p g = true → j = i) →
  first_request d p = Some (ReadFriendRequest i f).
Proof.
  intros Hf Hp Hu. destruct (first_request d p) as [r |] eqn:E.
  - apply first_request_Some in E as (j & g & Hg & Hpg & ->). pose proof (Hu j g Hg Hpg). subst j. by simplify_eq.
  - by rewrite (first_request_None _ _ _ _ E Hf) in Hp.
Qed.

Lemma same_request_key_true s c f :
  same_request_key weight s c f = true ↔ f_requester f = s ∧ weight (f_client f) = weight c.
Proof. unfold same_request_key. rewrite andb_true_iff, Z.eqb_eq, bool_decide_eq_true. done. Qed.

Lemma pending_between_true a b f :
  pending_between a b f = true ↔ f_requester f = a ∧ f_target f = b ∧ f_status f = FrPending.
Proof. unfold pending_between. rewrite !andb_true_iff, !Z.eqb_eq, bool_decide_eq_true. tauto. Qed.

(** What the checks of [AddFriendApply] have established. *)
Record requestable (d : db) (row : freq_row) : Prop := {
  rq_users : 0 < f_requester row ∧ 0 < f_target row ∧ f_requester row ≠ f_target row ∧
             is_Some (users d !! f_requester row) ∧ is_Some (users d !! f_target row);
  rq_row : f_status row = FrPending ∧ f_thread row = None;
  rq_stranger : pair_of row ∉ friendships d;
  rq_key : first_request d (same_request_key weight (f_requester row) (f_client row)) = None;
  rq_pending : first_request d (pending_between (f_requester row) (f_target row)) = None;
}.

Lemma fresh_request d : db_inv d → friend_requests d !! next_id d = None.
Proof. intros (_ & _ & _ & (_ & Hn & _)). apply (Hn (next_id d)). lia. Qed.

Lemma insert_row_lookup d row i f :
  friend_requests (insert_row d row) !! i = Some f →
  (i = next_id d ∧ f = row) ∨ (i ≠ next_id d ∧ friend_requests d !! i = Some f).
Proof.
  cbn. destruct (decide (i = next_id d)) as [-> |].
  - rewrite lookup_insert_eq. intros [= <-]. by left.
  - rewrite lookup_insert_ne by done. by right.
Qed.

Lemma insert_row_tables d row : tables_ok weight d → tables_ok weight (insert_row d row).
Proof.
  intros Ht. apply (tables_ok_frame weight d); try done; [| cbn; lia].
  destruct (t_inv _ _ Ht) as (Hg & Hp & Hr & (Hk & Hn & Hrec & Hu)).
  split; [exact Hg |]. split; [exact Hp |]. split; [exact Hr |]. split; [exact Hk |]. split; [| by split].
  intros i Hi. cbn in Hi |- *. destruct (Hn i) as (? & ? & ?); [lia |].
  by rewrite lookup_insert_ne by lia.
Qed.

Lemma insert_row_friends d row :
  tables_ok weight d → friends_ok weight d → requestable d row → friends_ok weight (insert_row d row).
Proof.
  intros Ht [Hr Hcl Hpe Hfc He Hk] Hq. pose proof (t_next _ _ Ht).
  pose proof (fresh_request d (t_inv _ _ Ht)) as Hfresh.
  assert (Hnk : ∀ i g, friend_requests d !! i = Some g → f_requester g = f_requester row →
    weight (f_client g) ≠ weight (f_client row)).
  { intros i g Hg Hs Hw. apply (first_request_None _ _ _ _ (rq_key _ _ Hq)) in Hg.
    apply not_true_iff_false in Hg. by apply Hg, same_request_key_true. }
  assert (Hnp : ∀ i g, friend_requests d !! i = Some g → f_requester g = f_requester row →
    f_target g = f_target row → f_status g ≠ FrPending).
  { intros i g Hg Hs Htg Hst. apply (first_request_None _ _ _ _ (rq_pending _ _ Hq)) in Hg.
    apply not_true_iff_false in Hg. by apply Hg, pending_between_true. }
  constructor.
  - intros i f [[-> ->] | [_ Hi]]%insert_row_lookup.
    + destruct Hq as [? [Hst ?] ? _ _]. constructor; [done | lia | by rewrite Hst | done].
    + by destruct (Hr i f Hi).
  - intros i j f g [[-> ->] | [_ Hi]]%insert_row_lookup [[-> ->] | [_ Hj]]%insert_row_lookup Hs Hw; try done.
    + by destruct (Hnk _ _ Hj).
    + by destruct (Hnk _ _ Hi).
    + by eapply Hcl.
  - intros i j f g [[-> ->] | [_ Hi]]%insert_row_lookup [[-> ->] | [_ Hj]]%insert_row_lookup Hs Htg Hf Hg; try done.
    + by destruct (Hnp _ _ Hj).
    + by destruct (Hnp _ _ Hi).
    + by eapply Hpe.
  - exact Hfc.
  - intros uid s ty fid Hs. destruct (He _ _ _ _ Hs) as (f & Hf & Hd). exists f. split; [| done].
    cbn. rewrite lookup_insert_ne; [done |]. congruence.
  - exact Hk.
Qed.

Lemma request_effect_ok d row : chat_ok weight d → requestable d row → chat_ok weight (request_effect d row).
Proof.
  intros (Ht & Hf & Hn) Hq. pose proof (insert_row_tables d row Ht) as Ht1.
  pose proof (insert_row_friends d row Ht Hf Hq) as Hf1.
  pose proof (fresh_request d (t_inv _ _ Ht)) as Hfresh.
  destruct (rq_users _ _ Hq) as (_ & _ & _ & _ & [u Hu]).
  assert (Hrow : friend_requests (insert_row d row) !! next_id d = Some row) by (cbn; apply lookup_insert_eq).
  assert (Hnew : ∀ s, user_events (insert_row d row) !! (f_target row, s) ≠ Some (friend_event FRIEND_APPLY (next_id d))).
  { intros s Hs. destruct (f_events _ _ Hf _ _ _ _ Hs) as (f & Hi & _). congruence. }
  unfold request_effect.
  destruct (append_due_event_ok weight (insert_row d row) (f_target row) FRIEND_APPLY (next_id d) row) as [? ?];
    [done | done | done | by left | done | by exists u |].
  split; [done |]. split; [done |].
  set (e := friend_event FRIEND_APPLY (next_id d)).
  destruct (append_event_frame (insert_row d row) (f_target row) e) as (_ & _ & _ & E4 & _).
  intros i f. rewrite E4. intros Hi. setoid_rewrite (append_event_lookup (insert_row d row) (f_target row) e u _ Hu).
  apply insert_row_lookup in Hi as [[-> ->] | [_ Hi]].
  - exists (last_event_seq u + 1). by rewrite decide_True.
  - destruct (Hn i f Hi) as [s Hs]. exists s. case_decide as Hk; [| done].
    rewrite Hk in Hs. by rewrite (event_free d) in Hs by (done || apply (t_inv _ _ Ht)).
Qed.

End effects.

Section answers.
Context (weight : bytes → bytes).

Lemma chat_of_pair_Some d lo hi i : chat_of_pair d lo hi = Some i → private_chats d !! i = Some (lo, hi).
Proof.
  unfold chat_of_pair. destruct (rows_where _ _) as [| [j pc] l] eqn:E; [done |]. intros [= <-].
  assert (H : (j, pc) ∈ (j, pc) :: l) by left. rewrite <- E in H.
  apply rows_where_elem in H as [Hj Hp]. by bool_to_prop; subst.
Qed.

Lemma chat_of_pair_None d lo hi i : chat_of_pair d lo hi = None → private_chats d !! i ≠ Some (lo, hi).
Proof.
  unfold chat_of_pair. destruct (rows_where _ _) as [| x l] eqn:E; [| done]. intros _ Hi.
  pose proof (proj1 (rows_where_nil _ _) E i _ Hi) as H. cbv beta in H. by rewrite bool_decide_true in H.
Qed.

Lemma chat_of_pair_unique d lo hi i :
  tables_ok weight d → private_chats d !! i = Some (lo, hi) → chat_of_pair d lo hi = Some i.
Proof.
  intros Ht Hi. destruct (chat_of_pair d lo hi) as [j |] eqn:E.
  - apply chat_of_pair_Some in E. f_equal. by eapply (t_pairs _ _ Ht).
  - by destruct (chat_of_pair_None _ _ _ _ E Hi).
Qed.

Lemma fresh_chat d : db_inv d → private_chats d !! next_id d = None.
Proof. intros (_ & _ & _ & (_ & Hn & _)). apply (Hn (next_id d)). lia. Qed.

(** The state of the tables after the upsert. *)
Record upserted (d d' : db) (tid lo hi : Z) : Prop := {
  up_more : more_chats d d';
  up_chat : private_chats d' !! tid = Some (lo, hi);
  up_tid : 0 < tid;
  up_tables : tables_ok weight d';
  up_users : lo < hi;
}.

Lemma upsert_chat_spec d lo hi tid d' :
  tables_ok weight d → 0 < lo → upsert_chat lo hi d = Some (tid, d') → upserted d d' tid lo hi.
Proof.
  intros Ht Hlo. unfold upsert_chat. destruct (_ && _) eqn:Eg; [| done]. bool_to_prop.
  pose proof (t_inv _ _ Ht) as Hinv. pose proof (fresh_chat d Hinv) as Hfresh. pose proof (t_next _ _ Ht) as Hn0.
  pose proof Hinv as (_ & _ & _ & (_ & Hn & _)).
  destruct (chat_of_pair d lo hi) as [i |] eqn:E; intros [= <- <-].
  - apply chat_of_pair_Some in E.
    assert (Hs : same_rows d (set_next d (next_id d + 1))) by (apply same_rows_set_next; lia).
    constructor; [constructor; [done | cbn; lia | done] | done | | | done].
    + destruct (decide (0 < i)); [done |]. destruct (t_ids _ _ Ht i); [lia | congruence].
    + by eapply tables_ok_same_rows.
  - set (d1 := set_next (set_chats d (<[next_id d := (lo, hi)]> (private_chats d))) (next_id d + 1)).
    assert (Hlk : ∀ i pc, private_chats d1 !! i = Some pc →
      (i = next_id d ∧ pc = (lo, hi)) ∨ private_chats d !! i = Some pc).
    { intros i pc. cbn. destruct (decide (i = next_id d)) as [-> |].
      - rewrite lookup_insert_eq. intros [= <-]. by left.
      - rewrite lookup_insert_ne by done. by right. }
    assert (Hm : more_chats d d1).
    { constructor; [| cbn; lia | done]. intros i pc Hi. cbn. rewrite lookup_insert_ne by congruence. done. }
    assert (Hnew : private_chats d1 !! next_id d = Some (lo, hi)) by (cbn; apply lookup_insert_eq).
    constructor; [done | done | lia | | done].
    destruct Ht as [_ _ Hids Hcl Hms Hmem Hres Hchats Hpairs]. constructor.
    + apply (more_chats_inv d); [done | | done]. intros i Hi. cbn in Hi |- *.
      rewrite lookup_insert_ne by lia. apply Hn. lia.
    + cbn. lia.
    + intros i Hi. cbn. rewrite lookup_insert_ne by lia. by apply Hids.
    + exact Hcl.
    + exact Hms.
    + intros i m pc Hi Hpc. destruct Hinv as (_ & _ & _ & (_ & _ & Hrec & _)). destruct (Hrec i m Hi) as [r Hr].
      unfold recipient_of in Hr. destruct (private_chats d !! m_thread m) as [pc0 |] eqn:E0; [| done].
      rewrite (mc_chats _ _ Hm _ _ E0) in Hpc. simplify_eq. by eapply Hmem.
    + exact Hres.
    + intros i a b [[-> [= -> ->]] | Hi]%Hlk; [| by eapply Hchats]. done.
    + intros i j pc [[-> ->] | Hi]%Hlk [[-> Hj0] | Hj]%Hlk; try done.
      * by destruct (chat_of_pair_None _ _ _ j E).
      * rewrite Hj0 in Hi. by destruct (chat_of_pair_None _ _ _ i E).
      * by eapply Hpairs.
Qed.

Lemma more_chats_friends d d' : more_chats d d' → friends_ok weight d → friends_ok weight d'.
Proof.
  intros Hm [Hr Hcl Hpe Hfc He Hk]. pose proof (mc_chats _ _ Hm) as Hc. pose proof (mc_same _ _ Hm) as Hd.
  assert (Eu : users d' = users d) by by rewrite Hd.
  assert (Ef : friendships d' = friendships d) by by rewrite Hd.
  constructor; try (rewrite Hd; done).
  - intros i f Hi. rewrite Hd in Hi. cbn in Hi. apply (request_row_ok_frame d); [by rewrite Eu | done | done | by apply Hr].
  - intros p. rewrite Ef. intros Hp. destruct (Hfc p Hp) as [tid Htid]. exists tid. by apply Hc.
Qed.

(** ** Accepting *)

Definition accept_row (tid lower higher : Z) (f : freq_row) : freq_row :=
  if bool_decide (f_status f = FrPending) &&
     ((f_requester f =? lower) && (f_target f =? higher) || (f_requester f =? higher) && (f_target f =? lower))
  then answered f FrAccepted (Some tid) else f.

Definition befriend (d : db) (tid lower higher : Z) : db :=
  (accept_requests tid lower higher (insert_friendship lower higher d).2).2.

Lemma accept_row_cases tid lo hi f :
  lo < hi →
  (f_status f = FrPending ∧ pair_of f = (lo, hi) ∧ accept_row tid lo hi f = answered f FrAccepted (Some tid)) ∨
  ((f_status f = FrPending → pair_of f ≠ (lo, hi)) ∧ accept_row tid lo hi f = f).
Proof.
  intros Hlt. unfold accept_row, pair_of. destruct (_ && _) eqn:E.
  - bool_to_prop. left. split; [done |]. split; [| done]. f_equal; destruct H0 as [?%andb_true_iff | ?%andb_true_iff];
      destruct_and!; bool_to_prop; lia.
  - right. split; [| done]. intros Hst [= H1 H2]. apply not_true_iff_false in E. apply E.
    rewrite bool_decide_true by done. cbn. rewrite orb_true_iff, !andb_true_iff, !Z.eqb_eq. lia.
Qed.

Lemma accept_row_same tid lo hi f :
  f_requester (accept_row tid lo hi f) = f_requester f ∧ f_target (accept_row tid lo hi f) = f_target f ∧
  f_client (accept_row tid lo hi f) = f_client f ∧ pair_of (accept_row tid lo hi f) = pair_of f.
Proof. unfold accept_row. by destruct (_ && _). Qed.

Lemma befriend_lookup d tid lo hi i g :
  friend_requests (befriend d tid lo hi) !! i = Some g →
  ∃ f, friend_requests d !! i = Some f ∧ g = accept_row tid lo hi f.
Proof.
  unfold befriend, accept_requests, insert_friendship. cbn. rewrite lookup_fmap.
  destruct (friend_requests d !! i) as [f |]; [| done]. intros [= <-]. by exists f.
Qed.

Lemma befriend_tables d tid lo hi : tables_ok weight d → tables_ok weight (befriend d tid lo hi).
Proof.
  intros Ht. apply (tables_ok_frame weight d); try done.
  destruct (t_inv _ _ Ht) as (Hg & Hp & Hr & (Hk & Hn & Hrec & Hu)).
  split; [exact Hg |]. split; [exact Hp |]. split; [exact Hr |]. split; [exact Hk |]. split; [| by split].
  intros i Hi. destruct (Hn i Hi) as (? & ? & H3). split; [done |]. split; [done |].
  unfold befriend, accept_requests, insert_friendship. cbn. by rewrite lookup_fmap, H3.
Qed.

Lemma befriend_friends d tid lo hi :
  lo < hi → private_chats d !! tid = Some (lo, hi) → friends_ok weight d → friends_ok weight (befriend d tid lo hi).
Proof.
  intros Hlt Hchat [Hr Hcl Hpe Hfc He Hk]. constructor.
  - intros i g (f & Hf & ->)%befriend_lookup. destruct (Hr i f Hf) as [Hu Hid Ha Hp].
    assert (Hin : ∀ p, p ∈ friendships (befriend d tid lo hi) ↔ p = (lo, hi) ∨ p ∈ friendships d)
      by (intros p; unfold befriend; cbn; by rewrite elem_of_union, elem_of_singleton).
    destruct (accept_row_cases tid lo hi f Hlt) as [(Hst & Hpair & ->) | (Hno & ->)].
    + constructor; [done | done | | done]. intros _. exists tid. split; [done |].
      change (pair_of (answered f FrAccepted (Some tid))) with (pair_of f). rewrite Hpair, Hin. auto.
    + constructor; [done | done | |].
      * intros Hst. destruct (Ha Hst) as (t & ? & ? & ?). exists t. rewrite Hin. auto.
      * intros Hst. rewrite Hin. intros [Heq | Hin']; [by apply Hno | by apply Hp].
  - intros i j f g (f0 & Hf & ->)%befriend_lookup (g0 & Hg & ->)%befriend_lookup.
    destruct (accept_row_same tid lo hi f0) as (-> & _ & -> & _), (accept_row_same tid lo hi g0) as (-> & _ & -> & _).
    by apply Hcl.
  - intros i j f g (f0 & Hf & ->)%befriend_lookup (g0 & Hg & ->)%befriend_lookup.
    destruct (accept_row_cases tid lo hi f0 Hlt) as [(_ & _ & ->) | (_ & ->)]; [done |].
    destruct (accept_row_cases tid lo hi g0 Hlt) as [(_ & _ & ->) | (_ & ->)]; [done |]. by apply Hpe.
  - intros p. unfold befriend. cbn. rewrite elem_of_union, elem_of_singleton. intros [-> | Hp]; [by exists tid | by apply Hfc].
  - intros uid s ty fid Hs. destruct (He _ _ _ _ Hs) as (f & Hf & Hd). exists (accept_row tid lo hi f). split.
    + unfold befriend. cbn. by rewrite lookup_fmap, Hf.
    + destruct (accept_row_cases tid lo hi f Hlt) as [(Hst & _ & ->) | (_ & ->)]; [| done].
      destruct Hd as [? | [(? & ? & ?) | (? & ? & ?)]]; [by left | congruence | congruence].
  - exact Hk.
Qed.

Lemma befriend_notified d tid lo hi : notified d → notified (befriend d tid lo hi).
Proof.
  intros Hn i g (f & Hf & ->)%befriend_lookup. destruct (accept_row_same tid lo hi f) as (_ & -> & _).
  exact (Hn i f Hf).
Qed.

(** ** Rejecting *)

Lemma reject_ok d fid f :
  chat_ok weight d → friend_requests d !! fid = Some f → f_status f = FrPending →
  chat_ok weight (set_requests d (<[fid := answered f FrRejected (f_thread f)]> (friend_requests d))).
Proof.
  intros (Ht & [Hr Hcl Hpe Hfc He Hk] & Hn) Hf Hst.
  set (d' := set_requests d (<[fid := answered f FrRejected (f_thread f)]> (friend_requests d))).
  assert (Hlk : ∀ i g, friend_requests d' !! i = Some g →
    ∃ g0, friend_requests d !! i = Some g0 ∧ (g = g0 ∧ i ≠ fid ∨ i = fid ∧ g0 = f ∧ g = answered f FrRejected (f_thread f))).
  { intros i g. cbn. destruct (decide (i = fid)) as [-> |].
    - rewrite lookup_insert_eq. intros [= <-]. exists f. auto.
    - rewrite lookup_insert_ne by done. intros Hg. exists g. auto. }
  split; [| split].
  - apply (tables_ok_frame weight d); try done.
    destruct (t_inv _ _ Ht) as (Hg & Hp & Hrf & (Hkk & Hnx & Hrec & Hu)).
    split; [exact Hg |]. split; [exact Hp |]. split; [exact Hrf |]. split; [exact Hkk |]. split; [| by split].
    intros i Hi. destruct (Hnx i Hi) as (? & ? & H3). split; [done |]. split; [done |]. cbn.
    rewrite lookup_insert_ne; [done |]. congruence.
  - constructor.
    + intros i g (g0 & Hg0 & [[-> _] | (-> & -> & ->)])%Hlk.
      * by destruct (Hr i g0 Hg0).
      * destruct (Hr fid f Hf). by constructor.
    + intros i j g h (g0 & Hg0 & Hg)%Hlk (h0 & Hh0 & Hh)%Hlk Hs Hw.
      apply (Hcl i j g0 h0 Hg0 Hh0); destruct Hg as [[-> _] | (_ & -> & ->)], Hh as [[-> _] | (_ & -> & ->)]; done.
    + intros i j g h (g0 & Hg0 & [[-> _] | (_ & _ & ->)])%Hlk (h0 & Hh0 & [[-> _] | (_ & _ & ->)])%Hlk; try done.
      by apply Hpe.
    + exact Hfc.
    + intros uid s ty i Hs. destruct (He _ _ _ _ Hs) as (g & Hg & Hd). cbn.
      destruct (decide (i = fid)) as [-> |].
      * rewrite lookup_insert_eq. eexists. split; [done |]. simplify_eq.
        destruct Hd as [? | [(? & ? & ?) | (? & ? & ?)]]; [by left | congruence | congruence].
      * rewrite lookup_insert_ne by done. by exists g.
    + exact Hk.
  - intros i g (g0 & Hg0 & [[-> _] | (_ & -> & ->)])%Hlk; exact (Hn i _ Hg0).
Qed.

End answers.

(** ** The transactions *)

(** A body for which the catch of the two operations is run. *)
Definition not_done {A} (x : FriendOperationResult * A) : Prop := x.1 ≠ FoStored ∧ x.1 ≠ FoDuplicate.

Definition friend_outcome {A} (QC : FriendOperationResult * A → db → Prop) (d : db)
    (res : option (FriendOperationResult * A)) (d' : db) : Prop :=
  (same_rows d d' ∧ (∀ x, res = Some x → not_done x)) ∨
  (∃ x, QC x d' ∧ (∀ y, res = Some y → y = x ∨ not_done y)).

Lemma friend_catch_outcome {A} (none : A) (body : Tx (finish_kind * (FriendOperationResult * A))) QC d t res d' t' :
  tx_wp body (no_undo d) (λ x d1, no_undo d d1 ∧ match x.1 with Rollback => not_done x.2 | Commit => QC x.2 d1 end) d →
  friend_catch none (transaction body) d t = (res, d', t') → friend_outcome QC d res d'.
Proof.
  intros Hb. unfold friend_catch. destruct (transaction body d t) as [[r d1] t1] eqn:Et.
  apply (transaction_outcome _ _ _ _ _ _ _ _ Hb) in Et.
  assert (Hf : not_done (FoFailed, none)) by done.
  destruct r as [e | x].
  - assert (Hres : res = Some (FoFailed, none) ∧ d' = d1 ∨ res = None ∧ d' = d1 → friend_outcome QC d res d').
    { intros [[-> ->] | [-> ->]]; (destruct Et as [[Hs _] | (y & Hy & _)];
        [left; split; [done |] | right; exists y; split; [done |]]; intros ? [= <-]; auto). }
    destruct (tape_next t1) as [[| n] t2]; intros [= <- <- <-]; apply Hres; auto.
  - intros [= <- <- <-]. destruct Et as [[Hs Hq] | (y & Hy & [Heq | Heq])]; [| | done].
    + left. split; [done |]. by intros ? [= <-].
    + injection Heq as <-. right. exists x. split; [done |]. intros ? [= <-]. by left.
Qed.

Section requests.
Context (weight : bytes → bytes).

Definition the_row (requester target : Z) (message client : bytes) : freq_row :=
  FreqRow requester target client message FrPending None.

Definition friends_now (d : db) (a b : Z) : bool := bool_decide ((Z.min a b, Z.max a b) ∈ friendships d).

(** The read-only answers: the client's identifier is known, or another
    request to the same target is still pending. *)
Record known_request (d : db) (requester target : Z) (message client : bytes)
    (x : FriendOperationResult * option FriendRequest) : Prop := {
  kn_users : is_user d target = true ∧ is_user d requester = true ∧ friends_now d requester target = false;
  kn_row :
    (∃ r, first_request d (same_request_key weight requester client) = Some r ∧
       x = (if (target_user_id r =? target) && bool_decide (request_message r = message) then FoDuplicate else FoConflict, Some r)) ∨
    (first_request d (same_request_key weight requester client) = None ∧
     ∃ r, first_request d (pending_between requester target) = Some r ∧ x = (FoDuplicate, Some r));
}.

Definition add_commit (d : db) (requester target : Z) (message client : bytes)
    (x : FriendOperationResult * option FriendRequest) (d' : db) : Prop :=
  (d' = d ∧ known_request d requester target message client x) ∨
  (let row := the_row requester target message client in
   requestable weight d row ∧ d' = request_effect d row ∧ x.1 = FoStored ∧
   ∃ r, x.2 = Some r ∧ friend_request_id r = next_id d).

Lemma tx_rollback_wp {A} d d' (x : A) (QR : A → Prop) QC :
  no_undo d d' → QR x →
  tx_wp (mret (Rollback, x)) (no_undo d)
    (λ (x : finish_kind * A) d1, no_undo d d1 ∧ match x.1 with Rollback => QR x.2 | Commit => QC x.2 d1 end) d'.
Proof. intros Hn Hx. by apply tx_wp_ret. Qed.

Lemma tx_commit_wp {A} d d' (x : A) (QR : A → Prop) (QC : A → db → Prop) :
  no_undo d d' → QC x d' →
  tx_wp (mret (Commit, x)) (no_undo d)
    (λ (x : finish_kind * A) d1, no_undo d d1 ∧ match x.1 with Rollback => QR x.2 | Commit => QC x.2 d1 end) d'.
Proof. intros Hn Hx. by apply tx_wp_ret. Qed.

Abbreviation add_wp d requester target message client m :=
  (tx_wp m (no_undo d) (λ x d1, no_undo d d1 ∧
     match x.1 with Rollback => not_done x.2 | Commit => add_commit d requester target message client x.2 d1 end)).

Lemma add_request_wp d requester target message client :
  0 < next_id d → requestable weight d (the_row requester target message client) →
  add_wp d requester target message client (add_request weight requester target message client) d.
Proof.
  intros Hn0 Hq. pose proof (no_undo_refl d) as Hn. unfold add_request, insert_request.
  set (row := the_row requester target message client) in *.
  tx_step. tx_step; [done |]. intros [n last] d1. destruct (_ && _); [| done]. intros [= <- <- <-].
  assert (Hn1 : no_undo d (insert_row d row)) by (unfold no_undo; cbn; lia).
  cbn [Z.eqb Pos.eqb negb]. unfold LastInsertId. tx_step. tx_step; [exact Hn1 |].
  rewrite (proj2 (Z.leb_gt (next_id d) 0)) by lia.
  tx_step. apply AllocateEventSeq_wp; [exact Hn1 | intros z; by apply tx_rollback_wp |].
  intros u Hu. cbn [negb]. unfold InsertFriendEvent. tx_step. tx_step.
  apply insert_event_wp; [exact Hn1 |]. apply tx_wp_ret. cbn [Z.eqb Pos.eqb negb].
  tx_step. tx_step; [exact Hn1 |]. unfold request_of. cbn [friend_requests set_events set_users set_next set_requests].
  rewrite lookup_insert_eq. cbn [option_map]. apply tx_commit_wp; [exact Hn1 |].
  right. split; [done |]. split; [| split; [done | by eexists]].
  unfold request_effect, append_event, insert_row. cbn in Hu |- *. by rewrite Hu.
Qed.

Lemma is_user_true d uid : is_user d uid = true → is_Some (users d !! uid).
Proof. unfold is_user. apply bool_decide_eq_true. Qed.

Lemma add_friend_body_wp d requester target message client :
  0 < next_id d → 0 < requester → 0 < target → requester ≠ target →
  add_wp d requester target message client (add_friend_body weight requester target message client) d.
Proof.
  intros Hn0 Hr Ht Hne. pose proof (no_undo_refl d) as Hn. unfold add_friend_body.
  tx_step. tx_step; [done |]. destruct (is_user d target) eqn:Ut; cbn [negb]; [| by apply tx_rollback_wp].
  tx_step. tx_step; [done |]. destruct (is_user d requester) eqn:Ur; cbn [negb]; [| by apply tx_rollback_wp].
  tx_step. tx_step; [done |]. fold (friends_now d requester target).
  destruct (friends_now d requester target) eqn:Uf; [by apply tx_rollback_wp |].
  tx_step. tx_step; [done |].
  destruct (first_request d (same_request_key weight requester client)) as [r |] eqn:Ek.
  { apply tx_commit_wp; [done |]. left. split; [done |]. constructor; [done |]. left. by exists r. }
  tx_step. tx_step; [done |].
  destruct (first_request d (pending_between requester target)) as [r |] eqn:Ep.
  { apply tx_commit_wp; [done |]. left. split; [done |]. constructor; [done |]. right. split; [done |]. by exists r. }
  apply add_request_wp; [done |]. constructor; cbn; try done.
  - split_and!; try done; by apply is_user_true.
  - by apply bool_decide_eq_false in Uf.
Qed.

Lemma AddFriendApply_spec d requester target message client t res d' t' :
  0 < next_id d → AddFriendApply weight requester target message client d t = (res, d', t') →
  friend_outcome (add_commit d requester target message client) d res d' ∧
  ((∃ rc r, res = Some (rc, Some r)) ∨ ¬ same_rows d d' → 0 < requester ∧ 0 < target ∧ requester ≠ target ∧ client ≠ []).
Proof.
  intros Hn0. unfold AddFriendApply, with_connection.
  assert (Hsame : ∀ x, (Some (FoFailed, None), d, x) = (res, d', t') →
    friend_outcome (add_commit d requester target message client) d res d' ∧
    ((∃ rc r, res = Some (rc, Some r)) ∨ ¬ same_rows d d' → 0 < requester ∧ 0 < target ∧ requester ≠ target ∧ client ≠ [])).
  { intros x [= <- <- <-]. split; [left; split; [reflexivity | by intros ? [= <-]] |].
    intros [(? & ? & ?) | H]; [done | by destruct H]. }
  destruct (_ || bool_decide (client = [])) eqn:Eg; [by apply Hsame |]. bool_to_prop.
  destruct (tape_next t) as [[| n] t1]; [| by apply Hsame].
  intros Hrun. split; [| done]. eapply friend_catch_outcome; [by apply add_friend_body_wp | done].
Qed.

Lemma known_again d requester target message client x :
  0 < requester → 0 < target → requester ≠ target → client ≠ [] →
  known_request d requester target message client x →
  AddFriendApply weight requester target message client d [] = (Some x, d, []).
Proof.
  intros Hr Ht Hne Hc [(Ut & Ur & Uf) Hrow]. unfold AddFriendApply.
  rewrite (proj2 (Z.leb_gt _ 0) Hr), (proj2 (Z.leb_gt _ 0) Ht), (proj2 (Z.eqb_neq _ _) Hne), bool_decide_false by done.
  cbn [orb with_connection tape_next].
  assert (Hbody : add_friend_body weight requester target message client d [] = (inr (Commit, x), d, [])).
  { unfold add_friend_body, friends_now in *. rewrite query_bind_run, Ut. cbn [negb].
    rewrite query_bind_run, Ur. cbn [negb]. rewrite query_bind_run, Uf, query_bind_run.
    destruct Hrow as [(r & -> & ->) | (-> & r & Hp & ->)]; [done |]. by rewrite query_bind_run, Hp. }
  unfold friend_catch, transaction. cbn [tape_next]. by rewrite Hbody.
Qed.

Lemma requested_known d requester target message client :
  chat_ok weight d → requestable weight d (the_row requester target message client) →
  known_request (request_effect d (the_row requester target message client)) requester target message client
    (FoDuplicate, Some (ReadFriendRequest (next_id d) (the_row requester target message client))).
Proof.
  set (row := the_row requester target message client). intros Hok Hq.
  pose proof (request_effect_ok weight d row Hok Hq) as (_ & Hf & _).
  destruct (rq_users _ _ _ Hq) as (_ & _ & _ & Ur & Ut). cbn in Ur, Ut.
  destruct (append_event_frame (insert_row d row) target (friend_event FRIEND_APPLY (next_id d))) as (_ & _ & _ & E4 & _ & E6).
  assert (Hlk : friend_requests (request_effect d row) !! next_id d = Some row)
    by (unfold request_effect; cbn [f_target row the_row]; rewrite E4; cbn; apply lookup_insert_eq).
  constructor.
  - unfold is_user, friends_now. rewrite !bool_decide_true by by apply append_event_users.
    split; [done |]. split; [done |]. apply bool_decide_false. unfold request_effect. cbn [f_target row the_row].
    rewrite E6. exact (rq_stranger _ _ _ Hq).
  - left. exists (ReadFriendRequest (next_id d) row). split.
    + apply first_request_unique; [done | by apply same_request_key_true |].
      intros j g Hg [Hs Hw]%same_request_key_true. by eapply (f_clients _ _ Hf).
    + cbn. by rewrite Z.eqb_refl, bool_decide_true.
Qed.

(** C25: a friend request is made once.
    Whatever fails, [AddFriendApply] keeps the tables consistent and either
    leaves the rows alone or inserts one pending request, between users who
    are not friends and have no pending request that way, together with its
    event for the target. Once that is done, also when the outcome of the
    commit was lost or the rollback of the handler threw, another attempt
    finds the same request and changes nothing. *)
Theorem AddFriendApply_requests_once requester target message client d t res d' t' :
  chat_ok weight d → AddFriendApply weight requester target message client d t = (res, d', t') →
  chat_ok weight d' ∧
  (same_rows d d' ∨ requestable weight d (the_row requester target message client) ∧
                      d' = request_effect d (the_row requester target message client)) ∧
  (∀ rc r, res = Some (rc, Some r) → rc = FoStored ∨ rc = FoDuplicate → ∃ r',
     AddFriendApply weight requester target message client d' [] = (Some (FoDuplicate, Some r'), d', []) ∧
     friend_request_id r' = friend_request_id r) ∧
  (¬ same_rows d d' → ∃ r',
     AddFriendApply weight requester target message client d' [] = (Some (FoDuplicate, Some r'), d', [])).
Proof.
  intros Hok Hrun. pose proof (t_next _ _ (proj1 Hok)) as Hn0.
  apply AddFriendApply_spec in Hrun as [Hout Hguard]; [| done].
  destruct Hout as [[Hs Hno] | (x & [[-> Hkn] | (Hq & -> & Hx1 & r0 & Hx2 & Hid)] & Hres)].
  - split; [by eapply chat_ok_same_rows |]. split; [by left |]. split; [| done].
    intros rc r Hr [-> | ->]; destruct (Hno _ Hr); done.
  - split; [done |]. split; [by left |]. split; [| intros Hn; by destruct Hn].
    intros rc r Hr Hrc. destruct Hguard as (? & ? & ? & ?); [left; eauto |]. exists r.
    destruct (Hres _ Hr) as [<- | [Hd1 Hd2]]; [| by destruct Hrc].
    destruct Hrc as [-> | ->]; [| split; [by apply known_again | done]].
    destruct Hkn as [_ [(r1 & _ & Heq) | (_ & r1 & _ & Heq)]]; [by destruct (_ && _) | done].
  - pose proof (request_effect_ok weight d _ Hok Hq) as Hok'. split; [done |]. split; [by right |].
    destruct (rq_users _ _ _ Hq) as (? & ? & ? & _). cbn in *.
    pose proof (requested_known d requester target message client Hok Hq) as Hkn.
    split.
    + intros rc r Hr Hrc. destruct Hguard as (_ & _ & _ & ?); [left; eauto |].
      eexists. split; [by eapply known_again |]. cbn.
      destruct (Hres _ Hr) as [<- | [Hd1 Hd2]]; [by simplify_eq/= | by destruct Hrc].
    + intros Hne. destruct Hguard as (_ & _ & _ & ?); [by right |].
      eexists. by eapply known_again.
Qed.

End requests.

(** ** Answering *)

Section handling.
Context (weight : bytes → bytes).

Definition accept_effect (d1 : db) (tid fid : Z) (f : freq_row) : db :=
  append_event (befriend d1 tid (pair_of f).1 (pair_of f).2) (f_requester f) (friend_event FRIEND_ACCEPT fid).

Definition reject_effect (d : db) (fid : Z) (f : freq_row) : db :=
  append_event (set_requests d (<[fid := answered f FrRejected (f_thread f)]> (friend_requests d)))
    (f_requester f) (friend_event FRIEND_REJECT fid).

Definition answer (accept : bool) : FriendRequestStatus := if accept then FrAccepted else FrRejected.
Definition answer_type (accept : bool) : Z := if accept then FRIEND_ACCEPT else FRIEND_REJECT.

Lemma no_answer_yet d fid f ty s :
  friends_ok weight d → friend_requests d !! fid = Some f → f_status f = FrPending → ty = FRIEND_ACCEPT ∨ ty = FRIEND_REJECT →
  user_events d !! (f_requester f, s) ≠ Some (friend_event ty fid).
Proof.
  intros Hf Hi Hst Hty Hs. destruct (f_events _ _ Hf _ _ _ _ Hs) as (g & Hg & Hd). simplify_eq.
  destruct Hd as [[-> _] | [(_ & _ & ?) | (_ & _ & ?)]]; [by destruct Hty | congruence | congruence].
Qed.

(** The last step of both branches. *)
Lemma answer_event_ok d r ty fid f :
  chat_ok weight d → friend_requests d !! fid = Some f → event_due f ty r →
  (∀ s, user_events d !! (r, s) ≠ Some (friend_event ty fid)) → is_Some (users d !! r) →
  chat_ok weight (append_event d r (friend_event ty fid)) ∧
  friend_requests (append_event d r (friend_event ty fid)) = friend_requests d ∧
  ∃ s, user_events (append_event d r (friend_event ty fid)) !! (r, s) = Some (friend_event ty fid).
Proof.
  intros (Ht & Hf & Hn) Hi Hd Hnew [u Hu].
  destruct (append_due_event_ok weight d r ty fid f) as [Ht' Hf']; [done.. | by exists u |].
  split; [| split].
  - split; [done |]. split; [done |]. apply (append_event_notified _ _ _ u); [apply (t_inv _ _ Ht) | done..].
  - apply append_event_frame.
  - exists (last_event_seq u + 1). rewrite (append_event_lookup d r _ u) by done. by rewrite decide_True.
Qed.

Definition effect_of (accept : bool) (d : db) (fid : Z) (f : freq_row) (d' : db) : Prop :=
  chat_ok weight d' ∧
  (∃ f', friend_requests d' !! fid = Some f' ∧ f_status f' = answer accept ∧ f_target f' = f_target f) ∧
  (∃ s, user_events d' !! (f_requester f, s) = Some (friend_event (answer_type accept) fid)) ∧
  (accept = true → pair_of f ∈ friendships d' ∧ ∃ tid, private_chats d' !! tid = Some (pair_of f)).

Lemma reject_effect_ok d fid f :
  chat_ok weight d → friend_requests d !! fid = Some f → f_status f = FrPending →
  effect_of false d fid f (reject_effect d fid f).
Proof.
  intros Hok Hi Hst. pose proof Hok as (Ht & Hf & _).
  pose proof (reject_ok weight d fid f Hok Hi Hst) as Hok1.
  set (d1 := set_requests d (<[fid := answered f FrRejected (f_thread f)]> (friend_requests d))) in *.
  destruct (fr_users _ _ _ (f_rows _ _ Hf _ _ Hi)) as (_ & _ & _ & Hu & _).
  assert (Hi1 : friend_requests d1 !! fid = Some (answered f FrRejected (f_thread f))) by apply lookup_insert_eq.
  destruct (answer_event_ok d1 (f_requester f) FRIEND_REJECT fid (answered f FrRejected (f_thread f)))
    as (Hok2 & Hreq & Hev); [done | done | by right; right | | done |].
  - intros s. change (user_events d1) with (user_events d). by eapply no_answer_yet; auto.
  - split; [done |]. split; [| split; [done | done]]. unfold reject_effect. fold d1. rewrite Hreq.
    eexists. split; [done |]. by split.
Qed.

Lemma accept_effect_ok d d1 tid fid f :
  chat_ok weight d → friend_requests d !! fid = Some f → f_status f = FrPending →
  upserted weight d d1 tid (pair_of f).1 (pair_of f).2 →
  effect_of true d fid f (accept_effect d1 tid fid f) ∧
  friend_requests (accept_effect d1 tid fid f) !! fid = Some (answered f FrAccepted (Some tid)).
Proof.
  intros (Ht & Hf & Hn) Hi Hst [Hm Hchat Htid Ht1 Hlt].
  pose proof (more_chats_friends weight d d1 Hm Hf) as Hf1.
  assert (Hn1 : notified d1) by by rewrite (mc_same _ _ Hm).
  assert (Hi1 : friend_requests d1 !! fid = Some f) by by rewrite (mc_same _ _ Hm).
  set (d2 := befriend d1 tid (pair_of f).1 (pair_of f).2).
  assert (Hok2 : chat_ok weight d2).
  { split; [by apply befriend_tables |]. split; [by apply befriend_friends | by apply befriend_notified]. }
  assert (Hi2 : friend_requests d2 !! fid = Some (answered f FrAccepted (Some tid))).
  { unfold d2, befriend, accept_requests, insert_friendship. cbn [snd set_requests set_friendships friend_requests].
    rewrite lookup_fmap, Hi1. cbn [fmap option_fmap option_map]. f_equal.
    fold (accept_row tid (pair_of f).1 (pair_of f).2 f).
    destruct (accept_row_cases tid (pair_of f).1 (pair_of f).2 f Hlt) as [(_ & _ & E) | (Hno & _)]; [exact E |].
    by destruct (Hno Hst). }
  destruct (fr_users _ _ _ (f_rows _ _ Hf1 _ _ Hi1)) as (_ & _ & _ & Hu & _).
  destruct (answer_event_ok d2 (f_requester f) FRIEND_ACCEPT fid (answered f FrAccepted (Some tid)))
    as (Hok3 & Hreq & Hev); [done | done | by right; left | | done |].
  - intros s. change (user_events d2) with (user_events d1). by eapply no_answer_yet; auto.
  - unfold accept_effect. fold d2. rewrite Hreq. split; [| done].
    split; [done |]. rewrite Hreq. split; [by eexists |]. split; [done |]. intros _.
    destruct (append_event_frame d2 (f_requester f) (friend_event FRIEND_ACCEPT fid)) as (_ & E2 & _ & _ & _ & E6).
    rewrite E2, E6. split; [| exists tid; by destruct (pair_of f)].
    apply elem_of_union_l, elem_of_singleton. by destruct (pair_of f).
Qed.

Definition answered_before (accept : bool) (fid : Z) (f : freq_row) : FriendOperationResult * handle_output :=
  (if bool_decide (f_status f = answer accept) then FoDuplicate else FoAlreadyHandled,
   HandleOut (Some (ReadFriendRequest fid f)) (default 0 (f_thread f)) (f_requester f)).

Definition handle_commit (d : db) (handler fid : Z) (accept : bool)
    (x : FriendOperationResult * handle_output) (d' : db) : Prop :=
  ∃ f, friend_requests d !! fid = Some f ∧ f_target f = handler ∧
  ((f_status f ≠ FrPending ∧ d' = d ∧ x = answered_before accept fid f) ∨
   (f_status f = FrPending ∧ x.1 = FoStored ∧
    if accept then ∃ tid d1, upserted weight d d1 tid (pair_of f).1 (pair_of f).2 ∧
                     d' = accept_effect d1 tid fid f ∧ out_thread_id x.2 = tid
    else d' = reject_effect d fid f)).

Abbreviation handle_wp d handler fid accept m :=
  (tx_wp m (no_undo d) (λ x d1, no_undo d d1 ∧
     match x.1 with Rollback => not_done x.2 | Commit => handle_commit d handler fid accept x.2 d1 end)).

Lemma answer_event_wp d d1 handler fid accept f st tid ty out_tid :
  no_undo d d1 →
  (∀ x, x.1 = FoStored → out_thread_id x.2 = out_tid → is_Some (users d1 !! f_requester f) →
     handle_commit d handler fid accept x (append_event d1 (f_requester f) (friend_event ty fid))) →
  handle_wp d handler fid accept (answer_event fid (ReadFriendRequest fid f) st tid ty out_tid) d1.
Proof.
  intros Hn Hc. unfold answer_event. tx_step.
  apply AllocateEventSeq_wp; [done | intros z; by apply tx_rollback_wp |].
  intros u Hu. cbn [negb]. unfold InsertFriendEvent. tx_step. tx_step.
  apply insert_event_wp; [done |]. apply tx_wp_ret. cbn [Z.eqb Pos.eqb negb].
  apply tx_commit_wp; [done |].
  match goal with |- handle_commit _ _ _ _ ?x _ => specialize (Hc x eq_refl eq_refl (mk_is_Some _ _ Hu)) end.
  unfold append_event in Hc. cbn in Hu. by rewrite Hu in Hc.
Qed.

Lemma accept_branch_wp d handler fid f :
  chat_ok weight d → friend_requests d !! fid = Some f → f_target f = handler → f_status f = FrPending →
  handle_wp d handler fid true (accept_branch fid (ReadFriendRequest fid f)) d.
Proof.
  intros (Ht & Hf & _) Hi Hh Hst. pose proof (no_undo_refl d) as Hn. unfold accept_branch.
  cbn [requester_user_id target_user_id ReadFriendRequest].
  destruct (fr_users _ _ _ (f_rows _ _ Hf _ _ Hi)) as (Hr & Htg & _).
  tx_step. tx_step; [done |]. intros tid d1 Hup. apply (upsert_chat_spec weight) in Hup; [| done | lia].
  pose proof (mc_next _ _ (up_more _ _ _ _ _ _ Hup)) as Hnx.
  unfold LastInsertId. tx_step. tx_step; [done |].
  rewrite (proj2 (Z.leb_gt tid 0)) by apply (up_tid _ _ _ _ _ _ Hup).
  tx_step. tx_step; [done |]. tx_step. tx_step; [done |].
  apply answer_event_wp; [done |]. intros x Hx Hout _. exists f. split; [done |]. split; [done |]. right.
  split; [done |]. split; [done |]. exists tid, d1. by split.
Qed.

Lemma reject_branch_wp d handler fid f :
  friend_requests d !! fid = Some f → f_target f = handler → f_status f = FrPending →
  handle_wp d handler fid false (reject_branch fid (ReadFriendRequest fid f)) d.
Proof.
  intros Hi Hh Hst. pose proof (no_undo_refl d) as Hn. unfold reject_branch.
  tx_step. tx_step; [done |]. unfold reject_request. rewrite Hi, decide_True by done.
  cbn [fst snd Z.eqb Pos.eqb negb]. apply answer_event_wp; [done |]. intros x Hx _ _.
  exists f. split; [done |]. split; [done |]. right. by split.
Qed.

Lemma handle_friend_body_wp d handler fid accept :
  chat_ok weight d → handle_wp d handler fid accept (handle_friend_body handler fid accept) d.
Proof.
  intros Hok. pose proof (no_undo_refl d) as Hn. unfold handle_friend_body.
  tx_step. tx_step; [done |]. unfold request_of.
  destruct (friend_requests d !! fid) as [f |] eqn:Hi; cbn [option_map]; [| by apply tx_rollback_wp].
  cbn [target_user_id request_status ReadFriendRequest].
  destruct (negb (f_target f =? handler)) eqn:Eh; [by apply tx_rollback_wp |]. bool_to_prop.
  destruct (decide (f_status f = FrPending)) as [Hst | Hst].
  - rewrite bool_decide_true by done. cbn [negb].
    destruct accept; [by apply accept_branch_wp | by apply reject_branch_wp].
  - rewrite bool_decide_false by done. cbn [negb]. apply tx_commit_wp; [done |].
    exists f. split; [done |]. split; [done |]. left. by split.
Qed.

Lemma answered_again d handler fid accept f :
  friend_requests d !! fid = Some f → f_target f = handler → f_status f = answer accept →
  HandleFriendApply handler fid accept d [] = (Some (answered_before accept fid f), d, []).
Proof.
  intros Hi Hh Hst. unfold HandleFriendApply, friend_catch, transaction. cbn [with_connection tape_next].
  unfold with_connection. cbn [tape_next].
  assert (Hbody : handle_friend_body handler fid accept d [] = (inr (Commit, answered_before accept fid f), d, [])).
  { unfold handle_friend_body. rewrite query_bind_run. unfold request_of. rewrite Hi. cbn [option_map].
    cbn [target_user_id request_status ReadFriendRequest]. rewrite Hh, Z.eqb_refl, Hst.
    unfold answered_before. rewrite Hst. by destruct accept. }
  by rewrite Hbody.
Qed.

Lemma HandleFriendApply_spec d handler fid accept t res d' t' :
  chat_ok weight d → HandleFriendApply handler fid accept d t = (res, d', t') →
  friend_outcome (handle_commit d handler fid accept) d res d'.
Proof.
  intros Hok. unfold HandleFriendApply, with_connection. destruct (tape_next t) as [[| n] t1].
  - apply friend_catch_outcome. by apply handle_friend_body_wp.
  - intros [= <- <- <-]. left. split; [reflexivity | by intros ? [= <-]].
Qed.

(** C24: a friend request is answered once.
    Whatever fails, [HandleFriendApply] keeps the tables consistent and
    either leaves the rows alone or answers a pending request to its handler:
    the request has the answer, the requester has the event of it, and an
    acceptance makes the two friends with one private chat. Once that is
    done, also when the outcome of the commit was lost or the rollback of the
    handler threw, the same answer again is a duplicate with the same chat
    and changes nothing. *)
Theorem HandleFriendApply_answers_once handler fid accept d t res d' t' :
  chat_ok weight d → HandleFriendApply handler fid accept d t = (res, d', t') →
  chat_ok weight d' ∧
  (same_rows d d' ∨ ∃ f, friend_requests d !! fid = Some f ∧ f_target f = handler ∧
                      f_status f = FrPending ∧ effect_of accept d fid f d') ∧
  (∀ rc out, res = Some (rc, out) → rc = FoStored ∨ rc = FoDuplicate → ∃ out',
     HandleFriendApply handler fid accept d' [] = (Some (FoDuplicate, out'), d', []) ∧
     (accept = true → out_thread_id out' = out_thread_id out)) ∧
  (¬ same_rows d d' → ∃ out', HandleFriendApply handler fid accept d' [] = (Some (FoDuplicate, out'), d', [])).
Proof.
  intros Hok Hrun. apply HandleFriendApply_spec in Hrun as Hout; [| done].
  destruct Hout as [[Hs Hno] | (x & (f & Hi & Hh & [(Hst & -> & ->) | (Hst & Hx & Heff)]) & Hres)].
  - split; [by eapply chat_ok_same_rows |]. split; [by left |]. split; [| done].
    intros rc out Hr [-> | ->]; destruct (Hno _ Hr); done.
  - split; [done |]. split; [by left |]. split; [| intros Hn; by destruct Hn].
    intros rc out Hr Hrc. destruct (Hres _ Hr) as [Heq | [Hd1 Hd2]]; [| by destruct Hrc].
    unfold answered_before in Heq. case_bool_decide as Ha; [| destruct Hrc; congruence].
    injection Heq as -> ->. eexists. split; [| done]. rewrite (answered_again d handler fid accept f) by done.
    unfold answered_before. by rewrite bool_decide_true.
  - assert (Hdone : effect_of accept d fid f d' ∧ (accept = true → ∃ g, friend_requests d' !! fid = Some g ∧
      f_status g = FrAccepted ∧ f_target g = handler ∧ default 0 (f_thread g) = out_thread_id x.2)).
    { destruct accept.
      - destruct Heff as (tid & d1 & Hup & -> & Htid). destruct (accept_effect_ok d d1 tid fid f) as [He Hg]; try done.
        split; [done |]. intros _. eexists. split; [exact Hg |]. by rewrite Htid.
      - subst d'. by split; [apply reject_effect_ok |]. }
    destruct Hdone as [He Hg]. pose proof He as (Hok' & (f' & Hf' & Hst' & Htg') & _).
    assert (Hagain : HandleFriendApply handler fid accept d' [] = (Some (FoDuplicate,
      HandleOut (Some (ReadFriendRequest fid f')) (default 0 (f_thread f')) (f_requester f')), d', [])).
    { rewrite (answered_again d' handler fid accept f') by congruence. unfold answered_before. by rewrite bool_decide_true. }
    split; [done |]. split; [right; by exists f |]. split; [| intros _; by eexists].
    intros rc out Hr Hrc. eexists. split; [exact Hagain |]. intros Hacc.
    destruct (Hres _ Hr) as [<- | [Hd1 Hd2]]; [| by destruct Hrc].
    destruct (Hg Hacc) as (g & Hg' & _ & _ & Hth). by simplify_eq/=.
Qed.

End handling.

(** ** Private chats *)

Section chats.
Context (weight : bytes → bytes).

Lemma more_chats_refl d : more_chats d d.
Proof. constructor; [done | lia | by destruct d]. Qed.

Lemma upserted_chat_ok d d' tid lo hi :
  chat_ok weight d → upserted weight d d' tid lo hi → chat_ok weight d'.
Proof.
  intros (_ & Hf & Hn) [Hm _ _ Ht _]. split; [done |].
  split; [by eapply more_chats_friends | by rewrite (mc_same _ _ Hm)].
Qed.

Lemma CreatePrivateChat_spec a b d t ok tid d' t' :
  chat_ok weight d → CreatePrivateChat a b d t = ((ok, tid), d', t') →
  (d' = d ∧ ok = false) ∨
  (0 < a ∧ 0 < b ∧ ∃ tid', upserted weight d d' tid' (Z.min a b) (Z.max a b) ∧ (ok = true → tid = tid')).
Proof.
  intros Hok. unfold CreatePrivateChat. destruct (_ || (a =? b)) eqn:Eg; [intros [= <- <- <- <-]; by left |].
  bool_to_prop. unfold with_connection. destruct (tape_next t) as [[| n] t1]; [| intros [= <- <- <- <-]; by left].
  unfold catch, upsert_auto, exec_auto, mbind, Tx_bind, LastInsertId, query, exec, mret, Tx_ret.
  destruct (upsert_chat (a `min` b) (a `max` b) d) as [[tid' d1] |] eqn:Eu.
  - apply (upsert_chat_spec weight) in Eu; [| apply Hok | lia].
    assert (Hr : 0 < a ∧ 0 < b ∧ ∃ tid', upserted weight d d1 tid' (Z.min a b) (Z.max a b) ∧ tid' = tid')
      by (split_and!; [lia.. | by exists tid']).
    destruct (tape_next t1) as [[| n] t2].
    + destruct (tape_next t2) as [[| n] t3]; intros [= <- <- <- <-]; right; split_and!; try lia; by exists tid'.
    + cbn. case_decide; intros [= <- <- <- <-]; [right; split_and!; try lia; by exists tid' | by left].
  - destruct (tape_next t1) as [[| n] t2]; [intros [= <- <- <- <-]; by left |].
    cbn. case_decide; intros [= <- <- <- <-]; by left.
Qed.

(** Two users have one private chat.
    Whatever fails, [CreatePrivateChat] keeps the tables consistent and no
    existing chat is lost. When it reports a thread, that is the chat of the
    two users, and the same call from the other side finds the same thread. *)
Theorem CreatePrivateChat_one_thread a b d t ok tid d' t' :
  chat_ok weight d → CreatePrivateChat a b d t = ((ok, tid), d', t') →
  chat_ok weight d' ∧
  (∀ i pc, private_chats d !! i = Some pc → private_chats d' !! i = Some pc) ∧
  (ok = true → private_chats d' !! tid = Some (Z.min a b, Z.max a b) ∧
     ∃ d'', CreatePrivateChat b a d' [] = ((true, tid), d'', []) ∧ same_rows d' d'').
Proof.
  intros Hok Hrun. apply CreatePrivateChat_spec in Hrun; [| done].
  destruct Hrun as [[-> ->] | (Ha & Hb & tid' & Hup & Htid)]; [done |].
  pose proof (upserted_chat_ok _ _ _ _ _ Hok Hup) as Hok'. split; [done |].
  split; [apply (up_more _ _ _ _ _ _ Hup) |]. intros ->. rewrite <- (Htid eq_refl) in *.
  pose proof (up_chat _ _ _ _ _ _ Hup) as Hchat. split; [done |].
  exists (set_next d' (next_id d' + 1)). split; [| apply same_rows_set_next; lia].
  pose proof (up_users _ _ _ _ _ _ Hup) as Hlt. unfold CreatePrivateChat.
  rewrite (proj2 (Z.leb_gt a 0)), (proj2 (Z.leb_gt b 0)), (proj2 (Z.eqb_neq b a)) by lia. cbn [orb].
  unfold with_connection, catch, upsert_auto, exec_auto, mbind, Tx_bind, LastInsertId, query, exec, mret, Tx_ret.
  cbn [tape_next]. unfold upsert_chat. rewrite (Z.min_comm b a), (Z.max_comm b a).
  destruct (t_chats _ _ (proj1 Hok') _ _ _ Hchat) as (Hpos & Hul & Huh).
  rewrite (bool_decide_true _ Hul), (bool_decide_true _ Huh), (proj2 (Z.ltb_lt _ _) Hlt). cbn [andb].
  rewrite (chat_of_pair_unique weight _ _ _ tid (proj1 Hok') Hchat).
  pose proof (up_tid _ _ _ _ _ _ Hup) as Hpt. apply Z.ltb_lt in Hpt.
  cbn [tape_next]. by rewrite Hpt.
Qed.

End chats.

(** A lost connection makes the friend operations throw.
    When the connection breaks in [AddFriendApply] and in
    [HandleFriendApply], the [rollback] in their [catch] fails too and its
    exception leaves the function, whatever the arguments and the tables;
    [AddChatMsg] guards the same rollback and reports a failure. *)
Theorem friend_rollback_escapes weight requester target message client handler fid accept k chat d :
  0 < requester → 0 < target → requester ≠ target → client ≠ [] →
  let broken := [IoOk; IoFail 0; IoFail 0] in
  AddFriendApply weight requester target message client d broken = (None, d, []) ∧
  HandleFriendApply handler fid accept d broken = (None, d, []) ∧
  (AddChatMsg weight k chat d broken).1.1.1 = SmFailed.
Proof.
  intros Hr Ht Hne Hc broken. split; [| split].
  - unfold AddFriendApply. rewrite (proj2 (Z.leb_gt _ 0) Hr), (proj2 (Z.leb_gt _ 0) Ht), (proj2 (Z.eqb_neq _ _) Hne), bool_decide_false by done.
    done.
  - done.
  - unfold AddChatMsg. destruct (_ || _); [done |]. by destruct k.
Qed.

Lemma friend_rollback_escapes_witness :
  AddFriendApply id 1 2 [] (§ "k") demo_db [IoOk; IoFail 0; IoFail 0] = (None, demo_db, []).
Proof. apply (friend_rollback_escapes id 1 2 [] (§ "k") 1 7 true 2 demo_text demo_db); done. Defined.

(** ** A concrete run *)

(** Tables with nothing but users. *)
Definition only_accounts (us : gmap Z user_row) (n : Z) : db := Db us ∅ ∅ ∅ ∅ ∅ ∅ n.

Lemma only_accounts_ok us n :
  0 < n → (∀ i u, us !! i = Some u → last_event_seq u = 0) → chat_ok demo_weight (only_accounts us n).
Proof.
  intros Hn Hus.
  assert (He : ∀ k, user_events (only_accounts us n) !! k = None) by (intros; apply lookup_empty).
  assert (Hm : ∀ k, chat_messages (only_accounts us n) !! k = None) by (intros; apply lookup_empty).
  assert (Hc : ∀ k, private_chats (only_accounts us n) !! k = None) by (intros; apply lookup_empty).
  assert (Hf : ∀ k, friend_requests (only_accounts us n) !! k = None) by (intros; apply lookup_empty).
  assert (Hr : ∀ k, message_resources (only_accounts us n) !! k = None) by (intros; apply lookup_empty).
  split; [| split].
  - constructor.
    + split; [| split; [| split; [| split; [| split; [| split]]]]].
      * split; [| intros ? ? ? ? H; by rewrite He in H]. intros uid s. rewrite He. split; [by intros [? ?] |].
        intros (u & Hu%Hus & Hs). lia.
      * intros ? ? H. by rewrite Hm in H.
      * intros ? ? ? ? H. by rewrite He in H.
      * intros ? ? ? ? H. by rewrite Hm in H.
      * intros i _. by rewrite Hm, Hc, Hf.
      * intros ? ? H. by rewrite Hm in H.
      * intros u r Hu%Hus. lia.
    + exact Hn.
    + intros. by rewrite Hm, Hc.
    + intros ? ? ? ? H. by rewrite Hm in H.
    + intros ? ? H. by rewrite Hm in H.
    + intros ? ? ? H. by rewrite Hm in H.
    + intros i [? H]. by rewrite Hr in H.
    + intros ? ? ? H. by rewrite Hc in H.
    + intros ? ? ? H. by rewrite Hc in H.
  - constructor; intros *; rewrite ?Hf, ?He, ?Hc; try done.
  - intros ? ? H. by rewrite Hf in H.
Qed.

(** Two users who do not know each other yet. *)
Definition demo_strangers : db :=
  only_accounts {[ 1 := UserRow (§ "a") (§ "a@x") [] no_profile 0; 2 := UserRow (§ "b") (§ "b@x") [] no_profile 0 ]} 1.

Lemma demo_strangers_ok : chat_ok demo_weight demo_strangers.
Proof.
  apply only_accounts_ok; [done |]. intros i u [[_ <-] | [_ H]]%lookup_insert_Some; [done |].
  by apply lookup_singleton_Some in H as [_ <-].
Qed.

(** User 1 asks user 2, whose commit answer is lost. *)
Definition demo_request_tape : tape := repeat IoOk 13 ++ [IoFail 2].

Definition demo_request := AddFriendApply demo_weight 1 2 (§ "hello") (§ "k1") demo_strangers demo_request_tape.

Lemma demo_request_run : demo_request = (demo_request.1.1, demo_request.1.2, demo_request.2).
Proof. by destruct demo_request as [[? ?] ?]. Qed.

Lemma AddFriendApply_requests_once_witness :
  demo_request.1.1 = Some (FoFailed, None) ∧
  ∃ r', AddFriendApply demo_weight 1 2 (§ "hello") (§ "k1") demo_request.1.2 [] =
    (Some (FoDuplicate, Some r'), demo_request.1.2, []).
Proof.
  split; [vm_compute; reflexivity |].
  apply (AddFriendApply_requests_once demo_weight 1 2 _ _ demo_strangers _ _ _ _ demo_strangers_ok demo_request_run).
  intros [_ Hd]. assert (H : friend_requests demo_request.1.2 !! 1 = None) by (rewrite Hd; apply lookup_empty).
  vm_compute in H. discriminate.
Defined.

Lemma demo_request_ok : chat_ok demo_weight demo_request.1.2.
Proof.
  destruct (AddFriendApply_spec demo_weight demo_strangers 1 2 (§ "hello") (§ "k1") _ _ _ _ ltac:(done) demo_request_run)
    as [[[Hs _] | (x & [[-> _] | (Hq & -> & _)] & _)] _].
  - by eapply chat_ok_same_rows, demo_strangers_ok.
  - apply demo_strangers_ok.
  - apply request_effect_ok; [apply demo_strangers_ok | done].
Qed.

Definition demo_accept := HandleFriendApply 2 1 true demo_request.1.2 [].

Lemma HandleFriendApply_answers_once_witness :
  option_map fst demo_accept.1.1 = Some FoStored ∧
  ∃ out', HandleFriendApply 2 1 true demo_accept.1.2 [] = (Some (FoDuplicate, out'), demo_accept.1.2, []).
Proof.
  split; [vm_compute; reflexivity |].
  apply (HandleFriendApply_answers_once demo_weight 2 1 true demo_request.1.2 [] demo_accept.1.1 demo_accept.1.2
           demo_accept.2 demo_request_ok); [fold demo_accept; by destruct demo_accept as [[? ?] ?] |].
  intros [_ Hd]. assert (H : private_chats demo_accept.1.2 !! 2 = None).
  { rewrite Hd. vm_compute. reflexivity. }
  vm_compute in H. discriminate.
Defined.

Lemma CreatePrivateChat_one_thread_witness :
  ∃ d'', CreatePrivateChat 2 1 (CreatePrivateChat 1 2 demo_strangers []).1.2 [] = ((true, 1), d'', []) ∧
    same_rows (CreatePrivateChat 1 2 demo_strangers []).1.2 d''.
Proof.
  apply (CreatePrivateChat_one_thread demo_weight 1 2 demo_strangers [] true 1 _ [] demo_strangers_ok); [| done].
  vm_compute. reflexivity.
Defined.
