(* ===== verification/ChatSync.v ===== *)
(** * The ChatServer's queries for synchronisation (ChatServer/src/MysqlDao.cpp)

    The event pages of the offline synchronisation, single events for
    delivery, the pages of a conversation and of the list of conversations. *)

From stdpp Require Import sorting.
From S2P Require Import Prelude Database ResourceDb TxLogic ChatDb ChatDbMessages ChatFriends.

(** ** Single rows *)

Definition GetChatMsgById (mid : Z) : Dao (option ChatMessage) :=
  with_connection None (catch (query (λ d, message_of d mid)) (λ _, None)).

Definition GetFriendRequestById (fid : Z) : Dao (option FriendRequest) :=
  with_connection None (catch (query (λ d, request_of d fid)) (λ _, None)).

(** Success and the number. *)
Definition GetLastEventSeq (uid : Z) : Dao (bool * Z) :=
  with_connection (false, 0)
    (catch (row ← query (λ d, option_map last_event_seq (users d !! uid));
            mret (match row with None => (false, 0) | Some last => (true, last) end)) (λ _, (false, 0))).

(** ** Pages of events *)

(** [... AND event_seq>? ORDER BY event_seq ASC LIMIT ?] *)
Definition event_rows (d : db) (uid after n : Z) : list (Z * event_row) :=
  limit n (order_by fst ((λ x : Z * Z * event_row, (x.1.2, x.2)) <$>
    filter (λ x, x.1.1 = uid ∧ after < x.1.2) (map_to_list (user_events d)))).

(** [... WHERE m.message_id=? AND m.status=1] *)
Definition published_message (d : db) (mid : Z) : option ChatMessage :=
  c ← message_of d mid; if decide (status c = Published) then Some c else None.

(** The loop over the rows; [false] when a row's object is missing. *)
Fixpoint read_events (rows : list (Z * event_row)) (events : list UserEvent) : Tx (bool * list UserEvent) :=
  match rows with
  | [] => mret (true, events)
  | (seq, e) :: rows =>
      match e_message e with
      | Some mid =>
          found ← query (λ d, published_message d mid);
          match found with
          | None => mret (false, events)
          | Some c => read_events rows (events ++ [UserEv seq (e_type e) (Some (with_message_event c seq)) None])
          end
      | None =>
          found ← query (λ d, request_of d (default 0 (e_friend e)));
          match found with
          | None => mret (false, events)
          | Some r => read_events rows (events ++ [UserEv seq (e_type e) None (Some (with_request_event r seq))])
          end
      end
  end.

(** One row more than the page, for the caller to see whether there is more. *)
Definition GetEventsAfterSeq (uid after lim : Z) : Dao (bool * list UserEvent) :=
  with_connection (false, [])
    (catch (rows ← query (λ d, event_rows d uid after (lim + 1)); read_events rows []) (λ _, (false, []))).

(** ** One event *)

Definition is_message_event_type (ty : Z) : bool := (ty =? TEXT) || (ty =? PIC) || (ty =? FILE).

(** The [Dao] continuation of a lookup inside a [try]; the nested lookups take
    a connection of their own and report failures as a missing row. *)
Definition dao_bind {A B} (m : Dao A) (k : A → Dao B) : Dao B := λ d t,
  let '(a, d', t') := m d t in k a d' t'.

Definition GetUserEvent (uid ty mid fid : Z) : Dao (option UserEvent) :=
  let is_message := is_message_event_type ty in
  if xorb is_message (0 <? mid) || negb (xorb is_message (0 <? fid)) then λ d t, (None, d, t)
  else
    with_connection None
      (dao_bind
         (catch (query (λ d, event_seq_of d uid (if is_message then message_event ty mid else friend_event ty fid)))
            (λ _, None))
         (λ found,
            match found with
            | None => λ d t, (None, d, t)
            | Some seq =>
                if is_message then
                  dao_bind (GetChatMsgById mid) (λ m d t,
                    (match m with
                     | None => None
                     | Some c =>
                         if negb (recipient_user_id c =? uid) || negb (bool_decide (status c = Published)) then None
                         else Some (UserEv seq ty (Some (with_message_event c seq)) None)
                     end, d, t))
                else
                  dao_bind (GetFriendRequestById fid) (λ r d t,
                    (option_map (λ r, UserEv seq ty None (Some (with_request_event r seq))) r, d, t))
            end)).

(** ** Pages of a conversation *)

Record PageResult := Page { page_messages : list ChatMessage; load_more : bool; next_cursor : Z }.

(** [... m.status=1 AND (?=0 OR m.message_id<?) ORDER BY m.message_id DESC LIMIT ?] *)
Definition thread_rows (d : db) (tid before n : Z) : list ChatMessage :=
  limit n (reverse (omap (λ x : Z * msg_row, message_of d x.1)
    (rows_where (λ i m, (m_thread m =? tid) && bool_decide (m_status m = Published) &&
                        ((before =? 0) || (i <? before))) (chat_messages d)))).

(** [last_id] is the cursor of the last row kept. *)
Definition page_of {A} (id : A → Z) (cursor size : Z) (rows : list A) : list A * bool * Z :=
  let more := size <? zlen rows in
  let rows := if more then removelast rows else rows in
  (rows, more, match last rows with Some x => id x | None => cursor end).

Definition LoadChatMsg (requester tid before size : Z) : Dao (option PageResult) :=
  with_connection None
    (catch
       (members ← ReadPrivateChatMembers tid;
        match members with
        | None => mret None
        | Some (lower, higher) =>
            if negb (requester =? lower) && negb (requester =? higher) then mret None
            else
              rows ← query (λ d, thread_rows d tid before (size + 1));
              let '(messages, more, cursor) := page_of message_id before size rows in
              mret (Some (Page messages more cursor))
        end) (λ _, None)).

(** ** Lemmas *)

Lemma seqZ_sorted m n : StronglySorted Z.le (seqZ m n).
Proof.
  destruct (decide (n <= 0)); [rewrite seqZ_nil by done; constructor |].
  revert m. apply (natlike_ind (λ n, ∀ m, StronglySorted Z.le (seqZ m n))); [| | lia].
  - intros m. rewrite seqZ_nil by lia. constructor.
  - intros x Hx IH m. rewrite seqZ_cons by lia. rewrite Z.pred_succ. constructor; [apply IH |].
    apply Forall_seqZ. lia.
Qed.

Lemma take_seqZ m n k : 0 <= k → take (Z.to_nat k) (seqZ m n) = seqZ m (Z.min k n).
Proof.
  intros Hk. destruct (decide (n <= k)).
  - rewrite take_ge by (rewrite length_seqZ; lia). f_equal. lia.
  - replace n with (k + (n - k)) at 1 by lia. rewrite seqZ_app by lia.
    rewrite take_app_le, take_ge by (rewrite length_seqZ; lia). f_equal. lia.
Qed.

(** The page's rows carry the numbers after the client's, without a gap. *)
Lemma event_rows_seqs d uid after n u :
  events_gapless d → users d !! uid = Some u → 0 <= after → 0 <= n →
  fst <$> event_rows d uid after n = seqZ (after + 1) (Z.min n (last_event_seq u - after)).
Proof.
  intros Hg Hu Ha Hn. unfold event_rows, limit. rewrite fmap_take. rewrite <- take_seqZ by done. f_equal.
  set (l := filter (λ x : Z * Z * event_row, x.1.1 = uid ∧ after < x.1.2) (map_to_list (user_events d))).
  assert (Hl : ∀ x, x ∈ l ↔ (x.1.1 = uid ∧ after < x.1.2) ∧ user_events d !! x.1 = Some x.2).
  { intros [k e]. unfold l. rewrite list_elem_of_filter, elem_of_map_to_list. done. }
  apply order_by_keys.
  - rewrite <- list_fmap_compose. apply NoDup_fmap_2_strong.
    + intros [[u1 s1] e1] [[u2 s2] e2] [[H1 _] E1]%Hl [[H2 _] E2]%Hl Hs. cbn in *. by simplify_eq.
    + apply NoDup_filter, NoDup_map_to_list.
  - apply NoDup_seqZ.
  - apply seqZ_sorted.
  - intros k. rewrite elem_of_seqZ, <- list_fmap_compose, list_elem_of_fmap. split.
    + intros ([[u1 s1] e1] & -> & [[H1 Hs] E1]%Hl). cbn in *. subst u1.
      apply mk_is_Some, Hg in E1 as (u' & Hu' & Hr). simplify_eq. lia.
    + intros Hk. destruct (proj2 (proj1 Hg uid k)) as [e He]; [exists u; split; [done | lia] |].
      exists ((uid, k), e). split; [done |]. apply Hl. cbn. split; [split; [done | lia] | done].
Qed.

Lemma event_rows_elem d uid after n seq e :
  (seq, e) ∈ event_rows d uid after n → user_events d !! (uid, seq) = Some e ∧ after < seq.
Proof.
  unfold event_rows, limit. intros H%elem_of_take. destruct H as (i & H & _).
  apply list_elem_of_lookup_2 in H. rewrite order_by_elem, list_elem_of_fmap in H.
  destruct H as ([[u1 s1] e1] & [= -> ->] & Hx). apply list_elem_of_filter in Hx as [[H1 H2] Hx].
  apply elem_of_map_to_list in Hx. cbn in *. by subst.
Qed.

(** ** Reading the rows *)

(** An event handed to a client says what its row says. *)
Definition event_true (d : db) (uid : Z) (row : Z * event_row) (ev : UserEvent) : Prop :=
  ev_seq ev = row.1 ∧ ev_type ev = e_type row.2 ∧ user_events d !! (uid, row.1) = Some row.2 ∧
  ((∃ mid c, row.2 = message_event (ev_type ev) mid ∧ published_message d mid = Some c ∧
      ev_message ev = Some (with_message_event c (ev_seq ev)) ∧ ev_friend_request ev = None ∧
      message_id c = mid ∧ status c = Published ∧ recipient_user_id c = uid ∧ message_type c = ev_type ev) ∨
   (∃ fid r, row.2 = friend_event (ev_type ev) fid ∧ request_of d fid = Some r ∧
      ev_message ev = None ∧ ev_friend_request ev = Some (with_request_event r (ev_seq ev)) ∧
      friend_request_id r = fid ∧ (requester_user_id r = uid ∨ target_user_id r = uid))).

Section reading.
Context (weight : bytes → bytes).

Lemma message_row_resolves d uid seq ty mid :
  chat_ok weight d → user_events d !! (uid, seq) = Some (message_event ty mid) →
  ∃ c, published_message d mid = Some c ∧
    event_true d uid (seq, message_event ty mid) (UserEv seq ty (Some (with_message_event c seq)) None).
Proof.
  intros (Ht & _) He. destruct (t_inv _ _ Ht) as (_ & Hp & Hr & _).
  destruct (Hr _ _ _ _ He) as (m & Hm & Hty & Hrec).
  assert (Hst : m_status m = Published) by (apply (Hp mid m Hm uid Hrec); exists seq; by rewrite Hty).
  unfold recipient_of in Hrec. destruct (private_chats d !! m_thread m) as [pc |] eqn:Epc; [| done].
  injection Hrec as Hrec. set (c := ReadMessage mid m pc (message_resources d !! mid)).
  assert (Hp' : published_message d mid = Some c).
  { unfold published_message, message_of. rewrite Hm. cbn. rewrite Epc. cbn. by rewrite decide_True. }
  exists c. split; [done |]. split; [done |]. split; [done |]. split; [done |]. left. by exists mid, c.
Qed.

Lemma friend_row_resolves d uid seq ty fid :
  chat_ok weight d → user_events d !! (uid, seq) = Some (friend_event ty fid) →
  ∃ r, request_of d fid = Some r ∧
    event_true d uid (seq, friend_event ty fid) (UserEv seq ty None (Some (with_request_event r seq))).
Proof.
  intros (_ & Hf & _) He. destruct (f_events _ _ Hf _ _ _ _ He) as (f & Hi & Hd).
  assert (Hr : request_of d fid = Some (ReadFriendRequest fid f)) by (unfold request_of; by rewrite Hi).
  exists (ReadFriendRequest fid f). split; [done |].
  split; [done |]. split; [done |]. split; [done |]. right. exists fid, (ReadFriendRequest fid f).
  do 5 (split; [done |]). cbn. destruct Hd as [[_ ->] | [(_ & -> & _) | (_ & -> & _)]]; auto.
Qed.

Lemma read_events_spec d uid rows acc t r d' t' :
  chat_ok weight d → (∀ seq e, (seq, e) ∈ rows → user_events d !! (uid, seq) = Some e) →
  read_events rows acc d t = (r, d', t') →
  d' = d ∧ (t = [] → t' = [] ∧ ∃ x, r = inr x) ∧
  ∀ ok evs, r = inr (ok, evs) → ok = true ∧ ∃ new, evs = acc ++ new ∧ Forall2 (event_true d uid) rows new.
Proof.
  intros Hok. revert acc t. induction rows as [| [seq e] rows IH]; intros acc t Hrows; cbn.
  { intros [= <- <- <-]. split; [done |]. split; [eauto |]. intros ok evs [= <- <-]. split; [done |].
    exists []. by rewrite app_nil_r. }
  assert (He : user_events d !! (uid, seq) = Some e) by (apply Hrows; left).
  assert (Hrows' : ∀ seq e, (seq, e) ∈ rows → user_events d !! (uid, seq) = Some e) by (intros; apply Hrows; by right).
  assert (Hnext : ∀ ev t0, event_true d uid (seq, e) ev → read_events rows (acc ++ [ev]) d t0 = (r, d', t') →
    d' = d ∧ (t0 = [] → t' = [] ∧ ∃ x, r = inr x) ∧
    ∀ ok evs, r = inr (ok, evs) → ok = true ∧ ∃ new, evs = acc ++ new ∧ Forall2 (event_true d uid) ((seq, e) :: rows) new).
  { intros ev t0 Hev Hrun. destruct (IH _ _ Hrows' Hrun) as (-> & Htot & Hspec). split; [done |]. split; [done |].
    intros ok evs Hr. destruct (Hspec ok evs Hr) as (-> & new & -> & Hnew). split; [done |].
    exists (ev :: new). rewrite <- app_assoc. split; [done |]. by constructor. }
  destruct (f_kinds _ _ (proj1 (proj2 Hok)) _ _ _ He) as [(ty & mid & ->) | (ty & fid & ->)]; cbn.
  - destruct (message_row_resolves d uid seq ty mid Hok He) as (c & Hc & Hev).
    unfold mbind, Tx_bind, query, exec. destruct (tape_next t) as [[| n] t1] eqn:Et.
    + rewrite Hc. intros Hrun. destruct (Hnext _ _ Hev Hrun) as (? & Htot & ?). split; [done |].
      split; [| done]. intros ->. injection Et as <-. by apply Htot.
    + intros [= <- <- <-]. split; [done |]. by split; [intros -> |].
  - destruct (friend_row_resolves d uid seq ty fid Hok He) as (q & Hc & Hev).
    unfold mbind, Tx_bind, query, exec. destruct (tape_next t) as [[| n] t1] eqn:Et.
    + rewrite Hc. intros Hrun. destruct (Hnext _ _ Hev Hrun) as (? & Htot & ?). split; [done |].
      split; [| done]. intros ->. injection Et as <-. by apply Htot.
    + intros [= <- <- <-]. split; [done |]. by split; [intros -> |].
Qed.

Lemma read_events_nil rows acc d r d' t' : read_events rows acc d [] = (r, d', t') → t' = [].
Proof.
  revert acc. induction rows as [| [seq e] rows IH]; intros acc; cbn [read_events]; [by intros [= <- <- <-] |].
  destruct (e_message e); unfold mbind, Tx_bind, query, exec; cbn [tape_next];
    (case_match; [apply IH | by intros [= <- <- <-]]).
Qed.

Lemma GetEventsAfterSeq_nil uid after lim d ok evs d' t' :
  GetEventsAfterSeq uid after lim d [] = ((ok, evs), d', t') → t' = [].
Proof.
  unfold GetEventsAfterSeq, with_connection, catch, mbind, Tx_bind, query, exec. cbn [tape_next].
  destruct (read_events _ [] d []) as [[r d1] t1] eqn:E. apply read_events_nil in E as ->.
  destruct r as [| []]; by intros [= <- <- <- <-].
Qed.

Lemma GetEventsAfterSeq_spec d uid u after lim t ok evs d' t' :
  chat_ok weight d → users d !! uid = Some u → 0 <= after → 0 <= lim →
  GetEventsAfterSeq uid after lim d t = ((ok, evs), d', t') →
  d' = d ∧ (t = [] → ok = true) ∧
  (ok = true →
     ev_seq <$> evs = seqZ (after + 1) (Z.min (lim + 1) (last_event_seq u - after)) ∧
     Forall (λ ev, ∃ e, event_true d uid (ev_seq ev, e) ev) evs).
Proof.
  intros Hok Hu Ha Hl. unfold GetEventsAfterSeq, with_connection.
  destruct (tape_next t) as [[| n] t1] eqn:Et; [| intros [= <- <- <- <-]; by split; [| split; [intros -> |]]].
  unfold catch, mbind, Tx_bind, query, exec.
  destruct (tape_next t1) as [[| n] t2] eqn:Et1; [| intros [= <- <- <- <-]; split; [done |]; by split; [intros ->; simplify_eq/= |]].
  destruct (read_events (event_rows d uid after (lim + 1)) [] d t2) as [[r d1] t3] eqn:Er.
  apply (read_events_spec d uid) in Er as (-> & Htot & Hspec); [| done | by intros ? ? [? _]%event_rows_elem].
  destruct r as [e | [ok1 evs1]]; intros [= <- <- <- <-]; (split; [done |]; split).
  - intros ->. simplify_eq/=. simplify_eq/=. by destruct (Htot eq_refl) as (_ & ? & ?).
  - done.
  - intros _. by destruct (Hspec _ _ eq_refl).
  - intros _. destruct (Hspec _ _ eq_refl) as (_ & new & -> & Hnew). cbn.
    rewrite <- (event_rows_seqs d uid after (lim + 1) u) by (done || apply (t_inv _ _ (proj1 Hok)) || lia).
    clear Hspec Htot. induction Hnew as [| [seq e] ev rows new Hev Hnew IH]; [by split |].
    destruct IH as [IH1 IH2]. destruct Hev as (Hs & Hev). split; cbn.
    + f_equal; [exact Hs | exact IH1].
    + constructor; [| done]. exists e. rewrite Hs. by split.
Qed.

(** Synchronisation pages have no gap.
    A page that [GetEventsAfterSeq] reports carries exactly the events
    numbered after the client's, in order and without a gap, up to one more
    than the page's size; each one says what the tables say, and the message
    of a message event is published and addressed to the user. Without a
    failure of the database a page is always reported. *)
Theorem GetEventsAfterSeq_page d uid u after lim t ok evs d' t' :
  chat_ok weight d → users d !! uid = Some u → 0 <= after → 0 <= lim →
  GetEventsAfterSeq uid after lim d t = ((ok, evs), d', t') →
  d' = d ∧ (t = [] → ok = true) ∧
  (ok = true →
     ev_seq <$> evs = seqZ (after + 1) (Z.min (lim + 1) (last_event_seq u - after)) ∧
     Forall (λ ev, ∃ e, event_true d uid (ev_seq ev, e) ev) evs).
Proof. apply GetEventsAfterSeq_spec. Qed.

End reading.

(** ** Conversations *)

(** The identifiers of the messages a page of the conversation can show. *)
Definition visible (d : db) (tid before : Z) (i : Z) : Prop :=
  ∃ m, chat_messages d !! i = Some m ∧ m_thread m = tid ∧ m_status m = Published ∧ (before = 0 ∨ i < before).

Section conversations.
Context (weight : bytes → bytes).

Definition all_rows (d : db) (tid before : Z) : list ChatMessage :=
  reverse (omap (λ x : Z * msg_row, message_of d x.1)
    (rows_where (λ i m, (m_thread m =? tid) && bool_decide (m_status m = Published) &&
                        ((before =? 0) || (i <? before))) (chat_messages d))).

Definition row_ids (d : db) (tid before : Z) : list Z := message_id <$> all_rows d tid before.

Lemma message_of_id d i c : message_of d i = Some c → message_id c = i.
Proof. by intros (m & pc & _ & _ & ->)%message_of_Some. Qed.

(** Under the invariant no row is lost by the joins. *)
Lemma omap_ids d (l : list (Z * msg_row)) :
  (∀ i m, (i, m) ∈ l → is_Some (message_of d i)) →
  message_id <$> omap (λ x : Z * msg_row, message_of d x.1) l = fst <$> l.
Proof.
  induction l as [| [i m] l IH]; intros Hl; [done |]. cbn [omap list_omap].
  destruct (Hl i m) as [c Hc]; [left |]. cbn [fst]. rewrite Hc. cbn.
  rewrite (message_of_id _ _ _ Hc), IH; [done |]. intros j n Hj. apply (Hl j n). by right.
Qed.

Lemma message_of_is_Some d i m : db_inv d → chat_messages d !! i = Some m → is_Some (message_of d i).
Proof.
  intros (_ & _ & _ & (_ & _ & Hrec & _)) Hm. destruct (Hrec i m Hm) as [r Hr].
  unfold recipient_of in Hr. unfold message_of. rewrite Hm. cbn.
  destruct (private_chats d !! m_thread m); [by eexists | done].
Qed.

Definition row_test (tid before : Z) (i : Z) (m : msg_row) : bool :=
  (m_thread m =? tid) && bool_decide (m_status m = Published) && ((before =? 0) || (i <? before)).

Lemma row_test_true tid before i m :
  row_test tid before i m = true ↔ m_thread m = tid ∧ m_status m = Published ∧ (before = 0 ∨ i < before).
Proof.
  unfold row_test. rewrite !andb_true_iff, orb_true_iff, !Z.eqb_eq, Z.ltb_lt, bool_decide_eq_true. tauto.
Qed.

Lemma row_ids_eq d tid before :
  db_inv d → row_ids d tid before = reverse (fst <$> rows_where (row_test tid before) (chat_messages d)).
Proof.
  intros Hinv. unfold row_ids, all_rows. rewrite fmap_reverse. f_equal. apply omap_ids.
  intros i m [Hm _]%rows_where_elem. by eapply message_of_is_Some.
Qed.

Lemma row_ids_elem d tid before i : db_inv d → i ∈ row_ids d tid before ↔ visible d tid before i.
Proof.
  intros Hinv. rewrite row_ids_eq, elem_of_reverse, list_elem_of_fmap by done. unfold visible. split.
  - intros ([j m] & -> & [Hm Hp]%rows_where_elem). apply row_test_true in Hp. by exists m.
  - intros (m & Hm & Hp). exists (i, m). split; [done |]. apply rows_where_elem.
    split; [done |]. by apply row_test_true.
Qed.

Lemma rows_where_keys {A} (p : Z → A → bool) (m : gmap Z A) : NoDup (fst <$> rows_where p m).
Proof.
  unfold rows_where. rewrite order_by_perm. apply NoDup_fmap_2_strong.
  - intros [i x] [j y] [_ Hx]%list_elem_of_filter [_ Hy]%list_elem_of_filter Hij.
    apply elem_of_map_to_list in Hx, Hy. cbn in Hij. by simplify_eq.
  - apply NoDup_filter, NoDup_map_to_list.
Qed.

Lemma StronglySorted_filter (R : relation Z) (P : Z → Prop) `{∀ x, Decision (P x)} l :
  StronglySorted R l → StronglySorted R (filter P l).
Proof.
  induction 1 as [| x l Hl IH Hx]; [constructor |]. rewrite filter_cons. case_decide; [| done].
  constructor; [done |]. apply Forall_forall. intros y [_ Hy]%list_elem_of_filter.
  rewrite Forall_forall in Hx. by apply Hx.
Qed.

(** Two selections of the same keys are equal, newest first. *)
Lemma row_ids_filter d tid before cursor :
  db_inv d → 0 < cursor → (before = 0 ∨ cursor <= before) →
  row_ids d tid cursor = filter (λ i, i < cursor) (row_ids d tid before).
Proof.
  intros Hinv Hc Hb. rewrite !row_ids_eq by done. rewrite filter_reverse. f_equal.
  apply order_by_keys.
  - rewrite <- (order_by_perm fst). apply rows_where_keys.
  - apply NoDup_filter, rows_where_keys.
  - apply StronglySorted_filter. apply (order_by_sorted fst).
  - intros k. rewrite list_elem_of_filter. unfold rows_where.
    setoid_rewrite list_elem_of_fmap. setoid_rewrite order_by_elem. setoid_rewrite list_elem_of_filter.
    split.
    + intros ([i m] & -> & Hp & Hm). cbn in *. apply row_test_true in Hp as (H1 & H2 & H3).
      destruct H3 as [? | H3]; [lia |]. split; [done |]. exists (i, m). split; [done |].
      split; [| done]. apply row_test_true. split; [done |]. split; [done |]. cbn. lia.
    + intros (Hk & [i m] & -> & Hp & Hm). cbn in *. apply row_test_true in Hp as (H1 & H2 & H3).
      exists (i, m). split; [done |]. split; [| done]. apply row_test_true. auto.
Qed.

End conversations.

(** ** The pages of a conversation *)

(** A page is the rows up to its size; its cursor splits the rest off. *)
Lemma page_of_spec {A} (id : A → Z) cursor size (rows : list A) l more c :
  0 < size → page_of id cursor size (limit (size + 1) rows) = (l, more, c) →
  l = take (Z.to_nat size) rows ∧ (more = true ↔ size < zlen rows) ∧
  (more = true → ∃ x, rows !! Z.to_nat (size - 1) = Some x ∧ c = id x).
Proof.
  intros Hs. unfold page_of, limit. set (n := Z.to_nat size).
  assert (Hn : Z.to_nat (size + 1) = S n) by (unfold n; lia). rewrite Hn.
  assert (Hlen : zlen (take (S n) rows) = Z.min (size + 1) (zlen rows))
    by (unfold zlen; rewrite length_take; unfold n; lia).
  rewrite Hlen. destruct (size <? Z.min (size + 1) (zlen rows)) eqn:E; intros [= <- <- <-]; bool_to_prop.
  - assert (Hlt : size < zlen rows) by lia.
    destruct (lookup_lt_is_Some_2 rows n) as [y Hy]; [unfold zlen, n in *; lia |].
    assert (Hl : removelast (take (S n) rows) = take n rows)
      by (rewrite (take_S_r rows n y Hy); apply removelast_last).
    rewrite Hl. split; [done |]. split; [by split |]. intros _.
    destruct (lookup_lt_is_Some_2 rows (Z.to_nat (size - 1))) as [x Hx]; [unfold zlen in *; lia |].
    exists x. split; [done |].
    assert (Hp : n = S (Z.to_nat (size - 1))) by (unfold n; lia).
    rewrite Hp, (take_S_r rows _ x Hx), last_snoc. done.
  - split; [rewrite !take_ge; [done | unfold zlen, n in *; lia..] |]. split; [| done]. split; [done | lia].
Qed.

Lemma desc_filter (l : list Z) k x :
  StronglySorted (λ i j, j < i) l → l !! k = Some x → filter (λ i, i < x) l = drop (S k) l.
Proof.
  intros Hs. revert k. induction Hs as [| y l Hl IH Hy]; intros k Hk; [done |].
  rewrite Forall_forall in Hy. destruct k as [| k]; cbn [lookup list_lookup] in Hk.
  - injection Hk as <-. rewrite filter_cons_False by lia. cbn [drop]. clear IH Hl. rewrite drop_0.
    induction l as [| z l IH]; [done |]. rewrite filter_cons_True by (apply Hy; left).
    f_equal. apply IH. intros j Hj. apply Hy. by right.
  - cbn [drop]. rewrite filter_cons_False; [by apply IH |].
    apply list_elem_of_lookup_2 in Hk. specialize (Hy x Hk). lia.
Qed.

Section pages.
Context (weight : bytes → bytes).

Lemma row_ids_desc d tid before : db_inv d → StronglySorted (λ i j, j < i) (row_ids d tid before).
Proof.
  intros Hinv. rewrite row_ids_eq by done.
  pose proof (rows_where_keys (row_test tid before) (chat_messages d)) as Hnd.
  assert (Hs : StronglySorted Z.le (fst <$> rows_where (row_test tid before) (chat_messages d)))
    by apply (order_by_sorted fst).
  induction Hs as [| x l Hl IH Hx]; [constructor |]. rewrite reverse_cons.
  apply NoDup_cons in Hnd as [Hnin Hnd]. apply StronglySorted_app_2; [| by apply IH | repeat constructor].
  intros y z Hy ->%list_elem_of_singleton. rewrite elem_of_reverse in Hy. rewrite Forall_forall in Hx.
  specialize (Hx y Hy). destruct (decide (x = y)) as [-> |]; [done | lia].
Qed.

(** The rest of the conversation starts at the cursor. *)
Lemma row_ids_split d tid before size x :
  tables_ok weight d → 0 <= before → 0 < size → row_ids d tid before !! Z.to_nat (size - 1) = Some x →
  row_ids d tid before = take (Z.to_nat size) (row_ids d tid before) ++ row_ids d tid x.
Proof.
  intros Ht Hb Hs Hx. pose proof (t_inv _ _ Ht) as Hinv.
  assert (Hv : visible d tid before x) by (apply row_ids_elem; [done |]; by eapply list_elem_of_lookup_2).
  destruct Hv as (m & Hm & _ & _ & Hlt).
  assert (Hpos : 0 < x).
  { destruct (decide (0 < x)); [done |]. destruct (t_ids _ _ Ht x); [lia | congruence]. }
  rewrite (row_ids_filter d tid before x) by (done || lia).
  rewrite (desc_filter _ _ _ (row_ids_desc d tid before Hinv) Hx).
  replace (S (Z.to_nat (size - 1))) with (Z.to_nat size) by lia. by rewrite take_drop.
Qed.

Lemma all_rows_true d tid before c :
  c ∈ all_rows d tid before → message_of d (message_id c) = Some c.
Proof.
  unfold all_rows. rewrite elem_of_reverse, list_elem_of_omap. intros ([i m] & _ & Hc). cbn in Hc.
  by rewrite (message_of_id _ _ _ Hc).
Qed.

Record page_true (d : db) (requester tid before size : Z) (page : PageResult) : Prop := {
  pt_member : ∃ pc, private_chats d !! tid = Some pc ∧ (requester = pc.1 ∨ requester = pc.2);
  pt_size : zlen (page_messages page) <= size;
  pt_rows : ∀ c, c ∈ page_messages page →
    message_of d (message_id c) = Some c ∧ visible d tid before (message_id c);
  pt_rest : row_ids d tid before = (message_id <$> page_messages page) ++
    (if load_more page then row_ids d tid (next_cursor page) else []);
}.

(** The pages of a conversation cover it, for its members only.
    [LoadChatMsg] answers only a member of the conversation. Its page is the
    newest published messages below the cursor, newest first and at most as
    many as asked for; what the cursor of the page selects is exactly what
    the page has left out, so walking the cursors meets every message once. *)
Theorem LoadChatMsg_pages d requester tid before size t res d' t' :
  tables_ok weight d → 0 <= before → 0 < size →
  LoadChatMsg requester tid before size d t = (res, d', t') →
  d' = d ∧ ∀ page, res = Some page →
    page_true d requester tid before size page.
Proof.
  intros Ht Hb Hs. unfold LoadChatMsg, with_connection, catch, ReadPrivateChatMembers.
  assert (Hn : ∀ x, (None, d, x) = (res, d', t') → d' = d ∧ ∀ page, res = Some page → page_true d requester tid before size page)
    by by intros x [= <- <- <-].
  destruct (tape_next t) as [[| n] t1]; [| by apply Hn].
  unfold mbind, Tx_bind, mret, Tx_ret, query, exec. destruct (tape_next t1) as [[| n] t2]; [| by apply Hn].
  destruct (private_chats d !! tid) as [[lo hi] |] eqn:Epc; [| by apply Hn].
  destruct (negb (requester =? lo) && negb (requester =? hi)) eqn:Em; [by apply Hn |].
  destruct (tape_next t2) as [[| n] t3]; [| by apply Hn]. clear Hn.
  destruct (page_of message_id before size (thread_rows d tid before (size + 1))) as [[l more] c] eqn:Ep.
  intros [= <- <- <-]. split; [done |]. intros page [= <-]. cbn.
  apply (page_of_spec message_id before size (all_rows d tid before)) in Ep as (-> & Hmore & Hcur); [| done].
  assert (Hlen : length (row_ids d tid before) = length (all_rows d tid before)) by apply length_fmap.
  constructor; cbn.
  - exists (lo, hi). split; [done |]. cbn. bool_to_prop. destruct Em; bool_to_prop; auto.
  - unfold zlen. rewrite length_take. lia.
  - intros x (i & Hx & _)%elem_of_take. apply list_elem_of_lookup_2 in Hx.
    split; [by eapply all_rows_true |]. apply row_ids_elem; [apply (t_inv _ _ Ht) |].
    unfold row_ids. by apply list_elem_of_fmap_2.
  - rewrite fmap_take. fold (row_ids d tid before). destruct more.
    + destruct (Hcur eq_refl) as (x & Hx & ->). apply row_ids_split; [done.. |].
      unfold row_ids. by rewrite list_lookup_fmap, Hx.
    + rewrite app_nil_r. symmetry. apply take_ge. rewrite Hlen.
      destruct (decide (size < zlen (all_rows d tid before))) as [Hlt | Hge]; [by apply Hmore in Hlt |].
      unfold zlen in Hge. lia.
Qed.

End pages.

(** ** One event *)

Section delivery.
Context (weight : bytes → bytes).

Lemma GetChatMsgById_chat mid d t r d' t' :
  GetChatMsgById mid d t = (r, d', t') → d' = d ∧ (r = None ∨ r = message_of d mid) ∧ (t = [] → t' = [] ∧ r = message_of d mid).
Proof.
  unfold GetChatMsgById, with_connection, catch, query, exec.
  destruct (tape_next t) as [[| n] t1] eqn:E; [| intros [= <- <- <-]; split_and!; auto; by intros ->].
  destruct (tape_next t1) as [[| n] t2] eqn:E1; intros [= <- <- <-]; split_and!; auto; intros ->; by simplify_eq/=.
Qed.

Lemma GetFriendRequestById_spec fid d t r d' t' :
  GetFriendRequestById fid d t = (r, d', t') → d' = d ∧ (r = None ∨ r = request_of d fid) ∧ (t = [] → t' = [] ∧ r = request_of d fid).
Proof.
  unfold GetFriendRequestById, with_connection, catch, query, exec.
  destruct (tape_next t) as [[| n] t1] eqn:E; [| intros [= <- <- <-]; split_and!; auto; by intros ->].
  destruct (tape_next t1) as [[| n] t2] eqn:E1; intros [= <- <- <-]; split_and!; auto; intros ->; by simplify_eq/=.
Qed.

Lemma published_message_Some d mid c :
  message_of d mid = Some c → status c = Published → published_message d mid = Some c.
Proof. intros Hc Hst. unfold published_message. rewrite Hc. cbn. by rewrite decide_True. Qed.

(** A single event is the recipient's.
    What [GetUserEvent] reports for a user is a row of that user: a published
    message addressed to the user or a friend request of the user, under the
    number of the row, whatever fails on the way. *)
Theorem GetUserEvent_true d uid ty mid fid t ev d' t' :
  chat_ok weight d → GetUserEvent uid ty mid fid d t = (Some ev, d', t') →
  d' = d ∧ ∃ e, event_true d uid (ev_seq ev, e) ev ∧
    e = (if is_message_event_type ty then message_event ty mid else friend_event ty fid).
Proof.
  intros Hok. unfold GetUserEvent. destruct (xorb _ _ || negb _); [done |].
  unfold with_connection, dao_bind, catch, query, exec.
  destruct (tape_next t) as [[| n] t1]; [| done]. destruct (tape_next t1) as [[| n] t2]; [| done].
  destruct (event_seq_of d uid _) as [seq |] eqn:Es; [| done].
  destruct (is_message_event_type ty); apply event_seq_of_Some in Es.
  - destruct (GetChatMsgById mid d t2) as [[r d1] t3] eqn:Er.
    apply GetChatMsgById_chat in Er as (-> & [-> | ->] & _); [done |].
    destruct (message_of d mid) as [c |] eqn:Ec; [| done].
    destruct (negb (_ =? _) || _) eqn:Ep; [done |].
    intros [= <- <- <-]. split; [done |]. bool_to_prop.
    destruct (message_row_resolves weight d uid seq ty mid Hok Es) as (c' & Hc' & Htrue).
    rewrite (published_message_Some _ _ _ Ec) in Hc' by done. simplify_eq. by eexists.
  - destruct (GetFriendRequestById fid d t2) as [[r d1] t3] eqn:Er.
    apply GetFriendRequestById_spec in Er as (-> & [-> | ->] & _); [done |].
    destruct (friend_row_resolves weight d uid seq ty fid Hok Es) as (q & Hq & Htrue).
    rewrite Hq. cbn. intros [= <- <- <-]. split; [done |]. by eexists.
Qed.

End delivery.

(** ** Concrete runs *)

Lemma GetEventsAfterSeq_page_witness :
  let r := GetEventsAfterSeq 2 0 10 demo_request.1.2 [] in
  r.1.1.1 = true ∧ ev_seq <$> r.1.1.2 = seqZ (0 + 1) (Z.min (10 + 1) (1 - 0)).
Proof.
  intros r. assert (Hr : r.1.1.1 = true) by (vm_compute; reflexivity). split; [exact Hr |].
  assert (He : GetEventsAfterSeq 2 0 10 demo_request.1.2 [] = ((r.1.1.1, r.1.1.2), r.1.2, r.2))
    by (fold r; by destruct r as [[[? ?] ?] ?]).
  assert (Hu : users demo_request.1.2 !! 2 = Some (UserRow (§ "b") (§ "b@x") [] no_profile 1)) by (vm_compute; reflexivity).
  exact (proj1 (proj2 (proj2 (GetEventsAfterSeq_page demo_weight demo_request.1.2 2 _ 0 10 [] _ _ _ _
    demo_request_ok Hu ltac:(lia) ltac:(lia) He)) Hr)).
Defined.

(** One message of user 1 in the private chat with user 2. *)
Definition demo_talk : db := (AddChatMsg demo_weight 2 demo_text demo_db []).1.2.

Lemma demo_talk_ok : tables_ok demo_weight demo_talk.
Proof.
  unfold demo_talk. destruct (AddChatMsg demo_weight 2 demo_text demo_db []) as [[[rc c] d'] t'] eqn:E.
  apply AddChatMsg_spec in E. cbn. destruct E as [(Hs & _) | (d0 & r & Hs & Hst & -> & _)].
  - by eapply tables_ok_same_rows, demo_tables_ok.
  - apply store_effect_ok; [| done]. by eapply tables_ok_same_rows, demo_tables_ok.
Qed.

Lemma LoadChatMsg_pages_witness :
  let r := LoadChatMsg 2 5 0 10 demo_talk [] in
  ∃ page, r.1.1 = Some page ∧ page_true demo_talk 2 5 0 10 page ∧ message_id <$> page_messages page = [11].
Proof.
  intros r. destruct r.1.1 as [page |] eqn:Ep; [| vm_compute in Ep; discriminate]. exists page. split; [done |].
  assert (He : r = (Some page, r.1.2, r.2)) by (rewrite (surjective_pairing r), (surjective_pairing r.1) at 1; by rewrite Ep).
  split; [by apply (LoadChatMsg_pages demo_weight demo_talk 2 5 0 10 [] _ _ _ demo_talk_ok ltac:(lia) ltac:(lia) He) |].
  assert (Hi : option_map (λ p, message_id <$> page_messages p) r.1.1 = Some [11]) by (vm_compute; reflexivity).
  rewrite Ep in Hi. cbn in Hi. congruence.
Defined.

Lemma GetUserEvent_true_witness :
  let r := GetUserEvent 2 FRIEND_APPLY 0 1 demo_request.1.2 [] in
  ∃ ev, r.1.1 = Some ev ∧ ∃ e, event_true demo_request.1.2 2 (ev_seq ev, e) ev.
Proof.
  intros r. destruct r.1.1 as [ev |] eqn:Ep; [| vm_compute in Ep; discriminate]. exists ev. split; [done |].
  assert (He : r = (Some ev, r.1.2, r.2)) by (rewrite (surjective_pairing r), (surjective_pairing r.1) at 1; by rewrite Ep).
  destruct (GetUserEvent_true demo_weight demo_request.1.2 2 FRIEND_APPLY 0 1 [] ev _ _ demo_request_ok He) as (_ & e & Ht & _).
  by exists e.
Defined.
