(* ===== verification/SystemDb.v ===== *)
(** * The two servers on one database

    The ChatServer and the ResourceServer run their transactions on the same
    tables. Every operation of either DAO that writes is a step of one
    transition system; the invariant of the tables holds in every reachable
    state, and the events of a user refine an append-only log. *)

From S2P Require Import Prelude Database ResourceDb TxLogic ChatDb ChatDbMessages ChatFriends ChatSync.

(** ** Steps *)

Inductive db_op :=
  | OpAddChatMsg (retries : nat) (message : ChatMessage)
  | OpAddFriendApply (requester target : Z) (message client : bytes)
  | OpHandleFriendApply (handler fid : Z) (accept : bool)
  | OpCreatePrivateChat (requester target : Z)
  | OpCompleteResourceUpload (mid sender : Z)
  | OpMarkResourceFailed (mid : Z)
  | OpMarkResourceExpired (mids : list Z)
  | OpUpdateHeadInfo (uid : Z) (icon : bytes).

(** The database an operation leaves, whatever it reports. *)
Definition run_op (weight : bytes → bytes) (op : db_op) (d : db) (t : tape) : db :=
  match op with
  | OpAddChatMsg k message => (AddChatMsg weight k message d t).1.2
  | OpAddFriendApply r g message client => (AddFriendApply weight r g message client d t).1.2
  | OpHandleFriendApply h fid accept => (HandleFriendApply h fid accept d t).1.2
  | OpCreatePrivateChat a b => (CreatePrivateChat a b d t).1.2
  | OpCompleteResourceUpload mid sender => (CompleteResourceUpload mid sender d t).1.2
  | OpMarkResourceFailed mid => (MarkResourceFailed mid d t).1.2
  | OpMarkResourceExpired mids => (MarkResourceExpired mids d t).1.2
  | OpUpdateHeadInfo uid icon => (UpdateHeadInfo uid icon d t).1.2
  end.

Definition db_step (weight : bytes → bytes) (d : db) (op : db_op) (d' : db) : Prop :=
  ∃ t, d' = run_op weight op d t.

(** ** The abstract specification: a log per user *)

Definition logs := Z → list event_row.

Inductive log_step (l l' : logs) : Prop :=
  | log_same : (∀ uid, l' uid = l uid) → log_step l l'
  | log_append r e : (∀ uid, l' uid = if decide (uid = r) then l r ++ [e] else l uid) → log_step l l'.

(** The log the tables represent. *)
Definition user_log (d : db) : logs := λ uid,
  match users d !! uid with
  | Some u => omap (λ s, user_events d !! (uid, s)) (seqZ 1 (last_event_seq u))
  | None => []
  end.

(** ** What a step can do *)

Definition same_logs (d d' : db) : Prop := users d' = users d ∧ user_events d' = user_events d ∧ next_id d <= next_id d'.

(** A user has a new avatar. *)
Definition avatar_set (d d' : db) : Prop :=
  ∃ uid u icon, users d !! uid = Some u ∧ d' = set_users d (<[uid := with_avatar icon u]> (users d)).

Definition op_effect (d d' : db) : Prop :=
  same_logs d d' ∨ avatar_set d d' ∨
  ∃ d1 r u e, same_logs d d1 ∧ users d !! r = Some u ∧ d' = append_event d1 r e.

Lemma omap_seqZ_ext {B} (f g : Z → option B) n :
  (∀ s, 1 <= s <= n → f s = g s) → omap f (seqZ 1 n) = omap g (seqZ 1 n).
Proof. intros H. apply list_omap_ext, Forall_Forall2_diag, Forall_seqZ. intros s Hs. apply H. lia. Qed.

Lemma user_log_append d d1 r u e :
  same_logs d d1 → users d !! r = Some u → 0 <= last_event_seq u →
  ∀ uid, user_log (append_event d1 r e) uid = if decide (uid = r) then user_log d r ++ [e] else user_log d uid.
Proof.
  intros (Eu & Ee & _) Hu Hpos uid. assert (Hu1 : users d1 !! r = Some u) by by rewrite Eu.
  pose proof (append_event_lookup d1 r e u) as Hlk. unfold user_log.
  assert (Hus : users (append_event d1 r e) !! uid =
    if decide (uid = r) then Some (UserRow (username u) (email u) (password_hash u) (user_profile u) (last_event_seq u + 1)) else users d !! uid).
  { unfold append_event. rewrite Hu1. cbn. case_decide as E; [subst; apply lookup_insert_eq |].
    by rewrite lookup_insert_ne, Eu. }
  rewrite Hus. destruct (decide (uid = r)) as [-> | Hne].
  - rewrite Hu. cbn [last_event_seq]. rewrite seqZ_app by lia. rewrite omap_app. f_equal.
    + apply omap_seqZ_ext. intros s Hs. rewrite Hlk, decide_False by (done || (intros [= E]; lia)). by rewrite Ee.
    + rewrite (seqZ_cons (1 + last_event_seq u) 1), seqZ_nil by lia. cbn [omap list_omap].
      rewrite Hlk, decide_True by (done || f_equal; lia). done.
  - destruct (users d !! uid); [| done]. apply omap_seqZ_ext. intros s Hs.
    rewrite Hlk, decide_False by (done || congruence). by rewrite Ee.
Qed.

Lemma op_effect_log d d' : db_inv d → op_effect d d' → log_step (user_log d) (user_log d').
Proof.
  intros (Hg & _ & _ & (_ & _ & _ & Hpos)) [(Eu & Ee & _) | [(r & u & icon & Hu & ->) | (d1 & r & u & e & Hs & Hu & ->)]].
  - apply log_same. intros uid. unfold user_log. by rewrite Eu, Ee.
  - apply log_same. intros uid. unfold user_log. cbn. destruct (decide (uid = r)) as [-> |]; [by rewrite lookup_insert_eq, Hu | by rewrite lookup_insert_ne].
  - apply (log_append _ _ r e). intros uid. by apply (user_log_append d d1 r u e Hs Hu (Hpos r u Hu)).
Qed.

(** ** The friend tables under the message operations *)

Section frames.
Context (weight : bytes → bytes).

(** Friend requests, friendships and chats stay, only message events come. *)
Lemma friends_ok_messages d d' :
  friends_ok weight d → friend_requests d' = friend_requests d → friendships d' = friendships d →
  private_chats d' = private_chats d → (∀ i, is_Some (users d !! i) → is_Some (users d' !! i)) →
  (∀ k e, user_events d' !! k = Some e → user_events d !! k = Some e ∨ ∃ ty mid, e = message_event ty mid) →
  friends_ok weight d'.
Proof.
  intros [Hr Hcl Hpe Hfc He Hk] Ef Es Ec Hu Hev. constructor; rewrite ?Ef, ?Es, ?Ec; try done.
  - intros i f Hi. apply (request_row_ok_frame d); [done | by rewrite Ec | done | by apply Hr].
  - intros uid s ty fid [Hs | (ty' & mid & E)]%Hev; [by eapply He | by unfold friend_event, message_event in E].
  - intros uid s e [Hs | (ty & mid & ->)]%Hev; [by eapply Hk |]. left. by eexists _, _.
Qed.

Lemma append_message_event_friends d r u ty mid :
  friends_ok weight d → users d !! r = Some u → friends_ok weight (append_event d r (message_event ty mid)).
Proof.
  intros Hf Hu. destruct (append_event_frame d r (message_event ty mid)) as (_ & E2 & _ & E4 & _ & E6).
  apply (friends_ok_messages d); try done; [intros i; apply append_event_users |].
  intros k e. rewrite (append_event_lookup d r _ u k Hu). case_decide; [| by left].
  intros [= <-]. right. by eexists _, _.
Qed.

(** A new status for a resource message. *)
Lemma tables_ok_status d d' mid m st :
  tables_ok weight d → db_inv d' → chat_messages d !! mid = Some m → m_status m = Pending →
  chat_messages d' = <[mid := with_status m st]> (chat_messages d) →
  private_chats d' = private_chats d → message_resources d' = message_resources d → next_id d' = next_id d →
  (∀ i, is_Some (users d !! i) → is_Some (users d' !! i)) → tables_ok weight d'.
Proof.
  intros [_ Hn Hids Hcl Hms Hmem Hres Hch Hp] Hi Hm Hst Em Ec Er En Hu.
  assert (Hlk : ∀ i x, chat_messages d' !! i = Some x →
    ∃ y, chat_messages d !! i = Some y ∧ m_sender x = m_sender y ∧ m_client x = m_client y ∧ m_thread x = m_thread y ∧
      (x = y ∨ i = mid ∧ y = m ∧ x = with_status m st)).
  { rewrite Em. intros i x. destruct (decide (i = mid)) as [-> |].
    - rewrite lookup_insert_eq. intros [= <-]. exists m. auto 10.
    - rewrite lookup_insert_ne by done. intros Hx. exists x. auto 10. }
  constructor; rewrite ?Ec, ?Er, ?En; try done.
  - intros i Hi0. rewrite Em. destruct (Hids i Hi0). rewrite lookup_insert_ne; [done | congruence].
  - intros i j x y (x' & Hx & ? & ? & _)%Hlk (y' & Hy & ? & ? & _)%Hlk ? ?. apply (Hcl i j x' y'); congruence.
  - intros i x (y & Hy & _ & _ & _ & [-> | (-> & -> & ->)])%Hlk; [by apply Hms |].
    destruct (Hms mid m Hm) as [(_ & ? & _) | ?]; [congruence | by right].
  - intros i x pc (y & Hy & Es & _ & Et & _)%Hlk. rewrite Et, Es. by apply (Hmem i).
  - intros i Hi0. rewrite Em. destruct (decide (i = mid)) as [-> |]; [by rewrite lookup_insert_eq |].
    rewrite lookup_insert_ne by done. by apply Hres.
  - intros i lo hi Hpc. destruct (Hch i lo hi Hpc) as (? & ? & ?). auto.
Qed.

Lemma publish_effect_ok d mid m r u :
  chat_ok weight d → chat_messages d !! mid = Some m → recipient_of d m = Some r → m_status m = Pending →
  users d !! r = Some u → chat_ok weight (publish_effect d mid m r).
Proof.
  intros (Ht & Hf & Hn) Hm Hr Hst Hu.
  set (d1 := set_messages d (<[mid := with_status m Published]> (chat_messages d))).
  destruct (append_event_frame d1 r (message_event (m_type m) mid)) as (E1 & E2 & E3 & _ & E5 & _).
  split; [| split].
  - apply (tables_ok_status d _ mid m Published); try done.
    + eapply publish_effect_inv; [apply (t_inv _ _ Ht) | done | done | congruence | done].
    + intros i Hi. by apply append_event_users.
  - apply (append_message_event_friends d1 r u); [| done]. by apply (friends_ok_messages d); auto.
  - apply (append_event_notified d1 r _ u); [apply (t_inv _ _ Ht) | done | done].
Qed.

Lemma fail_effect_ok d mid m :
  chat_ok weight d → chat_messages d !! mid = Some m → m_status m = Pending → chat_ok weight (fail_effect d mid m).
Proof.
  intros (Ht & Hf & Hn) Hm Hst. split; [| split; [by apply (friends_ok_messages d); auto | done]].
  apply (tables_ok_status d _ mid m Failed); try done. apply fail_effect_inv; [apply (t_inv _ _ Ht) | done..].
Qed.

Lemma store_effect_chat_ok d message r :
  chat_ok weight d → storable weight d message r → chat_ok weight (store_effect d message r).
Proof.
  intros (Ht & Hf & Hn) Hst. destruct (storable_user weight _ _ _ Ht Hst) as [u Hu].
  pose proof (store_effect_ok weight _ _ _ Ht Hst) as Ht'.
  assert (Hf1 : friends_ok weight (insert_message d (row_of message))) by by apply (friends_ok_messages d); auto.
  split; [done |]. unfold store_effect in *.
  destruct (if is_resource_type (message_type message) then resource message else None).
  - split; [by apply (friends_ok_messages d); auto | done].
  - split; [by apply (append_message_event_friends _ r u) |].
    apply (append_event_notified _ r _ u); [apply (t_inv _ _ Ht) | done | done].
Qed.

End frames.

(** ** Every operation *)

Section steps.
Context (weight : bytes → bytes).

(** Only rows without a log, and the counter going up. *)
Ltac logs_same := split_and!; [done | done | cbn; try lia].

(** The invariant is kept and the logs take at most one step. *)
Definition good_step (d d' : db) : Prop := chat_ok weight d' ∧ op_effect d d'.

Lemma same_rows_logs d d' : same_rows d d' → same_logs d d'.
Proof. intros [Hn Hd]. split_and!; [by rewrite Hd.. | done]. Qed.

Lemma more_chats_logs d d' : more_chats d d' → same_logs d d'.
Proof. intros Hm. pose proof (mc_next _ _ Hm). rewrite (mc_same _ _ Hm). by split_and!. Qed.

Lemma good_same_rows d d' : chat_ok weight d → same_rows d d' → good_step d d'.
Proof. intros Hok Hs. split; [by eapply chat_ok_same_rows | left; by apply same_rows_logs]. Qed.

Lemma good_append d d' d1 r e :
  chat_ok weight d' → same_logs d d1 → is_Some (users d !! r) → d' = append_event d1 r e → good_step d d'.
Proof. intros Hok Hs [u Hu] ->. split; [done |]. right. right. by exists d1, r, u, e. Qed.

Lemma AddChatMsg_good k message d t : chat_ok weight d → good_step d (AddChatMsg weight k message d t).1.2.
Proof.
  intros Hok. destruct (AddChatMsg weight k message d t) as [[[rc c] d'] t'] eqn:E. cbn.
  apply AddChatMsg_spec in E as [(Hs & _) | (d0 & r & Hs & Hst & -> & _)]; [by apply good_same_rows |].
  pose proof (chat_ok_same_rows weight _ _ Hs Hok) as Hok0.
  pose proof (store_effect_chat_ok weight _ _ _ Hok0 Hst) as Hok'.
  destruct (storable_user weight _ _ _ (proj1 Hok0) Hst) as [u Hu].
  assert (Hl : same_logs d (insert_message d0 (row_of message))).
  { destruct (same_rows_logs _ _ Hs) as (E1 & E2 & E3). split_and!; [done.. | cbn; lia]. }
  destruct Hl as (Eu & Ee & En). unfold store_effect in *.
  destruct (if is_resource_type (message_type message) then resource message else None).
  - split; [done |]. left. by split_and!.
  - eapply good_append; [done | | | done]; [by split_and! |]. destruct (same_rows_logs _ _ Hs) as (<- & _). by exists u.
Qed.

Lemma AddFriendApply_good a b message client d t :
  chat_ok weight d → good_step d (AddFriendApply weight a b message client d t).1.2.
Proof.
  intros Hok. destruct (AddFriendApply weight a b message client d t) as [[res d'] t'] eqn:E. cbn.
  apply AddFriendApply_spec in E as [Hout _]; [| apply (t_next _ _ (proj1 Hok))].
  destruct Hout as [[Hs _] | (x & [[-> _] | (Hq & -> & _)] & _)]; [by apply good_same_rows | by apply good_same_rows |].
  eapply good_append; [by apply request_effect_ok | | | done]; [logs_same |].
  by destruct (rq_users _ _ _ Hq) as (_ & _ & _ & _ & ?).
Qed.

Lemma HandleFriendApply_good h fid accept d t :
  chat_ok weight d → good_step d (HandleFriendApply h fid accept d t).1.2.
Proof.
  intros Hok. destruct (HandleFriendApply h fid accept d t) as [[res d'] t'] eqn:E. cbn.
  apply (HandleFriendApply_spec weight) in E as [[Hs _] | (x & (f & Hi & _ & [(_ & -> & _) | (Hst & _ & Heff)]) & _)];
    [by apply good_same_rows | by apply good_same_rows | | done].
  destruct (fr_users _ _ _ (f_rows _ _ (proj1 (proj2 Hok)) _ _ Hi)) as (_ & _ & _ & Hu & _).
  destruct accept.
  - destruct Heff as (tid & d1 & Hup & -> & _).
    destruct (accept_effect_ok weight d d1 tid fid f Hok Hi Hst Hup) as [[Hok' _] _].
    eapply good_append; [done | | done | done].
    destruct (more_chats_logs _ _ (up_more _ _ _ _ _ _ Hup)) as (? & ? & ?). by split_and!.
  - subst d'. destruct (reject_effect_ok weight d fid f Hok Hi Hst) as [Hok' _].
    eapply good_append; [done | | done | reflexivity]. logs_same.
Qed.

Lemma CreatePrivateChat_good a b d t : chat_ok weight d → good_step d (CreatePrivateChat a b d t).1.2.
Proof.
  intros Hok. destruct (CreatePrivateChat a b d t) as [[[ok tid] d'] t'] eqn:E. cbn.
  apply (CreatePrivateChat_spec weight) in E as [[-> _] | (_ & _ & tid' & Hup & _)]; [apply good_same_rows; reflexivity || done | | done].
  split; [by eapply upserted_chat_ok |]. left. apply more_chats_logs, (up_more _ _ _ _ _ _ Hup).
Qed.

Lemma CompleteResourceUpload_good mid sender d t :
  chat_ok weight d → good_step d (CompleteResourceUpload mid sender d t).1.2.
Proof.
  intros Hok. destruct (CompleteResourceUpload mid sender d t) as [[[rc seq] d'] t'] eqn:E. cbn.
  apply CompleteResourceUpload_spec in E as [(-> & _) | (_ & m & r & u & (Hm & Hr & _) & Hst & Hu & -> & _)];
    [by apply good_same_rows |].
  eapply good_append; [by eapply publish_effect_ok | | by exists u | done]. logs_same.
Qed.

(** Users are added or keep their event head; the other tables stay. *)
Record only_users (d d' : db) : Prop := {
  ou_rest : d' = set_next (set_users d (users d')) (next_id d');
  ou_next : next_id d <= next_id d';
  ou_old : ∀ i u, users d !! i = Some u → ∃ u', users d' !! i = Some u' ∧ last_event_seq u' = last_event_seq u;
  ou_new : ∀ i u', users d' !! i = Some u' →
    (∃ u, users d !! i = Some u ∧ last_event_seq u' = last_event_seq u) ∨ users d !! i = None ∧ last_event_seq u' = 0;
}.

Lemma only_users_is_Some d d' i : only_users d d' → is_Some (users d !! i) → is_Some (users d' !! i).
Proof. intros Ho [u Hu]. destruct (ou_old _ _ Ho _ _ Hu) as (u' & Hu' & _). by exists u'. Qed.

Lemma only_users_inv d d' : only_users d d' → db_inv d → db_inv d'.
Proof.
  intros Ho ((Hg1 & Hg2) & Hp & Hr & (K1 & K2 & K3 & K4)). pose proof (ou_next _ _ Ho) as Hn.
  assert (Ee : user_events d' = user_events d) by by rewrite (ou_rest _ _ Ho).
  assert (Em : chat_messages d' = chat_messages d) by by rewrite (ou_rest _ _ Ho).
  assert (Ec : private_chats d' = private_chats d) by by rewrite (ou_rest _ _ Ho).
  assert (Ef : friend_requests d' = friend_requests d) by by rewrite (ou_rest _ _ Ho).
  assert (Erec : ∀ m, recipient_of d' m = recipient_of d m) by (intros m; unfold recipient_of; by rewrite Ec).
  split; [split |]; [| by rewrite Ee |].
  { intros uid s. rewrite Ee, Hg1. split.
    - intros (u & Hu & Hs). destruct (ou_old _ _ Ho _ _ Hu) as (u' & Hu' & E). exists u'. by rewrite E.
    - intros (u' & Hu' & Hs). destruct (ou_new _ _ Ho _ _ Hu') as [(u & Hu & E) | [_ E]]; [exists u; by rewrite <- E | lia]. }
  split; [intros mid m; rewrite Em, Ee; intros Hm r; rewrite Erec; by apply Hp |].
  split; [intros uid s ty mid; rewrite Ee; intros (m & Hm & Ht & Hrec)%Hr; exists m; by rewrite Em, Erec |].
  split; [by rewrite Em |]. split; [intros i Hi; rewrite Em, Ec, Ef; apply K2; lia |].
  split; [intros mid m; rewrite Em, Erec; apply K3 |].
  intros i u' Hu'. destruct (ou_new _ _ Ho _ _ Hu') as [(u & Hu & ->) | [_ ->]]; [by eapply K4 | done].
Qed.

Lemma only_users_chat_ok d d' : only_users d d' → chat_ok weight d → chat_ok weight d'.
Proof.
  intros Ho (Ht & Hf & Hn). pose proof (only_users_inv _ _ Ho (t_inv _ _ Ht)) as Hinv.
  assert (Hsome : ∀ i, is_Some (users d !! i) → is_Some (users d' !! i)) by (intros i; by apply only_users_is_Some).
  assert (Hfr : friends_ok weight d').
  { apply (friends_ok_messages weight d); [done | | | | done |]; rewrite (ou_rest _ _ Ho); try done. intros k e Hk. by left. }
  split; [| split; [done |]].
  - pose proof (ou_next _ _ Ho) as Hnx. destruct Ht as [? ? ? ? ? ? ? Hc ?]. split; [done | lia | | | | | | |]; rewrite (ou_rest _ _ Ho); try done.
    cbn. intros i lo hi (Hlt & H1 & H2)%Hc. auto.
  - intros i f. rewrite (ou_rest _ _ Ho). cbn. apply Hn.
Qed.

Lemma only_users_avatar d uid u icon :
  users d !! uid = Some u → only_users d (set_users d (<[uid := with_avatar icon u]> (users d))).
Proof.
  intros Hu. split; cbn; [done | done | |]; intros i v; destruct (decide (i = uid)) as [-> |];
    rewrite ?lookup_insert_eq, ?lookup_insert_ne by done.
  - rewrite Hu. intros [= <-]. by eexists.
  - intros Hv. by exists v.
  - intros [= <-]. left. by exists u.
  - intros Hv. left. by exists v.
Qed.

Lemma UpdateHeadInfo_effect uid icon d t : same_rows d (UpdateHeadInfo uid icon d t).1.2 ∨ avatar_set d (UpdateHeadInfo uid icon d t).1.2.
Proof.
  unfold UpdateHeadInfo, with_connection, catch, mbind, Tx_bind, mret, Tx_ret, exec_auto.
  destruct (tape_next t) as [[| n] t1]; [| by left]. unfold update_avatar.
  destruct (users d !! uid) as [u |] eqn:Hu; destruct (tape_next t1) as [[| m] t2]; cbn; try case_decide; cbn;
    first [by left | right; by exists uid, u, icon].
Qed.

Lemma UpdateHeadInfo_good uid icon d t : chat_ok weight d → good_step d (UpdateHeadInfo uid icon d t).1.2.
Proof.
  intros Hok. destruct (UpdateHeadInfo_effect uid icon d t) as [Hs | Hs]; [by apply good_same_rows |].
  split; [| by right; left]. destruct Hs as (r & u & i & Hu & ->). by apply (only_users_chat_ok d); [apply only_users_avatar |].
Qed.

(** A sequence of uploads that fail. *)
Definition failed_once (d d' : db) : Prop :=
  ∃ mid m, chat_messages d !! mid = Some m ∧ m_status m = Pending ∧ d' = fail_effect d mid m.

Lemma failed_logs d d' : rtc failed_once d d' → same_logs d d'.
Proof. induction 1 as [| d d1 d2 (mid & m & _ & _ & ->) _ IH]; [by split_and! | exact IH]. Qed.

Lemma failed_good d d' : chat_ok weight d → rtc failed_once d d' → good_step d d'.
Proof.
  intros Hok H. revert Hok. induction H as [d | d d1 d2 (mid & m & Hm & Hst & ->) Hrest IH]; intros Hok; [by apply good_same_rows |].
  destruct (IH (fail_effect_ok weight d mid m Hok Hm Hst)) as [Hok' _]. split; [done |].
  destruct (failed_logs _ _ Hrest) as (Hu & He & Hn). by left.
Qed.

Lemma update_status_failed_once mid d : rtc failed_once d (update_status mid Failed Pending d).2.
Proof.
  unfold update_status. destruct (chat_messages d !! mid) as [m |] eqn:Hm; [| done].
  case_decide; [| done]. apply rtc_once. by exists mid, m.
Qed.

Lemma MarkResourceFailed_fails mid d t : rtc failed_once d (MarkResourceFailed mid d t).1.2.
Proof.
  pose proof (update_status_failed_once mid d) as Hf.
  unfold MarkResourceFailed, with_connection, catch, mbind, Tx_bind, mret, Tx_ret, exec_auto.
  destruct (tape_next t) as [[| n] t1]; [| done].
  destruct (update_status mid Failed Pending d) as [a d1]. cbn in *.
  destruct (tape_next t1) as [[| n] t2]; [done |]. by case_decide.
Qed.

Lemma MarkResourceFailed_good mid d t : chat_ok weight d → good_step d (MarkResourceFailed mid d t).1.2.
Proof. intros Hok. apply failed_good; [done |]. apply MarkResourceFailed_fails. Qed.

Lemma fail_effect_next d d' : rtc failed_once d d' → next_id d' = next_id d.
Proof. induction 1 as [| d d1 d2 (mid & m & _ & _ & ->) _ IH]; [done | exact IH]. Qed.

Lemma expire_all_wp d0 mids d :
  rtc failed_once d0 d → tx_wp (expire_all mids) (no_undo d0) (λ _ d', rtc failed_once d0 d') d.
Proof.
  revert d. induction mids as [| mid mids IH]; intros d Hd; cbn [expire_all].
  - by apply tx_wp_ret.
  - tx_step. apply tx_wp_exec; [unfold no_undo; by rewrite (fail_effect_next _ _ Hd) |].
    apply IH. etrans; [done | apply update_status_failed_once].
Qed.

Lemma MarkResourceExpired_fails mids d t :
  same_rows d (MarkResourceExpired mids d t).1.2 ∨ rtc failed_once d (MarkResourceExpired mids d t).1.2.
Proof.
  unfold MarkResourceExpired. case_bool_decide; [by left |].
  unfold with_connection, catch. destruct (tape_next t) as [[| n] t1]; [| by left].
  destruct (transaction (expire_all mids;; mret (Commit, true)) d t1) as [[r d'] t'] eqn:E.
  apply (transaction_outcome _ (λ _, False) (λ _ d', rtc failed_once d d')) in E.
  - assert (Hg : same_rows d d' ∨ rtc failed_once d d') by (destruct E as [[Hs _] | (a & Hf & _)]; auto).
    by destruct r.
  - tx_step. eapply tx_wp_mono; [done | | by apply expire_all_wp]. intros [] d1 Hd. apply tx_wp_ret.
    split; [unfold no_undo; by rewrite (fail_effect_next _ _ Hd) | done].
Qed.

Lemma MarkResourceExpired_good mids d t : chat_ok weight d → good_step d (MarkResourceExpired mids d t).1.2.
Proof. intros Hok. destruct (MarkResourceExpired_fails mids d t); [by apply good_same_rows | by apply failed_good]. Qed.

Lemma db_step_good d op d' : chat_ok weight d → db_step weight d op d' → good_step d d'.
Proof.
  intros Hok [t ->]. destruct op; cbn [run_op].
  - by apply AddChatMsg_good.
  - by apply AddFriendApply_good.
  - by apply HandleFriendApply_good.
  - by apply CreatePrivateChat_good.
  - by apply CompleteResourceUpload_good.
  - by apply MarkResourceFailed_good.
  - by apply MarkResourceExpired_good.
  - by apply UpdateHeadInfo_good.
Qed.

Lemma reachable_chat_ok d0 d :
  chat_ok weight d0 → reachable (λ d, d = d0) (db_step weight) d → chat_ok weight d.
Proof.
  intros Hok. apply reachable_invariant; [by intros ? -> |].
  intros s op s' Hs Hstep. by destruct (db_step_good _ _ _ Hs Hstep).
Qed.

Lemma omap_all {A B} (f : A → option B) l :
  (∀ x, x ∈ l → is_Some (f x)) → Forall2 (λ x y, f x = Some y) l (omap f l).
Proof.
  induction l as [| x l IH]; intros Hl; [constructor |]. cbn [omap list_omap].
  destruct (Hl x) as [y Hy]; [left |]. rewrite Hy. constructor; [done |]. apply IH. intros z Hz. apply Hl. by right.
Qed.

Lemma drop_seqZ m n k : 0 <= k → drop (Z.to_nat k) (seqZ m n) = seqZ (m + k) (n - k).
Proof.
  intros Hk. destruct (decide (n <= k)).
  - rewrite drop_ge by (rewrite length_seqZ; lia). by rewrite seqZ_nil by lia.
  - replace n with (k + (n - k)) at 1 by lia. rewrite seqZ_app by lia.
    rewrite drop_app_le, drop_ge by (rewrite length_seqZ; lia). done.
Qed.

(** The entries of a log are the rows numbered from 1. *)
Lemma user_log_rows d uid u :
  events_gapless d → users d !! uid = Some u →
  Forall2 (λ s e, user_events d !! (uid, s) = Some e) (seqZ 1 (last_event_seq u)) (user_log d uid).
Proof.
  intros [Hg _] Hu. unfold user_log. rewrite Hu. apply omap_all. intros s Hs%elem_of_seqZ.
  apply Hg. exists u. split; [done | lia].
Qed.

Lemma page_is_slice d uid u after lim evs t t' :
  chat_ok weight d → users d !! uid = Some u → 0 <= after → 0 <= lim →
  GetEventsAfterSeq uid after lim d t = ((true, evs), d, t') →
  Forall2 (λ ev e, event_true d uid (ev_seq ev, e) ev) evs
    (take (Z.to_nat (lim + 1)) (drop (Z.to_nat after) (user_log d uid))).
Proof.
  intros Hok Hu Ha Hl Hrun.
  destruct (GetEventsAfterSeq_spec weight d uid u after lim t _ _ _ _ Hok Hu Ha Hl Hrun) as (_ & _ & Hpage).
  destruct (Hpage eq_refl) as [Hseq Htrue]. clear Hpage Hrun.
  pose proof (user_log_rows d uid u (proj1 (t_inv _ _ (proj1 Hok))) Hu) as Hrows.
  apply (Forall2_drop _ _ _ (Z.to_nat after)) in Hrows. apply (Forall2_take _ _ _ (Z.to_nat (lim + 1))) in Hrows.
  rewrite drop_seqZ, take_seqZ in Hrows by lia. rewrite (Z.add_comm 1 after), <- Hseq in Hrows.
  rewrite Forall2_fmap_l in Hrows. clear Hseq.
  induction Hrows as [| ev e evs log He _ IH]; [constructor |].
  apply Forall_cons in Htrue as [(e' & Ht) Htrue]. constructor; [| by apply IH].
  destruct Ht as (H1 & H2 & H3 & H4). cbn in H3. rewrite He in H3. simplify_eq. by split.
Qed.

(** C4: the servers keep the shared tables consistent.
    From consistent tables, every sequence of writing operations of the two
    servers' DAOs, with any statement, commit or rollback failing, reaches
    consistent tables only: events gapless and in step with the published
    messages, unique clients' identifiers, one chat per pair, friendships
    backed by chats, accepted requests by friendships. *)
Theorem servers_keep_tables d0 d :
  chat_ok weight d0 → reachable (λ d, d = d0) (db_step weight) d → chat_ok weight d.
Proof.
  apply reachable_chat_ok.
Qed.

(** C5: the tables refine a log per user.
    Seen from the synchronisation, a user's events are an append-only log:
    every operation of the two servers, whatever fails, appends one event to
    one user's log or changes no log, and a page [GetEventsAfterSeq] reports
    is the slice of the log after the client's number. *)
Theorem servers_refine_logs d0 d :
  chat_ok weight d0 → reachable (λ d, d = d0) (db_step weight) d →
  (∀ op d', db_step weight d op d' → log_step (user_log d) (user_log d')) ∧
  (∀ uid u after lim evs t t', users d !! uid = Some u → 0 <= after → 0 <= lim →
     GetEventsAfterSeq uid after lim d t = ((true, evs), d, t') →
     Forall2 (λ ev e, event_true d uid (ev_seq ev, e) ev) evs
       (take (Z.to_nat (lim + 1)) (drop (Z.to_nat after) (user_log d uid)))).
Proof.
  intros Hok0 Hreach. pose proof (reachable_chat_ok d0 d Hok0 Hreach) as Hok. split.
  - intros op d' Hstep. apply op_effect_log; [apply (t_inv _ _ (proj1 Hok)) |].
    by destruct (db_step_good _ _ _ Hok Hstep).
  - intros uid u after lim evs t t' Hu Ha Hl Hrun. by eapply page_is_slice.
Qed.

End steps.

(** ** A concrete run *)

(** User 1 asks for friendship, user 2 accepts. *)
Lemma demo_reachable :
  reachable (λ d, d = demo_strangers) (db_step demo_weight) demo_accept.1.2.
Proof.
  apply (reach_step _ _ demo_request.1.2 (OpHandleFriendApply 2 1 true)); [| by exists []].
  apply (reach_step _ _ demo_strangers (OpAddFriendApply 1 2 (§ "hello") (§ "k1"))); [by apply reach_init |].
  by exists demo_request_tape.
Qed.

Lemma servers_keep_tables_witness : chat_ok demo_weight demo_accept.1.2 ∧ size (friendships demo_accept.1.2) = 1%nat.
Proof.
  split; [| vm_compute; reflexivity].
  exact (servers_keep_tables demo_weight demo_strangers _ demo_strangers_ok demo_reachable).
Defined.

Lemma servers_refine_logs_witness :
  user_log demo_accept.1.2 1 = [friend_event FRIEND_ACCEPT 1] ∧
  ∀ op d', db_step demo_weight demo_accept.1.2 op d' → log_step (user_log demo_accept.1.2) (user_log d').
Proof.
  split; [vm_compute; reflexivity |].
  exact (proj1 (servers_refine_logs demo_weight demo_strangers _ demo_strangers_ok demo_reachable)).
Defined.
