(* ===== verification/ChatUsers.v ===== *)
(** * The ChatServer's queries on users (ChatServer/src/MysqlDao.cpp)

    Users, pending friend requests, friends and the list of conversations,
    and the loop of LogicSystem.cpp that collects all pending requests page
    by page. *)

From stdpp Require Import sorting.
From S2P Require Import Prelude Database ResourceDb TxLogic ChatDb ChatDbMessages ChatFriends ChatSync.

(** ** Rows *)

Record UserInfo := User {
  ui_id : Z;
  ui_username : bytes;
  ui_email : bytes;
  ui_profile : profile;
}.

Record ApplyInfo := Apply { ai_request : FriendRequest; ai_peer : UserInfo }.
Record ContactInfo := Contact { ci_user : UserInfo; ci_thread : Z }.
Record ChatThreadInfo := Thread { th_id : Z; th_lower : Z; th_higher : Z; th_last : Z }.

Definition ReadUser (uid : Z) (u : user_row) : UserInfo := User uid (username u) (email u) (user_profile u).

Definition user_of (d : db) (uid : Z) : option UserInfo := option_map (ReadUser uid) (users d !! uid).

Definition GetUser (uid : Z) : Dao (option UserInfo) :=
  with_connection None (catch (query (λ d, user_of d uid)) (λ _, None)).

(** [WHERE username = ?], under the collation of the column. *)
Definition user_named (weight : bytes → bytes) (d : db) (name : bytes) : option UserInfo :=
  match rows_where (λ _ u, bool_decide (weight (username u) = weight name)) (users d) with
  | [] => None
  | x :: _ => Some (ReadUser x.1 x.2)
  end.

Definition GetUser_by_name (weight : bytes → bytes) (name : bytes) : Dao (option UserInfo) :=
  with_connection None (catch (query (λ d, user_named weight d name)) (λ _, None)).

(** Success and the members. *)
Definition GetPrivateChatMembers (tid : Z) : Dao (option (Z * Z)) :=
  with_connection None (catch (ReadPrivateChatMembers tid) (λ _, None)).

Lemma GetPrivateChatMembers_spec tid d t pc d' t' :
  GetPrivateChatMembers tid d t = (pc, d', t') → d' = d ∧ ∀ p, pc = Some p → private_chats d !! tid = Some p.
Proof.
  unfold GetPrivateChatMembers, ReadPrivateChatMembers, with_connection, catch, query, exec.
  destruct (tape_next t) as [[| n] t1]; [| by intros [= <- <- <-]].
  destruct (tape_next t1) as [[| n] t2]; intros [= <- <- <-]; by split.
Qed.

(** ** Pending requests *)

Definition pending_to (target : Z) (f : freq_row) : bool :=
  (f_target f =? target) && bool_decide (f_status f = FrPending).

(** [... AND fr.friend_request_id>? ORDER BY fr.friend_request_id ASC LIMIT ?]
    joined with the requester. *)
Definition apply_rows (d : db) (target after n : Z) : list ApplyInfo :=
  limit n (omap (λ x : Z * freq_row,
      option_map (Apply (ReadFriendRequest x.1 x.2)) (user_of d (f_requester x.2)))
    (rows_where (λ i f, pending_to target f && (after <? i)) (friend_requests d))).

Definition GetApplyList (target after n : Z) : Dao (bool * list ApplyInfo) :=
  with_connection (false, [])
    (catch (rows ← query (λ d, apply_rows d target after n); mret (true, rows)) (λ _, (false, []))).

Definition kPageSize : Z := 100.

Definition apply_id (a : ApplyInfo) : Z := friend_request_id (ai_request a).

(** The loop of [GetFriendApplyInfo]; [None] is running out of fuel. *)
Fixpoint apply_loop (fuel : nat) (target after : Z) (acc : list ApplyInfo) : Dao (option (bool * list ApplyInfo)) := λ d t,
  match fuel with
  | O => (None, d, t)
  | S fuel =>
      let '((ok, page), d, t) := GetApplyList target after kPageSize d t in
      if negb ok then (Some (false, acc), d, t)
      else match last page with
      | None => (Some (true, acc), d, t)
      | Some a =>
          if zlen page <? kPageSize then (Some (true, acc ++ page), d, t)
          else apply_loop fuel target (apply_id a) (acc ++ page) d t
      end
  end.

Definition GetFriendApplyInfo (fuel : nat) (target : Z) : Dao (option (bool * list ApplyInfo)) :=
  apply_loop fuel target 0 [].

(** ** Friends and conversations *)

Definition contact_of (d : db) (uid : Z) (p : Z * Z) : option ContactInfo :=
  u ← user_of d (if decide (p.1 = uid) then p.2 else p.1);
  tid ← chat_of_pair d p.1 p.2;
  Some (Contact u tid).

Definition friend_rows (d : db) (uid : Z) : list ContactInfo :=
  order_by (λ c, ui_id (ci_user c))
    (omap (contact_of d uid) (filter (λ p, p.1 = uid ∨ p.2 = uid) (elements (friendships d)))).

Definition GetFriendList (uid : Z) : Dao (bool * list ContactInfo) :=
  with_connection (false, [])
    (catch (rows ← query (λ d, friend_rows d uid); mret (true, rows)) (λ _, (false, []))).

(** [COALESCE(MAX(m.message_id),0)] over the published messages. *)
Definition last_message_id (d : db) (tid : Z) : Z :=
  foldr Z.max 0 (fst <$> rows_where (λ _ m, (m_thread m =? tid) && bool_decide (m_status m = Published)) (chat_messages d)).

Definition thread_list (d : db) (uid after n : Z) : list ChatThreadInfo :=
  limit n (reverse ((λ x : Z * (Z * Z), Thread x.1 x.2.1 x.2.2 (last_message_id d x.1)) <$>
    rows_where (λ i pc, ((pc.1 =? uid) || (pc.2 =? uid)) && ((after =? 0) || (i <? after))) (private_chats d))).

(** Success, the page, whether there is more, and the cursor. *)
Definition GetUserThreads (uid after size : Z) : Dao (bool * (list ChatThreadInfo * bool * Z)) :=
  with_connection (false, ([], false, after))
    (catch (rows ← query (λ d, thread_list d uid after (size + 1)); mret (true, page_of th_id after size rows))
       (λ _, (false, ([], false, after)))).

(** ** All pending requests are collected *)

Section collecting.
Context (weight : bytes → bytes).

Definition pending_rows (d : db) (target after : Z) : list (Z * freq_row) :=
  rows_where (λ i f, pending_to target f && (after <? i)) (friend_requests d).

Definition apply_info (d : db) (x : Z * freq_row) : option ApplyInfo :=
  option_map (Apply (ReadFriendRequest x.1 x.2)) (user_of d (f_requester x.2)).

Lemma pending_rows_after d target after c :
  after <= c → pending_rows d target c = filter (λ x, c < x.1) (pending_rows d target after).
Proof.
  intros Hc. unfold pending_rows, rows_where. rewrite (order_by_filter fst).
  - f_equal. rewrite list_filter_filter. apply list_filter_iff. intros [i f]. cbn.
    rewrite !andb_true_iff, !Z.ltb_lt. split; [intros [? ?]; split_and!; try done; lia | tauto].
  - apply NoDup_fmap_2_strong; [| apply NoDup_filter, NoDup_map_to_list].
    intros [i x] [j y] [_ Hx]%list_elem_of_filter [_ Hy]%list_elem_of_filter Hij.
    apply elem_of_map_to_list in Hx, Hy. cbn in Hij. by simplify_eq.
Qed.

Lemma pending_rows_sorted d target after : StronglySorted Z.le (fst <$> pending_rows d target after).
Proof. apply (order_by_sorted fst). Qed.

Lemma pending_rows_keys d target after : NoDup (fst <$> pending_rows d target after).
Proof. apply rows_where_keys. Qed.

(** Splitting an ascending list of rows at the key of a row. *)
Lemma asc_filter (l : list (Z * freq_row)) k x :
  StronglySorted Z.le (fst <$> l) → NoDup (fst <$> l) → l !! k = Some x →
  filter (λ y, x.1 < y.1) l = drop (S k) l.
Proof.
  revert k. induction l as [| y l IH]; intros k Hs Hnd Hk; [done |]. cbn in Hs, Hnd.
  apply NoDup_cons in Hnd as [Hnin Hnd]. apply StronglySorted_cons in Hs as [Hy Hs]. rewrite Forall_forall in Hy.
  assert (Hlt : ∀ z, z ∈ l → y.1 < z.1).
  { intros z Hz. assert (Hz' : z.1 ∈ (fst <$> l)) by by apply list_elem_of_fmap_2.
    specialize (Hy _ Hz'). destruct (decide (y.1 = z.1)) as [E |]; [by rewrite E in Hnin | lia]. }
  destruct k as [| k]; cbn [lookup list_lookup] in Hk.
  - injection Hk as <-. rewrite filter_cons_False by lia. cbn [drop]. rewrite drop_0. clear -Hlt.
    induction l as [| z l IH]; [done |]. rewrite filter_cons_True by (apply Hlt; left).
    f_equal. apply IH. intros v Hv. apply Hlt. by right.
  - cbn [drop]. rewrite filter_cons_False; [by apply IH |].
    apply list_elem_of_lookup_2 in Hk. specialize (Hlt x Hk). lia.
Qed.

(** The joins lose no row: a requester is a user. *)
Lemma apply_info_Some d target after x :
  friends_ok weight d → x ∈ pending_rows d target after → ∃ a, apply_info d x = Some a ∧ apply_id a = x.1.
Proof.
  intros Hf. destruct x as [i f]. intros [Hi _]%rows_where_elem.
  destruct (fr_users _ _ _ (f_rows _ _ Hf i f Hi)) as (_ & _ & _ & [u Hu] & _).
  unfold apply_info, user_of. cbn. rewrite Hu. by eexists.
Qed.

Lemma omap_split {A B} (f : A → option B) (l : list A) n :
  (∀ x, x ∈ l → is_Some (f x)) → take n (omap f l) = omap f (take n l) ∧ length (omap f l) = length l.
Proof.
  revert n. induction l as [| x l IH]; intros n Hl; [by destruct n |].
  destruct (Hl x) as [y Hy]; [left |]. assert (Hl' : ∀ z, z ∈ l → is_Some (f z)) by (intros; apply Hl; by right).
  cbn [omap list_omap]. rewrite Hy. destruct n as [| n]; cbn [take omap list_omap]; [split; [done |]; cbn; by rewrite (proj2 (IH 0%nat Hl')) |].
  destruct (IH n Hl') as [-> E]. rewrite Hy. split; [done |]. cbn. by rewrite E.
Qed.

(** What a page is, and what is left after it. *)
Lemma apply_page d target after :
  friends_ok weight d →
  let rows := pending_rows d target after in
  let page := apply_rows d target after kPageSize in
  page = omap (apply_info d) (take 100 rows) ∧ length page = length (take 100 rows) ∧
  (∀ a, last page = Some a → (length rows >= 100)%nat → pending_rows d target (apply_id a) = drop 100 rows).
Proof.
  intros Hf rows page. assert (Hall : ∀ x, x ∈ rows → is_Some (apply_info d x)).
  { intros x Hx. destruct (apply_info_Some d target after x Hf Hx) as (a & Ha & _). by exists a. }
  assert (Hpage : page = omap (apply_info d) (take 100 rows)).
  { unfold page, apply_rows, limit. change (Z.to_nat kPageSize) with 100%nat. by apply omap_split. }
  assert (Hlen : length page = length (take 100 rows)).
  { rewrite Hpage. apply (omap_split _ _ 0). intros x (i & Hx & _)%elem_of_take.
    apply Hall. by eapply list_elem_of_lookup_2. }
  split; [done |]. split; [done |]. intros a Ha Hge.
  destruct (lookup_lt_is_Some_2 rows 99) as [x Hx]; [lia |].
  assert (Hx' : x ∈ rows) by by eapply list_elem_of_lookup_2.
  destruct (apply_info_Some d target after x Hf Hx') as (a' & Ha' & Hid).
  assert (Heq : a' = a).
  { rewrite (take_S_r rows 99 x Hx), omap_app in Hpage. cbn in Hpage. rewrite Ha' in Hpage.
    rewrite Hpage, last_snoc in Ha. congruence. }
  subst a'. rewrite Hid. rewrite (pending_rows_after d target after).
  - by apply asc_filter; [apply pending_rows_sorted | apply pending_rows_keys |].
  - destruct x as [i f]. apply rows_where_elem in Hx' as [_ Hp]. cbn in *. bool_to_prop. lia.
Qed.

Lemma apply_loop_spec fuel d target after acc :
  friends_ok weight d → (length (pending_rows d target after) < 100 * fuel)%nat →
  apply_loop fuel target after acc d [] =
    (Some (true, acc ++ omap (apply_info d) (pending_rows d target after)), d, []).
Proof.
  intros Hf. revert after acc. induction fuel as [| fuel IH]; intros after acc Hfuel; [lia |].
  cbn [apply_loop]. unfold GetApplyList at 1, with_connection, catch, mbind, Tx_bind, mret, Tx_ret, query, exec.
  cbn [tape_next]. destruct (apply_page d target after Hf) as (Hpage & Hlen & Hrest).
  set (page := apply_rows d target after kPageSize) in *. set (rows := pending_rows d target after) in *. cbn [negb].
  destruct (last page) as [a |] eqn:El.
  - destruct (zlen page <? kPageSize) eqn:Es; bool_to_prop; unfold kPageSize, zlen in Es; rewrite Hlen, length_take in Es.
    + by rewrite Hpage, take_ge by lia.
    + rewrite IH; rewrite (Hrest a eq_refl) by lia; [| rewrite length_drop; lia].
      rewrite Hpage, <- app_assoc, <- omap_app. by rewrite take_drop.
  - apply last_None in El. rewrite El in Hlen. cbn in Hlen. rewrite length_take in Hlen.
    assert (Hr : rows = []) by (destruct rows; [done | cbn in Hlen; lia]). rewrite Hr. cbn. by rewrite app_nil_r.
Qed.

(** The list of pending requests is complete and its loop terminates.
    When no query fails, [GetFriendApplyInfo] returns, and with every pending
    request to the user exactly once, oldest first, each with its requester;
    one more turn than full pages of requests is always enough. *)
Theorem GetFriendApplyInfo_complete d target fuel :
  friends_ok weight d → (length (pending_rows d target 0) < 100 * fuel)%nat →
  ∃ infos, GetFriendApplyInfo fuel target d [] = (Some (true, infos), d, []) ∧
    apply_id <$> infos = fst <$> pending_rows d target 0 ∧
    ∀ a, a ∈ infos → ∃ f, friend_requests d !! apply_id a = Some f ∧ f_target f = target ∧
      f_status f = FrPending ∧ ai_request a = ReadFriendRequest (apply_id a) f ∧ Some (ai_peer a) = user_of d (f_requester f).
Proof.
  intros Hf Hfuel. exists (omap (apply_info d) (pending_rows d target 0)). split; [by apply apply_loop_spec |].
  assert (Hall : ∀ x, x ∈ pending_rows d target 0 → ∃ a, apply_info d x = Some a ∧ apply_id a = x.1)
    by (intros x; by apply apply_info_Some).
  split.
  - clear Hfuel. induction (pending_rows d target 0) as [| x l IH]; [done |]. destruct (Hall x) as (a & Ha & Hid); [left |].
    cbn [omap list_omap]. rewrite Ha. cbn. rewrite Hid, IH; [done |]. intros y Hy. apply Hall. by right.
  - intros a ([i f] & Hx & Ha)%list_elem_of_omap. apply rows_where_elem in Hx as [Hi Hp].
    unfold apply_info in Ha. cbn in Ha. destruct (user_of d (f_requester f)) as [u |] eqn:Eu; [| done].
    injection Ha as <-. unfold pending_to in Hp. bool_to_prop. exists f. cbn. by rewrite Eu.
Qed.

End collecting.

(** One pending request, one turn of the loop. *)
Lemma GetFriendApplyInfo_complete_witness :
  ∃ infos, GetFriendApplyInfo 1 2 demo_request.1.2 [] = (Some (true, infos), demo_request.1.2, []) ∧
    apply_id <$> infos = [1].
Proof.
  destruct (GetFriendApplyInfo_complete demo_weight demo_request.1.2 2 1 (proj1 (proj2 demo_request_ok))) as (infos & H1 & H2 & _).
  - vm_compute. lia.
  - exists infos. split; [exact H1 |]. rewrite H2. vm_compute. reflexivity.
Defined.
