(* ===== verification/ChatLogic.v ===== *)
(** * The ChatServer's message handlers (ChatServer/src/LogicSystem.cpp)

    The handlers a logic worker runs for an authenticated session: their
    checks on the request, the calls of the DAO and of Redis, the replies and
    the notifications, in the order the code makes them. [None] is an
    exception that leaves a handler: neither [LogicWorker::RunLoop] nor
    anything above it catches one, so it ends the process, and what the
    [Defer] objects on the way would have sent is not relied on. *)

From S2P Require Import Prelude ProtocolIds JsonFields Sha256 PasswordHash ChatSession Database ResourceDb TxLogic ChatDb ChatDbMessages ChatFriends ChatSync ChatUsers.

(** ** What a handler acts on *)

Inductive action :=
  | Sent (msg_id : Z) (j : json)                       (* a reply on the session *)
  | PostedToUser (uid : Z) (payload : json)            (* a notification for a local user *)
  | PostedRemote (server : bytes) (uid ty mid fid : Z) (* [NotifyUserEvent] on a delivery worker *)
  | SentAndClosed (msg_id : Z) (j : json)              (* [SendAndClose] *)
  | KickedLocal (session_id : bytes) (uid : Z)         (* [NotifyOffline] of an older session *)
  | KickedRemote (server : bytes) (uid : Z).           (* [NotifyKickUser] *)

Record world := World {
  g_db : db;
  g_redis : gmap bytes bytes;
  g_sessions : gmap Z bytes;       (* [UserMgr]: the session of a user *)
  g_uid : Z;                       (* [GetUserId()] of the session *)
  g_out : list action;
}.

Definition H (A : Type) : Type := world → tape → option A * world * tape.
#[global] Instance H_ret : MRet H := λ A a w t, (Some a, w, t).
#[global] Instance H_bind : MBind H := λ A B k m w t,
  match m w t with
  | (None, w', t') => (None, w', t')
  | (Some a, w', t') => k a w' t'
  end.

Definition throw {A} : H A := λ w t, (None, w, t).

Definition hdao {A} (m : Dao A) : H A := λ w t,
  let '(a, d, t') := m (g_db w) t in
  (Some a, World d (g_redis w) (g_sessions w) (g_uid w) (g_out w), t').

Definition emit (a : action) : H unit := λ w t,
  (Some tt, World (g_db w) (g_redis w) (g_sessions w) (g_uid w) (g_out w ++ [a]), t).

(** The bytes a C string function sees. *)
Fixpoint c_str (s : bytes) : bytes :=
  match s with
  | [] => []
  | c :: s => if decide (c = x00) then [] else c :: c_str s
  end.

(** [RedisMgr::Get]: a failing command looks like a missing key. *)
Definition redis_get (k : bytes) : H (option bytes) := λ w t,
  let '(o, t') := tape_next t in
  (Some (if io_ok o then option_map c_str (g_redis w !! c_str k) else None), w, t').

(** [RedisMgr::Set]; no caller looks at its result. *)
Definition redis_set (k v : bytes) : H unit := λ w t,
  let '(o, t') := tape_next t in
  (Some tt, if io_ok o then World (g_db w) (<[c_str k := c_str v]> (g_redis w)) (g_sessions w) (g_uid w) (g_out w) else w, t').

(** A library call that fails or not: the lock, [TrySetUserId]. *)
Definition attempt : H bool := λ w t, let '(o, t') := tape_next t in (Some (io_ok o), w, t').

Definition user_id : H Z := λ w t, (Some (g_uid w), w, t).
Definition set_user_id (uid : Z) : H unit := λ w t,
  (Some tt, World (g_db w) (g_redis w) (g_sessions w) uid (g_out w), t).
Definition get_session (uid : Z) : H (option bytes) := λ w t, (Some (g_sessions w !! uid), w, t).
Definition set_session (uid : Z) (sid : bytes) : H unit := λ w t,
  (Some tt, World (g_db w) (g_redis w) (<[uid := sid]> (g_sessions w)) (g_uid w) (g_out w), t).

(** ** JSON *)

Definition fields := list (bytes * json).

(** [o[k] = v] *)
Fixpoint oset (k : bytes) (v : json) (o : fields) : fields :=
  match o with
  | [] => [(k, v)]
  | (k', v') :: o => if decide (k = k') then (k, v) :: o else (k', v') :: oset k v o
  end.

(** [o.update(e)] *)
Definition oupdate (o e : fields) : fields := foldl (λ o kv, oset kv.1 kv.2 o) o e.

Definition jcode (e : CommonErrCode) : json := JInteger (CommonErrCode_code e).
Definition jnum (z : Z) : json := JInteger z.
Definition jid (z : Z) : json := JString (ll_string z).
Definition jid_or_null (z : Z) : json := if 0 <? z then jid z else JNull.

Definition error_reply (e : CommonErrCode) : json := JObject [(§ "error", jcode e)].

(** [root[k]] on a mutable value: [None] is the exception of a value that is
    neither an object nor null; a missing key reads as null. *)
Definition at_key (root : option json) (k : bytes) : option json :=
  match root with
  | Some (JObject o) => Some (default JNull (assoc k o))
  | Some JNull => Some JNull
  | _ => None
  end.

Definition object_field (root : option json) (k : bytes) : option json :=
  match root with Some v => field v k | None => None end.

Definition string_field (root : option json) (k : bytes) : option bytes :=
  v ← object_field root k; get_string v.

(** A reply a [Defer] sends when the handler returns. *)
Definition deferred (msg_id : MsgId) (body : H fields) : H unit :=
  rt ← body; emit (Sent (MsgId_code msg_id) (JObject rt)).

(** ** Envelopes *)

Definition BuildMessageEnvelope (m : ChatMessage) : fields :=
  [(§ "event_type", jnum (message_type m))] ++
  (if 0 <? event_seq m then [(§ "event_seq", jid (event_seq m))] else []) ++
  [(§ "message_id", jid (message_id m)); (§ "client_message_id", JString (client_message_id m));
   (§ "thread_id", jid (thread_id m)); (§ "sender_user_id", jnum (sender_user_id m));
   (§ "message_type", jnum (message_type m)); (§ "created_at", JString (created_at m))] ++
  (if message_type m =? TEXT then [(§ "text_content", JString (text_content m))]
   else match resource m with
        | Some r => [(§ "original_file_name", JString (r_name r)); (§ "file_size_bytes", jid (r_size r));
                     (§ "sha256", JString (r_sha r)); (§ "mime_type", JString (r_mime r))]
        | None => []
        end).

Definition FriendRequestStatus_code (s : FriendRequestStatus) : Z :=
  match s with FrPending => 0 | FrAccepted => 1 | FrRejected => 2 end.

Definition request_event_type (r : FriendRequest) : Z :=
  match request_status r with FrAccepted => FRIEND_ACCEPT | FrRejected => FRIEND_REJECT | FrPending => FRIEND_APPLY end.

Definition peer_fields (u : UserInfo) : fields :=
  [(§ "peer_username", JString (ui_username u)); (§ "peer_nickname", JString (nickname (ui_profile u)));
   (§ "peer_avatar_key", JString (avatar_key (ui_profile u))); (§ "peer_gender", jnum (gender (ui_profile u)))].

Definition BuildFriendRequestEnvelope (r : FriendRequest) (recipient : Z) : H fields :=
  let peer_id := if recipient =? requester_user_id r then target_user_id r else requester_user_id r in
  peer ← hdao (GetUser peer_id);
  mret ([(§ "event_type", jnum (request_event_type r))] ++
        (if 0 <? request_event_seq r then [(§ "event_seq", jid (request_event_seq r))] else []) ++
        [(§ "friend_request_id", jid (friend_request_id r)); (§ "requester_user_id", jnum (requester_user_id r));
         (§ "target_user_id", jnum (target_user_id r)); (§ "client_request_id", JString (client_request_id r));
         (§ "request_message", JString (request_message r));
         (§ "status", jnum (FriendRequestStatus_code (request_status r)));
         (§ "thread_id", jid_or_null (request_thread_id r))] ++
        match peer with Some u => peer_fields u | None => [] end).

Definition BuildUserEventEnvelope (ev : UserEvent) (recipient : Z) : H fields :=
  env ← match ev_message ev with
        | Some m => mret (BuildMessageEnvelope m)
        | None => match ev_friend_request ev with
                  | Some r => BuildFriendRequestEnvelope r recipient
                  | None => mret []
                  end
        end;
  mret (oset (§ "event_seq") (jid (ev_seq ev)) (oset (§ "event_type") (jnum (ev_type ev)) env)).

(** ** Delivery *)

Definition USERIPPREFIX : bytes := § "uip_".
Definition USERTOKENPREFIX : bytes := § "utoken_".
Definition USER_SESSION_PREFIX : bytes := § "usession_".
Definition USER_BASE_INFO : bytes := § "ubaseinfo_".

Section handlers.
Context `{JsonLib} (weight : bytes → bytes) (deadlock_retries : nat) (self_name : bytes).

(** The live notification of an event; every failure is left to the next
    synchronisation. *)
Definition DeliverUserEvent (ev : UserEvent) (recipient : Z) : H unit :=
  if (ev_seq ev =? 0) || (recipient <=? 0) then mret tt
  else
    server ← redis_get (USERIPPREFIX ++ ll_string recipient);
    match server with
    | None => mret tt
    | Some server_name =>
        if bool_decide (server_name = self_name) then
          envelope ← BuildUserEventEnvelope ev recipient;
          emit (PostedToUser recipient (JObject (oset (§ "error") (jcode ERR_SUCCESS) envelope)))
        else
          let mid := match ev_message ev with Some m => message_id m | None => 0 end in
          let fid := match ev_friend_request ev with Some r => friend_request_id r | None => 0 end in
          emit (PostedRemote server_name recipient (ev_type ev) mid fid)
    end.

Definition Send (msg_id : MsgId) (j : json) : H unit := emit (Sent (MsgId_code msg_id) j).

(** ** Text messages *)

Definition kMaxClientId : Z := 64.

Record text_request := TextReq { tr_target : Z; tr_thread : json; tr_text : bytes; tr_client : bytes }.

Definition parse_text (root : option json) : option text_request :=
  target ← (v ← object_field root (§ "target_user_id"); ParseJsonUid v);
  thread ← object_field root (§ "thread_id");
  text ← string_field root (§ "text_content");
  client ← string_field root (§ "client_message_id");
  if negb (is_string thread) || bool_decide (client = []) then None
  else Some (TextReq target thread text client).

(** The two users are the members of the chat. *)
Definition members_are (pc : option (Z * Z)) (uid target : Z) : bool :=
  match pc with
  | None => false
  | Some (member1, member2) =>
      ((uid =? member1) && (target =? member2)) || ((uid =? member2) && (target =? member1))
  end.

Definition text_message (uid target tid : Z) (text client now : bytes) : ChatMessage :=
  ChatMsg 0 tid uid target client TEXT text Published now None 0.

Definition DealChatTextMsg (now : bytes) (root : option json) : H unit :=
  match parse_text root with
  | None => Send MSG_TEXT_CHAT_RSP (error_reply ERR_JSON)
  | Some req =>
      uid ← user_id;
      match ParseJsonId (tr_thread req) with
      | None => Send MSG_TEXT_CHAT_RSP (error_reply ERR_JSON)
      | Some tid =>
          members ← hdao (GetPrivateChatMembers tid);
          if negb (members_are members uid (tr_target req))
          then Send MSG_TEXT_CHAT_RSP (error_reply ERR_CREATE_CHAT_FAILED)
          else if kMaxClientId <? zlen (tr_client req)
          then Send MSG_TEXT_CHAT_RSP (error_reply ERR_JSON)
          else
            let rt := [(§ "error", jcode ERR_SUCCESS); (§ "client_message_id", JString (tr_client req))] in
            '(res, msg) ← hdao (AddChatMsg weight deadlock_retries
                                  (text_message uid (tr_target req) tid (tr_text req) (tr_client req) now));
            match res with
            | SmFailed => Send MSG_TEXT_CHAT_RSP (JObject (oset (§ "error") (jcode ERR_MESSAGE_STORE_FAILED) rt))
            | SmConflict => Send MSG_TEXT_CHAT_RSP (JObject (oset (§ "error") (jcode ERR_MESSAGE_CONFLICT) rt))
            | SmDuplicate => Send MSG_TEXT_CHAT_RSP (JObject (oupdate rt (BuildMessageEnvelope msg)))
            | SmStored =>
                Send MSG_TEXT_CHAT_RSP (JObject (oupdate rt (BuildMessageEnvelope msg)));;
                DeliverUserEvent (UserEv (event_seq msg) (message_type msg) (Some msg) None) (recipient_user_id msg)
            end
      end
  end.

(** ** Resource messages *)

(** [std::stoull]: leading white space and a sign are accepted, a negative
    number wraps; the second part is the number of characters consumed. *)
Definition stoull (s : bytes) : option (Z * Z) :=
  let s1 := skip_spaces s in
  let '(neg, s2) := match s1 with
    | c :: s2 => if bval c =? 45 then (true, s2) else if bval c =? 43 then (false, s2) else (false, s1)
    | [] => (false, [])
    end in
  let ds := take_digits s2 in
  if bool_decide (ds = []) || (uint64_max <? digits_value ds) then None
  else Some (if neg then u64 (- digits_value ds) else digits_value ds, zlen s - zlen s2 + zlen ds).

(** A size limit of the configuration; [val] is empty when it is not set. *)
Definition ReadResourceLimit (val : bytes) (fallback : Z) : Z :=
  if bool_decide (val = []) then fallback
  else match stoull val with
       | Some (n, pos) => if pos =? zlen val then n else fallback
       | None => fallback
       end.

Definition kDefaultMaxImageSize : Z := 20 * 1024 * 1024.
Definition kDefaultMaxFileSize : Z := 100 * 1024 * 1024.

Record resource_request := ResReq {
  rr_target : Z; rr_type : Z; rr_thread : Z; rr_client : bytes; rr_name : bytes; rr_sha : bytes; rr_mime : bytes }.

Definition parse_resource (root : option json) : option resource_request :=
  target ← (v ← object_field root (§ "target_user_id"); ParseJsonInt v);
  ty ← (v ← object_field root (§ "message_type"); ParseJsonInt v);
  thread ← (v ← object_field root (§ "thread_id"); ParseJsonId v);
  client ← string_field root (§ "client_message_id");
  name ← string_field root (§ "original_file_name");
  sha ← string_field root (§ "sha256");
  mime ← string_field root (§ "mime_type");
  Some (ResReq target ty thread client name sha mime).

(** A size that is not a decimal string reads as 0. *)
Definition parse_size (root : option json) : Z :=
  match string_field root (§ "file_size_bytes") with
  | None => 0
  | Some value =>
      if bool_decide (value = []) || negb (forallb isdigit value) then 0
      else default 0 (stoull_digits value)
  end.

Definition resource_message (uid : Z) (req : resource_request) (name : bytes) (size : Z) (now : bytes) : ChatMessage :=
  ChatMsg 0 (rr_thread req) uid (rr_target req) (rr_client req) (rr_type req) [] Pending now
    (Some (ResRow name size (rr_sha req) (rr_mime req))) 0.

(** The checks of the request's contents after the members are known. *)
Definition check_resource (max_image max_file : bytes) (req : resource_request) (size : Z) : CommonErrCode + bytes :=
  let is_pic := rr_type req =? PIC in
  let is_file := rr_type req =? FILE in
  if negb is_pic && negb is_file then inl ERR_RESOURCE_INVALID
  else
    let size_limit := if is_pic then ReadResourceLimit max_image kDefaultMaxImageSize
                      else ReadResourceLimit max_file kDefaultMaxFileSize in
    if (size =? 0) || (size_limit <? size) then inl ERR_RESOURCE_SIZE_EXCEEDED
    else match SanitizeFileName (rr_name req) with
    | None => inl ERR_RESOURCE_INVALID
    | Some name =>
        if negb (IsValidSha256Hex (rr_sha req)) then inl ERR_RESOURCE_INVALID
        else if negb (IsValidMimeType (rr_mime req)) then inl ERR_RESOURCE_INVALID
        else inr name
    end.

Definition DealCreateResourceMsg (max_image max_file now : bytes) (root : option json) : H unit :=
  let reject rt e := Send MSG_CREATE_RESOURCE_RSP (JObject (oset (§ "error") (jcode e) rt)) in
  match parse_resource root with
  | None => reject [] ERR_JSON
  | Some req =>
      uid ← user_id;
      if bool_decide (rr_client req = []) || (kMaxClientId <? zlen (rr_client req)) then reject [] ERR_JSON
      else
        let rt := [(§ "error", jcode ERR_SUCCESS); (§ "client_message_id", JString (rr_client req))] in
        let size := parse_size root in
        if (uid <=? 0) || (rr_target req <=? 0) then reject rt ERR_UID_INVALID
        else
          members ← hdao (GetPrivateChatMembers (rr_thread req));
          if negb (members_are members uid (rr_target req)) then reject rt ERR_CREATE_CHAT_FAILED
          else match check_resource max_image max_file req size with
          | inl e => reject rt e
          | inr name =>
              '(res, msg) ← hdao (AddChatMsg weight deadlock_retries (resource_message uid req name size now));
              match res with
              | SmFailed => reject rt ERR_MESSAGE_STORE_FAILED
              | SmConflict => reject rt ERR_MESSAGE_CONFLICT
              | _ => Send MSG_CREATE_RESOURCE_RSP (JObject (oupdate rt (BuildMessageEnvelope msg)))
              end
          end
  end.

(** ** Friends *)

Definition kMaxRequestMessage : Z := 255.

Record friend_request := FrReq { fq_target : Z; fq_message : bytes; fq_client : bytes }.

Definition parse_add_friend (root : option json) : option friend_request :=
  target ← (v ← object_field root (§ "target_user_id"); ParseJsonUid v);
  message ← match object_field root (§ "request_message") with
            | None => match root with Some (JObject _) => Some [] | _ => None end
            | Some v => get_string v
            end;
  client ← string_field root (§ "client_request_id");
  if bool_decide (client = []) then None else Some (FrReq target message client).

(** The handler [AddFriendApply]; the DAO's exception leaves it. *)
Definition AddFriendHandler (root : option json) : H unit :=
  match parse_add_friend root with
  | None => Send MSG_ADD_FRIEND_RSP (error_reply ERR_JSON)
  | Some req =>
      requester ← user_id;
      if (fq_target req <=? 0) || (fq_target req =? requester) || (kMaxClientId <? zlen (fq_client req)) ||
         (kMaxRequestMessage <? zlen (fq_message req))
      then Send MSG_ADD_FRIEND_RSP (error_reply ERR_JSON)
      else
        res ← hdao (AddFriendApply weight requester (fq_target req) (fq_message req) (fq_client req));
        match res with
        | None => throw
        | Some (FoAlreadyFriends, _) => Send MSG_ADD_FRIEND_RSP (error_reply ERR_ALREADY_FRIENDS)
        | Some (FoNotFound, _) => Send MSG_ADD_FRIEND_RSP (error_reply ERR_UID_INVALID)
        | Some (FoConflict, _) => Send MSG_ADD_FRIEND_RSP (error_reply ERR_MESSAGE_CONFLICT)
        | Some (FoFailed, _) | Some (_, None) => Send MSG_ADD_FRIEND_RSP (error_reply ERR_MESSAGE_STORE_FAILED)
        | Some (rc, Some r) =>
            env ← BuildFriendRequestEnvelope r requester;
            Send MSG_ADD_FRIEND_RSP (JObject (oupdate [(§ "error", jcode ERR_SUCCESS)] env));;
            if bool_decide (rc = FoStored) then
              DeliverUserEvent (UserEv (request_event_seq r) FRIEND_APPLY None (Some r)) (fq_target req)
            else mret tt
        end
  end.

Definition parse_action (root : option json) : option (Z * bytes) :=
  v ← object_field root (§ "friend_request_id");
  fid ← ParseJsonId v;
  act ← string_field root (§ "action");
  if fid <=? 0 then None else Some (fid, act).

Definition AuthFriendApply (root : option json) : H unit :=
  match parse_action root with
  | None => Send MSG_HANDLE_FRIEND_RSP (error_reply ERR_JSON)
  | Some (fid, act) =>
      if negb (bool_decide (act = § "accept")) && negb (bool_decide (act = § "reject"))
      then Send MSG_HANDLE_FRIEND_RSP (error_reply ERR_FRIEND_ACTION_INVALID)
      else
        let accept := bool_decide (act = § "accept") in
        uid ← user_id;
        res ← hdao (HandleFriendApply uid fid accept);
        match res with
        | None => throw
        | Some (FoStored, out) | Some (FoDuplicate, out) =>
            env ← match out_request out with
                  | Some r => BuildFriendRequestEnvelope r uid
                  | None => mret []
                  end;
            Send MSG_HANDLE_FRIEND_RSP (JObject (oupdate [(§ "error", jcode ERR_SUCCESS)] env));;
            match res, out_request out with
            | Some (FoStored, _), Some r =>
                DeliverUserEvent (UserEv (request_event_seq r) (if accept then FRIEND_ACCEPT else FRIEND_REJECT) None (Some r))
                  (requester_user_id r)
            | _, _ => mret tt
            end
        | Some (FoNotFound, _) | Some (FoForbidden, _) =>
            Send MSG_HANDLE_FRIEND_RSP (error_reply ERR_FRIEND_REQUEST_NOT_FOUND)
        | Some (FoAlreadyHandled, _) => Send MSG_HANDLE_FRIEND_RSP (error_reply ERR_FRIEND_REQUEST_HANDLED)
        | Some (FoAlreadyFriends, _) => Send MSG_HANDLE_FRIEND_RSP (error_reply ERR_ALREADY_FRIENDS)
        | Some (_, _) => Send MSG_HANDLE_FRIEND_RSP (error_reply ERR_MESSAGE_STORE_FAILED)
        end
  end.

End handlers.

(** ** Running a handler *)

Lemma hdao_run {A B} (m : Dao A) (k : A → H B) w t :
  (hdao m ≫= k) w t =
    let '(a, d, t') := m (g_db w) t in k a (World d (g_redis w) (g_sessions w) (g_uid w) (g_out w)) t'.
Proof. unfold mbind, H_bind, hdao. by destruct (m (g_db w) t) as [[? ?] ?]. Qed.

Lemma user_id_run {B} (k : Z → H B) w t : (user_id ≫= k) w t = k (g_uid w) w t.
Proof. done. Qed.

Lemma Send_run {B} ty j (k : unit → H B) w t :
  (Send ty j ≫= k) w t =
    k tt (World (g_db w) (g_redis w) (g_sessions w) (g_uid w) (g_out w ++ [Sent (MsgId_code ty) j])) t.
Proof. done. Qed.

(** ** Text messages are stored before anybody hears of them *)

Lemma assoc_oset k v o k' : assoc k' (oset k v o) = if decide (k' = k) then Some v else assoc k' o.
Proof.
  induction o as [| [k1 v1] o IH]; cbn; [done |].
  destruct (decide (k = k1)) as [-> |]; cbn; [by destruct (decide (k' = k1)) |].
  rewrite IH. destruct (decide (k' = k1)) as [-> |]; [| done]. by rewrite decide_False.
Qed.

(** A key that an update writes once. *)
Lemma assoc_oupdate o e k : NoDup (fst <$> e) → assoc k (oupdate o e) = match assoc k e with Some v => Some v | None => assoc k o end.
Proof.
  revert o. induction e as [| [k1 v1] e IH]; intros o Hnd; [done |].
  cbn in Hnd. apply NoDup_cons in Hnd as [Hnin Hnd]. cbn. unfold oupdate in IH. rewrite IH by done.
  destruct (decide (k = k1)) as [-> | Hne].
  - rewrite assoc_oset, decide_True by done. destruct (assoc k1 e) eqn:E; [| done].
    exfalso. apply Hnin. clear -E. induction e as [| [k2 v2] e IH]; [done |]. cbn in *.
    destruct (decide (k1 = k2)) as [-> |]; [left | right; by apply IH].
  - rewrite assoc_oset, (decide_False (P := k = k1)) by done. done.
Qed.

(** The fields of a text message's envelope. *)
Lemma text_envelope_fields m :
  message_type m = TEXT → 0 < event_seq m →
  NoDup (fst <$> BuildMessageEnvelope m) ∧ assoc (§ "error") (BuildMessageEnvelope m) = None ∧
  assoc (§ "message_id") (BuildMessageEnvelope m) = Some (jid (message_id m)) ∧
  assoc (§ "event_seq") (BuildMessageEnvelope m) = Some (jid (event_seq m)).
Proof.
  intros Ht Hs. unfold BuildMessageEnvelope. rewrite Ht. apply Z.ltb_lt in Hs as ->. cbn [Z.eqb app fmap list_fmap fst].
  split_and!; try reflexivity. apply (bool_decide_unpack _). vm_compute. exact I.
Qed.

Section text.
Context (weight : bytes → bytes).

(** The text is published and is the event [seq] of its recipient. *)
Definition text_stored (d : db) (uid target tid : Z) (text client : bytes) (mid seq : Z) : Prop :=
  ∃ m, chat_messages d !! mid = Some m ∧ m_sender m = uid ∧ m_thread m = tid ∧ m_type m = TEXT ∧
    default [] (m_text m) = text ∧ weight (m_client m) = weight client ∧ m_status m = Published ∧
    recipient_of d m = Some target ∧ user_events d !! (target, seq) = Some (message_event TEXT mid).

(** The message a reply describes. *)
Definition describes (c : ChatMessage) (target mid seq : Z) : Prop :=
  message_id c = mid ∧ event_seq c = seq ∧ recipient_user_id c = target ∧ message_type c = TEXT ∧ 0 < seq.

Lemma members_are_other d tid pc uid target :
  tables_ok weight d → private_chats d !! tid = Some pc → members_are (Some pc) uid target = true →
  other_member pc uid = target ∧ 0 < uid ∧ 0 < target ∧ (uid = pc.1 ∨ uid = pc.2) ∧ is_Some (users d !! target).
Proof.
  intros Hok Hpc. destruct pc as [lo hi]. pose proof (t_chats _ _ Hok _ _ _ Hpc) as (? & Hlo & Hhi). cbn.
  unfold other_member. cbn. intros Hm. apply orb_prop in Hm as [Hm | Hm]; apply andb_prop in Hm as [H1 H2]; bool_to_prop; subst.
  - rewrite decide_True by done. split_and!; try done; try lia; by left.
  - rewrite decide_False by lia. split_and!; try done; try lia; by right.
Qed.

Lemma text_duplicate d uid target tid text client now pc stored :
  tables_ok weight d → private_chats d !! tid = Some pc → members_are (Some pc) uid target = true →
  duplicated weight d (text_message uid target tid text client now) stored →
  ∃ mid seq, describes (duplicate_of d stored) target mid seq ∧ text_stored d uid target tid text client mid seq.
Proof.
  intros Hok Hpc Hm [_ Hrow Hsame]. destruct (members_are_other _ _ _ _ _ Hok Hpc Hm) as (Ho & _ & _ & _ & _).
  unfold existing_message in Hrow. cbn in Hrow. destruct (client_row weight d uid client) as [i |] eqn:Ec; [| done].
  cbn in Hrow. apply client_row_Some in Ec as (m & Hi & Hs & Hc).
  apply message_of_Some in Hrow as (m' & pc' & Hm' & Hpc' & ->). simplify_eq.
  unfold same_message, ReadMessage in Hsame. cbn in Hsame.
  destruct (is_resource_type (m_type m)) eqn:Er; [done |].
  apply andb_prop in Hsame as [Hsame Htext]. apply andb_prop in Hsame as [Hsame Hty].
  apply andb_prop in Hsame as [Hth Hsnd]. bool_to_prop. subst tid. assert (pc' = pc) as -> by congruence.
  destruct (t_messages _ _ Hok _ _ Hi) as [(Ht & Hst & _) | (Hr & _)]; [| congruence].
  destruct (t_inv _ _ Hok) as (Hg & Hpub & _).
  assert (Hrec : recipient_of d m = Some (other_member pc (m_sender m))) by (unfold recipient_of; by rewrite Hpc).
  destruct (proj1 (Hpub _ _ Hi _ Hrec) Hst) as [seq Hev].
  assert (Hpos : 0 < seq).
  { destruct (proj1 (proj1 Hg (other_member pc (m_sender m)) seq)) as (? & _ & ?); [by eexists | lia]. }
  exists i, seq. split.
  - unfold describes, duplicate_of, ReadMessage. cbn. rewrite Hst, Er. cbn [bool_decide].
    rewrite bool_decide_true by done. cbn. rewrite (event_seq_of_unique _ _ _ seq Hg Hev). by rewrite Ht.
  - exists m. rewrite <- Ht. split_and!; try done.
Qed.

Lemma text_new d uid target tid text client now pc r :
  tables_ok weight d → private_chats d !! tid = Some pc → members_are (Some pc) uid target = true →
  storable weight d (text_message uid target tid text client now) r →
  let d' := store_effect d (text_message uid target tid text client now) r in
  ∃ mid seq, describes (stored_result d (text_message uid target tid text client now) r) target mid seq ∧
    text_stored d' uid target tid text client mid seq.
Proof.
  intros Hok Hpc Hm Hst d'. destruct (members_are_other _ _ _ _ _ Hok Hpc Hm) as (Ho & _ & _ & _ & [u Hu]).
  destruct (st_chat _ _ _ _ Hst) as (pc' & Hpc' & _ & Hr). cbn in Hpc', Hr. simplify_eq.
  destruct (store_effect_row d (text_message uid (other_member pc uid) tid text client now) (other_member pc uid)) as (Hrow & Hpcs & _).
  fold d' in Hrow, Hpcs.
  assert (Hu0 : 0 <= last_event_seq u) by apply (proj2 (proj2 (proj2 (proj2 (proj2 (proj2 (t_inv _ _ Hok)))))) _ _ Hu).
  exists (next_id d), (last_event_seq u + 1). split.
  - unfold describes, stored_result. cbn. rewrite Hu. cbn. split_and!; try done. lia.
  - exists (row_of (text_message uid (other_member pc uid) tid text client now)). split_and!; try done.
    + unfold recipient_of. rewrite Hpcs. cbn. by rewrite Hpc.
    + unfold d', store_effect. cbn. rewrite (append_event_lookup _ _ _ u); [by rewrite decide_True | done].
Qed.

(** A live notification of an event of [target]. *)
Inductive notifies (target mid seq : Z) : action → Prop :=
  | notifies_local payload :
      field payload (§ "event_seq") = Some (jid seq) → field payload (§ "message_id") = Some (jid mid) →
      notifies target mid seq (PostedToUser target payload)
  | notifies_remote server : notifies target mid seq (PostedRemote server target TEXT mid 0).

Lemma DeliverUserEvent_text self_name c target mid seq w t r w' t' :
  describes c target mid seq →
  DeliverUserEvent self_name (UserEv (event_seq c) (message_type c) (Some c) None) (recipient_user_id c) w t = (r, w', t') →
  r = Some tt ∧ g_db w' = g_db w ∧
  ∃ notices, g_out w' = g_out w ++ notices ∧ (length notices <= 1)%nat ∧ Forall (notifies target mid seq) notices.
Proof.
  intros (Hmid & Hseq & Hr & Hty & Hpos). unfold DeliverUserEvent. cbn [ev_seq ev_type ev_message ev_friend_request].
  assert (Hnone : ∃ notices, g_out w = g_out w ++ notices ∧ (length notices <= 1)%nat ∧ Forall (notifies target mid seq) notices)
    by (exists []; rewrite app_nil_r; split; [done | split; [cbn; lia | done]]).
  rewrite Hr. destruct ((event_seq c =? 0) || (target <=? 0)); [by intros [= <- <- <-] |].
  unfold redis_get, mbind, H_bind. destruct (tape_next t) as [o t1].
  destruct (if io_ok o then _ else _) as [server |].
  2: by intros [= <- <- <-].
  destruct (bool_decide (server = self_name)).
  - unfold BuildUserEventEnvelope, mbind, H_bind, mret, H_ret, emit. cbn [ev_message ev_seq ev_type].
    destruct (text_envelope_fields c Hty) as (_ & _ & Hm & _); [lia |].
    generalize dependent (BuildMessageEnvelope c). intros env Hm [= <- <- <-]. split; [done |]. split; [done |]. eexists. split; [done |]. split; [cbn; lia |].
    constructor; [| constructor]. apply notifies_local; cbn [field]; rewrite !assoc_oset.
    + by rewrite decide_False, decide_True, Hseq by (done || (intros E; vm_compute in E; discriminate)).
    + rewrite !decide_False by (intros E; vm_compute in E; discriminate). by rewrite Hm, Hmid.
  - unfold emit. intros [= <- <- <-]. split; [done |]. split; [done |]. eexists. split; [done |]. split; [cbn; lia |].
    constructor; [| constructor]. rewrite Hmid, Hty. constructor.
Qed.

(** An object with an error code. *)
Definition is_reply (rsp : json) : Prop := ∃ o e, rsp = JObject o ∧ assoc (§ "error") o = Some (jcode e).

(** What the handler of a text message leaves behind. *)
Record text_answer (w : world) (root : option json) (w' : world) (rsp : json) (notices : list action) : Prop := {
  ta_tables : tables_ok weight (g_db w');
  ta_out : g_out w' = g_out w ++ Sent (MsgId_code MSG_TEXT_CHAT_RSP) rsp :: notices;
  ta_reply : is_reply rsp;
  ta_one : (length notices <= 1)%nat;
  ta_order : notices ≠ [] → field rsp (§ "error") = Some (jcode ERR_SUCCESS);
  ta_stored : field rsp (§ "error") = Some (jcode ERR_SUCCESS) → ∃ req tid mid seq,
    parse_text root = Some req ∧ ParseJsonId (tr_thread req) = Some tid ∧
    field rsp (§ "message_id") = Some (jid mid) ∧ field rsp (§ "event_seq") = Some (jid seq) ∧
    text_stored (g_db w') (g_uid w) (tr_target req) tid (tr_text req) (tr_client req) mid seq ∧
    Forall (notifies (tr_target req) mid seq) notices;
}.

Lemma text_rejected w root w1 t1 j r w' t' :
  tables_ok weight (g_db w1) → g_out w1 = g_out w → is_reply j → field j (§ "error") ≠ Some (jcode ERR_SUCCESS) →
  Send MSG_TEXT_CHAT_RSP j w1 t1 = (r, w', t') → r = Some tt ∧ ∃ rsp notices, text_answer w root w' rsp notices.
Proof.
  intros Hok Hout Hr Hj [= <- <- <-]. split; [done |]. exists j, []. constructor; cbn [g_db g_out]; try done.
  - by rewrite Hout.
  - cbn. lia.
Qed.

(** What [AddChatMsg] reports of a text to the handler. *)
Lemma AddChatMsg_text k uid target tid text client now pc d t rc c d' t' :
  tables_ok weight d → private_chats d !! tid = Some pc → members_are (Some pc) uid target = true →
  AddChatMsg weight k (text_message uid target tid text client now) d t = ((rc, c), d', t') →
  tables_ok weight d' ∧
  (rc = SmStored ∨ rc = SmDuplicate → ∃ mid seq, describes c target mid seq ∧ text_stored d' uid target tid text client mid seq).
Proof.
  intros Hok Hpc Hm Ha%AddChatMsg_spec. destruct Ha as [(Hs & Hne & Hdu) | (d0 & r0 & Hs & Hst & -> & Hrc)].
  - assert (Hok' : tables_ok weight d') by by eapply tables_ok_same_rows. split; [done |].
    assert (Hp' : private_chats d' !! tid = Some pc) by (destruct Hs as [_ ->]; done).
    intros [-> | ->]; [done |]. destruct (Hdu eq_refl) as (stored & Hd & ->). by eapply text_duplicate.
  - assert (Hok0 : tables_ok weight d0) by by eapply tables_ok_same_rows. split; [by apply store_effect_ok |].
    assert (Hp0 : private_chats d0 !! tid = Some pc) by (destruct Hs as [_ ->]; done).
    destruct Hrc as [-> | [-> ->]]; [intros [|]; done |]. intros _. by eapply text_new.
Qed.

Lemma error_reply_is_reply e : is_reply (error_reply e).
Proof. by eexists _, e. Qed.

Lemma oset_is_reply e o : is_reply (JObject (oset (§ "error") (jcode e) o)).
Proof. eexists _, e. split; [done |]. by rewrite assoc_oset, decide_True. Qed.

#[local] Hint Resolve error_reply_is_reply oset_is_reply : chat.

Lemma field_is_reply o e : field (JObject o) (§ "error") = Some (jcode e) → is_reply (JObject o).
Proof. by exists o, e. Qed.

Lemma text_reply_fields client c target mid seq :
  describes c target mid seq →
  let rsp := JObject (oupdate [(§ "error", jcode ERR_SUCCESS); (§ "client_message_id", JString client)] (BuildMessageEnvelope c)) in
  field rsp (§ "error") = Some (jcode ERR_SUCCESS) ∧ field rsp (§ "message_id") = Some (jid mid) ∧
  field rsp (§ "event_seq") = Some (jid seq).
Proof.
  intros (<- & <- & _ & Hty & Hpos). destruct (text_envelope_fields c Hty Hpos) as (Hnd & He & Hm & Hs).
  cbn [field]. rewrite !assoc_oupdate by done. by rewrite He, Hm, Hs.
Qed.

(** A text message is stored before its sender or its recipient hears of it.
    Whatever fails, the handler ends without an exception, keeps the tables
    consistent and sends exactly one reply, before anything else. A reply of
    success means that the text is in the tables as sent by the user of the
    session, whatever the request says about the sender, published in a chat
    of this user with the addressee and listed as the addressee's event with
    the number the reply carries. At most one notification follows, only
    after such a reply and only for the addressee. *)
Lemma DealChatTextMsg_spec k self_name now root w t r w' t' :
  tables_ok weight (g_db w) →
  DealChatTextMsg weight k self_name now root w t = (r, w', t') →
  r = Some tt ∧ ∃ rsp notices, text_answer w root w' rsp notices.
Proof.
  intros Hok. unfold DealChatTextMsg.
  destruct (parse_text root) as [req |] eqn:Ep; [| by apply text_rejected; auto with chat].
  rewrite user_id_run. destruct (ParseJsonId (tr_thread req)) as [tid |] eqn:Et; [| by apply text_rejected; auto with chat].
  rewrite hdao_run.
  destruct (GetPrivateChatMembers tid (g_db w) t) as [[pc d1] t1] eqn:Em.
  apply GetPrivateChatMembers_spec in Em as [-> Hpc].
  destruct (members_are pc (g_uid w) (tr_target req)) eqn:Emem; cbn [negb]; [| by apply text_rejected; auto with chat].
  destruct pc as [pc |]; [| done]. specialize (Hpc _ eq_refl).
  destruct (kMaxClientId <? zlen (tr_client req)); [by apply text_rejected; auto with chat |].
  rewrite hdao_run. cbn [g_db g_redis g_sessions g_uid g_out].
  destruct (AddChatMsg weight k _ (g_db w) t1) as [[[rc c] d2] t2] eqn:Ea.
  destruct (AddChatMsg_text _ _ _ _ _ _ _ _ _ _ _ _ _ _ Hok Hpc Emem Ea) as [Hok2 Htrue]. clear Ea.
  destruct rc; cbn [g_redis g_sessions g_uid g_out]; [| | by apply text_rejected; auto with chat | by apply text_rejected; auto with chat].
  - destruct (Htrue ltac:(by left)) as (mid & seq & Hd & Hs).
    destruct (text_reply_fields (tr_client req) c _ _ _ Hd) as (Hf1 & Hf2 & Hf3).
    remember (JObject (oupdate _ (BuildMessageEnvelope c))) as rsp eqn:Ersp.
    rewrite Send_run. cbn [g_db g_redis g_sessions g_uid g_out]. intros Hrun.
    destruct (DeliverUserEvent_text _ _ _ _ _ _ _ _ _ _ Hd Hrun) as (-> & Hdb & notices & Hout & Hone & Hall).
    cbn [g_db g_out] in Hdb, Hout. split; [done |]. exists rsp, notices. constructor; try done.
    + by rewrite Hdb.
    + by rewrite Hout, <- app_assoc.
    + rewrite Ersp in Hf1 |- *. by eapply field_is_reply.
    + intros _. exists req, tid, mid, seq. by rewrite Hdb.
  - destruct (Htrue ltac:(by right)) as (mid & seq & Hd & Hs).
    destruct (text_reply_fields (tr_client req) c _ _ _ Hd) as (Hf1 & Hf2 & Hf3).
    remember (JObject (oupdate _ (BuildMessageEnvelope c))) as rsp eqn:Ersp.
    unfold Send, emit. cbn [g_db g_redis g_sessions g_uid g_out]. intros [= <- <- <-]. split; [done |].
    exists rsp, []. constructor; cbn [g_db g_out]; try done; [rewrite Ersp in Hf1 |- *; by eapply field_is_reply | cbn; lia |].
    intros _. exists req, tid, mid, seq. split_and!; try done.
Qed.
End text.

(** ** A concrete run *)

Definition demo_world (d : db) (uid : Z) : world := World d {[ § "uip_2" := § "chat1" ]} ∅ uid [].

Definition demo_text_request : option json :=
  Some (JObject [(§ "target_user_id", JUnsigned 2); (§ "thread_id", JString (§ "5"));
                 (§ "text_content", JString (§ "hi")); (§ "client_message_id", JString (§ "c7"))]).
