(* ===== verification/ChatHandlers.v ===== *)
(** * The ChatServer's queries, login and dispatch (ChatServer/src/LogicSystem.cpp)

    The handlers that read: user search, conversations, messages and the
    offline synchronisation; the login of a session; and the dispatch of a
    client's message to its handler. *)

From S2P Require Import Prelude ProtocolIds JsonFields Sha256 PasswordHash ChatSession Database ResourceDb TxLogic ChatDb ChatDbMessages ChatFriends ChatSync ChatUsers ChatLogic.

#[local] Arguments zlen {_} _ : simpl never.

(** ** Numbers in text *)

(** [std::stoi]: the number and the characters consumed; [None] is an
    exception. *)
Definition stoi (s : bytes) : option (Z * Z) :=
  let s1 := skip_spaces s in
  let '(neg, s2) := match s1 with
    | c :: s2 => if bval c =? 45 then (true, s2) else if bval c =? 43 then (false, s2) else (false, s1)
    | [] => (false, [])
    end in
  let ds := take_digits s2 in
  let n := if neg then - digits_value ds else digits_value ds in
  if bool_decide (ds = []) || (n <? - 2 ^ 31) || (int_max <? n) then None
  else Some (n, zlen s - zlen s2 + zlen ds).

(** The number of workers; [val] is empty when it is not set. *)
Definition ReadWorkerCount (val : bytes) : Z :=
  if bool_decide (val = []) then 4
  else match stoi val with
       | Some (n, pos) => if (pos =? zlen val) && (0 <? n) && (n <=? 64) then n else 4
       | None => 4
       end.

(** ** Users *)

(** The object cached under [USER_BASE_INFO] and [NAME_INFO]. *)
Definition user_json (uid : Z) (u : UserInfo) : fields :=
  [(§ "uid", jnum uid); (§ "name", JString (ui_username u)); (§ "email", JString (ui_email u));
   (§ "nick", JString (nickname (ui_profile u))); (§ "desc", JString (profile_bio (ui_profile u)));
   (§ "sex", jnum (gender (ui_profile u))); (§ "icon", JString (avatar_key (ui_profile u)))].

(** Reading it back; [None] is an exception. *)
Definition read_cached (root : option json) : option UserInfo :=
  uid ← (v ← at_key root (§ "uid"); get_int v);
  name ← (v ← at_key root (§ "name"); get_string v);
  email ← (v ← at_key root (§ "email"); get_string v);
  nick ← (v ← at_key root (§ "nick"); get_string v);
  desc ← (v ← at_key root (§ "desc"); get_string v);
  sex ← (v ← at_key root (§ "sex"); get_int v);
  icon ← (v ← at_key root (§ "icon"); get_string v);
  Some (User uid name email (Profile nick desc sex icon)).

Definition NAME_INFO : bytes := § "nameinfo_".
Definition LOCK_PREFIX : bytes := § "lock_".

Definition or_throw {A} (o : option A) : H A := match o with Some a => mret a | None => throw end.

Section handlers.
Context `{JsonLib} (weight : bytes → bytes) (self_name : bytes).

Definition isPureDigit (s : bytes) : bool := forallb isdigit s.

Definition success_fields : fields := [(§ "error", jcode ERR_SUCCESS)].

(** The part [GetUserByUid] and [GetUserByName] share: the answer from the
    cache, or from the database and then cached. *)
Definition answer_user (base_key : bytes) (load : H (option UserInfo)) : H fields :=
  info ← redis_get base_key;
  match info with
  | Some info_str =>
      u ← or_throw (read_cached (json_parse info_str));
      mret (oupdate success_fields (user_json (ui_id u) u))
  | None =>
      user_info ← load;
      match user_info with
      | None => mret (oset (§ "error") (jcode ERR_UID_INVALID) success_fields)
      | Some u =>
          redis_set base_key (json_dump (JObject (user_json (ui_id u) u)));;
          mret (oupdate success_fields (user_json (ui_id u) u))
      end
  end.

Definition GetUserByUid (uid_str : bytes) : H fields :=
  answer_user (USER_BASE_INFO ++ uid_str)
    (uid ← or_throw (stoi uid_str); hdao (GetUser uid.1)).

Definition GetUserByName (name : bytes) : H fields :=
  answer_user (NAME_INFO ++ name) (hdao (GetUser_by_name weight name)).

Definition SearchInfo (root : option json) : H unit :=
  uid_str ← or_throw (v ← at_key root (§ "uid"); get_string v);
  deferred MSG_SEARCH_USER_RSP
    (if isPureDigit uid_str then GetUserByUid uid_str else GetUserByName uid_str).

(** Whether the user exists, and its data. *)
Definition GetBaseInfo (base_key : bytes) (uid : Z) : H (option UserInfo) :=
  info ← redis_get base_key;
  match info with
  | Some info_str => u ← or_throw (read_cached (json_parse info_str)); mret (Some u)
  | None =>
      user_info ← hdao (GetUser uid);
      match user_info with
      | None => mret None
      | Some u =>
          redis_set base_key (json_dump (JObject (user_json uid u)));;
          mret (Some u)
      end
  end.

(** ** Conversations *)

Definition thread_json (th : ChatThreadInfo) : json :=
  JObject [(§ "thread_id", jid (th_id th)); (§ "lower_user_id", jnum (th_lower th));
           (§ "higher_user_id", jnum (th_higher th)); (§ "last_message_id", jid (th_last th))].

(** [rt[k].push_back(...)] for each element: no element, no field. *)
Definition push_all (k : bytes) (l : list json) (rt : fields) : fields :=
  if bool_decide (l = []) then rt else oset k (JArray l) rt.

Definition page_size : Z := 10.

Definition GetUserThreadsHandler (root : option json) : H unit :=
  uid ← user_id;
  let rt := [(§ "error", jcode ERR_SUCCESS); (§ "uid", jnum uid)] in
  deferred MSG_LOAD_CHAT_THREAD_RSP
    (v ← or_throw (at_key root (§ "thread_id"));
     match ParseJsonId v with
     | None => mret (oset (§ "error") (jcode ERR_JSON) rt)
     | Some last_id =>
         '(ok, (threads, more, next)) ← hdao (GetUserThreads uid last_id page_size);
         if negb ok then mret (oset (§ "error") (jcode ERR_UID_INVALID) rt)
         else mret (push_all (§ "threads") (thread_json <$> threads)
                      (rt ++ [(§ "load_more", JBool more); (§ "next_last_id", jid next)]))
     end).

Definition private_target (root : option json) : option Z :=
  v ← object_field root (§ "target_user_id");
  if is_number_integer v then get_int v else None.

(** The handler [CreatePrivateChat]. *)
Definition CreateChatHandler (root : option json) : H unit :=
  uid ← user_id;
  deferred MSG_CREATE_PRIVATE_CHAT_RSP
    (match private_target root with
     | None => mret (oset (§ "error") (jcode ERR_JSON) success_fields)
     | Some target =>
         if (uid <=? 0) || (target <=? 0) || (uid =? target)
         then mret (oset (§ "error") (jcode ERR_UID_INVALID) success_fields)
         else
           let rt := success_fields ++ [(§ "target_user_id", jnum target)] in
           '(ok, tid) ← hdao (CreatePrivateChat uid target);
           if negb ok then mret (oset (§ "error") (jcode ERR_CREATE_CHAT_FAILED) rt)
           else mret (rt ++ [(§ "thread_id", jid tid)])
     end).

(** The cursor of [LoadChatMsg]: absent is 0, [None] is an error. *)
Definition before_cursor (root : option json) : option Z :=
  match object_field root (§ "before_message_id") with
  | None => Some 0
  | Some v => ParseJsonId v
  end.

Definition LoadChatMsgHandler (root : option json) : H unit :=
  deferred MSG_LOAD_CHAT_MSG_RSP
    (v ← or_throw (at_key root (§ "thread_id"));
     match ParseJsonId v, before_cursor root with
     | Some tid, Some before =>
         let rt := success_fields ++ [(§ "thread_id", jid tid)] in
         uid ← user_id;
         res ← hdao (LoadChatMsg uid tid before page_size);
         match res with
         | None => mret (oset (§ "error") (jcode ERR_LOAD_CHAT_FAILED) rt)
         | Some page =>
             mret (push_all (§ "messages") ((λ m, JObject (BuildMessageEnvelope m)) <$> page_messages page)
                     (rt ++ [(§ "next_message_id", jid (next_cursor page)); (§ "load_more", JBool (load_more page))]))
         end
     | _, _ => mret (oset (§ "error") (jcode ERR_JSON) success_fields)
     end).

Definition HeartBeatHandler : H unit := Send MSG_HEARTBEAT_RSP (JObject success_fields).

(** ** Offline synchronisation *)

(** The cursor of a request: absent is 0, [None] is an error. *)
Definition sync_cursor (root : json) : option Z :=
  match field root (§ "after_event_seq") with
  | None => Some 0
  | Some v =>
      value ← get_string v;
      if bool_decide (value = []) || negb (forallb isdigit value) then None else stoull_digits value
  end.

Definition sync_limit (root : json) : option Z :=
  match field root (§ "limit") with
  | None => Some 100
  | Some v => n ← ParseJsonInt v; Some (Z.min 200 (Z.max 1 n))
  end.

Fixpoint build_events (rows : list UserEvent) (uid : Z) : H (list json) :=
  match rows with
  | [] => mret []
  | row :: rows =>
      env ← BuildUserEventEnvelope row uid;
      rest ← build_events rows uid;
      mret (JObject env :: rest)
  end.

Definition DealSyncMessage (root : option json) : H unit :=
  let reject e := Send MSG_SYNC_USER_MESSAGE_RSP (error_reply e) in
  match root with
  | Some (JObject o) =>
      match sync_cursor (JObject o), sync_limit (JObject o) with
      | Some after, Some lim =>
          uid ← user_id;
          '(ok, head) ← hdao (GetLastEventSeq uid);
          if negb ok then reject ERR_MESSAGE_STORE_FAILED
          else if head <? after then reject ERR_SYNC_CURSOR_INVALID
          else
            '(ok, rows) ← hdao (GetEventsAfterSeq uid after lim);
            if negb ok then reject ERR_MESSAGE_STORE_FAILED
            else
              let has_more := lim <? zlen rows in
              let rows := if has_more then removelast rows else rows in
              events ← build_events rows uid;
              Send MSG_SYNC_USER_MESSAGE_RSP
                (JObject [(§ "error", jcode ERR_SUCCESS); (§ "events", JArray events);
                          (§ "next_event_seq", jid (match last rows with Some r => ev_seq r | None => after end));
                          (§ "has_more", JBool has_more)])
      | _, _ => reject ERR_JSON
      end
  | _ => reject ERR_JSON
  end.
(** ** Login *)

Definition apply_json (a : ApplyInfo) : json :=
  let r := ai_request a in
  JObject ([(§ "friend_request_id", jid (friend_request_id r)); (§ "requester_user_id", jnum (requester_user_id r));
            (§ "target_user_id", jnum (target_user_id r)); (§ "request_message", JString (request_message r));
            (§ "status", jnum (FriendRequestStatus_code (request_status r)));
            (§ "thread_id", jid_or_null (request_thread_id r))] ++ peer_fields (ai_peer a)).

Definition contact_json (c : ContactInfo) : json :=
  let u := ci_user c in
  JObject [(§ "user_id", jnum (ui_id u)); (§ "username", JString (ui_username u));
           (§ "nickname", JString (nickname (ui_profile u))); (§ "avatar_key", JString (avatar_key (ui_profile u)));
           (§ "gender", jnum (gender (ui_profile u))); (§ "thread_id", jid_or_null (ci_thread c))].

(** Turns that are enough for the pages of pending requests: one per request
    and one more. *)
Definition apply_fuel (d : db) : nat := S (size (friend_requests d)).

Definition collect_applies (uid : Z) : H (option (bool * list ApplyInfo)) := λ w t,
  hdao (GetFriendApplyInfo (apply_fuel (g_db w)) uid) w t.

(** [uid] and [token]; [None] is any exception of the [try] block. *)
Definition parse_login (root : option json) : option (Z * bytes) :=
  uid ← (v ← object_field root (§ "uid"); get_int v);
  token ← string_field root (§ "token");
  Some (uid, token).

(** The response from the database, and whether it is complete. *)
Definition login_data (uid : Z) (u : UserInfo) : H (fields * bool) :=
  let rt := [(§ "error", jcode ERR_SUCCESS); (§ "uid", jnum uid); (§ "name", JString (ui_username u));
             (§ "email", JString (ui_email u)); (§ "nick", JString (nickname (ui_profile u)));
             (§ "desc", JString (profile_bio (ui_profile u))); (§ "sex", jnum (gender (ui_profile u)));
             (§ "icon", JString (avatar_key (ui_profile u)))] in
  let fail rt := mret (oset (§ "error") (jcode ERR_MESSAGE_STORE_FAILED) rt, false) in
  '(ok, checkpoint) ← hdao (GetLastEventSeq uid);
  if negb ok then fail rt
  else
    let rt := rt ++ [(§ "checkpoint", jid checkpoint); (§ "apply_list", JArray []); (§ "friend_list", JArray [])] in
    applies ← collect_applies uid;
    match applies with
    | None => throw
    | Some (false, _) => fail rt
    | Some (true, applies) =>
        let rt := oset (§ "apply_list") (JArray (apply_json <$> applies)) rt in
        '(ok, contacts) ← hdao (GetFriendList uid);
        if negb ok then fail rt
        else mret (oset (§ "friend_list") (JArray (contact_json <$> contacts)) rt, true)
    end.

(** The session that is still registered for the user is told to go. *)
Definition kick_old (uid : Z) (self_id : bytes) : H unit :=
  uid_ip ← redis_get (USERIPPREFIX ++ ll_string uid);
  match uid_ip with
  | None => mret tt
  | Some server =>
      if bool_decide (server = self_name) then
        old ← get_session uid;
        match old with
        | Some sid => if bool_decide (sid = self_id) then mret tt else emit (KickedLocal sid uid)
        | None => mret tt
        end
      else emit (KickedRemote server uid)
  end.

(** The part under the login lock. The first [attempt] is [acquireLock], the
    second one [TrySetUserId]. *)
Definition login_bind (uid : Z) (self_id : bytes) (rt : fields) : H fields :=
  let fail := mret (oset (§ "error") (jcode ERR_RPC_FAILED) rt) in
  locked ← attempt;
  if negb locked then fail
  else
    kick_old uid self_id;;
    bound ← attempt;
    if negb bound then fail
    else
      set_user_id uid;;
      redis_set (USERIPPREFIX ++ ll_string uid) self_name;;
      set_session uid self_id;;
      redis_set (USER_SESSION_PREFIX ++ ll_string uid) self_id;;
      mret rt.

Definition LoginHandler (self_id : bytes) (root : option json) : H unit :=
  let fail e := mret [(§ "error", jcode e)] in
  deferred MSG_CHAT_LOGIN_RSP
    (match parse_login root with
     | None => fail ERR_TOKEN_INVALID
     | Some (uid, token) =>
         stored ← redis_get (USERTOKENPREFIX ++ ll_string uid);
         if negb (bool_decide (stored = Some token)) then fail ERR_TOKEN_INVALID
         else
           user ← GetBaseInfo (USER_BASE_INFO ++ ll_string uid) uid;
           match user with
           | None => fail ERR_UID_INVALID
           | Some u =>
               '(rt, complete) ← login_data uid u;
               if (complete : bool) then login_bind uid self_id rt else mret rt
           end
     end).
End handlers.

(** ** Dispatch *)

Section dispatch.
Context `{JsonLib} (weight : bytes → bytes) (deadlock_retries : nat) (self_name : bytes) (max_image max_file : bytes).

(** The handler [RegisterCallBacks] installs for a message type. *)
Definition run_handler (q : MsgId) (self_id now : bytes) (root : option json) : H unit :=
  match q with
  | MSG_CHAT_LOGIN => LoginHandler self_name self_id root
  | MSG_SEARCH_USER_REQ => SearchInfo weight root
  | MSG_ADD_FRIEND_REQ => AddFriendHandler weight self_name root
  | MSG_HANDLE_FRIEND_REQ => AuthFriendApply self_name root
  | MSG_TEXT_CHAT_REQ => DealChatTextMsg weight deadlock_retries self_name now root
  | MSG_HEART_BEAT_REQ => HeartBeatHandler
  | MSG_LOAD_CHAT_THREAD_REQ => GetUserThreadsHandler root
  | MSG_CREATE_PRIVATE_CHAT_REQ => CreateChatHandler root
  | MSG_LOAD_CHAT_MSG_REQ => LoadChatMsgHandler root
  | MSG_CREATE_RESOURCE_REQ => DealCreateResourceMsg weight deadlock_retries max_image max_file now root
  | MSG_SYNC_USER_MESSAGE_REQ => DealSyncMessage root
  | _ => mret tt
  end.

(** [is_open] and [routing_uid] are what the session says when the worker
    runs the message; a type without a handler is ignored. *)
Definition DispatchClientMessage (is_open : bool) (routing_uid : Z) (self_id now : bytes)
    (msg_type : Z) (msg_data : bytes) : H unit :=
  if negb is_open then mret tt
  else
    user_uid ← user_id;
    let run := match List.find (λ q, MsgId_code q =? msg_type) Chat.RegisterCallBacks with
               | Some q => run_handler q self_id now (json_parse msg_data)
               | None => mret tt
               end in
    if msg_type =? MsgId_code MSG_CHAT_LOGIN then
      if negb (user_uid =? 0)
      then emit (SentAndClosed (MsgId_code MSG_CHAT_LOGIN_RSP) (error_reply ERR_UID_INVALID))
      else run
    else if (user_uid =? 0) || negb (user_uid =? routing_uid) then
      let rsp_id := Chat.ReqToRspId msg_type in
      if negb (rsp_id =? 0) then emit (Sent rsp_id (error_reply ERR_UID_INVALID)) else mret tt
    else run.
End dispatch.

(** ** Requests that end the process *)

Lemma take_digits_all s : forallb isdigit s = true → take_digits s = s.
Proof.
  induction s as [| c s IH]; [done |]. cbn. intros [Hc Hs]%andb_prop. rewrite Hc. by rewrite IH.
Qed.

(** [std::stoi] on digits. *)
Lemma stoi_digits s :
  s ≠ [] → forallb isdigit s = true →
  stoi s = if int_max <? digits_value s then None else Some (digits_value s, zlen s).
Proof.
  intros Hne Hd. destruct s as [| c s]; [done |]. pose proof (digits_value_nonneg (c :: s) Hd) as Hpos.
  assert (Hc : 48 <= bval c <= 57).
  { cbn in Hd. apply andb_prop in Hd as [Hd _]. unfold isdigit in Hd. bool_to_prop. lia. }
  unfold stoi. cbn [skip_spaces]. replace (isspace c) with false
    by (symmetry; unfold isspace; rewrite ?orb_false_iff, ?andb_false_iff; bool_to_prop; lia).
  rewrite !(proj2 (Z.eqb_neq _ _)) by lia. rewrite (take_digits_all (c :: s) Hd).
  rewrite bool_decide_eq_false_2 by done. cbn [orb]. rewrite (proj2 (Z.ltb_ge _ _)) by lia.
  cbn [orb]. destruct (int_max <? digits_value (c :: s)); [done |]. f_equal. f_equal. lia.
Qed.

Section escapes.
Context `{JsonLib} (weight : bytes → bytes) (deadlock_retries : nat) (self_name : bytes) (max_image max_file : bytes).

Abbreviation dispatch := (DispatchClientMessage weight deadlock_retries self_name max_image max_file).

(** The response of a handler to a body it cannot use. *)
Definition answers_json_error (q : MsgId) : bool :=
  bool_decide (q ∈ [MSG_ADD_FRIEND_REQ; MSG_HANDLE_FRIEND_REQ; MSG_TEXT_CHAT_REQ; MSG_CREATE_PRIVATE_CHAT_REQ;
                    MSG_CREATE_RESOURCE_REQ; MSG_SYNC_USER_MESSAGE_REQ]).

(** The handlers that read a field before they know that it is there. *)
Definition reads_unchecked (q : MsgId) : bool :=
  bool_decide (q ∈ [MSG_SEARCH_USER_REQ; MSG_LOAD_CHAT_THREAD_REQ; MSG_LOAD_CHAT_MSG_REQ]).

Definition with_out (w : world) (a : action) : world :=
  World (g_db w) (g_redis w) (g_sessions w) (g_uid w) (g_out w ++ [a]).

Lemma dispatch_authenticated w t q self_id now body :
  q ∈ Chat.RegisterCallBacks → q ≠ MSG_CHAT_LOGIN → g_uid w ≠ 0 →
  dispatch true (g_uid w) self_id now (MsgId_code q) body w t =
    run_handler weight deadlock_retries self_name max_image max_file q self_id now (json_parse body) w t.
Proof.
  intros Hq Hl Hu. unfold DispatchClientMessage. cbn [negb]. unfold user_id, mbind, H_bind. cbn [g_uid].
  assert (Hf : List.find (λ r, MsgId_code r =? MsgId_code q) Chat.RegisterCallBacks = Some q).
  { revert Hq. clear. destruct q; intros Hq; try reflexivity; exfalso;
      apply (bool_decide_eq_true_2 _) in Hq; vm_compute in Hq; discriminate. }
  rewrite Hf, (proj2 (Z.eqb_neq (MsgId_code q) (MsgId_code MSG_CHAT_LOGIN))) by (intros E; by apply MsgId_code_inj in E).
  by rewrite (proj2 (Z.eqb_neq (g_uid w) 0)), Z.eqb_refl by done.
Qed.

(** C33: a body that is no JSON ends the process for three request types.
    Of the requests an authenticated session may send, six answer a body that
    does not parse with one error reply and touch nothing; the user search
    and the two history requests read a field of the parsed value first, and
    the exception leaves the handler whatever the rest of the system does.
    A search for a number of more than ten digits escapes in the same way
    once the cache does not know it. *)
Theorem malformed_request_escapes w t q self_id now body :
  q ∈ Chat.RegisterCallBacks → q ≠ MSG_CHAT_LOGIN → g_uid w ≠ 0 →
  (json_parse body = None → answers_json_error q = true →
     dispatch true (g_uid w) self_id now (MsgId_code q) body w t =
       (Some tt, with_out w (Sent (MsgId_code q + 1) (error_reply ERR_JSON)), t)) ∧
  (json_parse body = None → reads_unchecked q = true →
     dispatch true (g_uid w) self_id now (MsgId_code q) body w t = (None, w, t)) ∧
  (∀ digits, q = MSG_SEARCH_USER_REQ → json_parse body = Some (JObject [(§ "uid", JString digits)]) →
     isPureDigit digits = true → digits ≠ [] → int_max < digits_value digits →
     g_redis w !! c_str (USER_BASE_INFO ++ digits) = None →
     (dispatch true (g_uid w) self_id now (MsgId_code q) body w t).1.1 = None).
Proof.
  intros Hq Hl Hu. rewrite dispatch_authenticated by done. split; [| split].
  - intros -> Ha. apply bool_decide_eq_true in Ha. rewrite !elem_of_cons in Ha.
    destruct Ha as [-> | [-> | [-> | [-> | [-> | [-> | Ha]]]]]]; try reflexivity. by apply elem_of_nil in Ha.
  - intros -> Ha. apply bool_decide_eq_true in Ha. rewrite !elem_of_cons in Ha.
    destruct Ha as [-> | [-> | [-> | Ha]]]; try reflexivity. by apply elem_of_nil in Ha.
  - intros digits -> -> Hd Hne Hbig Hredis. cbn [run_handler]. unfold SearchInfo, deferred, or_throw, mbind, H_bind.
    cbn [at_key assoc]. rewrite decide_True by done. cbn. rewrite Hd.
    unfold GetUserByUid, answer_user, redis_get, mbind, H_bind, mret, H_ret.
    assert (Hstoi : stoi digits = None) by (rewrite stoi_digits by done; by apply Z.ltb_lt in Hbig as ->).
    destruct (tape_next t) as [o t']. rewrite Hstoi, Hredis.
    by destruct (io_ok o).
Qed.
End escapes.

(** ** A page of the synchronisation *)

Section synchronisation.
Context (weight : bytes → bytes).

(** The envelopes when no query fails. *)
Definition request_envelope (d : db) (r : FriendRequest) (recipient : Z) : fields :=
  [(§ "event_type", jnum (request_event_type r))] ++
  (if 0 <? request_event_seq r then [(§ "event_seq", jid (request_event_seq r))] else []) ++
  [(§ "friend_request_id", jid (friend_request_id r)); (§ "requester_user_id", jnum (requester_user_id r));
   (§ "target_user_id", jnum (target_user_id r)); (§ "client_request_id", JString (client_request_id r));
   (§ "request_message", JString (request_message r)); (§ "status", jnum (FriendRequestStatus_code (request_status r)));
   (§ "thread_id", jid_or_null (request_thread_id r))] ++
  match user_of d (if recipient =? requester_user_id r then target_user_id r else requester_user_id r) with
  | Some u => peer_fields u
  | None => []
  end.

Definition event_envelope (d : db) (recipient : Z) (ev : UserEvent) : fields :=
  oset (§ "event_seq") (jid (ev_seq ev)) (oset (§ "event_type") (jnum (ev_type ev))
    match ev_message ev with
    | Some m => BuildMessageEnvelope m
    | None => match ev_friend_request ev with Some r => request_envelope d r recipient | None => [] end
    end).

Lemma GetUser_run w uid : hdao (GetUser uid) w [] = (Some (user_of (g_db w) uid), w, []).
Proof. by destruct w. Qed.

Lemma BuildFriendRequestEnvelope_run w r uid :
  BuildFriendRequestEnvelope r uid w [] = (Some (request_envelope (g_db w) r uid), w, []).
Proof. unfold BuildFriendRequestEnvelope, mbind, H_bind. by rewrite GetUser_run. Qed.

Lemma BuildUserEventEnvelope_run w ev uid :
  BuildUserEventEnvelope ev uid w [] = (Some (event_envelope (g_db w) uid ev), w, []).
Proof.
  unfold BuildUserEventEnvelope, event_envelope, mbind, H_bind.
  destruct (ev_message ev) as [m |]; [done |]. destruct (ev_friend_request ev) as [r |]; [| done].
  by rewrite BuildFriendRequestEnvelope_run.
Qed.

Lemma build_events_run w rows uid :
  build_events rows uid w [] = (Some ((λ ev, JObject (event_envelope (g_db w) uid ev)) <$> rows), w, []).
Proof.
  induction rows as [| ev rows IH]; [done |]. cbn [build_events].
  unfold mbind at 1, H_bind at 1. rewrite BuildUserEventEnvelope_run. cbn. unfold mbind, H_bind. by rewrite IH.
Qed.

Lemma sync_limit_range o lim : sync_limit o = Some lim → 1 <= lim <= 200.
Proof.
  unfold sync_limit. destruct (field o _) as [v |]; [| intros [= <-]; lia].
  destruct (ParseJsonInt v); [| done]. intros [= <-]. lia.
Qed.

Lemma sync_cursor_nonneg o after : sync_cursor o = Some after → 0 <= after.
Proof.
  unfold sync_cursor. destruct (field o _) as [v |]; [| intros [= <-]; lia].
  destruct (get_string v) as [s |]; [| done]. cbn.
  destruct (bool_decide (s = []) || negb (forallb isdigit s)) eqn:E; [done |]. bool_to_prop.
  unfold stoull_digits. destruct (uint64_max <? digits_value s); [done |]. intros [= <-]. by apply digits_value_nonneg.
Qed.

Definition sync_reply (events : list json) (next : Z) (more : bool) : json :=
  JObject [(§ "error", jcode ERR_SUCCESS); (§ "events", JArray events); (§ "next_event_seq", jid next); (§ "has_more", JBool more)].

(** The events of a page, in order and without a gap, each as the tables
    have it. *)
Definition page_events (d : db) (uid after n : Z) (evs : list UserEvent) : Prop :=
  ev_seq <$> evs = seqZ (after + 1) n ∧ Forall (λ ev, ∃ e, event_true d uid (ev_seq ev, e) ev) evs.

Lemma last_seqZ {A} (f : A → Z) (l : list A) a n :
  f <$> l = seqZ (a + 1) n → 0 <= n → match last l with Some x => f x | None => a end = a + n.
Proof.
  intros Hl Hn. destruct l as [| x l] using rev_ind.
  - assert (n = 0); [| cbn; lia]. apply (f_equal length) in Hl. rewrite length_seqZ in Hl. cbn in Hl. lia.
  - rewrite last_snoc. assert (Hlen : length (l ++ [x]) = Z.to_nat n) by (by rewrite <- (length_fmap f), Hl, length_seqZ).
    rewrite length_app in Hlen. cbn in Hlen.
    assert (Hx : (f <$> l ++ [x]) !! length l = Some (f x)) by (rewrite fmap_app, lookup_app_r; rewrite length_fmap; [by rewrite Nat.sub_diag | done]).
    rewrite Hl in Hx. apply lookup_seqZ in Hx. lia.
Qed.

Lemma removelast_fmap {A B} (f : A → B) l : f <$> removelast l = removelast (f <$> l).
Proof. induction l as [| x [| y l] IH]; [done.. |]. cbn in *. by f_equal. Qed.

Lemma removelast_seqZ a n : removelast (seqZ a n) = seqZ a (n - 1).
Proof.
  destruct (decide (n <= 0)) as [Hn | Hn]; [by rewrite !seqZ_nil by lia |].
  replace n with ((n - 1) + 1) at 1 by lia. rewrite seqZ_app by lia.
  rewrite removelast_app by done. cbn. by rewrite app_nil_r.
Qed.

Lemma DealSyncMessage_spec w o after lim u :
  chat_ok weight (g_db w) → users (g_db w) !! g_uid w = Some u →
  sync_cursor (JObject o) = Some after → sync_limit (JObject o) = Some lim → after <= last_event_seq u →
  ∃ evs, let n := Z.min lim (last_event_seq u - after) in
    page_events (g_db w) (g_uid w) after n evs ∧
    DealSyncMessage (Some (JObject o)) w [] =
      (Some tt, with_out w (Sent (MsgId_code MSG_SYNC_USER_MESSAGE_RSP)
         (sync_reply ((λ ev, JObject (event_envelope (g_db w) (g_uid w) ev)) <$> evs) (after + n)
            (after + n <? last_event_seq u))), []).
Proof.
  intros Hok Hu Hc Hl Hle. pose proof (sync_limit_range _ _ Hl) as Hr. pose proof (sync_cursor_nonneg _ _ Hc) as Ha.
  destruct (GetEventsAfterSeq (g_uid w) after lim (g_db w) []) as [[[ok evs] d'] t'] eqn:Eg.
  pose proof (GetEventsAfterSeq_nil _ _ _ _ _ _ _ _ Eg) as Ht'.
  assert (Hl0 : 0 <= lim) by lia. destruct (GetEventsAfterSeq_spec weight _ _ u _ _ _ _ _ _ _ Hok Hu Ha Hl0 Eg) as (-> & Htot & Hspec).
  rewrite (Htot eq_refl) in *. subst t'. destruct (Hspec eq_refl) as [Hseq Hall]. clear Htot Hspec.
  set (n := Z.min lim (last_event_seq u - after)).
  set (rows := if lim <? zlen evs then removelast evs else evs).
  assert (Hlen : zlen evs = Z.min (lim + 1) (last_event_seq u - after)).
  { unfold zlen. rewrite <- (length_fmap ev_seq), Hseq, length_seqZ. lia. }
  assert (Hmore : (lim <? zlen evs) = (after + n <? last_event_seq u)).
  { rewrite Hlen. unfold n. destruct (lim <? _) eqn:E1, (after + _ <? _) eqn:E2; bool_to_prop; lia || done. }
  assert (Hrows : ev_seq <$> rows = seqZ (after + 1) n).
  { unfold rows. destruct (lim <? zlen evs) eqn:E; bool_to_prop; rewrite ?removelast_fmap, Hseq, ?removelast_seqZ; f_equal; lia. }
  exists rows. split.
  - split; [done |]. unfold rows. destruct (lim <? zlen evs); [| done].
    destruct evs as [| x l _] using rev_ind; [done |]. rewrite removelast_last. by apply Forall_app in Hall as [? _].
  - cbn [DealSyncMessage]. rewrite Hc, Hl. unfold user_id, mbind, H_bind, hdao at 1.
    unfold GetLastEventSeq, with_connection, catch, mbind, Tx_bind, query, exec, mret, Tx_ret. cbn [tape_next]. rewrite Hu.
    cbn [option_map negb]. rewrite (proj2 (Z.ltb_ge _ _)) by lia. unfold hdao. cbn [g_db].
    rewrite Eg. cbn [negb]. fold rows. destruct w as [d rd ss uid out]. cbn [g_db g_redis g_sessions g_uid g_out] in *.
    rewrite build_events_run. unfold Send, emit, with_out, sync_reply. cbn [g_db g_redis g_sessions g_uid g_out].
    rewrite Hmore. by rewrite (last_seqZ ev_seq rows after n Hrows) by (unfold n; lia).
Qed.

(** C16: a synchronisation request is answered with the next events.
    For consistent tables and working queries the reply to a cursor that is
    not beyond the user's last event carries, as envelopes of the rows, the
    events right after the cursor, as many as the limit allows; the next
    cursor is the number of the last one and [has_more] says whether any are
    left. So a client that follows the cursor sees every event once. *)
Theorem DealSyncMessage_page w o after lim u :
  chat_ok weight (g_db w) → users (g_db w) !! g_uid w = Some u →
  sync_cursor (JObject o) = Some after → sync_limit (JObject o) = Some lim → after <= last_event_seq u →
  ∃ evs, let n := Z.min lim (last_event_seq u - after) in
    page_events (g_db w) (g_uid w) after n evs ∧
    DealSyncMessage (Some (JObject o)) w [] =
      (Some tt, with_out w (Sent (MsgId_code MSG_SYNC_USER_MESSAGE_RSP)
         (sync_reply ((λ ev, JObject (event_envelope (g_db w) (g_uid w) ev)) <$> evs) (after + n)
            (after + n <? last_event_seq u))), []).
Proof. apply DealSyncMessage_spec. Qed.
End synchronisation.

(** ** A concrete run *)

(** A parser that knows one text. *)
Definition demo_json : JsonLib := {|
  json_parse := λ b, if decide (b = § "{uid:99999999999}")
                     then Some (JObject [(§ "uid", JString (§ "99999999999"))]) else None;
  json_dump := λ _, [];
|}.

Lemma malformed_request_escapes_witness :
  let run := @DispatchClientMessage demo_json demo_weight 2 (§ "chat1") [] [] true 1 (§ "s") (§ "now") in
  let w := demo_world demo_db 1 in
  run 1301 (§ "{") w [] = (Some tt, with_out w (Sent 1302 (error_reply ERR_JSON)), []) ∧
  run 1403 (§ "{") w [] = (None, w, []) ∧
  (run 1201 (§ "{uid:99999999999}") w []).1.1 = None.
Proof.
  pose proof (λ q, @malformed_request_escapes demo_json demo_weight 2 (§ "chat1") [] [] (demo_world demo_db 1) [] q (§ "s") (§ "now")) as T.
  intros run w. split; [| split].
  - apply (T MSG_TEXT_CHAT_REQ (§ "{")); [| done | done | reflexivity | reflexivity].
    apply (bool_decide_unpack _). vm_compute. exact I.
  - apply (T MSG_LOAD_CHAT_MSG_REQ (§ "{")); [| done | done | reflexivity | reflexivity].
    apply (bool_decide_unpack _). vm_compute. exact I.
  - apply (proj2 (proj2 (T MSG_SEARCH_USER_REQ (§ "{uid:99999999999}")
      ltac:(apply (bool_decide_unpack _); vm_compute; exact I) ltac:(done) ltac:(done)))) with (digits := § "99999999999");
      try reflexivity; done.
Defined.

Lemma DealSyncMessage_page_witness :
  let w := demo_world demo_request.1.2 2 in
  ∃ evs, zlen evs = 1 ∧ DealSyncMessage (Some (JObject [])) w [] =
    (Some tt, with_out w (Sent 1406 (sync_reply ((λ ev, JObject (event_envelope demo_request.1.2 2 ev)) <$> evs) 1 false)), []).
Proof.
  intros w. assert (Hu : users (g_db w) !! 2 = Some (UserRow (§ "b") (§ "b@x") [] no_profile 1)) by (vm_compute; reflexivity).
  destruct (DealSyncMessage_page demo_weight w [] 0 100 _ demo_request_ok Hu eq_refl eq_refl ltac:(cbn; lia)) as (evs & [Hs _] & Hrun).
  exists evs. split; [| exact Hrun]. apply (f_equal length) in Hs. rewrite length_fmap, length_seqZ in Hs. unfold zlen. rewrite Hs. reflexivity.
Defined.
