(* ===== verification/LocalDb.v ===== *)
(** * The client's local database (client/llfcchat/src/store/localchatdb.cpp)

    One SQLite file per user: messages with their resources, conversations,
    friend requests, contacts, the outbox of unsent messages and the
    synchronisation state. A [QString] is its UTF-8 text. A statement may
    fail; a function that reports failure rolls its transaction back. Dates
    are milliseconds; [now] is [QDateTime::currentMSecsSinceEpoch()]. *)

From stdpp Require Import sorting.
From S2P Require Import Prelude Database TxLogic ChatDb.

(** ** Tables *)

Inductive LocalSendStatus := Sending | Sent | SendFailed.
#[global] Instance LocalSendStatus_eq_dec : EqDecision LocalSendStatus.
Proof. solve_decision. Defined.

Inductive outbox_operation := SendText | SendResource.
Inductive resource_stage := NoStage | StageMetadata | StageUploading.
#[global] Instance resource_stage_eq_dec : EqDecision resource_stage.
Proof. solve_decision. Defined.

Record message_row := LMsg {
  l_id : option Z;             (* message_id, unique *)
  l_client : option bytes;     (* client_message_id, unique *)
  l_thread : Z;
  l_sender : Z;
  l_type : Z;
  l_text : option bytes;
  l_status : LocalSendStatus;
  l_created : Z;
}.

Record resource_row := LRes { lr_name : bytes; lr_path : option bytes; lr_size : Z; lr_sha : bytes; lr_mime : bytes }.

Record conversation_row := Conv {
  cv_peer : Z; cv_last : option Z; cv_oldest : option Z; cv_complete : bool; cv_updated : Z }.

Record request_row := LReq {
  lq_requester : Z; lq_target : Z; lq_message : bytes; lq_status : Z; lq_thread : option Z;
  lq_username : bytes; lq_nickname : bytes; lq_avatar : bytes; lq_gender : Z }.

Record contact_row := LContact {
  lc_thread : Z; lc_username : bytes; lc_nickname : bytes; lc_avatar : bytes; lc_gender : Z }.

Record outbox_row := Outbox { ob_client : bytes; ob_operation : outbox_operation; ob_stage : resource_stage; ob_payload : bytes }.

Record ldb := LDb {
  l_messages : gmap Z message_row;       (* local_message_id *)
  l_resources : gmap Z resource_row;     (* local_message_id *)
  l_conversations : gmap Z conversation_row;
  l_requests : gmap Z request_row;
  l_contacts : gmap Z contact_row;
  l_outbox : gmap Z outbox_row;          (* operation_id *)
  l_seq : Z;                             (* sync_state.last_event_seq *)
  l_bootstrap : bool;
  l_next : Z;                            (* above every identifier handed out *)
}.

Definition with_messages (d : ldb) x := LDb x (l_resources d) (l_conversations d) (l_requests d) (l_contacts d) (l_outbox d) (l_seq d) (l_bootstrap d) (l_next d).
Definition with_resources (d : ldb) x := LDb (l_messages d) x (l_conversations d) (l_requests d) (l_contacts d) (l_outbox d) (l_seq d) (l_bootstrap d) (l_next d).
Definition with_conversations (d : ldb) x := LDb (l_messages d) (l_resources d) x (l_requests d) (l_contacts d) (l_outbox d) (l_seq d) (l_bootstrap d) (l_next d).
Definition with_requests (d : ldb) x := LDb (l_messages d) (l_resources d) (l_conversations d) x (l_contacts d) (l_outbox d) (l_seq d) (l_bootstrap d) (l_next d).
Definition with_contacts (d : ldb) x := LDb (l_messages d) (l_resources d) (l_conversations d) (l_requests d) x (l_outbox d) (l_seq d) (l_bootstrap d) (l_next d).
Definition with_outbox (d : ldb) x := LDb (l_messages d) (l_resources d) (l_conversations d) (l_requests d) (l_contacts d) x (l_seq d) (l_bootstrap d) (l_next d).
Definition with_sync (d : ldb) s b := LDb (l_messages d) (l_resources d) (l_conversations d) (l_requests d) (l_contacts d) (l_outbox d) s b (l_next d).
Definition with_counter (d : ldb) n := LDb (l_messages d) (l_resources d) (l_conversations d) (l_requests d) (l_contacts d) (l_outbox d) (l_seq d) (l_bootstrap d) n.

(** A database [initSchema] has just created. *)
Definition initSchema : ldb := LDb ∅ ∅ ∅ ∅ ∅ ∅ 0 false 1.

(** ** Values handed over *)

Record UserEventDTO := EventDTO { ue_seq : Z; ue_type : Z; ue_message : Z; ue_request : Z }.

Record LocalMessageDTO := MsgDTO {
  md_local : Z; md_id : Z; md_client : bytes; md_thread : Z; md_sender : Z; md_type : Z;
  md_text : bytes; md_status : LocalSendStatus; md_created : Z }.

Record LocalMessageResourceDTO := ResDTO {
  rd_local : Z; rd_name : bytes; rd_path : bytes; rd_size : Z; rd_sha : bytes; rd_mime : bytes }.

Record LocalConversationDTO := ConvDTO {
  vd_thread : Z; vd_peer : Z; vd_last : Z; vd_oldest : Z; vd_complete : bool; vd_updated : Z }.

Record LocalFriendRequestDTO := ReqDTO {
  fd_id : Z; fd_requester : Z; fd_target : Z; fd_message : bytes; fd_status : Z; fd_thread : Z;
  fd_username : bytes; fd_nickname : bytes; fd_avatar : bytes; fd_gender : Z }.

Record LocalContactDTO := ContactDTO {
  cd_user : Z; cd_thread : Z; cd_username : bytes; cd_nickname : bytes; cd_avatar : bytes; cd_gender : Z }.

Record OutboxEntryDTO := OutboxDTO {
  od_operation : Z; od_client : bytes; od_type : outbox_operation; od_stage : resource_stage; od_payload : bytes }.

(** What the default constructors give. *)
Definition no_message : LocalMessageDTO := MsgDTO 0 0 [] 0 0 0 [] Sending 0.
Definition no_resource : LocalMessageResourceDTO := ResDTO 0 [] [] 0 [] [].

Definition NullableId (v : Z) : option Z := if 0 <? v then Some v else None.
Definition NullableText (v : bytes) : option bytes := if bool_decide (v = []) then None else Some v.

(** ** Statements *)

(** [None] is a function that reports failure. *)
Definition Sq (A : Type) : Type := ldb → tape → option A * ldb * tape.
#[global] Instance Sq_ret : MRet Sq := λ A a d t, (Some a, d, t).
#[global] Instance Sq_bind : MBind Sq := λ A B k m d t,
  match m d t with
  | (None, d', t') => (None, d', t')
  | (Some a, d', t') => k a d' t'
  end.

Definition refuse {A} : Sq A := λ d t, (None, d, t).

(** A statement: the library or a constraint may make it fail. *)
Definition stmt {A} (f : ldb → option (A * ldb)) : Sq A := λ d t,
  let '(o, t') := tape_next t in
  if io_ok o then match f d with Some (a, d') => (Some a, d', t') | None => (None, d, t') end
  else (None, d, t').

Definition sel {A} (f : ldb → A) : Sq A := stmt (λ d, Some (f d, d)).

(** [BEGIN IMMEDIATE], the body, and [rollback] or [commit]; a failing commit
    leaves nothing. *)
Definition txn {A} (body : Sq A) : Sq A := λ d0 t,
  let '(o, t) := tape_next t in
  if negb (io_ok o) then (None, d0, t)
  else match body d0 t with
  | (None, _, t) => (None, d0, t)
  | (Some a, d, t) =>
      let '(o, t) := tape_next t in
      if io_ok o then (Some a, d, t) else (None, d0, t)
  end.

(** ** Rows *)

Definition find_row (p : message_row → bool) (d : ldb) : option (Z * message_row) :=
  head (rows_where (λ _ m, p m) (l_messages d)).

Definition row_of_client (c : bytes) : ldb → option (Z * message_row) :=
  find_row (λ m, bool_decide (l_client m = Some c)).

Definition row_of_id (mid : Z) : ldb → option (Z * message_row) :=
  find_row (λ m, bool_decide (l_id m = Some mid)).

Definition readMessageRow (i : Z) (m : message_row) : LocalMessageDTO :=
  MsgDTO i (default 0 (l_id m)) (default [] (l_client m)) (l_thread m) (l_sender m) (l_type m)
    (default [] (l_text m)) (l_status m) (l_created m).

Definition readResourceRow (i : Z) (r : option resource_row) : LocalMessageResourceDTO :=
  match r with
  | None => no_resource
  | Some r => ResDTO i (lr_name r) (default [] (lr_path r)) (lr_size r) (lr_sha r) (lr_mime r)
  end.

Definition fillMessageByClientId (c : bytes) : Sq (LocalMessageDTO * LocalMessageResourceDTO) :=
  row ← sel (λ d, '(i, m) ← row_of_client c d; Some (readMessageRow i m, readResourceRow i (l_resources d !! i)));
  match row with
  | None => refuse
  | Some x => mret x
  end.

Definition is_resource (ty : Z) : bool := (ty =? PIC) || (ty =? FILE).

(** The constraints of [messages] for a row at [i]: the checks, and the unique
    keys against the other rows. *)
Definition row_shape (m : message_row) : bool :=
  (bool_decide (is_Some (l_id m)) || bool_decide (is_Some (l_client m))) &&
  (((l_type m =? TEXT) && bool_decide (is_Some (l_text m))) ||
   (is_resource (l_type m) && bool_decide (l_text m = None))).

Definition keys_free (d : ldb) (i : Z) (m : message_row) : bool :=
  bool_decide (map_Forall (λ j x, j = i ∨
    (l_id m = None ∨ l_id x ≠ l_id m) ∧ (l_client m = None ∨ l_client x ≠ l_client m)) (l_messages d)).

(** [INSERT INTO messages]: the new [local_message_id]. *)
Definition insert_row (m : message_row) (d : ldb) : option (Z * ldb) :=
  if row_shape m && keys_free d (l_next d) m
  then Some (l_next d, with_counter (with_messages d (<[l_next d := m]> (l_messages d))) (l_next d + 1))
  else None.

(** [UPDATE messages SET ... WHERE client_message_id=? AND ...]: fails unless
    exactly one row changes. *)
Definition update_row (c : bytes) (p : message_row → bool) (f : message_row → message_row) (d : ldb) : option (unit * ldb) :=
  match row_of_client c d with
  | Some (i, m) =>
      if p m && row_shape (f m) && keys_free d i (f m)
      then Some (tt, with_messages d (<[i := f m]> (l_messages d)))
      else None
  | None => None
  end.

Definition delete_outbox (c : bytes) (d : ldb) : option (unit * ldb) :=
  Some (tt, with_outbox d (filter (λ kv, ob_client kv.2 ≠ c) (l_outbox d))).

Definition with_status (st : LocalSendStatus) (m : message_row) : message_row :=
  LMsg (l_id m) (l_client m) (l_thread m) (l_sender m) (l_type m) (l_text m) st (l_created m).
Definition with_id (mid : Z) (m : message_row) : message_row :=
  LMsg (Some mid) (l_client m) (l_thread m) (l_sender m) (l_type m) (l_text m) (l_status m) (l_created m).

(** ** Sending *)

Definition local_row (m : LocalMessageDTO) (id : option Z) (client : option bytes) (st : LocalSendStatus) : message_row :=
  LMsg id client (md_thread m) (md_sender m) (md_type m)
    (if md_type m =? TEXT then Some (md_text m) else None) st (md_created m).

Definition resource_of (r : LocalMessageResourceDTO) : resource_row :=
  LRes (rd_name r) (NullableText (rd_path r)) (rd_size r) (rd_sha r) (rd_mime r).

Definition resource_complete (r : LocalMessageResourceDTO) : bool :=
  negb (bool_decide (rd_name r = [])) && (0 <? rd_size r) && negb (bool_decide (rd_sha r = [])) &&
  negb (bool_decide (rd_mime r = [])).

Definition insert_resource_row (i : Z) (r : resource_row) (d : ldb) : option (unit * ldb) :=
  if bool_decide (l_resources d !! i = None) && (0 <? lr_size r) && bool_decide (is_Some (l_messages d !! i))
  then Some (tt, with_resources d (<[i := r]> (l_resources d))) else None.

(** [INSERT INTO outbox]: the new [operation_id]. *)
Definition insert_outbox (o : outbox_row) (d : ldb) : option (Z * ldb) :=
  if bool_decide (map_Forall (λ _ x, ob_client x ≠ ob_client o) (l_outbox d)) &&
     bool_decide (is_Some (row_of_client (ob_client o) d))
  then Some (l_next d, with_counter (with_outbox d (<[l_next d := o]> (l_outbox d))) (l_next d + 1)) else None.

Definition stamped (now v : Z) : Z := if v <=? 0 then now else v.

Definition enqueueSend (now : Z) (isOpen : bool) (m : LocalMessageDTO) (r : LocalMessageResourceDTO)
    (client payload : bytes) : Sq (LocalMessageDTO * LocalMessageResourceDTO * OutboxEntryDTO) :=
  let isResource := is_resource (md_type m) in
  if negb isOpen || bool_decide (md_client m = []) || (md_thread m <=? 0) || (md_sender m <=? 0) ||
     (negb (md_type m =? TEXT) && negb isResource) || negb (bool_decide (client = md_client m)) ||
     bool_decide (payload = []) || (isResource && negb (resource_complete r))
  then refuse
  else
    let m := MsgDTO (md_local m) (md_id m) (md_client m) (md_thread m) (md_sender m) (md_type m) (md_text m)
               Sending (stamped now (md_created m)) in
    let o := Outbox client (if isResource then SendResource else SendText)
               (if isResource then StageMetadata else NoStage) payload in
    txn
      (i ← stmt (insert_row (local_row m None (Some (md_client m)) Sending));
       (if isResource then stmt (insert_resource_row i (resource_of r)) else mret tt);;
       op ← stmt (insert_outbox o);
       mret (MsgDTO i (md_id m) (md_client m) (md_thread m) (md_sender m) (md_type m) (md_text m) Sending (md_created m),
             if isResource then ResDTO i (rd_name r) (rd_path r) (rd_size r) (rd_sha r) (rd_mime r) else r,
             OutboxDTO op client (ob_operation o) (ob_stage o) payload)).

Definition confirmTextSent (now : Z) (c : bytes) (mid created : Z) : Sq LocalMessageDTO :=
  if mid <=? 0 then refuse
  else txn
    (stmt (update_row c (λ m, l_type m =? TEXT)
       (λ m, LMsg (Some mid) (l_client m) (l_thread m) (l_sender m) (l_type m) (l_text m) Sent (stamped now created)));;
     stmt (delete_outbox c);;
     out ← fillMessageByClientId c; mret out.1).

(** [UPDATE outbox SET stage=?] *)
Definition update_stage (c : bytes) (st : resource_stage) (d : ldb) : option (unit * ldb) :=
  if bool_decide (map_Exists (λ _ o, ob_client o = c) (l_outbox d))
  then Some (tt, with_outbox d
         ((λ o, if decide (ob_client o = c) then Outbox c (ob_operation o) st (ob_payload o) else o) <$> l_outbox d))
  else None.

Definition updateResourceStage (c : bytes) (mid : Z) (stage : resource_stage) : Sq LocalMessageDTO :=
  if (mid <=? 0) || negb (bool_decide (stage = StageUploading)) then refuse
  else txn
    (stmt (update_row c (λ m, is_resource (l_type m)) (with_id mid));;
     stmt (update_stage c stage);;
     out ← fillMessageByClientId c; mret out.1).

Definition set_path (i : Z) (p : bytes) (d : ldb) : option (unit * ldb) :=
  match l_resources d !! i with
  | Some r => Some (tt, with_resources d (<[i := LRes (lr_name r) (Some p) (lr_size r) (lr_sha r) (lr_mime r)]> (l_resources d)))
  | None => None
  end.

Definition set_path_of (row : ldb → option (Z * message_row)) (p : bytes) (d : ldb) : option (unit * ldb) :=
  match row d with Some (i, _) => set_path i p d | None => None end.

Definition confirmResourceSent (c path : bytes) : Sq LocalMessageDTO :=
  if bool_decide (path = []) then refuse
  else txn
    (stmt (set_path_of (row_of_client c) path);;
     stmt (update_row c (λ m, is_resource (l_type m) && bool_decide (is_Some (l_id m))) (with_status Sent));;
     stmt (delete_outbox c);;
     out ← fillMessageByClientId c; mret out.1).

(** [owner] is the user the database was opened for. *)
Definition updateResourceLocalPath (isOpen : bool) (owner mid : Z) (path : bytes) (expectedUid : Z) : Sq unit :=
  if negb isOpen || (mid <=? 0) || bool_decide (path = []) then refuse
  else if (0 <? expectedUid) && negb (owner =? expectedUid) then refuse
  else stmt (set_path_of (row_of_id mid) path).

Definition markSendFailed (c : bytes) : Sq LocalMessageDTO :=
  txn
    (stmt (update_row c (λ _, true) (with_status SendFailed));;
     stmt (delete_outbox c);;
     out ← fillMessageByClientId c; mret out.1).

Definition getMessageByClientId (isOpen : bool) (c : bytes) : Sq (LocalMessageDTO * LocalMessageResourceDTO) :=
  if isOpen then fillMessageByClientId c else refuse.

(** ** Receiving *)

(** [INSERT OR IGNORE INTO messages]: the row and whether it is new. *)
Definition insert_or_ignore (mid : Z) (m : message_row) (d : ldb) : option (option Z * ldb) :=
  match insert_row m d with
  | Some (i, d') => Some (Some i, d')
  | None => Some (None, d)
  end.

Definition upsert_resource (i : Z) (r : resource_row) (d : ldb) : option (unit * ldb) :=
  if (0 <? lr_size r) && bool_decide (is_Some (l_messages d !! i)) then
    let path := match lr_path r with Some p => Some p | None => match l_resources d !! i with Some r0 => lr_path r0 | None => None end end in
    Some (tt, with_resources d (<[i := LRes (lr_name r) path (lr_size r) (lr_sha r) (lr_mime r)]> (l_resources d)))
  else None.

(** Whether the message is new. *)
Definition insertMessageIgnore (m : LocalMessageDTO) (r : LocalMessageResourceDTO) : Sq bool :=
  if (md_id m <=? 0) || (md_thread m <=? 0) || (md_sender m <=? 0) ||
     (negb (md_type m =? TEXT) && negb (is_resource (md_type m)))
  then refuse
  else
    new ← stmt (insert_or_ignore (md_id m) (local_row m (Some (md_id m)) (NullableText (md_client m)) Sent));
    local ← match new with
            | Some i => mret i
            | None => row ← sel (row_of_id (md_id m));
                      match row with Some (i, _) => mret i | None => refuse end
            end;
    if md_type m =? TEXT then mret (bool_decide (is_Some new))
    else if negb (resource_complete r) then refuse
    else stmt (upsert_resource local (resource_of r));; mret (bool_decide (is_Some new)).

Definition touch_conversation (m : LocalMessageDTO) (peer : Z) (d : ldb) : option (unit * ldb) :=
  let row := match l_conversations d !! md_thread m with
    | None => Conv peer (NullableId (md_id m)) None false (md_created m)
    | Some c =>
        Conv peer
          (match cv_last c, NullableId (md_id m) with
           | Some l, Some n => Some (if l <=? n then n else l)
           | Some l, None => Some l
           | None, n => n
           end)
          (cv_oldest c) (cv_complete c) (Z.max (cv_updated c) (md_created m))
    end in
  Some (tt, with_conversations d (<[md_thread m := row]> (l_conversations d))).

Definition upsertConversationOnMessage (self : Z) (m : LocalMessageDTO) : Sq unit :=
  peer ← (if negb (md_sender m =? self) then mret (M := Sq) (md_sender m)
          else row ← sel (λ d, l_conversations d !! md_thread m);
               match row with Some c => mret (cv_peer c) | None => refuse end);
  if peer <=? 0 then refuse else stmt (touch_conversation m peer).

(** One message of a page: inserted, and its conversation brought forward. *)
Definition insert_one (self : Z) (m : LocalMessageDTO) (r : LocalMessageResourceDTO) : Sq bool :=
  inserted ← insertMessageIgnore m r;
  if (inserted : bool) then upsertConversationOnMessage self m;; mret true else mret false.

Fixpoint insert_all (self : Z) (l : list (LocalMessageDTO * LocalMessageResourceDTO)) (ids : list Z) : Sq (list Z) :=
  match l with
  | [] => mret ids
  | (m, r) :: l => inserted ← insert_one self m r; insert_all self l (if (inserted : bool) then ids ++ [md_id m] else ids)
  end.

Definition insertIncoming (self : Z) (messages : list LocalMessageDTO) (resources : list LocalMessageResourceDTO) : Sq (list Z) :=
  if negb (zlen messages =? zlen resources) then refuse
  else txn (insert_all self (zip messages resources) []).

Definition request_valid (q : LocalFriendRequestDTO) : bool :=
  (0 <? fd_id q) && (0 <? fd_requester q) && (0 <? fd_target q) && (0 <=? fd_status q) && (fd_status q <=? 2).

Definition request_row_of (q : LocalFriendRequestDTO) : request_row :=
  LReq (fd_requester q) (fd_target q) (fd_message q) (fd_status q) (NullableId (fd_thread q))
    (fd_username q) (fd_nickname q) (fd_avatar q) (fd_gender q).

Definition upsertFriendRequest (q : LocalFriendRequestDTO) : Sq unit :=
  if negb (request_valid q) then refuse
  else stmt (λ d, Some (tt, with_requests d (<[fd_id q := request_row_of q]> (l_requests d)))).

Definition contact_row_of (c : LocalContactDTO) : contact_row :=
  LContact (cd_thread c) (cd_username c) (cd_nickname c) (cd_avatar c) (cd_gender c).

Definition upsertContact (c : LocalContactDTO) : Sq unit :=
  if (cd_user c <=? 0) || (cd_thread c <=? 0) then refuse
  else stmt (λ d, Some (tt, with_contacts d (<[cd_user c := contact_row_of c]> (l_contacts d)))).

Definition merge_conversation (now : Z) (v : LocalConversationDTO) (d : ldb) : option (unit * ldb) :=
  let updated := if 0 <? vd_updated v then vd_updated v else now in
  let row := match l_conversations d !! vd_thread v with
    | None => Conv (vd_peer v) (NullableId (vd_last v)) (NullableId (vd_oldest v)) (vd_complete v) updated
    | Some c =>
        Conv (vd_peer v)
          (match NullableId (vd_last v) with Some n => Some n | None => cv_last c end)
          (match NullableId (vd_oldest v) with Some n => Some n | None => cv_oldest c end)
          (cv_complete c || vd_complete v) (Z.max (cv_updated c) updated)
    end in
  Some (tt, with_conversations d (<[vd_thread v := row]> (l_conversations d))).

Fixpoint upsertConversations (now : Z) (l : list LocalConversationDTO) : Sq unit :=
  match l with
  | [] => mret tt
  | v :: l =>
      if (vd_thread v <=? 0) || (vd_peer v <=? 0) then refuse
      else stmt (merge_conversation now v);; upsertConversations now l
  end.

Definition conversation_of (now : Z) (c : LocalContactDTO) : LocalConversationDTO :=
  ConvDTO (cd_thread c) (cd_user c) 0 0 false now.

(** The pending requests between the two users are answered with the chat. *)
Definition accept_between (self peer : Z) (thread : Z) (d : ldb) : option (unit * ldb) :=
  Some (tt, with_requests d
    ((λ q, if (lq_status q =? 0) &&
              (((lq_requester q =? self) && (lq_target q =? peer)) || ((lq_requester q =? peer) && (lq_target q =? self)))
           then LReq (lq_requester q) (lq_target q) (lq_message q) 1 (Some thread) (lq_username q) (lq_nickname q)
                  (lq_avatar q) (lq_gender q)
           else q) <$> l_requests d)).

(** One event of a page; the identifiers of new messages are collected. *)
Definition applyEvent (now self : Z) (ev : UserEventDTO) (messages : list (LocalMessageDTO * LocalMessageResourceDTO))
    (requests : list LocalFriendRequestDTO) (contacts : list LocalContactDTO) (ids : list Z) : Sq (list Z) :=
  if (ue_type ev =? TEXT) || (ue_type ev =? PIC) || (ue_type ev =? FILE) then
    match List.find (λ x : LocalMessageDTO * LocalMessageResourceDTO, md_id x.1 =? ue_message ev) messages with
    | None => refuse
    | Some (m, r) =>
        inserted ← insert_one self m r;
        mret (if (inserted : bool) then ids ++ [ue_message ev] else ids)
    end
  else
    match List.find (λ q, fd_id q =? ue_request ev) requests with
    | None => refuse
    | Some q =>
        upsertFriendRequest q;;
        if negb (ue_type ev =? FRIEND_ACCEPT) then
          if (ue_type ev =? FRIEND_APPLY) || (ue_type ev =? FRIEND_REJECT) then mret ids else refuse
        else
          let peer := if fd_requester q =? self then fd_target q else fd_requester q in
          stmt (accept_between self peer (fd_thread q));;
          match List.find (λ c, cd_user c =? peer) contacts with
          | None => refuse
          | Some c => upsertContact c;; upsertConversations now [conversation_of now c];; mret ids
          end
    end.

Fixpoint apply_events (now self : Z) (evs : list UserEventDTO) (messages : list (LocalMessageDTO * LocalMessageResourceDTO))
    (requests : list LocalFriendRequestDTO) (contacts : list LocalContactDTO) (ids : list Z) : Sq (list Z) :=
  match evs with
  | [] => mret ids
  | ev :: evs =>
      ids ← applyEvent now self ev messages requests contacts ids;
      apply_events now self evs messages requests contacts ids
  end.

Definition getSyncState : Sq (Z * bool) := sel (λ d, (l_seq d, l_bootstrap d)).

(** [expected++] along the page. *)
Definition contiguous (cur : Z) (evs : list UserEventDTO) : bool :=
  bool_decide (ue_seq <$> evs = seqZ (cur + 1) (zlen evs)).

Definition applySyncPage (now self : Z) (evs : list UserEventDTO) (messages : list LocalMessageDTO)
    (resources : list LocalMessageResourceDTO) (requests : list LocalFriendRequestDTO) (contacts : list LocalContactDTO)
    (newEventSeq : Z) : Sq (list Z) :=
  if negb (zlen messages =? zlen resources) then refuse
  else
    '(cur, _) ← getSyncState;
    if negb (contiguous cur evs) then refuse
    else if negb (newEventSeq =? match last evs with Some ev => ue_seq ev | None => cur end) then refuse
    else txn
      (ids ← apply_events now self evs (zip messages resources) requests contacts [];
       stmt (λ d, Some (tt, with_sync d newEventSeq (l_bootstrap d)));;
       mret ids).

(** ** History, snapshots and queries *)

Fixpoint insert_history (thread : Z) (l : list (LocalMessageDTO * LocalMessageResourceDTO)) (oldest : Z) : Sq Z :=
  match l with
  | [] => mret oldest
  | (m, r) :: l =>
      if negb (md_thread m =? thread) then refuse
      else insertMessageIgnore m r;;
           insert_history thread l (if (oldest =? 0) || (md_id m <? oldest) then md_id m else oldest)
  end.

Definition note_history (thread oldest : Z) (complete : bool) (d : ldb) : option (unit * ldb) :=
  match l_conversations d !! thread with
  | None => None
  | Some c =>
      let oldest := match cv_oldest c with Some o => if oldest <? o then oldest else o | None => oldest end in
      Some (tt, with_conversations d (<[thread := Conv (cv_peer c) (cv_last c) (Some oldest) complete (cv_updated c)]> (l_conversations d)))
  end.

Definition insertHistoryPage (thread : Z) (messages : list LocalMessageDTO) (resources : list LocalMessageResourceDTO)
    (complete : bool) : Sq unit :=
  if negb (zlen messages =? zlen resources) then refuse
  else txn (oldest ← insert_history thread (zip messages resources) 0; stmt (note_history thread oldest complete)).

Fixpoint upsert_requests (l : list LocalFriendRequestDTO) : Sq unit :=
  match l with [] => mret tt | q :: l => upsertFriendRequest q;; upsert_requests l end.

Fixpoint upsert_contacts (now : Z) (l : list LocalContactDTO) : Sq unit :=
  match l with
  | [] => mret tt
  | c :: l => upsertContact c;; upsertConversations now [conversation_of now c];; upsert_contacts now l
  end.

Definition applySnapshot (now : Z) (requests : list LocalFriendRequestDTO) (contacts : list LocalContactDTO)
    (replaceCurrent : bool) : Sq unit :=
  txn
    ((if replaceCurrent then
        stmt (λ d, Some (tt, with_requests d ∅));; stmt (λ d, Some (tt, with_contacts d ∅))
      else mret tt);;
     upsert_requests requests;; upsert_contacts now contacts).

Definition markBootstrapComplete (checkpoint : Z) : Sq unit :=
  stmt (λ d, if checkpoint <? 0 then None else Some (tt, with_sync d checkpoint true)).

Definition loadOutbox : Sq (list OutboxEntryDTO) :=
  sel (λ d, (λ x : Z * outbox_row, OutboxDTO x.1 (ob_client x.2) (ob_operation x.2) (ob_stage x.2) (ob_payload x.2)) <$>
    rows_where (λ _ _, true) (l_outbox d)).

(** [ORDER BY updated_at DESC,thread_id DESC] *)
Definition conversation_le (x y : Z * conversation_row) : Prop :=
  cv_updated y.2 < cv_updated x.2 ∨ cv_updated x.2 = cv_updated y.2 ∧ y.1 <= x.1.
#[global] Instance conversation_le_dec x y : Decision (conversation_le x y).
Proof. unfold conversation_le. apply _. Defined.

Definition loadConversations : Sq (list LocalConversationDTO) :=
  sel (λ d, (λ x : Z * conversation_row, ConvDTO x.1 (cv_peer x.2) (default 0 (cv_last x.2)) (default 0 (cv_oldest x.2))
              (cv_complete x.2) (cv_updated x.2)) <$> merge_sort conversation_le (map_to_list (l_conversations d))).

(** The first rows of a descending query, prepended one by one. *)
Definition newest (n : Z) (R : relation (Z * message_row)) `{∀ x y, Decision (R x y)} (p : message_row → bool) (d : ldb) :
    list (LocalMessageDTO * LocalMessageResourceDTO) :=
  (λ x, (readMessageRow x.1 x.2, readResourceRow x.1 (l_resources d !! x.1))) <$>
    reverse (limit n (merge_sort R (rows_where (λ _ m, p m) (l_messages d)))).

(** [ORDER BY m.created_at DESC,m.local_message_id DESC] *)
Definition recent_first (x y : Z * message_row) : Prop :=
  l_created y.2 < l_created x.2 ∨ l_created x.2 = l_created y.2 ∧ y.1 <= x.1.
#[global] Instance recent_first_dec x y : Decision (recent_first x y).
Proof. unfold recent_first. apply _. Defined.

(** [ORDER BY m.message_id DESC] *)
Definition higher_first (x y : Z * message_row) : Prop := default 0 (l_id y.2) <= default 0 (l_id x.2).
#[global] Instance higher_first_dec x y : Decision (higher_first x y).
Proof. unfold higher_first. apply _. Defined.

Definition loadRecentMessages (thread n : Z) : Sq (list (LocalMessageDTO * LocalMessageResourceDTO)) :=
  sel (newest n recent_first (λ m, l_thread m =? thread)).

Definition loadOlderMessages (thread before n : Z) : Sq (list (LocalMessageDTO * LocalMessageResourceDTO)) :=
  sel (newest n higher_first
    (λ m, (l_thread m =? thread) && match l_id m with Some i => i <? before | None => false end)).

(** ** The invariant *)

(** No message is forgotten or sent twice: a row is in the state Sending
    exactly while the outbox has an entry for its client identifier. *)
Record ldb_ok (d : ldb) : Prop := {
  lo_shape : ∀ i m, l_messages d !! i = Some m → row_shape m = true;
  lo_ids : ∀ i j m n, l_messages d !! i = Some m → l_messages d !! j = Some n →
    is_Some (l_id m) → l_id m = l_id n → i = j;
  lo_clients : ∀ i j m n, l_messages d !! i = Some m → l_messages d !! j = Some n →
    is_Some (l_client m) → l_client m = l_client n → i = j;
  lo_fresh : ∀ i, l_next d <= i → l_messages d !! i = None ∧ l_outbox d !! i = None;
  lo_sent : ∀ i m, l_messages d !! i = Some m → l_status m = Sent → is_Some (l_id m);
  lo_entries : ∀ i j o p, l_outbox d !! i = Some o → l_outbox d !! j = Some p → ob_client o = ob_client p → i = j;
  lo_outbox : ∀ c, (∃ k o, l_outbox d !! k = Some o ∧ ob_client o = c) ↔
    ∃ i m, l_messages d !! i = Some m ∧ l_client m = Some c ∧ l_status m = Sending;
  lo_resources : ∀ i, is_Some (l_resources d !! i) → is_Some (l_messages d !! i);
  lo_seq : 0 <= l_seq d;
}.

(** The part of the database the invariant is about, apart from the cursor. *)
Definition same_core (d d' : ldb) : Prop :=
  l_messages d' = l_messages d ∧ l_resources d' = l_resources d ∧ l_outbox d' = l_outbox d ∧ l_next d' = l_next d ∧
  0 <= l_seq d'.

Lemma ldb_ok_same_core d d' : same_core d d' → ldb_ok d → ldb_ok d'.
Proof.
  intros (E1 & E2 & E3 & E4 & E5) []. constructor; rewrite ?E1, ?E2, ?E3, ?E4; done.
Qed.

Lemma initSchema_ok : ldb_ok initSchema.
Proof.
  constructor; cbn; intros; rewrite ?lookup_empty in *; try done.
  split; intros (? & ? & Hl & _); by rewrite lookup_empty in Hl.
Qed.

(** *** Rows *)

Lemma find_row_Some p d i m : find_row p d = Some (i, m) → l_messages d !! i = Some m ∧ p m = true.
Proof.
  unfold find_row. intros Hh. apply head_Some in Hh as [l Hl].
  assert (Hin : (i, m) ∈ rows_where (λ _ m, p m) (l_messages d)) by (rewrite Hl; left).
  unfold rows_where in Hin. rewrite order_by_elem in Hin. apply list_elem_of_filter in Hin as [Hp Hin].
  split; [by apply elem_of_map_to_list | done].
Qed.

Lemma find_row_None p d i m : find_row p d = None → l_messages d !! i = Some m → p m = false.
Proof.
  unfold find_row. intros Hh Hi. apply head_None in Hh. destruct (p m) eqn:E; [| done].
  assert (Hin : (i, m) ∈ rows_where (λ _ m, p m) (l_messages d)).
  { unfold rows_where. apply order_by_elem, list_elem_of_filter. split; [done | by apply elem_of_map_to_list]. }
  rewrite Hh in Hin. by apply not_elem_of_nil in Hin.
Qed.

Lemma row_of_client_Some c d i m : row_of_client c d = Some (i, m) → l_messages d !! i = Some m ∧ l_client m = Some c.
Proof. intros [? ?%bool_decide_eq_true]%find_row_Some. done. Qed.

Lemma row_of_id_Some mid d i m : row_of_id mid d = Some (i, m) → l_messages d !! i = Some m ∧ l_id m = Some mid.
Proof. intros [? ?%bool_decide_eq_true]%find_row_Some. done. Qed.

Lemma row_of_client_is d c i m : ldb_ok d → l_messages d !! i = Some m → l_client m = Some c → row_of_client c d = Some (i, m).
Proof.
  intros Hok Hi Hc. destruct (row_of_client c d) as [[j n] |] eqn:E.
  - apply row_of_client_Some in E as [Hj Hn]. assert (i = j) as ->; [| congruence].
    apply (lo_clients d Hok i j m n Hi Hj); [by eexists | congruence].
  - eapply find_row_None in E; [| done]. by apply bool_decide_eq_false in E.
Qed.

Lemma row_of_id_is d mid i m : ldb_ok d → l_messages d !! i = Some m → l_id m = Some mid → row_of_id mid d = Some (i, m).
Proof.
  intros Hok Hi Hc. destruct (row_of_id mid d) as [[j n] |] eqn:E.
  - apply row_of_id_Some in E as [Hj Hn]. assert (i = j) as ->; [| congruence].
    apply (lo_ids d Hok i j m n Hi Hj); [by eexists | congruence].
  - eapply find_row_None in E; [| done]. by apply bool_decide_eq_false in E.
Qed.

Lemma keys_free_spec d i m : keys_free d i m = true ↔
  ∀ j x, l_messages d !! j = Some x → j ≠ i →
    (is_Some (l_id m) → l_id x ≠ l_id m) ∧ (is_Some (l_client m) → l_client x ≠ l_client m).
Proof.
  unfold keys_free. rewrite bool_decide_eq_true. split.
  - intros Hm j x Hj Hne. specialize (Hm j x Hj). cbn in Hm. destruct Hm as [| [H1 H2]]; [done |].
    split; intros [y Hy]; [destruct H1 | destruct H2]; congruence.
  - intros Hm j x Hj. destruct (decide (j = i)) as [-> | Hne]; [by left |]. right.
    destruct (Hm j x Hj Hne) as [H1 H2]. split.
    + destruct (l_id m); [right; by apply H1 | by left].
    + destruct (l_client m); [right; by apply H2 | by left].
Qed.

(** A row that replaces another one, or is new, with its keys free. *)
Lemma put_row_keys d i m :
  ldb_ok d → row_shape m = true → keys_free d i m = true → (l_status m = Sent → is_Some (l_id m)) →
  let ms := <[i := m]> (l_messages d) in
  (∀ j x, ms !! j = Some x → row_shape x = true) ∧
  (∀ j k x y, ms !! j = Some x → ms !! k = Some y → is_Some (l_id x) → l_id x = l_id y → j = k) ∧
  (∀ j k x y, ms !! j = Some x → ms !! k = Some y → is_Some (l_client x) → l_client x = l_client y → j = k) ∧
  (∀ j x, ms !! j = Some x → l_status x = Sent → is_Some (l_id x)).
Proof.
  intros Hok Hs Hk Hst ms. rewrite keys_free_spec in Hk.
  assert (Hl : ∀ j x, ms !! j = Some x → j = i ∧ x = m ∨ j ≠ i ∧ l_messages d !! j = Some x).
  { intros j x. unfold ms. destruct (decide (j = i)) as [-> |]; [rewrite lookup_insert_eq | rewrite lookup_insert_ne by done];
      [intros [= <-]; by left | by right]. }
  split; [| split; [| split]].
  - intros j x [[-> ->] | [_ Hx]]%Hl; [done | by eapply lo_shape].
  - intros j k x y [[-> ->] | [Hj Hx]]%Hl [[-> ->] | [Hk' Hy]]%Hl Hi He; try done.
    + destruct (Hk k y Hy Hk') as [H1 _]. by destruct H1.
    + destruct (Hk j x Hx Hj) as [H1 _]. destruct H1; [by rewrite <- He | done].
    + by eapply (lo_ids d).
  - intros j k x y [[-> ->] | [Hj Hx]]%Hl [[-> ->] | [Hk' Hy]]%Hl Hi He; try done.
    + destruct (Hk k y Hy Hk') as [_ H1]. by destruct H1.
    + destruct (Hk j x Hx Hj) as [_ H1]. destruct H1; [by rewrite <- He | done].
    + by eapply (lo_clients d).
  - intros j x [[-> ->] | [_ Hx]]%Hl; [done | by eapply lo_sent].
Qed.

(** A row leaves the outbox together with the state Sending. *)
Lemma settle_ok d c i m m' :
  ldb_ok d → l_messages d !! i = Some m → l_client m = Some c → l_client m' = Some c →
  l_status m' ≠ Sending → (l_status m' = Sent → is_Some (l_id m')) → row_shape m' = true → keys_free d i m' = true →
  ldb_ok (with_outbox (with_messages d (<[i := m']> (l_messages d))) (filter (λ kv, ob_client kv.2 ≠ c) (l_outbox d))).
Proof.
  intros Hok Hi Hc Hc' Hns Hsent Hsh Hk. destruct (put_row_keys d i m' Hok Hsh Hk Hsent) as (K1 & K2 & K3 & K4).
  constructor; cbn; try done.
  - intros j Hj. destruct (lo_fresh d Hok j Hj) as [Hm Ho]. assert (j ≠ i) by congruence.
    rewrite lookup_insert_ne by done. split; [done |]. rewrite map_lookup_filter, Ho. done.
  - intros j k o p [Ho _]%map_lookup_filter_Some [Hp _]%map_lookup_filter_Some. by eapply lo_entries.
  - intros c2. split.
    + intros (k & o & [Ho Hne]%map_lookup_filter_Some & Hoc). cbn in Hne. subst c2.
      destruct (proj1 (lo_outbox d Hok (ob_client o))) as (j & x & Hj & Hx & Hst); [by exists k, o |].
      exists j, x. rewrite lookup_insert_ne; [done |]. intros ->. congruence.
    + intros (j & x & Hj & Hx & Hst). destruct (decide (j = i)) as [-> | Hne].
      * rewrite lookup_insert_eq in Hj. congruence.
      * rewrite lookup_insert_ne in Hj by done.
        destruct (proj2 (lo_outbox d Hok c2)) as (k & o & Hk' & Ho); [by exists j, x |].
        exists k, o. split; [| done]. apply map_lookup_filter_Some. split; [done |]. cbn. intros Heq.
        apply Hne. apply (lo_clients d Hok j i x m Hj Hi); [by eexists | congruence].
  - intros j Hj. destruct (decide (j = i)) as [-> |]; [by rewrite lookup_insert_eq |].
    rewrite lookup_insert_ne by done. by apply (lo_resources d Hok).
  - apply (lo_seq d Hok).
Qed.

(** Replacing a row without touching its state or client identifier. *)
Lemma update_ok d i m m' :
  ldb_ok d → l_messages d !! i = Some m → l_client m' = l_client m → l_status m' = l_status m →
  (l_status m' = Sent → is_Some (l_id m')) → row_shape m' = true → keys_free d i m' = true →
  ldb_ok (with_messages d (<[i := m']> (l_messages d))).
Proof.
  intros Hok Hi Hc Hst Hsent Hsh Hk. destruct (put_row_keys d i m' Hok Hsh Hk Hsent) as (K1 & K2 & K3 & K4).
  constructor; cbn; try done.
  - intros j Hj. destruct (lo_fresh d Hok j Hj) as [Hm Ho]. assert (j ≠ i) by congruence. by rewrite lookup_insert_ne.
  - apply (lo_entries d Hok).
  - intros c. rewrite (lo_outbox d Hok c). split; intros (j & x & Hj & Hx & Hs).
    + destruct (decide (j = i)) as [-> | Hne]; [| by exists j, x; rewrite lookup_insert_ne].
      assert (x = m) as -> by congruence. exists i, m'. rewrite lookup_insert_eq, Hc, Hst. done.
    + destruct (decide (j = i)) as [-> | Hne].
      * rewrite lookup_insert_eq in Hj. assert (x = m') as -> by congruence. exists i, m. by rewrite <- Hc, <- Hst.
      * rewrite lookup_insert_ne in Hj by done. by exists j, x.
  - intros j Hj. destruct (decide (j = i)) as [-> |]; [by rewrite lookup_insert_eq |].
    rewrite lookup_insert_ne by done. by apply (lo_resources d Hok).
  - apply (lo_seq d Hok).
Qed.

(** A new row that is not waiting to be sent. *)
Lemma insert_row_ok d m i d' :
  ldb_ok d → l_status m ≠ Sending → (l_status m = Sent → is_Some (l_id m)) → insert_row m d = Some (i, d') → ldb_ok d'.
Proof.
  intros Hok Hns Hsent. unfold insert_row. destruct (row_shape m) eqn:Hsh; [| done].
  destruct (keys_free d (l_next d) m) eqn:Hk; [| done]. intros [= <- <-].
  destruct (put_row_keys d _ m Hok Hsh Hk Hsent) as (K1 & K2 & K3 & K4).
  destruct (lo_fresh d Hok (l_next d) ltac:(lia)) as [Hf _].
  constructor; cbn; try done.
  - intros j Hj. destruct (lo_fresh d Hok j ltac:(lia)) as [Hm Ho]. by rewrite lookup_insert_ne by lia.
  - apply (lo_entries d Hok).
  - intros c. rewrite (lo_outbox d Hok c). split; intros (j & x & Hj & Hx & Hs).
    + exists j, x. by rewrite lookup_insert_ne by congruence.
    + destruct (decide (j = l_next d)) as [-> | Hne].
      * rewrite lookup_insert_eq in Hj. congruence.
      * rewrite lookup_insert_ne in Hj by done. by exists j, x.
  - intros j Hj. destruct (decide (j = l_next d)) as [-> |]; [by rewrite lookup_insert_eq |].
    rewrite lookup_insert_ne by done. by apply (lo_resources d Hok).
  - apply (lo_seq d Hok).
Qed.

(** *** Operations *)

Definition keeps {A} (m : Sq A) : Prop := ∀ d t r d' t', ldb_ok d → m d t = (r, d', t') → ldb_ok d'.

(** What a transaction has to show: its body, when it succeeds. *)
Definition settles {A} (m : Sq A) : Prop := ∀ d t a d' t', ldb_ok d → m d t = (Some a, d', t') → ldb_ok d'.

Lemma keeps_settles {A} (m : Sq A) : keeps m → settles m.
Proof. intros Hm d t a d' t' Hok Hr. by eapply Hm. Qed.

Lemma keeps_ret {A} (a : A) : keeps (mret a).
Proof. by intros d t r d' t' Hok [= <- <- <-]. Qed.

Lemma keeps_refuse {A} : keeps (refuse (A := A)).
Proof. by intros d t r d' t' Hok [= <- <- <-]. Qed.

Lemma keeps_bind {A B} (m : Sq A) (k : A → Sq B) : keeps m → (∀ a, keeps (k a)) → keeps (m ≫= k).
Proof.
  intros Hm Hk d t r d' t' Hok. unfold mbind, Sq_bind. destruct (m d t) as [[[a |] d1] t1] eqn:E.
  - intros Hr. eapply Hk; [| exact Hr]. by eapply Hm.
  - intros [= <- <- <-]. by eapply Hm.
Qed.

Lemma keeps_stmt {A} (f : ldb → option (A * ldb)) :
  (∀ d a d', ldb_ok d → f d = Some (a, d') → ldb_ok d') → keeps (stmt f).
Proof.
  intros Hf d t r d' t' Hok. unfold stmt. destruct (tape_next t) as [o t1]. destruct (io_ok o); [| by intros [= <- <- <-]].
  destruct (f d) as [[a d1] |] eqn:E; [| by intros [= <- <- <-]]. intros [= <- <- <-]. by eapply Hf.
Qed.

Lemma keeps_sel {A} (f : ldb → A) : keeps (sel f).
Proof. apply keeps_stmt. by intros d a d' Hok [= <- <-]. Qed.

(** A statement outside of the messages and the outbox. *)
Lemma keeps_core {A} (f : ldb → option (A * ldb)) : (∀ d a d', 0 <= l_seq d → f d = Some (a, d') → same_core d d') → keeps (stmt f).
Proof.
  intros Hf. apply keeps_stmt. intros d a d' Hok He. eapply ldb_ok_same_core; [| done].
  eapply Hf; [apply (lo_seq d Hok) | done].
Qed.

Lemma txn_keeps {A} (m : Sq A) : settles m → keeps (txn m).
Proof.
  intros Hm d t r d' t' Hok. unfold txn. destruct (tape_next t) as [o t1]. destruct (io_ok o); cbn [negb]; [| by intros [= <- <- <-]].
  destruct (m d t1) as [[[a |] d1] t2] eqn:E; [| by intros [= <- <- <-]].
  destruct (tape_next t2) as [o2 t3]. destruct (io_ok o2); intros [= <- <- <-]; [by eapply Hm | done].
Qed.

Lemma if_keeps {A} (b : bool) (m1 m2 : Sq A) : keeps m1 → keeps m2 → keeps (if b then m1 else m2).
Proof. by destruct b. Qed.

Create HintDb keeps.
#[export] Hint Resolve keeps_ret keeps_refuse keeps_bind keeps_sel if_keeps txn_keeps keeps_settles : keeps.

(** Success of a sequence. *)
Lemma bind_Some {A B} (m : Sq A) (k : A → Sq B) d t b d' t' :
  (m ≫= k) d t = (Some b, d', t') → ∃ a d1 t1, m d t = (Some a, d1, t1) ∧ k a d1 t1 = (Some b, d', t').
Proof.
  unfold mbind, Sq_bind. destruct (m d t) as [[[a |] d1] t1]; [| done]. intros Hr. by exists a, d1, t1.
Qed.

Lemma stmt_Some {A} (f : ldb → option (A * ldb)) d t a d' t' : stmt f d t = (Some a, d', t') → f d = Some (a, d').
Proof.
  unfold stmt. destruct (tape_next t) as [o t1]. destruct (io_ok o); [| done].
  destruct (f d) as [[a1 d1] |]; [| done]. by intros [= <- <- <-].
Qed.

Lemma sel_Some {A} (f : ldb → A) d t a d' t' : sel f d t = (Some a, d', t') → a = f d ∧ d' = d.
Proof. by intros [= <- <-]%stmt_Some. Qed.

Lemma ret_Some {A} (x : A) d t a d' t' : (mret (M := Sq) x) d t = (Some a, d', t') → a = x ∧ d' = d.
Proof. by intros [= <- <- <-]. Qed.

Lemma fill_same c d t r d' t' : fillMessageByClientId c d t = (r, d', t') → d' = d.
Proof.
  unfold fillMessageByClientId, mbind, Sq_bind, sel, stmt. destruct (tape_next t) as [o t1].
  destruct (io_ok o); [| by intros [= <- <- <-]]. destruct (row_of_client c d) as [[i m] |]; by intros [= <- <- <-].
Qed.

Lemma fill_keeps c : keeps (fillMessageByClientId c).
Proof. intros d t r d' t' Hok Hr. by apply fill_same in Hr as ->. Qed.

Lemma update_row_Some c p f d a d' :
  update_row c p f d = Some (a, d') → ∃ i m, l_messages d !! i = Some m ∧ l_client m = Some c ∧ p m = true ∧
    row_shape (f m) = true ∧ keys_free d i (f m) = true ∧ d' = with_messages d (<[i := f m]> (l_messages d)).
Proof.
  unfold update_row. destruct (row_of_client c d) as [[i m] |] eqn:E; [| done]. apply row_of_client_Some in E as [Hi Hc].
  destruct (p m) eqn:Ep, (row_shape (f m)) eqn:Es, (keys_free d i (f m)) eqn:Ek; cbn; try done.
  intros [= <- <-]. by exists i, m.
Qed.

(** The end of a send: the row leaves Sending and the outbox at once. *)
Lemma settle_settles {A} c p f (k : Sq A) :
  (∀ m, l_client (f m) = l_client m ∧ l_status (f m) ≠ Sending ∧ (p m = true → l_status (f m) = Sent → is_Some (l_id (f m)))) →
  keeps k → settles (stmt (update_row c p f);; stmt (delete_outbox c);; k).
Proof.
  intros Hf Hk d t a d' t' Hok Hr. apply bind_Some in Hr as ([] & d1 & t1 & Hu & Hr). apply stmt_Some in Hu.
  apply update_row_Some in Hu as (i & m & Hi & Hc & Hp & Hs & Hkf & ->).
  apply bind_Some in Hr as ([] & d2 & t2 & Hd & Hr). apply stmt_Some in Hd. injection Hd as <-.
  eapply Hk; [| exact Hr]. destruct (Hf m) as (Hfc & Hns & Hsent). eapply (settle_ok d c i m); try done; [congruence | by apply Hsent].
Qed.

Lemma set_path_ok row p d u d' : ldb_ok d → set_path_of row p d = Some (u, d') → ldb_ok d'.
Proof.
  intros Hok. unfold set_path_of, set_path. destruct (row d) as [[i m] |]; [| done].
  destruct (l_resources d !! i) as [r |] eqn:Er; [| done]. intros [= <- <-]. destruct Hok. constructor; cbn; try done.
  intros j Hj. destruct (decide (j = i)) as [-> |]; [by apply lo_resources0 | rewrite lookup_insert_ne in Hj by done; by apply lo_resources0].
Qed.

Lemma set_path_keeps row p : keeps (stmt (set_path_of row p)).
Proof. apply keeps_stmt. intros d a d'. apply set_path_ok. Qed.

Lemma confirmTextSent_keeps now c mid created : keeps (confirmTextSent now c mid created).
Proof.
  unfold confirmTextSent. apply if_keeps; [auto with keeps |]. apply txn_keeps, settle_settles.
  - intros m. by split_and!.
  - apply keeps_bind; [apply fill_keeps | auto with keeps].
Qed.

Lemma markSendFailed_keeps c : keeps (markSendFailed c).
Proof. apply txn_keeps, settle_settles; [intros m; by split_and! | apply keeps_bind; [apply fill_keeps | auto with keeps]]. Qed.

Lemma confirmResourceSent_keeps c path : keeps (confirmResourceSent c path).
Proof.
  unfold confirmResourceSent. apply if_keeps; [auto with keeps |]. apply txn_keeps. intros d t a d' t' Hok Hr.
  apply bind_Some in Hr as ([] & d1 & t1 & Hp & Hr).
  assert (Hok1 : ldb_ok d1) by by eapply set_path_keeps in Hp.
  eapply settle_settles in Hr; [done | | | done].
  - intros m. cbn. split; [done |]. split; [done |]. intros Hp' _. by bool_to_prop.
  - apply keeps_bind; [apply fill_keeps | auto with keeps].
Qed.

Lemma update_stage_ok c st d u d' : ldb_ok d → update_stage c st d = Some (u, d') → ldb_ok d'.
Proof.
  intros Hok. unfold update_stage. destruct (bool_decide _); [| done]. intros [= <- <-].
  set (f := λ o, if decide (ob_client o = c) then Outbox c (ob_operation o) st (ob_payload o) else o).
  assert (Hf : ∀ o, ob_client (f o) = ob_client o) by (intros o; unfold f; by case_decide).
  destruct Hok. constructor; cbn; try done.
  - intros i Hi. rewrite lookup_fmap. destruct (lo_fresh0 i Hi) as [-> ->]. done.
  - intros i j o p. rewrite !lookup_fmap, !fmap_Some. intros (o0 & Ho & ->) (p0 & Hp & ->). rewrite !Hf. by apply lo_entries0.
  - intros c2. rewrite <- lo_outbox0. split; intros (k & o & Ho & Hc).
    + rewrite lookup_fmap, fmap_Some in Ho. destruct Ho as (o0 & Ho & ->). exists k, o0. by rewrite <- Hc, Hf.
    + exists k, (f o). rewrite lookup_fmap, Ho. by rewrite Hf.
Qed.

Lemma updateResourceStage_keeps c mid stage : keeps (updateResourceStage c mid stage).
Proof.
  unfold updateResourceStage. apply if_keeps; [auto with keeps |]. apply txn_keeps, keeps_settles.
  apply keeps_bind; [| intros ?; apply keeps_bind; [apply keeps_stmt; intros ? ? ?; by apply update_stage_ok |
    intros ?; apply keeps_bind; [apply fill_keeps | auto with keeps]]].
  apply keeps_stmt. intros d [] d' Hok (i & m & Hi & Hc & _ & Hs & Hk & ->)%update_row_Some.
  by eapply update_ok.
Qed.

(** The three inserts of a send, together. *)
Lemma enqueue_ok d m c i d1 d2 ob op d3 res :
  ldb_ok d → l_client m = Some c → l_status m = Sending → ob_client ob = c →
  insert_row m d = Some (i, d1) →
  (d2 = d1 ∨ insert_resource_row i res d1 = Some (tt, d2)) →
  insert_outbox ob d2 = Some (op, d3) → ldb_ok d3.
Proof.
  intros Hok Hc Hst Hob. unfold insert_row. destruct (row_shape m) eqn:Hsh; [| done].
  destruct (keys_free d (l_next d) m) eqn:Hk; [| done]. intros [= <- <-].
  set (ms := <[l_next d := m]> (l_messages d)).
  destruct (put_row_keys d _ m Hok Hsh Hk) as (K1 & K2 & K3 & K4); [congruence |].
  destruct (lo_fresh d Hok (l_next d) ltac:(lia)) as [Hf _].
  intros Hd2. assert (Hd2' : l_messages d2 = ms ∧ l_outbox d2 = l_outbox d ∧ l_next d2 = l_next d + 1 ∧ l_seq d2 = l_seq d ∧
    ∀ j, is_Some (l_resources d2 !! j) → is_Some (ms !! j)).
  { assert (Hold : ∀ j, is_Some (l_resources d !! j) → is_Some (ms !! j)).
    { intros j Hj. apply (lo_resources d Hok) in Hj. unfold ms. destruct (decide (j = l_next d)) as [-> |];
        [by rewrite lookup_insert_eq | by rewrite lookup_insert_ne]. }
    destruct Hd2 as [-> | Hd2]; [done |]. unfold insert_resource_row in Hd2.
    case_match; [| done]. injection Hd2 as <-. cbn. split_and!; try done. intros j Hj.
    destruct (decide (j = l_next d)) as [-> |]; [unfold ms; by rewrite lookup_insert_eq |].
    rewrite lookup_insert_ne in Hj by done. by apply Hold. }
  destruct Hd2' as (E1 & E2 & E3 & E4 & E5). unfold insert_outbox. rewrite E2, E3.
  destruct (bool_decide (map_Forall _ _)) eqn:Hnew; [| done]. cbn [andb].
  destruct (bool_decide (is_Some _)); [| done].
  intros [= <- <-]. apply bool_decide_eq_true in Hnew.
  assert (Hno : ∀ j x, l_outbox d !! j = Some x → ob_client x ≠ c) by (intros j x Hj; rewrite <- Hob; by apply (Hnew j x)).
  constructor; cbn; rewrite ?E1, ?E4; try done.
  - intros j Hj. unfold ms. destruct (lo_fresh d Hok j ltac:(lia)) as [Hm Ho]. rewrite !lookup_insert_ne by lia. done.
  - intros j k o p. destruct (decide (j = l_next d + 1)) as [-> | Hj], (decide (k = l_next d + 1)) as [-> | Hk'];
      rewrite ?lookup_insert_eq, ?lookup_insert_ne by done; try done.
    + intros [= <-] Hp He. by destruct (Hno _ _ Hp); rewrite <- He.
    + intros Ho [= <-] He. by destruct (Hno _ _ Ho); rewrite He.
    + by apply (lo_entries d Hok).
  - intros c2. split.
    + intros (k & o & Ho & Hoc). destruct (decide (k = l_next d + 1)) as [-> | Hk'].
      * rewrite lookup_insert_eq in Ho. injection Ho as <-. exists (l_next d), m. unfold ms. rewrite lookup_insert_eq. by rewrite <- Hoc, Hob.
      * rewrite lookup_insert_ne in Ho by done. destruct (proj1 (lo_outbox d Hok c2)) as (j & x & Hj & Hx); [by exists k, o |].
        exists j, x. unfold ms. rewrite lookup_insert_ne by congruence. done.
    + intros (j & x & Hj & Hx & Hs). unfold ms in Hj. destruct (decide (j = l_next d)) as [-> | Hj'].
      * rewrite lookup_insert_eq in Hj. injection Hj as <-. exists (l_next d + 1), ob. rewrite lookup_insert_eq. split; [done | congruence].
      * rewrite lookup_insert_ne in Hj by done. destruct (proj2 (lo_outbox d Hok c2)) as (k & o & Ho & Hoc); [by exists j, x |].
        exists k, o. rewrite lookup_insert_ne; [done |]. intros <-.
        destruct (lo_fresh d Hok (l_next d + 1) ltac:(lia)) as [_ Hn]. congruence.
  - apply (lo_seq d Hok).
Qed.

Lemma enqueueSend_keeps now isOpen m r client payload : keeps (enqueueSend now isOpen m r client payload).
Proof.
  unfold enqueueSend. destruct (_ || (_ && _)) eqn:Eg; [apply keeps_refuse |]. cbn [md_type md_client].
  assert (Hcl : client = md_client m).
  { destruct (decide (client = md_client m)) as [| Hne]; [done |]. rewrite (bool_decide_eq_false_2 _ Hne) in Eg.
    cbn [negb] in Eg. by rewrite orb_true_r in Eg. }
  apply txn_keeps. intros d t a d' t' Hok Hr.
  apply bind_Some in Hr as (i & d1 & t1 & H1 & Hr). apply stmt_Some in H1.
  apply bind_Some in Hr as ([] & d2 & t2 & H2 & Hr).
  apply bind_Some in Hr as (op & d3 & t3 & H3 & Hr). apply stmt_Some in H3. apply ret_Some in Hr as [_ ->].
  assert (H2' : d2 = d1 ∨ insert_resource_row i (resource_of r) d1 = Some (tt, d2)).
  { destruct (is_resource (md_type m)); [right; by apply stmt_Some in H2 | left; by apply ret_Some in H2 as [_ ->]]. }
  match type of H1 with insert_row ?x _ = _ => match type of H3 with insert_outbox ?o _ = _ =>
    exact (enqueue_ok d x (md_client m) i d1 d2 o op d3 (resource_of r) Hok eq_refl eq_refl Hcl H1 H2' H3) end end.
Qed.

Lemma insert_or_ignore_keeps mid m :
  l_status m = Sent → is_Some (l_id m) → keeps (stmt (insert_or_ignore mid m)).
Proof.
  intros Hs Hi. apply keeps_stmt. intros d a d' Hok. unfold insert_or_ignore.
  destruct (insert_row m d) as [[i d1] |] eqn:E; intros [= <- <-]; [| done].
  eapply insert_row_ok; [done | | | done]; [congruence | done].
Qed.

Lemma upsert_resource_keeps i r : keeps (stmt (upsert_resource i r)).
Proof.
  apply keeps_stmt. intros d a d' Hok. unfold upsert_resource. destruct (0 <? lr_size r); [| done].
  destruct (bool_decide (is_Some (l_messages d !! i))) eqn:Em; [| done]. apply bool_decide_eq_true in Em.
  intros [= <- <-]. destruct Hok. constructor; cbn; try done.
  intros j Hj. destruct (decide (j = i)) as [-> |]; [done | rewrite lookup_insert_ne in Hj by done; by apply lo_resources0].
Qed.

Lemma insertMessageIgnore_keeps m r : keeps (insertMessageIgnore m r).
Proof.
  unfold insertMessageIgnore. apply if_keeps; [auto with keeps |].
  apply keeps_bind; [apply insert_or_ignore_keeps; [done | by eexists] |]. intros new.
  apply keeps_bind; [destruct new; [apply keeps_ret | apply keeps_bind; [apply keeps_sel | intros [[] |]; auto with keeps]] |].
  intros i. repeat apply if_keeps; [auto with keeps.. |]. apply keeps_bind; [apply upsert_resource_keeps | auto with keeps].
Qed.

(** Statements of the other tables. *)
Lemma touch_conversation_keeps m peer : keeps (stmt (touch_conversation m peer)).
Proof. apply keeps_core. by intros d a d' Hs [= <- <-]. Qed.

Lemma merge_conversation_keeps now v : keeps (stmt (merge_conversation now v)).
Proof. apply keeps_core. by intros d a d' Hs [= <- <-]. Qed.

Lemma note_history_keeps thread oldest complete : keeps (stmt (note_history thread oldest complete)).
Proof. apply keeps_core. intros d a d' Hs. unfold note_history. destruct (_ !! _); [| done]. by intros [= <- <-]. Qed.

Lemma upsertConversationOnMessage_keeps self m : keeps (upsertConversationOnMessage self m).
Proof.
  unfold upsertConversationOnMessage. apply keeps_bind.
  - apply if_keeps; [auto with keeps |]. apply keeps_bind; [auto with keeps | intros []; auto with keeps].
  - intros peer. apply if_keeps; [auto with keeps | apply touch_conversation_keeps].
Qed.

Lemma insert_one_keeps self m r : keeps (insert_one self m r).
Proof.
  apply keeps_bind; [apply insertMessageIgnore_keeps |]. intros []; [| auto with keeps].
  apply keeps_bind; [apply upsertConversationOnMessage_keeps | auto with keeps].
Qed.

Lemma insert_all_keeps self l ids : keeps (insert_all self l ids).
Proof.
  revert ids. induction l as [| [m r] l IH]; intros ids; cbn; [apply keeps_ret |].
  apply keeps_bind; [apply insert_one_keeps | intros; apply IH].
Qed.

Lemma upsertFriendRequest_keeps q : keeps (upsertFriendRequest q).
Proof. apply if_keeps; [auto with keeps |]. apply keeps_core. by intros d a d' Hs [= <- <-]. Qed.

Lemma upsertContact_keeps c : keeps (upsertContact c).
Proof. apply if_keeps; [auto with keeps |]. apply keeps_core. by intros d a d' Hs [= <- <-]. Qed.

Lemma upsertConversations_keeps now l : keeps (upsertConversations now l).
Proof.
  induction l as [| v l IH]; cbn; [apply keeps_ret |]. apply if_keeps; [auto with keeps |].
  apply keeps_bind; [apply merge_conversation_keeps | intros []; apply IH].
Qed.

Lemma applyEvent_keeps now self ev messages requests contacts ids : keeps (applyEvent now self ev messages requests contacts ids).
Proof.
  unfold applyEvent. apply if_keeps.
  - destruct (List.find _ messages) as [[m r] |]; [| auto with keeps].
    apply keeps_bind; [apply insert_one_keeps | auto with keeps].
  - destruct (List.find _ requests) as [q |]; [| auto with keeps].
    apply keeps_bind; [apply upsertFriendRequest_keeps |]. intros []. apply if_keeps; [apply if_keeps; auto with keeps |].
    apply keeps_bind; [apply keeps_core; by intros d a d' Hs [= <- <-] |]. intros [].
    destruct (List.find _ contacts) as [c |]; [| auto with keeps].
    apply keeps_bind; [apply upsertContact_keeps |]. intros [].
    apply keeps_bind; [apply upsertConversations_keeps | auto with keeps].
Qed.

Lemma apply_events_keeps now self evs messages requests contacts ids :
  keeps (apply_events now self evs messages requests contacts ids).
Proof.
  revert ids. induction evs as [| ev evs IH]; intros ids; cbn; [apply keeps_ret |].
  apply keeps_bind; [apply applyEvent_keeps | intros; apply IH].
Qed.

Lemma contiguous_nonneg cur evs : 0 <= cur → contiguous cur evs = true →
  0 <= match last evs with Some ev => ue_seq ev | None => cur end.
Proof.
  intros Hc Hs. apply bool_decide_eq_true in Hs. destruct (last evs) as [ev |] eqn:El; [| done].
  assert (Hin : ue_seq ev ∈ seqZ (cur + 1) (zlen evs)).
  { rewrite <- Hs. apply list_elem_of_fmap_2. rewrite last_lookup in El. by eapply list_elem_of_lookup_2. }
  apply elem_of_seqZ in Hin. lia.
Qed.

Lemma applySyncPage_keeps now self evs messages resources requests contacts new :
  keeps (applySyncPage now self evs messages resources requests contacts new).
Proof.
  unfold applySyncPage. apply if_keeps; [auto with keeps |]. intros d t r d' t' Hok.
  unfold mbind at 1, Sq_bind at 1. destruct (getSyncState d t) as [[[[cur boot] |] d1] t1] eqn:Eg.
  2: { unfold getSyncState, sel, stmt in Eg. destruct (tape_next t) as [o t2]. destruct (io_ok o); [done |].
       injection Eg as <- <-. by intros [= <- <- <-]. }
  apply sel_Some in Eg as [[= -> ->] ->]. destruct (contiguous (l_seq d) evs) eqn:Ec; [| by intros [= <- <- <-]]. cbn [negb].
  destruct (new =? _) eqn:En; [| by intros [= <- <- <-]]. cbn [negb]. apply Z.eqb_eq in En.
  assert (Hnew : 0 <= new) by (rewrite En; apply contiguous_nonneg; [apply (lo_seq d Hok) | done]).
  apply txn_keeps; [| done]. apply keeps_settles. apply keeps_bind; [apply apply_events_keeps |]. intros ids.
  apply keeps_bind; [| auto with keeps]. apply keeps_stmt. intros d2 a d3 Hok2 [= <- <-].
  eapply ldb_ok_same_core; [| exact Hok2]. by split_and!.
Qed.

Lemma insert_history_keeps thread l oldest : keeps (insert_history thread l oldest).
Proof.
  revert oldest. induction l as [| [m r] l IH]; intros oldest; cbn; [apply keeps_ret |]. apply if_keeps; [auto with keeps |].
  apply keeps_bind; [apply insertMessageIgnore_keeps | intros; apply IH].
Qed.

Lemma upsert_requests_keeps l : keeps (upsert_requests l).
Proof. induction l as [| q l IH]; cbn; [apply keeps_ret |]. apply keeps_bind; [apply upsertFriendRequest_keeps | intros []; apply IH]. Qed.

Lemma upsert_contacts_keeps now l : keeps (upsert_contacts now l).
Proof.
  induction l as [| c l IH]; cbn [upsert_contacts]; [apply keeps_ret |]. apply keeps_bind; [apply upsertContact_keeps |]. intros [].
  apply keeps_bind; [apply upsertConversations_keeps | intros []; apply IH].
Qed.

Lemma applySnapshot_keeps now requests contacts b : keeps (applySnapshot now requests contacts b).
Proof.
  apply txn_keeps, keeps_settles. apply keeps_bind.
  - apply if_keeps; [| auto with keeps]. apply keeps_bind; [apply keeps_core; by intros d a d' Hs [= <- <-] |].
    intros []. apply keeps_core. by intros d a d' Hs [= <- <-].
  - intros []. apply keeps_bind; [apply upsert_requests_keeps | intros []; apply upsert_contacts_keeps].
Qed.

Lemma markBootstrapComplete_keeps c : keeps (markBootstrapComplete c).
Proof.
  apply keeps_stmt. intros d a d' Hok. destruct (c <? 0) eqn:E; [done |]. intros [= <- <-].
  eapply ldb_ok_same_core; [| exact Hok]. bool_to_prop. by split_and!.
Qed.
