(* ===== verification/LocalStore.v ===== *)
(** * The client's database worker (client/llfcchat/src/store/localchatstore.cpp)

    One thread owns the local database. Requests reach it as queued signals,
    in order, and each slot answers with one signal. The files of all users
    are on the disk; at most one is open. *)

From S2P Require Import Prelude Database TxLogic ChatDb LocalDb.

(** ** State, requests and answers *)

(** A user's file: whether its [user_version] is the current one, and its
    tables, absent before [initSchema]. *)
Record db_file := File { f_current : bool; f_tables : option ldb }.

Record store := Store {
  st_open : bool;                 (* the handle is open *)
  st_user : Z;                    (* [_user_id] *)
  st_files : gmap Z db_file;      (* the files on the disk *)
}.

Definition new_store : store := Store false 0 ∅.

Definition file_of (s : store) : db_file := default (File false None) (st_files s !! st_user s).

Inductive request :=
  | ReqOpen (user : Z)
  | ReqClose
  | ReqEnqueue (now : Z) (m : LocalMessageDTO) (r : LocalMessageResourceDTO) (client payload : bytes)
  | ReqConfirmText (now : Z) (client : bytes) (mid created : Z)
  | ReqStage (client : bytes) (mid : Z) (stage : resource_stage)
  | ReqConfirmResource (client path : bytes)
  | ReqLocalPath (mid : Z) (path : bytes) (expectedUid : Z)
  | ReqMarkFailed (client : bytes)
  | ReqMessage (client : bytes)
  | ReqIncoming (messages : list LocalMessageDTO) (resources : list LocalMessageResourceDTO)
  | ReqSyncPage (now : Z) (evs : list UserEventDTO) (messages : list LocalMessageDTO)
      (resources : list LocalMessageResourceDTO) (requests : list LocalFriendRequestDTO)
      (contacts : list LocalContactDTO) (newEventSeq : Z)
  | ReqHistory (thread : Z) (messages : list LocalMessageDTO) (resources : list LocalMessageResourceDTO) (complete : bool)
  | ReqConversations (now : Z) (l : list LocalConversationDTO)
  | ReqSnapshot (now : Z) (requests : list LocalFriendRequestDTO) (contacts : list LocalContactDTO) (replaceCurrent : bool)
  | ReqSyncState
  | ReqMarkBootstrap (checkpoint : Z)
  | ReqOutbox
  | ReqLoadConversations
  | ReqRecent (thread limit : Z)
  | ReqOlder (thread before limit : Z).

(** The signals. [None] is a signal with [ok = false]; what it carries besides
    is then left over from the failing function, and no receiver reads it. *)
Inductive answer :=
  | SigOpened (ok : bool) (user : Z)
  | SigClosed
  | SigEnqueued (r : option (LocalMessageDTO * LocalMessageResourceDTO * OutboxEntryDTO))
  | SigSendConfirmed (r : option LocalMessageDTO)
  | SigStageUpdated (r : option LocalMessageDTO)
  | SigResourceConfirmed (r : option LocalMessageDTO)
  | SigLocalPath (ok : bool) (mid : Z) (path : bytes)
  | SigFailedMarked (r : option LocalMessageDTO)
  | SigMessageLoaded (ok : bool) (m : LocalMessageDTO) (r : LocalMessageResourceDTO)
  | SigIncoming (messages : list LocalMessageDTO) (ids : option (list Z))
  | SigPageApplied (newEventSeq : Z) (evs : list UserEventDTO)
      (requests : list LocalFriendRequestDTO) (contacts : list LocalContactDTO) (ids : option (list Z))
  | SigHistory (ok : bool) (thread : Z)
  | SigConversations (ok : bool)
  | SigSnapshot (ok : bool)
  | SigSyncState (r : option (Z * bool))
  | SigBootstrap (ok : bool) (checkpoint : Z)
  | SigOutbox (r : option (list OutboxEntryDTO))
  | SigLoadedConversations (r : option (list LocalConversationDTO))
  | SigRecent (thread : Z) (l : option (list (LocalMessageDTO * LocalMessageResourceDTO))) (complete : bool) (oldest : Z)
  | SigOlder (thread : Z) (l : option (list (LocalMessageDTO * LocalMessageResourceDTO))) (complete : bool).

(** ** Opening *)

(** [LocalChatDb::open]: the result, whether the handle is open afterwards and
    the file. The handle stays open when a pragma or the schema fails. The
    drops are one transaction; [initSchema] creates what is missing, here in
    one step. *)
Definition open (f : db_file) : tape → bool * bool * db_file * tape := λ t,
  let '(o, t) := tape_next t in            (* the driver *)
  if negb (io_ok o) then (false, false, f, t)
  else let '(o, t) := tape_next t in       (* the pragmas *)
  if negb (io_ok o) then (false, true, f, t)
  else let '(o, t) := if f_current f then (IoOk, t) else tape_next t in   (* DROP TABLE *)
  if negb (io_ok o) then (false, true, f, t)
  else let d := if f_current f then f_tables f else None in
  let '(o, t) := tape_next t in            (* initSchema *)
  if negb (io_ok o) then (false, true, File (f_current f) d, t)
  else let d := Some (default initSchema d) in
  let '(o, t) := tape_next t in            (* PRAGMA user_version=5 *)
  if negb (io_ok o) then (false, true, File (f_current f) d, t)
  else (true, true, File true d, t).

Definition slot_open_user_db (s : store) (user : Z) (t : tape) : answer * store * tape :=
  if st_open s && (st_user s =? user) then (SigOpened true user, s, t)
  else
    let f := default (File false None) (st_files s !! user) in
    let '(ok, o, f, t) := open f t in
    (SigOpened ok user, Store o user (if (o : bool) then <[user := f]> (st_files s) else st_files s), t).

(** ** The slots *)

Definition put (s : store) (d : ldb) : store :=
  Store (st_open s) (st_user s) (<[st_user s := File (f_current (file_of s)) (Some d)]> (st_files s)).

(** The database the statements reach. *)
Definition usable (s : store) : option ldb := if st_open s then f_tables (file_of s) else None.

(** Running an operation: without a database its first statement fails. *)
Definition run {A} (s : store) (m : Sq A) (t : tape) : option A * store * tape :=
  match usable s with
  | Some d => let '(r, d, t) := m d t in (r, put s d, t)
  | None => ((m initSchema [IoFail 0]).1.1, s, t)
  end.

(** The conversation's flags for a loaded window. *)
Definition conversation_flags (thread : Z) (l : option (list LocalConversationDTO)) : bool * Z :=
  match List.find (λ v, vd_thread v =? thread) (default [] l) with
  | Some v => (vd_complete v, vd_oldest v)
  | None => (false, 0)
  end.

Definition load_window (s : store) (m : Sq (list (LocalMessageDTO * LocalMessageResourceDTO))) (thread : Z) (t : tape) :
    option (list (LocalMessageDTO * LocalMessageResourceDTO)) * (bool * Z) * store * tape :=
  let '(r, s, t) := run s m t in
  match r with
  | None => (None, (false, 0), s, t)
  | Some l => let '(c, s, t) := run s loadConversations t in (Some l, conversation_flags thread c, s, t)
  end.

Definition ok {A} (r : option A) : bool := bool_decide (is_Some r).

(** An operation and the signal that reports it. *)
Definition reply {A} (s : store) (m : Sq A) (sig : option A → answer) (t : tape) : answer * store * tape :=
  let '(x, s, t) := run s m t in (sig x, s, t).

Definition serve (s : store) (q : request) (t : tape) : answer * store * tape :=
  match q with
  | ReqOpen user => slot_open_user_db s user t
  | ReqClose => (SigClosed, Store false 0 (st_files s), t)
  | ReqEnqueue now m r client payload => reply s (enqueueSend now (st_open s) m r client payload) SigEnqueued t
  | ReqConfirmText now client mid created => reply s (confirmTextSent now client mid created) SigSendConfirmed t
  | ReqStage client mid stage => reply s (updateResourceStage client mid stage) SigStageUpdated t
  | ReqConfirmResource client path => reply s (confirmResourceSent client path) SigResourceConfirmed t
  | ReqLocalPath mid path uid =>
      reply s (updateResourceLocalPath (st_open s) (st_user s) mid path uid) (λ x, SigLocalPath (ok x) mid path) t
  | ReqMarkFailed client => reply s (markSendFailed client) SigFailedMarked t
  | ReqMessage client =>
      reply s (getMessageByClientId (st_open s) client)
        (λ x, SigMessageLoaded (ok x) (default (no_message, no_resource) x).1 (default (no_message, no_resource) x).2) t
  | ReqIncoming messages resources => reply s (insertIncoming (st_user s) messages resources) (SigIncoming messages) t
  | ReqSyncPage now evs messages resources requests contacts new =>
      reply s (applySyncPage now (st_user s) evs messages resources requests contacts new)
        (SigPageApplied new evs requests contacts) t
  | ReqHistory thread messages resources complete =>
      reply s (insertHistoryPage thread messages resources complete) (λ x, SigHistory (ok x) thread) t
  | ReqConversations now l => reply s (upsertConversations now l) (λ x, SigConversations (ok x)) t
  | ReqSnapshot now requests contacts b => reply s (applySnapshot now requests contacts b) (λ x, SigSnapshot (ok x)) t
  | ReqSyncState => reply s getSyncState SigSyncState t
  | ReqMarkBootstrap c => reply s (markBootstrapComplete c) (λ x, SigBootstrap (ok x) c) t
  | ReqOutbox => reply s loadOutbox SigOutbox t
  | ReqLoadConversations => reply s loadConversations SigLoadedConversations t
  | ReqRecent thread limit =>
      let '(l, (c, o), s, t) := load_window s (loadRecentMessages thread limit) thread t in (SigRecent thread l c o, s, t)
  | ReqOlder thread before limit =>
      let '(l, (c, _), s, t) := load_window s (loadOlderMessages thread before limit) thread t in (SigOlder thread l c, s, t)
  end.

(** A run of the worker over its queue. *)
Fixpoint serve_all (s : store) (qs : list request) (t : tape) : list answer * store * tape :=
  match qs with
  | [] => ([], s, t)
  | q :: qs =>
      let '(a, s, t) := serve s q t in
      let '(l, s, t) := serve_all s qs t in (a :: l, s, t)
  end.

(** ** No send is lost *)

Definition store_ok (s : store) : Prop :=
  ∀ u f d, st_files s !! u = Some f → f_tables f = Some d → ldb_ok d.

Lemma usable_ok s d : store_ok s → usable s = Some d → ldb_ok d.
Proof.
  unfold usable, file_of. intros Hs. destruct (st_open s); [| done].
  destruct (st_files s !! st_user s) as [f |] eqn:E; cbn; [| done]. intros Hd. by eapply Hs.
Qed.

Lemma set_file_ok (s : store) o v u f :
  store_ok s → (∀ d, f_tables f = Some d → ldb_ok d) → store_ok (Store o v (<[u := f]> (st_files s))).
Proof.
  intros Hs Hf u' f' d Hu. cbn in Hu. destruct (decide (u' = u)) as [-> |].
  - rewrite lookup_insert_eq in Hu. injection Hu as <-. apply Hf.
  - rewrite lookup_insert_ne in Hu by done. by eapply Hs.
Qed.

Lemma put_ok s d : store_ok s → ldb_ok d → store_ok (put s d).
Proof. intros Hs Hd. apply set_file_ok; [done |]. by intros ? [= <-]. Qed.

Lemma run_ok {A} s (m : Sq A) t x s' t' : store_ok s → keeps m → run s m t = (x, s', t') → store_ok s'.
Proof.
  intros Hs Hm. unfold run. destruct (usable s) as [d |] eqn:E; [| by intros [= <- <- <-]].
  destruct (m d t) as [[r d1] t1] eqn:Em. intros [= <- <- <-]. apply put_ok; [done |].
  eapply Hm; [by eapply usable_ok | done].
Qed.

Lemma reply_ok {A} s (m : Sq A) sig t x s' t' : store_ok s → keeps m → reply s m sig t = (x, s', t') → store_ok s'.
Proof.
  intros Hs Hm. unfold reply. destruct (run s m t) as [[r s1] t1] eqn:E. intros [= <- <- <-]. by eapply run_ok.
Qed.

Lemma load_window_ok s m thread t l f s' t' : store_ok s → keeps m → load_window s m thread t = (l, f, s', t') → store_ok s'.
Proof.
  intros Hs Hm. unfold load_window. destruct (run s m t) as [[r s1] t1] eqn:E. apply run_ok in E; [| done..].
  destruct r; [| by intros [= <- <- <- <-]]. destruct (run s1 loadConversations t1) as [[c s2] t2] eqn:E2.
  apply run_ok in E2; [| done | apply keeps_sel]. by intros [= <- <- <- <-].
Qed.

Lemma open_ok f t b o f' t' :
  (∀ d, f_tables f = Some d → ldb_ok d) → open f t = (b, o, f', t') → ∀ d, f_tables f' = Some d → ldb_ok d.
Proof.
  intros Hf. destruct f as [c ts]; cbn in Hf.
  assert (Hd : ldb_ok (default initSchema ts)) by (destruct ts; [by apply Hf | apply initSchema_ok]).
  unfold open. destruct (tape_next t) as [[] t1]; [| by intros [= <- <- <- <-]].
  destruct (tape_next t1) as [[] t2]; [| by intros [= <- <- <- <-]].
  destruct c; cbn.
  - destruct (tape_next t2) as [[] t3]; [| by intros [= <- <- <- <-]].
    destruct (tape_next t3) as [[] t4]; cbn; intros [= <- <- <- <-] d; cbn; by intros [= <-].
  - destruct (tape_next t2) as [[] t3]; [| by intros [= <- <- <- <-]]. cbn.
    destruct (tape_next t3) as [[] t4]; [| by intros [= <- <- <- <-]]. cbn.
    destruct (tape_next t4) as [[] t5]; cbn; intros [= <- <- <- <-] d; cbn; intros [= <-]; apply initSchema_ok.
Qed.

#[local] Hint Resolve enqueueSend_keeps confirmTextSent_keeps updateResourceStage_keeps confirmResourceSent_keeps
  markSendFailed_keeps fill_keeps applySyncPage_keeps applySnapshot_keeps upsertConversations_keeps
  markBootstrapComplete_keeps keeps_sel keeps_refuse set_path_keeps insert_all_keeps insert_history_keeps note_history_keeps
  if_keeps : keeps.

Lemma insertIncoming_keeps self ms rs : keeps (insertIncoming self ms rs).
Proof. apply if_keeps; [auto with keeps |]. apply txn_keeps, keeps_settles, insert_all_keeps. Qed.

Lemma insertHistoryPage_keeps th ms rs c : keeps (insertHistoryPage th ms rs c).
Proof. apply if_keeps; [auto with keeps |]. apply txn_keeps, keeps_settles, keeps_bind; auto with keeps. Qed.

Lemma updateResourceLocalPath_keeps o w mid p u : keeps (updateResourceLocalPath o w mid p u).
Proof. apply if_keeps; [auto with keeps | apply if_keeps; auto with keeps]. Qed.

Lemma getMessageByClientId_keeps o c : keeps (getMessageByClientId o c).
Proof. apply if_keeps; auto with keeps. Qed.

#[local] Hint Resolve insertIncoming_keeps insertHistoryPage_keeps updateResourceLocalPath_keeps
  getMessageByClientId_keeps : keeps.

Lemma serve_ok s q t a s' t' : store_ok s → serve s q t = (a, s', t') → store_ok s'.
Proof.
  intros Hs. destruct q; cbn [serve];
    try (intros Hr; eapply reply_ok; [exact Hs | | exact Hr]; auto with keeps; fail).
  - unfold slot_open_user_db. destruct (st_open s && (st_user s =? user)); [by intros [= <- <- <-] |].
    destruct (open _ t) as [[[b o] f] t1] eqn:E. intros [= <- <- <-]. destruct o; [| done].
    apply set_file_ok; [done |]. eapply open_ok; [| exact E]. intros d.
    destruct (st_files s !! user) eqn:Ef; cbn; [by eapply Hs | done].
  - by intros [= <- <- <-].
  - intros Hr. eapply reply_ok; [exact Hs | apply keeps_sel | exact Hr].
  - intros Hr. eapply reply_ok; [exact Hs | apply keeps_sel | exact Hr].
  - intros Hr. eapply reply_ok; [exact Hs | apply keeps_sel | exact Hr].
  - destruct (load_window _ _ _ _) as [[[l [c o]] s1] t1] eqn:E. apply load_window_ok in E; [| done | apply keeps_sel].
    by intros [= <- <- <-].
  - destruct (load_window _ _ _ _) as [[[l [c o]] s1] t1] eqn:E. apply load_window_ok in E; [| done | apply keeps_sel].
    by intros [= <- <- <-].
Qed.

(** C13: the outbox holds exactly the messages that are still being sent.
    From an empty disk, whatever requests reach the database worker, in any
    order, and whichever statements fail, in every user's file a message row
    is in the state Sending if and only if the outbox has an entry for it;
    message and client identifiers are unique and every row in the state
    Sent has the server's identifier. *)
Theorem worker_keeps_outbox qs t l s t' :
  serve_all new_store qs t = (l, s, t') → store_ok s.
Proof.
  assert (Hnew : store_ok new_store) by (intros u f d Hu; unfold new_store in Hu; cbn in Hu; by rewrite lookup_empty in Hu).
  revert Hnew t l. generalize new_store as s0. induction qs as [| q qs IH]; intros s0 Hs0 t l; cbn.
  - by intros [= <- <- <-].
  - destruct (serve s0 q t) as [[a s1] t1] eqn:E. apply serve_ok in E; [| done].
    destruct (serve_all s1 qs t1) as [[l1 s2] t2] eqn:E2. intros [= <- <- <-]. by eapply IH.
Qed.

(** Opening a database, sending a text and a picture, and the server's
    confirmation of the text. *)
Definition demo_text : LocalMessageDTO := MsgDTO 0 0 §"c1" 5 7 TEXT §"hi" Sending 10.
Definition demo_picture : LocalMessageDTO := MsgDTO 0 0 §"c2" 5 7 PIC [] Sending 11.
Definition demo_queue : list request :=
  [ReqOpen 7; ReqEnqueue 10 demo_text no_resource §"c1" §"{}";
   ReqEnqueue 11 demo_picture (ResDTO 0 §"a.png" [] 4 §"00" §"image/png") §"c2" §"{}";
   ReqConfirmText 12 §"c1" 90 12].

Lemma worker_keeps_outbox_witness :
  ∃ l s t d, serve_all new_store demo_queue [] = (l, s, t) ∧ store_ok s ∧ usable s = Some d ∧
    (ob_client <$> (map_to_list (l_outbox d)).*2) = [§"c2"] ∧
    ((λ m, (l_client m, l_status m)) <$> (map_to_list (l_messages d)).*2) =
      [(Some §"c2", Sending); (Some §"c1", Sent)].
Proof.
  destruct (serve_all new_store demo_queue []) as [[l s] t] eqn:E.
  pose proof (worker_keeps_outbox demo_queue [] l s t E) as Hok.
  destruct (usable s) as [d |] eqn:Ed; [| vm_compute in E; injection E as <- <- <-; vm_compute in Ed; discriminate].
  exists l, s, t, d. split; [done |]. split; [done |]. split; [done |].
  vm_compute in E. injection E as <- <- <-. vm_compute in Ed. injection Ed as <-. split; vm_compute; reflexivity.
Defined.
