(* ===== verification/LocalSync.v ===== *)
(** * Applying a page of events to the local database

    What [applySyncPage] of client/llfcchat/src/store/localchatdb.cpp
    guarantees: a page is the next one or it is refused; it is applied as a
    whole or not at all; every message is stored once. *)

From S2P Require Import Prelude Database TxLogic ChatDb LocalDb.

(** ** Growing message tables *)

Definition has_message (d : ldb) (mid : Z) : Prop := ∃ i x, l_messages d !! i = Some x ∧ l_id x = Some mid.

(** [d'] has the messages [new] more than [d], received, and what [d] has
    for sending is untouched. *)
Record extends (new : list Z) (d d' : ldb) : Prop := {
  ex_rows : l_messages d ⊆ l_messages d';
  ex_added : ∀ i x, l_messages d' !! i = Some x → l_messages d !! i = None →
    l_status x = Sent ∧ ∃ mid, mid ∈ new ∧ l_id x = Some mid;
  ex_new : ∀ mid, mid ∈ new → has_message d' mid ∧ ¬ has_message d mid;
  ex_once : NoDup new;
  ex_outbox : l_outbox d' = l_outbox d;
  ex_requests : ∀ i, is_Some (l_requests d !! i) → is_Some (l_requests d' !! i);
  ex_seq : l_seq d' = l_seq d;
}.

Lemma extends_same d d' :
  l_messages d' = l_messages d → l_outbox d' = l_outbox d → l_seq d' = l_seq d →
  (∀ i, is_Some (l_requests d !! i) → is_Some (l_requests d' !! i)) → extends [] d d'.
Proof.
  intros Hm Ho Hs Hq. constructor; try done; rewrite ?Hm; try done.
  - intros i x Hx Hn. congruence.
  - intros mid Hin. by apply elem_of_nil in Hin.
  - constructor.
Qed.

Lemma extends_refl d : extends [] d d.
Proof. by apply extends_same. Qed.

Lemma has_message_mono d d' mid : l_messages d ⊆ l_messages d' → has_message d mid → has_message d' mid.
Proof. intros Hs (i & x & Hi & Hx). exists i, x. split; [by eapply lookup_weaken | done]. Qed.

Lemma extends_trans n1 n2 d d1 d2 : extends n1 d d1 → extends n2 d1 d2 → extends (n1 ++ n2) d d2.
Proof.
  intros [R1 A1 N1 O1 B1 Q1 S1] [R2 A2 N2 O2 B2 Q2 S2]. constructor.
  - by etrans.
  - intros i x Hx Hn. destruct (l_messages d1 !! i) as [y |] eqn:Ey.
    + assert (x = y) as -> by (eapply lookup_weaken in Ey; [| exact R2]; congruence).
      destruct (A1 i y Ey Hn) as (Hs & mid & Hin & Hid). split; [done |]. exists mid. rewrite elem_of_app. auto.
    + destruct (A2 i x Hx Ey) as (Hs & mid & Hin & Hid). split; [done |]. exists mid. rewrite elem_of_app. auto.
  - intros mid [Hin | Hin]%elem_of_app.
    + destruct (N1 mid Hin) as [Hh Hn]. split; [by eapply has_message_mono | done].
    + destruct (N2 mid Hin) as [Hh Hn]. split; [done |]. intros Hd. apply Hn. by eapply has_message_mono.
  - apply NoDup_app. split; [done |]. split; [| done]. intros mid H1 H2.
    destruct (N1 mid H1) as [Hh _]. by destruct (N2 mid H2) as [_ []].
  - by rewrite B2.
  - intros i Hi. by apply Q2, Q1.
  - by rewrite S2.
Qed.

(** ** Storing one message *)

Lemma insertMessageIgnore_extends m r d t b d' t' :
  ldb_ok d → insertMessageIgnore m r d t = (Some b, d', t') →
  extends (if b then [md_id m] else []) d d' ∧ has_message d' (md_id m).
Proof.
  intros Hok. unfold insertMessageIgnore. destruct (_ || _) eqn:Eg; [done |]. intros Hr.
  apply bind_Some in Hr as (new & d1 & t1 & Hi & Hr). apply stmt_Some in Hi.
  apply bind_Some in Hr as (local & d2 & t2 & Hl & Hr).
  (* the row *)
  assert (Hrow : d2 = d1 ∧ extends (if bool_decide (is_Some new) then [md_id m] else []) d d1 ∧ has_message d1 (md_id m)).
  { unfold insert_or_ignore in Hi. destruct (insert_row _ d) as [[i d1'] |] eqn:Ei.
    - injection Hi as <- <-. apply ret_Some in Hl as [_ ->]. split; [done |].
      unfold insert_row in Ei. destruct (row_shape _ && keys_free _ _ _) eqn:Ek; [| done]. injection Ei as <- <-.
      bool_to_prop. rename H0 into Hk. rewrite keys_free_spec in Hk.
      destruct (lo_fresh d Hok (l_next d) ltac:(lia)) as [Hf _].
      assert (Hhas : has_message (with_counter (with_messages d (<[l_next d := local_row m (Some (md_id m)) (NullableText (md_client m)) Sent]>
        (l_messages d))) (l_next d + 1)) (md_id m)).
      { exists (l_next d). eexists. cbn. rewrite lookup_insert_eq. done. }
      rewrite bool_decide_eq_true_2 by (by eexists). split; [| exact Hhas]. constructor; cbn; try done.
      + by apply insert_subseteq.
      + intros j x Hj Hn. destruct (decide (j = l_next d)) as [-> |]; [| by rewrite lookup_insert_ne in Hj; congruence].
        rewrite lookup_insert_eq in Hj. injection Hj as <-. split; [done |]. exists (md_id m). split; [by left | done].
      + intros mid Hin. apply list_elem_of_singleton in Hin as ->. split; [exact Hhas |]. intros (j & x & Hj & Hx).
        destruct (Hk j x Hj) as [Hid _]; [congruence |]. by apply Hid; [eexists |].
      + apply NoDup_singleton.
    - injection Hi as <- <-. apply bind_Some in Hl as ([[i x] |] & d3 & t3 & Hs & Hl); [| done].
      apply sel_Some in Hs as [Hs ->]. apply ret_Some in Hl as [-> ->]. split; [done |]. cbn.
      split; [apply extends_refl |]. symmetry in Hs.
      apply row_of_id_Some in Hs as [Hi Hx]. by exists i, x. }
  destruct Hrow as (-> & Hex & Hhas). destruct (md_type m =? TEXT).
  { apply ret_Some in Hr as [-> ->]. done. }
  destruct (negb (resource_complete r)); [done |].
  apply bind_Some in Hr as ([] & d3 & t3 & Hu & Hr). apply ret_Some in Hr as [-> ->]. apply stmt_Some in Hu.
  unfold upsert_resource in Hu. destruct ((0 <? _) && _); [| discriminate Hu]. injection Hu as <-. split; [| exact Hhas].
  match goal with |- extends ?n _ _ => rewrite <- (app_nil_r n) end. eapply extends_trans; [exact Hex |]. by apply extends_same.
Qed.

Lemma touch_extends m peer d t u d' t' : stmt (touch_conversation m peer) d t = (Some u, d', t') → extends [] d d'.
Proof. intros [= <- <-]%stmt_Some. by apply extends_same. Qed.

Lemma upsertConversationOnMessage_extends self m d t u d' t' :
  upsertConversationOnMessage self m d t = (Some u, d', t') → extends [] d d'.
Proof.
  intros Hr. apply bind_Some in Hr as (peer & d1 & t1 & Hp & Hr).
  assert (d1 = d) as ->.
  { destruct (negb _); [by apply ret_Some in Hp as [_ ->] |].
    apply bind_Some in Hp as ([c |] & d2 & t2 & Hs & Hp); [| done]. apply sel_Some in Hs as [_ ->]. by apply ret_Some in Hp as [_ ->]. }
  destruct (peer <=? 0); [done |]. by eapply touch_extends.
Qed.

Lemma insert_one_extends self m r d t b d' t' :
  ldb_ok d → insert_one self m r d t = (Some b, d', t') →
  extends (if b then [md_id m] else []) d d' ∧ has_message d' (md_id m).
Proof.
  intros Hok Hr. apply bind_Some in Hr as (ins & d1 & t1 & Hi & Hr).
  apply insertMessageIgnore_extends in Hi as [Hex Hhas]; [| done]. destruct ins.
  - apply bind_Some in Hr as ([] & d2 & t2 & Hc & Hr). apply ret_Some in Hr as [-> ->].
    apply upsertConversationOnMessage_extends in Hc. split.
    + rewrite <- (app_nil_r [md_id m]). by eapply extends_trans.
    + eapply has_message_mono; [apply (ex_rows _ _ _ Hc) | done].
  - apply ret_Some in Hr as [-> ->]. done.
Qed.

(** ** Applying one event *)

(** What an applied event leaves: its message, or its request. *)
Definition event_applied (d : ldb) (ev : UserEventDTO) : Prop :=
  ((ue_type ev = TEXT ∨ ue_type ev = PIC ∨ ue_type ev = FILE) ∧ has_message d (ue_message ev)) ∨
  ((ue_type ev = FRIEND_APPLY ∨ ue_type ev = FRIEND_ACCEPT ∨ ue_type ev = FRIEND_REJECT) ∧
   is_Some (l_requests d !! ue_request ev)).

Lemma event_applied_mono new d d' ev : extends new d d' → event_applied d ev → event_applied d' ev.
Proof.
  intros Hex [[Ht Hm] | [Ht Hq]]; [left | right]; (split; [done |]).
  - eapply has_message_mono; [apply (ex_rows _ _ _ Hex) | done].
  - by apply (ex_requests _ _ _ Hex).
Qed.

Lemma upsertConversations_extends now l d t u d' t' :
  upsertConversations now l d t = (Some u, d', t') → extends [] d d'.
Proof.
  revert d t. induction l as [| v l IH]; intros d t; cbn [upsertConversations].
  - intros [_ ->]%ret_Some. apply extends_refl.
  - destruct (_ || _); [done |]. intros ([] & d1 & t1 & Hs & Hr)%bind_Some. apply stmt_Some in Hs. injection Hs as <-.
    apply IH in Hr. eapply (extends_trans [] []); [| exact Hr]. by apply extends_same.
Qed.

Lemma upsertFriendRequest_extends q d t u d' t' :
  upsertFriendRequest q d t = (Some u, d', t') → extends [] d d' ∧ is_Some (l_requests d' !! fd_id q).
Proof.
  unfold upsertFriendRequest. destruct (negb _); [done |]. intros [= <- <-]%stmt_Some. cbn.
  rewrite lookup_insert_eq. split; [| done]. apply extends_same; try done.
  intros i Hi. cbn. destruct (decide (i = fd_id q)) as [-> |]; [by rewrite lookup_insert_eq | by rewrite lookup_insert_ne].
Qed.

Lemma upsertContact_extends c d t u d' t' : upsertContact c d t = (Some u, d', t') → extends [] d d'.
Proof.
  unfold upsertContact. destruct (_ || _); [done |]. intros [= <- <-]%stmt_Some. by apply extends_same.
Qed.

Lemma accept_between_extends self peer th d t u d' t' :
  stmt (accept_between self peer th) d t = (Some u, d', t') → extends [] d d'.
Proof.
  intros [= <- <-]%stmt_Some. apply extends_same; try done.
  intros i [x Hx]. cbn. by rewrite lookup_fmap, Hx.
Qed.

Lemma applyEvent_extends now self ev ms qs cs ids d t ids' d' t' :
  ldb_ok d → applyEvent now self ev ms qs cs ids d t = (Some ids', d', t') →
  ∃ new, ids' = ids ++ new ∧ extends new d d' ∧ event_applied d' ev.
Proof.
  intros Hok. unfold applyEvent. destruct (_ || _) eqn:Ety.
  - destruct (List.find _ ms) as [[m r] |] eqn:Ef; [| done]. apply List.find_some in Ef as [_ Ef]. cbn in Ef.
    intros (b & d1 & t1 & Hi & Hr)%bind_Some. apply insert_one_extends in Hi as [Hex Hhas]; [| done].
    apply ret_Some in Hr as [-> ->]. apply Z.eqb_eq in Ef. rewrite Ef in Hex, Hhas.
    exists (if b then [ue_message ev] else []). split; [by destruct b; rewrite ?app_nil_r |]. split; [done |].
    left. split; [| done]. apply orb_true_iff in Ety as [[?%Z.eqb_eq | ?%Z.eqb_eq]%orb_true_iff | ?%Z.eqb_eq]; auto.
  - destruct (List.find _ qs) as [q |] eqn:Ef; [| done]. apply List.find_some in Ef as [_ Ef%Z.eqb_eq].
    intros ([] & d1 & t1 & Hq & Hr)%bind_Some. apply upsertFriendRequest_extends in Hq as [Hex Hq]. rewrite Ef in Hq.
    assert (Hdone : ∀ d2, extends [] d1 d2 → ue_type ev = FRIEND_APPLY ∨ ue_type ev = FRIEND_ACCEPT ∨ ue_type ev = FRIEND_REJECT →
      ∃ new, ids = ids ++ new ∧ extends new d d2 ∧ event_applied d2 ev).
    { intros d2 Hex2 Ht. exists []. rewrite app_nil_r. split; [done |]. split; [by apply (extends_trans [] [] d d1) |].
      eapply event_applied_mono; [exact Hex2 | by right]. }
    destruct (ue_type ev =? FRIEND_ACCEPT) eqn:Ea; cbn [negb] in Hr.
    + apply Z.eqb_eq in Ea. apply bind_Some in Hr as ([] & d2 & t2 & Hacc & Hr). apply accept_between_extends in Hacc.
      destruct (List.find _ cs) as [c |]; [| done]. apply bind_Some in Hr as ([] & d3 & t3 & Hc & Hr).
      apply upsertContact_extends in Hc. apply bind_Some in Hr as ([] & d4 & t4 & Hv & Hr). apply upsertConversations_extends in Hv.
      apply ret_Some in Hr as [-> ->]. apply Hdone; [| auto].
      eapply (extends_trans [] []); [exact Hacc |]. by eapply (extends_trans [] []).
    + destruct ((ue_type ev =? FRIEND_APPLY) || (ue_type ev =? FRIEND_REJECT)) eqn:Et; [| discriminate Hr]. apply ret_Some in Hr as [-> ->]. apply Hdone; [apply extends_refl |].
      apply orb_true_iff in Et as [?%Z.eqb_eq | ?%Z.eqb_eq]; auto.
Qed.

Lemma apply_events_extends now self evs ms qs cs ids d t ids' d' t' :
  ldb_ok d → apply_events now self evs ms qs cs ids d t = (Some ids', d', t') →
  ∃ new, ids' = ids ++ new ∧ extends new d d' ∧ Forall (event_applied d') evs.
Proof.
  revert ids d t. induction evs as [| ev evs IH]; intros ids d t Hok; cbn [apply_events].
  - intros [-> ->]%ret_Some. exists []. rewrite app_nil_r. split; [done |]. split; [apply extends_refl | constructor].
  - intros (ids1 & d1 & t1 & He & Hr)%bind_Some. assert (Hok1 : ldb_ok d1) by by eapply applyEvent_keeps in He.
    apply applyEvent_extends in He as (n1 & -> & Hex1 & Ha); [| done]. apply IH in Hr as (n2 & -> & Hex2 & Hall); [| done].
    exists (n1 ++ n2). rewrite app_assoc. split; [done |]. split; [by eapply extends_trans |].
    constructor; [by eapply event_applied_mono | done].
Qed.

(** ** Applying a page *)

(** The effect of a page that was applied: the events are the next ones, the
    cursor is behind the last of them, and each message is new or was there. *)
Record page_applied (evs : list UserEventDTO) (ids : list Z) (d d' : ldb) : Prop := {
  pa_next : ue_seq <$> evs = seqZ (l_seq d + 1) (zlen evs);
  pa_seq : l_seq d' = l_seq d + zlen evs;
  pa_events : Forall (event_applied d') evs;
  pa_rows : l_messages d ⊆ l_messages d';
  pa_new : ∀ mid, mid ∈ ids → has_message d' mid ∧ ¬ has_message d mid;
  pa_once : NoDup ids;
  pa_added : ∀ i x, l_messages d' !! i = Some x → l_messages d !! i = None →
    l_status x = Sent ∧ ∃ mid, mid ∈ ids ∧ l_id x = Some mid;
  pa_outbox : l_outbox d' = l_outbox d;
  pa_requests : ∀ i, is_Some (l_requests d !! i) → is_Some (l_requests d' !! i);
}.

Lemma last_seqZ_of evs n : ue_seq <$> evs = seqZ (n + 1) (zlen evs) →
  match last evs with Some ev => ue_seq ev | None => n end = n + zlen evs.
Proof.
  intros Hs. destruct evs as [| ev evs _] using rev_ind; [unfold zlen; cbn; lia |]. rewrite last_snoc.
  assert (Hl : (ue_seq <$> evs ++ [ev]) !! length evs = Some (ue_seq ev)).
  { rewrite fmap_app, lookup_app_r; rewrite length_fmap; [by rewrite Nat.sub_diag | done]. }
  rewrite Hs in Hl. apply lookup_seqZ in Hl. unfold zlen in *. rewrite length_app in *. cbn in *. lia.
Qed.

Lemma txn_inv {A} (m : Sq A) d t r d' t' :
  txn m d t = (r, d', t') → (r = None ∧ d' = d) ∨ ∃ a t1 t2, r = Some a ∧ m d t1 = (Some a, d', t2).
Proof.
  unfold txn. destruct (tape_next t) as [o t1]. destruct (io_ok o); cbn [negb]; [| intros [= <- <- <-]; auto].
  destruct (m d t1) as [[[a |] d1] t2] eqn:E; [| intros [= <- <- <-]; auto].
  destruct (tape_next t2) as [o2 t3]. destruct (io_ok o2); intros [= <- <- <-]; [right; by exists a, t1, t2 | auto].
Qed.

Lemma applySyncPage_spec now self evs ms rs qs cs new d t r d' t' :
  ldb_ok d → applySyncPage now self evs ms rs qs cs new d t = (r, d', t') →
  match r with
  | None => d' = d
  | Some ids => page_applied evs ids d d'
  end.
Proof.
  intros Hok. unfold applySyncPage. destruct (negb _); [by intros [= <- <- <-] |].
  unfold mbind at 1, Sq_bind at 1. destruct (getSyncState d t) as [[[[cur boot] |] d1] t1] eqn:Eg.
  2: { unfold getSyncState, sel, stmt in Eg. destruct (tape_next t) as [o t2]. destruct (io_ok o); [done |].
       injection Eg as <- <-. by intros [= <- <- <-]. }
  apply sel_Some in Eg as [[= -> ->] ->]. destruct (contiguous (l_seq d) evs) eqn:Ec; [| by intros [= <- <- <-]]. cbn [negb].
  destruct (new =? _) eqn:En; [| by intros [= <- <- <-]]. cbn [negb]. apply Z.eqb_eq in En.
  apply bool_decide_eq_true in Ec. rewrite last_seqZ_of in En by done.
  intros [[-> ->] | (ids & t2 & t3 & -> & Hr)]%txn_inv; [done |].
  apply bind_Some in Hr as (ids1 & d2 & t4 & He & Hr). apply apply_events_extends in He as (n & -> & Hex & Hall); [| done].
  apply bind_Some in Hr as ([] & d3 & t5 & Hs & Hr). apply ret_Some in Hr as [-> ->]. apply stmt_Some in Hs. injection Hs as <-.
  destruct Hex. by constructor.
Qed.


(** ** Pages that are accepted *)

(** Nothing fails on the way from [m] to its result. *)
Definition succeeds {A} (m : Sq A) (d : ldb) : Prop := ∃ a d', m d [] = (Some a, d', []).

Lemma succeeds_bind {A B} (m : Sq A) (k : A → Sq B) d :
  succeeds m d → (∀ a d', m d [] = (Some a, d', []) → succeeds (k a) d') → succeeds (m ≫= k) d.
Proof. intros (a & d1 & Hm) Hk. unfold succeeds, mbind, Sq_bind. rewrite Hm. by apply Hk. Qed.

Lemma succeeds_ret {A} (a : A) d : succeeds (mret a) d.
Proof. by exists a, d. Qed.

Lemma succeeds_stmt {A} (f : ldb → option (A * ldb)) d : is_Some (f d) → succeeds (stmt f) d.
Proof. intros [[a d'] Hf]. exists a, d'. unfold stmt. cbn. by rewrite Hf. Qed.

Lemma succeeds_sel {A} (f : ldb → A) d : succeeds (sel f) d.
Proof. by apply succeeds_stmt. Qed.

Record message_fits (self : Z) (m : LocalMessageDTO) (r : LocalMessageResourceDTO) : Prop := {
  mf_id : 0 < md_id m;
  mf_client : md_client m = [];
  mf_thread : 0 < md_thread m;
  mf_sender : 0 < md_sender m;
  mf_other : md_sender m ≠ self;
  mf_type : md_type m = TEXT ∨ is_resource (md_type m) = true ∧ resource_complete r = true;
}.

Lemma insertMessageIgnore_fits self m r d : ldb_ok d → message_fits self m r → succeeds (insertMessageIgnore m r) d.
Proof.
  intros Hok [Hid Hcl Hth Hse _ Hty]. unfold insertMessageIgnore.
  rewrite !(proj2 (Z.leb_gt _ _)) by done. cbn [orb].
  assert (Hty' : negb (md_type m =? TEXT) && negb (is_resource (md_type m)) = false).
  { destruct Hty as [-> | [-> _]]; [done | by rewrite andb_false_r]. }
  rewrite Hty'. set (row := local_row m (Some (md_id m)) (NullableText (md_client m)) Sent).
  assert (Hsh : row_shape row = true).
  { unfold row_shape, row, local_row. cbn. destruct Hty as [-> | [Hres _]]; [done |]. rewrite Hres.
    assert ((md_type m =? TEXT) = false) as ->; [| done]. apply Z.eqb_neq. intros E. rewrite E in Hres. done. }
  apply succeeds_bind.
  { apply succeeds_stmt. unfold insert_or_ignore. by destruct (insert_row row d) as [[] |]. }
  intros new d1 Hn. apply stmt_Some in Hn. apply succeeds_bind.
  { unfold insert_or_ignore in Hn. destruct (insert_row row d) as [[i d1'] |] eqn:Ei; injection Hn as <- <-; [apply succeeds_ret |].
    apply succeeds_bind; [apply succeeds_sel |]. intros row' d2 [-> ->]%sel_Some.
    destruct (row_of_id (md_id m) d) as [[i x] |] eqn:Er; [apply succeeds_ret |]. exfalso.
    unfold insert_row in Ei. rewrite Hsh in Ei. destruct (keys_free d (l_next d) row) eqn:Ek; [done |].
    apply not_true_iff_false in Ek. apply Ek, keys_free_spec. intros j x Hj Hne. split.
    - intros _ Hx. by rewrite (row_of_id_is d (md_id m) j x Hok Hj Hx) in Er.
    - unfold row, local_row. cbn. rewrite Hcl. by intros []. }
  intros local d2 Hl. destruct Hty as [-> | [Hres Hrc]]; [apply succeeds_ret |].
  destruct (md_type m =? TEXT); [apply succeeds_ret |]. rewrite Hrc. cbn [negb].
  apply succeeds_bind; [| intros; apply succeeds_ret]. apply succeeds_stmt. unfold upsert_resource.
  assert (Hsize : (0 <? lr_size (resource_of r)) = true).
  { apply Z.ltb_lt. unfold resource_complete in Hrc. cbn. by bool_to_prop. }
  rewrite Hsize. cbn [andb]. rewrite bool_decide_eq_true_2; [done |].
  unfold insert_or_ignore in Hn. destruct (insert_row row d) as [[i d1'] |] eqn:Ei; injection Hn as <- <-.
  - apply ret_Some in Hl as [-> ->]. unfold insert_row in Ei. destruct (row_shape row && keys_free d (l_next d) row); [| discriminate Ei]. injection Ei as <- <-.
    cbn. by rewrite lookup_insert_eq.
  - apply bind_Some in Hl as ([[i x] |] & d3 & t3 & Hs & Hl); [| done]. apply sel_Some in Hs as [Hs ->].
    apply ret_Some in Hl as [-> ->]. symmetry in Hs. apply row_of_id_Some in Hs as [-> _]. done.
Qed.

Lemma insert_one_fits self m r d : ldb_ok d → message_fits self m r → succeeds (insert_one self m r) d.
Proof.
  intros Hok Hf. apply succeeds_bind; [by eapply insertMessageIgnore_fits |]. intros [] d1 _; [| apply succeeds_ret].
  apply succeeds_bind; [| intros; apply succeeds_ret]. destruct Hf.
  unfold upsertConversationOnMessage. rewrite (proj2 (Z.eqb_neq _ _)) by done. cbn [negb].
  apply succeeds_bind; [apply succeeds_ret |]. intros peer d2 [-> ->]%ret_Some.
  rewrite (proj2 (Z.leb_gt _ _)) by done. by apply succeeds_stmt.
Qed.

(** An event finds what it needs in the lists of its page. *)
Definition event_fits (self : Z) (ms : list (LocalMessageDTO * LocalMessageResourceDTO)) (qs : list LocalFriendRequestDTO)
    (cs : list LocalContactDTO) (ev : UserEventDTO) : Prop :=
  ((ue_type ev = TEXT ∨ ue_type ev = PIC ∨ ue_type ev = FILE) ∧
   ∃ m r, List.find (λ x : LocalMessageDTO * LocalMessageResourceDTO, md_id x.1 =? ue_message ev) ms = Some (m, r) ∧
     message_fits self m r) ∨
  ((ue_type ev = FRIEND_APPLY ∨ ue_type ev = FRIEND_ACCEPT ∨ ue_type ev = FRIEND_REJECT) ∧
   ∃ q, List.find (λ q, fd_id q =? ue_request ev) qs = Some q ∧ request_valid q = true ∧
     (ue_type ev = FRIEND_ACCEPT →
        ∃ c, List.find (λ c, cd_user c =? (if fd_requester q =? self then fd_target q else fd_requester q)) cs = Some c ∧
          0 < cd_user c ∧ 0 < cd_thread c)).

Lemma applyEvent_fits now self ev ms qs cs ids d :
  ldb_ok d → event_fits self ms qs cs ev → succeeds (applyEvent now self ev ms qs cs ids) d.
Proof.
  intros Hok [[Hty (m & r & Hf & Hm)] | [Hty (q & Hf & Hq & Hacc)]]; unfold applyEvent.
  - assert ((ue_type ev =? TEXT) || (ue_type ev =? PIC) || (ue_type ev =? FILE) = true) as -> by (destruct Hty as [-> | [-> | ->]]; done).
    rewrite Hf. apply succeeds_bind; [by eapply insert_one_fits | intros; apply succeeds_ret].
  - assert ((ue_type ev =? TEXT) || (ue_type ev =? PIC) || (ue_type ev =? FILE) = false) as -> by (destruct Hty as [-> | [-> | ->]]; done).
    rewrite Hf. apply succeeds_bind; [unfold upsertFriendRequest; rewrite Hq; by apply succeeds_stmt |]. intros [] d1 _.
    destruct (ue_type ev =? FRIEND_ACCEPT) eqn:Ea; cbn [negb].
    + apply Z.eqb_eq in Ea. destruct (Hacc Ea) as (c & Hc & Hu & Ht).
      apply succeeds_bind; [by apply succeeds_stmt |]. intros [] d2 _. rewrite Hc.
      apply succeeds_bind; [unfold upsertContact; rewrite !(proj2 (Z.leb_gt _ _)) by done; by apply succeeds_stmt |].
      intros [] d3 _. apply succeeds_bind; [| intros; apply succeeds_ret]. cbn [upsertConversations conversation_of vd_thread vd_peer].
      rewrite !(proj2 (Z.leb_gt _ _)) by done. apply succeeds_bind; [by apply succeeds_stmt | intros; apply succeeds_ret].
    + apply Z.eqb_neq in Ea. destruct Hty as [E | [E | E]]; [rewrite E | done | rewrite E]; apply succeeds_ret.
Qed.

Lemma apply_events_fits now self evs ms qs cs ids d :
  ldb_ok d → Forall (event_fits self ms qs cs) evs → succeeds (apply_events now self evs ms qs cs ids) d.
Proof.
  intros Hok Hall. revert ids d Hok. induction Hall as [| ev evs Hev Hall IH]; intros ids d Hok; cbn [apply_events].
  - apply succeeds_ret.
  - apply succeeds_bind; [by apply applyEvent_fits |]. intros ids1 d1 Hr. apply IH. by eapply applyEvent_keeps in Hr.
Qed.

(** The next page of a complete log is accepted when nothing fails. *)
Lemma applySyncPage_accepts now self evs ms rs qs cs d :
  ldb_ok d → zlen ms = zlen rs → ue_seq <$> evs = seqZ (l_seq d + 1) (zlen evs) →
  Forall (event_fits self (zip ms rs) qs cs) evs →
  succeeds (applySyncPage now self evs ms rs qs cs (l_seq d + zlen evs)) d.
Proof.
  intros Hok Hlen Hseq Hall. unfold applySyncPage. rewrite Hlen, Z.eqb_refl. cbn [negb].
  apply succeeds_bind; [apply succeeds_sel |]. intros [cur b] d1 [[= -> ->] ->]%sel_Some.
  unfold contiguous. rewrite bool_decide_eq_true_2 by done. cbn [negb]. rewrite last_seqZ_of, Z.eqb_refl by done. cbn [negb].
  destruct (apply_events_fits now self evs (zip ms rs) qs cs [] d Hok Hall) as (ids & d' & Hr).
  unfold succeeds, txn. cbn [tape_next io_ok negb].
  eexists _, _. unfold mbind, Sq_bind. rewrite Hr. unfold stmt. cbn. reflexivity.
Qed.

(** ** The snapshot of a login *)

Lemma upsert_requests_fits l d : Forall (λ q, request_valid q = true) l →
  ∃ d', upsert_requests l d [] = (Some tt, d', []) ∧ extends [] d d'.
Proof.
  intros Hall. revert d. induction Hall as [| q l Hq Hall IH]; intros d; cbn [upsert_requests].
  { exists d. split; [done | apply extends_refl]. }
  assert (He : succeeds (upsertFriendRequest q) d) by (unfold upsertFriendRequest; rewrite Hq; by apply succeeds_stmt).
  destruct He as ([] & d1 & He). unfold mbind, Sq_bind. rewrite He. apply upsertFriendRequest_extends in He as [He _].
  destruct (IH d1) as (d2 & -> & He2). exists d2. split; [done | by eapply (extends_trans [] [])].
Qed.

Lemma upsert_contacts_fits now l d : Forall (λ c, 0 < cd_user c ∧ 0 < cd_thread c) l →
  ∃ d', upsert_contacts now l d [] = (Some tt, d', []) ∧ extends [] d d'.
Proof.
  intros Hall. revert d. induction Hall as [| c l [Hu Ht] Hall IH]; intros d; cbn [upsert_contacts].
  { exists d. split; [done | apply extends_refl]. }
  assert (He : succeeds (upsertContact c) d) by (unfold upsertContact; rewrite !(proj2 (Z.leb_gt _ _)) by done; by apply succeeds_stmt).
  destruct He as ([] & d1 & He). unfold mbind at 1, Sq_bind at 1. rewrite He. apply upsertContact_extends in He.
  assert (Hv : succeeds (upsertConversations now [conversation_of now c]) d1).
  { cbn [upsertConversations conversation_of vd_thread vd_peer]. rewrite !(proj2 (Z.leb_gt _ _)) by done.
    apply succeeds_bind; [by apply succeeds_stmt | intros; apply succeeds_ret]. }
  destruct Hv as ([] & d2 & Hv). unfold mbind, Sq_bind. rewrite Hv. apply upsertConversations_extends in Hv.
  destruct (IH d2) as (d3 & -> & He3). exists d3. split; [done |].
  eapply (extends_trans [] []); [done |]. by eapply (extends_trans [] []).
Qed.

(** A valid snapshot is merged; what is there for messages stays. *)
Lemma applySnapshot_fits now qs cs d :
  Forall (λ q, request_valid q = true) qs → Forall (λ c, 0 < cd_user c ∧ 0 < cd_thread c) cs →
  ∃ d', applySnapshot now qs cs false d [] = (Some tt, d', []) ∧ extends [] d d'.
Proof.
  intros Hq Hc. destruct (upsert_requests_fits qs d Hq) as (d1 & H1 & He1).
  destruct (upsert_contacts_fits now cs d1 Hc) as (d2 & H2 & He2). exists d2.
  split; [| by eapply (extends_trans [] [])]. unfold applySnapshot, txn. cbn [tape_next io_ok negb].
  unfold mbind at 1, Sq_bind at 1. cbn [mret Sq_ret]. unfold mbind, Sq_bind. by rewrite H1, H2.
Qed.

(** ** A concrete page *)

Definition demo_page_event : UserEventDTO := EventDTO 1 TEXT 90 0.
Definition demo_page_message : LocalMessageDTO := MsgDTO 0 90 [] 5 8 TEXT §"hi" Sent 10.

