(* ===== verification/ClientSync.v ===== *)
(** * The client's synchronisation (client/llfcchat/src/store/chatsyncmanager.cpp)

    The manager lives in the network thread. It follows the server's event
    log: it asks for the page after its cursor, checks the envelopes, has the
    database worker apply the page in one transaction and goes on while the
    server has more. Live notices wait in [_pending_live] until their turn.
    Each slot is a function from the state to the state and the effects it has,
    in order. *)

From S2P Require Import Prelude ProtocolIds JsonFields Database TxLogic ChatDb LocalDb LocalStore.

(** ** JSON values of Qt *)

(** [QFraction] is a number that is no integer; [QUndefined] a missing one. *)
Inductive qjson :=
  | QUndefined
  | QNull
  | QBool (b : bool)
  | QNumber (z : Z)
  | QFraction
  | QString (s : bytes)
  | QArray (l : list qjson)
  | QObject (o : list (bytes * qjson)).

Abbreviation qobject := (list (bytes * qjson)).

Fixpoint qassoc (k : bytes) (o : qobject) : option qjson :=
  match o with
  | [] => None
  | (k', v) :: o => if decide (k = k') then Some v else qassoc k o
  end.

(** [object.value(k)] *)
Definition value (o : qobject) (k : bytes) : qjson := default QUndefined (qassoc k o).
Definition contains (o : qobject) (k : bytes) : bool := bool_decide (is_Some (qassoc k o)).

(** [toInt(fallback)], [toString()], [toBool()] and [toArray()]. *)
Definition toInt (fallback : Z) (v : qjson) : Z :=
  match v with QNumber z => if (- 2 ^ 31 <=? z) && (z <=? int_max) then z else fallback | _ => fallback end.
Definition toString (v : qjson) : bytes := match v with QString s => s | _ => [] end.
Definition toBool (v : qjson) : bool := match v with QBool b => b | _ => false end.
Definition toArray (v : qjson) : list qjson := match v with QArray l => l | _ => [] end.

(** [QString::size()], the number of UTF-16 code units, from the UTF-8 text. *)
Definition utf16_units (b : Byte.byte) : Z :=
  if is_continuation b then 0 else if 240 <=? bval b then 2 else 1.
Definition qsize (s : bytes) : Z := foldr (λ b n, utf16_units b + n) 0 s.

(** Conversions of the library: [QString::toLongLong] and
    [QDateTime::fromString] with the format of the server, [ISODateWithMs] and
    [ISODate], as milliseconds of UTC. *)
Class QtLib := {
  toLongLong : bytes → option Z;
  from_format : bytes → option Z;
  from_iso_ms : bytes → option Z;
  from_iso : bytes → option Z;
}.

Section sync.
Context `{QtLib}.

Definition JsonId (v : qjson) : Z :=
  match v with QString s => default 0 (toLongLong s) | _ => 0 end.

Definition ServerTimeToEpoch (v : qjson) : Z :=
  match v with
  | QString s =>
      match from_format s with
      | Some t => t
      | None => match from_iso_ms s with Some t => t | None => default 0 (from_iso s) end
      end
  | _ => 0
  end.

(** ** The list of friend requests shown to the user (store/usermgr.cpp) *)

Record ApplyInfo := Apply {
  ap_uid : Z; ap_id : Z; ap_name : bytes; ap_desc : bytes; ap_icon : bytes; ap_nick : bytes; ap_sex : Z; ap_status : Z }.

(** A request that is already listed is replaced. *)
Fixpoint AddApplyList (app : ApplyInfo) (l : list ApplyInfo) : list ApplyInfo :=
  match l with
  | [] => [app]
  | x :: l => if (0 <? ap_id app) && (ap_id x =? ap_id app) then app :: l else x :: AddApplyList app l
  end.

Definition with_apply_status (st : Z) (x : ApplyInfo) : ApplyInfo :=
  Apply (ap_uid x) (ap_id x) (ap_name x) (ap_desc x) (ap_icon x) (ap_nick x) (ap_sex x) st.

Definition pending_of (peer : Z) (x : ApplyInfo) : bool := (ap_uid x =? peer) && (ap_status x =? 0).

(** The list and the identifiers of the requests it has updated. *)
Definition UpdatePendingApplyStatusByPeer (peer st : Z) (l : list ApplyInfo) : list ApplyInfo * list Z :=
  ((λ x, if pending_of peer x then with_apply_status st x else x) <$> l,
   List.filter (λ i, 0 <? i) (ap_id <$> List.filter (pending_of peer) l)).

(** ** State *)

Inductive SyncState :=
  | SYNC_IDLE | SYNC_WAIT_STATE | SYNC_BOOTSTRAP_THREADS | SYNC_WAIT_UPSERT | SYNC_WAIT_SNAPSHOT | SYNC_WAIT_MARK
  | SYNC_WAIT_PAGE.
#[global] Instance SyncState_eq_dec : EqDecision SyncState.
Proof. solve_decision. Defined.

Record sync := Sync {
  y_state : SyncState;
  y_last : Z;                                  (* [_last_event_seq] *)
  y_checkpoint : Z;
  y_has_more : bool;                           (* [_has_more_pending] *)
  y_pull : bool;                               (* [_pull_pending] *)
  y_live : bool;                               (* [_applying_live] *)
  y_mark : bool;                               (* [_mark_after_snapshot] *)
  y_requests : list LocalFriendRequestDTO;     (* [_snapshot_requests] *)
  y_contacts : list LocalContactDTO;           (* [_snapshot_contacts] *)
  y_pending : gmap Z qobject;                  (* [_pending_live] *)
  y_threads : list LocalConversationDTO;       (* [_bootstrap_conversations] *)
  y_timer : bool;                              (* the periodic timer runs *)
  y_applies : list ApplyInfo;                  (* [UserMgr::_apply_list] *)
}.

Definition ChatSyncManager : sync := Sync SYNC_IDLE 0 0 false false false false [] [] ∅ [] false [].

Definition with_state (x : SyncState) (y : sync) : sync :=
  Sync x (y_last y) (y_checkpoint y) (y_has_more y) (y_pull y) (y_live y) (y_mark y) (y_requests y) (y_contacts y)
    (y_pending y) (y_threads y) (y_timer y) (y_applies y).
Definition with_last (x : Z) (y : sync) : sync :=
  Sync (y_state y) x (y_checkpoint y) (y_has_more y) (y_pull y) (y_live y) (y_mark y) (y_requests y) (y_contacts y)
    (y_pending y) (y_threads y) (y_timer y) (y_applies y).
Definition with_has_more (x : bool) (y : sync) : sync :=
  Sync (y_state y) (y_last y) (y_checkpoint y) x (y_pull y) (y_live y) (y_mark y) (y_requests y) (y_contacts y)
    (y_pending y) (y_threads y) (y_timer y) (y_applies y).
Definition with_pull (x : bool) (y : sync) : sync :=
  Sync (y_state y) (y_last y) (y_checkpoint y) (y_has_more y) x (y_live y) (y_mark y) (y_requests y) (y_contacts y)
    (y_pending y) (y_threads y) (y_timer y) (y_applies y).
Definition with_live (x : bool) (y : sync) : sync :=
  Sync (y_state y) (y_last y) (y_checkpoint y) (y_has_more y) (y_pull y) x (y_mark y) (y_requests y) (y_contacts y)
    (y_pending y) (y_threads y) (y_timer y) (y_applies y).
Definition with_mark (x : bool) (y : sync) : sync :=
  Sync (y_state y) (y_last y) (y_checkpoint y) (y_has_more y) (y_pull y) (y_live y) x (y_requests y) (y_contacts y)
    (y_pending y) (y_threads y) (y_timer y) (y_applies y).
Definition with_pending (x : gmap Z qobject) (y : sync) : sync :=
  Sync (y_state y) (y_last y) (y_checkpoint y) (y_has_more y) (y_pull y) (y_live y) (y_mark y) (y_requests y)
    (y_contacts y) x (y_threads y) (y_timer y) (y_applies y).
Definition with_threads (x : list LocalConversationDTO) (y : sync) : sync :=
  Sync (y_state y) (y_last y) (y_checkpoint y) (y_has_more y) (y_pull y) (y_live y) (y_mark y) (y_requests y)
    (y_contacts y) (y_pending y) x (y_timer y) (y_applies y).
Definition with_timer (x : bool) (y : sync) : sync :=
  Sync (y_state y) (y_last y) (y_checkpoint y) (y_has_more y) (y_pull y) (y_live y) (y_mark y) (y_requests y)
    (y_contacts y) (y_pending y) (y_threads y) x (y_applies y).
Definition with_applies (x : list ApplyInfo) (y : sync) : sync :=
  Sync (y_state y) (y_last y) (y_checkpoint y) (y_has_more y) (y_pull y) (y_live y) (y_mark y) (y_requests y)
    (y_contacts y) (y_pending y) (y_threads y) (y_timer y) x.

(** What a slot does outside: requests to the database worker, requests to
    the server, and signals to the user interface. *)
Inductive effect :=
  | GetSyncState
  | ApplySnapshot (requests : list LocalFriendRequestDTO) (contacts : list LocalContactDTO) (replaceCurrent : bool)
  | UpsertConversations (l : list LocalConversationDTO)
  | MarkBootstrapComplete (checkpoint : Z)
  | ApplySyncPage (evs : list UserEventDTO) (messages : list LocalMessageDTO) (resources : list LocalMessageResourceDTO)
      (requests : list LocalFriendRequestDTO) (contacts : list LocalContactDTO) (newEventSeq : Z)
  | SendSync (after : Z) (limit : Z)        (* ID_SYNC_USER_MESSAGE_REQ *)
  | SendThreads (after : Z)                 (* ID_LOAD_CHAT_THREAD_REQ *)
  | sig_friend_apply (a : ApplyInfo)
  | sig_friend_request_handled (id st : Z)
  | sig_add_auth_friend (c : LocalContactDTO).

Definition slot := (sync * list effect)%type.

(** ** Parsing *)

Definition no_event : UserEventDTO := EventDTO 0 0 0 0.
Definition no_request : LocalFriendRequestDTO := ReqDTO 0 0 0 [] 0 0 [] [] [] 0.
Definition no_contact : LocalContactDTO := ContactDTO 0 0 [] [] [] 0.

(** The fields of a friend request, in an envelope and in the snapshot. *)
Definition read_request (o : qobject) : LocalFriendRequestDTO :=
  ReqDTO (JsonId (value o §"friend_request_id")) (toInt 0 (value o §"requester_user_id"))
    (toInt 0 (value o §"target_user_id")) (toString (value o §"request_message")) (toInt (-1) (value o §"status"))
    (JsonId (value o §"thread_id")) (toString (value o §"peer_username")) (toString (value o §"peer_nickname"))
    (toString (value o §"peer_avatar_key")) (toInt 0 (value o §"peer_gender")).

Definition objects (l : list qjson) : list qobject := omap (λ v, match v with QObject o => Some o | _ => None end) l.

Definition parseSnapshotRequests (l : list qjson) : list LocalFriendRequestDTO :=
  List.filter request_valid (read_request <$> objects l).

Definition parseSnapshotContacts (l : list qjson) : list LocalContactDTO :=
  List.filter (λ c, (0 <? cd_user c) && (0 <? cd_thread c))
    ((λ o, ContactDTO (toInt 0 (value o §"user_id")) (JsonId (value o §"thread_id")) (toString (value o §"username"))
             (toString (value o §"nickname")) (toString (value o §"avatar_key")) (toInt 0 (value o §"gender"))) <$> objects l).

(** What [parseEnvelope] fills. *)
Record parsed := Parsed {
  p_event : UserEventDTO; p_message : LocalMessageDTO; p_resource : LocalMessageResourceDTO;
  p_request : LocalFriendRequestDTO; p_contact : LocalContactDTO }.

Definition is_message_type (ty : Z) : bool := (ty =? TEXT) || (ty =? PIC) || (ty =? FILE).
Definition is_friend_type (ty : Z) : bool := (ty =? FRIEND_APPLY) || (ty =? FRIEND_ACCEPT) || (ty =? FRIEND_REJECT).

Definition read_message (now : Z) (o : qobject) : LocalMessageDTO :=
  let created := ServerTimeToEpoch (value o §"created_at") in
  MsgDTO 0 (JsonId (value o §"message_id")) [] (JsonId (value o §"thread_id")) (toInt 0 (value o §"sender_user_id"))
    (toInt (-1) (value o §"message_type")) (toString (value o §"text_content")) LocalDb.Sent
    (if created <=? 0 then now else created).

Definition read_resource (o : qobject) : LocalMessageResourceDTO :=
  ResDTO 0 (toString (value o §"original_file_name")) [] (JsonId (value o §"file_size_bytes"))
    (toString (value o §"sha256")) (toString (value o §"mime_type")).

Definition envelope_resource_ok (r : LocalMessageResourceDTO) : bool :=
  negb (bool_decide (rd_name r = [])) && (0 <? rd_size r) && (qsize (rd_sha r) =? 64) && negb (bool_decide (rd_mime r = [])).

Definition accepted_contact (self : Z) (q : LocalFriendRequestDTO) : LocalContactDTO :=
  ContactDTO (if fd_requester q =? self then fd_target q else fd_requester q) (fd_thread q) (fd_username q)
    (fd_nickname q) (fd_avatar q) (fd_gender q).

(** [None] is the result [false]. *)
Definition parseEnvelope (self now : Z) (o : qobject) : option parsed :=
  let seq := JsonId (value o §"event_seq") in
  let ty := toInt (-1) (value o §"event_type") in
  if seq <=? 0 then None
  else if is_message_type ty then
    let m := read_message now o in
    if (md_id m <=? 0) || (md_thread m <=? 0) || (md_sender m <=? 0) || negb (md_type m =? ty) then None
    else
      let ev := EventDTO seq ty (md_id m) 0 in
      if md_type m =? TEXT then
        if contains o §"text_content" then Some (Parsed ev m no_resource no_request no_contact) else None
      else
        let r := read_resource o in
        if envelope_resource_ok r then Some (Parsed ev m r no_request no_contact) else None
  else if negb (is_friend_type ty) then None
  else
    let q := read_request o in
    if negb (request_valid q) then None
    else
      let ev := EventDTO seq ty 0 (fd_id q) in
      if ty =? FRIEND_ACCEPT then
        let c := accepted_contact self q in
        if cd_thread c <=? 0 then None else Some (Parsed ev no_message no_resource q c)
      else Some (Parsed ev no_message no_resource q no_contact).

(** The loop of [applyEnvelopePage]: all the envelopes, numbered from
    [expected] on. *)
Fixpoint parse_page (self now expected : Z) (l : list qobject) : option (list parsed) :=
  match l with
  | [] => Some []
  | o :: l =>
      p ← parseEnvelope self now o;
      if negb (ue_seq (p_event p) =? expected) then None
      else ps ← parse_page self now (expected + 1) l; Some (p :: ps)
  end.

Definition is_message (p : parsed) : bool := 0 <? ue_message (p_event p).
Definition is_accept (p : parsed) : bool := ue_type (p_event p) =? FRIEND_ACCEPT.

(** The lists handed to the worker. *)
Definition page_request (ps : list parsed) (next : Z) : effect :=
  let ms := List.filter is_message ps in
  let qs := List.filter (λ p, negb (is_message p)) ps in
  ApplySyncPage (p_event <$> ps) (p_message <$> ms) (p_resource <$> ms) (p_request <$> qs)
    (p_contact <$> List.filter is_accept qs) next.

(** ** Slots *)

Definition sendSyncRequest (y : sync) : slot := (with_live false (with_state SYNC_WAIT_PAGE y), [SendSync (y_last y) 100]).

Definition applyEnvelopePage (self now : Z) (y : sync) (l : list qobject) (next : Z) : slot :=
  match parse_page self now (y_last y + 1) l with
  | None => (with_live false (with_state SYNC_IDLE y), [])
  | Some ps => (y, [page_request ps next])
  end.

Definition applyNextLiveIfPossible (self now : Z) (y : sync) : slot :=
  let y := with_pending (filter (λ kv, y_last y < kv.1) (y_pending y)) y in
  let next := y_last y + 1 in
  match y_pending y !! next with
  | Some envelope =>
      applyEnvelopePage self now
        (with_state SYNC_WAIT_PAGE (with_live true (with_pending (delete next (y_pending y)) y))) [envelope] next
  | None => if bool_decide (y_pending y = ∅) then (y, []) else sendSyncRequest y
  end.

Definition slot_login_snapshot (o : qobject) (y : sync) : slot :=
  (Sync (y_state y) (y_last y) (JsonId (value o §"checkpoint")) (y_has_more y) (y_pull y) (y_live y) (y_mark y)
     (parseSnapshotRequests (toArray (value o §"apply_list"))) (parseSnapshotContacts (toArray (value o §"friend_list")))
     (y_pending y) (y_threads y) (y_timer y) (y_applies y), []).

Definition slot_start (y : sync) : slot :=
  (with_timer true (with_pending ∅ (with_live false (with_pull false (with_has_more false (with_state SYNC_WAIT_STATE y))))),
   [GetSyncState]).

Definition slot_sync_state_loaded (r : option (Z * bool)) (y : sync) : slot :=
  if negb (bool_decide (y_state y = SYNC_WAIT_STATE)) then (y, [])
  else match r with
  | None => (with_state SYNC_IDLE y, [])
  | Some (last, true) =>
      (with_state SYNC_WAIT_SNAPSHOT (with_mark false (with_last last y)), [ApplySnapshot (y_requests y) (y_contacts y) false])
  | Some (last, false) => (with_state SYNC_BOOTSTRAP_THREADS (with_threads [] (with_last last y)), [SendThreads 0])
  end.

Record thread_info := ThreadInfo { ti_thread : Z; ti_lower : Z; ti_higher : Z; ti_last : Z }.

Definition slot_load_chat_thread (self now : Z) (loadMore : bool) (nextLastId : Z) (l : list thread_info) (y : sync) : slot :=
  if negb (bool_decide (y_state y = SYNC_BOOTSTRAP_THREADS)) then (y, [])
  else
    let add := (λ t, ConvDTO (ti_thread t) (if self =? ti_lower t then ti_higher t else ti_lower t) (ti_last t) 0 false now) <$> l in
    let y := with_threads (y_threads y ++ add) y in
    if loadMore then (y, [SendThreads nextLastId])
    else (with_state SYNC_WAIT_UPSERT y, [UpsertConversations (y_threads y)]).

Definition slot_conversations_upserted (ok : bool) (y : sync) : slot :=
  if negb (bool_decide (y_state y = SYNC_WAIT_UPSERT)) then (y, [])
  else if negb ok then (with_state SYNC_IDLE y, [])
  else (with_state SYNC_WAIT_SNAPSHOT (with_mark true y), [ApplySnapshot (y_requests y) (y_contacts y) true]).

Definition slot_snapshot_applied (ok : bool) (y : sync) : slot :=
  if negb (bool_decide (y_state y = SYNC_WAIT_SNAPSHOT)) then (y, [])
  else if negb ok then (with_state SYNC_IDLE y, [])
  else if y_mark y then (with_state SYNC_WAIT_MARK y, [MarkBootstrapComplete (y_checkpoint y)])
  else sendSyncRequest y.

Definition slot_bootstrap_marked (ok : bool) (checkpoint : Z) (y : sync) : slot :=
  if negb (bool_decide (y_state y = SYNC_WAIT_MARK)) then (y, [])
  else if negb ok then (with_state SYNC_IDLE y, [])
  else sendSyncRequest (with_last checkpoint y).

Definition slot_user_message_notify (self now : Z) (envelope : qobject) (y : sync) : slot :=
  let seq := JsonId (value envelope §"event_seq") in
  if seq <=? y_last y then (y, [])
  else
    let y := with_pending (<[seq := envelope]> (y_pending y)) y in
    if bool_decide (y_state y = SYNC_IDLE) then applyNextLiveIfPossible self now y else (y, []).

(** The client's codes [SUCCESS] and [ERR_JSON]. *)
Definition SUCCESS : Z := CommonErrCode_code ERR_SUCCESS.
Definition CLIENT_ERR_JSON : Z := 1.

Definition is_qobject (v : qjson) : bool := match v with QObject _ => true | _ => false end.

Definition slot_sync_message_rsp (self now : Z) (response : qobject) (y : sync) : slot :=
  if negb (bool_decide (y_state y = SYNC_WAIT_PAGE)) || y_live y then (y, [])
  else if negb (toInt CLIENT_ERR_JSON (value response §"error") =? SUCCESS) then (with_state SYNC_IDLE y, [])
  else
    let y := with_has_more (toBool (value response §"has_more")) y in
    let l := toArray (value response §"events") in
    if negb (forallb is_qobject l) then (with_state SYNC_IDLE y, [])
    else
      let envelopes := objects l in
      let next := JsonId (value response §"next_event_seq") in
      let expected := match last envelopes with Some o => JsonId (value o §"event_seq") | None => y_last y end in
      if negb (next =? expected) || (y_has_more y && bool_decide (envelopes = [])) then (with_state SYNC_IDLE y, [])
      else applyEnvelopePage self now y envelopes next.

(** The announcements of one applied event. *)
Definition announce (self : Z) (requests : list LocalFriendRequestDTO) (contacts : list LocalContactDTO)
    (acc : list ApplyInfo * list effect) (ev : UserEventDTO) : list ApplyInfo * list effect :=
  let '(applies, out) := acc in
  if ue_request ev <=? 0 then acc
  else
    let q := default no_request (List.find (λ q, fd_id q =? ue_request ev) requests) in
    if (ue_type ev =? FRIEND_APPLY) && (fd_target q =? self) then
      let a := Apply (s32 (fd_requester q)) (fd_id q) (fd_username q) (fd_message q) (fd_avatar q) (fd_nickname q)
                 (fd_gender q) 0 in
      (AddApplyList a applies, out ++ [sig_friend_apply a])
    else if (ue_type ev =? FRIEND_ACCEPT) || (ue_type ev =? FRIEND_REJECT) then
      let peer := if fd_requester q =? self then fd_target q else fd_requester q in
      let st := if ue_type ev =? FRIEND_ACCEPT then 1 else 2 in
      let '(applies, handled) := UpdatePendingApplyStatusByPeer (s32 peer) st applies in
      (applies, out ++ ((λ i, sig_friend_request_handled i st) <$> handled) ++
        (if st =? 1 then match List.find (λ c, cd_user c =? peer) contacts with Some c => [sig_add_auth_friend c] | None => [] end
         else []))
    else acc.

Definition slot_sync_page_applied (self now : Z) (ok : bool) (newEventSeq : Z) (evs : list UserEventDTO)
    (requests : list LocalFriendRequestDTO) (contacts : list LocalContactDTO) (y : sync) : slot :=
  if negb (bool_decide (y_state y = SYNC_WAIT_PAGE)) then (y, [])
  else if negb ok then (with_live false (with_state SYNC_IDLE y), [])
  else
    let '(applies, out) := foldl (announce self requests contacts) (y_applies y, []) evs in
    let wasLive := y_live y in
    let y := with_live false (with_applies applies (with_last newEventSeq y)) in
    let '(y, next) :=
      if negb wasLive && y_has_more y then sendSyncRequest (with_has_more false y)
      else
        let y := with_state SYNC_IDLE y in
        if negb (bool_decide (y_pending y = ∅)) then applyNextLiveIfPossible self now y
        else if y_pull y then sendSyncRequest (with_pull false y) else (y, []) in
    (y, out ++ next).

Definition slot_periodic_sync (y : sync) : slot :=
  let '(y, out) := if bool_decide (y_state y = SYNC_IDLE) then sendSyncRequest y else (with_pull true y, []) in
  (with_timer true y, out).

Definition slot_connection_closed (y : sync) : slot :=
  (with_timer false (with_pending ∅ (with_state SYNC_IDLE y)), []).

End sync.
