(* ===== verification/SyncLoop.v ===== *)
(** * Client and server together: the synchronisation catches up

    The client's manager (ClientSync.v), its database worker (LocalStore.v)
    and the server's handler (ChatHandlers.v) exchange requests and answers.
    The envelopes the server builds are the ones the client accepts, and the
    loop ends with the client's database at the server's last event. *)

From S2P Require Import Prelude ProtocolIds JsonFields Database ResourceDb TxLogic ChatDb ChatDbMessages ChatFriends ChatSync ChatUsers ChatLogic ChatHandlers.
From S2P Require Import LocalDb LocalStore LocalSync ClientSync.

(** ** JSON on the way *)

(** A JSON value as the other side reads it from the text: Qt's library on
    the client, the server's on the server. Of the order of fields only
    lookups matter. *)
Class Wire := {
  to_client : json → qjson;
  to_server : qjson → json;
}.

Class WireLaws `{!Wire} := {
  to_client_object : ∀ o, ∃ o', to_client (JObject o) = QObject o' ∧ ∀ k, qassoc k o' = to_client <$> assoc k o;
  to_client_array : ∀ l, to_client (JArray l) = QArray (to_client <$> l);
  to_client_string : ∀ s, to_client (JString s) = QString s;
  to_client_int : ∀ z, - 2 ^ 53 <= z <= 2 ^ 53 → to_client (JInteger z) = QNumber z;
  to_client_bool : ∀ b, to_client (JBool b) = QBool b;
  to_client_null : to_client JNull = QNull;
  to_server_object : ∀ o, ∃ o', to_server (QObject o) = JObject o' ∧ ∀ k, assoc k o' = to_server <$> qassoc k o;
  to_server_string : ∀ s, to_server (QString s) = JString s;
  to_server_nat : ∀ z, 0 <= z <= 2 ^ 53 → to_server (QNumber z) = JUnsigned z;
}.

Class QtLaws `{!QtLib} := {
  toLongLong_string : ∀ z, - 2 ^ 63 <= z <= int64_max → toLongLong (ll_string z) = Some z;
}.

Section envelopes.
Context `{!Wire, !QtLib, !WireLaws, !QtLaws} (weight : bytes → bytes).
#[local] Set Default Proof Using "Type*".

(** The fields of a value as the client gets it. *)
Definition client_object (j : json) : qobject := match to_client j with QObject o => o | _ => [] end.

Lemma value_client o k : value (client_object (JObject o)) k = default QUndefined (to_client <$> assoc k o).
Proof. unfold value, client_object. destruct (to_client_object o) as (o' & -> & Ho). by rewrite Ho. Qed.

Lemma contains_client o k : contains (client_object (JObject o)) k = bool_decide (is_Some (assoc k o)).
Proof.
  unfold contains, client_object. destruct (to_client_object o) as (o' & -> & Ho). rewrite Ho.
  apply bool_decide_ext. apply fmap_is_Some.
Qed.

Lemma JsonId_jid z : - 2 ^ 63 <= z <= int64_max → JsonId (to_client (jid z)) = z.
Proof. intros Hz. unfold jid. rewrite to_client_string. cbn [JsonId]. by rewrite toLongLong_string. Qed.

Lemma toInt_jnum d z : - 2 ^ 31 <= z <= int_max → toInt d (to_client (jnum z)) = z.
Proof.
  intros Hz. unfold jnum. rewrite to_client_int by (unfold int_max in Hz; lia). cbn [toInt].
  by rewrite !(proj2 (Z.leb_le _ _)) by lia.
Qed.

Lemma toString_string s : toString (to_client (JString s)) = s.
Proof. by rewrite to_client_string. Qed.

(** ** The tables' values fit the client's types *)

Record db_fits (d : db) : Prop := {
  df_ids : next_id d <= int64_max;
  df_users : ∀ u, is_Some (users d !! u) → u <= int_max;
  df_seqs : ∀ u r, users d !! u = Some r → last_event_seq r <= int64_max;
  df_resources : ∀ i r, message_resources d !! i = Some r →
    r_name r ≠ [] ∧ 0 < r_size r <= int64_max ∧ qsize (r_sha r) = 64 ∧ r_mime r ≠ [];
}.

Record message_true (d : db) (uid mid : Z) (c : ChatMessage) : Prop := {
  mt_id : message_id c = mid ∧ 0 < mid <= int64_max;
  mt_thread : 0 < thread_id c <= int64_max;
  mt_sender : 0 < sender_user_id c <= int_max ∧ sender_user_id c ≠ uid;
  mt_type : message_type c = TEXT ∨ is_resource_type (message_type c) = true ∧
    ∃ r, resource c = Some r ∧ r_name r ≠ [] ∧ 0 < r_size r <= int64_max ∧ qsize (r_sha r) = 64 ∧ r_mime r ≠ [];
}.

Lemma published_message_true d uid mid c :
  chat_ok weight d → db_fits d → published_message d mid = Some c → recipient_user_id c = uid → message_true d uid mid c.
Proof.
  intros (Ht & _) Hfit Hp Hrec. unfold published_message, message_of in Hp.
  destruct (chat_messages d !! mid) as [m |] eqn:Em; [| done]. cbn in Hp.
  destruct (private_chats d !! m_thread m) as [pc |] eqn:Epc; [| done]. cbn in Hp. case_decide; [| done].
  injection Hp as <-. cbn in Hrec. destruct pc as [lo hi]. destruct (t_chats _ _ Ht _ _ _ Epc) as (Hlo & Hul & Huh).
  destruct (t_inv _ _ Ht) as (_ & _ & _ & (_ & Hn & _)).
  pose proof (t_members _ _ Ht _ _ _ Em Epc) as Hmem. cbn in Hmem.
  assert (Hid : 0 < mid < next_id d).
  { destruct (decide (mid <= 0)) as [Hle |]; [by destruct (t_ids _ _ Ht mid Hle); congruence |].
    destruct (decide (next_id d <= mid)) as [Hle |]; [by destruct (Hn mid Hle); congruence | lia]. }
  assert (Hth : 0 < m_thread m < next_id d).
  { destruct (decide (m_thread m <= 0)) as [Hle |]; [by destruct (t_ids _ _ Ht _ Hle); congruence |].
    destruct (decide (next_id d <= m_thread m)) as [Hle |]; [by destruct (Hn _ Hle) as (_ & ? & _); congruence | lia]. }
  pose proof (df_ids d Hfit) as Hids. constructor; cbn.
  - split; [done | lia].
  - lia.
  - pose proof (df_users d Hfit _ Hul). pose proof (df_users d Hfit _ Huh).
    unfold other_member in Hrec. cbn in Hrec. case_decide; destruct Hmem; lia.
  - destruct (t_messages _ _ Ht mid m Em) as [(-> & _) | (Hres & _ & [r Hr])]; [by left | right].
    rewrite Hres, Hr. split; [done |]. exists r. split; [done |]. by apply (df_resources d Hfit mid).
Qed.

(** ** What the client makes of an envelope *)

(** One parsed envelope and the event it stands for. *)
Record message_item (d : db) (uid : Z) (ev : UserEvent) (p : parsed) (mid : Z) (c : ChatMessage) : Prop := {
  mi_published : published_message d mid = Some c;
  mi_message : ev_message ev = Some (with_message_event c (ev_seq ev));
  mi_type : is_message_type (ev_type ev) = true;
  mi_event : p_event p = EventDTO (ev_seq ev) (ev_type ev) mid 0;
  mi_id : md_id (p_message p) = mid;
  mi_pos : 0 < mid;
  mi_fits : message_fits uid (p_message p) (p_resource p);
}.

Record friend_item (d : db) (uid : Z) (ev : UserEvent) (p : parsed) (fid : Z) (r : FriendRequest) : Prop := {
  fi_row : request_of d fid = Some r;
  fi_message : ev_message ev = None;
  fi_request : ev_friend_request ev = Some (with_request_event r (ev_seq ev));
  fi_type : is_friend_type (ev_type ev) = true;
  fi_event : p_event p = EventDTO (ev_seq ev) (ev_type ev) 0 fid;
  fi_pos : 0 < fid;
  fi_id : fd_id (p_request p) = fid;
  fi_requester : fd_requester (p_request p) = requester_user_id r;
  fi_target : fd_target (p_request p) = target_user_id r;
  fi_valid : request_valid (p_request p) = true;
  fi_contact : ev_type ev = FRIEND_ACCEPT → requester_user_id r = uid ∧ cd_user (p_contact p) = target_user_id r ∧
    0 < cd_user (p_contact p) ∧ 0 < cd_thread (p_contact p);
}.

Definition item_true (d : db) (uid : Z) (ev : UserEvent) (p : parsed) : Prop :=
  (∃ mid c, message_item d uid ev p mid c) ∨ (∃ fid r, friend_item d uid ev p fid r).

Definition client_envelope (d : db) (uid : Z) (ev : UserEvent) : qobject :=
  client_object (JObject (event_envelope d uid ev)).

Lemma envelope_seq d uid ev : - 2 ^ 63 <= ev_seq ev <= int64_max → JsonId (value (client_envelope d uid ev) §"event_seq") = ev_seq ev.
Proof.
  intros Hs. unfold client_envelope. rewrite value_client. unfold event_envelope. rewrite assoc_oset, decide_True by done.
  cbn [fmap option_fmap option_map default from_option id]. by apply JsonId_jid.
Qed.

Lemma envelope_type d uid ev : - 2 ^ 31 <= ev_type ev <= int_max → toInt (-1) (value (client_envelope d uid ev) §"event_type") = ev_type ev.
Proof.
  intros Hs. unfold client_envelope. rewrite value_client. unfold event_envelope.
  rewrite assoc_oset, decide_False, assoc_oset, decide_True by done.
  cbn [fmap option_fmap option_map default from_option id]. by apply toInt_jnum.
Qed.

(** The other fields come from the message or the request. *)
Definition payload (d : db) (uid : Z) (ev : UserEvent) : fields :=
  match ev_message ev with
  | Some m => BuildMessageEnvelope m
  | None => match ev_friend_request ev with Some r => request_envelope d r uid | None => [] end
  end.

Lemma envelope_field d uid ev k v :
  k ≠ §"event_seq" → k ≠ §"event_type" → assoc k (payload d uid ev) = Some v →
  value (client_envelope d uid ev) k = to_client v.
Proof.
  intros Hk1 Hk2 Hk. unfold client_envelope. rewrite value_client. unfold event_envelope.
  rewrite assoc_oset, decide_False, assoc_oset, decide_False by done. fold (payload d uid ev). by rewrite Hk.
Qed.

Lemma message_field d uid ev c k v :
  ev_message ev = Some c → k ≠ §"event_seq" → k ≠ §"event_type" → assoc k (BuildMessageEnvelope c) = Some v →
  value (client_envelope d uid ev) k = to_client v.
Proof. intros He Hk1 Hk2 Hk. apply envelope_field; [done.. |]. unfold payload. by rewrite He. Qed.

Lemma request_field d uid ev r k v :
  ev_message ev = None → ev_friend_request ev = Some r → k ≠ §"event_seq" → k ≠ §"event_type" →
  assoc k (request_envelope d r uid) = Some v → value (client_envelope d uid ev) k = to_client v.
Proof. intros He Hr Hk1 Hk2 Hk. apply envelope_field; [done.. |]. unfold payload. by rewrite He, Hr. Qed.

Lemma message_fields d uid ev c :
  ev_message ev = Some c →
  let o := client_envelope d uid ev in
  value o §"message_id" = to_client (jid (message_id c)) ∧ value o §"thread_id" = to_client (jid (thread_id c)) ∧
  value o §"sender_user_id" = to_client (jnum (sender_user_id c)) ∧
  value o §"message_type" = to_client (jnum (message_type c)).
Proof.
  intros He o. split; [| split; [| split]]; (eapply message_field; [exact He | discriminate | discriminate |]);
    unfold BuildMessageEnvelope; destruct (0 <? event_seq c); reflexivity.
Qed.

Lemma text_field d uid ev c :
  ev_message ev = Some c → message_type c = TEXT → contains (client_envelope d uid ev) §"text_content" = true.
Proof.
  intros He Ht. unfold client_envelope. rewrite contains_client. apply bool_decide_eq_true_2. unfold event_envelope.
  rewrite assoc_oset, decide_False, assoc_oset, decide_False by done. rewrite He.
  unfold BuildMessageEnvelope. rewrite Ht. destruct (0 <? event_seq c); by eexists.
Qed.

Lemma resource_fields d uid ev c r :
  ev_message ev = Some c → is_resource_type (message_type c) = true → resource c = Some r →
  let o := client_envelope d uid ev in
  value o §"original_file_name" = to_client (JString (r_name r)) ∧ value o §"file_size_bytes" = to_client (jid (r_size r)) ∧
  value o §"sha256" = to_client (JString (r_sha r)) ∧ value o §"mime_type" = to_client (JString (r_mime r)).
Proof.
  intros He Ht Hr o. assert (Hnt : (message_type c =? TEXT) = false).
  { apply Z.eqb_neq. intros E. by rewrite E in Ht. }
  split; [| split; [| split]]; (eapply message_field; [exact He | discriminate | discriminate |]);
    unfold BuildMessageEnvelope; rewrite Hnt, Hr; destruct (0 <? event_seq c); reflexivity.
Qed.

Lemma request_fields d uid ev r :
  ev_message ev = None → ev_friend_request ev = Some r →
  let o := client_envelope d uid ev in
  value o §"friend_request_id" = to_client (jid (friend_request_id r)) ∧
  value o §"requester_user_id" = to_client (jnum (requester_user_id r)) ∧
  value o §"target_user_id" = to_client (jnum (target_user_id r)) ∧
  value o §"status" = to_client (jnum (FriendRequestStatus_code (request_status r))) ∧
  value o §"thread_id" = to_client (jid_or_null (request_thread_id r)).
Proof.
  intros He Hr o. split; [| split; [| split; [| split]]]; (eapply request_field; [exact He | exact Hr | discriminate | discriminate |]);
    unfold request_envelope; destruct (0 <? request_event_seq r); reflexivity.
Qed.

(** ** Envelopes the client accepts *)

Lemma message_envelope_accepted d uid now ev mid c :
  chat_ok weight d → db_fits d → published_message d mid = Some c → recipient_user_id c = uid →
  message_type c = ev_type ev → ev_message ev = Some (with_message_event c (ev_seq ev)) → 0 < ev_seq ev <= int64_max →
  ∃ p, parseEnvelope uid now (client_envelope d uid ev) = Some p ∧ item_true d uid ev p.
Proof.
  intros Hok Hfit Hp Hrec Hty He Hseq. pose proof (published_message_true d uid mid c Hok Hfit Hp Hrec) as [[Hid Hmid] Hth [Hse Hne] Hkind].
  assert (Hrange : - 2 ^ 31 <= ev_type ev <= int_max).
  { rewrite <- Hty. unfold is_resource_type in Hkind. destruct Hkind as [-> | [[->%Z.eqb_eq | ->%Z.eqb_eq]%orb_true_iff _]]; done. }
  assert (Hmt : is_message_type (ev_type ev) = true).
  { unfold is_message_type. rewrite <- Hty. unfold is_resource_type in Hkind.
    destruct Hkind as [-> | [[->%Z.eqb_eq | ->%Z.eqb_eq]%orb_true_iff _]]; done. }
  destruct (message_fields d uid ev _ He) as (F1 & F2 & F3 & F4).
  cbn [with_message_event message_id thread_id sender_user_id message_type] in F1, F2, F3, F4.
  pose proof (envelope_seq d uid ev ltac:(lia)) as Es. pose proof (envelope_type d uid ev Hrange) as Et.
  pose proof (text_field d uid ev _ He) as Htext. cbn [with_message_event message_type] in Htext.
  set (o := client_envelope d uid ev) in *.
  unfold parseEnvelope. rewrite Es, Et, Hmt, (proj2 (Z.leb_gt _ _)) by lia.
  assert (Hm : md_id (read_message now o) = mid ∧ md_thread (read_message now o) = thread_id c ∧
    md_sender (read_message now o) = sender_user_id c ∧ md_type (read_message now o) = ev_type ev).
  { unfold read_message. cbn [md_id md_thread md_sender md_type]. rewrite F1, F2, F3, F4, Hty, !JsonId_jid, !toInt_jnum by (done || lia). done. }
  destruct Hm as (M1 & M2 & M3 & M4). rewrite M1, M2, M3, M4, Z.eqb_refl. cbn [negb].
  rewrite !(proj2 (Z.leb_gt _ _)) by lia. cbn [orb].
  assert (Hfits : ∀ r, (ev_type ev = TEXT ∨ is_resource (ev_type ev) = true ∧ resource_complete r = true) →
    message_fits uid (read_message now o) r).
  { intros r Hr. constructor; rewrite ?M1, ?M2, ?M3, ?M4; done || lia. }
  assert (Hitem : ∀ r, (ev_type ev = TEXT ∨ is_resource (ev_type ev) = true ∧ resource_complete r = true) →
    item_true d uid ev (Parsed (EventDTO (ev_seq ev) (ev_type ev) mid 0) (read_message now o) r no_request no_contact)).
  { intros r Hr. left. exists mid, c. constructor; cbn; try done; [lia | by apply Hfits]. }
  destruct Hkind as [Ht | [Hres (r & Hr & Hname & Hsize & Hsha & Hmime)]]; rewrite Hty in *.
  - rewrite Ht, Z.eqb_refl. rewrite Htext by congruence.
    eexists. split; [done |]. rewrite <- Ht. apply Hitem. by left.
  - assert ((ev_type ev =? TEXT) = false) as ->.
    { apply Z.eqb_neq. intros E. by rewrite E in Hres. }
    destruct (resource_fields d uid ev _ r He) as (G1 & G2 & G3 & G4); [cbn; congruence | done |]. fold o in G1, G2, G3, G4.
    assert (Hrr : read_resource o = ResDTO 0 (r_name r) [] (r_size r) (r_sha r) (r_mime r)).
    { unfold read_resource. by rewrite G1, G2, G3, G4, !toString_string, JsonId_jid by lia. }
    assert (Hco : envelope_resource_ok (read_resource o) = true).
    { rewrite Hrr. unfold envelope_resource_ok. cbn [rd_name rd_size rd_sha rd_mime]. rewrite !bool_decide_eq_false_2 by done.
      by rewrite Hsha, (proj2 (Z.ltb_lt _ _)) by lia. }
    rewrite Hco. eexists. split; [done |]. apply Hitem. right. split; [done |]. rewrite Hrr. unfold resource_complete. cbn [rd_name rd_size rd_sha rd_mime].
    rewrite !bool_decide_eq_false_2 by (done || (intros E; by rewrite E in Hsha)).
    by rewrite (proj2 (Z.ltb_lt _ _)) by lia.
Qed.

Lemma request_row_fits d fid f :
  chat_ok weight d → db_fits d → friend_requests d !! fid = Some f →
  0 < fid <= int64_max ∧ 0 < f_requester f <= int_max ∧ 0 < f_target f <= int_max ∧
  (f_status f = FrAccepted → 0 < default 0 (f_thread f) <= int64_max).
Proof.
  intros (Ht & Hf & _) Hfit Hi. destruct (f_rows _ _ Hf _ _ Hi) as [(Hr & Htg & _ & Hur & Hut) Hid Hacc _].
  destruct (t_inv _ _ Ht) as (_ & _ & _ & (_ & Hn & _)). pose proof (df_ids d Hfit).
  assert (fid < next_id d).
  { destruct (decide (next_id d <= fid)) as [Hle |]; [by destruct (Hn _ Hle) as (_ & _ & ?); congruence | lia]. }
  pose proof (df_users d Hfit _ Hur). pose proof (df_users d Hfit _ Hut). do 3 (split; [lia |]).
  intros Hst. destruct (Hacc Hst) as (tid & -> & Hpc & _). cbn.
  destruct (decide (tid <= 0)) as [Hle |]; [by destruct (t_ids _ _ Ht _ Hle); congruence |].
  destruct (decide (next_id d <= tid)) as [Hle |]; [by destruct (Hn _ Hle) as (_ & ? & _); congruence | lia].
Qed.

Lemma friend_envelope_accepted d uid now ev fid f :
  chat_ok weight d → db_fits d → friend_requests d !! fid = Some f → event_due f (ev_type ev) uid →
  ev_message ev = None → ev_friend_request ev = Some (with_request_event (ReadFriendRequest fid f) (ev_seq ev)) →
  0 < ev_seq ev <= int64_max →
  ∃ p, parseEnvelope uid now (client_envelope d uid ev) = Some p ∧ item_true d uid ev p.
Proof.
  intros Hok Hfit Hi Hdue He Hr Hseq. destruct (request_row_fits d fid f Hok Hfit Hi) as (Hfid & Hreq & Htgt & Hthread).
  assert (Hty : ev_type ev = FRIEND_APPLY ∨ ev_type ev = FRIEND_ACCEPT ∨ ev_type ev = FRIEND_REJECT).
  { destruct Hdue as [[-> _] | [[-> _] | [-> _]]]; auto. }
  assert (Hrange : - 2 ^ 31 <= ev_type ev <= int_max) by (destruct Hty as [-> | [-> | ->]]; done).
  assert (Hmt : is_message_type (ev_type ev) = false ∧ is_friend_type (ev_type ev) = true)
    by (destruct Hty as [-> | [-> | ->]]; done). destruct Hmt as [Hmt Hft].
  pose proof (envelope_seq d uid ev ltac:(lia)) as Es. pose proof (envelope_type d uid ev Hrange) as Et.
  destruct (request_fields d uid ev _ He Hr) as (F1 & F2 & F3 & F4 & F5).
  cbn [with_request_event friend_request_id requester_user_id target_user_id request_status request_thread_id ReadFriendRequest] in F1, F2, F3, F4, F5.
  set (o := client_envelope d uid ev) in *. set (q := read_request o).
  assert (Hst : 0 <= FriendRequestStatus_code (f_status f) <= 2) by (destruct (f_status f); cbn; lia).
  assert (Hq : fd_id q = fid ∧ fd_requester q = f_requester f ∧ fd_target q = f_target f ∧
    fd_status q = FriendRequestStatus_code (f_status f)).
  { unfold q, read_request. cbn [fd_id fd_requester fd_target fd_status].
    rewrite F1, F2, F3, F4, JsonId_jid, !toInt_jnum by (unfold int_max in *; lia). done. }
  destruct Hq as (Q1 & Q2 & Q3 & Q4).
  assert (Hvalid : request_valid q = true).
  { unfold request_valid. rewrite Q1, Q2, Q3, Q4, !(proj2 (Z.ltb_lt _ _)), !(proj2 (Z.leb_le _ _)) by lia. done. }
  unfold parseEnvelope. rewrite Es, Et, Hmt, Hft, (proj2 (Z.leb_gt _ _)) by lia. cbn [negb]. fold q. rewrite Hvalid, Q1. cbn [negb].
  assert (Hreqof : request_of d fid = Some (ReadFriendRequest fid f)) by (unfold request_of; by rewrite Hi).
  assert (Hitem : ∀ c, (ev_type ev = FRIEND_ACCEPT → f_requester f = uid ∧ cd_user c = f_target f ∧ 0 < cd_user c ∧ 0 < cd_thread c) →
    item_true d uid ev (Parsed (EventDTO (ev_seq ev) (ev_type ev) 0 fid) no_message no_resource q c)).
  { intros c Hc. right. exists fid, (ReadFriendRequest fid f). constructor; cbn; try done; lia. }
  destruct (ev_type ev =? FRIEND_ACCEPT) eqn:Ea.
  - apply Z.eqb_eq in Ea.
    assert (Hacc : f_requester f = uid ∧ f_status f = FrAccepted).
    { destruct Hdue as [[E _] | [(_ & -> & ?) | [E _]]]; [rewrite Ea in E; done | done | rewrite Ea in E; done]. }
    destruct Hacc as [Hu Hacc]. specialize (Hthread Hacc).
    assert (Hth : fd_thread q = default 0 (f_thread f)).
    { unfold q, read_request. cbn [fd_thread]. rewrite F5. unfold jid_or_null. rewrite (proj2 (Z.ltb_lt _ _)) by lia. by rewrite JsonId_jid by lia. }
    unfold accepted_contact. cbn [cd_thread]. rewrite Hth, (proj2 (Z.leb_gt _ _)) by lia.
    eexists. split; [done |]. apply Hitem. intros _. cbn [cd_user cd_thread]. rewrite Q2, Hu, Z.eqb_refl, Q3. lia.
  - eexists. split; [done |]. apply Hitem. apply Z.eqb_neq in Ea. done.
Qed.

Lemma envelope_accepted d uid now ev e :
  chat_ok weight d → db_fits d → event_true d uid (ev_seq ev, e) ev → 0 < ev_seq ev <= int64_max →
  ∃ p, parseEnvelope uid now (client_envelope d uid ev) = Some p ∧ item_true d uid ev p.
Proof.
  intros Hok Hfit (_ & _ & He & [(mid & c & _ & Hp & Hm & _ & _ & _ & Hrec & Hty) | (fid & r & Hrow & Hr & Hm & Hf & _)]) Hseq.
  - by eapply message_envelope_accepted.
  - cbn in He, Hrow. rewrite Hrow in He. destruct (f_events _ _ (proj1 (proj2 Hok)) _ _ _ _ He) as (f & Hi & Hdue).
    assert (r = ReadFriendRequest fid f) as ->. { unfold request_of in Hr. rewrite Hi in Hr. by injection Hr as <-. }
    by eapply friend_envelope_accepted.
Qed.

(** ** The page the client makes of a reply *)

Lemma parse_page_accepted d uid now evs after :
  chat_ok weight d → db_fits d → 0 <= after → after + zlen evs <= int64_max →
  ev_seq <$> evs = seqZ (after + 1) (zlen evs) → Forall (λ ev, ∃ e, event_true d uid (ev_seq ev, e) ev) evs →
  ∃ ps, parse_page uid now (after + 1) (client_envelope d uid <$> evs) = Some ps ∧ Forall2 (item_true d uid) evs ps.
Proof.
  intros Hok Hfit. revert after. induction evs as [| ev evs IH]; intros after Ha Hmax Hseq Hall; cbn [fmap list_fmap parse_page].
  { exists []. split; [done | constructor]. }
  unfold zlen in *. cbn [length] in *. rewrite seqZ_cons in Hseq by lia. cbn in Hseq. injection Hseq as Hs Hseq.
  inversion_clear Hall as [| ? ? [e He] Hall'].
  destruct (envelope_accepted d uid now ev e Hok Hfit He) as (p & Hp & Hitem); [lia |]. rewrite Hp. cbn [mbind option_bind].
  assert (Hps : ue_seq (p_event p) = after + 1).
  { destruct Hitem as [(? & ? & Hi) | (? & ? & Hi)]; [rewrite (mi_event _ _ _ _ _ _ Hi) | rewrite (fi_event _ _ _ _ _ _ Hi)]; cbn; lia. }
  rewrite Hps, Z.eqb_refl. cbn [negb].
  destruct (IH (after + 1)) as (ps & -> & Hitems); [lia | lia | | done |].
  { rewrite Hseq. f_equal; lia. }
  exists (p :: ps). split; [done | by constructor].
Qed.
(** *** The lists of the page *)

Lemma find_elem {A} (f : A → bool) l x : x ∈ l → f x = true → ∃ y, List.find f l = Some y ∧ y ∈ l ∧ f y = true.
Proof.
  intros Hx Hf. destruct (List.find f l) as [y |] eqn:E.
  - exists y. split; [done |]. apply List.find_some in E as [Hy ?]. split; [by apply list_elem_of_In | done].
  - apply list_elem_of_In in Hx. by rewrite (List.find_none _ _ E x Hx) in Hf.
Qed.

Lemma elem_of_List_filter {A} (f : A → bool) l x : x ∈ List.filter f l ↔ x ∈ l ∧ f x = true.
Proof. rewrite !list_elem_of_In. apply List.filter_In. Qed.

Lemma zip_fmaps {A B C} (f : A → B) (g : A → C) l : zip (f <$> l) (g <$> l) = (λ x, (f x, g x)) <$> l.
Proof. induction l as [| x l IH]; [done |]. cbn. by f_equal. Qed.

Lemma message_item_is d uid ev p mid c : message_item d uid ev p mid c → is_message p = true.
Proof. intros Hi. unfold is_message. rewrite (mi_event _ _ _ _ _ _ Hi). apply Z.ltb_lt, (mi_pos _ _ _ _ _ _ Hi). Qed.

Lemma friend_item_is d uid ev p fid r : friend_item d uid ev p fid r → is_message p = false.
Proof. intros Hi. unfold is_message. by rewrite (fi_event _ _ _ _ _ _ Hi). Qed.

(** The two kinds of items of a page, by the list they go to. *)
Lemma page_messages d uid evs ps p :
  Forall2 (item_true d uid) evs ps → p ∈ List.filter is_message ps → ∃ ev mid c, message_item d uid ev p mid c.
Proof.
  intros Hall [Hp Hm]%elem_of_List_filter. apply list_elem_of_lookup in Hp as [i Hi].
  destruct (Forall2_lookup_r _ _ _ _ _ Hall Hi) as (ev & _ & [(mid & c & He) | (fid & r & He)]); [by exists ev, mid, c |].
  by rewrite (friend_item_is _ _ _ _ _ _ He) in Hm.
Qed.

Lemma page_requests d uid evs ps p :
  Forall2 (item_true d uid) evs ps → p ∈ List.filter (λ p, negb (is_message p)) ps → ∃ ev fid r, friend_item d uid ev p fid r.
Proof.
  intros Hall [Hp Hm]%elem_of_List_filter. apply list_elem_of_lookup in Hp as [i Hi].
  destruct (Forall2_lookup_r _ _ _ _ _ Hall Hi) as (ev & _ & [(mid & c & He) | (fid & r & He)]); [| by exists ev, fid, r].
  by rewrite (message_item_is _ _ _ _ _ _ He) in Hm.
Qed.

Lemma message_type_cases ty : is_message_type ty = true → ty = TEXT ∨ ty = PIC ∨ ty = FILE.
Proof. intros [[?%Z.eqb_eq | ?%Z.eqb_eq]%orb_true_iff | ?%Z.eqb_eq]%orb_true_iff; auto. Qed.

Lemma friend_type_cases ty : is_friend_type ty = true → ty = FRIEND_APPLY ∨ ty = FRIEND_ACCEPT ∨ ty = FRIEND_REJECT.
Proof. intros [[?%Z.eqb_eq | ?%Z.eqb_eq]%orb_true_iff | ?%Z.eqb_eq]%orb_true_iff; auto. Qed.

Lemma message_item_fits d uid evs ps qs cs ev p mid c :
  Forall2 (item_true d uid) evs ps → p ∈ ps → message_item d uid ev p mid c →
  let ms := List.filter is_message ps in
  event_fits uid (zip (p_message <$> ms) (p_resource <$> ms)) qs cs (p_event p).
Proof.
  intros Hall Hp Hi ms. left. rewrite (mi_event _ _ _ _ _ _ Hi). cbn [ue_type ue_message].
  split; [apply message_type_cases, (mi_type _ _ _ _ _ _ Hi) |]. rewrite zip_fmaps.
  destruct (find_elem (λ x : LocalMessageDTO * LocalMessageResourceDTO, md_id x.1 =? mid)
    ((λ p, (p_message p, p_resource p)) <$> ms) (p_message p, p_resource p)) as ([m r'] & Hfind & Hin & _).
  - apply list_elem_of_fmap. exists p. split; [done |]. apply elem_of_List_filter. split; [done | by eapply message_item_is].
  - cbn. by rewrite (mi_id _ _ _ _ _ _ Hi), Z.eqb_refl.
  - exists m, r'. split; [exact Hfind |]. apply list_elem_of_fmap in Hin as (p' & [= -> ->] & Hp').
    destruct (page_messages d uid evs ps p' Hall Hp') as (? & ? & ? & Hi'). apply (mi_fits _ _ _ _ _ _ Hi').
Qed.

Lemma friend_item_fits d uid evs ps ms ev p fid r :
  Forall2 (item_true d uid) evs ps → p ∈ ps → friend_item d uid ev p fid r →
  let qs := List.filter (λ p, negb (is_message p)) ps in
  event_fits uid ms (p_request <$> qs) (p_contact <$> List.filter is_accept qs) (p_event p).
Proof.
  intros Hall Hp Hi qs. right. rewrite (fi_event _ _ _ _ _ _ Hi). cbn [ue_type ue_request].
  split; [apply friend_type_cases, (fi_type _ _ _ _ _ _ Hi) |].
  assert (Hinq : p ∈ qs) by (apply elem_of_List_filter; by rewrite (friend_item_is _ _ _ _ _ _ Hi)).
  destruct (find_elem (λ q, fd_id q =? fid) (p_request <$> qs) (p_request p)) as (q & Hfind & Hin & Hqid).
  { by apply list_elem_of_fmap_2. } { by rewrite (fi_id _ _ _ _ _ _ Hi), Z.eqb_refl. }
  exists q. split; [exact Hfind |]. apply list_elem_of_fmap in Hin as (p' & -> & Hp'). apply Z.eqb_eq in Hqid.
  destruct (page_requests d uid evs ps p' Hall Hp') as (ev' & fid' & r' & Hi').
  assert (fid' = fid) as -> by (rewrite <- (fi_id _ _ _ _ _ _ Hi'); exact Hqid).
  assert (r' = r) as -> by (pose proof (fi_row _ _ _ _ _ _ Hi); pose proof (fi_row _ _ _ _ _ _ Hi'); congruence).
  split; [apply (fi_valid _ _ _ _ _ _ Hi') |]. intros Ha.
  destruct (fi_contact _ _ _ _ _ _ Hi Ha) as (Hself & Hcu & _).
  rewrite (fi_requester _ _ _ _ _ _ Hi'), (fi_target _ _ _ _ _ _ Hi'), Hself, Z.eqb_refl.
  destruct (find_elem (λ c, cd_user c =? target_user_id r) (p_contact <$> List.filter is_accept qs) (p_contact p)) as (c & Hfc & Hinc & _).
  { apply list_elem_of_fmap_2, elem_of_List_filter. split; [done |]. unfold is_accept. rewrite (fi_event _ _ _ _ _ _ Hi). by apply Z.eqb_eq. }
  { by rewrite Hcu, Z.eqb_refl. }
  exists c. split; [exact Hfc |]. apply list_elem_of_fmap in Hinc as (p2 & -> & [Hp2 Ha2]%elem_of_List_filter).
  destruct (page_requests d uid evs ps p2 Hall Hp2) as (ev2 & fid2 & r2 & Hi2). unfold is_accept in Ha2.
  rewrite (fi_event _ _ _ _ _ _ Hi2) in Ha2. apply Z.eqb_eq in Ha2. by destruct (fi_contact _ _ _ _ _ _ Hi2 Ha2) as (_ & _ & ? & ?).
Qed.

Lemma page_fits d uid evs ps :
  Forall2 (item_true d uid) evs ps →
  let ms := List.filter is_message ps in
  let qs := List.filter (λ p, negb (is_message p)) ps in
  Forall (event_fits uid (zip (p_message <$> ms) (p_resource <$> ms)) (p_request <$> qs) (p_contact <$> List.filter is_accept qs))
    (p_event <$> ps).
Proof.
  intros Hall ms qs. apply Forall_fmap, Forall_forall. intros p Hp. pose proof Hp as [i Hi]%list_elem_of_lookup.
  destruct (Forall2_lookup_r _ _ _ _ _ Hall Hi) as (ev & _ & [(mid & c & He) | (fid & r & He)]);
    [by eapply message_item_fits | by eapply friend_item_fits].
Qed.

(** *** The reply *)

Lemma reply_fields events next more :
  let o := client_object (sync_reply events next more) in
  value o §"error" = QNumber 0 ∧ value o §"events" = QArray (to_client <$> events) ∧
  value o §"next_event_seq" = to_client (jid next) ∧ value o §"has_more" = QBool more.
Proof.
  intros o. unfold o, sync_reply. rewrite !value_client.
  split; [| split; [| split]]; cbn [fmap option_fmap option_map default from_option id].
  - change (assoc §"error" _) with (Some (jcode ERR_SUCCESS)). cbn. unfold jcode. by rewrite to_client_int.
  - change (assoc §"events" _) with (Some (JArray events)). cbn. apply to_client_array.
  - reflexivity.
  - change (assoc §"has_more" _) with (Some (JBool more)). cbn. apply to_client_bool.
Qed.

Lemma client_objects d uid evs :
  let l := to_client <$> ((λ ev, JObject (event_envelope d uid ev)) <$> evs) in
  forallb is_qobject l = true ∧ objects l = client_envelope d uid <$> evs.
Proof.
  intros l. unfold l. induction evs as [| ev evs [IH1 IH2]]; [done |]. cbn [fmap list_fmap forallb] in *.
  unfold client_envelope at 1, client_object. destruct (to_client_object (event_envelope d uid ev)) as (o' & Ho & _).
  unfold objects. cbn [omap list_omap]. rewrite Ho. cbn [is_qobject andb]. split; [done |]. by f_equal.
Qed.

Lemma slot_sync_message_rsp_page d uid now y evs ps more :
  y_state y = SYNC_WAIT_PAGE → y_live y = false → 0 <= y_last y → y_last y + zlen evs <= int64_max →
  ev_seq <$> evs = seqZ (y_last y + 1) (zlen evs) → (more = true → evs ≠ []) →
  parse_page uid now (y_last y + 1) (client_envelope d uid <$> evs) = Some ps →
  slot_sync_message_rsp uid now
    (client_object (sync_reply ((λ ev, JObject (event_envelope d uid ev)) <$> evs) (y_last y + zlen evs) more)) y =
  (with_has_more more y, [page_request ps (y_last y + zlen evs)]).
Proof.
  intros Hst Hlive H0' Hmax Hseq Hmore Hparse. unfold slot_sync_message_rsp. rewrite Hst, bool_decide_eq_true_2, Hlive by done. cbn [negb orb].
  destruct (reply_fields ((λ ev, JObject (event_envelope d uid ev)) <$> evs) (y_last y + zlen evs) more) as (F1 & F2 & F3 & F4).
  rewrite F1, F2, F3, F4. cbn [toInt toBool toArray]. destruct (client_objects d uid evs) as [-> ->].
  rewrite JsonId_jid by (unfold zlen in *; lia). cbn [negb].
  assert (Hexp : match last (client_envelope d uid <$> evs) with Some o => JsonId (value o §"event_seq") | None => y_last y end = y_last y + zlen evs).
  { rewrite <- (last_seqZ ev_seq evs (y_last y) (zlen evs) Hseq) by (unfold zlen; lia). rewrite fmap_last.
    destruct (last evs) as [ev |] eqn:El; [| done]. cbn. apply envelope_seq.
    assert (Hin : ev_seq ev ∈ seqZ (y_last y + 1) (zlen evs)).
    { rewrite <- Hseq. apply list_elem_of_fmap_2. rewrite last_lookup in El. by eapply list_elem_of_lookup_2. }
    apply elem_of_seqZ in Hin. lia. }
  change (y_last (with_has_more more y)) with (y_last y). change (y_has_more (with_has_more more y)) with more.
  rewrite Hexp, (Z.eqb_refl (y_last y + zlen evs)). cbn [negb orb].
  assert (more && bool_decide (client_envelope d uid <$> evs = []) = false) as ->.
  { destruct more; [| done]. rewrite bool_decide_eq_false_2; [done |]. intros Hn%fmap_nil_inv. by apply Hmore. }
  unfold applyEnvelopePage. change (y_last (with_has_more more y)) with (y_last y). rewrite Hparse.
  reflexivity.
Qed.

(** ** The loop *)

Definition sync_request (after lim : Z) : qobject :=
  [(§"after_event_seq", QString (ll_string after)); (§"limit", QNumber lim)].

(** The server's answer to a synchronisation request, on a session of its own
    and with working queries. *)
Definition server_sync (w : world) (after lim : Z) : option qobject :=
  match DealSyncMessage (Some (to_server (QObject (sync_request after lim)))) (World (g_db w) (g_redis w) (g_sessions w) (g_uid w) []) [] with
  | (Some tt, w', _) => match g_out w' with [ChatLogic.Sent _ j] => Some (client_object j) | _ => None end
  | _ => None
  end.

Lemma server_sync_page w after u :
  chat_ok weight (g_db w) → users (g_db w) !! g_uid w = Some u → 0 <= after <= last_event_seq u → last_event_seq u <= int64_max →
  ∃ evs, let n := Z.min 100 (last_event_seq u - after) in
    page_events (g_db w) (g_uid w) after n evs ∧
    server_sync w after 100 = Some (client_object
      (sync_reply ((λ ev, JObject (event_envelope (g_db w) (g_uid w) ev)) <$> evs) (after + n) (after + n <? last_event_seq u))).
Proof.
  intros Hok Hu Ha Hmax. unfold server_sync. destruct (to_server_object (sync_request after 100)) as (o & -> & Ho).
  assert (Hc : sync_cursor (JObject o) = Some after).
  { unfold sync_cursor. cbn [field]. rewrite Ho.
    change (qassoc _ (sync_request after 100)) with (Some (QString (ll_string after))).
    cbn [fmap option_fmap option_map]. rewrite to_server_string. cbn [get_string mbind option_bind].
    unfold ll_string. rewrite (proj2 (Z.ltb_ge _ _)) by lia. destruct (to_string_spec after ltac:(lia)) as (Hne & Hdig & Hval).
    rewrite bool_decide_eq_false_2, Hdig by done. cbn [negb orb]. unfold stoull_digits. rewrite Hval.
    by rewrite (proj2 (Z.ltb_ge _ _)) by (unfold uint64_max, int64_max in *; lia). }
  assert (Hl : sync_limit (JObject o) = Some 100).
  { unfold sync_limit. cbn [field]. rewrite Ho. change (qassoc _ (sync_request after 100)) with (Some (QNumber 100)).
    cbn [fmap option_fmap option_map]. by rewrite to_server_nat. }
  destruct (DealSyncMessage_spec weight (World (g_db w) (g_redis w) (g_sessions w) (g_uid w) []) o after 100 u) as (evs & Hp & Hrun);
    [done.. | lia |]. exists evs. split; [exact Hp |]. by rewrite Hrun.
Qed.

Lemma published_message_id d mid c : published_message d mid = Some c → message_id c = mid.
Proof.
  unfold published_message, message_of. intros Hp. destruct (chat_messages d !! mid) as [m |]; [| done]. cbn in Hp.
  destruct (private_chats d !! m_thread m) as [pc |]; [| done]. cbn in Hp. case_decide; [| done]. by injection Hp as <-.
Qed.

Lemma request_of_id d fid r : request_of d fid = Some r → friend_request_id r = fid.
Proof. unfold request_of. destruct (friend_requests d !! fid); [| done]. by intros [= <-]. Qed.

Section loop.
Context (w : world) (now : Z) (threads : Z → option (bool * Z * list thread_info)).

Definition to_request (e : effect) : option request :=
  match e with
  | GetSyncState => Some ReqSyncState
  | ApplySnapshot qs cs b => Some (ReqSnapshot now qs cs b)
  | UpsertConversations l => Some (ReqConversations now l)
  | MarkBootstrapComplete c => Some (ReqMarkBootstrap c)
  | ApplySyncPage evs ms rs qs cs new => Some (ReqSyncPage now evs ms rs qs cs new)
  | _ => None
  end.

(** The connections of [ChatSyncManager]'s constructor. *)
Definition on_answer (a : answer) (y : sync) : slot :=
  match a with
  | SigSyncState r => slot_sync_state_loaded r y
  | SigConversations b => slot_conversations_upserted b y
  | SigSnapshot b => slot_snapshot_applied b y
  | SigBootstrap b c => slot_bootstrap_marked b c y
  | SigPageApplied new evs qs cs ids => slot_sync_page_applied (g_uid w) now (ok ids) new evs qs cs y
  | _ => (y, [])
  end.

(** One request and its answer; [threads] is what the lists of conversations
    become on their way from the server. *)
Definition perform (e : effect) (y : sync) (s : store) : sync * list effect * store :=
  match e with
  | SendSync after lim =>
      match server_sync w after lim with
      | Some o => (slot_sync_message_rsp (g_uid w) now o y, s)
      | None => (y, [], s)
      end
  | SendThreads after =>
      match threads after with
      | Some (more, next, l) => (slot_load_chat_thread (g_uid w) now more next l y, s)
      | None => (y, [], s)
      end
  | _ =>
      match to_request e with
      | Some q => let '(a, s, _) := serve s q [] in (on_answer a y, s)
      | None => (y, [], s)
      end
  end.

(** Signals to the user interface need no answer. *)
Definition needs_answer (e : effect) : bool :=
  match e with sig_friend_apply _ | sig_friend_request_handled _ _ | sig_add_auth_friend _ => false | _ => true end.

(** The requests are answered in the order they are made; the third result is
    what [fuel] has left. *)
Fixpoint exchange (fuel : nat) (y : sync) (s : store) (queue : list effect) : sync * store * list effect :=
  match queue with
  | [] => (y, s, [])
  | e :: queue =>
      match fuel with
      | O => (y, s, e :: queue)
      | S fuel => let '(y, out, s) := perform e y s in exchange fuel y s (queue ++ List.filter needs_answer out)
      end
  end.

(** ** Catching up *)

Context (u : user_row).
Hypothesis server_ok : chat_ok weight (g_db w).
Hypothesis server_fits : db_fits (g_db w).
Hypothesis server_user : users (g_db w) !! g_uid w = Some u.

(** The client holds what the server has announced after [after]. *)
Definition has_events_after (after : Z) (d : ldb) : Prop :=
  ∀ seq e, after < seq → user_events (g_db w) !! (g_uid w, seq) = Some e →
    (∀ ty mid, e = message_event ty mid → has_message d mid) ∧
    (∀ ty fid, e = friend_event ty fid → is_Some (l_requests d !! fid)).

(** The client between two pages, with a request on the way. *)
Record between (y : sync) (s : store) (d : ldb) : Prop := {
  bw_state : y_state y = SYNC_WAIT_PAGE;
  bw_live : y_live y = false;
  bw_last : y_last y = l_seq d;
  bw_user : st_user s = g_uid w;
  bw_db : usable s = Some d;
  bw_ok : ldb_ok d;
  bw_behind : l_seq d <= last_event_seq u;
  bw_pending : ∀ k, is_Some (y_pending y !! k) → k <= last_event_seq u;
}.

(** The end: idle, with the server's cursor. *)
Record caught_up (d : ldb) (y' : sync) (s' : store) (d' : ldb) : Prop := {
  cu_state : y_state y' = SYNC_IDLE;
  cu_last : y_last y' = last_event_seq u;
  cu_db : usable s' = Some d';
  cu_ok : ldb_ok d';
  cu_seq : l_seq d' = last_event_seq u;
  cu_rows : l_messages d ⊆ l_messages d';
  cu_outbox : l_outbox d' = l_outbox d;
  cu_requests : ∀ i, is_Some (l_requests d !! i) → is_Some (l_requests d' !! i);
  cu_events : has_events_after (l_seq d) d';
}.

Lemma put_usable s d : usable (put s d) = if st_open s then Some d else None.
Proof.
  unfold usable, put, file_of. cbn [st_open st_files st_user]. rewrite lookup_insert_eq. done.
Qed.

Lemma usable_open s d : usable s = Some d → st_open s = true.
Proof. unfold usable. by destruct (st_open s). Qed.

(** What an applied page holds, event by event. *)
Lemma page_events_applied evs ps d' :
  Forall2 (item_true (g_db w) (g_uid w)) evs ps → Forall (event_applied d') (p_event <$> ps) →
  Forall (λ ev, ∃ e, event_true (g_db w) (g_uid w) (ev_seq ev, e) ev) evs →
  ∀ seq e, seq ∈ ev_seq <$> evs → user_events (g_db w) !! (g_uid w, seq) = Some e →
    (∀ ty mid, e = message_event ty mid → has_message d' mid) ∧
    (∀ ty fid, e = friend_event ty fid → is_Some (l_requests d' !! fid)).
Proof.
  intros Hitems Happ Htrue seq e Hin He. apply list_elem_of_fmap in Hin as (ev & -> & Hev).
  apply list_elem_of_lookup in Hev as [i Hi]. destruct (Forall2_lookup_l _ _ _ _ _ Hitems Hi) as (p & Hp & Hitem).
  assert (Ha : event_applied d' (p_event p)).
  { eapply Forall_forall in Happ; [exact Happ |]. apply list_elem_of_fmap_2. by eapply list_elem_of_lookup_2. }
  eapply Forall_forall in Htrue; [| by eapply list_elem_of_lookup_2].
  destruct Htrue as (e' & _ & _ & He' & Hkind). cbn in He', Hkind. assert (e' = e) as -> by congruence. clear He'.
  destruct Hkind as [(mid & c & -> & _ & Hc & _ & Hmid & _) | (fid & r & -> & _ & Hn & Hr & Hfid & _)].
  - split; [| intros ? ? E; discriminate E]. intros ty mid' [= <- <-].
    destruct Hitem as [(mid2 & c2 & Hi2) | (? & ? & Hi2)]; [| by rewrite (fi_message _ _ _ _ _ _ Hi2) in Hc].
    rewrite (mi_event _ _ _ _ _ _ Hi2) in Ha. pose proof (mi_type _ _ _ _ _ _ Hi2) as Ht%message_type_cases.
    assert (mid2 = mid) as ->.
    { rewrite (mi_message _ _ _ _ _ _ Hi2) in Hc. injection Hc as Hc _ _ _ _ _ _ _ _ _.
      rewrite <- Hmid, <- Hc. symmetry. eapply published_message_id, (mi_published _ _ _ _ _ _ Hi2). }
    destruct Ha as [[_ Ha] | [Hf _]]; [exact Ha |]. cbn in Hf. exfalso. clear -Ht Hf. unfold TEXT, PIC, FILE, FRIEND_APPLY, FRIEND_ACCEPT, FRIEND_REJECT in *. lia.
  - split; [intros ? ? E; discriminate E |]. intros ty fid' [= <- <-].
    destruct Hitem as [(? & ? & Hi2) | (fid2 & r2 & Hi2)]; [by rewrite (mi_message _ _ _ _ _ _ Hi2) in Hn |].
    rewrite (fi_event _ _ _ _ _ _ Hi2) in Ha. pose proof (fi_type _ _ _ _ _ _ Hi2) as Ht%friend_type_cases.
    assert (fid2 = fid) as ->.
    { rewrite (fi_request _ _ _ _ _ _ Hi2) in Hr. injection Hr as Hr _ _ _ _ _ _.
      rewrite <- Hfid, <- Hr. symmetry. eapply request_of_id, (fi_row _ _ _ _ _ _ Hi2). }
    destruct Ha as [[Hf _] | [_ Ha]]; [| exact Ha]. cbn in Hf. exfalso. clear -Ht Hf. unfold TEXT, PIC, FILE, FRIEND_APPLY, FRIEND_ACCEPT, FRIEND_REJECT in *. lia.
Qed.

(** The end of a page that leaves nothing to ask for. *)
Lemma applyNextLive_done y :
  (∀ k, is_Some (y_pending y !! k) → k <= y_last y) → applyNextLiveIfPossible (g_uid w) now y = (with_pending ∅ y, []).
Proof.
  intros Hp. unfold applyNextLiveIfPossible. assert (filter (λ kv, y_last y < kv.1) (y_pending y) = ∅) as ->.
  { apply map_eq. intros k. rewrite lookup_empty. apply map_lookup_filter_None. right. intros v Hv Hlt. cbn in Hlt.
    specialize (Hp k ltac:(by eexists)). lia. }
  by rewrite bool_decide_eq_true_2.
Qed.

Lemma applyNextLive_last y y' out : applyNextLiveIfPossible (g_uid w) now y = (y', out) → y_last y' = y_last y.
Proof.
  unfold applyNextLiveIfPossible, applyEnvelopePage, sendSyncRequest.
  destruct (y_pending (with_pending _ y) !! _); [destruct (parse_page _ _ _ _) |]; [by intros [= <- <-] .. |].
  destruct (bool_decide _); by intros [= <- <-].
Qed.

(** The page of a [between] client, applied by the worker: the state the
    answer meets. *)
Lemma page_round y s d :
  between y s d →
  ∃ evs ps ids d', let n := Z.min 100 (last_event_seq u - l_seq d) in let more := l_seq d + n <? last_event_seq u in
    perform (SendSync (l_seq d) 100) y s = (with_has_more more y, [page_request ps (l_seq d + n)], s) ∧
    perform (page_request ps (l_seq d + n)) (with_has_more more y) s =
      (slot_sync_page_applied (g_uid w) now true (l_seq d + n) (p_event <$> ps)
         (p_request <$> List.filter (λ p, negb (is_message p)) ps)
         (p_contact <$> List.filter is_accept (List.filter (λ p, negb (is_message p)) ps)) (with_has_more more y), put s d') ∧
    page_events (g_db w) (g_uid w) (l_seq d) n evs ∧ Forall2 (item_true (g_db w) (g_uid w)) evs ps ∧
    page_applied (p_event <$> ps) ids d d' ∧ ldb_ok d' ∧ zlen ps = n.
Proof.
  intros [Hst Hlive Hlast Huser Hdb Hok Hbehind _]. pose proof (lo_seq d Hok) as Hseq0.
  pose proof (df_seqs _ server_fits _ _ server_user) as Hmax.
  destruct (server_sync_page w (l_seq d) u server_ok server_user ltac:(lia) Hmax) as (evs & Hp & Hserver).
  set (n := Z.min 100 (last_event_seq u - l_seq d)) in *. set (more := l_seq d + n <? last_event_seq u) in *.
  assert (Hn : zlen evs = n).
  { unfold zlen. rewrite <- (length_fmap ev_seq), (proj1 Hp), length_seqZ. lia. }
  destruct Hp as [Hpseq Htrue]. rewrite <- Hn in Hpseq.
  destruct (parse_page_accepted (g_db w) (g_uid w) now evs (l_seq d) server_ok server_fits) as (ps & Hparse & Hitems); [lia.. | done | done |].
  assert (Hlen : zlen ps = n) by (unfold zlen; by rewrite <- (Forall2_length _ _ _ Hitems), <- Hn).
  set (ms := List.filter is_message ps). set (qs := List.filter (λ p, negb (is_message p)) ps).
  assert (Hevseq : ue_seq <$> (p_event <$> ps) = seqZ (l_seq d + 1) (zlen (p_event <$> ps))).
  { unfold zlen in *. rewrite length_fmap. rewrite <- (Forall2_length _ _ _ Hitems), <- Hpseq. symmetry.
    clear -Hitems. induction Hitems as [| ev p evs ps Hi Hitems IH]; [done |]. cbn. f_equal; [| exact IH].
    destruct Hi as [(? & ? & Hi) | (? & ? & Hi)]; [by rewrite (mi_event _ _ _ _ _ _ Hi) | by rewrite (fi_event _ _ _ _ _ _ Hi)]. }
  destruct (applySyncPage_accepts now (g_uid w) (p_event <$> ps) (p_message <$> ms) (p_resource <$> ms) (p_request <$> qs)
    (p_contact <$> List.filter is_accept qs) d) as (ids & d' & Happ); [done | | done | by apply (page_fits (g_db w) (g_uid w) evs) |].
  { unfold zlen. by rewrite !length_fmap. }
  assert (Hlen' : zlen (p_event <$> ps) = n) by (unfold zlen in *; by rewrite length_fmap).
  rewrite Hlen' in Happ.
  pose proof (applySyncPage_keeps _ _ _ _ _ _ _ _ _ _ _ _ _ Hok Happ) as Hok'.
  pose proof (applySyncPage_spec _ _ _ _ _ _ _ _ _ _ _ _ _ Hok Happ) as Hpa. cbn in Hpa.
  exists evs, ps, ids, d'. split; [| split; [| split; [| split; [| split; [| split]]]]]; try done.
  - assert (Hrsp : slot_sync_message_rsp (g_uid w) now
      (client_object (sync_reply ((λ ev, JObject (event_envelope (g_db w) (g_uid w) ev)) <$> evs) (y_last y + zlen evs) more)) y =
      (with_has_more more y, [page_request ps (y_last y + zlen evs)])).
    { apply slot_sync_message_rsp_page; [done | done | lia | lia | by rewrite Hlast | | by rewrite Hlast].
      intros Hm ->. unfold more in Hm. apply Z.ltb_lt in Hm. unfold zlen in Hn. cbn in Hn. lia. }
    rewrite Hlast, Hn in Hrsp. cbn [perform]. rewrite Hserver. by rewrite Hrsp.
  - unfold page_request, perform. cbn [to_request serve]. unfold reply, run. rewrite Hdb, Huser.
    fold ms qs. by rewrite Happ.
  - split; [by rewrite <- Hn | done].
Qed.

(** The announcements are signals only. *)
Lemma announce_signals qs cs evs applies out :
  List.filter needs_answer out = [] → List.filter needs_answer (foldl (announce (g_uid w) qs cs) (applies, out) evs).2 = [].
Proof.
  revert applies out. induction evs as [| ev evs IH]; intros applies out Hout; [done |]. cbn [foldl].
  destruct (announce (g_uid w) qs cs (applies, out) ev) as [applies' out'] eqn:E. apply IH. revert E. unfold announce.
  destruct (ue_request ev <=? 0); [by intros [= <- <-] |].
  destruct ((ue_type ev =? FRIEND_APPLY) && _).
  { intros [= <- <-]. by rewrite List.filter_app, Hout. }
  destruct (_ || _); [| by intros [= <- <-]].
  destruct (UpdatePendingApplyStatusByPeer _ _ applies) as [applies2 handled]. intros [= <- <-].
  rewrite !List.filter_app, Hout. cbn [app].
  assert (Hh : ∀ st, List.filter needs_answer ((λ i, sig_friend_request_handled i st) <$> handled) = []).
  { intros st. by induction handled. }
  rewrite Hh. destruct (_ =? 1); [| done]. by destruct (List.find _ cs).
Qed.

(** What follows an applied page: the next request while there is more, a
    pull that was put off, or nothing. *)
Lemma after_page y more new evs qs cs :
  y_state y = SYNC_WAIT_PAGE → y_live y = false →
  ∃ y' out, slot_sync_page_applied (g_uid w) now true new evs qs cs (with_has_more more y) = (y', out) ∧ y_last y' = new ∧
    if more then
      List.filter needs_answer out = [SendSync new 100] ∧ y_state y' = SYNC_WAIT_PAGE ∧ y_live y' = false ∧
      y_pending y' = y_pending y ∧ y_pull y' = y_pull y
    else (∀ k, is_Some (y_pending y !! k) → k <= new) →
      (List.filter needs_answer out = [] ∧ y_state y' = SYNC_IDLE) ∨
      (y_pull y = true ∧ List.filter needs_answer out = [SendSync new 100] ∧ y_state y' = SYNC_WAIT_PAGE ∧ y_live y' = false ∧
       y_pending y' = y_pending y ∧ y_pull y' = false).
Proof.
  intros Hst Hlive. unfold slot_sync_page_applied. change (y_state (with_has_more more y)) with (y_state y).
  rewrite Hst, bool_decide_eq_true_2 by done. cbn [negb].
  pose proof (announce_signals qs cs evs (y_applies (with_has_more more y)) [] eq_refl) as Hsig.
  destruct (foldl _ _ evs) as [applies out]. cbn [snd] in Hsig.
  change (y_live (with_has_more more y)) with (y_live y). rewrite Hlive. cbn [negb andb].
  change (y_has_more (with_live false (with_applies applies (with_last new (with_has_more more y))))) with more.
  destruct more.
  - eexists _, _. split; [reflexivity |]. split; [done |]. by rewrite List.filter_app, Hsig.
  - set (y1 := with_state SYNC_IDLE _). change (y_pending y1) with (y_pending y).
    destruct (decide (y_pending y = ∅)) as [He | Hne].
    + rewrite bool_decide_eq_true_2 by done. cbn [negb]. change (y_pull y1) with (y_pull y). destruct (y_pull y) eqn:Ep.
      * eexists _, _. split; [reflexivity |]. split; [done |]. intros _. right. by rewrite List.filter_app, Hsig.
      * eexists _, _. split; [reflexivity |]. split; [done |]. intros _. left. by rewrite app_nil_r, Hsig.
    + rewrite bool_decide_eq_false_2 by done. cbn [negb].
      destruct (applyNextLiveIfPossible (g_uid w) now y1) as [y2 next] eqn:En.
      eexists _, _. split; [reflexivity |]. split.
      * by apply applyNextLive_last in En.
      * intros Hk. left. rewrite applyNextLive_done in En by exact Hk. injection En as <- <-. by rewrite app_nil_r, Hsig.
Qed.

(** The steps two requests per page take, one more page for a put-off pull. *)
Definition steps (behind : Z) (pull : bool) : nat := 2 * (Z.to_nat (behind / 100) + 1) + (if pull then 2 else 0).

Lemma has_events_step d d1 d2 n :
  has_events_after (l_seq d1) d2 → l_seq d1 = l_seq d + n →
  (∀ seq e, seq ∈ seqZ (l_seq d + 1) n → user_events (g_db w) !! (g_uid w, seq) = Some e →
    (∀ ty mid, e = message_event ty mid → has_message d1 mid) ∧
    (∀ ty fid, e = friend_event ty fid → is_Some (l_requests d1 !! fid))) →
  l_messages d1 ⊆ l_messages d2 → (∀ i, is_Some (l_requests d1 !! i) → is_Some (l_requests d2 !! i)) →
  has_events_after (l_seq d) d2.
Proof.
  intros Hlater Hseq Hpage Hm Hr seq e Hlt He. destruct (decide (seq <= l_seq d + n)) as [Hle | Hgt].
  - destruct (Hpage seq e) as [H1' H2']; [apply elem_of_seqZ; lia | done |]. split.
    + intros ty mid E. eapply has_message_mono; [exact Hm | by eapply H1'].
    + intros ty fid E. eapply Hr, H2', E.
  - apply (Hlater seq e); [lia | done].
Qed.

(** No event is numbered beyond the server's counter. *)
Lemma no_event_after seq e : last_event_seq u < seq → user_events (g_db w) !! (g_uid w, seq) = Some e → False.
Proof.
  intros Hlt He. destruct (t_inv _ _ (proj1 server_ok)) as (Hg & _).
  apply mk_is_Some, Hg in He as (u' & Hu' & Hr). rewrite server_user in Hu'. injection Hu' as <-. lia.
Qed.

Lemma exchange_catches_up fuel y s d :
  between y s d → (steps (last_event_seq u - l_seq d) (y_pull y) <= fuel)%nat →
  ∃ y' s' d', exchange fuel y s [SendSync (l_seq d) 100] = (y', s', []) ∧ caught_up d y' s' d'.
Proof.
  revert y s d. induction fuel as [fuel IH] using lt_wf_ind. intros y s d Hb Hfuel.
  destruct fuel as [| [| fuel]]; [unfold steps in Hfuel; lia.. |].
  destruct (page_round y s d Hb) as (evs & ps & ids & d' & Hreq & Happ & Hevs & Hitems & Hpa & Hok' & Hlen).
  set (n := Z.min 100 (last_event_seq u - l_seq d)) in *. set (more := l_seq d + n <? last_event_seq u) in *.
  destruct Hb as [Hst Hlive Hlast Huser Hdb Hok Hbehind Hpend].
  destruct (after_page y more (l_seq d + n) (p_event <$> ps) (p_request <$> List.filter (λ p, negb (is_message p)) ps)
    (p_contact <$> List.filter is_accept (List.filter (λ p, negb (is_message p)) ps)) Hst Hlive) as (y1 & out & Hslot & Hlast1 & Hnext).
  cbn [exchange]. rewrite Hreq. cbn [app List.filter needs_answer page_request]. fold (page_request ps (l_seq d + n)).
  rewrite Happ, Hslot. cbn [app].
  assert (Hseq' : l_seq d' = l_seq d + n).
  { rewrite (pa_seq _ _ _ _ Hpa). unfold zlen in *. rewrite length_fmap. lia. }
  assert (Hpage : ∀ seq e, seq ∈ seqZ (l_seq d + 1) n → user_events (g_db w) !! (g_uid w, seq) = Some e →
    (∀ ty mid, e = message_event ty mid → has_message d' mid) ∧ (∀ ty fid, e = friend_event ty fid → is_Some (l_requests d' !! fid))).
  { intros seq e Hin. rewrite <- (proj1 Hevs) in Hin. eapply page_events_applied; [done | apply (pa_events _ _ _ _ Hpa) | apply Hevs | done]. }
  assert (Hdb' : usable (put s d') = Some d') by (rewrite put_usable; by rewrite (usable_open s d Hdb)).
  (* going on from the database of the page *)
  assert (Hgo : ∀ y2, y_state y2 = SYNC_WAIT_PAGE → y_live y2 = false → y_last y2 = l_seq d + n → y_pending y2 = y_pending y →
    (steps (last_event_seq u - (l_seq d + n)) (y_pull y2) <= fuel)%nat →
    ∃ y' s' d2, exchange fuel y2 (put s d') [SendSync (l_seq d + n) 100] = (y', s', []) ∧ caught_up d y' s' d2).
  { intros y2 Hst2 Hlive2 Hlast2 Hpend2 Hfuel2. destruct (IH fuel ltac:(lia) y2 (put s d') d') as (y' & s' & d2 & Hrun & Hcu).
    - constructor; try done; rewrite ?Hseq', ?Hpend2; try done; lia.
    - by rewrite Hseq'.
    - rewrite Hseq' in Hrun. exists y', s', d2. split; [exact Hrun |]. destruct Hcu as [C1 C2 C3 C4 C5 C6 C7 C8 C9].
      constructor; try done.
      + etrans; [apply (pa_rows _ _ _ _ Hpa) | exact C6].
      + by rewrite C7, (pa_outbox _ _ _ _ Hpa).
      + intros i Hi. by apply C8, (pa_requests _ _ _ _ Hpa).
      + by eapply has_events_step. }
  destruct more eqn:Em.
  - destruct Hnext as (-> & Hst1 & Hlive1 & Hpend1 & Hpull1). apply Hgo; try done. rewrite Hpull1.
    unfold more in Em. apply Z.ltb_lt in Em. unfold steps in *. assert (n = 100) as -> by lia.
    replace (last_event_seq u - l_seq d) with (last_event_seq u - (l_seq d + 100) + 1 * 100) in Hfuel by lia.
    rewrite Z.div_add in Hfuel by lia.
    assert (0 <= (last_event_seq u - (l_seq d + 100)) / 100) by (apply Z.div_pos; lia). lia.
  - unfold more in Em. apply Z.ltb_ge in Em. assert (Hall : l_seq d + n = last_event_seq u) by lia.
    destruct Hnext as [[-> Hst1] | (Hpull & -> & Hst1 & Hlive1 & Hpend1 & Hpull1)].
    + intros k Hk. rewrite Hall. by apply Hpend.
    + exists y1, (put s d'), d'. split; [by destruct fuel |]. constructor; try done; try lia.
      * apply (pa_rows _ _ _ _ Hpa).
      * apply (pa_outbox _ _ _ _ Hpa).
      * apply (pa_requests _ _ _ _ Hpa).
      * intros seq e Hlt He. destruct (decide (seq <= last_event_seq u)) as [Hle |].
        -- apply (Hpage seq e); [apply elem_of_seqZ; lia | done].
        -- exfalso. eapply no_event_after; [| exact He]. lia.
    + apply Hgo; try done. rewrite Hpull1, Hall, Z.sub_diag. unfold steps in *. rewrite Hpull in Hfuel.
      assert (0 <= (last_event_seq u - l_seq d) / 100) by (apply Z.div_pos; lia). cbv iota in Hfuel. change (0 / 100) with 0. lia.
Qed.

Lemma filter_Forall {A} (f : A → bool) l : Forall (λ x, f x = true) (List.filter f l).
Proof. apply Forall_forall. intros x Hx. by apply elem_of_List_filter in Hx as [_ ?]. Qed.

Lemma client_catches_up_spec snapshot y0 s d fuel :
  usable s = Some d → ldb_ok d → st_user s = g_uid w → l_bootstrap d = true → l_seq d <= last_event_seq u →
  (steps (last_event_seq u - l_seq d) false + 2 <= fuel)%nat →
  let start := slot_start (slot_login_snapshot snapshot y0).1 in
  ∃ y' s' d', exchange fuel start.1 s start.2 = (y', s', []) ∧ caught_up d y' s' d'.
Proof.
  intros Hdb Hok Huser Hboot Hbehind Hfuel start. destruct fuel as [| [| fuel]]; [lia.. |].
  set (y := (slot_login_snapshot snapshot y0).1) in *. unfold start, slot_start. cbn [fst snd].
  set (y1 := with_timer true _).
  assert (Hstate : perform GetSyncState y1 s =
    (with_state SYNC_WAIT_SNAPSHOT (with_mark false (with_last (l_seq d) y1)), [ApplySnapshot (y_requests y) (y_contacts y) false], put s d)).
  { unfold perform. cbn [to_request serve]. unfold reply, run. rewrite Hdb. unfold getSyncState, sel, stmt. cbn [tape_next io_ok].
    cbn [on_answer]. unfold slot_sync_state_loaded. by rewrite Hboot. }
  destruct (applySnapshot_fits now (y_requests y) (y_contacts y) d) as (d1 & Hsnap & Hext).
  { apply filter_Forall. }
  { eapply Forall_impl; [apply filter_Forall |]. intros c Hc. cbn in Hc. by apply andb_true_iff in Hc as [?%Z.ltb_lt ?%Z.ltb_lt]. }
  pose proof (applySnapshot_keeps _ _ _ _ _ _ _ _ _ Hok Hsnap) as Hok1.
  assert (Hopen : st_open s = true) by by eapply usable_open.
  assert (Hput : usable (put s d) = Some d) by (by rewrite put_usable, Hopen).
  set (y2 := with_state SYNC_WAIT_SNAPSHOT _) in Hstate.
  set (y3 := with_live false (with_state SYNC_WAIT_PAGE y2)).
  assert (Happly : perform (ApplySnapshot (y_requests y) (y_contacts y) false) y2 (put s d) = (y3, [SendSync (l_seq d) 100], put (put s d) d1)).
  { unfold perform. cbn [to_request serve]. unfold reply, run. by rewrite Hput, Hsnap. }
  cbn [exchange]. rewrite Hstate. cbn [app List.filter needs_answer]. rewrite Happly. cbn [app List.filter needs_answer].
  destruct (exchange_catches_up fuel y3 (put (put s d) d1) d1) as (y' & s' & d' & Hrun & Hcu).
  - constructor; try done.
    + symmetry. apply (ex_seq _ _ _ Hext).
    + rewrite put_usable. cbn. by rewrite Hopen.
    + by rewrite (ex_seq _ _ _ Hext).
    + intros k [v Hv]. cbn in Hv. by rewrite lookup_empty in Hv.
  - rewrite (ex_seq _ _ _ Hext). change (y_pull y3) with false. lia.
  - rewrite (ex_seq _ _ _ Hext) in Hrun. exists y', s', d'. split; [exact Hrun |].
    destruct Hcu as [C1 C2 C3 C4 C5 C6 C7 C8 C9]. constructor; try done.
    + etrans; [apply (ex_rows _ _ _ Hext) | exact C6].
    + by rewrite C7, (ex_outbox _ _ _ Hext).
    + intros i Hi. by apply C8, (ex_requests _ _ _ Hext).
    + by rewrite <- (ex_seq _ _ _ Hext).
Qed.


End loop.

End envelopes.

(** ** A concrete exchange *)

Fixpoint demo_to_client (j : json) : qjson :=
  match j with
  | JNull => QNull
  | JBool b => QBool b
  | JInteger z | JUnsigned z => QNumber z
  | JFloat _ => QFraction
  | JString s => QString s
  | JArray l => QArray (map demo_to_client l)
  | JObject o => QObject (map (λ kv, (kv.1, demo_to_client kv.2)) o)
  end.

Fixpoint demo_to_server (j : qjson) : json :=
  match j with
  | QUndefined | QNull => JNull
  | QBool b => JBool b
  | QNumber z => if 0 <=? z then JUnsigned z else JInteger z
  | QFraction => JFloat 0
  | QString s => JString s
  | QArray l => JArray (map demo_to_server l)
  | QObject o => JObject (map (λ kv, (kv.1, demo_to_server kv.2)) o)
  end.

#[local] Instance demo_wire : Wire := {| to_client := demo_to_client; to_server := demo_to_server |}.

#[local] Instance demo_wire_laws : WireLaws.
Proof.
  constructor; try done.
  - intros o. eexists. split; [reflexivity |]. intros k. induction o as [| [k' v] o IH]; [done |]. cbn.
    destruct (decide (k = k')); [done | exact IH].
  - intros o. eexists. split; [reflexivity |]. intros k. induction o as [| [k' v] o IH]; [done |]. cbn.
    destruct (decide (k = k')); [done | exact IH].
  - intros z Hz. cbn. by rewrite (proj2 (Z.leb_le _ _)) by lia.
Qed.

#[local] Instance demo_qt : QtLib := {|
  toLongLong := λ s, if bool_decide (head s = Some (mkbyte 45)) then Some (- digits_value (tail s)) else Some (digits_value s);
  from_format := λ _, None; from_iso_ms := λ _, None; from_iso := λ _, None;
|}.

#[local] Instance demo_qt_laws : QtLaws.
Proof.
  constructor. intros z _. cbn. unfold ll_string. destruct (z <? 0) eqn:E; bool_to_prop.
  - destruct (to_string_spec (- z) ltac:(lia)) as (_ & _ & Hv).
    transitivity (Some (- digits_value (to_string (- z)))); [reflexivity |]. rewrite Hv. f_equal. lia.
  - destruct (to_string_spec z ltac:(lia)) as (Hne & Hdig & Hv). rewrite bool_decide_eq_false_2; [by rewrite Hv |].
    destruct (to_string z) as [| b s]; [done |]. cbn. intros [= ->]. done.
Qed.

Definition demo_ldb : ldb := with_sync initSchema 0 true.
Definition demo_store : store := Store true 2 {[2 := File true (Some demo_ldb)]}.

Lemma demo_ldb_ok : ldb_ok demo_ldb.
Proof. eapply ldb_ok_same_core; [| apply initSchema_ok]. by split_and!. Qed.

Lemma demo_request_fits : db_fits demo_request.1.2.
Proof.
  assert (Hn : next_id demo_request.1.2 <= int64_max) by (apply (bool_decide_unpack _); vm_compute; exact I).
  assert (Hu : map_Forall (λ i r, i <= int_max ∧ last_event_seq r <= int64_max) (users demo_request.1.2))
    by (apply (bool_decide_unpack _); vm_compute; exact I).
  assert (Hr : message_resources demo_request.1.2 = ∅) by (vm_compute; reflexivity).
  constructor.
  - exact Hn.
  - intros i [r Hi]. apply (Hu i r Hi).
  - intros i r Hi. apply (Hu i r Hi).
  - intros i r Hi. by rewrite Hr, lookup_empty in Hi.
Qed.

