(* ===== verification/ResourceTransfer.v ===== *)
(** * Values of the client's resource transfers (client/llfcchat/src/net/resourcetransfer.h)

    The requests, phases and snapshots that the outbox, the pages and the
    transfer engine exchange, and the answers of the ResourceServer as
    client/llfcchat/src/net/resourcecodec.h declares them. *)

From S2P Require Import Prelude.

Inductive TransferDirection := TRANSFER_UPLOAD | TRANSFER_DOWNLOAD.
#[global] Instance TransferDirection_eq_dec : EqDecision TransferDirection.
Proof. solve_decision. Defined.

Inductive TransferPhase :=
  | TRANSFER_QUEUED | TRANSFER_QUERYING | TRANSFER_ACTIVE | TRANSFER_BACKOFF | TRANSFER_PAUSED | TRANSFER_COMPLETED | TRANSFER_FAILED.
#[global] Instance TransferPhase_eq_dec : EqDecision TransferPhase.
Proof. solve_decision. Defined.

Record UploadRequest := Upload { up_message : Z; up_path : bytes; up_size : Z; up_sha : bytes }.
Record DownloadRequest := Download { dn_message : Z; dn_path : bytes; dn_sha : bytes; dn_size : Z }.

Definition no_upload : UploadRequest := Upload 0 [] 0 [].
Definition no_download : DownloadRequest := Download 0 [] [] 0.

(** [owner_uid] and [login_generation] are added when it is passed on. *)
Record TransferSnapshot := Snapshot {
  sn_message : Z;
  sn_direction : TransferDirection;
  sn_phase : TransferPhase;
  sn_acked : Z;
  sn_sent : Z;
  sn_total : Z;
  sn_seq : Z;
  sn_error : Z;
  sn_text : bytes;
  sn_local : bytes;
}.

(** ** Answers, decoded *)

Record ChunkUploadRsp := ChunkUp {
  cu_ok : bool; cu_error : Z; cu_message : Z; cu_offset : Z; cu_server : Z; cu_status : Z; cu_seq : Z }.

Record ProgressRsp := Progress {
  pr_ok : bool; pr_error : Z; pr_message : Z; pr_server : Z; pr_size : Z; pr_status : Z; pr_sha : bytes; pr_chunk : Z; pr_seq : Z;
  pr_mode : bytes; pr_nonce : bytes; pr_coff : Z; pr_clen : Z }.

Record InstantProofRsp := ProofRsp {
  ip_ok : bool; ip_error : Z; ip_message : Z; ip_status : Z; ip_server : Z; ip_seq : Z }.

Record DownInfoRsp := DownInfo {
  di_ok : bool; di_error : Z; di_message : Z; di_name : bytes; di_size : Z; di_sha : bytes; di_mime : bytes; di_type : Z; di_status : Z }.

Record ChunkDownRsp := ChunkDown {
  cd_ok : bool; cd_error : Z; cd_message : Z; cd_offset : Z; cd_bytes : Z; cd_sha : bytes; cd_data : bytes; cd_total : Z; cd_last : bool }.
