(* ===== verification/Outbox.v ===== *)
(** * The client's outbox dispatcher (client/llfcchat/src/store/outboxdispatcher.cpp)

    It lives in the network thread and sends what the outbox of the local
    database holds, again and again until the database has recorded the
    outcome. The register [_entries] is a copy in memory: an entry comes in
    when its row is committed and goes when the transaction that deletes the
    row is. Each slot is a function from the state to the state and the
    effects it has, in order; [now] is the current time and [exists] says
    which files are there. *)

From stdpp Require Import sorting.
From S2P Require Import Prelude ProtocolIds Database TxLogic ChatDb LocalDb LocalStore ResourceTransfer.

(** ** Register *)

Inductive PendingStoreAction :=
  | PENDING_NONE | PENDING_CONFIRM_TEXT | PENDING_CONFIRM_RESOURCE | PENDING_MARK_FAILED | PENDING_ADVANCE_STAGE.
#[global] Instance PendingStoreAction_eq_dec : EqDecision PendingStoreAction.
Proof. solve_decision. Defined.

Record RuntimeEntry := Runtime {
  rt_entry : OutboxEntryDTO;
  rt_retry : nat;                          (* [retry_count] *)
  rt_next : Z;                             (* [next_retry_at] *)
  rt_action : PendingStoreAction;
  rt_message : Z;
  rt_created : Z;
  rt_resource : LocalMessageResourceDTO;
}.

Definition new_entry (e : OutboxEntryDTO) (r : LocalMessageResourceDTO) : RuntimeEntry := Runtime e 0 0 PENDING_NONE 0 0 r.

Definition rt_key (rt : RuntimeEntry) : bytes := od_client (rt_entry rt).

Record dispatcher := Dispatcher {
  o_entries : gmap bytes RuntimeEntry;     (* by [client_message_id] *)
  o_uploading : gmap Z bytes;              (* by [message_id] *)
  o_resume : gset bytes;                   (* [_resume_pending] *)
  o_restore_at : Z;                        (* [_restore_retry_at] *)
  o_connected : bool;
  o_db_ready : bool;
  o_resource_ready : bool;
  o_restored : bool;
  o_restoring : bool;
  o_uid : Z;                               (* [_active_uid] *)
  o_generation : Z;
  o_scan : bool;                           (* the 250 ms timer runs *)
}.

Definition OutboxDispatcher : dispatcher := Dispatcher ∅ ∅ ∅ 0 false false false false false 0 0 false.

Definition with_entries (x : gmap bytes RuntimeEntry) (o : dispatcher) : dispatcher :=
  Dispatcher x (o_uploading o) (o_resume o) (o_restore_at o) (o_connected o) (o_db_ready o) (o_resource_ready o)
    (o_restored o) (o_restoring o) (o_uid o) (o_generation o) (o_scan o).
Definition with_uploading (x : gmap Z bytes) (o : dispatcher) : dispatcher :=
  Dispatcher (o_entries o) x (o_resume o) (o_restore_at o) (o_connected o) (o_db_ready o) (o_resource_ready o)
    (o_restored o) (o_restoring o) (o_uid o) (o_generation o) (o_scan o).
Definition with_resume (x : gset bytes) (o : dispatcher) : dispatcher :=
  Dispatcher (o_entries o) (o_uploading o) x (o_restore_at o) (o_connected o) (o_db_ready o) (o_resource_ready o)
    (o_restored o) (o_restoring o) (o_uid o) (o_generation o) (o_scan o).
Definition with_connected (x : bool) (o : dispatcher) : dispatcher :=
  Dispatcher (o_entries o) (o_uploading o) (o_resume o) (o_restore_at o) x (o_db_ready o) (o_resource_ready o)
    (o_restored o) (o_restoring o) (o_uid o) (o_generation o) (o_scan o).
Definition with_resource_ready (x : bool) (o : dispatcher) : dispatcher :=
  Dispatcher (o_entries o) (o_uploading o) (o_resume o) (o_restore_at o) (o_connected o) (o_db_ready o) x
    (o_restored o) (o_restoring o) (o_uid o) (o_generation o) (o_scan o).
Definition with_restore (restored restoring : bool) (at_ : Z) (o : dispatcher) : dispatcher :=
  Dispatcher (o_entries o) (o_uploading o) (o_resume o) at_ (o_connected o) (o_db_ready o) (o_resource_ready o)
    restored restoring (o_uid o) (o_generation o) (o_scan o).
Definition with_scan (x : bool) (o : dispatcher) : dispatcher :=
  Dispatcher (o_entries o) (o_uploading o) (o_resume o) (o_restore_at o) (o_connected o) (o_db_ready o)
    (o_resource_ready o) (o_restored o) (o_restoring o) (o_uid o) (o_generation o) x.

(** ** Effects *)

Inductive effect :=
  | ToStore (q : request)                      (* a request to the database worker *)
  | SendText (payload : bytes)                 (* ID_TEXT_CHAT_MSG_REQ *)
  | SendResource (payload : bytes)             (* ID_CREATE_RESOURCE_MSG_REQ *)
  | PostStartUpload (u : UploadRequest)
  | ScheduleArchive (mid owner : Z) (src sha : bytes) (generation : Z).

Definition step := (dispatcher * list effect)%type.

(** Running a second step after a first one. *)
Definition andThen (x : step) (k : dispatcher → step) : step :=
  let '(o, l) := x in let '(o', l') := k o in (o', l ++ l').

Section dispatcher.
Context (retry_initial_ms retry_max_ms : Z).

(** [int i] runs to [retry_count]. *)
Definition retry_delay (n : nat) : Z := Nat.iter n (λ delay, Z.min (delay * 2) retry_max_ms) retry_initial_ms.

(** The delays double from the second attempt on, up to the maximum. *)
Lemma retry_delay_closed n :
  0 < retry_initial_ms → 0 < retry_max_ms → (0 < n)%nat → retry_delay n = Z.min (retry_initial_ms * 2 ^ Z.of_nat n) retry_max_ms.
Proof.
  intros Hi Hm Hn. unfold retry_delay. destruct n as [| n]; [lia |]. clear Hn. induction n as [| n IH]; [cbn; lia |].
  rewrite Nat.iter_succ, IH. rewrite (Nat2Z.inj_succ (S n)), Z.pow_succ_r by lia.
  assert (0 < 2 ^ Z.of_nat (S n)) by (apply Z.pow_pos_nonneg; lia). nia.
Qed.

Definition scheduleRetry (now : Z) (rt : RuntimeEntry) : RuntimeEntry :=
  Runtime (rt_entry rt) (S (rt_retry rt)) (now + retry_delay (rt_retry rt)) (rt_action rt) (rt_message rt) (rt_created rt)
    (rt_resource rt).

Definition issuePendingAction (now : Z) (rt : RuntimeEntry) : list effect :=
  match rt_action rt with
  | PENDING_CONFIRM_TEXT => [ToStore (ReqConfirmText now (rt_key rt) (rt_message rt) (rt_created rt))]
  | PENDING_CONFIRM_RESOURCE => [ToStore (ReqConfirmResource (rt_key rt) (rd_path (rt_resource rt)))]
  | PENDING_MARK_FAILED => [ToStore (ReqMarkFailed (rt_key rt))]
  | PENDING_ADVANCE_STAGE => [ToStore (ReqStage (rt_key rt) (rt_message rt) StageUploading)]
  | PENDING_NONE => []
  end.

(** A change of one entry, under its key, and effects. *)
Definition put_entry (key : bytes) (rt : RuntimeEntry) (out : list effect) (o : dispatcher) : step :=
  (with_entries (<[key := rt]> (o_entries o)) o, out).

Definition beginAction (now : Z) (key : bytes) (rt : RuntimeEntry) (action : PendingStoreAction) (o : dispatcher) : step :=
  let rt := scheduleRetry now (Runtime (rt_entry rt) 0 0 action (rt_message rt) (rt_created rt) (rt_resource rt)) in
  put_entry key rt (issuePendingAction now rt) o.

(** Removes the entry and the uploads that carry its key. *)
Definition eraseEntry (key : bytes) (o : dispatcher) : dispatcher :=
  with_uploading (filter (λ kv, kv.2 ≠ key) (o_uploading o)) (with_entries (delete key (o_entries o)) o).

(** ** Sending *)

Definition dispatchTextEntry (now : Z) (key : bytes) (rt : RuntimeEntry) (o : dispatcher) : step :=
  put_entry key (scheduleRetry now rt) [SendText (od_payload (rt_entry rt))] o.

Definition dispatchResourceEntry (now : Z) (exists_ : bytes → bool) (key : bytes) (rt : RuntimeEntry) (o : dispatcher) : step :=
  if negb (bool_decide (od_stage (rt_entry rt) = StageMetadata)) then (o, [])
  else if rd_local (rt_resource rt) <=? 0 then (o, [])
  else if negb (exists_ (rd_path (rt_resource rt))) then beginAction now key rt PENDING_MARK_FAILED o
  else put_entry key (scheduleRetry now rt) [SendResource (od_payload (rt_entry rt))] o.

Definition dispatchEntry (now : Z) (exists_ : bytes → bool) (key : bytes) (rt : RuntimeEntry) (o : dispatcher) : step :=
  match od_type (rt_entry rt) with
  | LocalDb.SendText => dispatchTextEntry now key rt o
  | LocalDb.SendResource => dispatchResourceEntry now exists_ key rt o
  end.

(** [QMap::keys()]: the keys in order; those of the program are ASCII. *)
Definition keys (o : dispatcher) : list bytes := merge_sort bytes_le (map_to_list (o_entries o)).*1.

(** The body of the loop for one key. *)
Definition dispatch_due (now : Z) (exists_ : bytes → bool) (key : bytes) (o : dispatcher) : step :=
  match o_entries o !! key with
  | None => (o, [])
  | Some rt =>
      if now <? rt_next rt then (o, [])
      else if negb (bool_decide (rt_action rt = PENDING_NONE)) then
        let rt := scheduleRetry now rt in put_entry key rt (issuePendingAction now rt) o
      else if negb (o_connected o) then (o, [])
      else dispatchEntry now exists_ key rt o
  end.

(** A loop over keys. *)
Fixpoint for_keys (body : bytes → dispatcher → step) (l : list bytes) (o : dispatcher) : step :=
  match l with
  | [] => (o, [])
  | key :: l => andThen (body key o) (for_keys body l)
  end.

Definition dispatchDueEntries (now : Z) (exists_ : bytes → bool) (o : dispatcher) : step :=
  if negb (o_db_ready o) || negb (o_restored o) || o_restoring o then (o, [])
  else for_keys (dispatch_due now exists_) (keys o) o.

Definition first_round (now : Z) (exists_ : bytes → bool) (key : bytes) (o : dispatcher) : step :=
  match o_entries o !! key with
  | None => (o, [])
  | Some rt =>
      if negb (rt_next rt =? 0) || negb (bool_decide (rt_action rt = PENDING_NONE)) then (o, [])
      else dispatchEntry now exists_ key rt o
  end.

Definition dispatchRestoredFirstRound (now : Z) (exists_ : bytes → bool) (order : list OutboxEntryDTO) (o : dispatcher) : step :=
  for_keys (first_round now exists_) (od_client <$> order) o.

(** ** Uploads *)

Definition with_rt_message (mid : Z) (rt : RuntimeEntry) : RuntimeEntry :=
  Runtime (rt_entry rt) (rt_retry rt) (rt_next rt) (rt_action rt) mid (rt_created rt) (rt_resource rt).

Definition startResourceUpload (key : bytes) (rt : RuntimeEntry) (mid : Z) (o : dispatcher) : step :=
  let o := with_entries (<[key := with_rt_message mid rt]> (o_entries o)) o in
  if negb (o_resource_ready o) then (o, [])
  else
    (with_uploading (<[mid := rt_key rt]> (o_uploading o)) o,
     [PostStartUpload (Upload mid (rd_path (rt_resource rt)) (rd_size (rt_resource rt)) (rd_sha (rt_resource rt)))]).

(** Asking the database for the row of an entry. *)
Definition look_up (key : bytes) (o : dispatcher) : step :=
  (with_resume ({[key]} ∪ o_resume o) o, [ToStore (ReqMessage key)]).

Definition resume_one (key : bytes) (o : dispatcher) : step :=
  match o_entries o !! key with
  | None => (o, [])
  | Some rt =>
      match od_type (rt_entry rt) with
      | LocalDb.SendText => (o, [])
      | LocalDb.SendResource =>
          if negb (bool_decide (od_stage (rt_entry rt) = StageUploading)) || negb (bool_decide (rt_action rt = PENDING_NONE))
          then (o, [])
          else if rd_local (rt_resource rt) <=? 0 then
            if bool_decide (rt_key rt ∈ o_resume o) then (o, []) else look_up (rt_key rt) o
          else if bool_decide (is_Some (o_uploading o !! rt_message rt)) || bool_decide (rt_key rt ∈ o_resume o) then (o, [])
          else if 0 <? rt_message rt then startResourceUpload key rt (rt_message rt) o
          else look_up (rt_key rt) o
      end
  end.

Definition resumeUploadingEntries (o : dispatcher) : step :=
  if negb (o_resource_ready o) || negb (o_restored o) || o_restoring o then (o, [])
  else for_keys resume_one (keys o) o.

(** ** Restoring *)

Definition requestRestore (now : Z) (o : dispatcher) : step :=
  if negb (o_connected o) || negb (o_db_ready o) || o_restored o || o_restoring o then (o, [])
  else if now <? o_restore_at o then (o, [])
  else (with_restore (o_restored o) true (o_restore_at o) o, [ToStore ReqOutbox]).

(** [next_retry_at = 0] for the entries that wait for the network. *)
Definition rearm (rt : RuntimeEntry) : RuntimeEntry :=
  if decide (rt_action rt = PENDING_NONE)
  then Runtime (rt_entry rt) (rt_retry rt) 0 (rt_action rt) (rt_message rt) (rt_created rt) (rt_resource rt) else rt.

Definition slot_start (now : Z) (exists_ : bytes → bool) (o : dispatcher) : step :=
  let o := with_scan true (with_connected true o) in
  if negb (o_restored o) then requestRestore now o
  else
    let o := with_entries (rearm <$> o_entries o) o in
    andThen (resumeUploadingEntries o) (dispatchDueEntries now exists_).

(** A register for another database, or none. *)
Definition reset_register (uid : Z) (ready : bool) (generation : Z) (scan : bool) (o : dispatcher) : dispatcher :=
  Dispatcher ∅ ∅ ∅ 0 (o_connected o) ready (o_resource_ready o) false false uid generation scan.

Definition slot_db_opened (now : Z) (ok : bool) (uid : Z) (o : dispatcher) : step :=
  if negb ok then (reset_register uid false (o_generation o) (o_scan o) o, [])
  else if o_db_ready o && (o_uid o =? uid) then requestRestore now o
  else requestRestore now (reset_register uid true (o_generation o + 1) true o).

Definition slot_db_closed (o : dispatcher) : step := (reset_register 0 false (o_generation o + 1) (o_scan o) o, []).

Definition slot_send_enqueued_registered (now : Z) (exists_ : bytes → bool)
    (r : option (LocalMessageDTO * LocalMessageResourceDTO * OutboxEntryDTO)) (o : dispatcher) : step :=
  match r with
  | None => (o, [])
  | Some (_, resource, entry) =>
      if bool_decide (is_Some (o_entries o !! od_client entry)) then (o, [])
      else
        dispatchDueEntries now exists_
          (with_entries (<[od_client entry := new_entry entry resource]> (o_entries o)) o)
  end.

Fixpoint merge_entries (l : list OutboxEntryDTO) (m : gmap bytes RuntimeEntry) : gmap bytes RuntimeEntry :=
  match l with
  | [] => m
  | e :: l =>
      merge_entries l (if bool_decide (is_Some (m !! od_client e)) then m else <[od_client e := new_entry e no_resource]> m)
  end.

Fixpoint look_up_resources (l : list OutboxEntryDTO) (o : dispatcher) : step :=
  match l with
  | [] => (o, [])
  | e :: l =>
      match od_type e with
      | LocalDb.SendText => look_up_resources l o
      | LocalDb.SendResource =>
          if bool_decide (od_client e ∈ o_resume o) then look_up_resources l o
          else andThen (look_up (od_client e) o) (look_up_resources l)
      end
  end.

Definition slot_outbox_loaded (now : Z) (exists_ : bytes → bool) (r : option (list OutboxEntryDTO)) (o : dispatcher) : step :=
  if negb (o_restoring o) then (o, [])
  else match r with
  | None => (with_restore (o_restored o) false (now + retry_initial_ms) o, [])
  | Some entries =>
      let o := with_restore true false 0 o in
      let o := with_entries (merge_entries entries (o_entries o)) o in
      andThen (look_up_resources entries o) (λ o,
        andThen (dispatchRestoredFirstRound now exists_ entries o) (dispatchDueEntries now exists_))
  end.

Definition with_row (r : LocalMessageResourceDTO) (mid : Z) (rt : RuntimeEntry) : RuntimeEntry :=
  Runtime (rt_entry rt) (rt_retry rt) (rt_next rt) (rt_action rt) mid (rt_created rt) r.

Definition slot_message_loaded (now : Z) (exists_ : bytes → bool) (ok : bool) (m : LocalMessageDTO) (r : LocalMessageResourceDTO)
    (o : dispatcher) : step :=
  let key := md_client m in
  if negb (bool_decide (key ∈ o_resume o)) then (o, [])
  else
    let o := with_resume (o_resume o ∖ {[key]}) o in
    match o_entries o !! key with
    | None => (o, [])
    | Some rt =>
        if negb ok || (rd_local r <=? 0) || bool_decide (rd_path r = []) then beginAction now key rt PENDING_MARK_FAILED o
        else
          let rt := with_row r (md_id m) rt in
          let o := with_entries (<[key := rt]> (o_entries o)) o in
          if bool_decide (od_stage (rt_entry rt) = StageUploading) then
            if md_id m <=? 0 then beginAction now key rt PENDING_MARK_FAILED o
            else if o_resource_ready o then startResourceUpload key rt (md_id m) o else (o, [])
          else dispatchDueEntries now exists_ o
    end.

(** ** Answers of the servers *)

Definition with_outcome (mid created : Z) (rt : RuntimeEntry) : RuntimeEntry :=
  Runtime (rt_entry rt) (rt_retry rt) (rt_next rt) (rt_action rt) mid created (rt_resource rt).

(** [createdAt] is the time of the reply, if it is valid. *)
Definition slot_text_msg_rsp (now error : Z) (client : bytes) (mid : Z) (createdAt : option Z) (o : dispatcher) : step :=
  match o_entries o !! client with
  | None => (o, [])
  | Some rt =>
      if negb (bool_decide (rt_action rt = PENDING_NONE)) then (o, [])
      else if error =? CommonErrCode_code ERR_SUCCESS then
        beginAction now client (with_outcome mid (default now createdAt) rt) PENDING_CONFIRM_TEXT o
      else if error =? CommonErrCode_code ERR_MESSAGE_CONFLICT then beginAction now client rt PENDING_MARK_FAILED o
      else (o, [])
  end.

Definition slot_resource_msg_meta_rsp (now error : Z) (client : bytes) (mid : Z) (o : dispatcher) : step :=
  match o_entries o !! client with
  | None => (o, [])
  | Some rt =>
      if negb (bool_decide (rt_action rt = PENDING_NONE)) then (o, [])
      else if (error =? CommonErrCode_code ERR_MESSAGE_CONFLICT) || (error =? CommonErrCode_code ERR_RESOURCE_INVALID) ||
              (error =? CommonErrCode_code ERR_RESOURCE_SIZE_EXCEEDED)
      then beginAction now client rt PENDING_MARK_FAILED o
      else if negb (error =? CommonErrCode_code ERR_SUCCESS) then (o, [])
      else beginAction now client (with_rt_message mid rt) PENDING_ADVANCE_STAGE o
  end.

Definition handleUploadFinished (now mid : Z) (phase : TransferPhase) (o : dispatcher) : step :=
  match o_uploading o !! mid with
  | None => (o, [])
  | Some client =>
      match o_entries o !! client with
      | None => (with_uploading (delete mid (o_uploading o)) o, [])
      | Some rt =>
          if negb (bool_decide (rt_action rt = PENDING_NONE)) then (o, [])
          else match phase with
          | TRANSFER_COMPLETED => beginAction now client (with_rt_message mid rt) PENDING_CONFIRM_RESOURCE o
          | TRANSFER_FAILED => beginAction now client rt PENDING_MARK_FAILED o
          | _ => (o, [])
          end
      end
  end.

(** [current] says whether the snapshot is of the current login, [upload]
    whether it is an upload. *)
Definition slot_transfer_finished (now owner : Z) (current upload : bool) (mid : Z) (phase : TransferPhase) (o : dispatcher) : step :=
  if (owner <=? 0) || negb (owner =? o_uid o) || negb current then (o, [])
  else if upload then handleUploadFinished now mid phase o else (o, []).

(** ** Results of transactions *)

(** The common beginning of the result slots. *)
Definition awaited (action : PendingStoreAction) (m : LocalMessageDTO) (o : dispatcher) : option RuntimeEntry :=
  match o_entries o !! md_client m with
  | Some rt => if decide (rt_action rt = action) then Some rt else None
  | None => None
  end.

Definition slot_send_confirmed (r : option LocalMessageDTO) (o : dispatcher) : step :=
  match r with
  | None => (o, [])
  | Some m => match awaited PENDING_CONFIRM_TEXT m o with None => (o, []) | Some _ => (eraseEntry (md_client m) o, []) end
  end.

Definition slot_send_failed_marked (r : option LocalMessageDTO) (o : dispatcher) : step :=
  match r with
  | None => (o, [])
  | Some m => match awaited PENDING_MARK_FAILED m o with None => (o, []) | Some _ => (eraseEntry (md_client m) o, []) end
  end.

Definition slot_resource_confirmed (r : option LocalMessageDTO) (o : dispatcher) : step :=
  match r with
  | None => (o, [])
  | Some m =>
      match awaited PENDING_CONFIRM_RESOURCE m o with
      | None => (o, [])
      | Some rt =>
          (eraseEntry (md_client m) o,
           [ScheduleArchive (rt_message rt) (o_uid o) (rd_path (rt_resource rt)) (rd_sha (rt_resource rt)) (o_generation o)])
      end
  end.

Definition with_stage (st : resource_stage) (e : OutboxEntryDTO) : OutboxEntryDTO :=
  OutboxDTO (od_operation e) (od_client e) (od_type e) st (od_payload e).

Definition slot_resource_stage_updated (r : option LocalMessageDTO) (o : dispatcher) : step :=
  match r with
  | None => (o, [])
  | Some m =>
      match awaited PENDING_ADVANCE_STAGE m o with
      | None => (o, [])
      | Some rt =>
          let rt := Runtime (with_stage StageUploading (rt_entry rt)) 0 0 PENDING_NONE (md_id m) (rt_created rt) (rt_resource rt) in
          let o := with_entries (<[md_client m := rt]> (o_entries o)) o in
          if o_resource_ready o then startResourceUpload (md_client m) rt (md_id m) o else (o, [])
      end
  end.

Definition finishArchive (mid owner generation : Z) (path : bytes) (o : dispatcher) : step :=
  if negb (generation =? o_generation o) || negb (owner =? o_uid o) then (o, [])
  else (o, [ToStore (ReqLocalPath mid path owner)]).

(** ** Timer and connections *)

Definition slot_scan_timeout (now : Z) (exists_ : bytes → bool) (o : dispatcher) : step :=
  if negb (o_db_ready o) then (with_scan false o, [])
  else andThen (requestRestore now o) (dispatchDueEntries now exists_).

Definition slot_resource_login_success (o : dispatcher) : step := resumeUploadingEntries (with_resource_ready true o).
Definition slot_resource_connection_closed (o : dispatcher) : step := (with_resource_ready false o, []).
Definition slot_connection_closed (o : dispatcher) : step := (with_connected false o, []).

(** The connections of the constructor to the two network managers, the timer
    and the archive task. *)
Inductive event :=
  | OnStart
  | OnConnectionClosed
  | OnTextRsp (error : Z) (client : bytes) (mid : Z) (createdAt : option Z)
  | OnResourceMetaRsp (error : Z) (client : bytes) (mid : Z)
  | OnTransferFinished (owner : Z) (current upload : bool) (mid : Z) (phase : TransferPhase)
  | OnResourceLogin
  | OnResourceClosed
  | OnArchived (mid owner generation : Z) (path : bytes)
  | OnScanTimeout.

Definition on_event (now : Z) (exists_ : bytes → bool) (e : event) (o : dispatcher) : step :=
  match e with
  | OnStart => slot_start now exists_ o
  | OnConnectionClosed => slot_connection_closed o
  | OnTextRsp error client mid createdAt => slot_text_msg_rsp now error client mid createdAt o
  | OnResourceMetaRsp error client mid => slot_resource_msg_meta_rsp now error client mid o
  | OnTransferFinished owner current upload mid phase => slot_transfer_finished now owner current upload mid phase o
  | OnResourceLogin => slot_resource_login_success o
  | OnResourceClosed => slot_resource_connection_closed o
  | OnArchived mid owner generation path => finishArchive mid owner generation path o
  | OnScanTimeout => slot_scan_timeout now exists_ o
  end.

(** The connections of the constructor to the database worker. *)
Definition on_store_answer (now : Z) (exists_ : bytes → bool) (a : answer) (o : dispatcher) : step :=
  match a with
  | SigEnqueued r => slot_send_enqueued_registered now exists_ r o
  | SigSendConfirmed r => slot_send_confirmed r o
  | SigFailedMarked r => slot_send_failed_marked r o
  | SigResourceConfirmed r => slot_resource_confirmed r o
  | SigStageUpdated r => slot_resource_stage_updated r o
  | SigOutbox r => slot_outbox_loaded now exists_ r o
  | SigMessageLoaded ok m r => slot_message_loaded now exists_ ok m r o
  | SigOpened ok uid => slot_db_opened now ok uid o
  | SigClosed => slot_db_closed o
  | _ => (o, [])
  end.

End dispatcher.
