(* ===== verification/OutboxSystem.v ===== *)
(** * No send is forgotten

    The dispatcher (Outbox.v), the database worker (LocalStore.v) and the two
    queues of signals between their threads, as a transition system. The
    register of the dispatcher trails the outbox of the database: what the
    database holds is in the register, or on the way to it. *)

From stdpp Require Import sorting.
From S2P Require Import Prelude ProtocolIds Database TxLogic ChatDb LocalDb LocalStore ResourceTransfer Outbox.

(** ** The system *)

Definition store_requests (l : list effect) : list request :=
  omap (λ e, match e with ToStore q => Some q | _ => None end) l.

Record system := System {
  s_disp : dispatcher;
  s_store : store;
  s_requests : list request;     (* signals on their way to the worker *)
  s_answers : list answer;       (* signals on their way to the dispatcher *)
}.

(** The program starts with whatever files an earlier run has left. *)
Definition start (files : gmap Z db_file) : system := System OutboxDispatcher (Store false 0 files) [] [].

Section system.
Context (retry_initial_ms retry_max_ms : Z).

Inductive sys_step : system → system → Prop :=
  | step_serve o s q qs as_ t a s' t' :
      serve s q t = (a, s', t') → sys_step (System o s (q :: qs) as_) (System o s' qs (as_ ++ [a]))
  | step_answer o s qs a as_ now exists_ o' l :
      on_store_answer retry_initial_ms retry_max_ms now exists_ a o = (o', l) →
      sys_step (System o s qs (a :: as_)) (System o' s (qs ++ store_requests l) as_)
  | step_event o s qs as_ now exists_ e o' l :
      on_event retry_initial_ms retry_max_ms now exists_ e o = (o', l) →
      sys_step (System o s qs as_) (System o' s (qs ++ store_requests l) as_)
  | step_request o s qs as_ q :          (* the pages and the sync manager *)
      sys_step (System o s qs as_) (System o s (qs ++ [q]) as_).

End system.

(** ** The worker's side *)

(** The outbox has an entry of this client identifier. *)
Definition waits (d : ldb) (c : bytes) : Prop := ∃ i o, l_outbox d !! i = Some o ∧ ob_client o = c.

Definition shrinks {A} (m : Sq A) : Prop := ∀ d t r d' t', m d t = (r, d', t') → ∀ c, waits d' c → waits d c.

Lemma shrinks_ret {A} (a : A) : shrinks (mret a).
Proof. by intros d t r d' t' [= <- <- <-]. Qed.

Lemma shrinks_refuse {A} : shrinks (refuse (A := A)).
Proof. by intros d t r d' t' [= <- <- <-]. Qed.

Lemma shrinks_bind {A B} (m : Sq A) (k : A → Sq B) : shrinks m → (∀ a, shrinks (k a)) → shrinks (m ≫= k).
Proof.
  intros Hm Hk d t r d' t'. unfold mbind, Sq_bind. destruct (m d t) as [[[a |] d1] t1] eqn:E.
  - intros Hr c Hc. eapply Hm; [exact E |]. by eapply Hk.
  - intros [= <- <- <-]. by eapply Hm.
Qed.

Lemma shrinks_stmt {A} (f : ldb → option (A * ldb)) :
  (∀ d a d', f d = Some (a, d') → ∀ c, waits d' c → waits d c) → shrinks (stmt f).
Proof.
  intros Hf d t r d' t'. unfold stmt. destruct (tape_next t) as [o t1]. destruct (io_ok o); [| by intros [= <- <- <-]].
  destruct (f d) as [[a d1] |] eqn:E; [| by intros [= <- <- <-]]. intros [= <- <- <-]. by eapply Hf.
Qed.

(** A statement on the other tables. *)
Lemma shrinks_other {A} (f : ldb → option (A * ldb)) :
  (∀ d a d', f d = Some (a, d') → l_outbox d' = l_outbox d) → shrinks (stmt f).
Proof. intros Hf. apply shrinks_stmt. intros d a d' He c. unfold waits. by rewrite (Hf _ _ _ He). Qed.

Lemma shrinks_sel {A} (f : ldb → A) : shrinks (sel f).
Proof. apply shrinks_other. by intros d a d' [= <- <-]. Qed.

Lemma shrinks_txn {A} (m : Sq A) : shrinks m → shrinks (txn m).
Proof.
  intros Hm d t r d' t'. unfold txn. destruct (tape_next t) as [o t1]. destruct (io_ok o); cbn [negb]; [| by intros [= <- <- <-]].
  destruct (m d t1) as [[[a |] d1] t2] eqn:E; [| by intros [= <- <- <-]].
  destruct (tape_next t2) as [o2 t3]. destruct (io_ok o2); intros [= <- <- <-]; [by eapply Hm | done].
Qed.

Lemma shrinks_if {A} (b : bool) (m1 m2 : Sq A) : shrinks m1 → shrinks m2 → shrinks (if b then m1 else m2).
Proof. by destruct b. Qed.

Create HintDb shrinks.
#[export] Hint Resolve shrinks_ret shrinks_refuse shrinks_bind shrinks_sel shrinks_txn shrinks_if : shrinks.

Lemma shrinks_fill c : shrinks (fillMessageByClientId c).
Proof. apply shrinks_bind; [apply shrinks_sel |]. intros []; auto with shrinks. Qed.

Lemma shrinks_update c p f : shrinks (stmt (update_row c p f)).
Proof. apply shrinks_other. by intros d a d' (i & m & _ & _ & _ & _ & _ & ->)%update_row_Some. Qed.

Lemma shrinks_delete c : shrinks (stmt (delete_outbox c)).
Proof.
  apply shrinks_stmt. intros d a d' [= <- <-] c2 (i & o & [Ho _]%map_lookup_filter_Some & Hc). by exists i, o.
Qed.

Lemma shrinks_stage c st : shrinks (stmt (update_stage c st)).
Proof.
  apply shrinks_stmt. intros d a d'. unfold update_stage. destruct (bool_decide _); [| done]. intros [= <- <-].
  intros c2 (i & o & Ho & Hc). cbn in Ho. rewrite lookup_fmap, fmap_Some in Ho. destruct Ho as (o0 & Ho & ->).
  exists i, o0. split; [done |]. rewrite <- Hc. by case_decide.
Qed.

Lemma shrinks_path row p : shrinks (stmt (set_path_of row p)).
Proof.
  apply shrinks_other. intros d a d'. unfold set_path_of, set_path. destruct (row d) as [[i m] |]; [| done].
  destruct (_ !! i); [| done]. by intros [= <- <-].
Qed.

Lemma shrinks_insert mid m : shrinks (stmt (insert_or_ignore mid m)).
Proof.
  apply shrinks_other. intros d a d'. unfold insert_or_ignore, insert_row.
  destruct (row_shape m && _); by intros [= <- <-].
Qed.

Lemma shrinks_resource i r : shrinks (stmt (upsert_resource i r)).
Proof. apply shrinks_other. intros d a d'. unfold upsert_resource. destruct (_ && _); [| done]. by intros [= <- <-]. Qed.

#[export] Hint Resolve shrinks_fill shrinks_update shrinks_delete shrinks_stage shrinks_path shrinks_insert shrinks_resource : shrinks.

Ltac shrinks_other := apply shrinks_other; by intros ? ? ? [= <- <-].

Lemma shrinks_insertMessageIgnore m r : shrinks (insertMessageIgnore m r).
Proof.
  apply shrinks_if; [auto with shrinks |]. apply shrinks_bind; [auto with shrinks |]. intros new. apply shrinks_bind.
  - destruct new; [auto with shrinks |]. apply shrinks_bind; [auto with shrinks |]. intros [[] |]; auto with shrinks.
  - intros i. auto 6 with shrinks.
Qed.

Lemma shrinks_insert_one self m r : shrinks (insert_one self m r).
Proof.
  apply shrinks_bind; [apply shrinks_insertMessageIgnore |]. intros []; [| auto with shrinks].
  apply shrinks_bind; [| auto with shrinks]. apply shrinks_bind.
  - apply shrinks_if; [auto with shrinks |]. apply shrinks_bind; [auto with shrinks |]. intros []; auto with shrinks.
  - intros peer. apply shrinks_if; [auto with shrinks | shrinks_other].
Qed.

Lemma shrinks_insert_all self l ids : shrinks (insert_all self l ids).
Proof.
  revert ids. induction l as [| [m r] l IH]; intros ids; cbn; [auto with shrinks |].
  apply shrinks_bind; [apply shrinks_insert_one | intros; apply IH].
Qed.

Lemma shrinks_upsertFriendRequest q : shrinks (upsertFriendRequest q).
Proof. apply shrinks_if; [auto with shrinks | shrinks_other]. Qed.

Lemma shrinks_upsertContact c : shrinks (upsertContact c).
Proof. apply shrinks_if; [auto with shrinks | shrinks_other]. Qed.

Lemma shrinks_upsertConversations now l : shrinks (upsertConversations now l).
Proof.
  induction l as [| v l IH]; cbn [upsertConversations]; [auto with shrinks |]. apply shrinks_if; [auto with shrinks |].
  apply shrinks_bind; [shrinks_other | intros; apply IH].
Qed.

#[export] Hint Resolve shrinks_insert_one shrinks_insert_all shrinks_insertMessageIgnore shrinks_upsertFriendRequest
  shrinks_upsertContact shrinks_upsertConversations : shrinks.

Lemma shrinks_applyEvent now self ev messages requests contacts ids : shrinks (applyEvent now self ev messages requests contacts ids).
Proof.
  apply shrinks_if.
  - destruct (List.find _ messages) as [[m r] |]; auto with shrinks.
  - destruct (List.find _ requests) as [q |]; [| auto with shrinks]. apply shrinks_bind; [auto with shrinks |]. intros [].
    apply shrinks_if; [auto with shrinks |]. apply shrinks_bind; [shrinks_other |]. intros [].
    destruct (List.find _ contacts); auto with shrinks.
Qed.

Lemma shrinks_apply_events now self evs messages requests contacts ids :
  shrinks (apply_events now self evs messages requests contacts ids).
Proof.
  revert ids. induction evs as [| ev evs IH]; intros ids; cbn [apply_events]; [auto with shrinks |].
  apply shrinks_bind; [apply shrinks_applyEvent | intros; apply IH].
Qed.

Lemma shrinks_applySyncPage now self evs messages resources requests contacts new :
  shrinks (applySyncPage now self evs messages resources requests contacts new).
Proof.
  apply shrinks_if; [auto with shrinks |]. apply shrinks_bind; [apply shrinks_sel |]. intros [cur boot].
  repeat (apply shrinks_if; [auto with shrinks |]). apply shrinks_txn, shrinks_bind; [apply shrinks_apply_events |].
  intros ids. apply shrinks_bind; [shrinks_other | auto with shrinks].
Qed.

Lemma shrinks_insertHistoryPage thread messages resources complete :
  shrinks (insertHistoryPage thread messages resources complete).
Proof.
  apply shrinks_if; [auto with shrinks |]. apply shrinks_txn, shrinks_bind.
  - generalize 0. induction (zip messages resources) as [| [m r] l IH]; intros oldest; cbn [insert_history]; [auto with shrinks |].
    apply shrinks_if; [auto with shrinks |]. apply shrinks_bind; [auto with shrinks | intros; apply IH].
  - intros oldest. apply shrinks_other. intros d a d'. unfold note_history. destruct (_ !! _); [| done]. by intros [= <- <-].
Qed.

Lemma shrinks_applySnapshot now requests contacts b : shrinks (applySnapshot now requests contacts b).
Proof.
  apply shrinks_txn, shrinks_bind.
  - apply shrinks_if; [| auto with shrinks]. apply shrinks_bind; [shrinks_other | intros; shrinks_other].
  - intros []. apply shrinks_bind; [| intros []].
    + induction requests as [| q l IH]; cbn [upsert_requests]; auto with shrinks.
    + induction contacts as [| c l IH]; cbn [upsert_contacts]; auto 6 with shrinks.
Qed.

Lemma shrinks_markBootstrapComplete c : shrinks (markBootstrapComplete c).
Proof. apply shrinks_other. intros d a d'. destruct (c <? 0); [done |]. by intros [= <- <-]. Qed.

#[export] Hint Resolve shrinks_applySyncPage shrinks_insertHistoryPage shrinks_applySnapshot shrinks_markBootstrapComplete : shrinks.

(** The ends of a send name a client that has left the outbox. *)
Lemma fill_client c d t m r d' t' : fillMessageByClientId c d t = (Some (m, r), d', t') → md_client m = c ∧ d' = d.
Proof.
  intros Hr. pose proof (fill_same _ _ _ _ _ _ Hr) as ->. split; [| done].
  apply bind_Some in Hr as (row & d1 & t1 & H1 & Hr). apply sel_Some in H1 as [-> ->].
  destruct (row_of_client c d) as [[i x] |] eqn:E; cbn in Hr; [| done].
  apply ret_Some in Hr as [[= -> ->] _]. cbn. by apply row_of_client_Some in E as [_ ->].
Qed.

Definition leaves (m : Sq LocalMessageDTO) : Prop :=
  ∀ d t x d' t', m d t = (Some x, d', t') → ¬ waits d' (md_client x).

Lemma leaves_txn m : leaves m → leaves (txn m).
Proof.
  intros Hm d t x d' t'. unfold txn. destruct (tape_next t) as [o t1]. destruct (io_ok o); cbn [negb]; [| done].
  destruct (m d t1) as [[[a |] d1] t2] eqn:E; [| done].
  destruct (tape_next t2) as [o2 t3]. destruct (io_ok o2); intros [= <- <- <-]. by eapply Hm.
Qed.

Lemma leaves_bind {A} (m : Sq A) k : (∀ a, leaves (k a)) → leaves (m ≫= k).
Proof. intros Hk d t x d' t' Hr. apply bind_Some in Hr as (a & d1 & t1 & _ & Hr). by eapply Hk. Qed.

Lemma leaves_if (b : bool) m : leaves m → leaves (if b then refuse else m).
Proof. by destruct b. Qed.

Lemma leaves_end c : leaves (stmt (delete_outbox c);; out ← fillMessageByClientId c; mret out.1).
Proof.
  intros d t x d' t' Hr. apply bind_Some in Hr as ([] & d1 & t1 & Hd & Hr). apply stmt_Some in Hd. injection Hd as <-.
  apply bind_Some in Hr as ([m r] & d2 & t2 & Hf & Hr). apply fill_client in Hf as [Hc ->].
  apply ret_Some in Hr as [-> ->]. cbn. rewrite Hc. intros (i & o & [_ Hne]%map_lookup_filter_Some & Ho). by apply Hne.
Qed.

Lemma confirmTextSent_leaves now c mid created : leaves (confirmTextSent now c mid created).
Proof. apply leaves_if, leaves_txn, leaves_bind. intros. apply leaves_end. Qed.

Lemma confirmResourceSent_leaves c path : leaves (confirmResourceSent c path).
Proof. apply leaves_if, leaves_txn, leaves_bind. intros. apply leaves_bind. intros. apply leaves_end. Qed.

Lemma markSendFailed_leaves c : leaves (markSendFailed c).
Proof. apply leaves_txn, leaves_bind. intros. apply leaves_end. Qed.

Lemma loadOutbox_lists d t l d' t' c :
  loadOutbox d t = (Some l, d', t') → waits d' c → c ∈ od_client <$> l.
Proof.
  intros [-> ->]%sel_Some (i & o & Ho & Hc). rewrite <- list_fmap_compose. apply list_elem_of_fmap.
  exists (i, o). split; [done |]. unfold rows_where. apply order_by_elem, list_elem_of_filter.
  split; [done | by apply elem_of_map_to_list].
Qed.

(** What is new in the outbox is what [enqueueSend] reports. *)
Lemma enqueueSend_reports now isOpen m r client payload d t x d' t' c :
  enqueueSend now isOpen m r client payload d t = (x, d', t') → waits d' c →
  waits d c ∨ ∃ m' r' e, x = Some (m', r', e) ∧ od_client e = c.
Proof.
  unfold enqueueSend. destruct (negb isOpen || _ || _ || _ || _ || _ || _ || _); [intros [= <- <- <-]; by left |].
  cbn [md_type md_client]. unfold txn. destruct (tape_next t) as [o t1]. destruct (io_ok o); cbn [negb]; [| intros [= <- <- <-]; by left].
  match goal with |- context [match ?b d t1 with _ => _ end] => destruct (b d t1) as [[[a |] d1] t2] eqn:E end;
    [| intros [= <- <- <-]; by left].
  destruct (tape_next t2) as [o2 t3]. destruct (io_ok o2); intros [= <- <- <-]; [| by left]. intros (i & ob & Ho & Hc).
  apply bind_Some in E as (i1 & d2 & t4 & H1 & E). apply bind_Some in E as ([] & d3 & t5 & H2 & E).
  apply bind_Some in E as (op & d4 & t6 & H3 & E). apply ret_Some in E as [-> ->].
  apply stmt_Some in H1, H3. assert (Hd2 : l_outbox d2 = l_outbox d).
  { unfold insert_row in H1. destruct (_ && _); [| done]. by injection H1 as <- <-. }
  assert (Hd3 : l_outbox d3 = l_outbox d2).
  { destruct (is_resource _); [| by apply ret_Some in H2 as [_ ->]]. apply stmt_Some in H2. unfold insert_resource_row in H2.
    destruct (_ && _); [| done]. by injection H2 as <-. }
  unfold insert_outbox in H3. destruct (_ && _); [| done]. injection H3 as <- <-. cbn in Ho.
  destruct (decide (i = l_next d3)) as [-> | Hne].
  - rewrite lookup_insert_eq in Ho. injection Ho as <-. right. by eexists _, _, _.
  - rewrite lookup_insert_ne in Ho by done. left. exists i, ob. by rewrite <- Hd2, <- Hd3.
Qed.

(** An answer that takes nothing away from the register that [c] needs. *)
Definition harmless (c : bytes) (a : answer) : Prop :=
  match a with
  | SigSendConfirmed (Some m) | SigFailedMarked (Some m) | SigResourceConfirmed (Some m) => md_client m ≠ c
  | SigOutbox (Some l) => c ∈ od_client <$> l
  | _ => True
  end.

Definition announces (c : bytes) (a : answer) : Prop :=
  match a with SigEnqueued (Some (_, _, e)) => od_client e = c | _ => False end.

Lemma run_shape {A} s (m : Sq A) t x s' t' :
  run s m t = (x, s', t') → st_open s' = st_open s ∧ st_user s' = st_user s ∧
  match usable s with
  | Some d => ∃ d', m d t = (x, d', t') ∧ usable s' = Some d'
  | None => usable s' = None
  end.
Proof.
  unfold run. destruct (usable s) as [d |] eqn:E; [| by intros [= <- <- <-]].
  destruct (m d t) as [[r d1] t1] eqn:Em. intros [= <- <- <-]. split_and!; [done.. |]. exists d1. split; [done |].
  unfold usable in *. cbn. destruct (st_open s); [| done]. unfold file_of at 1. cbn. by rewrite lookup_insert_eq.
Qed.

(** What serving a request may do, openings apart. *)
Definition served (s : store) (a : answer) (s' : store) : Prop :=
  st_open s' = st_open s ∧ st_user s' = st_user s ∧
  ∀ d' c, usable s' = Some d' → waits d' c →
    announces c a ∨ harmless c a ∧ ∃ d, usable s = Some d ∧ waits d c.

Lemma reply_served {A} s (m : Sq A) sig t a s' t' :
  shrinks m → (∀ d x d' t t' c, m d t = (x, d', t') → waits d' c → harmless c (sig x)) →
  reply s m sig t = (a, s', t') → served s a s'.
Proof.
  intros Hm Hh. unfold reply. destruct (run s m t) as [[x s1] t1] eqn:E. intros [= <- <- <-].
  apply run_shape in E as (E1 & E2 & E3). split_and!; [done.. |]. intros d' c Hu Hc.
  destruct (usable s) as [d |]; [| congruence]. destruct E3 as (d2 & Em & E3). assert (d2 = d') as -> by congruence.
  right. split; [by eapply Hh | exists d; split; [done | by eapply Hm]].
Qed.

Lemma load_window_same s f thread t l o s' t' :
  load_window s (sel f) thread t = (l, o, s', t') → st_open s' = st_open s ∧ st_user s' = st_user s ∧ usable s' = usable s.
Proof.
  assert (Hsel : ∀ {A} (g : ldb → A) s t x s' t', run s (sel g) t = (x, s', t') →
    st_open s' = st_open s ∧ st_user s' = st_user s ∧ usable s' = usable s).
  { intros A g s0 t0 x s1 t1 (E1 & E2 & E3)%run_shape. split_and!; [done.. |]. destruct (usable s0) as [d |]; [| done].
    destruct E3 as (d1 & Em & ->). unfold sel, stmt in Em. destruct (tape_next t0) as [o0 t2].
    destruct (io_ok o0); by injection Em as <- <- <-. }
  unfold load_window. destruct (run s (sel f) t) as [[r s1] t1] eqn:E. apply Hsel in E as (E1 & E2 & E3).
  destruct r; [| by intros [= <- <- <- <-]]. destruct (run s1 loadConversations t1) as [[c s2] t2] eqn:E4.
  apply Hsel in E4 as (F1 & F2 & F3). intros [= <- <- <- <-]. by rewrite F1, F2, F3.
Qed.

Definition opens (q : request) : bool := match q with ReqOpen _ | ReqClose => true | _ => false end.

Lemma serve_served s q t a s' t' : serve s q t = (a, s', t') → opens q = false → served s a s'.
Proof.
  intros Hs Hq. destruct q; try discriminate Hq; cbn [serve] in Hs;
    try (eapply reply_served; [| | exact Hs]; [auto with shrinks; fail | by intros; cbn]).
  - unfold reply in Hs. destruct (run _ _ _) as [[x s1] t1] eqn:E. injection Hs as <- <- <-.
    apply run_shape in E as (E1 & E2 & E3). split_and!; [done.. |]. intros d' c Hu Hc.
    destruct (usable s) as [d |]; [| congruence]. destruct E3 as (d2 & Em & E3). assert (d2 = d') as -> by congruence.
    apply (enqueueSend_reports _ _ _ _ _ _ _ _ _ _ _ c) in Em as [Hw | (m' & r' & e & -> & He)]; [| by left | done].
    right. split; [done | by exists d].
  - eapply reply_served; [| | exact Hs].
    + unfold confirmTextSent. auto 10 with shrinks.
    + intros d [x |] d' t1 t2 c Hr Hc; [| done]. cbn. intros <-. by eapply confirmTextSent_leaves.
  - eapply reply_served; [| | exact Hs]; [unfold updateResourceStage; auto 10 with shrinks | by intros].
  - eapply reply_served; [| | exact Hs].
    + unfold confirmResourceSent. auto 10 with shrinks.
    + intros d [x |] d' t1 t2 c Hr Hc; [| done]. cbn. intros <-. by eapply confirmResourceSent_leaves.
  - eapply reply_served; [| | exact Hs]; [unfold updateResourceLocalPath; auto 10 with shrinks | by intros].
  - eapply reply_served; [| | exact Hs].
    + unfold markSendFailed. auto 10 with shrinks.
    + intros d [x |] d' t1 t2 c Hr Hc; [| done]. cbn. intros <-. by eapply markSendFailed_leaves.
  - eapply reply_served; [| | exact Hs]; [unfold getMessageByClientId; auto with shrinks | by intros].
  - eapply reply_served; [| | exact Hs]; [unfold insertIncoming; auto with shrinks | by intros].
  - eapply reply_served; [| | exact Hs]; [apply shrinks_sel | by intros].
  - eapply reply_served; [| | exact Hs]; [apply shrinks_sel |]. intros d [l |] d' t1 t2 c Hr Hc; [| done].
    by eapply loadOutbox_lists.
  - eapply reply_served; [| | exact Hs]; [apply shrinks_sel | by intros].
  - destruct (load_window _ _ _ _) as [[[l [c o]] s1] t1] eqn:E. injection Hs as <- <- <-.
    apply load_window_same in E as (E1 & E2 & E3). split_and!; [done.. |]. rewrite E3. intros d' c0 Hu Hc. right. split; [done | by exists d'].
  - destruct (load_window _ _ _ _) as [[[l [c o]] s1] t1] eqn:E. injection Hs as <- <- <-.
    apply load_window_same in E as (E1 & E2 & E3). split_and!; [done.. |]. rewrite E3. intros d' c0 Hu Hc. right. split; [done | by exists d'].
Qed.

(** ** The dispatcher's side *)

Definition keys_ok (o : dispatcher) : Prop := ∀ key rt, o_entries o !! key = Some rt → rt_key rt = key.

(** A restored register is that of an open database, and so is one that is
    being restored. *)
Definition phase_ok (o : dispatcher) : Prop :=
  (o_restored o = true → o_db_ready o = true ∧ o_restoring o = false) ∧ (o_restoring o = true → o_db_ready o = true).

Definition register_ok (o : dispatcher) : Prop := keys_ok o ∧ phase_ok o.

(** A slot that neither adds nor removes an entry. *)
Definition frame (o o' : dispatcher) : Prop :=
  dom (o_entries o') = dom (o_entries o) ∧ o_restored o' = o_restored o ∧ o_db_ready o' = o_db_ready o ∧ o_uid o' = o_uid o ∧
  (register_ok o → register_ok o').

#[global] Instance frame_preorder : PreOrder frame.
Proof.
  split; [done |]. intros o1 o2 o3 (A1 & A2 & A3 & A4 & A5) (B1 & B2 & B3 & B4 & B5).
  split_and!; [congruence.. | auto].
Qed.

Lemma frame_andThen o x k : frame o x.1 → (∀ o', frame o' (k o').1) → frame o (andThen x k).1.
Proof.
  destruct x as [o1 l]. cbn. intros H1 Hk. specialize (Hk o1). destruct (k o1) as [o2 l2]. cbn in *. by transitivity o1.
Qed.

Lemma frame_set key rt rt' o :
  o_entries o !! key = Some rt → rt_key rt' = rt_key rt → frame o (with_entries (<[key := rt']> (o_entries o)) o).
Proof.
  intros Hk Hrt. split_and!; try done; cbn.
  - apply dom_insert_lookup_L. by eexists.
  - intros [Hok Hp]. split; [| done]. intros k rt2 Hl. cbn in Hl. destruct (decide (k = key)) as [-> |].
    + rewrite lookup_insert_eq in Hl. injection Hl as <-. rewrite Hrt. by apply Hok.
    + rewrite lookup_insert_ne in Hl by done. by apply Hok.
Qed.

Lemma frame_for_keys body l o : (∀ key o, frame o (body key o).1) → frame o (for_keys body l o).1.
Proof.
  intros Hb. revert o. induction l as [| key l IH]; intros o; [done |]. cbn [for_keys]. by apply frame_andThen.
Qed.

Section frames.
Context (retry_initial_ms retry_max_ms : Z).

Lemma frame_beginAction now key rt rt' action o :
  o_entries o !! key = Some rt → rt_key rt' = rt_key rt →
  frame o (beginAction retry_initial_ms retry_max_ms now key rt' action o).1.
Proof. intros Hk Hrt. by eapply frame_set. Qed.

Lemma frame_dispatchEntry now exists_ key rt o :
  o_entries o !! key = Some rt → frame o (dispatchEntry retry_initial_ms retry_max_ms now exists_ key rt o).1.
Proof.
  intros Hk. unfold dispatchEntry, dispatchTextEntry, dispatchResourceEntry. destruct (od_type _); [by eapply frame_set |].
  repeat case_match; try done; [by eapply frame_beginAction | by eapply frame_set].
Qed.

Lemma frame_dispatch_due now exists_ key o : frame o (dispatch_due retry_initial_ms retry_max_ms now exists_ key o).1.
Proof.
  unfold dispatch_due. destruct (o_entries o !! key) as [rt |] eqn:E; [| done].
  repeat case_match; try done; [by eapply frame_set | by apply frame_dispatchEntry].
Qed.

Lemma frame_dispatchDueEntries now exists_ o : frame o (dispatchDueEntries retry_initial_ms retry_max_ms now exists_ o).1.
Proof. unfold dispatchDueEntries. case_match; [done |]. apply frame_for_keys. intros. apply frame_dispatch_due. Qed.

Lemma frame_first_round now exists_ l o : frame o (dispatchRestoredFirstRound retry_initial_ms retry_max_ms now exists_ l o).1.
Proof.
  apply frame_for_keys. intros key o1. unfold first_round. destruct (o_entries o1 !! key) as [rt |] eqn:E; [| done].
  case_match; [done | by apply frame_dispatchEntry].
Qed.

Lemma frame_startResourceUpload key rt mid o :
  o_entries o !! key = Some rt → frame o (startResourceUpload key rt mid o).1.
Proof. intros Hk. unfold startResourceUpload. case_match; by eapply frame_set. Qed.

Lemma frame_resumeUploadingEntries o : frame o (resumeUploadingEntries o).1.
Proof.
  unfold resumeUploadingEntries. case_match; [done |]. apply frame_for_keys. intros key o1. unfold resume_one.
  destruct (o_entries o1 !! key) as [rt |] eqn:E; [| done].
  repeat case_match; try done. by apply frame_startResourceUpload.
Qed.

Lemma frame_requestRestore now o : frame o (requestRestore now o).1.
Proof.
  unfold requestRestore. destruct (o_connected o), (o_db_ready o) eqn:E1, (o_restored o) eqn:E2, (o_restoring o) eqn:E3; cbn; try done.
  case_match; [done |]. split_and!; try done. intros [Hok Hp]. split; [done |]. split; cbn; congruence.
Qed.

Lemma frame_look_up_resources l o : frame o (look_up_resources l o).1.
Proof.
  revert o. induction l as [| e l IH]; intros o; cbn [look_up_resources]; [done |]. repeat case_match; try apply IH.
  by apply frame_andThen.
Qed.

Lemma frame_rearm o : frame o (with_entries (rearm <$> o_entries o) o).
Proof.
  split_and!; try done; cbn; [apply dom_fmap_L |]. intros [Hok Hp]. split; [| done].
  intros key rt. cbn. rewrite lookup_fmap, fmap_Some.
  intros (rt0 & Hl & ->). apply Hok in Hl as <-. unfold rearm. by case_decide.
Qed.

Lemma frame_handleUploadFinished now mid phase o :
  frame o (handleUploadFinished retry_initial_ms retry_max_ms now mid phase o).1.
Proof.
  unfold handleUploadFinished. destruct (o_uploading o !! mid) as [c |]; [| done].
  destruct (o_entries o !! c) as [rt |] eqn:E; [| done]. repeat case_match; try done; by eapply frame_beginAction.
Qed.

(** No event from outside of the database adds or removes an entry. *)
Lemma on_event_frame now exists_ e o : frame o (on_event retry_initial_ms retry_max_ms now exists_ e o).1.
Proof.
  destruct e; cbn [on_event]; try done.
  - unfold slot_start. case_match; [by etransitivity; [| apply frame_requestRestore] |].
    etransitivity; [| apply frame_andThen; [apply frame_resumeUploadingEntries | apply frame_dispatchDueEntries]].
    apply (frame_rearm (with_scan true (with_connected true o))).
  - unfold slot_text_msg_rsp. destruct (o_entries o !! client) as [rt |] eqn:E; [| done].
    repeat case_match; try done; by eapply frame_beginAction.
  - unfold slot_resource_msg_meta_rsp. destruct (o_entries o !! client) as [rt |] eqn:E; [| done].
    repeat case_match; try done; by eapply frame_beginAction.
  - unfold slot_transfer_finished. repeat case_match; try done. apply frame_handleUploadFinished.
  - unfold slot_resource_login_success. by etransitivity; [| apply frame_resumeUploadingEntries].
  - unfold finishArchive. by case_match.
  - unfold slot_scan_timeout. case_match; [done |]. apply frame_andThen; [apply frame_requestRestore | apply frame_dispatchDueEntries].
Qed.

(** *** Answers of the database *)

Lemma merge_entries_dom l m : dom (merge_entries l m) = dom m ∪ list_to_set (od_client <$> l).
Proof.
  revert m. induction l as [| e l IH]; intros m; cbn; [set_solver |]. rewrite IH. case_match; [| set_solver].
  bool_to_prop. assert (od_client e ∈ dom m) by by apply elem_of_dom. set_solver.
Qed.

Lemma merge_entries_ok l m :
  (∀ key rt, m !! key = Some rt → rt_key rt = key) → ∀ key rt, merge_entries l m !! key = Some rt → rt_key rt = key.
Proof.
  revert m. induction l as [| e l IH]; intros m Hm; cbn; [done |]. apply IH. case_match; [done |]. intros key rt.
  destruct (decide (key = od_client e)) as [-> |]; [rewrite lookup_insert_eq; by intros [= <-] | rewrite lookup_insert_ne by done; apply Hm].
Qed.

Lemma slot_outbox_loaded_spec now exists_ l o (o' := (slot_outbox_loaded retry_initial_ms retry_max_ms now exists_ (Some l) o).1) :
  frame o o' ∨
  (dom (o_entries o') = dom (o_entries o) ∪ list_to_set (od_client <$> l) ∧ o_restored o' = true ∧
   o_db_ready o' = o_db_ready o ∧ o_uid o' = o_uid o ∧ (register_ok o → register_ok o')).
Proof.
  subst o'. unfold slot_outbox_loaded. destruct (o_restoring o) eqn:Erest; cbn [negb]; [right | by left].
  set (o1 := with_entries _ _). destruct (frame_andThen o1 (look_up_resources l o1)
    (λ o, andThen (dispatchRestoredFirstRound retry_initial_ms retry_max_ms now exists_ l o)
      (dispatchDueEntries retry_initial_ms retry_max_ms now exists_))) as (F1 & F2 & F3 & F4 & F5).
  - apply frame_look_up_resources.
  - intros o2. apply frame_andThen; [apply frame_first_round | apply frame_dispatchDueEntries].
  - split_and!; [etransitivity; [exact F1 | apply merge_entries_dom] | exact F2 | exact F3 | exact F4 |].
    intros [Hok Hp]. apply F5. split; [| split; [intros _; split; [by apply Hp | done] | done]].
    intros key rt Hl. by eapply (merge_entries_ok l (o_entries o)).
Qed.

Lemma frame_slot_message_loaded now exists_ ok m r o :
  frame o (slot_message_loaded retry_initial_ms retry_max_ms now exists_ ok m r o).1.
Proof.
  unfold slot_message_loaded. case_match; [done |]. set (o1 := with_resume _ o).
  destruct (o_entries o1 !! md_client m) as [rt |] eqn:E; [| done]. etransitivity; [by instantiate (1 := o1) |].
  destruct (_ || _); [by eapply frame_beginAction |].
  set (rt' := with_row r (md_id m) rt). set (o2 := with_entries _ _).
  assert (Hf : frame o1 o2) by by eapply frame_set. assert (Ho2 : o_entries o2 !! md_client m = Some rt') by apply lookup_insert_eq.
  etransitivity; [exact Hf |]. repeat case_match; try done.
  - by eapply frame_beginAction.
  - by apply frame_startResourceUpload.
  - apply frame_dispatchDueEntries.
Qed.

Lemma frame_stage_updated r o : frame o (slot_resource_stage_updated r o).1.
Proof.
  unfold slot_resource_stage_updated, awaited. destruct r as [m |]; [| done].
  destruct (o_entries o !! md_client m) as [rt |] eqn:E; [| done]. case_decide; [| done].
  set (rt' := Runtime _ _ _ _ _ _ _). set (o2 := with_entries _ _).
  assert (Hf : frame o o2) by by eapply frame_set. case_match; [| done].
  etransitivity; [exact Hf |]. apply frame_startResourceUpload, lookup_insert_eq.
Qed.

Lemma slot_enqueued_spec now exists_ m r e o
    (o' := (slot_send_enqueued_registered retry_initial_ms retry_max_ms now exists_ (Some (m, r, e)) o).1) :
  dom (o_entries o') = dom (o_entries o) ∪ {[od_client e]} ∧ o_restored o' = o_restored o ∧
  o_db_ready o' = o_db_ready o ∧ o_uid o' = o_uid o ∧ (register_ok o → register_ok o').
Proof.
  subst o'. unfold slot_send_enqueued_registered. case_match eqn:E.
  - bool_to_prop. apply elem_of_dom in E. split_and!; [set_solver | done..].
  - set (o1 := with_entries _ _). destruct (frame_dispatchDueEntries now exists_ o1) as (F1 & F2 & F3 & F4 & F5).
    split_and!; [etransitivity; [exact F1 | cbn; set_solver] | exact F2 | exact F3 | exact F4 |]. intros [Hok Hp]. apply F5. split; [| done].
    intros key rt. cbn.
    destruct (decide (key = od_client e)) as [-> |];
      [rewrite lookup_insert_eq; by intros [= <-] | rewrite lookup_insert_ne by done; apply Hok].
Qed.

(** An entry goes at most when the transaction on its row is reported. *)
Definition erases (c : bytes) (o o' : dispatcher) : Prop :=
  frame o o' ∨
  (dom (o_entries o') = dom (o_entries o) ∖ {[c]} ∧ o_restored o' = o_restored o ∧
   o_db_ready o' = o_db_ready o ∧ o_uid o' = o_uid o ∧ (register_ok o → register_ok o')).

Lemma eraseEntry_erases c o : erases c o (eraseEntry c o).
Proof.
  right. split_and!; try done; cbn; [apply dom_delete_L |]. intros [Hok Hp]. split; [| done]. intros key rt Hl. cbn in Hl.
  apply lookup_delete_Some in Hl as [_ Hl]. by apply Hok.
Qed.

Lemma slot_send_confirmed_erases m o : erases (md_client m) o (slot_send_confirmed (Some m) o).1.
Proof. cbn. destruct (awaited _ _ _); [apply eraseEntry_erases | by left]. Qed.
Lemma slot_send_failed_marked_erases m o : erases (md_client m) o (slot_send_failed_marked (Some m) o).1.
Proof. cbn. destruct (awaited _ _ _); [apply eraseEntry_erases | by left]. Qed.
Lemma slot_resource_confirmed_erases m o : erases (md_client m) o (slot_resource_confirmed (Some m) o).1.
Proof. cbn. destruct (awaited _ _ _); [apply eraseEntry_erases | by left]. Qed.

Lemma slot_db_opened_spec now ok uid o (o' := (slot_db_opened now ok uid o).1) :
  if ok && o_db_ready o && (o_uid o =? uid) then frame o o'
  else o_restored o' = false ∧ o_db_ready o' = ok ∧ o_uid o' = uid ∧ register_ok o'.
Proof.
  subst o'. unfold slot_db_opened. destruct ok; cbn [negb andb].
  2: { repeat split; done. }
  destruct (o_db_ready o && (o_uid o =? uid)); [apply frame_requestRestore |].
  set (o1 := reset_register _ _ _ _ _). destruct (frame_requestRestore now o1) as (F1 & F2 & F3 & F4 & F5).
  split_and!; [exact F2 | exact F3 | exact F4 |]. apply F5. repeat split; done.
Qed.

End frames.

(** ** The invariant *)

(** Which database the dispatcher believes to be open. *)
Definition view_step (v : bool * Z) (a : answer) : bool * Z :=
  match a with SigOpened ok u => (ok, u) | SigClosed => (false, 0) | _ => v end.

(** The client [c] will be in the register once it is restored and the
    answers [as_] have arrived: [rest] says whether it is restored now and
    [known] whether [c] is in it. A list of the outbox may be taken or not. *)
Fixpoint safe (c : bytes) (v : bool * Z) (rest known : bool) (as_ : list answer) : Prop :=
  match as_ with
  | [] => rest = true → known = true
  | a :: as_ =>
      match a with
      | SigClosed => safe c (false, 0) false false as_
      | SigOpened ok u => if ok && bool_decide (v = (true, u)) then safe c v rest known as_ else safe c (ok, u) false false as_
      | SigEnqueued (Some (_, _, e)) => safe c v rest (known || bool_decide (od_client e = c)) as_
      | SigOutbox (Some l) => safe c v rest known as_ ∧ safe c v true (known || bool_decide (c ∈ od_client <$> l)) as_
      | SigSendConfirmed (Some m) | SigFailedMarked (Some m) | SigResourceConfirmed (Some m) =>
          safe c v rest (known && negb (bool_decide (md_client m = c))) as_
      | _ => safe c v rest known as_
      end
  end.

Lemma safe_mono c v rest known rest' known' as_ :
  (rest' = true → rest = true) → (known = true → known' = true) → safe c v rest known as_ → safe c v rest' known' as_.
Proof.
  revert v rest known rest' known'. induction as_ as [| a as_ IH]; cbn; intros v rest known rest' known' Hr Hk Hs.
  { intros Hr'. auto. }
  destruct a as [ok u | | [[[m r] e] |] | [m |] | | [m |] | | [m |] | | | | | | | | | [l |] | | |]; try (eapply IH; [| | exact Hs]; done).
  - case_match; [eapply IH; [| | exact Hs]; done | done].
  - eapply IH; [| | exact Hs]; [done |]. destruct known; [by rewrite Hk | by intros; rewrite orb_comm; cbn in *; rewrite H].
  - eapply IH; [| | exact Hs]; [done |]. destruct known; [by rewrite Hk | done].
  - eapply IH; [| | exact Hs]; [done |]. destruct known; [by rewrite Hk | done].
  - eapply IH; [| | exact Hs]; [done |]. destruct known; [by rewrite Hk | done].
  - destruct Hs as [H1 H2]. split; [eapply IH; [| | exact H1]; done |]. eapply IH; [| | exact H2]; [done |].
    destruct known; [by rewrite Hk | by intros; rewrite orb_comm; cbn in *; rewrite H].
Qed.

Lemma safe_snoc_harmless c v rest known as_ a :
  harmless c a → safe c v rest known as_ → safe c v rest known (as_ ++ [a]).
Proof.
  intros Ha. revert v rest known. induction as_ as [| b as_ IH]; intros v rest known Hs; cbn [app].
  - destruct a as [ok u | | [[[m r] e] |] | [m |] | | [m |] | | [m |] | | | | | | | | | [l |] | | |]; cbn in *; try done.
    + by case_match.
    + intros Hr. by rewrite Hs.
    + intros Hr. rewrite Hs by done. by rewrite bool_decide_eq_false_2.
    + intros Hr. rewrite Hs by done. by rewrite bool_decide_eq_false_2.
    + intros Hr. rewrite Hs by done. by rewrite bool_decide_eq_false_2.
    + split; [done |]. intros _. rewrite bool_decide_eq_true_2 by done. apply orb_true_r.
  - cbn in *. destruct b as [ok u | | [[[m r] e] |] | [m |] | | [m |] | | [m |] | | | | | | | | | [l |] | | |]; try (by apply IH).
    + case_match; by apply IH.
    + destruct Hs. split; by apply IH.
Qed.

(** Where the queue ends, the dispatcher's view is the last one announced. *)
Lemma safe_snoc c v rest known as_ a :
  (∀ rest known, safe c (foldl view_step v as_) rest known [a]) → safe c v rest known (as_ ++ [a]).
Proof.
  revert v rest known. induction as_ as [| b as_ IH]; intros v rest known Ha; [apply Ha |]. cbn [app foldl] in *.
  destruct b as [ok u | | [[[m r] e] |] | [m |] | | [m |] | | [m |] | | | | | | | | | [l |] | | |]; cbn [view_step] in Ha; cbn [safe];
    try (by apply IH).
  - case_match eqn:E; apply IH; [| done]. apply andb_true_iff in E as [-> ->%bool_decide_eq_true]. done.
  - split; by apply IH.
Qed.

Definition view (o : dispatcher) : bool * Z := (o_db_ready o, o_uid o).

Definition known (o : dispatcher) (c : bytes) : bool := bool_decide (c ∈ dom (o_entries o)).

Record sys_inv (x : system) : Prop := {
  si_register : register_ok (s_disp x);
  si_view : ∀ u, foldl view_step (view (s_disp x)) (s_answers x) = (true, u) →
    st_open (s_store x) = true ∧ st_user (s_store x) = u;
  si_safe : ∀ d c, usable (s_store x) = Some d → waits d c →
    safe c (view (s_disp x)) (o_restored (s_disp x)) (known (s_disp x) c) (s_answers x);
}.

Lemma start_inv files : sys_inv (start files).
Proof. split; done. Qed.

(** The dispatcher's part depends on little of its state. *)
Lemma inv_same_store o o' s as_ as' qs qs' :
  sys_inv (System o s qs as_) →
  (register_ok o → register_ok o') →
  foldl view_step (view o') as' = foldl view_step (view o) as_ →
  (∀ c, safe c (view o) (o_restored o) (known o c) as_ → safe c (view o') (o_restored o') (known o' c) as') →
  sys_inv (System o' s qs' as').
Proof.
  intros [I1 I2 I3] Hr Hv Hs. split; cbn in *; [auto | by rewrite Hv |]. intros d c Hu Hc. apply Hs. by apply (I3 d).
Qed.

Lemma frame_same o o' : frame o o' → view o' = view o ∧ o_restored o' = o_restored o ∧ ∀ c, known o' c = known o c.
Proof. intros (F1 & F2 & F3 & F4 & _). unfold view, known. by rewrite F1, F3, F4. Qed.

Lemma event_inv o o' s qs qs' as_ : frame o o' → sys_inv (System o s qs as_) → sys_inv (System o' s qs' as_).
Proof.
  intros Hf Hi. destruct (frame_same o o' Hf) as (E1 & E2 & E3). eapply inv_same_store; [exact Hi | apply Hf | by rewrite E1 |].
  intros c. by rewrite E1, E2, E3.
Qed.

Lemma erases_view c o o' : erases c o o' → view o' = view o.
Proof. intros [(_ & _ & E1 & E2 & _) | (_ & _ & E1 & E2 & _)]; unfold view; by rewrite E1, E2. Qed.

Lemma erases_inv c o o' a s qs qs' as_ :
  erases c o o' → view_step (view o) a = view o →
  (∀ c' v r k, safe c' v r k (a :: as_) = safe c' v r (k && negb (bool_decide (c = c'))) as_) →
  sys_inv (System o s qs (a :: as_)) → sys_inv (System o' s qs' as_).
Proof.
  intros He Hv Ha Hi. pose proof (erases_view c o o' He) as Hvo. eapply inv_same_store; [exact Hi | | |].
  - destruct He as [(_ & _ & _ & _ & H) | (_ & _ & _ & _ & H)]; done.
  - cbn [foldl]. by rewrite Hv, Hvo.
  - intros c'. rewrite Ha, Hvo. destruct He as [Hf | (E1 & E2 & _)].
    + destruct (frame_same o o' Hf) as (F1 & F2 & F3). rewrite F2, F3. apply safe_mono; [done |].
      intros [H _]%andb_true_iff. done.
    + rewrite E2. apply safe_mono; [done |]. unfold known. intros [H1 H2]%andb_true_iff. rewrite E1.
      bool_to_prop. apply bool_decide_eq_true. set_solver.
Qed.

Lemma known_or o o' c b :
  (b = true → c ∈ dom (o_entries o')) → dom (o_entries o) ⊆ dom (o_entries o') → known o c || b = true → known o' c = true.
Proof. unfold known. intros H1 H2 [H | H]%orb_true_iff; apply bool_decide_eq_true; [bool_to_prop; set_solver | by apply H1]. Qed.

Lemma answer_inv retry_initial_ms retry_max_ms now exists_ a o o' l s qs qs' as_ :
  on_store_answer retry_initial_ms retry_max_ms now exists_ a o = (o', l) →
  sys_inv (System o s qs (a :: as_)) → sys_inv (System o' s qs' as_).
Proof.
  intros Ho Hi. apply (f_equal fst) in Ho. cbn in Ho. subst o'.
  assert (Hframe : ∀ o', frame o o' → view_step (view o) a = view o → (∀ c r k, safe c (view o) r k (a :: as_) → safe c (view o) r k as_) →
    sys_inv (System o' s qs' as_)).
  { intros o' Hf Hv Hs. eapply inv_same_store; [exact Hi | apply Hf | |].
    - cbn [foldl]. rewrite Hv. by destruct (frame_same o o' Hf) as (-> & _).
    - intros c. destruct (frame_same o o' Hf) as (-> & -> & ->). apply Hs. }
  destruct a as [ok u | | [[[m r] e] |] | [m |] | r | [m |] | | [m |] | ok m r | | | | | | | | [l0 |] | | |]; cbn [on_store_answer];
    try (apply Hframe; [done | done | done]).
  - pose proof (slot_db_opened_spec now ok u o) as Hd. destruct (ok && o_db_ready o && (o_uid o =? u)) eqn:E.
    + apply andb_true_iff in E as [[-> E1]%andb_true_iff E2%Z.eqb_eq].
      assert (Hv : view o = (true, u)) by (unfold view; congruence).
      apply Hframe; [exact Hd | by rewrite Hv |]. intros c r k. cbn. by rewrite Hv, bool_decide_eq_true_2.
    + destruct Hd as (E1 & E2 & E3 & E4). set (o' := (slot_db_opened now ok u o).1) in *.
      assert (Hv : view o' = (ok, u)) by (unfold view; congruence).
      assert (Eb : ok && bool_decide (view o = (true, u)) = false).
      { rewrite <- E. destruct ok; [| done]. cbn. unfold view. apply Bool.eq_iff_eq_true.
        rewrite bool_decide_eq_true, andb_true_iff, Z.eqb_eq. split; [by intros [= -> ->] | by intros [-> ->]]. }
      eapply inv_same_store; [exact Hi | done | by rewrite Hv |].
      intros c. rewrite Hv, E1. cbn [safe]. rewrite Eb. by apply safe_mono.
  - eapply inv_same_store; [exact Hi | done | done |].
    intros c. cbn [safe]. by apply safe_mono.
  - destruct (slot_enqueued_spec retry_initial_ms retry_max_ms now exists_ m r e o) as (E1 & E2 & E3 & E4 & E5).
    eapply inv_same_store; [exact Hi | done | unfold view; rewrite E3, E4; done |]. intros c. unfold view. rewrite E2, E3, E4.
    cbn [safe]. apply safe_mono; [done |]. apply known_or; [| rewrite E1; set_solver].
    intros <-%bool_decide_eq_true. rewrite E1. set_solver.
  - eapply erases_inv; [apply slot_send_confirmed_erases | | | exact Hi]; done.
  - apply Hframe; [apply frame_stage_updated | done | done].
  - eapply erases_inv; [apply slot_resource_confirmed_erases | | | exact Hi]; done.
  - eapply erases_inv; [apply slot_send_failed_marked_erases | | | exact Hi]; done.
  - apply Hframe; [apply frame_slot_message_loaded | done | done].
  - destruct (slot_outbox_loaded_spec retry_initial_ms retry_max_ms now exists_ l0 o) as [Hf | (E1 & E2 & E3 & E4 & E5)].
    + apply Hframe; [exact Hf | done |]. by intros c r k [Hs _].
    + eapply inv_same_store; [exact Hi | done | unfold view; rewrite E3, E4; done |]. intros c [_ Hs].
      unfold view. rewrite E2, E3, E4. revert Hs. apply safe_mono; [done |]. apply known_or; [| rewrite E1; set_solver].
      intros Hl%bool_decide_eq_true. rewrite E1. set_solver.
  - apply Hframe; [| done | done]. unfold slot_outbox_loaded. case_match; [done |]. split_and!; try done.
    intros [Hok Hp]. split; [done |]. split; cbn; [| done]. intros Hr. by destruct (proj1 Hp Hr).
Qed.

Lemma serve_view s q t a s' t' v : serve s q t = (a, s', t') → opens q = false → view_step v a = v.
Proof.
  intros Hs Hq. destruct q; try discriminate Hq; cbn [serve] in Hs; unfold reply in Hs;
    try (destruct (run _ _ _) as [[x s1] t1]; by injection Hs as <- <- <-);
    destruct (load_window _ _ _ _) as [[[l [c o]] s1] t1]; by injection Hs as <- <- <-.
Qed.

Lemma open_true f t o f' t' : open f t = (true, o, f', t') → o = true.
Proof. unfold open. intros H. repeat (case_match; simplify_eq; try done). Qed.

Lemma serve_inv o s q qs as_ t a s' t' :
  serve s q t = (a, s', t') → sys_inv (System o s (q :: qs) as_) → sys_inv (System o s' qs (as_ ++ [a])).
Proof.
  intros Hs [I1 I2 I3]. cbn in *. destruct (opens q) eqn:Eq.
  - destruct q; try discriminate Eq; cbn in Hs.
    + unfold slot_open_user_db in Hs. destruct (st_open s && (st_user s =? user)) eqn:E.
      * injection Hs as <- <- <-. apply andb_true_iff in E as [E1 E2%Z.eqb_eq]. split; cbn; [done | |].
        -- intros u. rewrite foldl_app. cbn. intros [= <-]. done.
        -- intros d c Hu Hc. apply safe_snoc_harmless; [done |]. by apply (I3 d).
      * destruct (open _ t) as [[[b h] f] t1] eqn:Eo. injection Hs as <- <- <-. split; cbn; [done | |].
        -- intros u. rewrite foldl_app. cbn. intros [= -> <-]. apply open_true in Eo as ->. done.
        -- intros d c _ _. apply safe_snoc. intros rest k. cbn. case_match eqn:Ev; [| done].
           apply andb_true_iff in Ev as [-> Ev%bool_decide_eq_true]. destruct (I2 user Ev) as [E1 E2].
           rewrite E1, E2, Z.eqb_refl in E. done.
    + injection Hs as <- <- <-. split; cbn; [done | |]; [intros u; rewrite foldl_app; done | done].
  - pose proof (serve_view _ _ _ _ _ _ (foldl view_step (view o) as_) Hs Eq) as Hv.
    apply serve_served in Hs as (E1 & E2 & E3); [| done]. split; cbn; [done | |].
    + intros u. rewrite foldl_app. cbn. rewrite Hv, E1, E2. apply I2.
    + intros d c Hu Hc. destruct (E3 d c Hu Hc) as [Ha | [Hh (d0 & Hu0 & Hc0)]].
      * apply safe_snoc. intros rest k. unfold announces in Ha. destruct a as [| | [[[m r] e] |] | | | | | | | | | | | | | | | | |]; try done.
        cbn. intros _. rewrite bool_decide_eq_true_2 by done. apply orb_true_r.
      * apply safe_snoc_harmless; [done |]. by apply (I3 d0).
Qed.

Lemma sys_step_inv retry_initial_ms retry_max_ms x y : sys_step retry_initial_ms retry_max_ms x y → sys_inv x → sys_inv y.
Proof.
  intros [o s q qs as_ t a s' t' Hs | o s qs a as_ now exists_ o' l Ho | o s qs as_ now exists_ e o' l Ho | o s qs as_ q] Hi.
  - by eapply serve_inv.
  - by eapply answer_inv.
  - eapply event_inv; [| exact Hi]. pose proof (on_event_frame retry_initial_ms retry_max_ms now exists_ e o) as Hf.
    by rewrite Ho in Hf.
  - by eapply event_inv.
Qed.

Lemma reachable_inv retry_initial_ms retry_max_ms files x :
  rtc (sys_step retry_initial_ms retry_max_ms) (start files) x → sys_inv x.
Proof.
  intros Hr. assert (Hi := start_inv files). revert Hi.
  induction Hr as [| x y z Hs _ IH]; [done |]. intros Hi. apply IH. by eapply sys_step_inv.
Qed.

(** ** Retrying *)

Section retry.
Context (retry_initial_ms retry_max_ms : Z) (now : Z) (exists_ : bytes → bool).

#[local] Abbreviation due := (dispatch_due retry_initial_ms retry_max_ms now exists_).

(** The turn of one key leaves the entries of the others alone. *)
Lemma dispatch_due_local key o : o_connected (due key o).1 = o_connected o ∧
  ∀ k, k ≠ key → o_entries (due key o).1 !! k = o_entries o !! k.
Proof.
  unfold dispatch_due, dispatchEntry, dispatchTextEntry, dispatchResourceEntry, beginAction, put_entry.
  destruct (o_entries o !! key) as [rt |]; [| done].
  repeat case_match; (split; [done |]); intros k Hk; cbn; try done; by rewrite lookup_insert_ne.
Qed.

Lemma dispatch_due_out key o o' :
  o_connected o = o_connected o' → o_entries o !! key = o_entries o' !! key → (due key o).2 = (due key o').2.
Proof.
  intros Hc He. unfold dispatch_due, dispatchEntry, dispatchTextEntry, dispatchResourceEntry, beginAction, put_entry.
  rewrite Hc, He. destruct (o_entries o' !! key) as [rt |]; [| done]. by repeat case_match.
Qed.

Lemma for_keys_turn l key o e : NoDup l → key ∈ l → e ∈ (due key o).2 → e ∈ (for_keys due l o).2.
Proof.
  revert o. induction l as [| k l IH]; intros o Hnd Hin He; [by apply not_elem_of_nil in Hin |].
  apply NoDup_cons in Hnd as [Hk Hnd]. cbn [for_keys]. unfold andThen. destruct (due k o) as [o1 l1] eqn:E1.
  destruct (for_keys due l o1) as [o2 l2] eqn:E2. cbn. apply elem_of_app. apply elem_of_cons in Hin as [-> | Hin].
  - left. by rewrite E1 in He.
  - right. specialize (IH o1 Hnd Hin). rewrite E2 in IH. apply IH.
    destruct (dispatch_due_local k o) as [L1 L2]. rewrite E1 in L1, L2. cbn in L1, L2.
    rewrite (dispatch_due_out key o1 o); [done | done | apply L2]. by intros ->.
Qed.

Lemma keys_spec o key : is_Some (o_entries o !! key) → NoDup (keys o) ∧ key ∈ keys o.
Proof.
  intros [rt Hk]. unfold keys. split.
  - rewrite merge_sort_Permutation. apply NoDup_fst_map_to_list.
  - rewrite merge_sort_Permutation. apply list_elem_of_fmap. exists (key, rt). split; [done | by apply elem_of_map_to_list].
Qed.

(** What the timer does is what the turn of each key does. *)
Lemma timer_turn o key e :
  phase_ok o → o_restored o = true → is_Some (o_entries o !! key) → e ∈ (due key o).2 →
  e ∈ (slot_scan_timeout retry_initial_ms retry_max_ms now exists_ o).2.
Proof.
  intros [Hp _] Hr Hk He. destruct (Hp Hr) as [H1 H2]. unfold slot_scan_timeout, requestRestore. rewrite H1, Hr.
  cbn [negb]. rewrite orb_true_r. cbn [orb andThen]. unfold dispatchDueEntries. rewrite H1, Hr, H2. cbn [negb orb].
  destruct (keys_spec o key Hk) as [Hnd Hin]. pose proof (for_keys_turn _ _ _ _ Hnd Hin He) as Hout.
  by destruct (for_keys due (keys o) o).
Qed.

End retry.

(** What an entry that is due is owed: its request to the network when a
    connection is there, or its request to the database again. An upload is
    moved on by the transfer engine, and a resource whose row is still being
    looked up has to wait for it. *)
Definition owed (now : Z) (exists_ : bytes → bool) (connected : bool) (c : bytes) (rt : RuntimeEntry) : option effect :=
  match rt_action rt with
  | PENDING_CONFIRM_TEXT => Some (ToStore (ReqConfirmText now c (rt_message rt) (rt_created rt)))
  | PENDING_CONFIRM_RESOURCE => Some (ToStore (ReqConfirmResource c (rd_path (rt_resource rt))))
  | PENDING_MARK_FAILED => Some (ToStore (ReqMarkFailed c))
  | PENDING_ADVANCE_STAGE => Some (ToStore (ReqStage c (rt_message rt) StageUploading))
  | PENDING_NONE =>
      if negb connected then None
      else match od_type (rt_entry rt), od_stage (rt_entry rt) with
      | LocalDb.SendText, _ => Some (SendText (od_payload (rt_entry rt)))
      | LocalDb.SendResource, StageMetadata =>
          if rd_local (rt_resource rt) <=? 0 then None
          else if exists_ (rd_path (rt_resource rt)) then Some (SendResource (od_payload (rt_entry rt)))
          else Some (ToStore (ReqMarkFailed c))
      | LocalDb.SendResource, _ => None
      end
  end.

Lemma due_owed retry_initial_ms retry_max_ms now exists_ o c rt e :
  keys_ok o → o_entries o !! c = Some rt → rt_next rt <= now → owed now exists_ (o_connected o) c rt = Some e →
  e ∈ (dispatch_due retry_initial_ms retry_max_ms now exists_ c o).2.
Proof.
  intros Hk He Hn Ho. pose proof (Hk c rt He) as Hkey. unfold dispatch_due. rewrite He.
  destruct (now <? rt_next rt) eqn:En; [apply Z.ltb_lt in En; lia |]. unfold owed in Ho.
  destruct (rt_action rt) eqn:Ea; cbn [negb bool_decide decide] in Ho |- *.
  2-5: injection Ho as <-; rewrite bool_decide_eq_false_2 by done; cbn; unfold issuePendingAction; cbn; rewrite Ea; unfold rt_key in *; cbn; rewrite Hkey; by left.
  rewrite bool_decide_eq_true_2 by done. cbn [negb]. destruct (o_connected o); [| done]. cbn [negb] in *.
  unfold dispatchEntry, dispatchTextEntry, dispatchResourceEntry. destruct (od_type (rt_entry rt)).
  - injection Ho as <-. by left.
  - destruct (od_stage (rt_entry rt)); try done. rewrite bool_decide_eq_true_2 by done. cbn [negb].
    destruct (rd_local (rt_resource rt) <=? 0); [done |]. destruct (exists_ _); injection Ho as <-; cbn [negb].
    + by left.
    + cbn. unfold issuePendingAction, rt_key in *. cbn. rewrite Hkey. by left.
Qed.


(** A lookup that fails answers without the client identifier it was asked
    for: the dispatcher takes no notice, and the entry keeps waiting for it. *)
Lemma failed_lookup_ignored retry_initial_ms retry_max_ms now exists_ s c t m r s' t' o :
  serve s (ReqMessage c) t = (SigMessageLoaded false m r, s', t') → [] ∉ o_resume o →
  on_store_answer retry_initial_ms retry_max_ms now exists_ (SigMessageLoaded false m r) o = (o, []).
Proof.
  cbn [serve]. unfold reply. destruct (run _ _ _) as [[[x |] s1] t1]; [done |]. intros [= <- <- _ _] Hn.
  cbn. unfold slot_message_loaded. cbn. by rewrite bool_decide_eq_false_2.
Qed.

(** *** An executable run *)

Inductive move := Serve | Answer (now : Z) | Event (now : Z) (e : event) | Request (q : request).

Definition do_move (x : system) (m : move) : system :=
  let '(System o s qs as_) := x in
  match m with
  | Serve =>
      match qs with
      | [] => x
      | q :: qs => let '(a, s, _) := serve s q [] in System o s qs (as_ ++ [a])
      end
  | Answer now =>
      match as_ with
      | [] => x
      | a :: as_ =>
          let '(o, l) := on_store_answer 2000 30000 now (λ _, true) a o in System o s (qs ++ store_requests l) as_
      end
  | Event now e => let '(o, l) := on_event 2000 30000 now (λ _, true) e o in System o s (qs ++ store_requests l) as_
  | Request q => System o s (qs ++ [q]) as_
  end.

Lemma do_moves_reach l x : rtc (sys_step 2000 30000) x (foldl do_move x l).
Proof.
  revert x. induction l as [| m l IH]; intros x; [done |]. cbn [foldl].
  assert (Hm : rtc (sys_step 2000 30000) x (do_move x m)); [| etransitivity; [exact Hm | apply IH]].
  destruct x as [o s qs as_]. destruct m; cbn [do_move].
  - destruct qs as [| q qs]; [done |]. destruct (serve s q []) as [[a s'] t'] eqn:E. apply rtc_once. by eapply step_serve.
  - destruct as_ as [| a as_]; [done |]. destruct (on_store_answer _ _ _ _ _ _) as [o' out] eqn:E. apply rtc_once. by eapply step_answer.
  - destruct (on_event _ _ _ _ _ _) as [o' out] eqn:E. apply rtc_once. by eapply step_event.
  - apply rtc_once. apply step_request.
Qed.

(** Login, database, restored register; then a text is sent while online. *)
Definition demo_moves : list move :=
  [Event 0 OnStart; Request (ReqOpen 7); Serve; Answer 0; Serve; Answer 0;
   Request (ReqEnqueue 10 demo_text no_resource §"c1" §"{}"); Serve; Answer 10].
Definition demo_system : system := foldl do_move (start ∅) demo_moves.

