(* ===== verification/TransferEngine.v ===== *)
(** * The client's transfer engine (client/llfcchat/src/net/transferengine.cpp)

    Uploads and downloads of resources in chunks: slots, the window of chunks
    in flight, resynchronisation, back-off, time-outs, the instant proof and
    the part file of a download. The engine lives in one thread. It sends
    frames by a callback and reports by signals; both are outputs here.
    Signals go to other threads, so nothing comes back while an operation
    runs, with two exceptions in FileTcpMgr (client/llfcchat/src/net/
    filetcpmgr.cpp): a frame that cannot be sent, and the signal that asks
    for a new connection, take the connection down at once. *)

From stdpp Require Import sorting.
From S2P Require Import Prelude ProtocolIds ResourceWire Sha256 ResourceTransfer.

(** ** Configuration *)

Record Config := {
  max_active_uploads : Z;
  max_active_downloads : Z;
  max_inflight_chunks : Z;
  ack_timeout_ms : Z;
  backoff_initial_ms : Z;
  backoff_max_ms : Z;
  json_error_limit : Z;
  chunk_retry_limit : Z;
}.

Definition default_config : Config :=
  {| max_active_uploads := 2; max_active_downloads := 4; max_inflight_chunks := 4; ack_timeout_ms := 30000;
     backoff_initial_ms := 1000; backoff_max_ms := 30000; json_error_limit := 3; chunk_retry_limit := 3 |}.

(** [InitConfig]: the lower bounds. *)
Definition InitConfig (c : Config) : Config :=
  let initial := Z.max 100 (backoff_initial_ms c) in
  {| max_active_uploads := Z.max 1 (max_active_uploads c);
     max_active_downloads := Z.max 1 (max_active_downloads c);
     max_inflight_chunks := Z.max 1 (max_inflight_chunks c);
     ack_timeout_ms := Z.max 100 (ack_timeout_ms c);
     backoff_initial_ms := initial;
     backoff_max_ms := Z.max initial (backoff_max_ms c);
     json_error_limit := Z.max 1 (json_error_limit c);
     chunk_retry_limit := Z.max 1 (chunk_retry_limit c) |}.

(** ** State of one transfer *)

Record InflightChunk := Inflight { ic_offset : Z; ic_length : Z; ic_sha : bytes; ic_sent : Z }.

Record counters := Counters {
  k_retry : Z;       (* [retry_count] *)
  k_json : Z;        (* [json_error_count] *)
  k_chunk : Z;       (* [chunk_retry_count] *)
  k_publish : Z;     (* [publish_retry_count] *)
}.

(** The key of the map is [message_id]; the map is the direction. [chunk_size]
    is always [kResourceChunkSize]. *)
Record ResourceTransferRuntime := Transfer {
  t_phase : TransferPhase;
  t_slot : bool;                      (* [slot_granted] *)
  t_total : Z;
  t_acked : Z;
  t_wire : Z;
  t_error : Z;
  t_text : bytes;
  t_seq : Z;
  t_count : counters;
  t_retry_at : Z;
  t_query : Z;                        (* [query_sent_ms] *)
  t_reconnect : bool;                 (* [reconnect_requested] *)
  t_paused : bool;                    (* [user_paused] *)
  t_proof_disabled : bool;
  t_proof_pending : bool;
  t_inflight : list InflightChunk;
  t_stale : list Z;                   (* [stale_offsets] *)
  t_upload : UploadRequest;
  t_source : bool;                    (* the source file is open *)
  t_download : DownloadRequest;
  t_part : bool;                      (* the part file is open *)
  t_expected : bytes;                 (* [expected_sha256] *)
  t_hashed : bytes;                   (* what [hasher] has absorbed *)
  t_hash_valid : bool;
  t_local : bytes;                    (* [local_download_path] *)
}.

Definition InitRuntime : ResourceTransferRuntime :=
  Transfer TRANSFER_QUEUED false 0 0 0 0 [] 0 (Counters 0 0 0 0) 0 0 false false false false [] []
    no_upload false no_download false [] [] true [].

Definition with_phase (p : TransferPhase) (t : ResourceTransferRuntime) : ResourceTransferRuntime :=
  Transfer p (t_slot t) (t_total t) (t_acked t) (t_wire t) (t_error t) (t_text t) (t_seq t) (t_count t) (t_retry_at t) (t_query t)
    (t_reconnect t) (t_paused t) (t_proof_disabled t) (t_proof_pending t) (t_inflight t) (t_stale t) (t_upload t) (t_source t)
    (t_download t) (t_part t) (t_expected t) (t_hashed t) (t_hash_valid t) (t_local t).
Definition with_slot (b : bool) (t : ResourceTransferRuntime) : ResourceTransferRuntime :=
  Transfer (t_phase t) b (t_total t) (t_acked t) (t_wire t) (t_error t) (t_text t) (t_seq t) (t_count t) (t_retry_at t) (t_query t)
    (t_reconnect t) (t_paused t) (t_proof_disabled t) (t_proof_pending t) (t_inflight t) (t_stale t) (t_upload t) (t_source t)
    (t_download t) (t_part t) (t_expected t) (t_hashed t) (t_hash_valid t) (t_local t).
Definition with_progress (total acked wire : Z) (t : ResourceTransferRuntime) : ResourceTransferRuntime :=
  Transfer (t_phase t) (t_slot t) total acked wire (t_error t) (t_text t) (t_seq t) (t_count t) (t_retry_at t) (t_query t)
    (t_reconnect t) (t_paused t) (t_proof_disabled t) (t_proof_pending t) (t_inflight t) (t_stale t) (t_upload t) (t_source t)
    (t_download t) (t_part t) (t_expected t) (t_hashed t) (t_hash_valid t) (t_local t).
Definition with_acked (acked : Z) (t : ResourceTransferRuntime) := with_progress (t_total t) acked (t_wire t) t.
Definition with_wire (wire : Z) (t : ResourceTransferRuntime) := with_progress (t_total t) (t_acked t) wire t.
Definition with_result (error : Z) (text : bytes) (seq : Z) (t : ResourceTransferRuntime) : ResourceTransferRuntime :=
  Transfer (t_phase t) (t_slot t) (t_total t) (t_acked t) (t_wire t) error text seq (t_count t) (t_retry_at t) (t_query t)
    (t_reconnect t) (t_paused t) (t_proof_disabled t) (t_proof_pending t) (t_inflight t) (t_stale t) (t_upload t) (t_source t)
    (t_download t) (t_part t) (t_expected t) (t_hashed t) (t_hash_valid t) (t_local t).
Definition with_count (c : counters) (t : ResourceTransferRuntime) : ResourceTransferRuntime :=
  Transfer (t_phase t) (t_slot t) (t_total t) (t_acked t) (t_wire t) (t_error t) (t_text t) (t_seq t) c (t_retry_at t) (t_query t)
    (t_reconnect t) (t_paused t) (t_proof_disabled t) (t_proof_pending t) (t_inflight t) (t_stale t) (t_upload t) (t_source t)
    (t_download t) (t_part t) (t_expected t) (t_hashed t) (t_hash_valid t) (t_local t).
Definition with_timers (retry_at query : Z) (reconnect : bool) (t : ResourceTransferRuntime) : ResourceTransferRuntime :=
  Transfer (t_phase t) (t_slot t) (t_total t) (t_acked t) (t_wire t) (t_error t) (t_text t) (t_seq t) (t_count t) retry_at query
    reconnect (t_paused t) (t_proof_disabled t) (t_proof_pending t) (t_inflight t) (t_stale t) (t_upload t) (t_source t)
    (t_download t) (t_part t) (t_expected t) (t_hashed t) (t_hash_valid t) (t_local t).
Definition with_query (query : Z) (t : ResourceTransferRuntime) := with_timers (t_retry_at t) query (t_reconnect t) t.
Definition with_retry_at (retry_at : Z) (t : ResourceTransferRuntime) := with_timers retry_at (t_query t) (t_reconnect t) t.
Definition with_reconnect (b : bool) (t : ResourceTransferRuntime) := with_timers (t_retry_at t) (t_query t) b t.
Definition with_paused (b : bool) (t : ResourceTransferRuntime) : ResourceTransferRuntime :=
  Transfer (t_phase t) (t_slot t) (t_total t) (t_acked t) (t_wire t) (t_error t) (t_text t) (t_seq t) (t_count t) (t_retry_at t)
    (t_query t) (t_reconnect t) b (t_proof_disabled t) (t_proof_pending t) (t_inflight t) (t_stale t) (t_upload t) (t_source t)
    (t_download t) (t_part t) (t_expected t) (t_hashed t) (t_hash_valid t) (t_local t).
Definition with_proof (disabled pending : bool) (t : ResourceTransferRuntime) : ResourceTransferRuntime :=
  Transfer (t_phase t) (t_slot t) (t_total t) (t_acked t) (t_wire t) (t_error t) (t_text t) (t_seq t) (t_count t) (t_retry_at t)
    (t_query t) (t_reconnect t) (t_paused t) disabled pending (t_inflight t) (t_stale t) (t_upload t) (t_source t)
    (t_download t) (t_part t) (t_expected t) (t_hashed t) (t_hash_valid t) (t_local t).
Definition with_pending (b : bool) (t : ResourceTransferRuntime) := with_proof (t_proof_disabled t) b t.
Definition with_window (inflight : list InflightChunk) (stale : list Z) (t : ResourceTransferRuntime) : ResourceTransferRuntime :=
  Transfer (t_phase t) (t_slot t) (t_total t) (t_acked t) (t_wire t) (t_error t) (t_text t) (t_seq t) (t_count t) (t_retry_at t)
    (t_query t) (t_reconnect t) (t_paused t) (t_proof_disabled t) (t_proof_pending t) inflight stale (t_upload t) (t_source t)
    (t_download t) (t_part t) (t_expected t) (t_hashed t) (t_hash_valid t) (t_local t).
Definition with_source (b : bool) (t : ResourceTransferRuntime) : ResourceTransferRuntime :=
  Transfer (t_phase t) (t_slot t) (t_total t) (t_acked t) (t_wire t) (t_error t) (t_text t) (t_seq t) (t_count t) (t_retry_at t)
    (t_query t) (t_reconnect t) (t_paused t) (t_proof_disabled t) (t_proof_pending t) (t_inflight t) (t_stale t) (t_upload t) b
    (t_download t) (t_part t) (t_expected t) (t_hashed t) (t_hash_valid t) (t_local t).
Definition with_part (b : bool) (hashed : bytes) (valid : bool) (t : ResourceTransferRuntime) : ResourceTransferRuntime :=
  Transfer (t_phase t) (t_slot t) (t_total t) (t_acked t) (t_wire t) (t_error t) (t_text t) (t_seq t) (t_count t) (t_retry_at t)
    (t_query t) (t_reconnect t) (t_paused t) (t_proof_disabled t) (t_proof_pending t) (t_inflight t) (t_stale t) (t_upload t)
    (t_source t) (t_download t) b (t_expected t) hashed valid (t_local t).
Definition with_expected (sha : bytes) (t : ResourceTransferRuntime) : ResourceTransferRuntime :=
  Transfer (t_phase t) (t_slot t) (t_total t) (t_acked t) (t_wire t) (t_error t) (t_text t) (t_seq t) (t_count t) (t_retry_at t)
    (t_query t) (t_reconnect t) (t_paused t) (t_proof_disabled t) (t_proof_pending t) (t_inflight t) (t_stale t) (t_upload t)
    (t_source t) (t_download t) (t_part t) sha (t_hashed t) (t_hash_valid t) (t_local t).
Definition with_local (p : bytes) (t : ResourceTransferRuntime) : ResourceTransferRuntime :=
  Transfer (t_phase t) (t_slot t) (t_total t) (t_acked t) (t_wire t) (t_error t) (t_text t) (t_seq t) (t_count t) (t_retry_at t)
    (t_query t) (t_reconnect t) (t_paused t) (t_proof_disabled t) (t_proof_pending t) (t_inflight t) (t_stale t) (t_upload t)
    (t_source t) (t_download t) (t_part t) (t_expected t) (t_hashed t) (t_hash_valid t) p.

(** The two initial states of a transfer. *)
Definition new_upload (r : UploadRequest) : ResourceTransferRuntime :=
  let t := InitRuntime in
  Transfer (t_phase t) (t_slot t) (up_size r) 0 0 0 [] 0 (t_count t) 0 0 false false false false [] []
    r false no_download false [] [] true [].
Definition new_download (r : DownloadRequest) : ResourceTransferRuntime :=
  let t := InitRuntime in
  Transfer (t_phase t) (t_slot t) (dn_size r) 0 0 0 [] 0 (t_count t) 0 0 false false false false [] []
    no_upload false r false (dn_sha r) [] true [].

Definition terminal (t : ResourceTransferRuntime) : bool :=
  match t_phase t with TRANSFER_COMPLETED | TRANSFER_FAILED => true | _ => false end.

(** ** State of the engine *)

Inductive frame :=
  | ProgressReq (mid : Z)                                      (* 1507 *)
  | ChunkUploadReq (mid offset : Z) (sha raw : bytes)          (* 1505 *)
  | DownInfoReq (mid : Z)                                      (* 1509 *)
  | ChunkDownReq (mid offset : Z)                              (* 1511 *)
  | InstantProofReq (mid : Z) (proof : bytes).                 (* 1513 *)

Inductive output :=
  | Frame (f : frame)
  | Updated (s : TransferSnapshot)
  | Finished (s : TransferSnapshot)
  | RequestReconnect.

Record engine := Engine {
  e_up : gmap Z ResourceTransferRuntime;
  e_down : gmap Z ResourceTransferRuntime;
  e_up_wait : list Z;
  e_down_wait : list Z;
  e_conn : bool;                       (* [_conn_up] *)
  e_awaiting : bool;                   (* [_awaiting_reconnect] *)
  e_disk : gmap bytes bytes;           (* part files and finished downloads *)
  e_tape : tape;                       (* outcomes of sends and of the part file *)
  e_out : list output;
}.

(** What a call finds of the rest of the world: the clock, and the source
    files, which other programs may change between two calls. *)
Record env := Env {
  v_now : Z;
  v_size : bytes → option Z;                   (* a regular file and its size *)
  v_open : bytes → bool;                       (* it can be opened *)
  v_read : bytes → Z → Z → option bytes;       (* [seek] and [read] *)
  v_whole : bytes → option bytes;              (* all of it, [None] is an error *)
  v_mkpath : bytes → bool;                     (* the directory of a target is there *)
}.

Definition TransferEngine_ (disk : gmap bytes bytes) (t : tape) : engine := Engine ∅ ∅ [] [] false false disk t [].

Definition MapFor (d : TransferDirection) (e : engine) : gmap Z ResourceTransferRuntime :=
  match d with TRANSFER_UPLOAD => e_up e | TRANSFER_DOWNLOAD => e_down e end.

Definition with_map (d : TransferDirection) (m : gmap Z ResourceTransferRuntime) (e : engine) : engine :=
  match d with
  | TRANSFER_UPLOAD => Engine m (e_down e) (e_up_wait e) (e_down_wait e) (e_conn e) (e_awaiting e) (e_disk e) (e_tape e) (e_out e)
  | TRANSFER_DOWNLOAD => Engine (e_up e) m (e_up_wait e) (e_down_wait e) (e_conn e) (e_awaiting e) (e_disk e) (e_tape e) (e_out e)
  end.

Definition WaitFor (d : TransferDirection) (e : engine) : list Z :=
  match d with TRANSFER_UPLOAD => e_up_wait e | TRANSFER_DOWNLOAD => e_down_wait e end.

Definition with_wait (d : TransferDirection) (l : list Z) (e : engine) : engine :=
  match d with
  | TRANSFER_UPLOAD => Engine (e_up e) (e_down e) l (e_down_wait e) (e_conn e) (e_awaiting e) (e_disk e) (e_tape e) (e_out e)
  | TRANSFER_DOWNLOAD => Engine (e_up e) (e_down e) (e_up_wait e) l (e_conn e) (e_awaiting e) (e_disk e) (e_tape e) (e_out e)
  end.

Definition with_conn (conn awaiting : bool) (e : engine) : engine :=
  Engine (e_up e) (e_down e) (e_up_wait e) (e_down_wait e) conn awaiting (e_disk e) (e_tape e) (e_out e).
Definition with_disk (disk : gmap bytes bytes) (e : engine) : engine :=
  Engine (e_up e) (e_down e) (e_up_wait e) (e_down_wait e) (e_conn e) (e_awaiting e) disk (e_tape e) (e_out e).

(** The next outcome of the environment. *)
Definition io (e : engine) : io_outcome * engine :=
  let '(o, t) := tape_next (e_tape e) in
  (o, Engine (e_up e) (e_down e) (e_up_wait e) (e_down_wait e) (e_conn e) (e_awaiting e) (e_disk e) t (e_out e)).

Definition emit (o : output) (e : engine) : engine :=
  Engine (e_up e) (e_down e) (e_up_wait e) (e_down_wait e) (e_conn e) (e_awaiting e) (e_disk e) (e_tape e) (e_out e ++ [o]).

Definition get (d : TransferDirection) (mid : Z) (e : engine) : option ResourceTransferRuntime := MapFor d e !! mid.

Definition put (d : TransferDirection) (mid : Z) (t : ResourceTransferRuntime) (e : engine) : engine :=
  with_map d (<[mid := t]> (MapFor d e)) e.

(** A change of the transfer a pointer [t] refers to. *)
Definition upd (d : TransferDirection) (mid : Z) (f : ResourceTransferRuntime → ResourceTransferRuntime) (e : engine) : engine :=
  with_map d (alter f mid (MapFor d e)) e.

Definition FindActive (d : TransferDirection) (mid : Z) (e : engine) : option ResourceTransferRuntime :=
  match get d mid e with
  | None => None
  | Some t => if terminal t then None else Some t
  end.

(** ** Connection *)

Definition cut_off (t : ResourceTransferRuntime) : ResourceTransferRuntime :=
  if terminal t then t
  else with_reconnect false (with_pending false (with_query 0 (with_wire (t_acked t) (with_window [] [] t)))).

Definition OnConnectionDown (e : engine) : engine :=
  with_map TRANSFER_DOWNLOAD (cut_off <$> e_down e) (with_map TRANSFER_UPLOAD (cut_off <$> e_up e) (with_conn false false e)).

(** [_send]: [slot_send_data] drops the frame without a connection; when it
    cannot queue or write the frame it resets the connection. *)
Definition send (f : frame) (e : engine) : engine :=
  if negb (e_conn e) then e
  else let '(o, e) := io (emit (Frame f) e) in
       if io_ok o then e else OnConnectionDown e.

(** ** Reports *)

Definition MakeSnapshot (d : TransferDirection) (mid : Z) (t : ResourceTransferRuntime) : TransferSnapshot :=
  Snapshot mid d (if t_paused t && negb (terminal t) then TRANSFER_PAUSED else t_phase t)
    (t_acked t) (t_wire t) (t_total t) (t_seq t) (t_error t) (t_text t) (t_local t).

Definition EmitUpdate (d : TransferDirection) (mid : Z) (e : engine) : engine :=
  match get d mid e with Some t => emit (Updated (MakeSnapshot d mid t)) e | None => e end.

Section engine.
Context `{Sha256Lib} (cfg : Config) (v : env).

Definition Sha256HexOf (raw : bytes) : bytes := ToLowerHex (sha256 raw).
Definition PartPathOf (dest : bytes) : bytes := dest ++ §".part".

(** ** Slots *)

Definition limit (d : TransferDirection) : Z :=
  match d with TRANSFER_UPLOAD => max_active_uploads cfg | TRANSFER_DOWNLOAD => max_active_downloads cfg end.

Definition active (t : ResourceTransferRuntime) : bool := t_slot t && negb (terminal t).

Definition ActiveCount (d : TransferDirection) (e : engine) : Z :=
  Z.of_nat (size (filter (λ kv, active kv.2 = true) (MapFor d e))).

Definition all_stale (l : list InflightChunk) (stale : list Z) : list Z := stale ++ (ic_offset <$> l).

Definition BeginQuery (d : TransferDirection) (mid : Z) (e : engine) : engine :=
  match get d mid e with
  | None => e
  | Some t =>
      let t := with_phase TRANSFER_QUERYING (with_pending false t) in
      if negb (e_conn e) || t_paused t then put d mid (with_query 0 t) e
      else
        let t := with_query (v_now v) t in
        match d with
        | TRANSFER_UPLOAD =>
            send (ProgressReq mid) (put d mid (with_window [] (all_stale (t_inflight t) (t_stale t)) t) e)
        | TRANSFER_DOWNLOAD => send (DownInfoReq mid) (put d mid (with_window [] [] t) e)
        end
  end.

(** The scan over the queue: what is no waiter any more is removed, a paused
    one keeps its place, the first other one is taken. *)
Fixpoint pick_waiting (m : gmap Z ResourceTransferRuntime) (wait : list Z) : list Z * option Z :=
  match wait with
  | [] => ([], None)
  | id :: rest =>
      match m !! id with
      | None => pick_waiting m rest
      | Some t =>
          if terminal t || t_slot t then pick_waiting m rest
          else if t_paused t then let '(l, p) := pick_waiting m rest in (id :: l, p)
          else (rest, Some id)
      end
  end.

(** Every turn takes one from the queue: its length is enough fuel. *)
Fixpoint promote (fuel : nat) (d : TransferDirection) (e : engine) : engine :=
  match fuel with
  | O => e
  | S fuel =>
      if negb (ActiveCount d e <? limit d) || bool_decide (WaitFor d e = []) then e
      else
        let '(l, p) := pick_waiting (MapFor d e) (WaitFor d e) in
        let e := with_wait d l e in
        match p with
        | None => e
        | Some id => promote fuel d (EmitUpdate d id (BeginQuery d id (upd d id (with_slot true) e)))
        end
  end.

Definition PromoteWaiting (d : TransferDirection) (e : engine) : engine := promote (length (WaitFor d e)) d e.

(** ** Ends *)

Definition CloseFiles (t : ResourceTransferRuntime) : ResourceTransferRuntime :=
  with_source false (with_part false [] (t_hash_valid t) t).

Definition failed (code : Z) (text : bytes) (t : ResourceTransferRuntime) : ResourceTransferRuntime :=
  CloseFiles (with_result code text (t_seq t) (with_phase TRANSFER_FAILED t)).

Definition FailTransfer (d : TransferDirection) (mid code : Z) (text : bytes) (e : engine) : engine :=
  match get d mid e with
  | None => e
  | Some t =>
      let t := failed code text t in
      PromoteWaiting d (emit (Finished (MakeSnapshot d mid t)) (put d mid t e))
  end.

Definition CompleteTransfer (d : TransferDirection) (mid seq : Z) (e : engine) : engine :=
  match get d mid e with
  | None => e
  | Some t =>
      let t := CloseFiles (with_result 0 [] seq (with_phase TRANSFER_COMPLETED t)) in
      PromoteWaiting d (emit (Finished (MakeSnapshot d mid t)) (put d mid t e))
  end.

(** ** Back-off *)

Definition BackoffIntervalMs (retry_count : Z) : Z :=
  let v := Z.shiftl (backoff_initial_ms cfg) (if retry_count <? 5 then retry_count else 5) in
  if (v <=? 0) || (backoff_max_ms cfg <? v) then backoff_max_ms cfg else v.

Definition ScheduleBackoff (t : ResourceTransferRuntime) : ResourceTransferRuntime :=
  let c := t_count t in
  with_count (Counters (k_retry c + 1) (k_json c) (k_chunk c) (k_publish c))
    (with_retry_at (v_now v + BackoffIntervalMs (k_retry c)) (with_phase TRANSFER_BACKOFF t)).

Definition backoff (d : TransferDirection) (mid : Z) (e : engine) : engine := EmitUpdate d mid (upd d mid ScheduleBackoff e).

Definition with_json (n : Z) (t : ResourceTransferRuntime) : ResourceTransferRuntime :=
  let c := t_count t in with_count (Counters (k_retry c) n (k_chunk c) (k_publish c)) t.
Definition with_chunk (n : Z) (t : ResourceTransferRuntime) : ResourceTransferRuntime :=
  let c := t_count t in with_count (Counters (k_retry c) (k_json c) n (k_publish c)) t.
Definition with_publish (n : Z) (t : ResourceTransferRuntime) : ResourceTransferRuntime :=
  let c := t_count t in with_count (Counters (k_retry c) (k_json c) (k_chunk c) n) t.
Definition with_retries (n : Z) (t : ResourceTransferRuntime) : ResourceTransferRuntime :=
  let c := t_count t in with_count (Counters n (k_json c) (k_chunk c) (k_publish c)) t.

(** ** Chunks *)

Definition chunk_len (t : ResourceTransferRuntime) (offset : Z) : Z := Z.min kResourceChunkSize (t_total t - offset).

(** Reading a section of the open source file. *)
Definition read_source (t : ResourceTransferRuntime) (offset len : Z) : bytes + bytes :=
  if negb (t_source t) then inl §"local source seek failed"
  else match v_read v (up_path (t_upload t)) offset len with
  | None => inl §"local source seek failed"
  | Some raw => if negb (zlen raw =? len) then inl §"local source read failed" else inr raw
  end.

(** The result says whether the caller goes on. *)
Definition SendNextChunk (d : TransferDirection) (mid : Z) (e : engine) : bool * engine :=
  match get d mid e with
  | None => (false, e)
  | Some t =>
      let offset := t_wire t in
      let len := chunk_len t offset in
      if (len <=? 0) || (max_inflight_chunks cfg <=? zlen (t_inflight t)) then (false, e)
      else match d with
      | TRANSFER_UPLOAD =>
          match read_source t offset len with
          | inl text => (false, FailTransfer d mid 0 text e)
          | inr raw =>
              let c := Inflight offset len (Sha256HexOf raw) (v_now v) in
              let e := put d mid (with_wire (offset + len) (with_window (t_inflight t ++ [c]) (t_stale t) t)) e in
              (true, send (ChunkUploadReq mid offset (ic_sha c) raw) e)
          end
      | TRANSFER_DOWNLOAD =>
          let c := Inflight offset len [] (v_now v) in
          let e := put d mid (with_wire (offset + len) (with_window (t_inflight t ++ [c]) (t_stale t) t)) e in
          (true, send (ChunkDownReq mid offset) e)
      end
  end.

(** Whether the pump may give the transfer a chunk. *)
Definition pumpable (t : ResourceTransferRuntime) : bool :=
  bool_decide (t_phase t = TRANSFER_ACTIVE) && t_slot t && negb (t_reconnect t) && negb (t_paused t) &&
  (zlen (t_inflight t) <? max_inflight_chunks cfg) && (t_wire t <? t_total t).

Definition window_bytes (t : ResourceTransferRuntime) : Z := foldr (λ c n, ic_length c + n) 0 (t_inflight t).

Definition candidates (e : engine) : list (TransferDirection * Z * ResourceTransferRuntime) :=
  ((λ kv : Z * ResourceTransferRuntime, (TRANSFER_UPLOAD, kv.1, kv.2)) <$> map_to_list (e_up e)) ++
  ((λ kv : Z * ResourceTransferRuntime, (TRANSFER_DOWNLOAD, kv.1, kv.2)) <$> map_to_list (e_down e)).

(** The first of those with the fewest bytes in flight. *)
Fixpoint fewest (best : option (TransferDirection * Z * Z)) (l : list (TransferDirection * Z * ResourceTransferRuntime)) :
    option (TransferDirection * Z * Z) :=
  match l with
  | [] => best
  | (d, mid, t) :: l =>
      if negb (pumpable t) then fewest best l
      else match best with
      | None => fewest (Some (d, mid, window_bytes t)) l
      | Some (_, _, n) => if window_bytes t <? n then fewest (Some (d, mid, window_bytes t)) l else fewest best l
      end
  end.

Fixpoint pump (fuel : nat) (e : engine) : engine :=
  match fuel with
  | O => e
  | S fuel =>
      match fewest None (candidates e) with
      | None => e
      | Some (d, mid, _) =>
          let '(go, e) := SendNextChunk d mid e in
          if (go : bool) then pump fuel e else e
      end
  end.

(** A bound for the turns: every window is filled once, and once more when a
    failing send has emptied all of them. *)
Definition pump_fuel (e : engine) : nat :=
  S (2 * (size (e_up e) + size (e_down e)) * Z.to_nat (max_inflight_chunks cfg)).

Definition Pump (e : engine) : engine := if negb (e_conn e) then e else pump (pump_fuel e) e.

(** ** Uploads *)

Definition RollbackUploadTo (server_offset : Z) (t : ResourceTransferRuntime) : ResourceTransferRuntime :=
  let so := Z.min (Z.max 0 server_offset) (t_total t) in
  let so := so / kResourceChunkSize * kResourceChunkSize in
  with_progress (t_total t) so so (with_window [] (all_stale (t_inflight t) (t_stale t)) t).

Definition ResyncUpload (mid : Z) (e : engine) : engine :=
  BeginQuery TRANSFER_UPLOAD mid (upd TRANSFER_UPLOAD mid (λ t, RollbackUploadTo (t_acked t) t) e).

Definition IsPermanentError (error : Z) : bool :=
  (error =? ResourceErrCode_code RS_MSG_ID_ERR) || (error =? ResourceErrCode_code RS_FILE_SIZE_EXCEEDED) ||
  (error =? ResourceErrCode_code RS_RESOURCE_FORBIDDEN) || (error =? ResourceErrCode_code RS_RESOURCE_STATE_INVALID).

Definition IsRollbackError (error : Z) : bool :=
  (error =? ResourceErrCode_code RS_FILE_OFFSET_INVALID) || (error =? ResourceErrCode_code RS_FILE_HASH_MISMATCH).

(** [QString::toLower] on ASCII. *)
Definition lower (s : bytes) : bytes := (λ b, if (65 <=? bval b) && (bval b <=? 90) then mkbyte (bval b + 32) else b) <$> s.

Definition rollback_backoff (mid to : Z) (e : engine) : engine :=
  backoff TRANSFER_UPLOAD mid (upd TRANSFER_UPLOAD mid (RollbackUploadTo to) e).

Definition VerifySourceHashOn2117 (mid server_offset : Z) (t : ResourceTransferRuntime) (e : engine) : engine :=
  if negb (v_open v (up_path (t_upload t))) then FailTransfer TRANSFER_UPLOAD mid 0 §"source file unreadable" e
  else match v_whole v (up_path (t_upload t)) with
  | None => FailTransfer TRANSFER_UPLOAD mid 0 §"source file read failed" e
  | Some content =>
      if negb (bool_decide (Sha256HexOf content = lower (up_sha (t_upload t))))
      then FailTransfer TRANSFER_UPLOAD mid (ResourceErrCode_code RS_FILE_CONTENT_MISMATCH) §"source file changed" e
      else rollback_backoff mid server_offset e
  end.

(** A malformed answer: the [limit]-th in a row ends the transfer. *)
Definition bad_answer (d : TransferDirection) (mid : Z) (t : ResourceTransferRuntime) (text : bytes)
    (again : engine → engine) (e : engine) : engine :=
  let n := k_json (t_count t) + 1 in
  let e := upd d mid (with_json n) e in
  if json_error_limit cfg <=? n then FailTransfer d mid (CommonErrCode_code ERR_JSON) text e else again e.

Definition HandleUploadError (mid error server_offset : Z) (e : engine) : engine :=
  match get TRANSFER_UPLOAD mid e with
  | None => e
  | Some t =>
      if IsPermanentError error then FailTransfer TRANSFER_UPLOAD mid error §"permanent server error" e
      else if error =? ResourceErrCode_code RS_FILE_CONTENT_MISMATCH then VerifySourceHashOn2117 mid server_offset t e
      else
        let fallback := if 0 <=? server_offset then server_offset else t_acked t in
        if IsRollbackError error then
          let n := k_chunk (t_count t) + 1 in
          if chunk_retry_limit cfg <=? n
          then backoff TRANSFER_UPLOAD mid (upd TRANSFER_UPLOAD mid (λ t, with_chunk 0 (RollbackUploadTo server_offset t)) e)
          else EmitUpdate TRANSFER_UPLOAD mid
                 (Pump (upd TRANSFER_UPLOAD mid
                    (λ t, with_phase TRANSFER_ACTIVE (with_chunk n (RollbackUploadTo server_offset t))) e))
        else if (error =? CommonErrCode_code ERR_JSON) || (error =? 0)
        then bad_answer TRANSFER_UPLOAD mid t §"repeated malformed response" (rollback_backoff mid fallback) e
        else rollback_backoff mid fallback e
  end.

(** The source file, opened once it is needed. *)
Definition EnsureSourceOpen (mid : Z) (t : ResourceTransferRuntime) (e : engine) : bool * engine :=
  if t_source t then (true, e)
  else match v_size v (up_path (t_upload t)) with
  | None => (false, FailTransfer TRANSFER_UPLOAD mid 0 §"source file missing" e)
  | Some n =>
      if negb (n =? t_total t) then (false, FailTransfer TRANSFER_UPLOAD mid 0 §"source file size mismatch" e)
      else if negb (v_open v (up_path (t_upload t))) then (false, FailTransfer TRANSFER_UPLOAD mid 0 §"source file open failed" e)
      else (true, upd TRANSFER_UPLOAD mid (with_source true) e)
  end.

Definition last_offset (total : Z) : Z := ((total + kResourceChunkSize - 1) / kResourceChunkSize - 1) * kResourceChunkSize.

Definition MaybeResendLastChunk (mid : Z) (e : engine) : engine :=
  match get TRANSFER_UPLOAD mid e with
  | None => e
  | Some t =>
      if t_paused t then e
      else if chunk_retry_limit cfg <=? k_publish (t_count t)
      then backoff TRANSFER_UPLOAD mid (upd TRANSFER_UPLOAD mid (with_publish 0) e)
      else if negb (t_source t) then FailTransfer TRANSFER_UPLOAD mid 0 §"source file missing" e
      else
        let t := with_publish (k_publish (t_count t) + 1) t in
        let e := put TRANSFER_UPLOAD mid t e in
        let off := last_offset (t_total t) in
        let len := t_total t - off in
        match read_source t off len with
        | inl text => FailTransfer TRANSFER_UPLOAD mid 0 text e
        | inr raw =>
            let c := Inflight off len (Sha256HexOf raw) (v_now v) in
            let t := with_phase TRANSFER_ACTIVE (with_window (t_inflight t ++ [c]) (t_stale t) t) in
            EmitUpdate TRANSFER_UPLOAD mid (send (ChunkUploadReq mid off (ic_sha c) raw) (put TRANSFER_UPLOAD mid t e))
        end
  end.

Definition kStatusPublished : Z := 1.
Definition kStatusFailed : Z := 2.

(** [stale_offsets.front()] is [offset]. *)
Definition drains (offset : Z) (t : ResourceTransferRuntime) : bool :=
  match t_stale t with o :: _ => offset =? o | [] => false end.

Definition heads (offset : Z) (t : ResourceTransferRuntime) : bool :=
  match t_inflight t with c :: _ => (0 <=? offset) && (offset =? ic_offset c) | [] => false end.

(** A late duplicate, with nothing in flight. *)
Definition late (offset : Z) (t : ResourceTransferRuntime) : bool :=
  (0 <=? offset) && bool_decide (t_inflight t = []) && bool_decide (t_stale t = []) && (offset <? t_wire t).

Definition idle_query (t : ResourceTransferRuntime) : bool :=
  bool_decide (t_phase t = TRANSFER_QUERYING) && bool_decide (t_inflight t = []) && bool_decide (t_stale t = []).

Definition HandleChunkUploadRsp (r : ChunkUploadRsp) (e : engine) : engine :=
  let mid := cu_message r in
  match FindActive TRANSFER_UPLOAD mid e with
  | None => e
  | Some t =>
      if idle_query t then e
      else if drains (cu_offset r) t then put TRANSFER_UPLOAD mid (with_window (t_inflight t) (tail (t_stale t)) t) e
      else if negb (heads (cu_offset r) t) then
        if late (cu_offset r) t then e else EmitUpdate TRANSFER_UPLOAD mid (ResyncUpload mid e)
      else
        let t := with_window (tail (t_inflight t)) (t_stale t) t in
        let e := put TRANSFER_UPLOAD mid t e in
        if negb (cu_ok r) then
          bad_answer TRANSFER_UPLOAD mid t §"repeated malformed response" (backoff TRANSFER_UPLOAD mid) e
        else if negb (cu_error r =? 0) then HandleUploadError mid (cu_error r) (cu_server r) e
        else
          let t := with_json 0 (with_chunk 0 t) in
          let t := if t_acked t <? cu_server r then with_acked (Z.min (cu_server r) (t_total t)) t else t in
          let e := put TRANSFER_UPLOAD mid t e in
          if cu_status r =? kStatusPublished then CompleteTransfer TRANSFER_UPLOAD mid (cu_seq r) e
          else if t_total t <=? t_acked t then MaybeResendLastChunk mid e
          else EmitUpdate TRANSFER_UPLOAD mid (Pump (put TRANSFER_UPLOAD mid (with_phase TRANSFER_ACTIVE t) e))
  end.

(** ** Instant proof *)

Definition is_hex_char (b : Byte.byte) : bool :=
  ((48 <=? bval b) && (bval b <=? 57)) || ((97 <=? bval b) && (bval b <=? 102)) || ((65 <=? bval b) && (bval b <=? 70)).

Definition hex_value (b : Byte.byte) : Z :=
  if bval b <=? 57 then bval b - 48 else if bval b <=? 70 then bval b - 55 else bval b - 87.

(** [QByteArray::fromHex] on hexadecimal digits, an even number of them. *)
Fixpoint fromHex (s : bytes) : bytes :=
  match s with
  | a :: b :: s => mkbyte (hex_value a * 16 + hex_value b) :: fromHex s
  | _ => []
  end.

Definition challenge_ok (nonce : bytes) (offset length total : Z) : bool :=
  (zlen nonce =? 32) && forallb is_hex_char nonce && (0 <=? offset) && (0 <? length) && (length <=? 64 * 1024) &&
  (offset <=? total - length).

Definition SendInstantProof (mid : Z) (t : ResourceTransferRuntime) (nonce : bytes) (offset length : Z) (e : engine) : engine :=
  if negb (challenge_ok nonce offset length (t_total t)) then
    bad_answer TRANSFER_UPLOAD mid t §"malformed proof challenge" (backoff TRANSFER_UPLOAD mid) e
  else match read_source t offset length with
  | inl text => FailTransfer TRANSFER_UPLOAD mid 0 text e
  | inr section =>
      let proof := Sha256HexOf (fromHex nonce ++ section) in
      let t := RollbackUploadTo (t_acked t) t in
      let t := with_query (v_now v) (with_pending true (with_phase TRANSFER_QUERYING (with_publish 0 t))) in
      let e := send (InstantProofReq mid proof) (put TRANSFER_UPLOAD mid t e) in
      match get TRANSFER_UPLOAD mid e with
      | Some t => if t_proof_pending t then EmitUpdate TRANSFER_UPLOAD mid e else e
      | None => e
      end
  end.

(** What a synchronised upload goes on with. *)
Definition continue_upload (mid : Z) (r : ProgressRsp) (so : Z) (e : engine) : engine :=
  match get TRANSFER_UPLOAD mid e with
  | None => e
  | Some t =>
      if bool_decide (pr_mode r = §"proof") && negb (t_proof_disabled t)
      then SendInstantProof mid t (pr_nonce r) (pr_coff r) (pr_clen r) e
      else
        let e := put TRANSFER_UPLOAD mid (with_publish 0 (with_json 0 t)) e in
        if t_total t <=? so then MaybeResendLastChunk mid e else EmitUpdate TRANSFER_UPLOAD mid (Pump e)
  end.

Definition HandleProgressRsp (r : ProgressRsp) (e : engine) : engine :=
  let mid := pr_message r in
  match FindActive TRANSFER_UPLOAD mid e with
  | None => e
  | Some t =>
      if t_proof_pending t then e
      else
        let t := with_query 0 t in
        let e := put TRANSFER_UPLOAD mid t e in
        if negb (pr_ok r) || negb (pr_error r =? 0)
        then HandleUploadError mid (if pr_ok r then pr_error r else CommonErrCode_code ERR_JSON) (pr_server r) e
        else if pr_status r =? kStatusPublished then CompleteTransfer TRANSFER_UPLOAD mid (pr_seq r) e
        else if pr_status r =? kStatusFailed
        then FailTransfer TRANSFER_UPLOAD mid (ResourceErrCode_code RS_RESOURCE_STATE_INVALID) §"server marked failed" e
        else if negb (pr_size r =? t_total t) then FailTransfer TRANSFER_UPLOAD mid 0 §"file size mismatch with server" e
        else if (0 <? pr_chunk r) && negb (pr_chunk r =? kResourceChunkSize)
        then bad_answer TRANSFER_UPLOAD mid t §"server chunk_size mismatch" (backoff TRANSFER_UPLOAD mid) e
        else
          let so := Z.min (Z.max 0 (pr_server r)) (t_total t) in
          let t := with_phase TRANSFER_ACTIVE (with_progress (t_total t) so so t) in
          let e := put TRANSFER_UPLOAD mid t e in
          if t_paused t then EmitUpdate TRANSFER_UPLOAD mid e
          else let '(go, e) := EnsureSourceOpen mid t e in
               if (go : bool) then continue_upload mid r so e else e
  end.

Definition HandleInstantProofRsp (r : InstantProofRsp) (e : engine) : engine :=
  let mid := ip_message r in
  match FindActive TRANSFER_UPLOAD mid e with
  | None => e
  | Some t =>
      if negb (t_proof_pending t) then e
      else
        let t := with_query 0 (with_pending false t) in
        let e := put TRANSFER_UPLOAD mid t e in
        let bad := HandleUploadError mid (CommonErrCode_code ERR_JSON) (-1) e in
        if negb (ip_ok r) then bad
        else if ip_error r =? ResourceErrCode_code RS_INSTANT_PROOF_INVALID then
          EmitUpdate TRANSFER_UPLOAD mid (ResyncUpload mid (put TRANSFER_UPLOAD mid (with_proof true false t) e))
        else if negb (ip_error r =? 0) then HandleUploadError mid (ip_error r) (ip_server r) e
        else if negb (ip_status r =? kStatusPublished) then bad
        else if negb (ip_server r =? t_total t) || (ip_seq r <=? 0) then bad
        else CompleteTransfer TRANSFER_UPLOAD mid (ip_seq r)
               (put TRANSFER_UPLOAD mid (with_progress (t_total t) (t_total t) (t_total t) t) e)
  end.

(** ** Downloads *)

Definition part_of (t : ResourceTransferRuntime) : bytes := PartPathOf (dn_path (t_download t)).

(** Writing at the end of the part file, which is where it is always written;
    a failing write may leave some of the bytes. *)
Definition write_part (path raw : bytes) (e : engine) : bool * engine :=
  let '(o, e) := io e in
  let content := default [] (e_disk e !! path) in
  match o with
  | IoOk => (true, with_disk (<[path := content ++ raw]> (e_disk e)) e)
  | IoFail n => (false, with_disk (<[path := content ++ take n raw]> (e_disk e)) e)
  end.

Definition FinishDownload (mid : Z) (e : engine) : engine :=
  match get TRANSFER_DOWNLOAD mid e with
  | None => e
  | Some t =>
      let fail text e := FailTransfer TRANSFER_DOWNLOAD mid 0 text e in
      if negb (t_part t) then fail §"part file missing" e
      else
        let content := default [] (e_disk e !! part_of t) in
        let '(h, e) :=
          if t_hash_valid t then (inr (sha256 (t_hashed t)), e)
          else
            let '(o, e) := io e in
            if negb (io_ok o) then (inl §"part file seek failed", e)
            else let '(o, e) := io e in
                 if negb (io_ok o) then (inl §"part file read failed", e) else (inr (sha256 content), e) in
        match h with
        | inl text => fail text e
        | inr final_hash =>
            if negb (bool_decide (t_expected t = [])) && negb (bool_decide (ToLowerHex final_hash = lower (t_expected t))) then
              let '(o, e) := io e in
              fail §"whole file hash mismatch" (if io_ok o then with_disk (delete (part_of t) (e_disk e)) e else e)
            else
              let dest := dn_path (t_download t) in
              let '(o, e) := if bool_decide (is_Some (e_disk e !! dest)) then io e else (IoOk, e) in
              if negb (io_ok o) then fail §"dest file remove failed" e
              else
                let e := with_disk (delete dest (e_disk e)) e in
                let '(o, e) := io e in
                if negb (io_ok o) then fail §"part rename failed" e
                else
                  let e := with_disk (<[dest := content]> (delete (part_of t) (e_disk e))) e in
                  CompleteTransfer TRANSFER_DOWNLOAD mid 0
                    (put TRANSFER_DOWNLOAD mid (with_local dest (with_acked (t_total t) t)) e)
        end
  end.

(** Where a part file of this size goes on: at a chunk boundary, and never
    beyond the total. *)
Definition resume_at (size total : Z) : Z :=
  let size := if total <? size then 0 else size in
  if 0 <? size then (size - 1) / kResourceChunkSize * kResourceChunkSize else 0.

Definition OpenDownloadPart (mid : Z) (e : engine) : engine :=
  match get TRANSFER_DOWNLOAD mid e with
  | None => e
  | Some t =>
      let '(o, e) := io e in
      if negb (io_ok o) then FailTransfer TRANSFER_DOWNLOAD mid 0 §"part file open failed" (put TRANSFER_DOWNLOAD mid (CloseFiles t) e)
      else
        let path := part_of t in
        let content := default [] (e_disk e !! path) in
        let resume := resume_at (zlen content) (t_total t) in
        let '(o, e) := if resume =? zlen content then (IoOk, e) else io e in
        if negb (io_ok o) then
          FailTransfer TRANSFER_DOWNLOAD mid 0 §"part file truncate failed"
            (put TRANSFER_DOWNLOAD mid (CloseFiles t) (with_disk (<[path := content]> (e_disk e)) e))
        else
          let e := with_disk (<[path := ztake resume content]> (e_disk e)) e in
          let t := with_window [] [] (with_part true [] (resume =? 0) (with_progress (t_total t) resume resume t)) in
          let e := put TRANSFER_DOWNLOAD mid t e in
          if (t_total t =? 0) || (t_total t <=? t_acked t) then FinishDownload mid e
          else EmitUpdate TRANSFER_DOWNLOAD mid (Pump (put TRANSFER_DOWNLOAD mid (with_phase TRANSFER_ACTIVE t) e))
  end.

(** A download's error: permanent, malformed, or tried again later. *)
Definition down_error (mid error : Z) (t : ResourceTransferRuntime) (e : engine) : engine :=
  if IsPermanentError error then FailTransfer TRANSFER_DOWNLOAD mid error §"permanent server error" e
  else if error =? CommonErrCode_code ERR_JSON
  then bad_answer TRANSFER_DOWNLOAD mid t §"repeated malformed response" (backoff TRANSFER_DOWNLOAD mid) e
  else backoff TRANSFER_DOWNLOAD mid e.

Definition HandleDownInfoRsp (r : DownInfoRsp) (e : engine) : engine :=
  let mid := di_message r in
  match FindActive TRANSFER_DOWNLOAD mid e with
  | None => e
  | Some t =>
      let t := with_query 0 t in
      let e := put TRANSFER_DOWNLOAD mid t e in
      if negb (di_ok r) || negb (di_error r =? 0)
      then down_error mid (if di_ok r then di_error r else CommonErrCode_code ERR_JSON) t e
      else
        let t := with_json 0 t in
        let e := put TRANSFER_DOWNLOAD mid t e in
        if (0 <? dn_size (t_download t)) && negb (dn_size (t_download t) =? di_size r)
        then FailTransfer TRANSFER_DOWNLOAD mid 0 §"metadata size mismatch" e
        else
          let t := with_progress (di_size r) (t_acked t) (t_wire t) t in
          let t := if bool_decide (di_sha r = []) then t else with_expected (di_sha r) t in
          OpenDownloadPart mid (put TRANSFER_DOWNLOAD mid t e)
  end.

Definition chunk_valid (r : ChunkDownRsp) (expected_len : Z) (t : ResourceTransferRuntime) : bool :=
  let n := zlen (cd_data r) in
  negb (bool_decide (cd_data r = [])) && (n =? cd_bytes r) && (n =? expected_len) && (cd_total r =? t_total t) &&
  (cd_offset r <=? t_total t - n) && bool_decide (Sha256HexOf (cd_data r) = cd_sha r) && (cd_offset r =? t_acked t).

(** What a written chunk changes. *)
Definition landed (offset : Z) (raw : bytes) (t : ResourceTransferRuntime) : ResourceTransferRuntime :=
  let t := if t_hash_valid t && (zlen (t_hashed t) =? offset)
           then with_part (t_part t) (t_hashed t ++ raw) true t else with_part (t_part t) (t_hashed t) false t in
  with_acked (offset + zlen raw) t.

Definition HandleChunkDownRsp (r : ChunkDownRsp) (e : engine) : engine :=
  let mid := cd_message r in
  match FindActive TRANSFER_DOWNLOAD mid e with
  | None => e
  | Some t =>
      if idle_query t then e
      else if drains (cd_offset r) t then put TRANSFER_DOWNLOAD mid (with_window (t_inflight t) (tail (t_stale t)) t) e
      else if negb (cd_ok r) || negb (cd_error r =? 0) then
        let error := if cd_ok r then cd_error r else CommonErrCode_code ERR_JSON in
        if error =? ResourceErrCode_code RS_FILE_OFFSET_INVALID
        then backoff TRANSFER_DOWNLOAD mid (put TRANSFER_DOWNLOAD mid (with_wire (t_acked t) (with_window [] [] t)) e)
        else down_error mid error t e
      else if negb (heads (cd_offset r) t) then
        if late (cd_offset r) t then e else backoff TRANSFER_DOWNLOAD mid e
      else
        let expected_len := match t_inflight t with c :: _ => ic_length c | [] => 0 end in
        let t := with_window (tail (t_inflight t)) (t_stale t) t in
        if negb (chunk_valid r expected_len t) then
          let n := k_chunk (t_count t) + 1 in
          let t := with_chunk n t in
          if chunk_retry_limit cfg <=? n
          then FailTransfer TRANSFER_DOWNLOAD mid 0 §"chunk validation failed" (put TRANSFER_DOWNLOAD mid t e)
          else
            let t := with_wire (cd_offset r) (with_window [] (all_stale (t_inflight t) (t_stale t)) t) in
            EmitUpdate TRANSFER_DOWNLOAD mid (Pump (put TRANSFER_DOWNLOAD mid t e))
        else
          let t := with_json 0 (with_chunk 0 t) in
          let e := put TRANSFER_DOWNLOAD mid t e in
          let '(o, e) := io e in
          if negb (t_part t) || negb (io_ok o) then FailTransfer TRANSFER_DOWNLOAD mid 0 §"part file seek failed" e
          else
            let '(ok, e) := write_part (part_of t) (cd_data r) e in
            if negb ok then FailTransfer TRANSFER_DOWNLOAD mid 0 §"part file write failed" e
            else
              let t := landed (cd_offset r) (cd_data r) t in
              let e := put TRANSFER_DOWNLOAD mid t e in
              if t_total t <=? t_acked t then FinishDownload mid e
              else EmitUpdate TRANSFER_DOWNLOAD mid (Pump e)
  end.

(** ** Operations *)

(** A new transfer, into a slot or into the queue. *)
Definition start_transfer (d : TransferDirection) (mid : Z) (t : ResourceTransferRuntime) (e : engine) : engine :=
  let e := put d mid t e in
  if limit d <=? ActiveCount d e then EmitUpdate d mid (with_wait d (WaitFor d e ++ [mid]) e)
  else EmitUpdate d mid (BeginQuery d mid (upd d mid (with_slot true) e)).

(** A transfer that fails before it is registered. *)
Definition fail_new (d : TransferDirection) (mid : Z) (t : ResourceTransferRuntime) (text : bytes) (e : engine) : engine :=
  let t := failed 0 text t in
  put d mid t (PromoteWaiting d (emit (Finished (MakeSnapshot d mid t)) e)).

Definition StartUpload (r : UploadRequest) (e : engine) : bool * engine :=
  let mid := up_message r in
  if (mid <=? 0) || bool_decide (up_path r = []) then (false, e)
  else match FindActive TRANSFER_UPLOAD mid e with
  | Some _ => (true, e)
  | None =>
      let e := with_map TRANSFER_UPLOAD (delete mid (e_up e)) e in
      if up_size r <=? 0 then (false, fail_new TRANSFER_UPLOAD mid (new_upload r) §"empty source file" e)
      else (true, start_transfer TRANSFER_UPLOAD mid (new_upload r) e)
  end.

Definition StartDownload (r : DownloadRequest) (e : engine) : bool * engine :=
  let mid := dn_message r in
  if (mid <=? 0) || bool_decide (dn_path r = []) then (false, e)
  else match FindActive TRANSFER_DOWNLOAD mid e with
  | Some _ => (true, e)
  | None =>
      let e := with_map TRANSFER_DOWNLOAD (delete mid (e_down e)) e in
      if negb (v_mkpath v (dn_path r)) then (false, fail_new TRANSFER_DOWNLOAD mid (new_download r) §"dest dir create failed" e)
      else (true, start_transfer TRANSFER_DOWNLOAD mid (new_download r) e)
  end.

Definition PauseTransfer (d : TransferDirection) (mid : Z) (e : engine) : engine :=
  match FindActive d mid e with
  | None => e
  | Some t => if t_paused t then e else EmitUpdate d mid (put d mid (with_paused true t) e)
  end.

Definition ResumeTransfer (d : TransferDirection) (mid : Z) (e : engine) : engine :=
  match get d mid e with
  | None => e
  | Some t =>
      if terminal t || negb (t_paused t) then e
      else
        let e := put d mid (with_paused false t) e in
        if negb (t_slot t) then EmitUpdate d mid (PromoteWaiting d e)
        else match d with
        | TRANSFER_UPLOAD => EmitUpdate d mid (ResyncUpload mid e)
        | TRANSFER_DOWNLOAD => EmitUpdate d mid (BeginQuery d mid e)
        end
  end.

Definition CancelTransfer (d : TransferDirection) (mid : Z) (e : engine) : engine :=
  match FindActive d mid e with
  | None => e
  | Some _ => FailTransfer d mid 0 §"cancelled" e
  end.

Definition Reset (e : engine) : engine := Engine ∅ ∅ [] [] false false (e_disk e) (e_tape e) (e_out e).

(** The keys of a map, in some order. *)
Definition ids (m : gmap Z ResourceTransferRuntime) : list Z := (map_to_list m).*1.

Definition resume_one (d : TransferDirection) (e : engine) (mid : Z) : engine :=
  match get d mid e with
  | None => e
  | Some t =>
      if negb (t_slot t) || terminal t || t_paused t then e
      else BeginQuery d mid (put d mid (with_retries 0 (with_reconnect false t)) e)
  end.

Definition OnConnectionAuthenticated (e : engine) : engine :=
  let e := with_conn true false e in
  let e := foldl (resume_one TRANSFER_UPLOAD) e (ids (e_up e)) in
  let e := foldl (resume_one TRANSFER_DOWNLOAD) e (ids (e_down e)) in
  Pump e.

(** [sig_request_reconnect] reaches FileTcpMgr at once, which takes the
    connection down. *)
Definition HandleTimeout (d : TransferDirection) (mid : Z) (e : engine) : engine :=
  match get d mid e with
  | None => e
  | Some t =>
      let t := with_query 0 (with_wire (t_acked t) (with_window [] [] t)) in
      if t_paused t then put d mid t e
      else
        let e := put d mid (with_reconnect true (with_pending false t)) e in
        if e_awaiting e then e
        else OnConnectionDown (emit RequestReconnect (with_conn (e_conn e) true e))
  end.

Definition tick_one (d : TransferDirection) (e : engine) (mid : Z) : engine :=
  match FindActive d mid e with
  | None => e
  | Some t =>
      if bool_decide (t_phase t = TRANSFER_BACKOFF) && (0 <? t_retry_at t) && (t_retry_at t <=? v_now v) then
        if e_conn e then BeginQuery d mid (put d mid (with_retry_at 0 t) e)
        else put d mid (with_retry_at (v_now v + backoff_initial_ms cfg) t) e
      else if bool_decide (t_phase t = TRANSFER_ACTIVE) &&
              match t_inflight t with c :: _ => ack_timeout_ms cfg <=? v_now v - ic_sent c | [] => false end
      then HandleTimeout d mid e
      else if bool_decide (t_phase t = TRANSFER_QUERYING) && (0 <? t_query t) && (ack_timeout_ms cfg <=? v_now v - t_query t)
      then HandleTimeout d mid e
      else e
  end.

Definition OnTick (e : engine) : engine :=
  let e := foldl (tick_one TRANSFER_UPLOAD) e (ids (e_up e)) in
  foldl (tick_one TRANSFER_DOWNLOAD) e (ids (e_down e)).

(** A frame of the server, decoded. *)
Inductive answer :=
  | OnChunkUpload (r : ChunkUploadRsp)
  | OnProgress (r : ProgressRsp)
  | OnDownInfo (r : DownInfoRsp)
  | OnChunkDown (r : ChunkDownRsp)
  | OnInstantProof (r : InstantProofRsp).

Definition OnFrame (a : answer) (e : engine) : engine :=
  match a with
  | OnChunkUpload r => HandleChunkUploadRsp r e
  | OnProgress r => HandleProgressRsp r e
  | OnDownInfo r => HandleDownInfoRsp r e
  | OnChunkDown r => HandleChunkDownRsp r e
  | OnInstantProof r => HandleInstantProofRsp r e
  end.

(** Everything that can happen to the engine. *)
Inductive call :=
  | CallStartUpload (r : UploadRequest)
  | CallStartDownload (r : DownloadRequest)
  | CallPause (d : TransferDirection) (mid : Z)
  | CallResume (d : TransferDirection) (mid : Z)
  | CallCancel (d : TransferDirection) (mid : Z)
  | CallDown
  | CallAuthenticated
  | CallReset
  | CallFrame (a : answer)
  | CallTick.

Definition perform (c : call) (e : engine) : engine :=
  match c with
  | CallStartUpload r => (StartUpload r e).2
  | CallStartDownload r => (StartDownload r e).2
  | CallPause d mid => PauseTransfer d mid e
  | CallResume d mid => ResumeTransfer d mid e
  | CallCancel d mid => CancelTransfer d mid e
  | CallDown => OnConnectionDown e
  | CallAuthenticated => OnConnectionAuthenticated e
  | CallReset => Reset e
  | CallFrame a => OnFrame a e
  | CallTick => OnTick e
  end.

End engine.
