(* ===== verification/TransferSlots.v ===== *)
(** * Slots of the transfer engine

    In every state the engine (TransferEngine.v) reaches, at most the
    configured number of transfers of a direction hold a slot, a live transfer
    without a slot is in the queue, and a slot is free only if all that wait
    are paused by the user. *)

From S2P Require Import Prelude ProtocolIds ResourceWire Sha256 ResourceTransfer TransferEngine.

(** ** Access *)

Lemma MapFor_with_map d d' m e : MapFor d (with_map d' m e) = if decide (d = d') then m else MapFor d e.
Proof. by destruct d, d'. Qed.

Lemma get_put d mid t e : get d mid (put d mid t e) = Some t.
Proof. unfold get, put. rewrite MapFor_with_map, decide_True by done. apply lookup_insert_eq. Qed.

Lemma get_put_ne d mid d' mid' t e : (d, mid) ≠ (d', mid') → get d mid (put d' mid' t e) = get d mid e.
Proof.
  intros Hne. unfold get, put. rewrite MapFor_with_map. case_decide as Hd; [| done]. subst d'.
  apply lookup_insert_ne. congruence.
Qed.

Lemma get_put_case d mid d' mid' t e :
  get d mid (put d' mid' t e) = if decide ((d, mid) = (d', mid')) then Some t else get d mid e.
Proof. case_decide as Hd; [injection Hd as -> ->; apply get_put | by apply get_put_ne]. Qed.

Lemma get_upd_case d mid d' mid' f e :
  get d mid (upd d' mid' f e) = if decide ((d, mid) = (d', mid')) then f <$> get d mid e else get d mid e.
Proof.
  unfold get, upd. rewrite MapFor_with_map. case_decide as Hd; case_decide as Hd2; try (injection Hd2 as -> ->); subst.
  - apply lookup_alter_eq.
  - apply lookup_alter_ne. congruence.
  - done.
  - done.
Qed.

Lemma get_emit d mid o e : get d mid (emit o e) = get d mid e.
Proof. by destruct d. Qed.

Lemma get_EmitUpdate d mid d' mid' e : get d mid (EmitUpdate d' mid' e) = get d mid e.
Proof. unfold EmitUpdate. case_match; [apply get_emit | done]. Qed.

(** The rest of the engine, apart from the maps. *)
Lemma conn_put d mid t e : e_conn (put d mid t e) = e_conn e.
Proof. by destruct d. Qed.
Lemma conn_upd d mid f e : e_conn (upd d mid f e) = e_conn e.
Proof. by destruct d. Qed.
Lemma conn_EmitUpdate d mid e : e_conn (EmitUpdate d mid e) = e_conn e.
Proof. unfold EmitUpdate. by case_match. Qed.

Lemma get_OnConnectionDown d mid e : get d mid (OnConnectionDown e) = cut_off <$> get d mid e.
Proof. unfold OnConnectionDown, get. destruct d; cbn; apply lookup_fmap. Qed.

Lemma io_spec e o e' : io e = (o, e') →
  e_conn e' = e_conn e ∧ e_awaiting e' = e_awaiting e ∧ e_disk e' = e_disk e ∧ e_out e' = e_out e ∧
  (∀ d, MapFor d e' = MapFor d e) ∧ ∀ d, WaitFor d e' = WaitFor d e.
Proof. unfold io. destruct (tape_next (e_tape e)) as [o1 t]. intros [= <- <-]. split_and!; try done; by intros []. Qed.

(** A frame either leaves the transfers as they are, or takes the connection
    down. *)
Lemma send_cases f e :
  (e_conn (send f e) = e_conn e ∧ (∀ d mid, get d mid (send f e) = get d mid e) ∧
   (e_conn e = true → e_out (send f e) = e_out e ++ [Frame f])) ∨
  (e_conn e = true ∧ e_conn (send f e) = false ∧ ∀ d mid, get d mid (send f e) = cut_off <$> get d mid e).
Proof.
  unfold send. destruct (e_conn e) eqn:Ec; cbn [negb]; [| by left].
  destruct (io (emit (Frame f) e)) as [o e1] eqn:E. apply io_spec in E as (E1 & _ & _ & E2 & E3 & _).
  assert (Hg : ∀ d mid, get d mid e1 = get d mid e) by (intros d mid; unfold get; rewrite E3; by destruct d).
  destruct (io_ok o).
  - left. by rewrite E1, E2.
  - right. split; [done |]. split; [done |]. intros d mid. by rewrite get_OnConnectionDown, Hg.
Qed.

(** ** What the slots depend on *)

Definition slot_view (t : ResourceTransferRuntime) : bool * bool * bool := (t_slot t, t_paused t, terminal t).

Definition views (d : TransferDirection) (e : engine) : gmap Z (bool * bool * bool) := slot_view <$> MapFor d e.

Definition same_slots (e e' : engine) : Prop := ∀ d, views d e' = views d e ∧ WaitFor d e' = WaitFor d e.

#[global] Instance same_slots_preorder : PreOrder same_slots.
Proof.
  split; [done |]. intros e1 e2 e3 H1 H2 d. destruct (H1 d), (H2 d). split; congruence.
Qed.

Lemma same_slots_put d mid t t' e : get d mid e = Some t → slot_view t' = slot_view t → same_slots e (put d mid t' e).
Proof.
  intros Hg Hv d'. unfold views, put. rewrite MapFor_with_map. split; [| by destruct d, d'].
  case_decide as Hd; [| done]. subst d'. rewrite fmap_insert, Hv. apply insert_id. unfold get in Hg. by rewrite lookup_fmap, Hg.
Qed.

Lemma same_slots_upd d mid f e : (∀ t, slot_view (f t) = slot_view t) → same_slots e (upd d mid f e).
Proof.
  intros Hf d'. unfold views, upd. rewrite MapFor_with_map. split; [| by destruct d, d'].
  case_decide as Hd; [| done]. subst d'. apply map_eq. intros k. rewrite !lookup_fmap.
  destruct (decide (k = mid)) as [-> |]; [rewrite lookup_alter_eq | by rewrite lookup_alter_ne].
  destruct (MapFor d e !! mid); cbn; [by rewrite Hf | done].
Qed.

Lemma same_slots_emit o e : same_slots e (emit o e).
Proof. by intros []. Qed.

Lemma same_slots_EmitUpdate d mid e : same_slots e (EmitUpdate d mid e).
Proof. unfold EmitUpdate. case_match; [apply same_slots_emit | done]. Qed.

Lemma slot_view_cut_off t : slot_view (cut_off t) = slot_view t.
Proof. unfold cut_off. by destruct (terminal t) eqn:E. Qed.

Lemma same_slots_down e : same_slots e (OnConnectionDown e).
Proof.
  intros d. unfold views. split; [| by destruct d]. destruct d; cbn; rewrite <- map_fmap_compose; apply map_fmap_ext;
    intros k t _; apply slot_view_cut_off.
Qed.

Lemma same_slots_io e : same_slots e (io e).2.
Proof. unfold io. destruct (tape_next _). by intros []. Qed.

Lemma same_slots_disk disk e : same_slots e (with_disk disk e).
Proof. by intros []. Qed.

Lemma same_slots_send f e : same_slots e (send f e).
Proof.
  unfold send. destruct (e_conn e); cbn [negb]; [| done].
  pose proof (same_slots_io (emit (Frame f) e)) as Hio. destruct (io _) as [o e1]. cbn in Hio.
  assert (Hs : same_slots e e1) by (etransitivity; [apply (same_slots_emit (Frame f)) | exact Hio]).
  destruct (io_ok o); [done |]. etransitivity; [exact Hs | apply same_slots_down].
Qed.

Section slots.
Context `{Sha256Lib} (cfg : Config) (v : env).

Lemma same_slots_BeginQuery d mid e t : get d mid e = Some t → terminal t = false → same_slots e (BeginQuery v d mid e).
Proof.
  intros Hg Hl. unfold BeginQuery. rewrite Hg.
  assert (Hput : ∀ t', slot_view t' = (t_slot t, t_paused t, false) → same_slots e (put d mid t' e)).
  { intros t' Ht'. eapply same_slots_put; [done |]. unfold slot_view at 2. by rewrite Hl. }
  destruct (negb (e_conn e) || t_paused _); [by apply Hput |].
  destruct d; (etransitivity; [| apply same_slots_send]); by apply Hput.
Qed.

(** A turn of the promotion grants one slot. *)
Lemma same_slots_grant d mid e t : get d mid e = Some t → terminal t = false →
  same_slots (upd d mid (with_slot true) e) (EmitUpdate d mid (BeginQuery v d mid (upd d mid (with_slot true) e))).
Proof.
  intros Hg Hl. etransitivity; [| apply same_slots_EmitUpdate].
  apply (same_slots_BeginQuery _ _ _ (with_slot true t)); [| done]. by rewrite get_upd_case, decide_True, Hg.
Qed.

(** ** The invariant *)

Definition counted (w : bool * bool * bool) : bool := let '(s, _, f) := w in s && negb f.

Lemma ActiveCount_views d e : ActiveCount d e = Z.of_nat (size (filter (λ kv, counted kv.2 = true) (views d e))).
Proof. unfold ActiveCount, views. rewrite map_filter_fmap, map_size_fmap. done. Qed.

Definition waiting_at (e : engine) (d : TransferDirection) (mid : Z) (paused : bool) : Prop :=
  views d e !! mid = Some (false, paused, false).

Record slots_pre (d : TransferDirection) (e : engine) : Prop := {
  sp_count : ActiveCount d e <= limit cfg d;
  sp_wait : ∀ mid p, waiting_at e d mid p → mid ∈ WaitFor d e;
}.

Record slots_ok (d : TransferDirection) (e : engine) : Prop := {
  so_pre : slots_pre d e;
  so_full : ActiveCount d e < limit cfg d → ∀ mid p, waiting_at e d mid p → p = true;
}.

Lemma slots_pre_same d e e' : same_slots e e' → slots_pre d e → slots_pre d e'.
Proof.
  intros Hs [H1 H2]. destruct (Hs d) as [Hv Hw]. split.
  - by rewrite ActiveCount_views, Hv, <- ActiveCount_views.
  - unfold waiting_at. rewrite Hv, Hw. done.
Qed.

Lemma slots_ok_same d e e' : same_slots e e' → slots_ok d e → slots_ok d e'.
Proof.
  intros Hs [H1 H2]. destruct (Hs d) as [Hv Hw]. split; [by eapply slots_pre_same |].
  rewrite ActiveCount_views, Hv, <- ActiveCount_views. unfold waiting_at. by rewrite Hv.
Qed.

(** *** Promotion *)

Lemma pick_waiting_spec m wait l p : pick_waiting m wait = (l, p) →
  (∀ id t, id ∈ wait → m !! id = Some t → terminal t = false → t_slot t = false → p ≠ Some id → id ∈ l) ∧
  match p with
  | Some id => (length l < length wait)%nat ∧ ∃ t, m !! id = Some t ∧ terminal t = false ∧ t_slot t = false
  | None => ∀ id t, id ∈ wait → m !! id = Some t → terminal t = false → t_slot t = false → t_paused t = true
  end.
Proof.
  revert l p. induction wait as [| i wait IH]; intros l p; cbn [pick_waiting].
  { intros [= <- <-]. split; intros ? ? Hin; by apply not_elem_of_nil in Hin. }
  assert (Hdrop : ∀ l p, (∀ t, m !! i = Some t → terminal t = false → t_slot t = false → False) → pick_waiting m wait = (l, p) →
    (∀ id t, id ∈ i :: wait → m !! id = Some t → terminal t = false → t_slot t = false → p ≠ Some id → id ∈ l) ∧
    match p with
    | Some id => (length l < length (i :: wait))%nat ∧ ∃ t, m !! id = Some t ∧ terminal t = false ∧ t_slot t = false
    | None => ∀ id t, id ∈ i :: wait → m !! id = Some t → terminal t = false → t_slot t = false → t_paused t = true
    end).
  { intros l0 p0 Hi Hp. destruct (IH _ _ Hp) as [H1 H2]. split.
    - intros id t [-> | Hin]%elem_of_cons Ht Hl Hs Hne; [destruct (Hi t Ht Hl Hs) | by eapply H1].
    - destruct p0; [destruct H2; split; [cbn; lia | done] |].
      intros id t [-> | Hin]%elem_of_cons Ht Hl Hs; [destruct (Hi t Ht Hl Hs) | by eapply H2]. }
  destruct (m !! i) as [t |] eqn:Ei; [| by apply Hdrop].
  destruct (terminal t || t_slot t) eqn:E.
  { apply Hdrop. intros t' [= <-] Hl Hs. by rewrite Hl, Hs in E. }
  apply orb_false_iff in E as [E1 E2]. destruct (t_paused t) eqn:E3.
  - destruct (pick_waiting m wait) as [l0 p0] eqn:Ep. intros [= <- <-]. destruct (IH _ _ eq_refl) as [H1 H2]. split.
    + intros id t' [-> | Hin]%elem_of_cons Ht Hl Hs Hne; [left | right; by eapply H1].
    + destruct p0; [destruct H2; split; [cbn; lia | done] |].
      intros id t' [-> | Hin]%elem_of_cons Ht Hl Hs; [congruence | by eapply H2].
  - intros [= <- <-]. split.
    + intros id t' [-> | Hin]%elem_of_cons Ht Hl Hs Hne; done.
    + split; [cbn; lia | by exists t].
Qed.

Lemma views_upd_slot d mid t e : get d mid e = Some t →
  views d (upd d mid (with_slot true) e) = <[mid := (true, t_paused t, terminal t)]> (views d e).
Proof.
  intros Hg. unfold views, upd. rewrite MapFor_with_map, decide_True by done. apply map_eq. intros k. rewrite lookup_fmap.
  destruct (decide (k = mid)) as [-> |].
  - rewrite lookup_alter_eq, lookup_insert_eq. unfold get in Hg. by rewrite Hg.
  - by rewrite lookup_alter_ne, lookup_insert_ne, lookup_fmap.
Qed.

(** Granting a slot counts one more. *)
Lemma counted_insert (m : gmap Z (bool * bool * bool)) k w w' :
  m !! k = Some w → counted w = false →
  size (filter (λ kv, counted kv.2 = true) (<[k := w']> m)) =
  (if counted w' then S (size (filter (λ kv, counted kv.2 = true) m)) else size (filter (λ kv, counted kv.2 = true) m)).
Proof.
  intros Hk Hw. assert (Hn : filter (λ kv, counted kv.2 = true) m !! k = None).
  { apply map_lookup_filter_None. right. intros x Hx. cbn. congruence. }
  destruct (counted w') eqn:E.
  - rewrite map_filter_insert_True by done. by rewrite map_size_insert_None.
  - rewrite map_filter_insert_False by (cbn; congruence). f_equal. apply map_filter_delete_not. intros x Hx. cbn. congruence.
Qed.

Lemma views_with_wait d d' l e : views d (with_wait d' l e) = views d e.
Proof. by destruct d, d'. Qed.

Lemma WaitFor_with_wait d l e : WaitFor d (with_wait d l e) = l.
Proof. by destruct d. Qed.

Lemma WaitFor_upd d d' mid f e : WaitFor d (upd d' mid f e) = WaitFor d e.
Proof. by destruct d, d'. Qed.

(** One turn of the promotion. *)
Lemma promote_turn d id e l t e' :
  slots_pre d e → ActiveCount d e < limit cfg d → pick_waiting (MapFor d e) (WaitFor d e) = (l, Some id) →
  get d id e = Some t → terminal t = false → t_slot t = false →
  same_slots (upd d id (with_slot true) (with_wait d l e)) e' → slots_pre d e'.
Proof.
  intros [H1 H2] Hlt Hp Hg Hl Hsl Hs. eapply slots_pre_same; [exact Hs |]. apply pick_waiting_spec in Hp as [Hp _].
  assert (Hg' : get d id (with_wait d l e) = Some t) by (by destruct d).
  assert (Hv : views d e !! id = Some (false, t_paused t, false)).
  { unfold views. rewrite lookup_fmap. unfold get in Hg. rewrite Hg. cbn. unfold slot_view. by rewrite Hsl, Hl. }
  split.
  - rewrite ActiveCount_views, (views_upd_slot _ _ t), views_with_wait by done. rewrite (counted_insert _ _ _ _ Hv) by done.
    cbn. rewrite Hl. cbn. rewrite ActiveCount_views in Hlt. lia.
  - intros mid p. unfold waiting_at. rewrite (views_upd_slot _ _ t), views_with_wait by done.
    rewrite WaitFor_upd, WaitFor_with_wait. intros Hw.
    destruct (decide (mid = id)) as [-> | Hne]; [rewrite lookup_insert_eq in Hw; congruence |]. rewrite lookup_insert_ne in Hw by done.
    assert (Hin : mid ∈ WaitFor d e) by by eapply H2. unfold views in Hw. rewrite lookup_fmap, fmap_Some in Hw.
    destruct Hw as (t' & Ht' & [= E1 E2 E3]). eapply Hp; [done | done | done | done | congruence].
Qed.

Lemma promote_spec fuel d e :
  slots_pre d e → (length (WaitFor d e) <= fuel)%nat → slots_ok d (promote cfg v fuel d e).
Proof.
  revert e. induction fuel as [| fuel IH]; intros e He Hf; cbn [promote].
  - split; [done |]. intros _ mid p Hw. apply (sp_wait _ _ He) in Hw. destruct (WaitFor d e); [by apply not_elem_of_nil in Hw | cbn in Hf; lia].
  - destruct (negb (ActiveCount d e <? limit cfg d)) eqn:E1; cbn [orb].
    { split; [done |]. intros Hlt. apply Z.ltb_lt in Hlt. by rewrite Hlt in E1. }
    apply negb_false_iff, Z.ltb_lt in E1. case_bool_decide as E2.
    { split; [done |]. intros _ mid p Hw. apply (sp_wait _ _ He) in Hw. rewrite E2 in Hw. by apply not_elem_of_nil in Hw. }
    destruct (pick_waiting (MapFor d e) (WaitFor d e)) as [l p] eqn:Ep. pose proof (pick_waiting_spec _ _ _ _ Ep) as [P1 P2].
    destruct p as [id |].
    + destruct P2 as (Hlen & t & Ht & Hl & Hsl).
      assert (Hs : same_slots (upd d id (with_slot true) (with_wait d l e))
        (EmitUpdate d id (BeginQuery v d id (upd d id (with_slot true) (with_wait d l e))))).
      { apply (same_slots_grant _ _ _ t); [by destruct d | done]. }
      apply IH; [by eapply promote_turn |]. destruct (Hs d) as [_ ->]. rewrite WaitFor_upd, WaitFor_with_wait. lia.
    + assert (Hno : ∀ mid p, waiting_at e d mid p → p = true ∧ mid ∈ l).
      { intros mid p Hw. pose proof (sp_wait _ _ He _ _ Hw) as Hin. unfold waiting_at, views in Hw.
        rewrite lookup_fmap, fmap_Some in Hw. destruct Hw as (t' & Ht' & [= F1 F2 F3]).
        split; [rewrite F2; by eapply P2 | by eapply P1]. }
      split.
      * split; [rewrite ActiveCount_views, views_with_wait, <- ActiveCount_views; lia |].
        intros mid p. unfold waiting_at. rewrite views_with_wait, WaitFor_with_wait. by intros [? ?]%Hno.
      * intros _ mid p. unfold waiting_at. rewrite views_with_wait. by intros [? ?]%Hno.
Qed.

(** The other direction is not concerned. *)
Definition same_side (d : TransferDirection) (e e' : engine) : Prop := views d e' = views d e ∧ WaitFor d e' = WaitFor d e.

Lemma slots_ok_side d e e' : same_side d e e' → slots_ok d e → slots_ok d e'.
Proof.
  intros [Hv Hw] [[H1 H2] H3]. unfold waiting_at in *.
  split; [split |]; rewrite ?ActiveCount_views, ?Hv, <- ?ActiveCount_views; unfold waiting_at; rewrite ?Hv, ?Hw; done.
Qed.

Lemma promote_side d d' fuel e : d ≠ d' → same_side d e (promote cfg v fuel d' e).
Proof.
  intros Hd. revert e. induction fuel as [| fuel IH]; intros e; cbn [promote]; [done |].
  destruct (negb _ || _); [done |]. destruct (pick_waiting _ _) as [l [id |]] eqn:Ep; [| by destruct d, d'].
  apply pick_waiting_spec in Ep as (_ & _ & t & Ht & Hl & _).
  set (e1 := upd d' id (with_slot true) (with_wait d' l e)).
  assert (Hs : same_slots e1 (EmitUpdate d' id (BeginQuery v d' id e1)))
    by (apply (same_slots_grant _ _ _ t); [by destruct d' | done]).
  destruct (IH (EmitUpdate d' id (BeginQuery v d' id e1))) as [I1 I2]. destruct (Hs d) as [S1 S2].
  split; [etransitivity; [exact I1 |]; etransitivity; [exact S1 |] | etransitivity; [exact I2 |]; etransitivity; [exact S2 |]];
    by destruct d, d'.
Qed.

Definition slots (e : engine) : Prop := ∀ d, slots_ok d e.

Lemma slots_same e e' : same_slots e e' → slots e → slots e'.
Proof. intros Hs He d. by eapply slots_ok_same. Qed.

(** A change on one side, and the promotion that follows it. *)
Lemma slots_promote d e e' :
  slots e → slots_pre d e' → (∀ d', d' ≠ d → same_side d' e e') → slots (PromoteWaiting cfg v d e').
Proof.
  intros He Hp Hs d'. destruct (decide (d' = d)) as [-> | Hne].
  - by apply promote_spec.
  - eapply slots_ok_side; [| apply He]. destruct (Hs d' Hne) as [E1 E2].
    destruct (promote_side d' d (length (WaitFor d e')) e') as [F1 F2]; [done |]. unfold PromoteWaiting. split; congruence.
Qed.

Lemma slots_terminal d mid t' e : slots e → terminal t' = true → slots_pre d (put d mid t' e).
Proof.
  intros He Ht. destruct (He d) as [[H1 H2] _].
  assert (Hv : views d (put d mid t' e) = <[mid := slot_view t']> (views d e)).
  { unfold views, put. rewrite MapFor_with_map, decide_True by done. apply fmap_insert. }
  assert (Hw : WaitFor d (put d mid t' e) = WaitFor d e) by by destruct d.
  split.
  - rewrite ActiveCount_views, Hv. rewrite ActiveCount_views in H1. etransitivity; [| exact H1]. apply Nat2Z.inj_le.
    rewrite map_filter_insert_False by (cbn; by rewrite Ht, andb_false_r). rewrite map_filter_delete, map_size_delete.
    destruct (filter _ _ !! mid); cbn; lia.
  - intros k p. unfold waiting_at. rewrite Hv, Hw. intros Hk. destruct (decide (k = mid)) as [-> |].
    + rewrite lookup_insert_eq in Hk. unfold slot_view in Hk. congruence.
    + rewrite lookup_insert_ne in Hk by done. by eapply H2.
Qed.

Lemma same_side_put d d' mid t e : d' ≠ d → same_side d' e (put d mid t e).
Proof. intros Hne. unfold same_side, views, put. rewrite MapFor_with_map, decide_False by done. by destruct d, d'. Qed.

(** A transfer ends. *)
Lemma slots_end d mid t' o e :
  slots e → terminal t' = true → slots (PromoteWaiting cfg v d (emit o (put d mid t' e))).
Proof.
  intros He Ht. apply (slots_promote d e); [done | |].
  - eapply slots_pre_same; [apply same_slots_emit | by apply slots_terminal].
  - intros d' Hne. destruct (same_side_put d d' mid t' e Hne) as [E1 E2]. destruct (same_slots_emit o (put d mid t' e) d') as [F1 F2].
    split; congruence.
Qed.

Lemma slots_FailTransfer d mid code text e : slots e → slots (FailTransfer cfg v d mid code text e).
Proof. intros He. unfold FailTransfer. destruct (get d mid e); [by apply slots_end | done]. Qed.

Lemma slots_CompleteTransfer d mid seq e : slots e → slots (CompleteTransfer cfg v d mid seq e).
Proof. intros He. unfold CompleteTransfer. destruct (get d mid e); [by apply slots_end | done]. Qed.

(** *** Operations on one transfer *)

(** The slots are in order and the transfer has this view. *)
Definition held (d : TransferDirection) (mid : Z) (w : bool * bool * bool) (e : engine) : Prop :=
  slots e ∧ views d e !! mid = Some w.

Lemma held_slots d mid w e : held d mid w e → slots e.
Proof. by intros [? _]. Qed.

Lemma held_same d mid w e e' : same_slots e e' → held d mid w e → held d mid w e'.
Proof. intros Hs [He Hv]. split; [by eapply slots_same | by destruct (Hs d) as [-> _]]. Qed.

Lemma held_get d mid t e : slots e → get d mid e = Some t → held d mid (slot_view t) e.
Proof. intros He Hg. split; [done |]. unfold views. rewrite lookup_fmap. unfold get in Hg. by rewrite Hg. Qed.

Lemma held_view d mid w t e : held d mid w e → get d mid e = Some t → slot_view t = w.
Proof. intros [_ Hv] Hg. unfold views in Hv. rewrite lookup_fmap in Hv. unfold get in Hg. rewrite Hg in Hv. by injection Hv. Qed.

Lemma held_Some d mid w e : held d mid w e → ∃ t, get d mid e = Some t ∧ slot_view t = w.
Proof. intros [_ Hv]. unfold views in Hv. rewrite lookup_fmap, fmap_Some in Hv. destruct Hv as (t & Ht & ->). by exists t. Qed.

Lemma held_put d mid w t' e : held d mid w e → slot_view t' = w → held d mid w (put d mid t' e).
Proof.
  intros Hh Ht. destruct (held_Some _ _ _ _ Hh) as (t & Hg & Hw). eapply held_same; [| exact Hh].
  eapply same_slots_put; [done | congruence].
Qed.

Lemma held_upd d mid w f e : held d mid w e → (∀ t, slot_view t = w → slot_view (f t) = w) → held d mid w (upd d mid f e).
Proof.
  intros Hh Hf. destruct (held_Some _ _ _ _ Hh) as (t & Hg & Hw). eapply held_same; [| exact Hh].
  assert (E : upd d mid f e = put d mid (f t) e).
  { unfold upd, put. f_equal. apply map_eq. intros k. unfold get in Hg.
    destruct (decide (k = mid)) as [-> |]; [by rewrite lookup_alter_eq, lookup_insert_eq, Hg | by rewrite lookup_alter_ne, lookup_insert_ne]. }
  rewrite E. eapply same_slots_put; [done |]. rewrite Hw. by apply Hf.
Qed.

Lemma held_EmitUpdate d mid w d' mid' e : held d mid w e → held d mid w (EmitUpdate d' mid' e).
Proof. apply held_same, same_slots_EmitUpdate. Qed.

Lemma held_send d mid w f e : held d mid w e → held d mid w (send f e).
Proof. apply held_same, same_slots_send. Qed.

Lemma held_disk d mid w disk e : held d mid w e → held d mid w (with_disk disk e).
Proof. apply held_same, same_slots_disk. Qed.

Lemma held_BeginQuery d mid s p e : held d mid (s, p, false) e → held d mid (s, p, false) (BeginQuery v d mid e).
Proof.
  intros Hh. destruct (held_Some _ _ _ _ Hh) as (t & Hg & Hw). eapply held_same; [| exact Hh].
  eapply same_slots_BeginQuery; [done |]. by injection Hw.
Qed.

Lemma slots_EmitUpdate d mid e : slots e → slots (EmitUpdate d mid e).
Proof. apply slots_same, same_slots_EmitUpdate. Qed.

Lemma slots_SendNextChunk d mid e : slots e → slots (SendNextChunk cfg v d mid e).2.
Proof.
  intros He. unfold SendNextChunk. destruct (get d mid e) as [t |] eqn:Hg; [| done].
  destruct (_ || _); [done |]. pose proof (held_get _ _ _ _ He Hg) as Hh.
  destruct d; [destruct (read_source _ _ _ _); [by apply slots_FailTransfer |] |]; cbn [snd];
    eapply held_slots, held_send, held_put; done.
Qed.

Lemma slots_pump fuel e : slots e → slots (pump cfg v fuel e).
Proof.
  revert e. induction fuel as [| fuel IH]; intros e He; cbn [pump]; [done |].
  destruct (fewest _ _ _) as [[[d mid] n] |]; [| done].
  pose proof (slots_SendNextChunk d mid e He) as Hs. destruct (SendNextChunk cfg v d mid e) as [[] e']; [by apply IH | done].
Qed.

Lemma slots_Pump e : slots e → slots (Pump cfg v e).
Proof. intros He. unfold Pump. destruct (negb _); [done | by apply slots_pump]. Qed.

(** *** Handlers *)

(** A live transfer: changes that keep it live, unpaused or not, in its slot. *)
Definition steady (f : ResourceTransferRuntime → ResourceTransferRuntime) : Prop :=
  ∀ t s p, slot_view t = (s, p, false) → slot_view (f t) = (s, p, false).

Ltac steady := intros t0 s0 p0 Hw0; first [exact Hw0 | unfold slot_view in Hw0 |- *; cbn; injection Hw0 as E1 E2 _; congruence].

Lemma held_upd_steady d mid s p f e : steady f → held d mid (s, p, false) e → held d mid (s, p, false) (upd d mid f e).
Proof. intros Hf Hh. apply held_upd; [done |]. intros t. apply Hf. Qed.

Lemma steady_ScheduleBackoff : steady (ScheduleBackoff cfg v).
Proof. steady. Qed.

Lemma steady_Rollback so : steady (RollbackUploadTo so).
Proof. steady. Qed.

Lemma slots_backoff d mid s p e : held d mid (s, p, false) e → slots (backoff cfg v d mid e).
Proof. intros Hh. eapply held_slots, held_EmitUpdate, held_upd_steady; [apply steady_ScheduleBackoff | exact Hh]. Qed.

Lemma slots_bad_answer d mid s p t text again e :
  held d mid (s, p, false) e → (∀ e', held d mid (s, p, false) e' → slots (again e')) → slots (bad_answer cfg v d mid t text again e).
Proof.
  intros Hh Ha. unfold bad_answer. assert (Hh' : held d mid (s, p, false) (upd d mid (with_json (k_json (t_count t) + 1)) e)).
  { apply held_upd_steady; [steady | done]. }
  case_match; [by eapply slots_FailTransfer, held_slots | by apply Ha].
Qed.

Lemma slots_rollback_backoff mid s p to e : held TRANSFER_UPLOAD mid (s, p, false) e → slots (rollback_backoff cfg v mid to e).
Proof. intros Hh. eapply slots_backoff, held_upd_steady; [apply steady_Rollback | exact Hh]. Qed.

Lemma slots_HandleUploadError mid s p error so e :
  held TRANSFER_UPLOAD mid (s, p, false) e → slots (HandleUploadError cfg v mid error so e).
Proof.
  intros Hh. pose proof (held_slots _ _ _ _ Hh) as He. unfold HandleUploadError.
  destruct (get TRANSFER_UPLOAD mid e) as [t |]; [| done].
  destruct (IsPermanentError error); [by apply slots_FailTransfer |].
  destruct (error =? ResourceErrCode_code RS_FILE_CONTENT_MISMATCH).
  { unfold VerifySourceHashOn2117. destruct (negb _); [by apply slots_FailTransfer |].
    destruct (v_whole v _); [| by apply slots_FailTransfer].
    destruct (negb _); [by apply slots_FailTransfer | by eapply slots_rollback_backoff]. }
  destruct (IsRollbackError error).
  - destruct (chunk_retry_limit cfg <=? _).
    + eapply slots_backoff, held_upd_steady; [| exact Hh]. steady.
    + apply slots_EmitUpdate, slots_Pump. eapply held_slots, held_upd_steady; [| exact Hh]. steady.
  - destruct ((error =? _) || _); [| by eapply slots_rollback_backoff].
    eapply slots_bad_answer; [exact Hh |]. intros e' Hh'. by eapply slots_rollback_backoff.
Qed.

Lemma held_ResyncUpload mid s p e : held TRANSFER_UPLOAD mid (s, p, false) e → held TRANSFER_UPLOAD mid (s, p, false) (ResyncUpload v mid e).
Proof. intros Hh. apply held_BeginQuery, held_upd_steady; [steady | done]. Qed.

Lemma slots_MaybeResendLastChunk mid s p e :
  held TRANSFER_UPLOAD mid (s, p, false) e → slots (MaybeResendLastChunk cfg v mid e).
Proof.
  intros Hh. pose proof (held_slots _ _ _ _ Hh) as He. unfold MaybeResendLastChunk.
  destruct (get TRANSFER_UPLOAD mid e) as [t |] eqn:Hg; [| done]. pose proof (held_view _ _ _ _ _ Hh Hg) as Hw.
  destruct (t_paused t); [done |].
  destruct (chunk_retry_limit cfg <=? _); [eapply slots_backoff, held_upd_steady; [| exact Hh]; steady |].
  destruct (negb (t_source t)); [by apply slots_FailTransfer |].
  set (t1 := with_publish _ t). assert (Hh1 : held TRANSFER_UPLOAD mid (s, p, false) (put TRANSFER_UPLOAD mid t1 e))
    by by apply held_put.
  destruct (read_source _ _ _ _); [by eapply slots_FailTransfer, held_slots |].
  eapply held_slots, held_EmitUpdate, held_send, held_put; [exact Hh1 |].
  unfold slot_view in *. cbn. by injection Hw as -> -> _.
Qed.

Lemma FindActive_held d mid t e : slots e → FindActive d mid e = Some t →
  ∃ s p, slot_view t = (s, p, false) ∧ held d mid (s, p, false) e.
Proof.
  intros He. unfold FindActive. destruct (get d mid e) as [t' |] eqn:Hg; [| done]. destruct (terminal t') eqn:Ht; [done |].
  intros [= <-]. exists (t_slot t'), (t_paused t'). assert (Hv : slot_view t' = (t_slot t', t_paused t', false)).
  { unfold slot_view. by rewrite Ht. }
  split; [done |]. rewrite <- Hv. by apply held_get.
Qed.

Lemma slots_HandleChunkUploadRsp r e : slots e → slots (HandleChunkUploadRsp cfg v r e).
Proof.
  intros He. unfold HandleChunkUploadRsp. destruct (FindActive _ _ e) as [t |] eqn:Hf; [| done].
  destruct (FindActive_held _ _ _ _ He Hf) as (s & p & Hw & Hh). destruct (idle_query t); [done |].
  destruct (drains _ t); [by eapply held_slots, held_put |].
  destruct (negb (heads _ t)).
  { destruct (late _ t); [done |]. eapply slots_EmitUpdate, held_slots, held_ResyncUpload. exact Hh. }
  set (t1 := with_window _ _ t). set (e1 := put _ _ t1 e).
  assert (Hh1 : held TRANSFER_UPLOAD (cu_message r) (s, p, false) e1) by by apply held_put.
  destruct (negb (cu_ok r)); [eapply slots_bad_answer; [exact Hh1 | intros; by eapply slots_backoff] |].
  destruct (negb (cu_error r =? 0)); [by eapply slots_HandleUploadError |].
  set (t2 := if t_acked _ <? _ then _ else _).
  assert (Hw2 : slot_view t2 = (s, p, false)) by (unfold t2; by case_match).
  assert (Hh2 : held TRANSFER_UPLOAD (cu_message r) (s, p, false) (put TRANSFER_UPLOAD (cu_message r) t2 e1)) by by apply held_put.
  destruct (cu_status r =? _); [by eapply slots_CompleteTransfer, held_slots |].
  destruct (t_total t2 <=? _); [by eapply slots_MaybeResendLastChunk |].
  eapply slots_EmitUpdate, slots_Pump, held_slots, held_put; [exact Hh2 |].
  unfold slot_view in Hw2 |- *. cbn. by injection Hw2 as -> -> _.
Qed.

Lemma slots_SendInstantProof mid s p t nonce off len e :
  slot_view t = (s, p, false) → held TRANSFER_UPLOAD mid (s, p, false) e → slots (SendInstantProof cfg v mid t nonce off len e).
Proof.
  intros Hw Hh. unfold SendInstantProof. destruct (negb (challenge_ok _ _ _ _)).
  { eapply slots_bad_answer; [exact Hh | intros; by eapply slots_backoff]. }
  destruct (read_source _ _ _ _); [by eapply slots_FailTransfer, held_slots |].
  set (e' := send _ _). assert (Hs : slots e').
  { eapply held_slots, held_send, held_put; [exact Hh |]. unfold slot_view in *. cbn. by injection Hw as -> -> _. }
  destruct (get _ _ e'); [| done]. destruct (t_proof_pending _); [by apply slots_EmitUpdate | done].
Qed.

Lemma slots_continue_upload mid s p r so e :
  held TRANSFER_UPLOAD mid (s, p, false) e → slots (continue_upload cfg v mid r so e).
Proof.
  intros Hh. unfold continue_upload. destruct (get _ _ e) as [t |] eqn:Hg; [| by eapply held_slots].
  pose proof (held_view _ _ _ _ _ Hh Hg) as Hw. destruct (_ && _); [by eapply slots_SendInstantProof |].
  assert (Hh1 : held TRANSFER_UPLOAD mid (s, p, false) (put TRANSFER_UPLOAD mid (with_publish 0 (with_json 0 t)) e)) by by apply held_put.
  destruct (t_total t <=? so); [by eapply slots_MaybeResendLastChunk |]. by eapply slots_EmitUpdate, slots_Pump, held_slots.
Qed.

Lemma slots_HandleProgressRsp r e : slots e → slots (HandleProgressRsp cfg v r e).
Proof.
  intros He. unfold HandleProgressRsp. destruct (FindActive _ _ e) as [t |] eqn:Hf; [| done].
  destruct (FindActive_held _ _ _ _ He Hf) as (s & p & Hw & Hh). destruct (t_proof_pending t); [done |].
  set (e1 := put _ _ (with_query 0 t) e).
  assert (Hh1 : held TRANSFER_UPLOAD (pr_message r) (s, p, false) e1) by by apply held_put.
  pose proof (held_slots _ _ _ _ Hh1) as He1.
  destruct (negb (pr_ok r) || _); [by eapply slots_HandleUploadError |].
  destruct (pr_status r =? kStatusPublished); [by apply slots_CompleteTransfer |].
  destruct (pr_status r =? kStatusFailed); [by apply slots_FailTransfer |].
  destruct (negb (pr_size r =? _)); [by apply slots_FailTransfer |].
  destruct ((0 <? pr_chunk r) && _); [eapply slots_bad_answer; [exact Hh1 | intros; by eapply slots_backoff] |].
  set (t2 := with_phase TRANSFER_ACTIVE _). set (e2 := put _ _ t2 e1).
  assert (Hw2 : slot_view t2 = (s, p, false)) by (unfold slot_view in *; cbn; by injection Hw as -> -> _).
  assert (Hh2 : held TRANSFER_UPLOAD (pr_message r) (s, p, false) e2) by by apply held_put.
  destruct (t_paused t2); [by eapply slots_EmitUpdate, held_slots |].
  unfold EnsureSourceOpen. pose proof (held_slots _ _ _ _ Hh2) as He2.
  destruct (t_source t2); [by eapply slots_continue_upload |].
  destruct (v_size v _); [| by apply slots_FailTransfer].
  destruct (negb _); [by apply slots_FailTransfer |]. destruct (negb _); [by apply slots_FailTransfer |].
  eapply slots_continue_upload, held_upd_steady; [| exact Hh2]. steady.
Qed.

Lemma slots_HandleInstantProofRsp r e : slots e → slots (HandleInstantProofRsp cfg v r e).
Proof.
  intros He. unfold HandleInstantProofRsp. destruct (FindActive _ _ e) as [t |] eqn:Hf; [| done].
  destruct (FindActive_held _ _ _ _ He Hf) as (s & p & Hw & Hh). destruct (negb (t_proof_pending t)); [done |].
  set (t1 := with_query 0 _). set (e1 := put _ _ t1 e).
  assert (Hh1 : held TRANSFER_UPLOAD (ip_message r) (s, p, false) e1) by by apply held_put.
  destruct (negb (ip_ok r)); [by eapply slots_HandleUploadError |].
  destruct (ip_error r =? ResourceErrCode_code RS_INSTANT_PROOF_INVALID).
  { eapply slots_EmitUpdate, held_slots, held_ResyncUpload, held_put; [exact Hh1 | done]. }
  destruct (negb (ip_error r =? 0)); [by eapply slots_HandleUploadError |].
  destruct (negb (ip_status r =? _)); [by eapply slots_HandleUploadError |].
  destruct (_ || _); [by eapply slots_HandleUploadError |].
  eapply slots_CompleteTransfer, held_slots, held_put; [exact Hh1 | done].
Qed.

(** *** Downloads *)

Lemma held_io d mid w e o e' : io e = (o, e') → held d mid w e → held d mid w e'.
Proof. intros Hio. apply held_same. pose proof (same_slots_io e) as Hs. by rewrite Hio in Hs. Qed.

Lemma slots_FinishDownload mid s p e : held TRANSFER_DOWNLOAD mid (s, p, false) e → slots (FinishDownload cfg v mid e).
Proof.
  intros Hh. pose proof (held_slots _ _ _ _ Hh) as He. unfold FinishDownload.
  destruct (get _ _ e) as [t |] eqn:Hg; [| done]. pose proof (held_view _ _ _ _ _ Hh Hg) as Hw.
  destruct (negb (t_part t)); [by apply slots_FailTransfer |].
  match goal with |- context [let '(_, _) := ?x in _] => destruct x as [h e1] eqn:E end.
  assert (Hh1 : held TRANSFER_DOWNLOAD mid (s, p, false) e1).
  { destruct (t_hash_valid t); [by injection E as _ <- |]. destruct (io e) as [o e2] eqn:E2.
    apply (held_io _ _ _ _ _ _ E2) in Hh. destruct (negb _); [by injection E as _ <- |]. destruct (io e2) as [o2 e3] eqn:E3.
    apply (held_io _ _ _ _ _ _ E3) in Hh. destruct (negb _); by injection E as _ <-. }
  destruct h as [text | h]; [by eapply slots_FailTransfer, held_slots |].
  destruct (negb _ && negb _).
  { destruct (io e1) as [o e2] eqn:E2. apply (held_io _ _ _ _ _ _ E2) in Hh1. eapply slots_FailTransfer.
    destruct (io_ok o); [by eapply held_slots, held_disk | by eapply held_slots]. }
  match goal with |- context [let '(_, _) := ?x in _] => destruct x as [o e2] eqn:E2 end.
  assert (Hh2 : held TRANSFER_DOWNLOAD mid (s, p, false) e2).
  { destruct (bool_decide _); [by eapply held_io | by injection E2 as _ <-]. }
  destruct (negb (io_ok o)); [by eapply slots_FailTransfer, held_slots |].
  destruct (io (with_disk _ e2)) as [o3 e3] eqn:E3. apply (held_disk _ _ _ (delete (dn_path (t_download t)) (e_disk e2))) in Hh2.
  apply (held_io _ _ _ _ _ _ E3) in Hh2. destruct (negb (io_ok o3)); [by eapply slots_FailTransfer, held_slots |].
  eapply slots_CompleteTransfer, held_slots, held_put; [by apply held_disk | done].
Qed.

Lemma slots_OpenDownloadPart mid s p e : held TRANSFER_DOWNLOAD mid (s, p, false) e → slots (OpenDownloadPart cfg v mid e).
Proof.
  intros Hh. pose proof (held_slots _ _ _ _ Hh) as He. unfold OpenDownloadPart.
  destruct (get _ _ e) as [t |] eqn:Hg; [| done]. pose proof (held_view _ _ _ _ _ Hh Hg) as Hw.
  destruct (io e) as [o e1] eqn:E1. apply (held_io _ _ _ _ _ _ E1) in Hh.
  destruct (negb (io_ok o)); [by eapply slots_FailTransfer, held_slots, held_put |].
  match goal with |- context [let '(_, _) := (if ?b then _ else _) in _] => set (resumed := b) end.
  destruct (if resumed then (IoOk, e1) else io e1) as [o2 e2] eqn:E2.
  assert (Hh2 : held TRANSFER_DOWNLOAD mid (s, p, false) e2).
  { destruct resumed; [by injection E2 as _ <- | by eapply held_io]. }
  destruct (negb (io_ok o2)); [by eapply slots_FailTransfer, held_slots, held_put; [apply held_disk |] |].
  set (t1 := with_window [] [] _). set (e3 := put _ _ t1 _).
  assert (Hh3 : held TRANSFER_DOWNLOAD mid (s, p, false) e3) by by apply held_put; [apply held_disk |].
  destruct (_ || _); [by eapply slots_FinishDownload |].
  eapply slots_EmitUpdate, slots_Pump, held_slots, held_put; [exact Hh3 |].
  unfold slot_view in Hw |- *. cbn. by injection Hw as -> -> _.
Qed.

Lemma slots_down_error mid s p error t e :
  held TRANSFER_DOWNLOAD mid (s, p, false) e → slots (down_error cfg v mid error t e).
Proof.
  intros Hh. unfold down_error. destruct (IsPermanentError error); [by eapply slots_FailTransfer, held_slots |].
  destruct (error =? CommonErrCode_code ERR_JSON).
  - eapply slots_bad_answer; [exact Hh | intros; by eapply slots_backoff].
  - by eapply slots_backoff.
Qed.

Lemma slots_HandleDownInfoRsp r e : slots e → slots (HandleDownInfoRsp cfg v r e).
Proof.
  intros He. unfold HandleDownInfoRsp. destruct (FindActive _ _ e) as [t |] eqn:Hf; [| done].
  destruct (FindActive_held _ _ _ _ He Hf) as (s & p & Hw & Hh).
  set (e1 := put _ _ (with_query 0 t) e).
  assert (Hh1 : held TRANSFER_DOWNLOAD (di_message r) (s, p, false) e1) by by apply held_put.
  destruct (_ || _); [by eapply slots_down_error |]. set (t2 := with_json 0 _). set (e2 := put _ _ t2 e1).
  assert (Hh2 : held TRANSFER_DOWNLOAD (di_message r) (s, p, false) e2) by by apply held_put.
  destruct (_ && _); [by eapply slots_FailTransfer, held_slots |].
  eapply slots_OpenDownloadPart, held_put; [exact Hh2 |]. by case_match.
Qed.

Lemma slots_HandleChunkDownRsp r e : slots e → slots (HandleChunkDownRsp cfg v r e).
Proof.
  intros He. unfold HandleChunkDownRsp. destruct (FindActive _ _ e) as [t |] eqn:Hf; [| done].
  destruct (FindActive_held _ _ _ _ He Hf) as (s & p & Hw & Hh). destruct (idle_query t); [done |].
  destruct (drains _ t); [by eapply held_slots, held_put |].
  destruct (negb (cd_ok r) || _).
  { case_match; [| by eapply slots_down_error]. by eapply slots_backoff, held_put. }
  destruct (negb (heads _ t)); [destruct (late _ t); [done | by eapply slots_backoff] |].
  set (t1 := with_window _ _ t). destruct (negb (chunk_valid _ _ _)).
  { destruct (_ <=? _); [by eapply slots_FailTransfer, held_slots, held_put |].
    by eapply slots_EmitUpdate, slots_Pump, held_slots, held_put. }
  set (t2 := with_json 0 _). set (e2 := put _ _ t2 e).
  assert (Hh2 : held TRANSFER_DOWNLOAD (cd_message r) (s, p, false) e2) by by apply held_put.
  destruct (io e2) as [o e3] eqn:E3. apply (held_io _ _ _ _ _ _ E3) in Hh2.
  destruct (_ || _); [by eapply slots_FailTransfer, held_slots |].
  destruct (write_part _ _ e3) as [ok e4] eqn:E4.
  assert (Hh4 : held TRANSFER_DOWNLOAD (cd_message r) (s, p, false) e4).
  { unfold write_part in E4. destruct (io e3) as [o4 e5] eqn:E5. apply (held_io _ _ _ _ _ _ E5) in Hh2.
    destruct o4; injection E4 as _ <-; by apply held_disk. }
  destruct (negb ok); [by eapply slots_FailTransfer, held_slots |].
  set (t5 := landed _ _ t2). assert (Hw5 : slot_view t5 = (s, p, false)) by (unfold t5, landed; by case_match).
  assert (Hh5 : held TRANSFER_DOWNLOAD (cd_message r) (s, p, false) (put TRANSFER_DOWNLOAD (cd_message r) t5 e4)) by by apply held_put.
  destruct (_ <=? _); [by eapply slots_FinishDownload | by eapply slots_EmitUpdate, slots_Pump, held_slots].
Qed.

(** *** Operations *)

Lemma views_put d mid t e : views d (put d mid t e) = <[mid := slot_view t]> (views d e).
Proof. unfold views, put. rewrite MapFor_with_map, decide_True by done. apply fmap_insert. Qed.

Lemma WaitFor_put d d' mid t e : WaitFor d (put d' mid t e) = WaitFor d e.
Proof. by destruct d, d'. Qed.

Lemma views_get_None d mid e : get d mid e = None ↔ views d e !! mid = None.
Proof. unfold get, views. by rewrite lookup_fmap, fmap_None. Qed.

(** A finished transfer is forgotten. *)
Lemma slots_delete d mid e : FindActive d mid e = None → slots e → slots (with_map d (delete mid (MapFor d e)) e).
Proof.
  intros Hf He d'. assert (Hw : WaitFor d' (with_map d (delete mid (MapFor d e)) e) = WaitFor d' e) by by destruct d, d'.
  destruct (decide (d' = d)) as [-> | Hne].
  2: { eapply slots_ok_side; [| apply He]. unfold same_side, views. rewrite MapFor_with_map, decide_False by done. by rewrite Hw. }
  destruct (He d) as [[H1 H2] H3].
  assert (Hv : views d (with_map d (delete mid (MapFor d e)) e) = delete mid (views d e)).
  { unfold views. rewrite MapFor_with_map, decide_True by done. apply fmap_delete. }
  assert (Hc : ActiveCount d (with_map d (delete mid (MapFor d e)) e) = ActiveCount d e).
  { rewrite !ActiveCount_views, Hv, map_filter_delete. rewrite delete_id; [done |]. apply map_lookup_filter_None. right.
    intros w Hw2. unfold views in Hw2. rewrite lookup_fmap, fmap_Some in Hw2. destruct Hw2 as (t & Ht & ->).
    unfold FindActive, get in Hf. rewrite Ht in Hf. destruct (terminal t) eqn:E; [| done]. cbn. by rewrite E, andb_false_r. }
  assert (Hsub : ∀ k p, waiting_at (with_map d (delete mid (MapFor d e)) e) d k p → waiting_at e d k p).
  { intros k p. unfold waiting_at. rewrite Hv. by intros [_ Hk]%lookup_delete_Some. }
  split; [split |]; rewrite ?Hc, ?Hw; [done | intros k p Hk%Hsub; by eapply H2 | intros Hlt k p Hk%Hsub; by eapply H3].
Qed.

(** A new live transfer without a slot. *)
Lemma slots_new d mid t e : get d mid e = None → slot_view t = (false, false, false) → slots e →
  slots_pre d (with_wait d (WaitFor d e ++ [mid]) (put d mid t e)) ∧
  ActiveCount d (put d mid t e) = ActiveCount d e ∧
  (∀ k p, waiting_at (put d mid t e) d k p → k = mid ∨ waiting_at e d k p).
Proof.
  intros Hg Hw He. destruct (He d) as [[H1 H2] H3]. apply views_get_None in Hg.
  assert (Hc : ActiveCount d (put d mid t e) = ActiveCount d e).
  { rewrite !ActiveCount_views, views_put, Hw, map_filter_insert_False by done. by rewrite delete_id. }
  assert (Hn : ∀ k p, waiting_at (put d mid t e) d k p → k = mid ∨ waiting_at e d k p).
  { intros k p. unfold waiting_at. rewrite views_put. destruct (decide (k = mid)) as [-> |]; [by left |].
    rewrite lookup_insert_ne by done. by right. }
  split; [| done]. split.
  - rewrite ActiveCount_views, views_with_wait, <- ActiveCount_views. lia.
  - intros k p. unfold waiting_at. rewrite views_with_wait, WaitFor_with_wait. intros [-> | Hk]%Hn; apply elem_of_app;
      [right; by apply list_elem_of_singleton | left; by eapply H2].
Qed.

Lemma slots_start_transfer d mid t e :
  get d mid e = None → slot_view t = (false, false, false) → slots e → slots (start_transfer cfg v d mid t e).
Proof.
  intros Hg Hw He. destruct (slots_new d mid t e Hg Hw He) as (Hp & Hc & Hn). unfold start_transfer.
  assert (Hside : ∀ d', d' ≠ d → same_side d' e (put d mid t e)) by (intros d' Hne; by apply same_side_put).
  destruct (limit cfg d <=? ActiveCount d (put d mid t e)) eqn:E; bool_to_prop.
  - apply slots_EmitUpdate. intros d'. destruct (decide (d' = d)) as [-> | Hne].
    + rewrite WaitFor_put. split; [done |]. rewrite ActiveCount_views, views_with_wait, <- ActiveCount_views. lia.
    + eapply slots_ok_side; [| apply (He d')]. destruct (Hside d' Hne) as [E1 E2]. split; [by rewrite views_with_wait |].
      rewrite <- E2. by destruct d, d'.
  - set (e1 := put d mid t e) in *. assert (Hg1 : get d mid e1 = Some t) by apply get_put.
    assert (Ht : terminal t = false) by (by injection Hw).
    eapply slots_same; [by eapply same_slots_grant |].
    assert (Hv1 : views d (upd d mid (with_slot true) e1) = <[mid := (true, t_paused t, terminal t)]> (views d e1)) by by apply views_upd_slot.
    assert (Hv0 : views d e1 !! mid = Some (false, false, false)) by (unfold e1; by rewrite views_put, lookup_insert_eq, Hw).
    assert (Hcount : ActiveCount d (upd d mid (with_slot true) e1) = ActiveCount d e1 + 1).
    { rewrite !ActiveCount_views, Hv1, (counted_insert _ _ _ _ Hv0) by done. cbn. rewrite Ht. cbn. lia. }
    assert (Hsub : ∀ k p, waiting_at (upd d mid (with_slot true) e1) d k p → k ≠ mid ∧ waiting_at e d k p).
    { intros k p. unfold waiting_at at 1. rewrite Hv1. destruct (decide (k = mid)) as [-> | Hne]; [rewrite lookup_insert_eq; congruence |].
      rewrite lookup_insert_ne by done. intros Hk. split; [done |]. by destruct (Hn k p Hk). }
    intros d'. destruct (decide (d' = d)) as [-> | Hne].
    + destruct (He d) as [[H1 H2] H3]. split; [split |].
      * lia.
      * intros k p [_ Hk]%Hsub. rewrite WaitFor_upd. unfold e1. rewrite WaitFor_put. by eapply H2.
      * rewrite Hcount. intros Hlt k p [_ Hk]%Hsub. eapply H3; [lia | exact Hk].
    + eapply slots_ok_side; [| apply (He d')]. destruct (Hside d' Hne) as [E1 E2]. split.
      * rewrite <- E1. unfold views, upd. by rewrite MapFor_with_map, decide_False.
      * rewrite <- E2. apply WaitFor_upd.
Qed.

Lemma promote_None d mid fuel e : views d e !! mid = None → views d (promote cfg v fuel d e) !! mid = None.
Proof.
  revert e. induction fuel as [| fuel IH]; intros e Hn; cbn [promote]; [done |]. destruct (_ || _); [done |].
  destruct (pick_waiting _ _) as [l [id |]] eqn:Ep; [| by rewrite views_with_wait].
  apply pick_waiting_spec in Ep as (_ & _ & t & Ht & Hl & _). apply IH.
  assert (Hg : get d id (with_wait d l e) = Some t) by by destruct d.
  destruct (same_slots_grant d id _ t Hg Hl d) as [-> _]. rewrite (views_upd_slot _ _ t), views_with_wait by done.
  rewrite lookup_insert_ne; [done |]. intros ->. apply views_get_None in Hn. unfold get in Hn. congruence.
Qed.

(** A finished transfer that was not known. *)
Lemma slots_put_terminal d mid t e : get d mid e = None → terminal t = true → slots e → slots (put d mid t e).
Proof.
  intros Hg Ht He d'. destruct (decide (d' = d)) as [-> | Hne]; [| eapply slots_ok_side; [by apply same_side_put | apply He]].
  split; [by apply slots_terminal |]. destruct (He d) as [_ H3]. apply views_get_None in Hg.
  assert (Hc : ActiveCount d (put d mid t e) = ActiveCount d e).
  { rewrite !ActiveCount_views, views_put, map_filter_insert_False by (cbn; by rewrite Ht, andb_false_r). by rewrite delete_id. }
  rewrite Hc. intros Hlt k p. unfold waiting_at. rewrite views_put. destruct (decide (k = mid)) as [-> |].
  - rewrite lookup_insert_eq. unfold slot_view. congruence.
  - rewrite lookup_insert_ne by done. by apply H3.
Qed.

Lemma slots_fail_new d mid t text e : get d mid e = None → slots e → slots (fail_new cfg v d mid t text e).
Proof.
  intros Hg He. unfold fail_new. set (e1 := emit _ e).
  assert (Hs : same_slots e e1) by apply same_slots_emit. apply slots_put_terminal; [| done |].
  - apply views_get_None. unfold PromoteWaiting. apply promote_None. destruct (Hs d) as [-> _]. by apply views_get_None.
  - apply (slots_promote d e); [done | by eapply slots_pre_same; [| apply He] |]. intros d' _. apply Hs.
Qed.

Lemma get_deleted d mid e : get d mid (with_map d (delete mid (MapFor d e)) e) = None.
Proof. unfold get. rewrite MapFor_with_map, decide_True by done. apply lookup_delete_eq. Qed.

Lemma slots_StartUpload r e : slots e → slots (StartUpload cfg v r e).2.
Proof.
  intros He. unfold StartUpload. destruct (_ || _); [done |].
  destruct (FindActive TRANSFER_UPLOAD (up_message r) e) eqn:Hf; [done |].
  pose proof (slots_delete _ _ _ Hf He) as He1. pose proof (get_deleted TRANSFER_UPLOAD (up_message r) e) as Hg. cbn [MapFor] in He1, Hg.
  destruct (up_size r <=? 0); cbn [snd]; [by apply slots_fail_new | by apply slots_start_transfer].
Qed.

Lemma slots_StartDownload r e : slots e → slots (StartDownload cfg v r e).2.
Proof.
  intros He. unfold StartDownload. destruct (_ || _); [done |].
  destruct (FindActive TRANSFER_DOWNLOAD (dn_message r) e) eqn:Hf; [done |].
  pose proof (slots_delete _ _ _ Hf He) as He1. pose proof (get_deleted TRANSFER_DOWNLOAD (dn_message r) e) as Hg. cbn [MapFor] in He1, Hg.
  destruct (negb (v_mkpath v _)); cbn [snd]; [by apply slots_fail_new | by apply slots_start_transfer].
Qed.

(** The user pauses a transfer, or goes on with it. *)
Lemma slots_pre_pause d mid t p e :
  slots e → get d mid e = Some t → terminal t = false → slots_pre d (put d mid (with_paused p t) e) ∧
  (ActiveCount d (put d mid (with_paused p t) e) = ActiveCount d e) ∧
  (∀ k q, waiting_at (put d mid (with_paused p t) e) d k q → k = mid ∧ q = p ∧ t_slot t = false ∨ waiting_at e d k q).
Proof.
  intros He Hg Ht. destruct (He d) as [[H1 H2] H3].
  assert (Hv : views d e !! mid = Some (t_slot t, t_paused t, false)).
  { destruct (held_get _ _ _ _ He Hg) as [_ ->]. unfold slot_view. by rewrite Ht. }
  assert (Hv' : views d (put d mid (with_paused p t) e) = <[mid := (t_slot t, p, false)]> (views d e)).
  { rewrite views_put. unfold slot_view, terminal. cbn. unfold terminal in Ht. by rewrite Ht. }
  assert (Hc : ActiveCount d (put d mid (with_paused p t) e) = ActiveCount d e).
  { rewrite !ActiveCount_views, Hv'. f_equal. destruct (t_slot t) eqn:Es.
    - rewrite map_filter_insert_True by done. rewrite map_size_insert.
      assert (Hl : filter (λ kv : Z * (bool * bool * bool), counted kv.2 = true) (views d e) !! mid = Some (true, t_paused t, false))
        by by apply map_lookup_filter_Some. by rewrite Hl.
    - by rewrite (counted_insert _ _ _ _ Hv). }
  assert (Hn : ∀ k q, waiting_at (put d mid (with_paused p t) e) d k q → k = mid ∧ q = p ∧ t_slot t = false ∨ waiting_at e d k q).
  { intros k q. unfold waiting_at. rewrite Hv'. destruct (decide (k = mid)) as [-> |].
    - rewrite lookup_insert_eq. intros [= E1 E2]. by left.
    - rewrite lookup_insert_ne by done. by right. }
  split; [| done]. split; [lia |]. intros k q Hk. rewrite WaitFor_put. destruct (Hn k q Hk) as [(-> & _ & Es) | Hk']; [| by eapply H2].
  eapply H2. unfold waiting_at. by rewrite Hv, Es.
Qed.

Lemma slots_pause d mid t p e :
  slots e → get d mid e = Some t → terminal t = false → p = true ∨ t_slot t = true → slots (put d mid (with_paused p t) e).
Proof.
  intros He Hg Ht Hp d'. destruct (decide (d' = d)) as [-> | Hne]; [| eapply slots_ok_side; [by apply same_side_put | apply He]].
  destruct (slots_pre_pause d mid t p e He Hg Ht) as (Hpre & Hc & Hn). split; [done |]. rewrite Hc. intros Hlt k q Hk.
  destruct (Hn k q Hk) as [(_ & -> & Es) | Hk']; [destruct Hp; [done | congruence] | by eapply (so_full _ _ (He d))].
Qed.

Lemma slots_PauseTransfer d mid e : slots e → slots (PauseTransfer d mid e).
Proof.
  intros He. unfold PauseTransfer, FindActive. destruct (get d mid e) as [t |] eqn:Hg; [| done].
  destruct (terminal t) eqn:Ht; [done |]. destruct (t_paused t); [done |]. apply slots_EmitUpdate, slots_pause; auto.
Qed.

Lemma slots_ResumeTransfer d mid e : slots e → slots (ResumeTransfer cfg v d mid e).
Proof.
  intros He. unfold ResumeTransfer. destruct (get d mid e) as [t |] eqn:Hg; [| done].
  destruct (terminal t) eqn:Ht; [done |]. destruct (negb (t_paused t)); [done |]. cbn [orb].
  destruct (t_slot t) eqn:Es; cbn [negb].
  - assert (He1 : slots (put d mid (with_paused false t) e)) by (apply slots_pause; auto).
    assert (Hh : held d mid (true, false, false) (put d mid (with_paused false t) e)).
    { split; [done |]. rewrite views_put, lookup_insert_eq. unfold slot_view, terminal. cbn. unfold terminal in Ht. by rewrite Ht, Es. }
    destruct d; eapply slots_EmitUpdate, held_slots; [apply held_ResyncUpload | apply held_BeginQuery]; exact Hh.
  - apply slots_EmitUpdate. destruct (slots_pre_pause d mid t false e He Hg Ht) as (Hp & _).
    apply (slots_promote d e); [done | done |]. intros d' Hne. by apply same_side_put.
Qed.

Lemma slots_CancelTransfer d mid e : slots e → slots (CancelTransfer cfg v d mid e).
Proof. intros He. unfold CancelTransfer. destruct (FindActive d mid e); [by apply slots_FailTransfer | done]. Qed.

Lemma slots_resume_one d e mid : slots e → slots (resume_one v d e mid).
Proof.
  intros He. unfold resume_one. destruct (get d mid e) as [t |] eqn:Hg; [| done].
  destruct (negb (t_slot t) || terminal t || t_paused t) eqn:E; [done |]. bool_to_prop.
  pose proof (held_get _ _ _ _ He Hg) as Hh. assert (Hw : slot_view t = (t_slot t, t_paused t, false)) by (unfold slot_view; congruence).
  rewrite Hw in Hh. eapply held_slots, held_BeginQuery, held_put; [exact Hh | exact Hw].
Qed.

Lemma slots_foldl (f : engine → Z → engine) l e : (∀ e k, slots e → slots (f e k)) → slots e → slots (foldl f e l).
Proof. intros Hf. revert e. induction l as [| k l IH]; intros e He; [done |]. cbn. by apply IH, Hf. Qed.

Lemma slots_OnConnectionAuthenticated e : slots e → slots (OnConnectionAuthenticated cfg v e).
Proof.
  intros He. apply slots_Pump, slots_foldl; [intros; by apply slots_resume_one |].
  apply slots_foldl; [intros; by apply slots_resume_one |]. eapply slots_same; [| exact He]. by intros [].
Qed.

Lemma slots_HandleTimeout d mid e : slots e → slots (HandleTimeout d mid e).
Proof.
  intros He. unfold HandleTimeout. destruct (get d mid e) as [t |] eqn:Hg; [| done].
  pose proof (held_get _ _ _ _ He Hg) as Hh. destruct (t_paused _); [by eapply held_slots, held_put |].
  set (t1 := with_reconnect true _). assert (Hh1 : held d mid (slot_view t) (put d mid t1 e)) by by apply held_put.
  destruct (e_awaiting _); [by eapply held_slots |]. eapply slots_same; [apply same_slots_down |].
  eapply slots_same; [apply same_slots_emit |]. eapply slots_same; [| eapply held_slots; exact Hh1]. by intros [].
Qed.

Lemma slots_tick_one d e mid : slots e → slots (tick_one cfg v d e mid).
Proof.
  intros He. unfold tick_one. destruct (FindActive d mid e) as [t |] eqn:Hf; [| done].
  destruct (FindActive_held _ _ _ _ He Hf) as (s & p & Hw & Hh).
  destruct (bool_decide (t_phase t = TRANSFER_BACKOFF) && _ && _).
  - destruct (e_conn e); [eapply held_slots, held_BeginQuery, held_put | eapply held_slots, held_put]; done.
  - destruct (bool_decide (t_phase t = TRANSFER_ACTIVE) && _); [by apply slots_HandleTimeout |].
    destruct (bool_decide (t_phase t = TRANSFER_QUERYING) && _ && _); [by apply slots_HandleTimeout | done].
Qed.

Lemma slots_OnTick e : slots e → slots (OnTick cfg v e).
Proof. intros He. apply slots_foldl; [intros; by apply slots_tick_one |]. apply slots_foldl; [intros; by apply slots_tick_one | done]. Qed.

Lemma slots_empty e : (∀ d, 0 <= limit cfg d) → e_up e = ∅ → e_down e = ∅ → slots e.
Proof.
  intros Hl Hu Hd d. assert (Hm : MapFor d e = ∅) by by destruct d.
  assert (Hw : ∀ k p, ¬ waiting_at e d k p) by (intros k p; unfold waiting_at, views; by rewrite Hm, fmap_empty, lookup_empty).
  split; [split |].
  - unfold ActiveCount. rewrite Hm, map_filter_empty, map_size_empty. apply Hl.
  - intros k p Hk. by apply Hw in Hk.
  - intros _ k p Hk. by apply Hw in Hk.
Qed.

Lemma slots_perform c e : (∀ d, 0 <= limit cfg d) → slots e → slots (perform cfg v c e).
Proof.
  intros Hl He. destruct c; cbn [perform].
  - by apply slots_StartUpload.
  - by apply slots_StartDownload.
  - by apply slots_PauseTransfer.
  - by apply slots_ResumeTransfer.
  - by apply slots_CancelTransfer.
  - eapply slots_same; [apply same_slots_down | done].
  - by apply slots_OnConnectionAuthenticated.
  - by apply slots_empty.
  - destruct a; cbn [OnFrame].
    + by apply slots_HandleChunkUploadRsp.
    + by apply slots_HandleProgressRsp.
    + by apply slots_HandleDownInfoRsp.
    + by apply slots_HandleChunkDownRsp.
    + by apply slots_HandleInstantProofRsp.
  - by apply slots_OnTick.
Qed.

End slots.

(** ** Runs *)

(** A run of the engine: calls, each with what it finds of the world. *)
Definition run `{Sha256Lib} (cfg : Config) (e : engine) (l : list (env * call)) : engine :=
  foldl (λ e vc, perform cfg vc.1 vc.2 e) e l.

Lemma limit_pos c d : 0 <= limit (InitConfig c) d.
Proof. destruct d; cbn; lia. Qed.

(** C12: the slots of the transfer engine. After any sequence of requests of
    the user, answers of the server, losses of the connection and turns of
    the timer, with any files on the disk and any failures: in each direction
    no more transfers hold a slot than configured; a live transfer without a
    slot is in the queue, so none is lost; and if a slot is free, all the
    transfers that wait have been paused by the user. *)
Theorem slots_respected `{Sha256Lib} c disk tp l (e := run (InitConfig c) (TransferEngine_ disk tp) l) d :
  ActiveCount d e <= limit (InitConfig c) d ∧
  (∀ mid t, get d mid e = Some t → terminal t = false → t_slot t = false → mid ∈ WaitFor d e) ∧
  (ActiveCount d e < limit (InitConfig c) d →
   ∀ mid t, get d mid e = Some t → terminal t = false → t_slot t = false → t_paused t = true).
Proof.
  assert (He : slots (InitConfig c) e).
  { unfold e, run. assert (H0 : slots (InitConfig c) (TransferEngine_ disk tp)) by (apply slots_empty; [apply limit_pos | done..]).
    revert H0. generalize (TransferEngine_ disk tp) as e0. clear e. induction l as [| [v x] l IH]; intros e0 He0; [done |].
    cbn. apply IH. apply slots_perform; [apply limit_pos | done]. }
  destruct (He d) as [[H1 H2] H3].
  assert (Hw : ∀ mid t, get d mid e = Some t → terminal t = false → t_slot t = false → waiting_at e d mid (t_paused t)).
  { intros mid t Hg Ht Hs. unfold waiting_at. destruct (held_get _ _ _ _ _ He Hg) as [_ ->]. unfold slot_view. by rewrite Ht, Hs. }
  split; [done |]. split.
  - intros mid t Hg Ht Hs. eapply H2. by apply Hw.
  - intros Hlt mid t Hg Ht Hs. eapply (H3 Hlt). by apply Hw.
Qed.
