(* ===== verification/TransferTimers.v ===== *)
(** * No transfer stalls

    A live transfer that holds a slot and is not paused is always waiting for
    something that ends: for the answer to a query or to a chunk, which the
    time-out bounds, or for the end of a back-off. What the server has to do
    for that is stated as [honest]: the answer to a chunk confirms it, and an
    error that asks for an earlier chunk names one. *)

From stdpp Require Import sorting.
From S2P Require Import Prelude ProtocolIds ResourceWire Sha256 ResourceTransfer TransferEngine TransferSlots.

(** ** The invariant of one transfer *)

Definition ends (c : InflightChunk) : Z := ic_offset c + ic_length c.

Record live_ok (d : TransferDirection) (t : ResourceTransferRuntime) : Prop := {
  lv_chunks : ∀ c, c ∈ t_inflight t → 0 < ic_length c ∧ ic_offset c < t_total t;
  lv_last : ∀ c, last (t_inflight t) = Some c → t_wire t < t_total t ∨ t_total t <= t_acked t ∨ t_total t <= ends c;
  lv_reconnect : t_reconnect t = false;
  lv_total : d = TRANSFER_UPLOAD → 0 < t_total t;
}.

(** What the transfer waits for. *)
Definition armed (t : ResourceTransferRuntime) : Prop :=
  match t_phase t with
  | TRANSFER_QUERYING => 0 < t_query t
  | TRANSFER_BACKOFF => 0 < t_retry_at t
  | TRANSFER_ACTIVE => t_inflight t ≠ []
  | _ => False
  end.

Definition good (conn : bool) (d : TransferDirection) (t : ResourceTransferRuntime) : Prop :=
  terminal t = true ∨
  live_ok d t ∧ (conn = true → t_slot t = true → t_paused t = false → armed t).

Definition timed (e : engine) : Prop :=
  e_awaiting e = false ∧ ∀ d mid t, get d mid e = Some t → good (e_conn e) d t.

(** One transfer is being worked on: it is live, and [P]. *)
Definition nearly (d : TransferDirection) (mid : Z) (P : ResourceTransferRuntime → Prop) (e : engine) : Prop :=
  e_awaiting e = false ∧
  (∀ d' mid' t, (d', mid') ≠ (d, mid) → get d' mid' e = Some t → good (e_conn e) d' t) ∧
  ∃ t, get d mid e = Some t ∧ terminal t = false ∧ live_ok d t ∧ P t.

Lemma nearly_mono d mid (P Q : ResourceTransferRuntime → Prop) e : (∀ t, P t → Q t) → nearly d mid P e → nearly d mid Q e.
Proof. intros HPQ (H1 & H2 & t & H3 & H4 & H5 & H6). split_and!; [done.. |]. exists t. auto. Qed.

Lemma awaiting_put d mid t e : e_awaiting (put d mid t e) = e_awaiting e.
Proof. by destruct d. Qed.

Lemma nearly_put d mid P Q t' e :
  nearly d mid P e → terminal t' = false → live_ok d t' → Q t' → nearly d mid Q (put d mid t' e).
Proof.
  intros (H1 & H2 & t & H3 & H4 & H5 & H6) Ht Hl HQ. split; [by rewrite awaiting_put |]. split.
  - intros d' mid' t2 Hne. rewrite get_put_ne, conn_put by done. by apply H2.
  - exists t'. by rewrite get_put.
Qed.

Lemma timed_nearly d mid e t : timed e → get d mid e = Some t → terminal t = false → nearly d mid (λ t', t' = t) e.
Proof.
  intros [H1 H2] Hg Ht. split; [done |]. split; [intros ? ? ? _; apply H2 |]. exists t. split_and!; try done.
  destruct (H2 _ _ _ Hg) as [| [Hl _]]; [congruence | done].
Qed.

Lemma nearly_timed d mid P e :
  nearly d mid P e → (∀ t, P t → e_conn e = true → t_slot t = true → t_paused t = false → armed t) → timed e.
Proof.
  intros (H1 & H2 & t & H3 & H4 & H5 & H6) Ha. split; [done |]. intros d' mid' t' Hg.
  destruct (decide ((d', mid') = (d, mid))) as [[= -> ->] | Hne]; [| by eapply H2].
  rewrite H3 in Hg. injection Hg as <-. right. split; [done |]. intros. by apply Ha.
Qed.

Lemma nearly_get d mid P e t : nearly d mid P e → get d mid e = Some t → terminal t = false ∧ live_ok d t ∧ P t.
Proof. intros (_ & _ & t' & H3 & H4 & H5 & H6). rewrite H3. by intros [= <-]. Qed.

Lemma nearly_Some d mid P e : nearly d mid P e → ∃ t, get d mid e = Some t ∧ terminal t = false ∧ live_ok d t ∧ P t.
Proof. by intros (_ & _ & H). Qed.

(** *** Sending and reporting *)

Lemma good_cut_off b d t : good b d t → good false d (cut_off t).
Proof.
  intros [Ht | [[H1 H2 H3 H4] _]]; [left; unfold cut_off; by rewrite Ht |]. unfold cut_off.
  destruct (terminal t) eqn:Ht; [by left |]. right. split; [| done]. split; cbn; try done. intros c Hc. by apply not_elem_of_nil in Hc.
Qed.

Lemma awaiting_send f e : e_awaiting e = false → e_awaiting (send f e) = false.
Proof.
  intros Ha. unfold send. destruct (negb _); [done |]. destruct (io _) as [o e1] eqn:E. apply io_spec in E as (_ & E & _).
  destruct (io_ok o); [by rewrite E | done].
Qed.

Lemma timed_send f e : timed e → timed (send f e).
Proof.
  intros [H1 H2]. split; [by apply awaiting_send |]. intros d mid t.
  destruct (send_cases f e) as [(-> & Hg & _) | (Hc & -> & Hg)]; rewrite Hg; [apply H2 |].
  rewrite fmap_Some. intros (t0 & Ht0 & ->). eapply good_cut_off. by apply (H2 d mid).
Qed.

Lemma get_same_timed e e' :
  e_awaiting e' = e_awaiting e → e_conn e' = e_conn e → (∀ d mid, get d mid e' = get d mid e) → timed e → timed e'.
Proof. intros Ha Hc Hg [H1 H2]. split; [congruence |]. intros d mid t. rewrite Hg, Hc. apply H2. Qed.

Lemma get_same_nearly d mid P e e' :
  e_awaiting e' = e_awaiting e → e_conn e' = e_conn e → (∀ d mid, get d mid e' = get d mid e) → nearly d mid P e → nearly d mid P e'.
Proof.
  intros Ha Hc Hg (H1 & H2 & t & H3 & H4). split; [congruence |]. split; [| exists t; by rewrite Hg].
  intros d' mid' t'. rewrite Hg, Hc. apply H2.
Qed.

Lemma timed_emit o e : timed e → timed (emit o e).
Proof. apply get_same_timed; [done.. |]. intros. apply get_emit. Qed.

Lemma timed_EmitUpdate d mid e : timed e → timed (EmitUpdate d mid e).
Proof. intros He. unfold EmitUpdate. case_match; [by apply timed_emit | done]. Qed.

Lemma nearly_io d mid P e o e' : io e = (o, e') → nearly d mid P e → nearly d mid P e'.
Proof.
  intros (E1 & E2 & _ & _ & E3 & _)%io_spec. apply get_same_nearly; [done.. |]. intros. unfold get. by rewrite E3.
Qed.

Lemma nearly_disk d mid P disk e : nearly d mid P e → nearly d mid P (with_disk disk e).
Proof. apply get_same_nearly; [done.. |]. by intros []. Qed.

Lemma live_ok_window d l stale t :
  live_ok d t → l = [] ∨ l = t_inflight t → live_ok d (with_window l stale t).
Proof. intros [H1 H2 H3 H4] [-> | ->]; split; cbn; try done. intros c Hc. by apply not_elem_of_nil in Hc. Qed.

Section timers.
Context `{Sha256Lib} (c0 : Config) (v : env).
#[local] Abbreviation cfg := (InitConfig c0).
Hypothesis now_pos : 0 < v_now v.
#[local] Set Default Proof Using "Type*".

Lemma nearly_BeginQuery d mid P e : nearly d mid P e → timed (BeginQuery v d mid e).
Proof.
  intros Hn. destruct (nearly_Some _ _ _ _ Hn) as (t & Hg & Ht & Hl & _). unfold BeginQuery. rewrite Hg.
  assert (Hq : ∀ q l s, 0 < q ∨ e_conn e = false ∨ t_paused t = true → l = [] ∨ l = t_inflight t →
    timed (put d mid (with_window l s (with_query q (with_phase TRANSFER_QUERYING (with_pending false t)))) e)).
  { intros q l s Hq Hll. apply (nearly_timed d mid (λ t', t_paused t' = t_paused t ∧ t_phase t' = TRANSFER_QUERYING ∧ t_query t' = q)).
    - eapply nearly_put; [exact Hn | done | | done]. apply live_ok_window; [| by destruct Hll as [-> | ->]; [left | right]].
      destruct Hl. by split.
    - intros t' (E1 & E2 & E3). rewrite conn_put. intros Hc _ Hp. unfold armed. rewrite E2, E3. destruct Hq as [| []]; congruence. }
  destruct (negb (e_conn e) || t_paused _) eqn:E.
  - assert (Hx : e_conn e = false ∨ t_paused t = true) by (apply orb_true_iff in E as [E | E]; [left; by apply negb_true_iff | by right]).
    specialize (Hq 0 (t_inflight t) (t_stale t) (or_intror Hx) (or_intror eq_refl)).
    by destruct t.
  - destruct d; apply timed_send, Hq; auto.
Qed.

(** *** Promotion and ends *)

Lemma conn_with_wait d l e : e_conn (with_wait d l e) = e_conn e.
Proof. by destruct d. Qed.

Lemma timed_with_wait d l e : timed e → timed (with_wait d l e).
Proof. apply get_same_timed; [by destruct d.. |]. intros [] mid; by destruct d. Qed.

Lemma nearly_slot d mid e t : timed e → get d mid e = Some t → terminal t = false → nearly d mid (λ _, True) (upd d mid (with_slot true) e).
Proof.
  intros [H1 H2] Hg Ht. split; [by destruct d |]. split.
  - intros d' mid' t' Hne. rewrite get_upd_case, decide_False, conn_upd by done. apply H2.
  - exists (with_slot true t). rewrite get_upd_case, decide_True, Hg by done. split_and!; try done.
    destruct (H2 _ _ _ Hg) as [| [[L1 L2 L3 L4] _]]; [congruence |]. by split.
Qed.

Lemma timed_promote fuel d e : timed e → timed (promote cfg v fuel d e).
Proof.
  revert e. induction fuel as [| fuel IH]; intros e He; cbn [promote]; [done |]. destruct (_ || _); [done |].
  destruct (pick_waiting _ _) as [l [id |]] eqn:Ep; [| by apply timed_with_wait].
  apply pick_waiting_spec in Ep as (_ & _ & t & Hg & Ht & _). apply IH, timed_EmitUpdate. eapply nearly_BeginQuery, nearly_slot.
  - by apply timed_with_wait.
  - destruct d; exact Hg.
  - done.
Qed.

Lemma timed_end d mid P t' o e : nearly d mid P e → terminal t' = true → timed (PromoteWaiting cfg v d (emit o (put d mid t' e))).
Proof.
  intros (H1 & H2 & _) Ht. apply timed_promote, timed_emit. split; [by rewrite awaiting_put |].
  intros d' mid' t2. rewrite get_put_case, conn_put. case_decide as Hd; [| by apply H2]. intros [= <-]. by left.
Qed.

Lemma nearly_Fail d mid P code text e : nearly d mid P e → timed (FailTransfer cfg v d mid code text e).
Proof.
  intros Hn. destruct (nearly_Some _ _ _ _ Hn) as (t & Hg & _). unfold FailTransfer. rewrite Hg. by eapply timed_end.
Qed.

Lemma nearly_Complete d mid P seq e : nearly d mid P e → timed (CompleteTransfer cfg v d mid seq e).
Proof.
  intros Hn. destruct (nearly_Some _ _ _ _ Hn) as (t & Hg & _). unfold CompleteTransfer. rewrite Hg. by eapply timed_end.
Qed.

(** *** Back-off *)

Lemma BackoffIntervalMs_pos n : 0 < BackoffIntervalMs cfg n.
Proof. unfold BackoffIntervalMs. destruct (_ || _) eqn:E; cbn in *; bool_to_prop; lia. Qed.

Lemma get_upd_put d mid f t e : get d mid e = Some t → upd d mid f e = put d mid (f t) e.
Proof.
  intros Hg. unfold upd, put. f_equal. apply map_eq. intros k. unfold get in Hg.
  destruct (decide (k = mid)) as [-> |]; [by rewrite lookup_alter_eq, lookup_insert_eq, Hg | by rewrite lookup_alter_ne, lookup_insert_ne].
Qed.

Lemma nearly_upd d mid P Q f e :
  nearly d mid P e → (∀ t, terminal t = false → live_ok d t → P t → terminal (f t) = false ∧ live_ok d (f t) ∧ Q (f t)) →
  nearly d mid Q (upd d mid f e).
Proof.
  intros Hn Hf. destruct (nearly_Some _ _ _ _ Hn) as (t & Hg & Ht & Hl & HP). rewrite (get_upd_put _ _ _ _ _ Hg).
  destruct (Hf t Ht Hl HP) as (F1 & F2 & F3). by eapply nearly_put.
Qed.

Lemma nearly_backoff d mid P e : nearly d mid P e → timed (backoff cfg v d mid e).
Proof.
  intros Hn. apply timed_EmitUpdate. apply (nearly_timed d mid (λ t, t_phase t = TRANSFER_BACKOFF ∧ 0 < t_retry_at t)).
  - eapply nearly_upd; [exact Hn |]. intros t Ht [L1 L2 L3 L4] _. split; [done |]. split; [by split |]. split; [done |].
    cbn. pose proof (BackoffIntervalMs_pos (k_retry (t_count t))). cbn in *. lia.
  - intros t [E1 E2] _ _ _. unfold armed. by rewrite E1.
Qed.

Lemma live_ok_Rollback so t : live_ok TRANSFER_UPLOAD t → live_ok TRANSFER_UPLOAD (RollbackUploadTo so t).
Proof. intros [L1 L2 L3 L4]. split; cbn; try done. intros c Hc. by apply not_elem_of_nil in Hc. Qed.

Lemma nearly_rollback_backoff mid P to e : nearly TRANSFER_UPLOAD mid P e → timed (rollback_backoff cfg v mid to e).
Proof.
  intros Hn. eapply nearly_backoff, (nearly_upd _ _ _ (λ _, True)); [exact Hn |]. intros t Ht Hl _.
  split; [done |]. split; [by apply live_ok_Rollback | done].
Qed.

Lemma nearly_bad_answer d mid P t text again e :
  nearly d mid P e → (∀ e', nearly d mid (λ _, True) e' → timed (again e')) → timed (bad_answer cfg v d mid t text again e).
Proof.
  intros Hn Ha. unfold bad_answer. assert (Hn' : nearly d mid (λ _, True) (upd d mid (with_json (k_json (t_count t) + 1)) e)).
  { eapply nearly_upd; [exact Hn |]. intros t' Ht [L1 L2 L3 L4] _. by split. }
  destruct (_ <=? _); [by eapply nearly_Fail | by apply Ha].
Qed.

(** *** The pump *)

Lemma chunk_len_bounds t off : off < t_total t → 0 < chunk_len t off ∧ off + chunk_len t off <= t_total t.
Proof. unfold chunk_len, kResourceChunkSize. lia. Qed.

(** A chunk more in the window. *)
Lemma live_ok_push d t c : live_ok d t →
  ic_offset c = t_wire t → ic_length c = chunk_len t (t_wire t) → t_wire t < t_total t →
  live_ok d (with_wire (t_wire t + ic_length c) (with_window (t_inflight t ++ [c]) (t_stale t) t)).
Proof.
  intros [L1 L2 L3 L4] Hoff Hlen Hw. destruct (chunk_len_bounds t _ Hw) as [Hp Hb]. split; cbn; try done.
  - intros c' [Hc | ->%list_elem_of_singleton]%elem_of_app; [by apply L1 |]. rewrite Hlen, Hoff. lia.
  - intros c'. rewrite last_snoc. intros [= <-]. unfold ends. rewrite Hoff. lia.
Qed.

Lemma nearly_SendNextChunk d mid e :
  nearly d mid (λ t, t_phase t = TRANSFER_ACTIVE ∧ t_wire t < t_total t ∧ zlen (t_inflight t) < max_inflight_chunks cfg) e →
  timed (SendNextChunk cfg v d mid e).2.
Proof.
  intros Hn. destruct (nearly_Some _ _ _ _ Hn) as (t & Hg & Ht & Hl & Hp & Hw & Hm). unfold SendNextChunk. rewrite Hg.
  destruct (chunk_len_bounds t _ Hw) as [Hlen _].
  destruct (chunk_len t (t_wire t) <=? 0) eqn:E1; [bool_to_prop; lia |].
  destruct (max_inflight_chunks cfg <=? _) eqn:E2; [bool_to_prop; lia |]. cbn [orb].
  assert (Hpush : ∀ c f, ic_offset c = t_wire t → ic_length c = chunk_len t (t_wire t) →
    timed (send f (put d mid (with_wire (t_wire t + chunk_len t (t_wire t)) (with_window (t_inflight t ++ [c]) (t_stale t) t)) e))).
  { intros c f Hc1 Hc2. apply timed_send. apply (nearly_timed d mid (λ t', t_phase t' = TRANSFER_ACTIVE ∧ t_inflight t' ≠ [])).
    - eapply nearly_put; [exact Hn | done | |].
      + rewrite <- Hc2. by apply live_ok_push.
      + split; [done |]. cbn. by destruct (t_inflight t).
    - intros t' [F1 F2] _ _ _. unfold armed. by rewrite F1. }
  destruct d; [destruct (read_source _ _ _ _); [by eapply nearly_Fail |] |]; cbn [snd]; by apply Hpush.
Qed.

Lemma fewest_In best l d mid n :
  fewest cfg best l = Some (d, mid, n) →
  best = Some (d, mid, n) ∨ ∃ t, (d, mid, t) ∈ l ∧ pumpable cfg t = true.
Proof.
  revert best. induction l as [| [[d0 mid0] t0] l IH]; intros best; cbn [fewest]; [by left |].
  assert (Hr : ∀ b, fewest cfg b l = Some (d, mid, n) → (b = Some (d, mid, n) → best = Some (d, mid, n) ∨ (d0, mid0) = (d, mid) ∧ pumpable cfg t0 = true) →
    best = Some (d, mid, n) ∨ ∃ t, (d, mid, t) ∈ (d0, mid0, t0) :: l ∧ pumpable cfg t = true).
  { intros b Hb Hbest. destruct (IH _ Hb) as [Hx | (t & Hin & Hp)].
    - destruct (Hbest Hx) as [| [[= -> ->] Hp]]; [by left | right; exists t0; split; [left | done]].
    - right. exists t. split; [by right | done]. }
  destruct (pumpable cfg t0) eqn:Ep; cbn [negb]; [| intros Hf; eapply Hr; [exact Hf | by left]].
  destruct best as [[[d1 mid1] n1] |].
  - destruct (_ <? _); intros Hf; (eapply Hr; [exact Hf |]); [intros [= -> -> _]; by right | by left].
  - intros Hf. eapply Hr; [exact Hf |]. intros [= -> -> _]. by right.
Qed.

Lemma candidates_get e d mid t : (d, mid, t) ∈ candidates e → get d mid e = Some t.
Proof.
  unfold candidates. rewrite elem_of_app, !list_elem_of_fmap.
  intros [([k x] & [= -> -> ->] & Hin) | ([k x] & [= -> -> ->] & Hin)]; by apply elem_of_map_to_list in Hin.
Qed.

Lemma get_candidates e d mid t : get d mid e = Some t → (d, mid, t) ∈ candidates e.
Proof.
  intros Hg. unfold candidates. rewrite elem_of_app, !list_elem_of_fmap.
  destruct d; [left | right]; exists (mid, t); (split; [done | by apply elem_of_map_to_list]).
Qed.

Lemma pumpable_spec t : pumpable cfg t = true ↔
  t_phase t = TRANSFER_ACTIVE ∧ t_slot t = true ∧ t_reconnect t = false ∧ t_paused t = false ∧
  zlen (t_inflight t) < max_inflight_chunks cfg ∧ t_wire t < t_total t.
Proof.
  unfold pumpable. rewrite !andb_true_iff, !negb_true_iff, bool_decide_eq_true, !Z.ltb_lt. tauto.
Qed.

Lemma timed_pump fuel e : timed e → timed (pump cfg v fuel e).
Proof.
  revert e. induction fuel as [| fuel IH]; intros e He; cbn [pump]; [done |].
  destruct (fewest _ _ _) as [[[d mid] n] |] eqn:Ef; [| done].
  apply fewest_In in Ef as [| (t & Hin & Hp)]; [done |]. apply candidates_get in Hin. apply pumpable_spec in Hp as (P1 & P2 & P3 & P4 & P5 & P6).
  assert (Hs : timed (SendNextChunk cfg v d mid e).2).
  { apply nearly_SendNextChunk. eapply nearly_mono; [| eapply timed_nearly; [exact He | exact Hin |]].
    - by intros ? ->.
    - unfold terminal. by rewrite P1. }
  destruct (SendNextChunk cfg v d mid e) as [[] e']; [by apply IH | done].
Qed.

(** A transfer with an empty window is the first to get a chunk. *)
Lemma fewest_zero l d mid t best :
  (∀ d' mid' t', (d', mid', t') ∈ l → pumpable cfg t' = true → 0 <= window_bytes t' ∧ (window_bytes t' = 0 → (d', mid') = (d, mid))) →
  (∀ d' mid' n, best = Some (d', mid', n) → 0 <= n ∧ (n = 0 → (d', mid') = (d, mid))) →
  ((d, mid, t) ∈ l ∧ pumpable cfg t = true ∧ window_bytes t = 0 ∨ best = Some (d, mid, 0)) →
  fewest cfg best l = Some (d, mid, 0).
Proof.
  revert best. induction l as [| [[d0 mid0] t0] l IH]; intros best Hl Hb Ht; cbn [fewest].
  { destruct Ht as [[Hin _] | ->]; [by apply not_elem_of_nil in Hin | done]. }
  assert (Hl' : ∀ d' mid' t', (d', mid', t') ∈ l → pumpable cfg t' = true → 0 <= window_bytes t' ∧ (window_bytes t' = 0 → (d', mid') = (d, mid)))
    by (intros d' mid' t' Hin; apply Hl; by right).
  destruct (pumpable cfg t0) eqn:Ep; cbn [negb].
  - destruct (Hl d0 mid0 t0 ltac:(left) Ep) as [Hn0 Hz0].
    assert (Hb0 : ∀ d' mid' n, Some (d0, mid0, window_bytes t0) = Some (d', mid', n) → 0 <= n ∧ (n = 0 → (d', mid') = (d, mid)))
      by (intros d' mid' n [= <- <- <-]; done).
    assert (Hnew : (d, mid, t) = (d0, mid0, t0) → window_bytes t = 0 → Some (d0, mid0, window_bytes t0) = Some (d, mid, 0))
      by (intros [= <- <- <-] ->; done).
    destruct best as [[[d1 mid1] n1] |].
    + destruct (Hb _ _ _ eq_refl) as [Hn1 Hz1]. destruct (window_bytes t0 <? n1) eqn:El; bool_to_prop; apply IH; try done.
      * destruct Ht as [(Hin & Hp & Hz) | [= -> -> ->]]; [| lia].
        apply elem_of_cons in Hin as [Heq | Hin]; [right; by apply Hnew | by left].
      * destruct Ht as [(Hin & Hp & Hz) | Hbest]; [| by right].
        apply elem_of_cons in Hin as [Heq | Hin]; [| by left]. injection Heq as <- <- <-. right.
        assert (n1 = 0) as -> by lia. by destruct (Hz1 eq_refl).
    + apply IH; try done. destruct Ht as [(Hin & Hp & Hz) | ?]; [| done].
      apply elem_of_cons in Hin as [Heq | Hin]; [right; by apply Hnew | by left].
  - apply IH; try done. destruct Ht as [(Hin & Hp & Hz) | ?]; [| by right].
    apply elem_of_cons in Hin as [Heq | Hin]; [injection Heq as <- <- <-; congruence | left; done].
Qed.

Lemma window_bytes_pos d t : live_ok d t → 0 <= window_bytes t ∧ (t_inflight t ≠ [] → 0 < window_bytes t).
Proof.
  intros Hl. unfold window_bytes. pose proof (lv_chunks _ _ Hl) as Hc.
  induction (t_inflight t) as [| c l IH]; cbn; [done |].
  destruct (Hc c ltac:(left)) as [Hp _]. destruct IH as [IH _]; [intros c' Hin; apply Hc; by right |]. split; [lia |]. lia.
Qed.

(** The pump arms the transfer that is being worked on. *)
Lemma nearly_Pump d mid e :
  nearly d mid (λ t, t_phase t = TRANSFER_ACTIVE ∧ (t_inflight t = [] → t_wire t < t_total t)) e → timed (Pump cfg v e).
Proof.
  intros Hn. pose proof (nearly_Some _ _ _ _ Hn) as (t & Hg & Ht & Hl & Hp & Hw).
  assert (Hdone : (e_conn e = true → t_slot t = true → t_paused t = false → t_inflight t ≠ []) → timed e).
  { intros Hx. destruct Hn as (N1 & N2 & _). split; [done |]. intros d' mid' t' Hg'.
    destruct (decide ((d', mid') = (d, mid))) as [[= -> ->] | Hne]; [| by eapply N2].
    rewrite Hg in Hg'. injection Hg' as <-. right. split; [done |]. intros. unfold armed. rewrite Hp. by apply Hx. }
  unfold Pump. destruct (e_conn e) eqn:Ec; cbn [negb]; [| by apply Hdone].
  destruct (t_slot t) eqn:Es; [| by apply timed_pump, Hdone]. destruct (t_paused t) eqn:Epa; [by apply timed_pump, Hdone |].
  destruct (t_inflight t) as [| c l] eqn:Ei; [| by apply timed_pump, Hdone]. specialize (Hw eq_refl).
  assert (Hmax : zlen (@nil InflightChunk) < max_inflight_chunks cfg) by (unfold zlen; cbn; lia).
  assert (Hpump : pumpable cfg t = true).
  { apply pumpable_spec. split_and!; try done; [apply (lv_reconnect _ _ Hl) | by rewrite Ei]. }
  unfold pump_fuel. cbn [pump]. rewrite (fewest_zero _ d mid t).
  - assert (Hs : timed (SendNextChunk cfg v d mid e).2).
    { apply nearly_SendNextChunk. destruct Hn as (N1 & N2 & _). split; [done |]. split; [done |]. exists t.
      split_and!; try done. by rewrite Ei. }
    destruct (SendNextChunk cfg v d mid e) as [[] e']; [by apply timed_pump | done].
  - intros d' mid' t' Hin%candidates_get Hp'. destruct (decide ((d', mid') = (d, mid))) as [[= -> ->] | Hne].
    + rewrite Hg in Hin. injection Hin as <-. split; [apply (window_bytes_pos _ _ Hl) | done].
    + destruct Hn as (_ & N2 & _). apply pumpable_spec in Hp' as (P1 & P2 & P3 & P4 & P5 & P6).
      destruct (N2 _ _ _ Hne Hin) as [Hx | [Hl' Ha]]; [unfold terminal in Hx; by rewrite P1 in Hx |].
      specialize (Ha Ec P2 P4). unfold armed in Ha. rewrite P1 in Ha. destruct (window_bytes_pos _ _ Hl') as [W1 W2].
      split; [done |]. intros Hz. specialize (W2 Ha). lia.
  - done.
  - left. split; [by apply get_candidates |]. split; [done |]. unfold window_bytes. by rewrite Ei.
Qed.

(** *** Uploads *)

Lemma Rollback_wire so t : 0 < t_total t → so < t_total t → t_wire (RollbackUploadTo so t) < t_total t.
Proof.
  intros Ht Hs. cbn. set (x := Z.min (Z.max 0 so) (t_total t)).
  assert (Hx : x / kResourceChunkSize * kResourceChunkSize <= x).
  { rewrite Z.mul_comm. apply Z.mul_div_le. unfold kResourceChunkSize. lia. }
  lia.
Qed.

(** An error that asks for an earlier chunk names one of the file. *)
Definition honest_error (error server_offset : Z) (t : ResourceTransferRuntime) : Prop :=
  IsRollbackError error = true → server_offset < t_total t.

Lemma nearly_HandleUploadError mid error so e :
  nearly TRANSFER_UPLOAD mid (honest_error error so) e → timed (HandleUploadError cfg v mid error so e).
Proof.
  intros Hn. destruct (nearly_Some _ _ _ _ Hn) as (t & Hg & Ht & Hl & Hh). unfold HandleUploadError. rewrite Hg.
  destruct (IsPermanentError error); [by eapply nearly_Fail |].
  destruct (error =? ResourceErrCode_code RS_FILE_CONTENT_MISMATCH).
  { unfold VerifySourceHashOn2117. destruct (negb _); [by eapply nearly_Fail |]. destruct (v_whole v _); [| by eapply nearly_Fail].
    destruct (negb _); [by eapply nearly_Fail | by eapply nearly_rollback_backoff]. }
  destruct (IsRollbackError error) eqn:Er.
  - destruct (chunk_retry_limit cfg <=? _).
    + eapply nearly_backoff, (nearly_upd _ _ _ (λ _, True)); [exact Hn |]. intros t' Ht' Hl' _. split; [done |]. split; [| done].
      destruct (live_ok_Rollback so t' Hl'). by split.
    + apply timed_EmitUpdate, (nearly_Pump TRANSFER_UPLOAD mid). eapply nearly_upd; [exact Hn |]. intros t' Ht' Hl' Hh'. split; [done |].
      split; [destruct (live_ok_Rollback so t' Hl'); by split |]. split; [done |]. intros _.
      exact (Rollback_wire so t' (lv_total _ _ Hl' eq_refl) (Hh' Er)).
  - destruct ((error =? _) || _); [| by eapply nearly_rollback_backoff].
    eapply nearly_bad_answer; [exact Hn |]. intros e' Hn'. by eapply nearly_rollback_backoff.
Qed.

Lemma nearly_Resync mid P e : nearly TRANSFER_UPLOAD mid P e → timed (ResyncUpload v mid e).
Proof.
  intros Hn. eapply nearly_BeginQuery, (nearly_upd _ _ _ (λ _, True)); [exact Hn |]. intros t Ht Hl _.
  split; [done |]. split; [by apply live_ok_Rollback | done].
Qed.

Lemma last_offset_bounds n : 0 < n → last_offset n < n.
Proof.
  intros Hn. unfold last_offset. pose proof (Z.mul_div_le (n + kResourceChunkSize - 1) kResourceChunkSize) as Hd.
  unfold kResourceChunkSize in *. lia.
Qed.

Lemma nearly_MaybeResendLastChunk mid P e : nearly TRANSFER_UPLOAD mid P e → timed (MaybeResendLastChunk cfg v mid e).
Proof.
  intros Hn. destruct (nearly_Some _ _ _ _ Hn) as (t & Hg & Ht & Hl & HP). unfold MaybeResendLastChunk. rewrite Hg.
  destruct (t_paused t) eqn:Epa.
  { apply (nearly_timed TRANSFER_UPLOAD mid (λ t', t_paused t' = true)); [| intros t' ? _ _ ?; congruence].
    destruct Hn as (N1 & N2 & _). split; [done |]. split; [done |]. by exists t. }
  destruct (chunk_retry_limit cfg <=? _).
  { eapply nearly_backoff, (nearly_upd _ _ _ (λ _, True)); [exact Hn |]. intros t' Ht' [L1 L2 L3 L4] _. by split. }
  destruct (negb (t_source t)); [by eapply nearly_Fail |].
  set (t1 := with_publish _ t). assert (Hl1 : live_ok TRANSFER_UPLOAD t1) by (destruct Hl; by split).
  assert (Hn1 : nearly TRANSFER_UPLOAD mid (λ _, True) (put TRANSFER_UPLOAD mid t1 e)) by by eapply nearly_put.
  destruct (read_source _ _ _ _); [by eapply nearly_Fail |].
  apply timed_EmitUpdate, timed_send. set (c := Inflight _ _ _ _).
  apply (nearly_timed TRANSFER_UPLOAD mid (λ t', t_phase t' = TRANSFER_ACTIVE ∧ t_inflight t' ≠ [])).
  - eapply nearly_put; [exact Hn1 | done | | split; [done | cbn; by destruct (t_inflight t)]].
    pose proof (lv_total _ _ Hl eq_refl) as Htot. pose proof (last_offset_bounds _ Htot) as Hlast.
    destruct Hl1 as [L1 L2 L3 L4]. split; cbn; try done.
    + intros c' [Hc | ->%list_elem_of_singleton]%elem_of_app; [by apply L1 |]. cbn. lia.
    + intros c'. rewrite last_snoc. intros [= <-]. unfold ends. cbn. lia.
  - intros t' [F1 F2] _ _ _. unfold armed. by rewrite F1.
Qed.

(** The answer to a chunk confirms it. *)
Definition honest_chunk (r : ChunkUploadRsp) (t : ResourceTransferRuntime) : Prop :=
  (cu_ok r = true → cu_error r = 0 → ∀ c, head (t_inflight t) = Some c → cu_offset r = ic_offset c → ends c <= cu_server r) ∧
  honest_error (cu_error r) (cu_server r) t.

Lemma FindActive_get d mid t e : FindActive d mid e = Some t → get d mid e = Some t ∧ terminal t = false.
Proof. unfold FindActive. destruct (get d mid e) as [t' |]; [| done]. destruct (terminal t') eqn:E; [done |]. by intros [= <-]. Qed.

Lemma live_ok_tail d t c l : live_ok d t → t_inflight t = c :: l → live_ok d (with_window l (t_stale t) t).
Proof.
  intros [L1 L2 L3 L4] Hi. rewrite Hi in L1, L2. split; cbn; try done.
  - intros c' Hc. apply L1. by right.
  - intros c' Hc. apply L2. destruct l; [done | exact Hc].
Qed.

Lemma timed_HandleChunkUploadRsp r e :
  timed e → (∀ t, get TRANSFER_UPLOAD (cu_message r) e = Some t → honest_chunk r t) → timed (HandleChunkUploadRsp cfg v r e).
Proof.
  intros He Hhon. unfold HandleChunkUploadRsp. destruct (FindActive _ _ e) as [t |] eqn:Hf; [| done].
  apply FindActive_get in Hf as [Hg Ht]. destruct (Hhon t Hg) as [Hh1 Hh2].
  pose proof (timed_nearly _ _ _ _ He Hg Ht) as Hn. pose proof (nearly_Some _ _ _ _ Hn) as (t0 & Hg0 & _ & Hl & ->). clear Hg0.
  destruct (idle_query t); [done |].
  destruct (drains _ t).
  { destruct He as [N1 N2]. split; [by rewrite awaiting_put |]. intros d' mid' t'. rewrite get_put_case, conn_put.
    case_decide as Hd; [| apply N2]. injection Hd as -> ->. intros [= <-].
    destruct (N2 _ _ _ Hg) as [| [_ Ha]]; [congruence |]. right. split; [apply live_ok_window; [done | by right] | exact Ha]. }
  destruct (heads _ t) eqn:Ehd; cbn [negb].
  2: { destruct (late _ t); [done |]. apply timed_EmitUpdate. by eapply nearly_Resync. }
  unfold heads in Ehd. destruct (t_inflight t) as [| c l] eqn:Ei; [done |]. apply andb_true_iff in Ehd as [_ Eoff%Z.eqb_eq].
  cbn [tail]. set (t1 := with_window l (t_stale t) t). assert (Hl1 : live_ok TRANSFER_UPLOAD t1) by by eapply live_ok_tail.
  assert (Hn1 : nearly TRANSFER_UPLOAD (cu_message r) (λ t', t' = t1) (put TRANSFER_UPLOAD (cu_message r) t1 e)) by by eapply nearly_put.
  destruct (cu_ok r) eqn:Eok; cbn [negb].
  2: { eapply nearly_bad_answer; [exact Hn1 |]. intros e' Hn'. by eapply nearly_backoff. }
  destruct (cu_error r =? 0) eqn:Eerr; cbn [negb].
  2: { apply nearly_HandleUploadError. eapply nearly_mono; [| exact Hn1]. by intros t' ->. }
  apply Z.eqb_eq in Eerr. specialize (Hh1 eq_refl Eerr c eq_refl Eoff).
  set (t2 := if t_acked _ <? _ then _ else _).
  assert (H2 : t_inflight t2 = l ∧ t_wire t2 = t_wire t ∧ t_total t2 = t_total t ∧ terminal t2 = false ∧ live_ok TRANSFER_UPLOAD t2 ∧
    (t_acked t2 = t_acked t ∧ cu_server r <= t_acked t ∨ t_acked t2 = Z.min (cu_server r) (t_total t) ∧ t_acked t < cu_server r)).
  { unfold t2. destruct (t_acked _ <? cu_server r) eqn:El; cbn in El; bool_to_prop; cbn; (split_and!; [done.. | |]).
    - destruct Hl1 as [L1 L2 L3 L4]. split; cbn in *; try done. intros c' Hc'. destruct (L2 c' Hc') as [| []]; [by left | right; left; lia | by right; right].
    - by right.
    - destruct Hl1. by split.
    - by left. }
  destruct H2 as (F1 & F2 & F3 & F4 & F5 & F6).
  assert (Hn2 : ∀ e0, nearly TRANSFER_UPLOAD (cu_message r) (λ t', t' = t1) e0 → nearly TRANSFER_UPLOAD (cu_message r) (λ t', t' = t2) (put TRANSFER_UPLOAD (cu_message r) t2 e0)).
  { intros e0 Hn0. by eapply nearly_put. }
  destruct (cu_status r =? kStatusPublished); [eapply nearly_Complete; by apply Hn2 |].
  destruct (t_total t2 <=? t_acked t2) eqn:Eall; [eapply nearly_MaybeResendLastChunk; by apply Hn2 |]. bool_to_prop.
  apply timed_EmitUpdate, (nearly_Pump TRANSFER_UPLOAD (cu_message r)). eapply nearly_put; [by apply Hn2 | done | destruct F5; by split |].
  split; [done |]. cbn. rewrite F1, F2, F3. intros ->.
  destruct (lv_last _ _ Hl c) as [| []]; [by rewrite Ei | done | |]; exfalso; rewrite F3 in Eall; lia.
Qed.

Lemma nearly_SendInstantProof mid P t nonce off len e :
  nearly TRANSFER_UPLOAD mid P e → get TRANSFER_UPLOAD mid e = Some t → timed (SendInstantProof cfg v mid t nonce off len e).
Proof.
  intros Hn Hg. destruct (nearly_get _ _ _ _ _ Hn Hg) as (Ht & Hl & _). unfold SendInstantProof.
  destruct (negb (challenge_ok _ _ _ _)); [eapply nearly_bad_answer; [exact Hn | intros; by eapply nearly_backoff] |].
  destruct (read_source _ _ _ _); [by eapply nearly_Fail |]. set (e' := send _ _).
  assert (He' : timed e').
  { apply timed_send. apply (nearly_timed TRANSFER_UPLOAD mid (λ t', t_phase t' = TRANSFER_QUERYING ∧ t_query t' = v_now v)).
    - eapply nearly_put; [exact Hn | done | | done]. destruct (live_ok_Rollback (t_acked t) t Hl). by split.
    - intros t' [F1 F2] _ _ _. unfold armed. rewrite F1, F2. exact now_pos. }
  destruct (get _ _ e'); [| done]. destruct (t_proof_pending _); [by apply timed_EmitUpdate | done].
Qed.

Lemma nearly_continue_upload mid r so e :
  nearly TRANSFER_UPLOAD mid (λ t, t_phase t = TRANSFER_ACTIVE ∧ (so < t_total t → t_wire t < t_total t)) e →
  timed (continue_upload cfg v mid r so e).
Proof.
  intros Hn. destruct (nearly_Some _ _ _ _ Hn) as (t & Hg & Ht & Hl & Hp & Hw). unfold continue_upload. rewrite Hg.
  destruct (_ && _); [by eapply nearly_SendInstantProof |].
  set (t1 := with_publish 0 _). assert (Hl1 : live_ok TRANSFER_UPLOAD t1) by (destruct Hl; by split).
  destruct (t_total t <=? so) eqn:E; bool_to_prop.
  - eapply nearly_MaybeResendLastChunk, (nearly_put _ _ _ (λ _, True)); [exact Hn | exact Ht | done..].
  - apply timed_EmitUpdate, (nearly_Pump TRANSFER_UPLOAD mid). eapply nearly_put; [exact Hn | exact Ht | done |]. split; [done | auto].
Qed.

Lemma timed_HandleProgressRsp r e :
  timed e → (∀ t, get TRANSFER_UPLOAD (pr_message r) e = Some t → honest_error (pr_error r) (pr_server r) t) →
  timed (HandleProgressRsp cfg v r e).
Proof.
  intros He Hhon. unfold HandleProgressRsp. destruct (FindActive _ _ e) as [t |] eqn:Hf; [| done].
  apply FindActive_get in Hf as [Hg Ht]. pose proof (Hhon t Hg) as Hh.
  pose proof (timed_nearly _ _ _ _ He Hg Ht) as Hn. pose proof (nearly_Some _ _ _ _ Hn) as (t0 & Hg0 & _ & Hl & ->). clear Hg0.
  destruct (t_proof_pending t); [done |]. set (t1 := with_query 0 t). set (mid := pr_message r) in *.
  assert (Hl1 : live_ok TRANSFER_UPLOAD t1) by (destruct Hl; by split).
  assert (Hn1 : nearly TRANSFER_UPLOAD mid (λ t', t' = t1) (put TRANSFER_UPLOAD mid t1 e)) by by eapply nearly_put.
  destruct (negb (pr_ok r) || negb (pr_error r =? 0)).
  { apply nearly_HandleUploadError. eapply nearly_mono; [| exact Hn1]. intros t' ->. destruct (pr_ok r); [exact Hh |]. by intros Hx. }
  destruct (pr_status r =? kStatusPublished); [by eapply nearly_Complete |].
  destruct (pr_status r =? kStatusFailed); [by eapply nearly_Fail |].
  destruct (negb (pr_size r =? t_total t1)); [by eapply nearly_Fail |].
  destruct ((0 <? pr_chunk r) && _); [eapply nearly_bad_answer; [exact Hn1 | intros; by eapply nearly_backoff] |].
  set (so := Z.min _ _). set (t2 := with_phase TRANSFER_ACTIVE _).
  assert (Hl2 : live_ok TRANSFER_UPLOAD t2).
  { destruct Hl1 as [L1 L2 L3 L4]. split; cbn; try done. intros c Hc. destruct (decide (so < t_total t)); [by left | right; left; lia]. }
  assert (Hn2 : nearly TRANSFER_UPLOAD mid (λ t', t' = t2) (put TRANSFER_UPLOAD mid t2 (put TRANSFER_UPLOAD mid t1 e))) by by eapply nearly_put.
  destruct (t_paused t2) eqn:Epa.
  { apply timed_EmitUpdate. eapply nearly_timed; [exact Hn2 |]. intros t' -> _ _ ?. congruence. }
  unfold EnsureSourceOpen.
  destruct (t_source t2). { apply nearly_continue_upload. eapply nearly_mono; [| exact Hn2]. by intros t' ->. }
  destruct (v_size v _) as [n |]; [| by eapply nearly_Fail]. destruct (negb (n =? _)); [by eapply nearly_Fail |].
  destruct (negb (v_open v _)); [by eapply nearly_Fail |]. apply nearly_continue_upload. eapply nearly_upd; [exact Hn2 |].
  intros t' Ht' [L1 L2 L3 L4] ->. by split.
Qed.

Lemma timed_HandleInstantProofRsp r e :
  timed e → (∀ t, get TRANSFER_UPLOAD (ip_message r) e = Some t → honest_error (ip_error r) (ip_server r) t) →
  timed (HandleInstantProofRsp cfg v r e).
Proof.
  intros He Hhon. unfold HandleInstantProofRsp. destruct (FindActive _ _ e) as [t |] eqn:Hf; [| done].
  apply FindActive_get in Hf as [Hg Ht]. pose proof (Hhon t Hg) as Hh.
  pose proof (timed_nearly _ _ _ _ He Hg Ht) as Hn. pose proof (nearly_Some _ _ _ _ Hn) as (t0 & Hg0 & _ & Hl & ->). clear Hg0.
  destruct (negb (t_proof_pending t)); [done |]. set (t1 := with_query 0 _). set (mid := ip_message r) in *.
  assert (Hl1 : live_ok TRANSFER_UPLOAD t1) by (destruct Hl; by split).
  assert (Hn1 : nearly TRANSFER_UPLOAD mid (λ t', t' = t1) (put TRANSFER_UPLOAD mid t1 e)) by by eapply nearly_put.
  assert (Hbad : timed (HandleUploadError cfg v mid (CommonErrCode_code ERR_JSON) (-1) (put TRANSFER_UPLOAD mid t1 e))).
  { apply nearly_HandleUploadError. eapply nearly_mono; [| exact Hn1]. by intros t' -> Hx. }
  destruct (negb (ip_ok r)); [exact Hbad |].
  destruct (ip_error r =? ResourceErrCode_code RS_INSTANT_PROOF_INVALID).
  { apply timed_EmitUpdate. eapply nearly_Resync, (nearly_put _ _ _ (λ _, True)); [exact Hn1 | exact Ht | | done]. destruct Hl1. by split. }
  destruct (negb (ip_error r =? 0)).
  { apply nearly_HandleUploadError. eapply nearly_mono; [| exact Hn1]. by intros t' ->. }
  destruct (negb (ip_status r =? _)); [exact Hbad |]. destruct (_ || _); [exact Hbad |].
  eapply nearly_Complete, (nearly_put _ _ _ (λ _, True)); [exact Hn1 | exact Ht | | done].
  destruct Hl1 as [L1 L2 L3 L4]. split; cbn; try done. intros c Hc. right. left. lia.
Qed.

(** *** Downloads *)

(** A transfer that is about to end or to start anew. *)
Definition others (d : TransferDirection) (mid : Z) (e : engine) : Prop :=
  e_awaiting e = false ∧ (∀ d' mid' t, (d', mid') ≠ (d, mid) → get d' mid' e = Some t → good (e_conn e) d' t).

Lemma nearly_others d mid P e : nearly d mid P e → others d mid e.
Proof. by intros (H1 & H2 & _). Qed.

Lemma others_put d mid t e : others d mid e → others d mid (put d mid t e).
Proof. intros [H1 H2]. split; [by rewrite awaiting_put |]. intros d' mid' t' Hne. rewrite get_put_ne, conn_put by done. by apply H2. Qed.

Lemma others_nearly d mid (Q : ResourceTransferRuntime → Prop) t e :
  others d mid e → terminal t = false → live_ok d t → Q t → nearly d mid Q (put d mid t e).
Proof.
  intros Ho Ht Hl HQ. destruct (others_put d mid t e Ho) as [H1 H2]. split; [done |]. split; [done |]. exists t. by rewrite get_put.
Qed.

Lemma others_same d mid e e' :
  e_awaiting e' = e_awaiting e → e_conn e' = e_conn e → (∀ d mid, get d mid e' = get d mid e) → others d mid e → others d mid e'.
Proof. intros Ha Hc Hg [H1 H2]. split; [congruence |]. intros d' mid' t'. rewrite Hg, Hc. apply H2. Qed.

Lemma others_io d mid e o e' : io e = (o, e') → others d mid e → others d mid e'.
Proof. intros (E1 & E2 & _ & _ & E3 & _)%io_spec. apply others_same; [done.. |]. intros. unfold get. by rewrite E3. Qed.

Lemma others_disk d mid disk e : others d mid e → others d mid (with_disk disk e).
Proof. apply others_same; [done.. |]. by intros []. Qed.

Lemma others_end d mid t' o e : others d mid e → terminal t' = true → timed (PromoteWaiting cfg v d (emit o (put d mid t' e))).
Proof.
  intros [H1 H2] Ht. apply timed_promote, timed_emit. split; [by rewrite awaiting_put |].
  intros d' mid' t2. rewrite get_put_case, conn_put. case_decide as Hd; [| by apply H2]. intros [= <-]. by left.
Qed.

Lemma others_Fail d mid code text t e : others d mid e → get d mid e = Some t → timed (FailTransfer cfg v d mid code text e).
Proof. intros Ho Hg. unfold FailTransfer. rewrite Hg. by apply others_end. Qed.

Lemma get_io e o e' d mid : io e = (o, e') → get d mid e' = get d mid e.
Proof. intros (_ & _ & _ & _ & E3 & _)%io_spec. unfold get. by rewrite E3. Qed.

Lemma get_disk d mid disk e : get d mid (with_disk disk e) = get d mid e.
Proof. by destruct d. Qed.

(** The transfer is [t] and the others are in order. *)
Definition has (mid : Z) (t : ResourceTransferRuntime) (e : engine) : Prop :=
  others TRANSFER_DOWNLOAD mid e ∧ get TRANSFER_DOWNLOAD mid e = Some t.

Lemma has_io mid t e o e' : io e = (o, e') → has mid t e → has mid t e'.
Proof. intros Hio [H1 H2]. split; [by eapply others_io | by rewrite (get_io _ _ _ _ _ Hio)]. Qed.

Lemma has_disk mid t disk e : has mid t e → has mid t (with_disk disk e).
Proof. intros [H1 H2]. split; [by apply others_disk | by rewrite get_disk]. Qed.

Lemma has_put mid t t' e : has mid t e → has mid t' (put TRANSFER_DOWNLOAD mid t' e).
Proof. intros [H1 _]. split; [by apply others_put | apply get_put]. Qed.

Lemma has_Fail mid t code text e : has mid t e → timed (FailTransfer cfg v TRANSFER_DOWNLOAD mid code text e).
Proof. intros [H1 H2]. by eapply others_Fail. Qed.

Lemma nearly_has mid P e : nearly TRANSFER_DOWNLOAD mid P e → ∃ t, has mid t e ∧ terminal t = false ∧ live_ok TRANSFER_DOWNLOAD t ∧ P t.
Proof. intros Hn. destruct (nearly_Some _ _ _ _ Hn) as (t & Hg & Hx). exists t. split; [split; [by eapply nearly_others | done] | done]. Qed.

Lemma has_FinishDownload mid t e : has mid t e → timed (FinishDownload cfg v mid e).
Proof.
  intros Hn. pose proof Hn as [_ Hg]. unfold FinishDownload. rewrite Hg.
  destruct (negb (t_part t)); [by eapply has_Fail |].
  match goal with |- context [let '(_, _) := ?x in _] => destruct x as [h e1] eqn:E end.
  assert (Hn1 : has mid t e1).
  { destruct (t_hash_valid t); [by injection E as _ <- |]. destruct (io e) as [o e2] eqn:E2.
    apply (has_io _ _ _ _ _ E2) in Hn. destruct (negb _); [by injection E as _ <- |]. destruct (io e2) as [o2 e3] eqn:E3.
    apply (has_io _ _ _ _ _ E3) in Hn. destruct (negb _); by injection E as _ <-. }
  destruct h as [text | h]; [by eapply has_Fail |].
  destruct (negb _ && negb _).
  { destruct (io e1) as [o e2] eqn:E2. apply (has_io _ _ _ _ _ E2) in Hn1.
    destruct (io_ok o); eapply has_Fail; [by apply has_disk | done]. }
  match goal with |- context [let '(_, _) := ?x in _] => destruct x as [o e2] eqn:E2 end.
  assert (Hn2 : has mid t e2) by (destruct (bool_decide _); [by eapply has_io | by injection E2 as _ <-]).
  destruct (negb (io_ok o)); [by eapply has_Fail |].
  destruct (io (with_disk _ e2)) as [o3 e3] eqn:E3. apply (has_disk _ _ (delete (dn_path (t_download t)) (e_disk e2))) in Hn2.
  apply (has_io _ _ _ _ _ E3) in Hn2. destruct (negb (io_ok o3)); [by eapply has_Fail |].
  set (disk := <[_ := _]> _). apply (has_disk _ _ disk) in Hn2. unfold CompleteTransfer. rewrite get_put.
  apply others_end; [apply others_put, Hn2 | done].
Qed.

Lemma live_ok_down t : t_inflight t = [] → t_reconnect t = false → live_ok TRANSFER_DOWNLOAD t.
Proof. intros Hi Hr. split; rewrite ?Hi, ?Hr; try done. intros c Hc. by apply not_elem_of_nil in Hc. Qed.

Lemma has_OpenDownloadPart mid t e :
  has mid t e → terminal t = false → t_reconnect t = false → timed (OpenDownloadPart cfg v mid e).
Proof.
  intros Hn Ht Hrec. pose proof Hn as [_ Hg]. unfold OpenDownloadPart. rewrite Hg.
  destruct (io e) as [o e1] eqn:E1. apply (has_io _ _ _ _ _ E1) in Hn.
  destruct (negb (io_ok o)); [by eapply has_Fail, has_put |].
  match goal with |- context [let '(_, _) := (if ?b then _ else _) in _] => set (resumed := b) end.
  destruct (if resumed then (IoOk, e1) else io e1) as [o2 e2] eqn:E2.
  assert (Hn2 : has mid t e2) by (destruct resumed; [by injection E2 as _ <- | by eapply has_io]).
  destruct (negb (io_ok o2)); [by eapply has_Fail, has_put, has_disk |].
  set (t1 := with_window [] [] _). match goal with |- context [with_disk ?x e2] => set (disk := x) end.
  assert (Hn3 : has mid t1 (put TRANSFER_DOWNLOAD mid t1 (with_disk disk e2))) by (eapply has_put, has_disk; exact Hn2).
  destruct (_ || _) eqn:Efin; [by eapply has_FinishDownload |]. bool_to_prop.
  apply timed_EmitUpdate, (nearly_Pump TRANSFER_DOWNLOAD mid). apply others_nearly; [apply Hn3 | done | by apply live_ok_down |].
  split; [done |]. intros _. cbn in *. lia.
Qed.

Lemma nearly_down_error mid P error t e : nearly TRANSFER_DOWNLOAD mid P e → timed (down_error cfg v mid error t e).
Proof.
  intros Hn. unfold down_error. destruct (IsPermanentError error); [by eapply nearly_Fail |].
  destruct (error =? _); [eapply nearly_bad_answer; [exact Hn | intros; by eapply nearly_backoff] | by eapply nearly_backoff].
Qed.

Lemma timed_HandleDownInfoRsp r e : timed e → timed (HandleDownInfoRsp cfg v r e).
Proof.
  intros He. unfold HandleDownInfoRsp. destruct (FindActive _ _ e) as [t |] eqn:Hf; [| done].
  apply FindActive_get in Hf as [Hg Ht]. set (mid := di_message r) in *.
  pose proof (timed_nearly _ _ _ _ He Hg Ht) as Hn. pose proof (nearly_Some _ _ _ _ Hn) as (t0 & Hg0 & _ & Hl & ->). clear Hg0.
  set (t1 := with_query 0 t). assert (Hl1 : live_ok TRANSFER_DOWNLOAD t1) by (destruct Hl; by split).
  assert (Hn1 : nearly TRANSFER_DOWNLOAD mid (λ _, True) (put TRANSFER_DOWNLOAD mid t1 e)) by by eapply nearly_put.
  destruct (_ || _); [by eapply nearly_down_error |]. set (t2 := with_json 0 _).
  assert (Hl2 : live_ok TRANSFER_DOWNLOAD t2) by (destruct Hl; by split).
  assert (Hn2 : nearly TRANSFER_DOWNLOAD mid (λ _, True) (put TRANSFER_DOWNLOAD mid t2 (put TRANSFER_DOWNLOAD mid t1 e)))
    by by eapply nearly_put.
  destruct (_ && _); [by eapply nearly_Fail |]. set (t3 := if bool_decide _ then _ else _).
  apply (has_OpenDownloadPart mid t3).
  - split; [eapply others_put, nearly_others; exact Hn2 | apply get_put].
  - unfold t3. by case_match.
  - unfold t3. case_match; apply (lv_reconnect _ _ Hl).
Qed.

Lemma timed_HandleChunkDownRsp r e : timed e → timed (HandleChunkDownRsp cfg v r e).
Proof.
  intros He. unfold HandleChunkDownRsp. destruct (FindActive _ _ e) as [t |] eqn:Hf; [| done].
  apply FindActive_get in Hf as [Hg Ht]. set (mid := cd_message r) in *.
  pose proof (timed_nearly _ _ _ _ He Hg Ht) as Hn. pose proof (nearly_has _ _ _ Hn) as (t0 & Hhas & _ & Hl & ->).
  destruct (idle_query t); [done |].
  destruct (drains _ t).
  { destruct He as [N1 N2]. split; [by rewrite awaiting_put |]. intros d' mid' t'. rewrite get_put_case, conn_put.
    case_decide as Hd; [| apply N2]. injection Hd as -> ->. intros [= <-].
    destruct (N2 _ _ _ Hg) as [| [_ Ha]]; [congruence |]. right. split; [apply live_ok_window; [done | by right] | exact Ha]. }
  destruct (negb (cd_ok r) || _).
  { case_match; [| by eapply nearly_down_error]. eapply nearly_backoff, (nearly_put _ _ _ (λ _, True)); [exact Hn | exact Ht | | done].
    apply live_ok_down; [done | apply (lv_reconnect _ _ Hl)]. }
  destruct (heads _ t) eqn:Ehd; cbn [negb]; [| destruct (late _ t); [done | by eapply nearly_backoff]].
  unfold heads in Ehd. destruct (t_inflight t) as [| c l] eqn:Ei; [done |]. apply andb_true_iff in Ehd as [_ Eoff%Z.eqb_eq].
  cbn [tail]. set (t1 := with_window l (t_stale t) t). assert (Hl1 : live_ok TRANSFER_DOWNLOAD t1) by by eapply live_ok_tail.
  destruct (chunk_valid _ _ _) eqn:Ev; cbn [negb].
  2: { destruct (_ <=? _); [by eapply has_Fail, has_put |]. apply timed_EmitUpdate.
    set (t2 := with_wire _ _). assert (Hl2 : live_ok TRANSFER_DOWNLOAD t2) by (apply live_ok_down; [done | apply (lv_reconnect _ _ Hl)]).
    assert (Hn2 : nearly TRANSFER_DOWNLOAD mid (λ t', t' = t2) (put TRANSFER_DOWNLOAD mid t2 e)) by by eapply nearly_put.
    assert (Hwire : t_wire t2 < t_total t2).
    { cbn. rewrite Eoff. apply (lv_chunks _ _ Hl). rewrite Ei. left. }
    destruct (decide (t_phase t = TRANSFER_ACTIVE)) as [Hp | Hp].
    - apply (nearly_Pump TRANSFER_DOWNLOAD mid). eapply nearly_mono; [| exact Hn2]. intros t' ->. by split.
    - assert (Ht2 : timed (put TRANSFER_DOWNLOAD mid t2 e)).
      { eapply nearly_timed; [exact Hn2 |]. intros t' -> Hc Hs Hpa. rewrite conn_put in Hc. destruct He as [_ N2].
        destruct (N2 _ _ _ Hg) as [| [_ Ha]]; [congruence |]. specialize (Ha Hc Hs Hpa). unfold armed in *. cbn.
        by destruct (t_phase t). }
      unfold Pump. destruct (negb _); [done | by apply timed_pump]. }
  set (t2 := with_json 0 _). assert (Hhas2 : has mid t2 (put TRANSFER_DOWNLOAD mid t2 e)) by by eapply has_put.
  destruct (io _) as [o e3] eqn:E3. apply (has_io _ _ _ _ _ E3) in Hhas2.
  destruct (_ || _); [by eapply has_Fail |].
  destruct (write_part _ _ e3) as [ok e4] eqn:E4.
  assert (Hhas4 : has mid t2 e4).
  { unfold write_part in E4. destruct (io e3) as [o4 e5] eqn:E5. apply (has_io _ _ _ _ _ E5) in Hhas2.
    destruct o4; injection E4 as _ <-; by apply has_disk. }
  destruct (negb ok); [by eapply has_Fail |].
  set (t5 := landed _ _ t2). assert (Hhas5 : has mid t5 (put TRANSFER_DOWNLOAD mid t5 e4)) by by eapply has_put.
  destruct (_ <=? _) eqn:Efin; [by eapply has_FinishDownload |]. bool_to_prop.
  assert (F : t_inflight t5 = l ∧ t_wire t5 = t_wire t ∧ t_total t5 = t_total t ∧ t_phase t5 = t_phase t ∧ t_reconnect t5 = t_reconnect t ∧
    t_acked t5 = cd_offset r + zlen (cd_data r) ∧ t_slot t5 = t_slot t ∧ t_paused t5 = t_paused t ∧ t_query t5 = t_query t ∧ t_retry_at t5 = t_retry_at t).
  { unfold t5, landed. by case_match. }
  destruct F as (F1 & F2 & F3 & F4 & F5 & F6 & F7 & F8 & F9 & F10).
  unfold chunk_valid in Ev. cbn in Ev. bool_to_prop.
  assert (Hends : t_acked t5 = ends c) by (unfold ends; lia).
  assert (Hl5 : live_ok TRANSFER_DOWNLOAD t5).
  { destruct Hl1 as [L1 L2 L3 L4]. cbn in L1, L2, L3, L4. split; rewrite ?F1, ?F2, ?F3, ?F5; try done. intros c' Hc'.
    destruct (L2 c' Hc') as [| []]; [by left | | by right; right]. exfalso. pose proof (zlen_nonneg (cd_data r)). lia. }
  assert (Hn5 : nearly TRANSFER_DOWNLOAD mid (λ t', t' = t5) (put TRANSFER_DOWNLOAD mid t5 e4)).
  { eapply others_nearly; [apply Hhas4 | unfold terminal; rewrite F4; exact Ht | done..]. }
  apply timed_EmitUpdate. destruct (decide (t_phase t = TRANSFER_ACTIVE)) as [Hp | Hp].
  - apply (nearly_Pump TRANSFER_DOWNLOAD mid). eapply nearly_mono; [| exact Hn5]. intros t' ->. rewrite F1, F2, F3, F4. split; [done |]. intros ->.
    destruct (lv_last _ _ Hl c) as [| []]; [by rewrite Ei | done | |]; exfalso; pose proof (zlen_nonneg (cd_data r)); lia.
  - assert (Ht5 : timed (put TRANSFER_DOWNLOAD mid t5 e4)).
    { eapply nearly_timed; [exact Hn5 |]. intros t' -> Hc Hs Hpa. rewrite conn_put in Hc. destruct He as [_ N2].
      assert (Hc0 : e_conn e = true).
      { unfold write_part in E4. destruct (io e3) as [o4 e5] eqn:E5. apply io_spec in E5 as (C5 & _). apply io_spec in E3 as (C3 & _).
        rewrite conn_put in C3. destruct o4; injection E4 as _ <-; cbn in Hc; congruence. }
      destruct (N2 _ _ _ Hg) as [| [_ Ha]]; [congruence |]. specialize (Ha Hc0 ltac:(congruence) ltac:(congruence)). unfold armed in *.
      rewrite F4, F9, F10. by destruct (t_phase t). }
    unfold Pump. destruct (negb _); [done | by apply timed_pump].
Qed.

(** *** Operations *)

Lemma timed_delete d mid e : timed e → timed (with_map d (delete mid (MapFor d e)) e).
Proof.
  intros [H1 H2]. split; [by destruct d |]. intros d' mid' t. unfold get. rewrite MapFor_with_map.
  assert (Hc : e_conn (with_map d (delete mid (MapFor d e)) e) = e_conn e) by by destruct d. rewrite Hc.
  case_decide as Hd; [subst d'; intros [_ Hl]%lookup_delete_Some | intros Hl]; by eapply H2.
Qed.

Lemma timed_put_good d mid t e : timed e → good (e_conn e) d t → timed (put d mid t e).
Proof.
  intros [H1 H2] Hg. split; [by rewrite awaiting_put |]. intros d' mid' t'. rewrite get_put_case, conn_put.
  case_decide as Hd; [injection Hd as -> ->; by intros [= <-] | apply H2].
Qed.

Lemma good_idle b d t : live_ok d t → t_slot t = false ∨ t_paused t = true → good b d t.
Proof. intros Hl Hx. right. split; [done |]. intros _ Hs Hp. destruct Hx; congruence. Qed.

Lemma timed_start_transfer d mid t e :
  timed e → live_ok d t → terminal t = false → t_slot t = false → timed (start_transfer cfg v d mid t e).
Proof.
  intros He Hl Ht Hs. unfold start_transfer. assert (He1 : timed (put d mid t e)) by (apply timed_put_good; [done | apply good_idle; auto]).
  destruct (limit cfg d <=? _); apply timed_EmitUpdate; [by apply timed_with_wait |].
  eapply nearly_BeginQuery, nearly_slot; [exact He1 | apply get_put | done].
Qed.

Lemma timed_fail_new d mid t text e : timed e → timed (fail_new cfg v d mid t text e).
Proof. intros He. apply timed_put_good; [by apply timed_promote, timed_emit | by left]. Qed.

Lemma timed_StartUpload r e : timed e → timed (StartUpload cfg v r e).2.
Proof.
  intros He. unfold StartUpload. destruct (_ || _); [done |]. destruct (FindActive _ _ e); [done |].
  pose proof (timed_delete TRANSFER_UPLOAD (up_message r) e He) as He1. cbn [MapFor] in He1.
  destruct (up_size r <=? 0) eqn:E; cbn [snd]; [by apply timed_fail_new |]. bool_to_prop.
  apply timed_start_transfer; try done. split; cbn; try done. intros c Hc. by apply not_elem_of_nil in Hc.
Qed.

Lemma timed_StartDownload r e : timed e → timed (StartDownload cfg v r e).2.
Proof.
  intros He. unfold StartDownload. destruct (_ || _); [done |]. destruct (FindActive _ _ e); [done |].
  pose proof (timed_delete TRANSFER_DOWNLOAD (dn_message r) e He) as He1. cbn [MapFor] in He1.
  destruct (negb (v_mkpath v _)); cbn [snd]; [by apply timed_fail_new |].
  apply timed_start_transfer; try done. by apply live_ok_down.
Qed.

Lemma timed_PauseTransfer d mid e : timed e → timed (PauseTransfer d mid e).
Proof.
  intros He. unfold PauseTransfer. destruct (FindActive d mid e) as [t |] eqn:Hf; [| done].
  apply FindActive_get in Hf as [Hg Ht]. destruct (t_paused t); [done |]. apply timed_EmitUpdate, timed_put_good; [done |].
  destruct He as [_ H2]. destruct (H2 _ _ _ Hg) as [| [[L1 L2 L3 L4] _]]; [congruence |]. apply good_idle; [by split | by right].
Qed.

Lemma timed_ResumeTransfer d mid e : timed e → timed (ResumeTransfer cfg v d mid e).
Proof.
  intros He. unfold ResumeTransfer. destruct (get d mid e) as [t |] eqn:Hg; [| done].
  destruct (terminal t) eqn:Ht; [done |]. destruct (negb (t_paused t)); [done |]. cbn [orb].
  pose proof (timed_nearly _ _ _ _ He Hg Ht) as Hn. set (t1 := with_paused false t).
  assert (Hl1 : live_ok d t1).
  { destruct He as [_ H2]. destruct (H2 _ _ _ Hg) as [| [[L1 L2 L3 L4] _]]; [congruence |]. by split. }
  assert (Hn1 : nearly d mid (λ _, True) (put d mid t1 e)) by by eapply nearly_put.
  destruct (t_slot t) eqn:Es; cbn [negb].
  - destruct d; apply timed_EmitUpdate; [by eapply nearly_Resync | by eapply nearly_BeginQuery].
  - apply timed_EmitUpdate, timed_promote, timed_put_good; [done |]. apply good_idle; [done | by left].
Qed.

Lemma timed_CancelTransfer d mid e : timed e → timed (CancelTransfer cfg v d mid e).
Proof.
  intros He. unfold CancelTransfer. destruct (FindActive d mid e) as [t |] eqn:Hf; [| done].
  apply FindActive_get in Hf as [Hg Ht]. by eapply nearly_Fail, timed_nearly.
Qed.

Lemma good_live_cut_off d t : terminal t = true ∨ (d = TRANSFER_UPLOAD → 0 < t_total t) → good false d (cut_off t).
Proof.
  intros Hx. unfold cut_off. destruct (terminal t) eqn:Ht; [by left |]. destruct Hx as [| Htot]; [congruence |].
  right. split; [| done]. split; cbn; try done. intros c Hc. by apply not_elem_of_nil in Hc.
Qed.

Lemma timed_down e :
  (∀ d mid t, get d mid e = Some t → terminal t = true ∨ (d = TRANSFER_UPLOAD → 0 < t_total t)) → timed (OnConnectionDown e).
Proof.
  intros Hx. split; [done |]. intros d mid t. rewrite get_OnConnectionDown, fmap_Some. intros (t0 & Ht0 & ->).
  apply good_live_cut_off. by eapply Hx.
Qed.

Lemma good_total b d t : good b d t → terminal t = true ∨ (d = TRANSFER_UPLOAD → 0 < t_total t).
Proof. intros [Ht | [Hl _]]; [by left | right; apply (lv_total _ _ Hl)]. Qed.

(** The connection is back: those in [X] have not been asked for yet. *)
Definition stage (X : TransferDirection → Z → Prop) (e : engine) : Prop :=
  e_awaiting e = false ∧ ∀ d mid t, get d mid e = Some t →
    terminal t = true ∨ live_ok d t ∧ (e_conn e = true → t_slot t = true → t_paused t = false → X d mid ∨ armed t).

Lemma stage_mono (X Y : TransferDirection → Z → Prop) e :
  (∀ d mid t, get d mid e = Some t → X d mid → Y d mid) → stage X e → stage Y e.
Proof.
  intros HXY [H1 H2]. split; [done |]. intros d mid t Hg. destruct (H2 _ _ _ Hg) as [| [Hl Ha]]; [by left |]. right.
  split; [done |]. intros Hc Hs Hp. destruct (Ha Hc Hs Hp); [left; by eapply HXY | by right].
Qed.

Lemma stage_send X f e : stage X e → stage X (send f e).
Proof.
  intros [H1 H2]. split; [by apply awaiting_send |]. intros d mid t.
  destruct (send_cases f e) as [(Hc & Hg & _) | (Hc1 & Hc & Hg)]; rewrite Hg, Hc; [apply H2 |].
  rewrite fmap_Some. intros (t0 & Ht0 & ->). destruct (H2 _ _ _ Ht0) as [Hx | [Hl _]].
  - left. unfold cut_off. by rewrite Hx.
  - destruct (good_live_cut_off d t0) as [| [Hl' _]]; [right; apply (lv_total _ _ Hl) | by left | by right].
Qed.

Lemma stage_put (X Y : TransferDirection → Z → Prop) d mid t e :
  stage X e → (∀ d' mid', (d', mid') ≠ (d, mid) → X d' mid' → Y d' mid') → live_ok d t →
  (e_conn e = true → t_slot t = true → t_paused t = false → Y d mid ∨ armed t) → stage Y (put d mid t e).
Proof.
  intros [H1 H2] HXY Hl Ha. split; [by rewrite awaiting_put |]. intros d' mid' t'. rewrite get_put_case, conn_put.
  case_decide as Hd.
  - injection Hd as -> ->. intros [= <-]. by right.
  - intros Hg. destruct (H2 _ _ _ Hg) as [| [Hl' Ha']]; [by left |]. right. split; [done |]. intros Hc Hs Hp.
    destruct (Ha' Hc Hs Hp); [left; by apply HXY | by right].
Qed.

Lemma stage_resume_one (X : TransferDirection → Z → Prop) d mid e :
  stage (λ d' mid', (d', mid') = (d, mid) ∨ X d' mid') e → stage X (resume_one v d e mid).
Proof.
  intros Hst. assert (Hskip : (∀ t, get d mid e = Some t → negb (t_slot t) || terminal t || t_paused t = true) → stage X e).
  { intros Hx. destruct Hst as [H1 H2]. split; [done |]. intros d' mid' t' Hg.
    destruct (H2 _ _ _ Hg) as [| [Hl Ha]]; [by left |]. destruct (terminal t') eqn:Ht; [by left |]. right.
    split; [done |]. intros Hc Hs Hp. destruct (Ha Hc Hs Hp) as [[[= -> ->] |] |]; [| by left | by right].
    specialize (Hx _ Hg). by rewrite Hs, Hp, Ht in Hx. }
  unfold resume_one. destruct (get d mid e) as [t |] eqn:Hg; [| by apply Hskip].
  destruct (negb (t_slot t) || terminal t || t_paused t) eqn:E; [by apply Hskip; intros ? [= <-] |].
  apply orb_false_iff in E as [[_ Ht]%orb_false_iff Hp].
  assert (Hl : live_ok d t) by (destruct Hst as [_ H2]; destruct (H2 _ _ _ Hg) as [| []]; [congruence | done]).
  set (t1 := with_retries 0 _). assert (Hl1 : live_ok d t1) by (destruct Hl; by split).
  assert (Hst1 : stage (λ d' mid', (d', mid') = (d, mid) ∨ X d' mid') (put d mid t1 e)).
  { eapply stage_put; [exact Hst | done | done |]. intros. by left; left. }
  unfold BeginQuery. rewrite get_put, conn_put. cbn [t_paused with_phase with_pending with_proof t1 with_retries with_count with_reconnect with_timers].
  rewrite Hp, orb_false_r.
  assert (Hx : ∀ q l s, (e_conn e = true → 0 < q) → l = [] ∨ l = t_inflight t →
    stage X (put d mid (with_window l s (with_query q (with_phase TRANSFER_QUERYING (with_pending false t1)))) (put d mid t1 e))).
  { intros q l s Hq Hll. eapply stage_put; [exact Hst1 | by intros d' mid' Hne [|] | |].
    - apply live_ok_window; [| done]. destruct Hl1. by split.
    - rewrite conn_put. intros Hc _ _. right. by apply Hq. }
  destruct (e_conn e) eqn:Ec; cbn [negb].
  - destruct d; apply stage_send, Hx; auto.
  - by apply (Hx 0 (t_inflight t) (t_stale t)); [| right].
Qed.

Lemma stage_resume (X : TransferDirection → Z → Prop) d l e :
  stage (λ d' mid', d' = d ∧ mid' ∈ l ∨ X d' mid') e → stage X (foldl (resume_one v d) e l).
Proof.
  revert e. induction l as [| mid l IH]; intros e Hst; cbn [foldl].
  - eapply stage_mono; [| exact Hst]. intros ? ? ? _ [[_ []%not_elem_of_nil] |]; done.
  - apply IH, stage_resume_one. eapply stage_mono; [| exact Hst].
    intros d' mid' ? _ [[-> [-> | ?]%elem_of_cons] |]; auto.
Qed.

Lemma elem_of_ids (m : gmap Z ResourceTransferRuntime) k : k ∈ ids m ↔ is_Some (m !! k).
Proof.
  unfold ids. rewrite list_elem_of_fmap. split.
  - intros ([k' t] & -> & Hin%elem_of_map_to_list). by exists t.
  - intros [t Ht]. exists (k, t). split; [done |]. by apply elem_of_map_to_list.
Qed.

Lemma timed_Pump e : timed e → timed (Pump cfg v e).
Proof. intros He. unfold Pump. destruct (negb _); [done | by apply timed_pump]. Qed.

Lemma timed_OnConnectionAuthenticated e : timed e → timed (OnConnectionAuthenticated cfg v e).
Proof.
  intros [H1 H2]. unfold OnConnectionAuthenticated. apply timed_Pump.
  set (e1 := with_conn true false e). set (e2 := foldl _ e1 _).
  assert (S2 : stage (λ d _, d = TRANSFER_DOWNLOAD) e2).
  { apply stage_resume. split; [done |]. intros d mid t Hg. destruct (H2 d mid t) as [| [Hl _]]; [exact Hg | by left |].
    right. split; [done |]. intros _ _ _. left. destruct d; [left | by right]. split; [done |]. apply elem_of_ids. by exists t. }
  assert (S3 : stage (λ _ _, False) (foldl (resume_one v TRANSFER_DOWNLOAD) e2 (ids (e_down e2)))).
  { apply stage_resume. eapply stage_mono; [| exact S2]. intros d mid t Hg ->. left. split; [done |].
    apply elem_of_ids. by exists t. }
  destruct S3 as [S31 S32]. split; [done |]. intros d mid t Hg. destruct (S32 _ _ _ Hg) as [| [Hl Ha]]; [by left |].
  right. split; [done |]. intros Hc Hs Hp. by destruct (Ha Hc Hs Hp).
Qed.

(** *** Time-outs *)

Lemma timed_HandleTimeout d mid e t : timed e → get d mid e = Some t → terminal t = false → timed (HandleTimeout d mid e).
Proof.
  intros He Hg Ht. destruct He as [H1 H2] eqn:E. clear E. unfold HandleTimeout. rewrite Hg. set (t1 := with_query 0 _).
  assert (Hl : live_ok d t1).
  { destruct (H2 _ _ _ Hg) as [| [[L1 L2 L3 L4] _]]; [congruence |]. split; cbn; try done. intros c Hc. by apply not_elem_of_nil in Hc. }
  destruct (t_paused t1) eqn:Ep; [apply timed_put_good; [done |]; apply good_idle; auto |].
  rewrite awaiting_put, H1. apply timed_down. intros d' mid' t' Hg'.
  assert (Hg2 : get d' mid' (put d mid (with_reconnect true (with_pending false t1)) e) = Some t') by (by destruct d').
  rewrite get_put_case in Hg2. case_decide as Hd; [injection Hd as -> ->; injection Hg2 as <-; right; apply (lv_total _ _ Hl) |].
  eapply good_total, H2, Hg2.
Qed.

Lemma timed_tick_one d mid e : timed e → timed (tick_one cfg v d e mid).
Proof.
  intros He. unfold tick_one. destruct (FindActive d mid e) as [t |] eqn:Hf; [| done]. apply FindActive_get in Hf as [Hg Ht].
  pose proof (timed_nearly _ _ _ _ He Hg Ht) as Hn. pose proof (nearly_Some _ _ _ _ Hn) as (t0 & _ & _ & Hl & ->).
  destruct (bool_decide (t_phase t = TRANSFER_BACKOFF) && _ && _) eqn:Eb.
  - apply andb_true_iff in Eb as [[Hp%bool_decide_eq_true _]%andb_true_iff _].
    assert (Hl1 : ∀ r, live_ok d (with_retry_at r t)) by (intros r; destruct Hl; by split).
    destruct (e_conn e) eqn:Ec; [by eapply nearly_BeginQuery, (nearly_put _ _ _ (λ _, True)) |].
    apply timed_put_good; [done |]. right. split; [done |]. by rewrite Ec.
  - do 2 (match goal with |- context [if ?b then HandleTimeout _ _ _ else _] => destruct b end; [by eapply timed_HandleTimeout |]).
    done.
Qed.

Lemma timed_ticks d l e : timed e → timed (foldl (tick_one cfg v d) e l).
Proof. revert e. induction l; intros e He; cbn [foldl]; [done |]. apply IHl. by apply timed_tick_one. Qed.

Lemma timed_OnTick e : timed e → timed (OnTick cfg v e).
Proof. intros He. by apply timed_ticks, timed_ticks. Qed.

(** What the answers of the server are assumed to say. *)
Definition honest (c : call) (e : engine) : Prop :=
  match c with
  | CallFrame (OnChunkUpload r) => ∀ t, get TRANSFER_UPLOAD (cu_message r) e = Some t → honest_chunk r t
  | CallFrame (OnProgress r) => ∀ t, get TRANSFER_UPLOAD (pr_message r) e = Some t → honest_error (pr_error r) (pr_server r) t
  | CallFrame (OnInstantProof r) => ∀ t, get TRANSFER_UPLOAD (ip_message r) e = Some t → honest_error (ip_error r) (ip_server r) t
  | _ => True
  end.

Lemma timed_start disk tp : timed (TransferEngine_ disk tp).
Proof. split; [done |]. intros [] mid t Hg; unfold get in Hg; cbn in Hg; by rewrite lookup_empty in Hg. Qed.

Lemma timed_perform c e : timed e → honest c e → timed (perform cfg v c e).
Proof.
  intros He Hh. destruct c as [r | r | d mid | d mid | d mid | | | | a |]; cbn [perform].
  - by apply timed_StartUpload.
  - by apply timed_StartDownload.
  - by apply timed_PauseTransfer.
  - by apply timed_ResumeTransfer.
  - by apply timed_CancelTransfer.
  - apply timed_down. intros d mid t Hg. eapply good_total, He, Hg.
  - by apply timed_OnConnectionAuthenticated.
  - apply get_same_timed with (TransferEngine_ (e_disk e) (e_tape e)); [done | done | by intros [] | apply timed_start].
  - destruct a; cbn [OnFrame].
    + by apply timed_HandleChunkUploadRsp.
    + by apply timed_HandleProgressRsp.
    + by apply timed_HandleDownInfoRsp.
    + by apply timed_HandleChunkDownRsp.
    + by apply timed_HandleInstantProofRsp.
  - by apply timed_OnTick.
Qed.

(** ** What the timer does *)

(** When the transfer is looked at again. *)
Definition deadline (t : ResourceTransferRuntime) : option Z :=
  match t_phase t with
  | TRANSFER_QUERYING => Some (t_query t + ack_timeout_ms cfg)
  | TRANSFER_BACKOFF => Some (t_retry_at t)
  | TRANSFER_ACTIVE => match t_inflight t with c :: _ => Some (ic_sent c + ack_timeout_ms cfg) | [] => None end
  | _ => None
  end.

Definition query_frame (d : TransferDirection) (mid : Z) : frame :=
  match d with TRANSFER_UPLOAD => ProgressReq mid | TRANSFER_DOWNLOAD => DownInfoReq mid end.

(** The server has been asked again, in what was put out since [old]. *)
Definition asked (d : TransferDirection) (mid : Z) (old : list output) (e : engine) : Prop :=
  (∃ t, get d mid e = Some t ∧ t_phase t = TRANSFER_QUERYING ∧ t_query t = v_now v) ∧
  ∃ l, e_out e = old ++ l ∧ Frame (query_frame d mid) ∈ l.

Lemma BeginQuery_asks d mid t e :
  get d mid e = Some t → t_paused t = false → e_conn e = true →
  e_conn (BeginQuery v d mid e) = false ∨ asked d mid (e_out e) (BeginQuery v d mid e).
Proof.
  intros Hg Hp Hc. unfold BeginQuery. rewrite Hg, Hc. cbn [negb orb t_paused with_phase with_pending with_proof]. rewrite Hp.
  assert (Hout : ∀ t' e', e_out (put d mid t' e') = e_out e') by by destruct d.
  assert (Hx : ∀ t', t_phase t' = TRANSFER_QUERYING → t_query t' = v_now v →
    e_conn (send (query_frame d mid) (put d mid t' e)) = false ∨ asked d mid (e_out e) (send (query_frame d mid) (put d mid t' e))).
  { intros t' Hph Hq. destruct (send_cases (query_frame d mid) (put d mid t' e)) as [(Hc' & Hg' & Ho) | (_ & Hc' & _)]; [right | by left].
    split; [exists t'; by rewrite Hg', get_put |]. rewrite conn_put, Hout in Ho. rewrite (Ho Hc).
    exists [Frame (query_frame d mid)]. split; [done | left]. }
  destruct d; by apply Hx.
Qed.

(** The others leave a transfer alone, or the connection goes down. *)
Definition apart (d : TransferDirection) (mid : Z) (e e' : engine) : Prop :=
  e_conn e' = false ∨ e_conn e' = e_conn e ∧ get d mid e' = get d mid e ∧ ∃ l, e_out e' = e_out e ++ l.

Lemma apart_refl d mid e : apart d mid e e.
Proof. right. split_and!; [done.. |]. exists []. by rewrite app_nil_r. Qed.

Lemma apart_trans d mid e1 e2 e3 : apart d mid e1 e2 → apart d mid e2 e3 → apart d mid e1 e3.
Proof.
  intros [H1 | (H1 & H2 & l1 & H3)] [H4 | (H4 & H5 & l2 & H6)]; [by left.. | left; congruence | by left |].
  right. split_and!; [congruence.. |]. exists (l1 ++ l2). by rewrite H6, H3, app_assoc.
Qed.

Lemma apart_put d mid d' mid' t e : (d, mid) ≠ (d', mid') → apart d mid e (put d' mid' t e).
Proof. intros Hne. right. rewrite conn_put, get_put_ne by done. split_and!; [done.. |]. exists []. rewrite app_nil_r. by destruct d'. Qed.

Lemma apart_send d mid f e : apart d mid e (send f e).
Proof.
  destruct (send_cases f e) as [(Hc & Hg & Ho) | (_ & Hc & _)]; [right | by left]. split_and!; [done.. |].
  destruct (e_conn e) eqn:E; [rewrite (Ho eq_refl); by eexists |]. unfold send. rewrite E. exists []. by rewrite app_nil_r.
Qed.

Lemma apart_BeginQuery d mid d' mid' e : (d, mid) ≠ (d', mid') → apart d mid e (BeginQuery v d' mid' e).
Proof.
  intros Hne. unfold BeginQuery. destruct (get d' mid' e) as [t |]; [| apply apart_refl].
  destruct (negb _ || _); [by apply apart_put |]. destruct d'; (eapply apart_trans; [by apply apart_put | apply apart_send]).
Qed.

Lemma apart_HandleTimeout d mid d' mid' e : e_awaiting e = false → (d, mid) ≠ (d', mid') → apart d mid e (HandleTimeout d' mid' e).
Proof.
  intros Ha Hne. unfold HandleTimeout. destruct (get d' mid' e) as [t |]; [| apply apart_refl].
  destruct (t_paused _); [by apply apart_put |]. rewrite awaiting_put, Ha. by left.
Qed.

Lemma apart_tick_one d mid d' mid' e : timed e → (d, mid) ≠ (d', mid') → apart d mid e (tick_one cfg v d' e mid').
Proof.
  intros [Ha _] Hne. unfold tick_one. destruct (FindActive d' mid' e) as [t |]; [| apply apart_refl].
  destruct (bool_decide (t_phase t = TRANSFER_BACKOFF) && _ && _).
  - destruct (e_conn e) eqn:Ec; [| by apply apart_put].
    eapply apart_trans; [by apply apart_put | by apply apart_BeginQuery].
  - do 2 (match goal with |- context [if ?b then HandleTimeout _ _ _ else _] => destruct b end; [by apply apart_HandleTimeout |]).
    apply apart_refl.
Qed.

Lemma apart_ticks d mid d' l e : timed e → (d = d' → mid ∉ l) → apart d mid e (foldl (tick_one cfg v d') e l).
Proof.
  revert e. induction l as [| mid' l IH]; intros e He Hl; cbn [foldl]; [apply apart_refl |].
  eapply apart_trans; [apply apart_tick_one; [done |] | apply IH; [by apply timed_tick_one |]].
  - intros [= -> ->]. apply (Hl eq_refl). left.
  - intros Hd Hin. apply (Hl Hd). by right.
Qed.

(** Its own turn. *)
Lemma tick_own d mid t e :
  timed e → get d mid e = Some t → terminal t = false → t_slot t = true → t_paused t = false → e_conn e = true →
  ∃ D, deadline t = Some D ∧
    (D <= v_now v → e_conn (tick_one cfg v d e mid) = false ∨ asked d mid (e_out e) (tick_one cfg v d e mid)).
Proof.
  intros He Hg Ht Hs Hp Hc. pose proof He as [Haw Hgood]. destruct (Hgood _ _ _ Hg) as [| [_ Ha]]; [congruence |].
  specialize (Ha Hc Hs Hp). unfold armed in Ha.
  assert (Htick : tick_one cfg v d e mid =
    if bool_decide (t_phase t = TRANSFER_BACKOFF) && (0 <? t_retry_at t) && (t_retry_at t <=? v_now v) then
      BeginQuery v d mid (put d mid (with_retry_at 0 t) e)
    else if bool_decide (t_phase t = TRANSFER_ACTIVE) &&
            match t_inflight t with c :: _ => ack_timeout_ms cfg <=? v_now v - ic_sent c | [] => false end
    then OnConnectionDown (emit RequestReconnect (with_conn true true (put d mid (with_reconnect true (with_pending false
           (with_query 0 (with_wire (t_acked t) (with_window [] [] t))))) e)))
    else if bool_decide (t_phase t = TRANSFER_QUERYING) && (0 <? t_query t) && (ack_timeout_ms cfg <=? v_now v - t_query t)
    then OnConnectionDown (emit RequestReconnect (with_conn true true (put d mid (with_reconnect true (with_pending false
           (with_query 0 (with_wire (t_acked t) (with_window [] [] t))))) e)))
    else e).
  { unfold tick_one, FindActive, HandleTimeout. rewrite Hg, Ht, Hc. cbn [t_paused with_query with_timers with_wire with_progress with_window].
    rewrite Hp, awaiting_put, Haw, conn_put, Hc. done. }
  rewrite Htick. clear Htick. unfold deadline. destruct (t_phase t) eqn:Eph; try done.
  - eexists; split; [done |]. intros HD. left. rewrite !bool_decide_false by done. cbn [andb].
    rewrite bool_decide_true by done.
    replace (0 <? t_query t) with true by (symmetry; apply Z.ltb_lt; lia).
    by replace (ack_timeout_ms cfg <=? v_now v - t_query t) with true by (symmetry; apply Z.leb_le; lia).
  - destruct (t_inflight t) as [| c l]; [done |]. eexists; split; [done |]. intros HD. left.
    rewrite bool_decide_false by done. cbn [andb]. rewrite bool_decide_true by done.
    by replace (ack_timeout_ms cfg <=? v_now v - ic_sent c) with true by (symmetry; apply Z.leb_le; lia).
  - eexists; split; [done |]. intros HD. rewrite bool_decide_true by done.
    replace (0 <? t_retry_at t) with true by (symmetry; apply Z.ltb_lt; lia).
    replace (t_retry_at t <=? v_now v) with true by (symmetry; apply Z.leb_le; lia). cbn [andb].
    destruct (BeginQuery_asks d mid (with_retry_at 0 t) (put d mid (with_retry_at 0 t) e)) as [| Hasked];
      [apply get_put | done | by rewrite conn_put | by left | right]. by destruct d.
Qed.

Lemma ids_split m k : is_Some (m !! k) → ∃ l1 l2, ids m = l1 ++ k :: l2 ∧ k ∉ l1 ∧ k ∉ l2.
Proof.
  intros Hin%elem_of_ids. destruct (list_elem_of_split _ _ Hin) as (l1 & l2 & E). exists l1, l2. split; [done |].
  assert (Hn : NoDup (ids m)) by apply NoDup_fst_map_to_list. rewrite E, NoDup_app, NoDup_cons in Hn.
  destruct Hn as (_ & Hn1 & Hn2 & _). split; [| done]. intros Hk. apply (Hn1 _ Hk). left.
Qed.

Lemma asked_apart d mid old e e' : asked d mid old e → apart d mid e e' → e_conn e' = false ∨ asked d mid old e'.
Proof.
  intros ((t & Hg & Ht) & l & Ho & Hl) [Hc | (Hc & Hg' & l' & Ho')]; [by left | right]. split; [exists t; by rewrite Hg' |].
  exists (l ++ l'). rewrite Ho', Ho, app_assoc. split; [done |]. apply elem_of_app. by left.
Qed.

Lemma conn_apart d mid e e' : e_conn e = false → apart d mid e e' → e_conn e' = false.
Proof. intros Hc [| [Hx _]]; congruence. Qed.

Lemma asked_mono d mid old l e : asked d mid (old ++ l) e → asked d mid old e.
Proof.
  intros [Ht (l' & Ho & Hl)]. split; [done |]. exists (l ++ l'). rewrite app_assoc. split; [done |].
  apply elem_of_app. by right.
Qed.

Lemma tick_down d mid e : timed e → e_conn e = false → e_conn (tick_one cfg v d e mid) = false.
Proof.
  intros [Ha _] Hc. unfold tick_one. destruct (FindActive d mid e) as [t |] eqn:Hf; [| done]. apply FindActive_get in Hf as [Hg _].
  rewrite Hc. destruct (_ && _ && _); [by rewrite conn_put |].
  assert (Hto : e_conn (HandleTimeout d mid e) = false).
  { unfold HandleTimeout. rewrite Hg. destruct (t_paused _); [by rewrite conn_put |]. by rewrite awaiting_put, Ha. }
  do 2 (match goal with |- context [if ?b then HandleTimeout _ _ _ else _] => destruct b end; [done |]). done.
Qed.

Lemma ticks_down d l e : timed e → e_conn e = false → e_conn (foldl (tick_one cfg v d) e l) = false.
Proof.
  revert e. induction l as [| mid l IH]; intros e He Hc; cbn [foldl]; [done |].
  apply IH; [by apply timed_tick_one | by apply tick_down].
Qed.

(** One direction of a tick. *)
Lemma ticks_own d mid t e :
  timed e → get d mid e = Some t → terminal t = false → t_slot t = true → t_paused t = false → e_conn e = true →
  (∀ D, deadline t = Some D → D <= v_now v) →
  let e' := foldl (tick_one cfg v d) e (ids (MapFor d e)) in e_conn e' = false ∨ asked d mid (e_out e) e'.
Proof.
  intros He Hg Ht Hs Hp Hc HD e'. destruct (ids_split (MapFor d e) mid (ex_intro _ t Hg)) as (l1 & l2 & E & Hl1 & Hl2).
  unfold e'. rewrite E, foldl_app. cbn [foldl]. set (e1 := foldl _ e l1).
  assert (He1 : timed e1) by by apply timed_ticks. assert (A1 : apart d mid e e1) by by apply apart_ticks.
  assert (A2 : apart d mid (tick_one cfg v d e1 mid) (foldl (tick_one cfg v d) (tick_one cfg v d e1 mid) l2))
    by (apply apart_ticks; [by apply timed_tick_one | done]).
  destruct A1 as [Hc1 | (Hc1 & Hg1 & l & Ho1)].
  - left. eapply conn_apart; [by apply tick_down | exact A2].
  - destruct (tick_own d mid t e1) as (D & HD1 & HD2); [done | congruence | done.. | congruence |].
    destruct (HD2 (HD _ HD1)) as [Hx | Hx]; [left; by eapply conn_apart |].
    eapply asked_apart; [| exact A2]. rewrite Ho1 in Hx. by eapply asked_mono.
Qed.

Lemma OnTick_own d mid t e :
  timed e → get d mid e = Some t → terminal t = false → t_slot t = true → t_paused t = false → e_conn e = true →
  (∀ D, deadline t = Some D → D <= v_now v) →
  e_conn (OnTick cfg v e) = false ∨ asked d mid (e_out e) (OnTick cfg v e).
Proof.
  intros He Hg Ht Hs Hp Hc HD. unfold OnTick. set (e1 := foldl _ e _). assert (He1 : timed e1) by by apply timed_ticks. destruct d.
  - assert (A : apart TRANSFER_UPLOAD mid e1 (foldl (tick_one cfg v TRANSFER_DOWNLOAD) e1 (ids (e_down e1)))) by by apply apart_ticks.
    destruct (ticks_own TRANSFER_UPLOAD mid t e) as [Hx | Hx]; try done; [left; by eapply conn_apart | by eapply asked_apart].
  - assert (A : apart TRANSFER_DOWNLOAD mid e e1) by by apply apart_ticks.
    assert (Hdown : ∀ t1, e_conn e1 = true → get TRANSFER_DOWNLOAD mid e1 = Some t → t1 = t →
      e_conn (foldl (tick_one cfg v TRANSFER_DOWNLOAD) e1 (ids (e_down e1))) = false ∨
      asked TRANSFER_DOWNLOAD mid (e_out e1) (foldl (tick_one cfg v TRANSFER_DOWNLOAD) e1 (ids (e_down e1)))).
    { intros t1 Hc1 Hg1 _. by apply (ticks_own TRANSFER_DOWNLOAD mid t e1). }
    destruct A as [Hc1 | (Hc1 & Hg1 & l & Ho1)].
    + left. by apply ticks_down.
    + destruct (Hdown t) as [Hx | Hx]; [congruence.. | done | by left | right]. rewrite Ho1 in Hx. by eapply asked_mono.
Qed.

End timers.

(** ** Runs *)

(** Calls in any order, the clock after the epoch, and honest answers. *)
Inductive honest_run `{Sha256Lib} (c0 : Config) (disk : gmap bytes bytes) (tp : tape) : engine → Prop :=
  | run_start : honest_run c0 disk tp (TransferEngine_ disk tp)
  | run_step v c e : honest_run c0 disk tp e → 0 < v_now v → honest c e → honest_run c0 disk tp (perform (InitConfig c0) v c e).

Lemma timed_run `{Sha256Lib} c0 disk tp e : honest_run c0 disk tp e → timed e.
Proof. induction 1 as [| v c e Hr IH Hv Hh]; [apply timed_start | by apply timed_perform]. Qed.

Lemma armed_deadline c0 t : armed t → ∃ D, deadline c0 t = Some D.
Proof. unfold armed, deadline. destruct (t_phase t); try done; [by eexists | | by eexists]. destruct (t_inflight t); [done | by eexists]. Qed.

(** C11: no transfer stalls. In any run of the engine with a server whose
    answers confirm the chunks they answer, whatever fails, is lost or is
    repeated on the way: while the connection is up, a live transfer that
    holds a slot and is not paused has a deadline, the time-out of its query
    or of its oldest chunk or the end of its back-off; and the first turn of
    the timer after the deadline asks the server again where the transfer
    stands, or finds the connection dead and takes it down, which brings a
    new one. *)
Theorem no_transfer_stalls `{Sha256Lib} c0 disk tp e d mid t :
  honest_run c0 disk tp e → get d mid e = Some t → terminal t = false → t_slot t = true → t_paused t = false → e_conn e = true →
  ∃ D, deadline c0 t = Some D ∧
    ∀ v, 0 < v_now v → D <= v_now v →
      e_conn (OnTick (InitConfig c0) v e) = false ∨ asked v d mid (e_out e) (OnTick (InitConfig c0) v e).
Proof.
  intros He%timed_run Hg Ht Hs Hp Hc. pose proof He as [_ Hgood].
  destruct (Hgood _ _ _ Hg) as [| [_ Ha]]; [congruence |]. destruct (armed_deadline c0 t (Ha Hc Hs Hp)) as [D HD].
  exists D. split; [done |]. intros v Hv HDv. eapply OnTick_own; try done. intros D' HD'. congruence.
Qed.

(** A run: an upload is started, the server's first answer cannot be read,
    and the transfer backs off. *)
Definition quiet (now : Z) : env :=
  Env now (λ _, Some 5) (λ _, true) (λ _ _ _, Some §"abcde") (λ _, Some §"abcde") (λ _, true).
Definition garbled : ProgressRsp := Progress false 0 7 0 0 0 [] 0 0 [] [] 0 0.
Definition demo_engine : engine :=
  let cfg := InitConfig default_config in
  let step now c e := @perform toy_sha256 cfg (quiet now) c e in
  step 1200 (CallFrame (OnProgress garbled)) (step 1100 (CallStartUpload (Upload 7 §"f" 5 [])) (step 1000 CallAuthenticated (TransferEngine_ ∅ []))).

Lemma no_transfer_stalls_witness :
  ∃ t, get TRANSFER_UPLOAD 7 demo_engine = Some t ∧ t_phase t = TRANSFER_BACKOFF ∧
    ∃ D, deadline default_config t = Some D ∧
    ∀ v, 0 < v_now v → D <= v_now v →
      e_conn (OnTick (InitConfig default_config) v demo_engine) = false ∨
      asked v TRANSFER_UPLOAD 7 (e_out demo_engine) (OnTick (InitConfig default_config) v demo_engine).
Proof.
  eexists. split; [vm_compute; reflexivity |]. split; [reflexivity |].
  apply (@no_transfer_stalls toy_sha256 default_config ∅ [] demo_engine TRANSFER_UPLOAD 7); [| vm_compute; reflexivity..].
  unfold demo_engine. repeat (apply run_step; [| done |]); [apply run_start | done | done |].
  intros t _ Hx. discriminate Hx.
Defined.
