(* ===== verification/StatusService.v ===== *)
(** * Choosing a ChatServer (StatusServer/src/StatusServiceImpl.cpp)

    Every ChatServer writes itself into the registry of Redis and renews a
    lease with its load. [GetChatServer] picks one with the least load, the
    next one in turn when there are several, and issues or checks the login
    token. Redis is its strings and the registry hash; expiry is a change of
    the store between two calls. *)

From stdpp Require Import sorting.
From S2P Require Import Prelude ProtocolIds JsonFields ChatSession ChatLogic.

Record status := StatusState {
  s_redis : gmap bytes bytes;
  s_registry : gmap bytes bytes;   (* [chatserver:registry] *)
  s_rr : Z;                        (* [_rr], a [size_t] *)
}.

Definition St (A : Type) : Type := status → tape → A * status * tape.
#[global] Instance St_ret : MRet St := λ A a s t, (a, s, t).
#[global] Instance St_bind : MBind St := λ A B k m s t, let '(a, s', t') := m s t in k a s' t'.

(** [RedisMgr::Get]: a failing command looks like a missing key. *)
Definition Get (k : bytes) : St (option bytes) := λ s t,
  let '(o, t') := tape_next t in
  (if io_ok o then option_map c_str (s_redis s !! c_str k) else None, s, t').

(** [RedisMgr::SetEx]; a command whose answer is lost may have been run. *)
Definition SetEx (k v : bytes) : St bool := λ s t,
  let '(o, t') := tape_next t in
  let s' := StatusState (<[c_str k := c_str v]> (s_redis s)) (s_registry s) (s_rr s) in
  match o with
  | IoOk => (true, s', t')
  | IoFail 0 => (false, s, t')
  | IoFail (S _) => (false, s', t')
  end.

(** [RedisMgr::HGetAll] of the registry. *)
Definition HGetAll : St (option (gmap bytes bytes)) := λ s t,
  let '(o, t') := tape_next t in (if io_ok o then Some (s_registry s) else None, s, t').

Record ChatServer := Server { srv_name : bytes; srv_host : bytes; srv_port : bytes }.
#[global] Instance ChatServer_eq_dec : EqDecision ChatServer.
Proof. solve_decision. Defined.

(** [std::from_chars] to an [int], which has to use all characters. *)
Definition ParseNonNegativeInt (value : bytes) : option Z :=
  let '(negative, digits) :=
    match value with
    | c :: rest => if bval c =? 45 then (true, rest) else (false, value)
    | [] => (false, [])
    end in
  if bool_decide (digits = []) || negb (forallb isdigit digits) then None
  else
    let result := if negative then - digits_value digits else digits_value digits in
    if (result <? - 2 ^ 31) || (int_max <? result) || (result <? 0) then None else Some result.

Definition IsValidPort (value : bytes) : bool :=
  match ParseNonNegativeInt value with Some port => (0 <? port) && (port <=? 65535) | None => false end.

Definition ChatServerLeaseKey (name : bytes) : bytes := § "chatserver:lease:" ++ name.

Record GetChatServerRsp := ServerRsp {
  gr_error : Z; gr_name : bytes; gr_host : bytes; gr_port : bytes; gr_token : bytes }.

Definition error_rsp (e : CommonErrCode) : GetChatServerRsp := ServerRsp (CommonErrCode_code e) [] [] [] [].

Record Candidate := Cand { cd_server : ChatServer; cd_load : Z }.

(** [operator<] on the names. *)
Definition name_le (x y : Candidate) : Prop := bytes_le (srv_name (cd_server x)) (srv_name (cd_server y)).
#[global] Instance name_le_dec x y : Decision (name_le x y).
Proof. unfold name_le. apply _. Defined.

Definition min_load (c : Candidate) (l : list Candidate) : Z := foldr (λ x n, Z.min (cd_load x) n) (cd_load c) l.

(** The servers with the least load, in the order of their names. *)
Definition tied (l : list Candidate) : list ChatServer :=
  match merge_sort name_le l with
  | [] => []
  | c :: l => cd_server <$> filter (λ x, cd_load x = min_load c l) (c :: l)
  end.

Definition size_t : Z := 2 ^ 64.

Section status.
Context `{JsonLib}.

(** The order in which the hash table of the registrations is iterated. *)
Variable hash_order : gmap bytes bytes → list (bytes * bytes).

Definition string_at (o : fields) (k : bytes) : option bytes := v ← assoc k o; get_string v.

Definition ParseRegistration (name value : bytes) : option ChatServer :=
  match json_parse value with
  | Some (JObject data) =>
      server ← string_at data (§ "name");
      tcp_host ← string_at data (§ "tcp_host");
      tcp_port ← string_at data (§ "tcp_port");
      rpc_host ← string_at data (§ "rpc_host");
      rpc_port ← string_at data (§ "rpc_port");
      if negb (bool_decide (server = name)) || bool_decide (tcp_host = []) || bool_decide (rpc_host = []) ||
         negb (IsValidPort tcp_port) || negb (IsValidPort rpc_port)
      then None else Some (Server server tcp_host tcp_port)
  | _ => None
  end.

(** The loop over the registrations. *)
Fixpoint candidates (registrations : list (bytes * bytes)) : St (list Candidate) :=
  match registrations with
  | [] => mret []
  | (name, value) :: rest =>
      match ParseRegistration name value with
      | None => candidates rest
      | Some server =>
          lease_value ← Get (ChatServerLeaseKey name);
          match lease_value ≫= ParseNonNegativeInt with
          | None => candidates rest
          | Some load => l ← candidates rest; mret (Cand server load :: l)
          end
      end
  end.

Definition fetch_add : St Z := λ s t, (s_rr s, StatusState (s_redis s) (s_registry s) ((s_rr s + 1) mod size_t), t).

(** [None] is the server without a name and a host. *)
Definition getChatServer : St (option ChatServer) :=
  registrations ← HGetAll;
  match registrations with
  | None => mret None
  | Some m =>
      l ← candidates (hash_order m);
      match tied l with
      | [] => mret None
      | servers => index ← fetch_add; mret (servers !! Z.to_nat (index mod zlen servers))
      end
  end.

Definition token_key (uid : Z) : bytes := USERTOKENPREFIX ++ ll_string uid.

(** [uuid] is the random string of [GenerateUniqueString]. *)
Definition GetChatServer (uuid : bytes) (uid : Z) (token : bytes) : St GetChatServerRsp :=
  let reassignment := negb (bool_decide (token = [])) in
  let go :=
    server ← getChatServer;
    match server with
    | None => mret (error_rsp ERR_NO_CHAT_SERVER)
    | Some s =>
        let done token := ServerRsp (CommonErrCode_code ERR_SUCCESS) (srv_name s) (srv_host s) (srv_port s) token in
        if reassignment then mret (done token)
        else
          stored ← SetEx (token_key uid) uuid;
          if (stored : bool) then mret (done uuid) else mret (error_rsp ERR_RPC_FAILED)
    end in
  if reassignment then
    stored_token ← Get (token_key uid);
    match stored_token with
    | None => mret (error_rsp ERR_UID_INVALID)
    | Some st => if negb (bool_decide (st = token)) then mret (error_rsp ERR_TOKEN_INVALID) else go
    end
  else go.
End status.

(** ** Who is chosen *)

Lemma min_load_le c l x : x ∈ c :: l → min_load c l <= cd_load x.
Proof.
  induction l as [| y l IH]; cbn; [by intros ->%list_elem_of_singleton |].
  intros [-> | [-> | Hx]%elem_of_cons]%elem_of_cons.
  - etrans; [apply Z.le_min_r | apply IH; left].
  - apply Z.le_min_l.
  - etrans; [apply Z.le_min_r | apply IH; by right].
Qed.

Lemma min_load_In c l : ∃ x, x ∈ c :: l ∧ cd_load x = min_load c l.
Proof.
  induction l as [| y l (x & Hx & E)]; [exists c; split; [left | done] |].
  change (min_load c (y :: l)) with (Z.min (cd_load y) (min_load c l)).
  destruct (Z.min_spec (cd_load y) (min_load c l)) as [[_ ->] | [_ ->]]; [exists y; split; [right; left | done] |].
  exists x. split; [| done]. apply elem_of_cons in Hx as [-> | Hx]; [left | by right; right].
Qed.

(** The servers [tied] keeps are those no other one undercuts. *)
Lemma elem_of_tied l server :
  server ∈ tied l ↔ ∃ c, c ∈ l ∧ cd_server c = server ∧ ∀ c', c' ∈ l → cd_load c <= cd_load c'.
Proof.
  unfold tied. assert (Hperm : merge_sort name_le l ≡ₚ l) by apply merge_sort_Permutation.
  destruct (merge_sort name_le l) as [| c0 l0].
  - symmetry in Hperm. apply Permutation_nil_r in Hperm as ->. split; [by intros ?%not_elem_of_nil | by intros (c & ?%not_elem_of_nil & _)].
  - rewrite list_elem_of_fmap. split.
    + intros (c & -> & [Hmin Hc]%list_elem_of_filter). exists c. rewrite <- Hperm. split_and!; [done.. |].
      intros c' Hc'. rewrite <- Hperm in Hc'. rewrite Hmin. by apply min_load_le.
    + intros (c & Hc & <- & Hmin). exists c. split; [done |]. apply list_elem_of_filter. rewrite <- Hperm in Hc. split; [| done].
      destruct (min_load_In c0 l0) as (x & Hx & E). pose proof (min_load_le c0 l0 c Hc).
      rewrite Hperm in Hx. specialize (Hmin x Hx). lia.
Qed.

Lemma NoDup_tied l : NoDup (cd_server <$> l) → NoDup (tied l).
Proof.
  intros Hnd. unfold tied. assert (Hperm : merge_sort name_le l ≡ₚ l) by apply merge_sort_Permutation.
  rewrite <- Hperm in Hnd. destruct (merge_sort name_le l) as [| c0 l0]; [constructor |].
  eapply sublist_NoDup; [exact Hnd |]. apply fmap_sublist, sublist_filter.
Qed.

#[local] Arguments c_str : simpl never.
#[local] Arguments ChatServerLeaseKey : simpl never.

Section turns.
Context `{JsonLib} (hash_order : gmap bytes bytes → list (bytes * bytes)).

(** A server in the registry whose lease has not run out, and its load. *)
Definition live (s : status) (server : ChatServer) (load : Z) : Prop :=
  ∃ value lease, s_registry s !! srv_name server = Some value ∧ ParseRegistration (srv_name server) value = Some server ∧
    s_redis s !! c_str (ChatServerLeaseKey (srv_name server)) = Some lease ∧ ParseNonNegativeInt (c_str lease) = Some load.

Definition least_loaded (s : status) (server : ChatServer) : Prop :=
  ∃ load, live s server load ∧ ∀ server' load', live s server' load' → load <= load'.

Lemma ParseRegistration_name name value server : ParseRegistration name value = Some server → srv_name server = name.
Proof.
  unfold ParseRegistration. destruct (json_parse value) as [[] |]; try done.
  intros (n & _ & (h & _ & (p & _ & (rh & _ & (rp & _ & Hx)%bind_Some)%bind_Some)%bind_Some)%bind_Some)%bind_Some.
  destruct (bool_decide (n = name)) eqn:E; cbn [negb orb] in Hx; [| done].
  destruct (_ || _) in Hx; [done |]. injection Hx as <-. by apply bool_decide_eq_true in E.
Qed.

(** The candidates when no command fails. *)
Definition offer (s : status) (kv : bytes * bytes) : option Candidate :=
  server ← ParseRegistration kv.1 kv.2;
  load ← option_map c_str (s_redis s !! c_str (ChatServerLeaseKey kv.1)) ≫= ParseNonNegativeInt;
  Some (Cand server load).

Lemma candidates_run l s : candidates l s [] = (omap (offer s) l, s, []).
Proof.
  induction l as [| [name value] l IH]; cbn [candidates omap list_omap]; [done |]. unfold offer at 1. cbn [fst snd].
  destruct (ParseRegistration name value) as [server |]; cbn [mbind option_bind]; [| exact IH].
  unfold mbind at 1, St_bind at 1, Get. cbn [tape_next io_ok].
  destruct (option_map c_str _ ≫= ParseNonNegativeInt) as [load |] eqn:E; cbn [mbind option_bind] in E |- *;
    destruct (option_map c_str _) as [v |]; cbn [mbind option_bind] in E |- *; try discriminate E; rewrite ?E; [| exact IH..].
  unfold mbind, St_bind. rewrite IH. done.
Qed.

Lemma offer_live s m c : m = s_registry s →
  c ∈ omap (offer s) (map_to_list m) ↔ live s (cd_server c) (cd_load c).
Proof.
  intros ->. rewrite list_elem_of_omap. split.
  - intros ([name value] & Hin%elem_of_map_to_list & (server & Hp & (load & Hl & [= <-])%bind_Some)%bind_Some).
    pose proof (ParseRegistration_name _ _ _ Hp) as Hn. cbn in *. subst name.
    apply bind_Some in Hl as (v & Hv & Hl). destruct (s_redis s !! _) as [lease |] eqn:E; [| done]. injection Hv as <-.
    exists value, lease. by rewrite E.
  - intros (value & lease & Hr & Hp & Hl & Hload). exists (srv_name (cd_server c), value).
    split; [by apply elem_of_map_to_list |]. unfold offer. cbn. rewrite Hp. cbn. rewrite Hl. cbn. rewrite Hload. by destruct c.
Qed.

Lemma offer_servers s l : NoDup l.*1 → NoDup (cd_server <$> omap (offer s) l).
Proof.
  induction l as [| [name value] l IH]; cbn [fmap list_fmap omap list_omap]; [constructor |].
  intros [Hn Hnd]%NoDup_cons. destruct (offer s (name, value)) as [c |] eqn:E; [| by apply IH].
  apply NoDup_cons. split; [| by apply IH]. intros (c' & Hs & (kv & Hkv & E')%list_elem_of_omap)%list_elem_of_fmap.
  apply bind_Some in E as (server & Hp & (load & _ & [= <-])%bind_Some).
  apply bind_Some in E' as (server' & Hp' & (load' & _ & [= <-])%bind_Some).
  apply ParseRegistration_name in Hp, Hp'. cbn in *. apply Hn. apply list_elem_of_fmap. exists kv. split; [congruence | done].
Qed.

(** [n] requests for a server, one after the other. *)
Fixpoint ask (n : nat) : St (list (option ChatServer)) :=
  match n with
  | O => mret []
  | S n => x ← getChatServer hash_order; l ← ask n; mret (x :: l)
  end.

Definition at_turn (r : Z) (s : status) : status := StatusState (s_redis s) (s_registry s) r.

Lemma getChatServer_run s l r :
  0 <= r < size_t → tied (omap (offer s) (hash_order (s_registry s))) = l → l ≠ [] →
  getChatServer hash_order (at_turn r s) [] = (l !! Z.to_nat (r mod zlen l), at_turn ((r + 1) mod size_t) s, []).
Proof.
  intros Hr Hl Hne. unfold getChatServer, mbind, St_bind, HGetAll. cbn [tape_next io_ok].
  rewrite candidates_run. cbn [s_registry at_turn].
  assert (E : omap (offer (at_turn r s)) (hash_order (s_registry s)) = omap (offer s) (hash_order (s_registry s))) by done.
  rewrite E, Hl. destruct l; [done |]. reflexivity.
Qed.

Lemma ask_run s l n r :
  0 <= r → r + Z.of_nat n <= size_t → tied (omap (offer s) (hash_order (s_registry s))) = l → l ≠ [] →
  (ask n (at_turn r s) []).1.1 = (λ i, l !! Z.to_nat ((r + Z.of_nat i) mod zlen l)) <$> seq 0 n.
Proof.
  revert r. induction n as [| n IH]; intros r Hr Hn Hl Hne; [done |]. cbn [ask]. unfold mbind at 1, St_bind at 1.
  rewrite (getChatServer_run s l r) by (done || lia). destruct n as [| n].
  { cbn. by rewrite Z.add_0_r. }
  rewrite (Z.mod_small (r + 1) size_t) by lia. unfold mbind at 1, St_bind at 1.
  specialize (IH (r + 1) ltac:(lia) ltac:(lia) Hl Hne). destruct (ask (S n) _ []) as [[res s'] t']. cbn [fst] in *.
  change (seq 0 (S (S n))) with (0%nat :: seq 1 (S n)). rewrite fmap_cons, Z.add_0_r. rewrite IH.
  rewrite <- (fmap_S_seq 0 (S n)), <- list_fmap_compose. cbn [mret St_ret fst]. f_equal. apply list_fmap_ext. intros _ i _. cbn. do 3 f_equal. lia.
Qed.

Lemma rotate_Permutation {A} n (l : list A) : rotate n l ≡ₚ l.
Proof. unfold rotate. rewrite Permutation_app_comm. by rewrite take_drop. Qed.

(** One round visits everyone. *)
Lemma one_round {A} (l : list A) r :
  0 <= r → (λ i, l !! Z.to_nat ((r + Z.of_nat i) mod zlen l)) <$> seq 0 (length l) = Some <$> rotate (Z.to_nat r) l.
Proof.
  intros Hr. apply list_eq. intros i. rewrite !list_lookup_fmap. destruct (decide (i < length l)%nat) as [Hi | Hi].
  - rewrite lookup_seq_lt by done. cbn. rewrite lookup_rotate_r by done. unfold rotate_nat_add.
    assert (Hx : Z.to_nat ((r + Z.of_nat i) mod zlen l) = Z.to_nat ((Z.of_nat (Z.to_nat r) + Z.of_nat i) mod Z.of_nat (length l)))
      by (unfold zlen; by rewrite Z2Nat.id).
    rewrite Hx. destruct (lookup_lt_is_Some_2 l (Z.to_nat ((Z.of_nat (Z.to_nat r) + Z.of_nat i) mod Z.of_nat (length l)))) as [x E]; [pose proof (Z.mod_pos_bound (Z.of_nat (Z.to_nat r) + Z.of_nat i) (Z.of_nat (length l)) ltac:(lia)); lia |].
    by rewrite E.
  - rewrite lookup_seq_ge by lia. cbn. by rewrite lookup_ge_None_2 by (rewrite length_rotate; lia).
Qed.

Lemma take_turns s l :
  (∀ m, hash_order m ≡ₚ map_to_list m) → 0 <= s_rr s → s_rr s + zlen l <= size_t →
  NoDup l → (∀ server, server ∈ l ↔ least_loaded s server) → (ask (length l) s []).1.1 ≡ₚ Some <$> l.
Proof.
  intros Hord Hr Hlen Hnd Hl. set (o := omap (offer s) (hash_order (s_registry s))).
  assert (Ho : ∀ c, c ∈ o ↔ live s (cd_server c) (cd_load c)).
  { intros c. unfold o. rewrite Hord. by apply offer_live. }
  assert (Ht : tied o ≡ₚ l).
  { apply NoDup_Permutation; [| done |].
    - apply NoDup_tied, offer_servers. rewrite Hord. apply NoDup_fst_map_to_list.
    - intros server. rewrite elem_of_tied, Hl. split.
      + intros (c & Hc & <- & Hmin). exists (cd_load c). split; [by apply Ho |]. intros server' load' Hl'.
        apply (Hmin (Cand server' load')). by apply Ho.
      + intros (load & Hlive & Hmin). exists (Cand server load). split; [by apply Ho |]. split; [done |].
        intros c' Hc'. apply (Hmin (cd_server c')). by apply Ho. }
  destruct (decide (l = [])) as [-> | Hne]; [done |].
  assert (Htn : tied o ≠ []) by (intros E; rewrite E in Ht; by apply Permutation_nil_l in Ht).
  assert (Hlen' : length (tied o) = length l) by by rewrite Ht.
  replace s with (at_turn (s_rr s) s) at 1 by by destruct s.
  rewrite (ask_run s (tied o) (length l)) by (done || (unfold zlen in Hlen; lia)).
  rewrite <- Hlen', one_round by done. by rewrite rotate_Permutation, Ht.
Qed.
End turns.

(** C29: the ChatServers take turns. Let [l] be the ChatServers that are
    registered with a valid address, hold a lease and have the least load of
    all of these. While that stays so and Redis answers, any run of as many
    requests as there are such servers gets each of them exactly once,
    whatever order the hash table iterates in; no other server is handed out.
    (The counter is a [size_t]; the run does not cross its end.) *)
Theorem requests_take_turns `{JsonLib} hash_order s l :
  (∀ m, hash_order m ≡ₚ map_to_list m) → 0 <= s_rr s → s_rr s + zlen l <= size_t →
  NoDup l → (∀ server, server ∈ l ↔ least_loaded s server) → (ask hash_order (length l) s []).1.1 ≡ₚ Some <$> l.
Proof. apply take_turns. Qed.

(** Three servers; two of them have the least load. *)
Definition registration_fields (v : bytes) : fields :=
  [(§ "name", JString v); (§ "tcp_host", JString §"h"); (§ "tcp_port", JString §"80");
   (§ "rpc_host", JString §"h"); (§ "rpc_port", JString §"90")].
Definition registering_json : JsonLib :=
  {| json_parse v := Some (JObject (registration_fields v)); json_dump _ := [] |}.

Definition demo_status : status :=
  StatusState (<[ChatServerLeaseKey §"a" := §"2"]> (<[ChatServerLeaseKey §"b" := §"1"]> {[ChatServerLeaseKey §"c" := §"1"]}))
    (<[§"a" := §"a"]> (<[§"b" := §"b"]> {[§"c" := §"c"]})) 41.

Definition at_host (name : bytes) : ChatServer := Server name §"h" §"80".

Lemma demo_registration v : @ParseRegistration registering_json v v = Some (at_host v).
Proof.
  unfold ParseRegistration. cbn [json_parse registering_json].
  assert (E : string_at (registration_fields v) §"name" = Some v) by reflexivity. rewrite E.
  do 4 (match goal with |- context [string_at (registration_fields v) ?k] =>
    let E := fresh in eassert (E : string_at (registration_fields v) k = Some _) by reflexivity; rewrite E end).
  cbn [mbind option_bind]. by rewrite bool_decide_true.
Qed.

Lemma demo_tied name : name = §"b" ∨ name = §"c" → @live registering_json demo_status (at_host name) 1.
Proof.
  intros Hn. exists name, §"1". split_and!; [| apply demo_registration | | reflexivity].
  all: destruct Hn as [-> | ->]; vm_compute; reflexivity.
Qed.

Lemma demo_live server load : @live registering_json demo_status server load →
  (server, load) ∈ [(at_host §"a", 2); (at_host §"b", 1); (at_host §"c", 1)].
Proof.
  intros (value & lease & Hr & Hp & Hl & Hload). unfold demo_status in Hr. cbn [s_registry] in Hr.
  assert (Hv : value = srv_name server ∧ srv_name server ∈ [§"a"; §"b"; §"c"]).
  { apply lookup_insert_Some in Hr as [[<- <-] | [_ Hr]]; [split; [done | left] |].
    apply lookup_insert_Some in Hr as [[<- <-] | [_ Hr]]; [split; [done | right; left] |].
    apply lookup_singleton_Some in Hr as [<- <-]. split; [done | right; right; left]. }
  destruct Hv as [-> Hin]. assert (Hs : server = at_host (srv_name server)).
  { rewrite demo_registration in Hp. by injection Hp as ->. }
  rewrite !elem_of_cons, elem_of_nil in Hin. destruct Hin as [E | [E | [E | []]]]; rewrite E in Hs, Hl; subst server;
    vm_compute in Hl; injection Hl as <-; vm_compute in Hload; injection Hload as <-; [left | right; left | right; right; left].
Qed.

Lemma requests_take_turns_witness :
  (∀ server, server ∈ [at_host §"b"; at_host §"c"] ↔ @least_loaded registering_json demo_status server) ∧
  (@ask registering_json map_to_list 2 demo_status []).1.1 ≡ₚ Some <$> [at_host §"b"; at_host §"c"].
Proof.
  assert (Hl : ∀ server, server ∈ [at_host §"b"; at_host §"c"] ↔ @least_loaded registering_json demo_status server).
  { intros server. split.
    - intros Hin. assert (Hs : @live registering_json demo_status server 1).
      { rewrite !elem_of_cons, elem_of_nil in Hin. by destruct Hin as [-> | [-> | []]]; apply demo_tied; [left | right]. }
      exists 1. split; [done |]. intros server' load' Hx%demo_live.
      rewrite !elem_of_cons, elem_of_nil in Hx. by destruct Hx as [[= -> ->] | [[= -> ->] | [[= -> ->] | []]]].
    - intros (load & Hlive & Hmin). assert (Hb : @live registering_json demo_status (at_host §"b") 1).
      { apply demo_tied. by left. }
      specialize (Hmin _ _ Hb). apply demo_live in Hlive. rewrite !elem_of_cons, elem_of_nil in Hlive.
      destruct Hlive as [[= -> ->] | [[= -> ->] | [[= -> ->] | []]]]; [lia | left | right; left]. }
  split; [exact Hl |].
  apply (@requests_take_turns registering_json map_to_list demo_status [at_host §"b"; at_host §"c"]).
  - done.
  - cbn. lia.
  - unfold size_t. vm_compute. done.
  - repeat constructor; rewrite ?elem_of_cons, ?elem_of_nil; vm_compute; naive_solver.
  - exact Hl.
Defined.
