(* ===== verification/GateAccounts.v ===== *)
(** * Accounts (GateServer/src/MysqlDao.cpp and LogicSystem.cpp)

    Registration, reset of a password and login over HTTP, on the users table
    the servers share, the verification codes and tokens of Redis, and the
    pool of database connections (common/src/MySqlPool.cpp). A request runs on
    a worker thread; one that asks an empty pool for a connection waits until
    another one gives its connection back. *)

From S2P Require Import Prelude ProtocolIds JsonFields Database ResourceDb ChatDb ChatSession ChatLogic PasswordHash StatusService.

(** ** The pool of connections *)

Record pool := Pool {
  p_idle : nat;      (* the length of [pool_] *)
  p_failed : nat;    (* [_fail_count] *)
  p_stop : bool;
}.

Record gate := Gate { ga_db : db; ga_status : status; ga_pool : pool }.

(** [Threw] is an exception that leaves the handler, [Blocked] a thread that
    waits for a connection. *)
Inductive outcome (A : Type) := Done (a : A) | Threw | Blocked.
Arguments Done {A} a.
Arguments Threw {A}.
Arguments Blocked {A}.

Definition G (A : Type) : Type := gate → tape → outcome A * gate * tape.
#[global] Instance G_ret : MRet G := λ A a g t, (Done a, g, t).
#[global] Instance G_bind : MBind G := λ A B k m g t,
  match m g t with
  | (Done a, g', t') => k a g' t'
  | (Threw, g', t') => (Threw, g', t')
  | (Blocked, g', t') => (Blocked, g', t')
  end.

Definition gthrow {A} : G A := λ g t, (Threw, g, t).
Definition gio : G io_outcome := λ g t, let '(o, t') := tape_next t in (Done o, g, t').
Definition with_pool (p : pool) (g : gate) : gate := Gate (ga_db g) (ga_status g) p.

(** Code on the database. *)
Definition tx {A} (m : Tx A) : G (sql_error + A) := λ g t,
  let '(r, d, t') := m (ga_db g) t in (Done r, Gate d (ga_status g) (ga_pool g), t').

(** Code on Redis. *)
Definition redis {A} (m : St A) : G A := λ g t,
  let '(r, s, t') := m (ga_status g) t in (Done r, Gate (ga_db g) s (ga_pool g), t').

(** [false] is the null pointer of a stopped pool. *)
Definition getConnection : G bool := λ g t,
  let p := ga_pool g in
  if p_stop p then (Done false, g, t)
  else match p_idle p with
       | O => (Blocked, g, t)
       | S n => (Done true, with_pool (Pool n (p_failed p) false) g, t)
       end.

Definition reconnect : G bool := λ g t,
  let p := ga_pool g in
  if p_stop p then (Done false, g, t)
  else let '(o, t') := tape_next t in
       if io_ok o then (Done true, with_pool (Pool (S (p_idle p)) (p_failed p) false) g, t') else (Done false, g, t').

(** Changes of the two numbers. *)
Definition adjust (f : pool → pool) : G unit := λ g t, (Done tt, with_pool (f (ga_pool g)) g, t).
Definition one_failed (p : pool) : pool := Pool (p_idle p) (S (p_failed p)) (p_stop p).
Definition one_found_dead (p : pool) : pool := Pool (pred (p_idle p)) (S (p_failed p)) (p_stop p).
Definition one_replaced (p : pool) : pool := Pool (p_idle p) (pred (p_failed p)) (p_stop p).

(** [dirty]: the connection is not in autocommit mode, and resetting it may
    fail. *)
Definition returnConnection (dirty : bool) : G unit := λ g t,
  let p := ga_pool g in
  let push := with_pool (Pool (S (p_idle p)) (p_failed p) (p_stop p)) g in
  if p_stop p then (Done tt, g, t)
  else if negb dirty then (Done tt, push, t)
  else
    let '(o, t') := tape_next t in
    if io_ok o then (Done tt, push, t')
    else (b ← (reconnect : G bool); if (b : bool) then mret tt else adjust one_failed : G unit) g t'.

(** One round of the health check: every idle connection is tried, and then
    the failed ones are replaced until that fails. *)
Fixpoint check_idle (n : nat) : G unit :=
  match n with
  | O => mret tt
  | S n =>
      o ← gio;
      (if io_ok o then mret tt else adjust one_found_dead);;
      check_idle n
  end.

Fixpoint replace_failed (n : nat) : G unit :=
  match n with
  | O => mret tt
  | S n =>
      b ← reconnect;
      if (b : bool) then adjust one_replaced;; replace_failed n else mret tt
  end.

Definition the_pool : G pool := λ g t, (Done (ga_pool g), g, t).

Definition checkConnectionPro : G unit :=
  p ← the_pool; check_idle (p_idle p);; p ← the_pool; replace_failed (p_failed p).

(** The first connections; the first failure ends the loop. *)
Fixpoint MySqlPool (size : nat) (t : tape) : nat * tape :=
  match size with
  | O => (O, t)
  | S n => let '(o, t) := tape_next t in
           if io_ok o then let '(k, t) := MySqlPool n t in (S k, t) else (O, t)
  end.

(** ** The DAO *)

Record AccountInfo := Account { ac_name : bytes; ac_uid : Z; ac_email : bytes }.

Section accounts.
Context `{JsonLib, Pbkdf2Lib} (weight : bytes → bytes).

(** [WHERE username = ?] and [WHERE email = ?]; both columns are unique. *)
Definition named (name : bytes) (u : user_row) : bool := bool_decide (weight (username u) = weight name).
Definition mailed (mail : bytes) (u : user_row) : bool := bool_decide (weight (email u) = weight mail).
Definition find_user (p : user_row → bool) (d : db) : option (Z * user_row) := head (rows_where (λ _, p) (users d)).

(** The row of a new user; the unique keys may refuse it. *)
Definition insert_user (u : user_row) : Tx Z :=
  exec_or_error (λ d,
    if bool_decide (find_user (named (username u)) d = None) && bool_decide (find_user (mailed (email u)) d = None)
    then Some (next_id d, set_next (set_users d (<[next_id d := u]> (users d))) (next_id d + 1))
    else None).

(** [llfc::HashPassword] while a connection is held. *)
Definition hash_password (pw entropy : bytes) : Tx bytes := λ d t,
  let '(h, t') := HashPassword pw entropy t in (inr h, d, t').

Definition reg_body (name mail pwd icon entropy : bytes) : Tx (finish_kind * Z) :=
  email_exist ← query (find_user (mailed mail));
  if bool_decide (is_Some email_exist) then mret (Rollback, 0)
  else
    name_exist ← query (find_user (named name));
    if bool_decide (is_Some name_exist) then mret (Rollback, 0)
    else
      hashed ← hash_password pwd entropy;
      if bool_decide (hashed = []) then mret (Rollback, -1)
      else
        id ← insert_user (UserRow name mail hashed (Profile name [] 0 icon) 0);
        newId ← LastInsertId id;
        mret (Commit, newId).

(** The [catch] rolls back, which may throw again. *)
Definition RegUserTransaction (name mail pwd icon entropy : bytes) : G Z :=
  con ← getConnection;
  if negb con then mret 0
  else
    r ← tx (transaction (reg_body name mail pwd icon entropy));
    match r with
    | inr n => returnConnection true;; mret n
    | inl _ => o ← gio; returnConnection true;; if io_ok o then mret (-1) else gthrow
    end.

(** A user that is not found leaves the loop, and the connection is gone. *)
Definition CheckEmail (name mail : bytes) : G bool :=
  con ← getConnection;
  if negb con then mret false
  else
    r ← tx (query (find_user (named name)));
    match r with
    | inl _ => returnConnection false;; mret false
    | inr None => mret false
    | inr (Some (_, u)) => returnConnection false;; mret (bool_decide (mail = email u))
    end.

Definition set_hash (hashed : bytes) (u : user_row) : user_row :=
  UserRow (username u) (email u) hashed (user_profile u) (last_event_seq u).

(** [UPDATE users SET password_hash]: the number of rows. *)
Definition update_password (name hashed : bytes) (d : db) : Z * db :=
  (zlen (rows_where (λ _, named name) (users d)),
   set_users d ((λ u, if named name u then set_hash hashed u else u) <$> users d)).

Definition UpdatePwd (name newpwd entropy : bytes) : G bool :=
  con ← getConnection;
  if negb con then mret false
  else
    hashed ← tx (hash_password newpwd entropy);
    match hashed with
    | inl _ => returnConnection false;; mret false
    | inr hashed =>
        if bool_decide (hashed = []) then returnConnection false;; mret false
        else
          r ← tx (exec_auto (update_password name hashed));
          returnConnection false;;
          mret (match r with inr _ => true | inl _ => false end)
    end.

Definition verify_password (pwd stored : bytes) : G bool := λ g t,
  let '(ok, t') := VerifyPassword pwd stored t in (Done ok, g, t').

(** The [AccountInfo] is what [userInfo] holds when the password is right. *)
Definition CheckPwd (mail pwd : bytes) : G (option AccountInfo) :=
  con ← getConnection;
  if negb con then mret None
  else
    r ← tx (query (find_user (mailed mail)));
    match r with
    | inl _ => returnConnection false;; mret None
    | inr row =>
        let '(origin_pwd, info) :=
          match row with
          | Some (uid, u) => (password_hash u, Account (username u) (s32 uid) (email u))
          | None => ([], Account [] 0 [])
          end in
        ok ← verify_password pwd origin_pwd;
        returnConnection false;;
        mret (if (ok : bool) then Some info else None)
    end.

Definition TestProcedure (mail : bytes) : G (option (Z * bytes)) :=
  con ← getConnection;
  if negb con then mret None
  else
    r ← tx (query (find_user (mailed mail)));
    returnConnection false;;
    mret (match r with inr (Some (uid, u)) => Some (s32 uid, username u) | _ => None end).

(** ** The handlers *)

Definition CODEPREFIX : bytes := § "code_".

Definition ecode (e : CommonErrCode) : fields := [(§ "error", jcode e)].

(** [src_root[k].get<std::string>()] *)
Definition text_at (root : json) (k : bytes) : G bytes :=
  match at_key (Some root) k ≫= get_string with Some s => mret s | None => gthrow end.

(** What the mail service answers, and the addresses of the configuration. *)
Variable verify_rpc : bytes → Z.
Variables res_host res_port : bytes.
Variable hash_order : gmap bytes bytes → list (bytes * bytes).

Definition test_procedure (root : json) : G fields :=
  match field root (§ "email") with
  | None => mret (ecode ERR_JSON)
  | Some v =>
      match get_string v with
      | None => gthrow
      | Some mail =>
          r ← TestProcedure mail;
          let '(uid, name) := default (0, []) r in
          mret (ecode ERR_SUCCESS ++ [(§ "email", v); (§ "name", JString name); (§ "uid", jnum uid)])
      end
  end.

Definition get_varifycode (root : json) : G fields :=
  match field root (§ "email") with
  | None => mret (ecode ERR_JSON)
  | Some v =>
      match get_string v with
      | None => gthrow
      | Some mail => mret [(§ "error", jnum (verify_rpc mail)); (§ "email", v)]
      end
  end.

(** The code of the mail service has to be there and to be the one given. *)
Definition check_code (root : json) (mail : bytes) (go : G fields) : G fields :=
  varify_code ← redis (Get (CODEPREFIX ++ mail));
  match varify_code with
  | None => mret (ecode ERR_VARIFY_EXPIRED)
  | Some code =>
      given ← text_at root (§ "varifycode");
      if negb (bool_decide (code = given)) then mret (ecode ERR_VARIFY_CODE) else go
  end.

Definition user_register (entropy : bytes) (root : json) : G fields :=
  mail ← text_at root (§ "email");
  name ← text_at root (§ "user");
  pwd ← text_at root (§ "passwd");
  confirm ← text_at root (§ "confirm");
  icon ← text_at root (§ "icon");
  if negb (bool_decide (pwd = confirm)) then mret (ecode ERR_PASSWD)
  else
    check_code root mail
      (uid ← RegUserTransaction name mail pwd icon entropy;
       if (uid =? 0) || (uid =? -1) then mret (ecode ERR_USER_EXIST)
       else
         given ← text_at root (§ "varifycode");
         mret ([(§ "error", jnum 0); (§ "uid", jnum uid); (§ "email", JString mail); (§ "user", JString name);
                (§ "confirm", JString confirm); (§ "icon", JString icon); (§ "varifycode", JString given)])).

Definition reset_pwd (entropy : bytes) (root : json) : G fields :=
  mail ← text_at root (§ "email");
  name ← text_at root (§ "user");
  pwd ← text_at root (§ "passwd");
  check_code root mail
    (email_valid ← CheckEmail name mail;
     if negb email_valid then mret (ecode ERR_EMAIL_NOT_MATCH)
     else
       b_up ← UpdatePwd name pwd entropy;
       if negb b_up then mret (ecode ERR_PASSWD_UP_FAILED)
       else
         given ← text_at root (§ "varifycode");
         mret [(§ "error", jnum 0); (§ "email", JString mail); (§ "user", JString name); (§ "varifycode", JString given)]).

(** The call of the StatusServer: it may not arrive, or its answer may be
    lost. *)
Definition status_rpc (m : St GetChatServerRsp) : G GetChatServerRsp :=
  o ← gio;
  match o with
  | IoOk => redis m
  | IoFail 0 => mret (error_rsp ERR_RPC_FAILED)
  | IoFail (S _) => redis m;; mret (error_rsp ERR_RPC_FAILED)
  end.

(** [get<long long>()] of an integer. *)
Definition get_ll (v : json) : option Z :=
  match v with
  | JInteger z => Some z
  | JUnsigned z => Some (if int64_max <? z then z - 2 ^ 64 else z)
  | _ => None
  end.

Definition is_code (z : Z) (e : CommonErrCode) : bool := z =? CommonErrCode_code e.

Definition reassign_chat (root : json) : G fields :=
  match field root (§ "uid") ≫= get_ll, field root (§ "token") ≫= get_string with
  | Some uid, Some token =>
      if (uid <=? 0) || (int_max <? uid) || bool_decide (token = []) then mret (ecode ERR_JSON)
      else
        reply ← status_rpc (GetChatServer hash_order [] uid token);
        let error := gr_error reply in
        if negb (error =? 0) then
          if is_code error ERR_NO_CHAT_SERVER || is_code error ERR_TOKEN_INVALID || is_code error ERR_UID_INVALID
          then mret [(§ "error", jnum error)] else mret (ecode ERR_RPC_FAILED)
        else mret (ecode ERR_SUCCESS ++ [(§ "server_name", JString (gr_name reply)); (§ "chathost", JString (gr_host reply));
                                         (§ "chatport", JString (gr_port reply))])
  | _, _ => mret (ecode ERR_JSON)
  end.

Definition user_login (uuid : bytes) (root : json) : G fields :=
  mail ← text_at root (§ "email");
  pwd ← text_at root (§ "passwd");
  info ← CheckPwd mail pwd;
  match info with
  | None => mret (ecode ERR_PASSWD_INVALID)
  | Some u =>
      reply ← status_rpc (GetChatServer hash_order uuid (ac_uid u) []);
      if negb (gr_error reply =? 0) then
        mret (ecode (if is_code (gr_error reply) ERR_NO_CHAT_SERVER then ERR_NO_CHAT_SERVER else ERR_RPC_FAILED))
      else mret [(§ "error", jnum 0); (§ "email", JString mail); (§ "uid", jnum (ac_uid u)); (§ "token", JString (gr_token reply));
                 (§ "server_name", JString (gr_name reply)); (§ "chathost", JString (gr_host reply)); (§ "chatport", JString (gr_port reply));
                 (§ "reshost", JString res_host); (§ "resport", JString res_port)]
  end.

(** ** The routes *)

Inductive route := TestProcedureRoute | GetVarifyCode | UserRegister | ResetPwd | ReassignChat | UserLogin.

Definition route_of (path : bytes) : option route :=
  if bool_decide (path = § "/test_procedure") then Some TestProcedureRoute
  else if bool_decide (path = § "/get_varifycode") then Some GetVarifyCode
  else if bool_decide (path = § "/user_register") then Some UserRegister
  else if bool_decide (path = § "/reset_pwd") then Some ResetPwd
  else if bool_decide (path = § "/reassign_chat") then Some ReassignChat
  else if bool_decide (path = § "/user_login") then Some UserLogin
  else None.

(** The handler of a route, on the body of the request. [random] is what the
    random generators give it. *)
Definition serve (r : route) (random : bytes) (body : bytes) : G fields :=
  match json_parse body with
  | None => mret (ecode ERR_JSON)
  | Some root =>
      match r with
      | TestProcedureRoute => test_procedure root
      | GetVarifyCode => get_varifycode root
      | UserRegister => user_register random root
      | ResetPwd => reset_pwd random root
      | ReassignChat => reassign_chat root
      | UserLogin => user_login random root
      end
  end.
End accounts.
