(* ===== verification/GateSafety.v ===== *)
(** * What the gate does to accounts

    The effect of a request on the users table, for every pattern of
    failures: nothing, a new user, or a new password, the last two only for
    who holds the verification code of the mail address. With it the tables
    of the three servers stay consistent. *)

From S2P Require Import Prelude ProtocolIds JsonFields Database ResourceDb TxLogic ChatDb ChatDbMessages ChatFriends SystemDb ChatSession ChatLogic PasswordHash StatusService GateAccounts.

(** ** A logic for the code of the gate *)

Definition g_wp {A} (m : G A) (Q : outcome A → gate → Prop) (g : gate) : Prop :=
  ∀ t, match m g t with (o, g', _) => Q o g' end.

Lemma g_wp_ret {A} (a : A) Q g : Q (Done a) g → g_wp (mret a) Q g.
Proof. by intros HQ t. Qed.

Lemma g_wp_throw {A} (Q : outcome A → gate → Prop) g : Q Threw g → g_wp gthrow Q g.
Proof. by intros HQ t. Qed.

Lemma g_wp_bind {A B} (m : G A) (k : A → G B) Q g :
  g_wp m (λ o g', match o with Done a => g_wp (k a) Q g' | Threw => Q Threw g' | Blocked => Q Blocked g' end) g →
  g_wp (m ≫= k) Q g.
Proof.
  intros Hm t. specialize (Hm t). unfold mbind, G_bind. destruct (m g t) as [[[a | |] g'] t']; [apply Hm | done..].
Qed.

Lemma g_wp_mono {A} (m : G A) (Q Q' : outcome A → gate → Prop) g :
  (∀ o g', Q o g' → Q' o g') → g_wp m Q g → g_wp m Q' g.
Proof. intros HQ Hm t. specialize (Hm t). destruct (m g t) as [[o g'] t']. by apply HQ. Qed.

Lemma g_wp_io (Q : outcome io_outcome → gate → Prop) g : (∀ o, Q (Done o) g) → g_wp gio Q g.
Proof. intros HQ t. unfold gio. destruct (tape_next t). apply HQ. Qed.

Lemma g_wp_tx {A} (m : Tx A) (Q : outcome (sql_error + A) → gate → Prop) g :
  (∀ t r d' t', m (ga_db g) t = (r, d', t') → Q (Done r) (Gate d' (ga_status g) (ga_pool g))) → g_wp (tx m) Q g.
Proof. intros HQ t. unfold tx. destruct (m (ga_db g) t) as [[r d'] t'] eqn:E. by eapply HQ. Qed.

Lemma g_wp_redis {A} (m : St A) (Q : outcome A → gate → Prop) g :
  (∀ t r s' t', m (ga_status g) t = (r, s', t') → Q (Done r) (Gate (ga_db g) s' (ga_pool g))) → g_wp (redis m) Q g.
Proof. intros HQ t. unfold redis. destruct (m (ga_status g) t) as [[r s'] t'] eqn:E. by eapply HQ. Qed.

(** Runs of a sequence. *)
Lemma G_bind_run {A B} (m : G A) (k : A → G B) g t a g' t' : m g t = (Done a, g', t') → (m ≫= k) g t = k a g' t'.
Proof. intros E. unfold mbind, G_bind. by rewrite E. Qed.

Lemma G_bind_blocked {A B} (m : G A) (k : A → G B) g t g' t' : m g t = (Blocked, g', t') → (m ≫= k) g t = (Blocked, g', t').
Proof. intros E. unfold mbind, G_bind. by rewrite E. Qed.

(** A query leaves the tables. *)
Lemma g_wp_tx_query {A} (f : db → A) (Q : outcome (sql_error + A) → gate → Prop) g :
  (∀ e, Q (Done (inl e)) g) → Q (Done (inr (f (ga_db g)))) g → g_wp (tx (query f)) Q g.
Proof.
  intros He HQ. apply g_wp_tx. intros t r d' t'. unfold query, exec.
  destruct (tape_next t) as [[| n] t1]; intros [= <- <- _]; destruct g; auto.
Qed.

(** [Get] leaves Redis. *)
Lemma Get_same k s t r s' t' : Get k s t = (r, s', t') → s' = s ∧ (∀ v, r = Some v → ∃ x, s_redis s !! c_str k = Some x ∧ v = c_str x).
Proof.
  unfold Get. destruct (tape_next t) as [o t1]. intros [= <- <- _]. split; [done |]. intros v.
  destruct (io_ok o); [| done]. destruct (s_redis s !! c_str k) as [x |]; [| done]. intros [= <-]. by exists x.
Qed.

(** ** Users *)

Section users.
Context `{JsonLib, Pbkdf2Lib} (weight : bytes → bytes).

Lemma find_user_Some p d i u : find_user p d = Some (i, u) → users d !! i = Some u ∧ p u = true.
Proof.
  unfold find_user. destruct (rows_where _ _) as [| x l] eqn:E; [done |]. intros [= ->].
  assert (Hin : (i, u) ∈ rows_where (λ _, p) (users d)) by (rewrite E; left). by apply rows_where_elem in Hin.
Qed.

Lemma find_user_None p d i u : find_user p d = None → users d !! i = Some u → p u = false.
Proof.
  unfold find_user. destruct (rows_where _ _) as [| x l] eqn:E; [| done]. intros _ Hu.
  rewrite rows_where_nil in E. by eapply E.
Qed.

(** The unique keys of the table, and its counter. *)
Record users_ok (d : db) : Prop := {
  uo_name : ∀ i j u v, users d !! i = Some u → users d !! j = Some v → weight (username u) = weight (username v) → i = j;
  uo_mail : ∀ i j u v, users d !! i = Some u → users d !! j = Some v → weight (email u) = weight (email v) → i = j;
  uo_fresh : ∀ i, next_id d <= i → users d !! i = None;
}.

Lemma find_user_unique p d i u :
  users d !! i = Some u → p u = true → (∀ j v, users d !! j = Some v → p v = true → i = j) → find_user p d = Some (i, u).
Proof.
  intros Hu Hp Huniq. destruct (find_user p d) as [[j v] |] eqn:E.
  - apply find_user_Some in E as [Hv Hpv]. pose proof (Huniq _ _ Hv Hpv) as <-. congruence.
  - by rewrite (find_user_None _ _ _ _ E Hu) in Hp.
Qed.

Lemma find_named d i u name : users_ok d → users d !! i = Some u → weight (username u) = weight name →
  find_user (named weight name) d = Some (i, u).
Proof.
  intros Hd Hu Hw. apply find_user_unique; [done | by apply bool_decide_eq_true_2 |].
  intros j v Hv E%bool_decide_eq_true_1. eapply (uo_name _ Hd); [done.. | congruence].
Qed.

Lemma find_mailed d i u mail : users_ok d → users d !! i = Some u → weight (email u) = weight mail →
  find_user (mailed weight mail) d = Some (i, u).
Proof.
  intros Hd Hu Hw. apply find_user_unique; [done | by apply bool_decide_eq_true_2 |].
  intros j v Hv E%bool_decide_eq_true_1. eapply (uo_mail _ Hd); [done.. | congruence].
Qed.

Lemma users_ok_same_rows d d' : same_rows d d' → users_ok d → users_ok d'.
Proof. intros [Hn ->] [U1 U2 U3]. split; cbn; [done | done |]. intros i Hi. apply U3. cbn in Hn. lia. Qed.

(** Fields of a row other than the password stay. *)
Definition same_account (u v : user_row) : Prop :=
  username v = username u ∧ email v = email u ∧ user_profile v = user_profile u ∧ last_event_seq v = last_event_seq u.

(** ** Effects *)

Definition given (root : json) (k s : bytes) : Prop := at_key (Some root) k ≫= get_string = Some s.

(** The request carries the code Redis holds for the address. *)
Definition holds_code (root : json) (s : status) (mail : bytes) : Prop :=
  ∃ stored, s_redis s !! c_str (CODEPREFIX ++ mail) = Some stored ∧ given root (§ "varifycode") (c_str stored).

(** The tables with one more user. *)
Definition with_user (d : db) (u : user_row) : db := set_next (set_users d (<[next_id d := u]> (users d))) (next_id d + 1).
Definition with_password (d : db) (name hashed : bytes) : db := (update_password weight name hashed d).2.

(** What [HashPassword] makes of a password. *)
Definition hash_of (pwd entropy hashed : bytes) : Prop :=
  hashed ≠ [] ∧ ∃ t t', HashPassword pwd entropy t = (hashed, t').

Inductive account_effect (random : bytes) (root : json) (s : status) (d : db) : route → db → Prop :=
  | no_effect r d' : same_rows d d' → account_effect random root s d r d'
  | effect_register name mail pwd icon hashed d' :
      given root (§ "user") name → given root (§ "email") mail → given root (§ "passwd") pwd → given root (§ "icon") icon →
      holds_code root s mail → hash_of pwd random hashed →
      find_user (named weight name) d = None → find_user (mailed weight mail) d = None →
      d' = with_user d (UserRow name mail hashed (Profile name [] 0 icon) 0) →
      account_effect random root s d UserRegister d'
  | effect_reset i u name pwd hashed d' :
      given root (§ "user") name → given root (§ "email") (email u) → given root (§ "passwd") pwd →
      holds_code root s (email u) → hash_of pwd random hashed → users d !! i = Some u → weight (username u) = weight name →
      d' = with_password d name hashed →
      account_effect random root s d ResetPwd d'.

(** ** The pool *)

Definition conns (g : gate) : nat := p_idle (ga_pool g) + p_failed (ga_pool g).

(** [n] connections fewer than before. *)
Definition lent (n : nat) (g0 g : gate) : Prop :=
  p_stop (ga_pool g) = p_stop (ga_pool g0) ∧ (p_stop (ga_pool g0) = false → (conns g + n = conns g0)%nat).

Lemma lent_refl g : lent 0 g g.
Proof. split; [done |]. intros _. lia. Qed.

Lemma lent_trans n m g0 g1 g2 : lent n g0 g1 → lent m g1 g2 → lent (n + m) g0 g2.
Proof. intros [E1 L1] [E2 L2]. split; [congruence |]. intros Hs. rewrite E1 in L2. specialize (L1 Hs). specialize (L2 Hs). lia. Qed.

Lemma lent_pool n g0 g g' : ga_pool g' = ga_pool g → lent n g0 g → lent n g0 g'.
Proof. intros E [L1 L2]. unfold lent, conns. by rewrite E. Qed.

(** The rest of the state stays. *)
Definition same_data (g g' : gate) : Prop := ga_db g' = ga_db g ∧ ga_status g' = ga_status g.

Lemma getConnection_wp g (Q : outcome bool → gate → Prop) :
  Q Blocked g → Q (Done false) g → (∀ g', same_data g g' → lent 1 g g' → Q (Done true) g') → g_wp getConnection Q g.
Proof.
  intros HB HF HT t. unfold getConnection. destruct (p_stop (ga_pool g)) eqn:Es; [exact HF |].
  destruct (p_idle (ga_pool g)) as [| n] eqn:Ei; [exact HB |]. apply HT; [done |]. split; cbn; [congruence |].
  intros _. unfold conns. cbn. rewrite Ei. lia.
Qed.

Lemma returnConnection_wp dirty g0 g (Q : outcome unit → gate → Prop) :
  lent 1 g0 g → (∀ g', same_data g g' → lent 0 g0 g' → Q (Done tt) g') → g_wp (returnConnection dirty) Q g.
Proof.
  intros [E L] HQ t. unfold returnConnection. destruct (p_stop (ga_pool g)) eqn:Es.
  { apply HQ; [done |]. split; [congruence |]. intros Hs. congruence. }
  rewrite <- E in L. specialize (L eq_refl). unfold conns in L.
  assert (Hpush : lent 0 g0 (with_pool (Pool (S (p_idle (ga_pool g))) (p_failed (ga_pool g)) false) g)).
  { split; [by rewrite <- E |]. intros _. unfold conns. cbn. lia. }
  assert (Hfail : lent 0 g0 (with_pool (Pool (p_idle (ga_pool g)) (S (p_failed (ga_pool g))) false) g)).
  { split; [by rewrite <- E |]. intros _. unfold conns. cbn. lia. }
  destruct dirty; cbn [negb]; [| by apply HQ]. destruct (tape_next t) as [o t1]. destruct (io_ok o); [by apply HQ |].
  unfold mbind, G_bind, reconnect. rewrite Es. destruct (tape_next t1) as [o' t2]. destruct (io_ok o'); [by apply HQ |].
  cbn. unfold one_failed. rewrite Es. by apply HQ.
Qed.

(** ** The DAO *)

Lemma reg_body_wp name mail pwd icon entropy d :
  users_ok d →
  tx_wp (reg_body weight name mail pwd icon entropy) (no_undo d)
    (λ x d1, no_undo d d1 ∧ match x.1 with
      | Rollback => x.2 = 0 ∨ x.2 = -1
      | Commit => x.2 = next_id d ∧ ∃ hashed, hash_of pwd entropy hashed ∧ find_user (named weight name) d = None ∧
          find_user (mailed weight mail) d = None ∧ d1 = with_user d (UserRow name mail hashed (Profile name [] 0 icon) 0)
      end) d.
Proof.
  intros Hd. assert (Hn : no_undo d d) by (unfold no_undo; lia). unfold reg_body.
  tx_step. tx_step; [done |]. case_bool_decide; [apply tx_wp_ret; split; [done | by left] |].
  tx_step. tx_step; [done |]. case_bool_decide; [apply tx_wp_ret; split; [done | by left] |].
  tx_step. intros t. unfold hash_password. destruct (HashPassword pwd entropy t) as [h t'] eqn:Eh.
  case_bool_decide as Hh; [apply tx_wp_ret; split; [done | by right] |].
  tx_step. unfold insert_user. tx_step; [done |]. intros id d' Hins.
  case_match eqn:Ec; [| done]. injection Hins as <- <-.
  assert (Hn2 : no_undo d (with_user d (UserRow name mail h (Profile name [] 0 icon) 0))) by (unfold no_undo; cbn; lia).
  tx_step. unfold LastInsertId. tx_step; [done |]. apply tx_wp_ret. split; [done |]. cbn. split; [done |]. exists h. split; [split; [done | by eexists _, _] |].
  apply andb_true_iff in Ec as [E1%bool_decide_eq_true_1 E2%bool_decide_eq_true_1]. done.
Qed.

Definition registered (d d' : db) (name mail pwd icon entropy : bytes) : Prop :=
  ∃ hashed, hash_of pwd entropy hashed ∧ find_user (named weight name) d = None ∧ find_user (mailed weight mail) d = None ∧
    d' = with_user d (UserRow name mail hashed (Profile name [] 0 icon) 0).

(** A positive answer is the identifier of the new row. *)
Lemma RegUser_wp name mail pwd icon entropy g :
  users_ok (ga_db g) →
  g_wp (RegUserTransaction weight name mail pwd icon entropy)
    (λ o g', ga_status g' = ga_status g ∧ lent 0 g g' ∧
       (same_rows (ga_db g) (ga_db g') ∧ (∀ n, o = Done n → n = 0 ∨ n = -1) ∨
        registered (ga_db g) (ga_db g') name mail pwd icon entropy ∧ (∀ n, o = Done n → n = next_id (ga_db g) ∨ n = -1))) g.
Proof.
  intros Hd. unfold RegUserTransaction. apply g_wp_bind, getConnection_wp.
  - split_and!; [done | apply lent_refl |]. left. split; [apply same_rows_refl | done].
  - apply g_wp_ret. split_and!; [done | apply lent_refl |]. left. split; [apply same_rows_refl |]. intros n [= <-]. by left.
  - intros g1 [Ed Es] Hl. cbn [negb]. apply g_wp_bind, g_wp_tx. intros t r d' t' Hrun.
    rewrite Ed in Hrun. pose proof (transaction_outcome _ (λ n, n = 0 ∨ n = -1)
      (λ n d1, n = next_id (ga_db g) ∧ registered (ga_db g) d1 name mail pwd icon entropy) _ _ _ _ _
      (reg_body_wp name mail pwd icon entropy (ga_db g) Hd) Hrun) as Hout.
    set (g2 := Gate d' (ga_status g1) (ga_pool g1)).
    assert (Hl2 : lent 1 g g2) by (eapply lent_pool, Hl; done).
    destruct r as [e | n].
    + apply g_wp_bind, g_wp_io. intros o. apply g_wp_bind, (returnConnection_wp _ g); [done |].
      intros g3 [Ed3 Es3] Hl3. cbn in Ed3, Es3.
      assert (Hx : ∀ o', (o' = Done (-1) ∨ o' = Threw) → ga_status g3 = ga_status g ∧ lent 0 g g3 ∧
        (same_rows (ga_db g) (ga_db g3) ∧ (∀ n, o' = Done n → n = 0 ∨ n = -1) ∨
         registered (ga_db g) (ga_db g3) name mail pwd icon entropy ∧ (∀ n, o' = Done n → n = next_id (ga_db g) ∨ n = -1))).
      { intros o' Ho'. split_and!; [congruence | done |]. rewrite Ed3.
        assert (Hm1 : ∀ n, o' = Done n → n = -1) by (intros n ->; by destruct Ho' as [[= ->] |]).
        destruct Hout as [[Hs _] | (n & [Hn Hr] & _)]; [left | right]; (split; [done |]); intros m Hm; right; by apply Hm1. }
      destruct (io_ok o); [apply g_wp_ret; apply Hx; by left | apply g_wp_throw; apply Hx; by right].
    + apply g_wp_bind, (returnConnection_wp _ g); [done |]. intros g3 [Ed3 Es3] Hl3. cbn in Ed3, Es3. apply g_wp_ret.
      split_and!; [congruence | done |]. rewrite Ed3.
      destruct Hout as [[Hs Hn] | (n' & [Hn Hr] & [[= ->] | Hx])]; [| | done].
      * left. split; [done |]. by intros m [= <-].
      * right. split; [done |]. intros m [= <-]. by left.
Qed.

Lemma CheckEmail_wp name mail g :
  g_wp (CheckEmail weight name mail)
    (λ o g', same_data g g' ∧
       (lent 0 g g' ∧ (o = Done true → ∃ i u, users (ga_db g) !! i = Some u ∧ weight (username u) = weight name ∧ mail = email u) ∨
        lent 1 g g' ∧ o = Done false ∧ find_user (named weight name) (ga_db g) = None)) g.
Proof.
  unfold CheckEmail. apply g_wp_bind, getConnection_wp.
  - split; [done |]. left. split; [apply lent_refl | done].
  - apply g_wp_ret. split; [done |]. left. split; [apply lent_refl | done].
  - intros g1 [Ed Es] Hl. cbn [negb]. apply g_wp_bind, g_wp_tx_query.
    + intros e. apply g_wp_bind, (returnConnection_wp _ g); [done |]. intros g3 [Ed3 Es3] Hl3. apply g_wp_ret.
      split; [split; congruence |]. left. by split.
    + rewrite Ed. destruct (find_user (named weight name) (ga_db g)) as [[i u] |] eqn:Ef.
      * apply g_wp_bind, (returnConnection_wp _ g); [done |]. intros g3 [Ed3 Es3] Hl3. apply g_wp_ret.
        split; [split; congruence |]. left. split; [done |]. intros [= E%bool_decide_eq_true_1].
        apply find_user_Some in Ef as [Hu Hn%bool_decide_eq_true_1]. by exists i, u.
      * apply g_wp_ret. split; [by split |]. right. by split_and!.
Qed.

Lemma UpdatePwd_wp name newpwd entropy g :
  g_wp (UpdatePwd weight name newpwd entropy)
    (λ o g', ga_status g' = ga_status g ∧ lent 0 g g' ∧
       (ga_db g' = ga_db g ∧ o ≠ Done true ∨ ∃ hashed, hash_of newpwd entropy hashed ∧ ga_db g' = with_password (ga_db g) name hashed)) g.
Proof.
  unfold UpdatePwd. apply g_wp_bind, getConnection_wp.
  - split_and!; [done | apply lent_refl | by left].
  - apply g_wp_ret. split_and!; [done | apply lent_refl | by left].
  - intros g1 [Ed Es] Hl. cbn [negb]. apply g_wp_bind, g_wp_tx. intros t r d' t'. unfold hash_password.
    destruct (HashPassword newpwd entropy t) as [h t1] eqn:Eh. intros [= <- <- <-]. rewrite Ed.
    set (g2 := Gate (ga_db g) (ga_status g1) (ga_pool g1)). assert (Hl2 : lent 1 g g2) by (eapply lent_pool, Hl; done).
    case_bool_decide as Hh.
    + apply g_wp_bind, (returnConnection_wp _ g); [done |]. intros g3 [Ed3 Es3] Hl3. apply g_wp_ret.
      cbn in Ed3, Es3. split_and!; [congruence | done | by left].
    + apply g_wp_bind, g_wp_tx. intros t2 r2 d2 t3. unfold exec_auto.
      assert (Hd2 : ∀ (b : bool) dx gx, ga_status gx = ga_status g → lent 0 g gx → ga_db gx = dx →
        (dx = ga_db g ∧ b = false ∨ dx = with_password (ga_db g) name h) →
        ga_status gx = ga_status g ∧ lent 0 g gx ∧
        (ga_db gx = ga_db g ∧ Done b ≠ Done true ∨ ∃ hashed, hash_of newpwd entropy hashed ∧ ga_db gx = with_password (ga_db g) name hashed)).
      { intros b dx gx Hs Hlx <- [[E ->] | E]; (split_and!; [done.. |]); [by left |]. right. exists h. split; [| done].
        split; [done | by eexists _, _]. }
      destruct (tape_next t2) as [[| n] t4].
      * destruct (update_password weight name h _) as [k d3] eqn:Eu. intros [= <- <- _].
        apply g_wp_bind, (returnConnection_wp _ g); [eapply lent_pool, Hl; done |]. intros g3 [Ed3 Es3] Hl3. apply g_wp_ret.
        cbn in Ed3, Es3. apply (Hd2 _ d3); [congruence | done.. |]. right. unfold with_password. cbn in Eu. by rewrite Eu.
      * intros [= <- <- _]. apply g_wp_bind, (returnConnection_wp _ g); [eapply lent_pool, Hl; done |].
        intros g3 [Ed3 Es3] Hl3. apply g_wp_ret. cbn in Ed3, Es3. eapply Hd2; [congruence | done.. |].
        case_decide; [right | left]; done.
Qed.

Lemma CheckPwd_wp mail pwd g :
  g_wp (CheckPwd weight mail pwd)
    (λ o g', same_data g g' ∧ lent 0 g g' ∧
       ∀ info, o = Done (Some info) → ∃ i u, find_user (mailed weight mail) (ga_db g) = Some (i, u) ∧
         info = Account (username u) (s32 i) (email u) ∧ ∃ t, (VerifyPassword pwd (password_hash u) t).1 = true) g.
Proof.
  unfold CheckPwd. apply g_wp_bind, getConnection_wp; [by split; [| split; [apply lent_refl |]] .. |].
  intros g1 [Ed Es] Hl. cbn [negb]. apply g_wp_bind, g_wp_tx_query.
  - intros e. apply g_wp_bind, (returnConnection_wp _ g); [done |]. intros g3 [Ed3 Es3] Hl3. apply g_wp_ret.
    split_and!; [split; congruence | done | done].
  - rewrite Ed. destruct (find_user (mailed weight mail) (ga_db g)) as [[i u] |]; cbn [fst snd].
    + apply g_wp_bind. intros t. unfold verify_password. destruct (VerifyPassword pwd (password_hash u) t) as [ok t1] eqn:Ev.
      apply g_wp_bind, (returnConnection_wp _ g); [done |]. intros g3 [Ed3 Es3] Hl3. apply g_wp_ret.
      split_and!; [split; congruence | done |]. intros info. destruct ok; [| done]. intros [= <-]. exists i, u.
      split_and!; [done.. |]. exists t. by rewrite Ev.
    + apply g_wp_bind. intros t. unfold verify_password. destruct (VerifyPassword pwd [] t) as [ok t1] eqn:Ev.
      assert (ok = false) as -> by by injection Ev.
      apply g_wp_bind, (returnConnection_wp _ g); [done |]. intros g3 [Ed3 Es3] Hl3. apply g_wp_ret.
      split_and!; [split; congruence | done | done].
Qed.

Lemma TestProcedure_wp mail g : g_wp (TestProcedure weight mail) (λ _ g', same_data g g' ∧ lent 0 g g') g.
Proof.
  unfold TestProcedure. apply g_wp_bind, getConnection_wp; [by split; [| apply lent_refl] .. |].
  intros g1 [Ed Es] Hl. cbn [negb]. apply g_wp_bind, g_wp_tx_query; [intros e |];
    (apply g_wp_bind, (returnConnection_wp _ g); [done |]; intros g3 [Ed3 Es3] Hl3; apply g_wp_ret;
     split; [split; congruence | done]).
Qed.

(** ** The handlers *)

Lemma text_at_run root k s g t : given root k s → text_at root k g t = (Done s, g, t).
Proof. intros E. unfold text_at. unfold given in E. by rewrite E. Qed.

Lemma text_at_wp root k (Q : outcome bytes → gate → Prop) g :
  Q Threw g → (∀ s, given root k s → Q (Done s) g) → g_wp (text_at root k) Q g.
Proof.
  intros HT HQ. unfold text_at. destruct (at_key (Some root) k ≫= get_string) as [s |] eqn:E; [apply g_wp_ret; by apply HQ | by apply g_wp_throw].
Qed.

Lemma check_code_wp root mail go (Q : outcome fields → gate → Prop) g :
  (∀ f, f = ecode ERR_VARIFY_EXPIRED ∨ f = ecode ERR_VARIFY_CODE → Q (Done f) g) → Q Threw g →
  (holds_code root (ga_status g) mail → g_wp go Q g) → g_wp (check_code root mail go) Q g.
Proof.
  intros HD HT Hgo. unfold check_code. apply g_wp_bind, g_wp_redis. intros t r s' t' Hget.
  apply Get_same in Hget as [-> Hv]. replace (Gate (ga_db g) (ga_status g) (ga_pool g)) with g by by destruct g.
  destruct r as [code |]; [| apply g_wp_ret, HD; by left]. apply g_wp_bind, text_at_wp; [done |]. intros s Hs.
  case_bool_decide as Hc; cbn [negb]; [| apply g_wp_ret, HD; by right]. apply Hgo.
  destruct (Hv code eq_refl) as (x & Hx & E). exists x. split; [done |]. congruence.
Qed.

Lemma status_rpc_wp m (Q : outcome GetChatServerRsp → gate → Prop) g :
  (∀ r s', (∃ t t', m (ga_status g) t = (r, s', t')) ∨ gr_error r = CommonErrCode_code ERR_RPC_FAILED →
     Q (Done r) (Gate (ga_db g) s' (ga_pool g))) →
  g_wp (status_rpc m) Q g.
Proof.
  intros HQ. unfold status_rpc. apply g_wp_bind, g_wp_io. intros [| [| n]].
  - apply g_wp_redis. intros t r s' t' Hm. apply HQ. left. by eexists _, _.
  - apply g_wp_ret. replace g with (Gate (ga_db g) (ga_status g) (ga_pool g)) by by destruct g. apply HQ. by right.
  - apply g_wp_bind, g_wp_redis. intros t r s' t' Hm. apply g_wp_ret. apply HQ. by right.
Qed.

Context (verify_rpc : bytes → Z) (res_host res_port : bytes) (hash_order : gmap bytes bytes → list (bytes * bytes)).

(** What a request does to the accounts and to the pool. *)
Definition served (random : bytes) (root : json) (r : route) (g : gate) (o : outcome fields) (g' : gate) : Prop :=
  account_effect random root (ga_status g) (ga_db g) r (ga_db g') ∧
  (lent 0 g g' ∨ lent 1 g g' ∧ r = ResetPwd ∧ o = Done (ecode ERR_EMAIL_NOT_MATCH) ∧
     ∃ name, given root (§ "user") name ∧ find_user (named weight name) (ga_db g) = None).

Lemma served_idle random root r g o g' : ga_db g' = ga_db g → lent 0 g g' → served random root r g o g'.
Proof. intros E Hl. split; [| by left]. rewrite E. apply no_effect, same_rows_refl. Qed.

Lemma user_register_served random root g : users_ok (ga_db g) →
  g_wp (user_register weight random root) (served random root UserRegister g) g.
Proof.
  intros Hd. unfold user_register. assert (Hidle : ∀ o, served random root UserRegister g o g) by (intros o; apply served_idle; [done | apply lent_refl]).
  do 5 (apply g_wp_bind, text_at_wp; [apply Hidle | intros ? ?]). case_bool_decide as Hp; cbn [negb]; [| apply g_wp_ret, Hidle].
  apply check_code_wp; [intros; apply Hidle | apply Hidle |]. intros Hcode. apply g_wp_bind.
  eapply g_wp_mono, RegUser_wp; [| done]. intros o g' (Es & Hl & Heff).
  assert (Hx : ∀ o', served random root UserRegister g o' g').
  { intros o'. split; [| by left]. destruct Heff as [[Hs _] | [(hashed & Hh & F1 & F2 & E) _]]; [by apply no_effect |].
    by eapply effect_register. }
  destruct o as [n | |]; [| apply Hx..]. destruct (_ || _); [apply g_wp_ret, Hx |].
  apply g_wp_bind, text_at_wp; [apply Hx | intros; apply g_wp_ret, Hx].
Qed.

Lemma reset_pwd_served random root g : g_wp (reset_pwd weight random root) (served random root ResetPwd g) g.
Proof.
  unfold reset_pwd. assert (Hidle : ∀ o, served random root ResetPwd g o g) by (intros o; apply served_idle; [done | apply lent_refl]).
  apply g_wp_bind, text_at_wp; [apply Hidle | intros mail Hmail]. apply g_wp_bind, text_at_wp; [apply Hidle | intros name Hname].
  apply g_wp_bind, text_at_wp; [apply Hidle | intros pwd Hpwd].
  apply check_code_wp; [intros; apply Hidle | apply Hidle |]. intros Hcode. apply g_wp_bind.
  eapply g_wp_mono, CheckEmail_wp. intros o g1 [[Ed Es] Hc].
  destruct Hc as [[Hl Hok] | (Hl & -> & Hnone)].
  - destruct o as [ok | |]; [| by apply served_idle..]. destruct ok; cbn [negb]; [| by apply g_wp_ret, served_idle].
    destruct (Hok eq_refl) as (i & u & Hu & Hw & ->). apply g_wp_bind. eapply g_wp_mono, UpdatePwd_wp.
    intros o2 g2 (Es2 & Hl2 & Hup).
    assert (Hx : ∀ o', served random root ResetPwd g o' g2).
    { intros o'. split; [| left; apply (lent_trans 0 0 _ _ _ Hl Hl2)].
      destruct Hup as [[E _] | (hashed & Hh & E)]; rewrite E, Ed; [apply no_effect, same_rows_refl |].
      by eapply effect_reset. }
    destruct o2 as [b | |]; [| apply Hx..]. destruct b; cbn [negb]; [| apply g_wp_ret, Hx].
    apply g_wp_bind, text_at_wp; [apply Hx | intros; apply g_wp_ret, Hx].
  - cbn [negb]. apply g_wp_ret. split; [rewrite Ed; apply no_effect, same_rows_refl |]. right. split_and!; try done.
    by exists name.
Qed.

Lemma user_login_served random root g :
  g_wp (user_login weight res_host res_port hash_order random root) (served random root UserLogin g) g.
Proof.
  unfold user_login. do 2 (apply g_wp_bind, text_at_wp; [by apply served_idle; [| apply lent_refl] | intros ? ?]).
  apply g_wp_bind. eapply g_wp_mono, CheckPwd_wp. intros o g1 ([Ed Es] & Hl & _).
  destruct o as [[u |] | |]; [| by apply g_wp_ret, served_idle | by apply served_idle..].
  apply g_wp_bind, status_rpc_wp. intros r s' _. destruct (negb _); by apply g_wp_ret, served_idle.
Qed.

Lemma serve_effect r random body root g : users_ok (ga_db g) → json_parse body = Some root →
  g_wp (serve weight verify_rpc res_host res_port hash_order r random body) (served random root r g) g.
Proof.
  intros Hd Hroot. unfold serve. rewrite Hroot.
  assert (Hidle : ∀ o, served random root r g o g) by (intros o; apply served_idle; [done | apply lent_refl]).
  destruct r.
  - unfold test_procedure. destruct (field root _); [| apply g_wp_ret, Hidle]. destruct (get_string _); [| by apply g_wp_throw].
    apply g_wp_bind. eapply g_wp_mono, TestProcedure_wp. intros o g' [[Ed Es] Hl].
    destruct o as [x | |]; [| by apply served_idle..]. destruct (default _ _). by apply g_wp_ret, served_idle.
  - unfold get_varifycode. destruct (field root _); [| apply g_wp_ret, Hidle]. destruct (get_string _); [apply g_wp_ret, Hidle | by apply g_wp_throw].
  - by apply user_register_served.
  - apply reset_pwd_served.
  - unfold reassign_chat. destruct (field root _ ≫= get_ll); [| apply g_wp_ret, Hidle]. destruct (field root _ ≫= get_string); [| apply g_wp_ret, Hidle].
    destruct (_ || _); [apply g_wp_ret, Hidle |]. apply g_wp_bind, status_rpc_wp. intros rp s' _.
    destruct (negb _); [destruct (_ || _) |]; by apply g_wp_ret, served_idle.
  - apply user_login_served.
Qed.

End users.
