(* ===== verification/GateSystem.v ===== *)
(** * Three servers on one database, and the way in

    The gate's requests join the operations of the ChatServer and the
    ResourceServer (SystemDb.v): the tables stay consistent. And the way of a
    new user through the servers: who registers can log in at the gate, and
    the token opens a session of the ChatServer. *)

From S2P Require Import Prelude ProtocolIds JsonFields Database ResourceDb TxLogic ChatDb ChatDbMessages ChatFriends SystemDb ChatSession ChatLogic PasswordHash StatusService GateAccounts GateSafety.

Section tables.
Context (weight : bytes → bytes).

(** *** The effects of the gate *)

Lemma only_users_same_rows d d' : same_rows d d' → only_users d d'.
Proof. intros [Hn E]. rewrite E. split; cbn; [done | done | |]; intros i u Hu; [by exists u | left; by exists u]. Qed.

Lemma only_users_register d u :
  users_ok weight d → last_event_seq u = 0 → only_users d (with_user d u).
Proof.
  intros Hd Hu. assert (Hfresh : users d !! next_id d = None) by (apply (uo_fresh _ _ Hd); lia).
  split; cbn; [done | lia | |].
  - intros i v Hv. exists v. rewrite lookup_insert_ne by congruence. done.
  - intros i v. rewrite lookup_insert_Some. intros [[<- <-] | [_ Hv]]; [by right | left; by exists v].
Qed.

Lemma with_password_lookup d name hashed i :
  users (with_password weight d name hashed) !! i = (λ u, if named weight name u then set_hash hashed u else u) <$> users d !! i.
Proof. unfold with_password, update_password. cbn. by rewrite lookup_fmap. Qed.

Lemma only_users_password d name hashed : only_users d (with_password weight d name hashed).
Proof.
  split; [by unfold with_password, update_password; cbn; destruct d | by cbn | |]; intros i u; rewrite with_password_lookup.
  - intros ->. eexists. split; [reflexivity |]. by destruct (named weight name u).
  - intros (v & Hv & ->)%fmap_Some. left. exists v. split; [done |]. by destruct (named weight name v).
Qed.

Lemma users_ok_register d u :
  users_ok weight d → find_user (named weight (username u)) d = None → find_user (mailed weight (email u)) d = None →
  users_ok weight (with_user d u).
Proof.
  intros Hd Hn Hm.
  assert (Hx : ∀ i v, users d !! i = Some v → weight (username v) ≠ weight (username u) ∧ weight (email v) ≠ weight (email u)).
  { intros i v Hv. pose proof (find_user_None _ _ _ _ Hn Hv) as E1%bool_decide_eq_false_1.
    by pose proof (find_user_None _ _ _ _ Hm Hv) as E2%bool_decide_eq_false_1. }
  split; cbn.
  - intros i j v w. rewrite !lookup_insert_Some. intros [[<- <-] | [_ Hv]] [[<- <-] | [_ Hw]] E; try done;
      [by destruct (Hx _ _ Hw) | by destruct (Hx _ _ Hv) | by eapply (uo_name _ _ Hd)].
  - intros i j v w. rewrite !lookup_insert_Some. intros [[<- <-] | [_ Hv]] [[<- <-] | [_ Hw]] E; try done;
      [by destruct (Hx _ _ Hw) | by destruct (Hx _ _ Hv) | by eapply (uo_mail _ _ Hd)].
  - intros i Hi. rewrite lookup_insert_ne by lia. apply (uo_fresh _ _ Hd). lia.
Qed.

(** Updates of rows that keep names and addresses. *)
Lemma users_ok_fmap d d' (f : Z → user_row → user_row) :
  (∀ i, users d' !! i = f i <$> users d !! i) → (∀ i u, username (f i u) = username u ∧ email (f i u) = email u) →
  next_id d <= next_id d' → users_ok weight d → users_ok weight d'.
Proof.
  intros Hf Hsame Hn [U1 U2 U3]. split.
  - intros i j u v. rewrite !Hf, !fmap_Some. intros (u0 & Hu & ->) (v0 & Hv & ->).
    rewrite (proj1 (Hsame i u0)), (proj1 (Hsame j v0)). by apply U1.
  - intros i j u v. rewrite !Hf, !fmap_Some. intros (u0 & Hu & ->) (v0 & Hv & ->).
    rewrite (proj2 (Hsame i u0)), (proj2 (Hsame j v0)). by apply U2.
  - intros i Hi. rewrite Hf, U3 by lia. done.
Qed.

Lemma users_ok_op d d' : op_effect d d' → users_ok weight d → users_ok weight d'.
Proof.
  intros [(Eu & _ & Hn) | [(r & u & icon & Hu & ->) | (d1 & r & u & e & (Eu & _ & Hn) & Hu & ->)]] Hd.
  - apply (users_ok_fmap d d' (λ _ u, u)); [| done.. | done]. intros i. rewrite Eu. by destruct (users d !! i).
  - apply (users_ok_fmap d _ (λ i v, if decide (i = r) then with_avatar icon v else v)); [| | done | done].
    + intros i. cbn. destruct (decide (i = r)) as [-> |]; [by rewrite lookup_insert_eq, Hu |].
      rewrite lookup_insert_ne by done. by destruct (users d !! i).
    + intros i v. by case_decide.
  - apply (users_ok_fmap d _ (λ i v, if decide (i = r) then UserRow (username v) (email v) (password_hash v) (user_profile v) (last_event_seq v + 1) else v)).
    + intros i. unfold append_event. rewrite Eu, Hu. cbn. destruct (decide (i = r)) as [-> | Hne].
      * by rewrite lookup_insert_eq, Hu.
      * rewrite lookup_insert_ne by done. by destruct (users d !! i).
    + intros i v. by case_decide.
    + unfold append_event. rewrite Eu, Hu. done.
    + done.
Qed.

Context `{JsonLib, Pbkdf2Lib}.

Lemma account_effect_users_ok random root s d r d' :
  account_effect weight random root s d r d' → users_ok weight d → users_ok weight d'.
Proof.
  intros Heff Hd. destruct Heff as [r d' Hs | name mail pwd icon hashed d' _ _ _ _ _ _ Hn Hm -> | i u name pwd hashed d' _ _ _ _ _ _ _ ->].
  - by eapply users_ok_same_rows.
  - by apply users_ok_register.
  - eapply users_ok_fmap; [apply with_password_lookup | | by cbn | done]. intros j v. cbn. by destruct (named weight name v).
Qed.

Lemma account_effect_chat_ok random root s d r d' :
  account_effect weight random root s d r d' → chat_ok weight d → users_ok weight d → chat_ok weight d'.
Proof.
  intros Heff Hok Hd. destruct Heff as [r d' Hs | name mail pwd icon hashed d' _ _ _ _ _ _ Hn Hm -> | i u name pwd hashed d' _ _ _ _ _ _ _ ->].
  - by eapply chat_ok_same_rows.
  - apply (only_users_chat_ok weight d); [by apply only_users_register | done].
  - apply (only_users_chat_ok weight d); [by apply only_users_password | done].
Qed.

Context (verify_rpc : bytes → Z) (res_host res_port : bytes) (hash_order : gmap bytes bytes → list (bytes * bytes)).

(** A request of the gate, on any state of Redis and of the pool. *)
Inductive label := DbOperation (op : db_op) | GateRequest (r : route) (random body : bytes).

Definition servers_step (d : db) (l : label) (d' : db) : Prop :=
  match l with
  | DbOperation op => db_step weight d op d'
  | GateRequest r random body => ∃ st p t o g' t',
      serve weight verify_rpc res_host res_port hash_order r random body (Gate d st p) t = (o, g', t') ∧ ga_db g' = d'
  end.

Lemma servers_step_ok d l d' :
  servers_step d l d' → chat_ok weight d → users_ok weight d → chat_ok weight d' ∧ users_ok weight d'.
Proof.
  intros Hstep Hok Hd. destruct l as [op | r random body]; cbn in Hstep.
  - destruct (db_step_good _ _ _ _ Hok Hstep) as [Hok' Heff]. split; [done | by eapply users_ok_op].
  - destruct Hstep as (st & p & t & o & g' & t' & Hrun & <-). destruct (json_parse body) as [root |] eqn:Hroot.
    + pose proof (serve_effect weight verify_rpc res_host res_port hash_order r random body root (Gate d st p) Hd Hroot t) as Hs.
      rewrite Hrun in Hs. destruct Hs as [Heff _]. by split; [eapply account_effect_chat_ok | eapply account_effect_users_ok].
    + unfold serve in Hrun. rewrite Hroot in Hrun. by injection Hrun as _ <- _.
Qed.

(** A request that does not reset the password of the user [name]. *)
Definition spares (name : bytes) (l : label) : Prop :=
  match l with
  | GateRequest ResetPwd _ body =>
      ∀ root name', json_parse body = Some root → given root (§ "user") name' → weight name' ≠ weight name
  | _ => True
  end.

(** What a login looks at. *)
Definition same_login (u v : user_row) : Prop := username v = username u ∧ email v = email u ∧ password_hash v = password_hash u.

Lemma op_effect_login d d' uid u : op_effect d d' → users d !! uid = Some u →
  ∃ v, users d' !! uid = Some v ∧ same_login u v.
Proof.
  intros [(Eu & _ & _) | [(r & u1 & icon & Hu1 & ->) | (d1 & r & u1 & e & (Eu & _ & _) & Hu1 & ->)]] Hu; [exists u; by rewrite Eu | |].
  { cbn. destruct (decide (uid = r)) as [-> | Hne]; [rewrite lookup_insert_eq; simplify_eq; by eexists | rewrite lookup_insert_ne by done; by exists u]. }
  unfold append_event. rewrite Eu, Hu1. cbn. destruct (decide (uid = r)) as [-> | Hne].
  - rewrite lookup_insert_eq. simplify_eq. by eexists.
  - rewrite lookup_insert_ne by done. by exists u.
Qed.

Lemma servers_step_login d l d' uid u :
  servers_step d l d' → chat_ok weight d → users_ok weight d → users d !! uid = Some u → spares (username u) l →
  ∃ v, users d' !! uid = Some v ∧ same_login u v.
Proof.
  intros Hstep Hok Hd Hu Hl. destruct l as [op | r random body]; cbn in Hstep.
  { destruct (db_step_good _ _ _ _ Hok Hstep) as [_ Heff]. by eapply op_effect_login. }
  destruct Hstep as (st & p & t & o & g' & t' & Hrun & <-). destruct (json_parse body) as [root |] eqn:Hroot; cycle 1.
  { unfold serve in Hrun. rewrite Hroot in Hrun. injection Hrun as _ <- _. by exists u. }
  pose proof (serve_effect weight verify_rpc res_host res_port hash_order r random body root (Gate d st p) Hd Hroot t) as Hs.
  rewrite Hrun in Hs. destruct Hs as [Heff _]. cbn [ga_db ga_status] in Heff.
  destruct Heff as [r d' [_ ->] | name mail pwd icon hashed d' _ _ _ _ _ _ _ _ -> | i v name pwd hashed d' Hname _ _ _ _ _ _ ->].
  - by exists u.
  - exists u. cbn. rewrite lookup_insert_ne; [done |]. intros <-. by rewrite (uo_fresh _ _ Hd) in Hu by lia.
  - rewrite with_password_lookup, Hu. cbn. exists u. pose proof (Hl root name Hroot Hname) as Hne.
    unfold named. by rewrite bool_decide_eq_false_2 by congruence.
Qed.

(** From one state of the tables to another by requests that spare a user. *)
Lemma reachable_login d0 d uid u :
  chat_ok weight d0 → users_ok weight d0 → users d0 !! uid = Some u →
  reachable (λ d, d = d0) (λ d l d', spares (username u) l ∧ servers_step d l d') d →
  chat_ok weight d ∧ users_ok weight d ∧ ∃ v, users d !! uid = Some v ∧ same_login u v.
Proof.
  intros Hok Hd Hu. apply (reachable_invariant _ _ (λ d, chat_ok weight d ∧ users_ok weight d ∧ ∃ v, users d !! uid = Some v ∧ same_login u v)).
  - intros ? ->. split_and!; [done.. |]. by exists u.
  - intros s l s' (Hs1 & Hs2 & v & Hv & E1 & E2 & E3) [Hl Hstep]. rewrite <- E1 in Hl.
    destruct (servers_step_ok _ _ _ Hstep Hs1 Hs2) as [Hs1' Hs2'].
    destruct (servers_step_login _ _ _ _ _ Hstep Hs1 Hs2 Hv Hl) as (v' & Hv' & F1 & F2 & F3).
    split_and!; [done.. |]. exists v'. split; [done |]. split_and!; congruence.
Qed.

End tables.

(** ** A concrete run *)

(** A request with the fields the gate reads. *)
Definition account_body : fields :=
  [(§ "email", JString § "m@x"); (§ "user", JString § "mia"); (§ "passwd", JString § "secret"); (§ "confirm", JString § "secret");
   (§ "icon", JString § "i"); (§ "varifycode", JString § "1234")].
Definition account_json : JsonLib := {| json_parse b := if decide (b = []) then None else Some (JObject account_body); json_dump _ := [] |}.
Definition demo_random : bytes := § "0123456789abcdef".
Definition demo_codes : status := StatusState {[CODEPREFIX ++ § "m@x" := § "1234"]} ∅ 0.

Definition demo_serve (r : route) (g : gate) : outcome fields * gate * tape :=
  @serve account_json toy_pbkdf2 demo_weight (λ _, 0) [] [] map_to_list r demo_random (§ "{}") g [].
Definition demo_fresh : gate := Gate (only_accounts ∅ 1) demo_codes (Pool 5 0 false).

Lemma no_accounts_ok n : users_ok demo_weight (only_accounts ∅ n).
Proof. split; intros *; cbn; rewrite lookup_empty; done. Qed.

Lemma demo_registers : ga_db (demo_serve UserRegister demo_fresh).1.2 ≠ only_accounts ∅ 1.
Proof. intros E%(f_equal next_id). vm_compute in E. discriminate. Qed.

