(* ===== verification/GateLogin.v ===== *)
(** * The way of a new user

    A user registers at the gate, logs in there with the password, and opens
    a session of the ChatServer with the token: the answers of the three
    servers fit together. The requests may lie far apart; the first one may
    have met any failure that still let it answer with success. *)

From S2P Require Import Prelude ProtocolIds JsonFields Database ResourceDb TxLogic ChatDb ChatDbMessages ChatFriends ChatSync SystemDb ChatUsers ChatSession ChatLogic ChatHandlers PasswordHash StatusService GateAccounts GateSafety GateSystem.

#[local] Arguments c_str : simpl never.
#[local] Set Default Proof Using "Type*".

(** ** Registration *)

Section register.
Context `{JsonLib, Pbkdf2Lib} (weight : bytes → bytes).

(** An answer of success names the new row. *)
Lemma register_success random root g t rt g1 t1 :
  users_ok weight (ga_db g) →
  user_register weight random root g t = (Done rt, g1, t1) → assoc (§ "error") rt = Some (jnum 0) →
  ∃ name mail pwd icon hashed, given root (§ "user") name ∧ given root (§ "email") mail ∧ given root (§ "passwd") pwd ∧
    hash_of pwd random hashed ∧ assoc (§ "uid") rt = Some (jnum (next_id (ga_db g))) ∧
    ga_db g1 = with_user (ga_db g) (UserRow name mail hashed (Profile name [] 0 icon) 0).
Proof.
  intros Hd Hrun Herr. set (Q := λ (o : outcome fields) (g1 : gate), ∀ rt, o = Done rt → assoc (§ "error") rt = Some (jnum 0) →
    ∃ name mail pwd icon hashed, given root (§ "user") name ∧ given root (§ "email") mail ∧ given root (§ "passwd") pwd ∧
    hash_of pwd random hashed ∧ assoc (§ "uid") rt = Some (jnum (next_id (ga_db g))) ∧
    ga_db g1 = with_user (ga_db g) (UserRow name mail hashed (Profile name [] 0 icon) 0)).
  assert (Hw : g_wp (user_register weight random root) Q g).
  { assert (Hcode : ∀ (e : CommonErrCode) g', e ≠ ERR_SUCCESS → Q (Done (ecode e)) g').
    { intros e g' He rt' [= <-]. by destruct e. }
    unfold user_register.
    apply g_wp_bind, text_at_wp; [done | intros mail Hmail]. apply g_wp_bind, text_at_wp; [done | intros name Hname].
    apply g_wp_bind, text_at_wp; [done | intros pwd Hpwd]. apply g_wp_bind, text_at_wp; [done | intros confirm _].
    apply g_wp_bind, text_at_wp; [done | intros icon _]. case_bool_decide; cbn [negb]; [| by apply g_wp_ret, Hcode].
    apply check_code_wp; [intros f [-> | ->]; by apply Hcode | done |]. intros _. apply g_wp_bind.
    eapply g_wp_mono, RegUser_wp; [| done]. intros o g' (_ & _ & Heff). destruct o as [n | |]; [| done..].
    destruct ((n =? 0) || (n =? -1)) eqn:En; [by apply g_wp_ret, Hcode |]. bool_to_prop.
    destruct Heff as [[_ Hn] | [(hashed & Hh & _ & _ & E) Hn]]; [by destruct (Hn n eq_refl) |].
    destruct (Hn n eq_refl) as [-> | ->]; [| done]. apply g_wp_bind, text_at_wp; [done | intros code _]. apply g_wp_ret.
    intros rt' [= <-] _. by exists name, mail, pwd, icon, hashed. }
  specialize (Hw t). rewrite Hrun in Hw. by apply Hw.
Qed.
End register.

(** ** Login at the gate *)

Section login.
Context `{JsonLib, Pbkdf2Lib} (weight : bytes → bytes) (verify_rpc : bytes → Z) (res_host res_port : bytes).
Context (hash_order : gmap bytes bytes → list (bytes * bytes)).
Hypothesis order_ok : ∀ m, hash_order m ≡ₚ map_to_list m.

Lemma VerifyPassword_tape pwd stored : (VerifyPassword pwd stored []).2 = [].
Proof.
  unfold VerifyPassword, DeriveKey. case_bool_decide; [done |]. destruct (ParseHash stored) as [p |]; [| done].
  cbn. destruct (pbkdf2 _ _ _ _); [| done]. by destruct (negb _).
Qed.

Lemma verify_hash pwd random hashed : kSaltBytes <= zlen random → hash_of pwd random hashed → VerifyPassword pwd hashed [] = (true, []).
Proof.
  intros He [Hne (t & t' & Hh)].
  destruct (VerifyPassword_HashPassword pwd pwd random hashed t t' [] He Hh Hne) as (_ & Hv & _).
  pose proof (VerifyPassword_tape pwd hashed) as Ht. apply injective_projections; [exact Hv | exact Ht].
Qed.

(** A ChatServer is there to be given out. *)
Definition some_server (s : status) : Prop := ∃ server load, live s server load.

Lemma getChatServer_some s : some_server s → 0 <= s_rr s < size_t →
  ∃ server, getChatServer hash_order s [] = (Some server, at_turn ((s_rr s + 1) mod size_t) s, []).
Proof.
  intros (server & load & Hlive) Hr. set (l := tied (omap (offer s) (hash_order (s_registry s)))).
  assert (Hne : l ≠ []).
  { set (o := omap (offer s) (hash_order (s_registry s))). assert (Ho : Cand server load ∈ o) by (unfold o; rewrite order_ok; by apply offer_live).
    unfold l. fold o. clearbody o. unfold tied. pose proof (sorting.merge_sort_Permutation name_le o) as Hperm.
    destruct (sorting.merge_sort name_le o) as [| c0 l0]; [symmetry in Hperm; apply Permutation_nil_r in Hperm as ->; by apply not_elem_of_nil in Ho |].
    destruct (min_load_In c0 l0) as (x & Hx & E). intros Hnil.
    assert (Hin : cd_server x ∈ (cd_server <$> filter (λ x, cd_load x = min_load c0 l0) (c0 :: l0)))
      by (apply list_elem_of_fmap_2, list_elem_of_filter; done).
    rewrite Hnil in Hin. by apply not_elem_of_nil in Hin. }
  pose proof (getChatServer_run hash_order s l (s_rr s) Hr eq_refl Hne) as Hrun.
  assert (Hs : at_turn (s_rr s) s = s) by by destruct s. rewrite Hs in Hrun.
  destruct (lookup_lt_is_Some_2 l (Z.to_nat (s_rr s mod zlen l))) as [x Hx].
  { unfold zlen. assert (0 < Z.of_nat (length l)) by (destruct l; [done | cbn; lia]).
    pose proof (Z.mod_pos_bound (s_rr s) (Z.of_nat (length l))). lia. }
  exists x. by rewrite Hrun, Hx.
Qed.

Definition with_token (s : status) (uid : Z) (uuid : bytes) : status :=
  StatusState (<[c_str (token_key uid) := c_str uuid]> (s_redis s)) (s_registry s) ((s_rr s + 1) mod size_t).

Lemma GetChatServer_token s uid uuid : some_server s → 0 <= s_rr s < size_t →
  ∃ server, GetChatServer hash_order uuid uid [] s [] =
    (ServerRsp 0 (srv_name server) (srv_host server) (srv_port server) uuid, with_token s uid uuid, []).
Proof.
  intros Hs Hr. destruct (getChatServer_some s Hs Hr) as [server Hrun]. exists server.
  unfold GetChatServer. rewrite bool_decide_eq_true_2 by done. cbn [negb]. unfold mbind, St_bind. rewrite Hrun. reflexivity.
Qed.

Lemma CheckPwd_run g uid u mail pwd :
  find_user (mailed weight mail) (ga_db g) = Some (uid, u) → VerifyPassword pwd (password_hash u) [] = (true, []) →
  - 2 ^ 31 <= uid < 2 ^ 31 → p_stop (ga_pool g) = false → (0 < p_idle (ga_pool g))%nat →
  CheckPwd weight mail pwd g [] = (Done (Some (Account (username u) uid (email u))), g, []).
Proof.
  intros Hfind Hv Hint Hstop Hidle. destruct g as [d s [[| n] f b]]; cbn [ga_db ga_status ga_pool p_stop p_idle] in *; [lia |]. subst b.
  unfold CheckPwd. erewrite G_bind_run by reflexivity. cbn [negb].
  assert (Hq : tx (query (find_user (mailed weight mail))) (with_pool (Pool n f false) (Gate d s (Pool (S n) f false))) [] =
    (Done (inr (Some (uid, u))), Gate d s (Pool n f false), [])) by (unfold tx, query, exec; cbn; by rewrite Hfind).
  erewrite G_bind_run by exact Hq. cbn [fst snd].
  erewrite G_bind_run by (unfold verify_password; rewrite Hv; reflexivity). by rewrite (s32_small uid).
Qed.

Lemma status_rpc_run (m : St GetChatServerRsp) g r s' :
  m (ga_status g) [] = (r, s', []) → status_rpc m g [] = (Done r, Gate (ga_db g) s' (ga_pool g), []).
Proof. intros E. unfold status_rpc. erewrite G_bind_run by reflexivity. unfold redis. by rewrite E. Qed.

Lemma login_run g uid u mail pwd uuid root :
  given root (§ "email") mail → given root (§ "passwd") pwd →
  find_user (mailed weight mail) (ga_db g) = Some (uid, u) → VerifyPassword pwd (password_hash u) [] = (true, []) →
  - 2 ^ 31 <= uid < 2 ^ 31 → p_stop (ga_pool g) = false → (0 < p_idle (ga_pool g))%nat →
  some_server (ga_status g) → 0 <= s_rr (ga_status g) < size_t →
  ∃ rt, user_login weight res_host res_port hash_order uuid root g [] =
      (Done rt, Gate (ga_db g) (with_token (ga_status g) uid uuid) (ga_pool g), []) ∧
    assoc (§ "error") rt = Some (jnum 0) ∧ assoc (§ "uid") rt = Some (jnum uid) ∧ assoc (§ "token") rt = Some (JString uuid).
Proof.
  intros Hmail Hpwd Hfind Hv Hint Hstop Hidle Hsome Hr.
  destruct (GetChatServer_token (ga_status g) uid uuid Hsome Hr) as [server Hrpc]. unfold user_login.
  rewrite (G_bind_run _ _ _ _ _ _ _ (text_at_run _ _ _ _ _ Hmail)), (G_bind_run _ _ _ _ _ _ _ (text_at_run _ _ _ _ _ Hpwd)).
  rewrite (G_bind_run _ _ _ _ _ _ _ (CheckPwd_run _ _ _ _ _ Hfind Hv Hint Hstop Hidle)). cbn [ac_uid].
  rewrite (G_bind_run _ _ _ _ _ _ _ (status_rpc_run _ _ _ _ Hrpc)). cbn [gr_error gr_token]. eexists. split; [reflexivity |]. done.
Qed.
End login.

(** ** Login at the ChatServer *)

Section chat.
Context `{JsonLib} (weight : bytes → bytes) (deadlock_retries : nat) (self_name : bytes) (max_image max_file : bytes).

Lemma pending_rows_short d uid : (length (pending_rows d uid 0) < 100 * apply_fuel d)%nat.
Proof.
  unfold apply_fuel. assert (H1 : (length (pending_rows d uid 0) <= size (friend_requests d))%nat); [| lia].
  unfold pending_rows, rows_where. rewrite order_by_perm. rewrite <- length_map_to_list. apply length_filter.
Qed.

Lemma login_data_run w uid u :
  friends_ok weight (g_db w) → users (g_db w) !! uid = Some u →
  ∃ rt, login_data uid (ReadUser uid u) w [] = (Some (rt, true), w, []) ∧ assoc (§ "error") rt = Some (jcode ERR_SUCCESS).
Proof.
  intros Hf Hu. destruct w as [d rd ss cu out]. cbn [g_db] in *. unfold login_data.
  assert (Hseq : GetLastEventSeq uid d [] = ((true, last_event_seq u), d, [])).
  { unfold GetLastEventSeq, with_connection, catch, mbind, Tx_bind, query, exec. cbn. by rewrite Hu. }
  unfold mbind at 1, H_bind at 1, hdao at 1. cbn [g_db]. rewrite Hseq. cbn [negb g_redis g_sessions g_uid g_out].
  assert (Happ : ∃ l, collect_applies uid (World d rd ss cu out) [] = (Some (Some (true, l)), World d rd ss cu out, [])).
  { unfold collect_applies, hdao, GetFriendApplyInfo. cbn [g_db g_redis g_sessions g_uid g_out].
    rewrite (apply_loop_spec weight _ _ _ _ _ Hf) by apply pending_rows_short. by eexists. }
  destruct Happ as [l Happ]. unfold mbind at 1, H_bind at 1. rewrite Happ.
  assert (Hfr : ∃ l, hdao (GetFriendList uid) (World d rd ss cu out) [] = (Some (true, l), World d rd ss cu out, [])).
  { unfold hdao, GetFriendList, with_connection, catch, mbind, Tx_bind, query, exec. cbn. by eexists. }
  destruct Hfr as [fl Hfr]. unfold mbind at 1, H_bind at 1. rewrite Hfr. cbn [negb].
  eexists. split; [reflexivity |]. reflexivity.
Qed.

Lemma login_bind_run w uid self_id rt : ∃ out rd,
  login_bind self_name uid self_id rt w [] = (Some rt, World (g_db w) rd (<[uid := self_id]> (g_sessions w)) uid out, []).
Proof.
  destruct w as [d rd ss cu out]. unfold login_bind, mbind, H_bind, attempt. cbn [tape_next io_ok negb].
  assert (Hk : ∃ out', kick_old self_name uid self_id (World d rd ss cu out) [] = (Some tt, World d rd ss cu out', [])).
  { unfold kick_old, mbind, H_bind, redis_get. cbn [tape_next io_ok g_redis].
    destruct (option_map c_str _) as [server |]; [| by eexists]. case_bool_decide; [| by eexists].
    unfold get_session. cbn [g_sessions]. destruct (ss !! uid); [| by eexists]. case_bool_decide; by eexists. }
  destruct Hk as [out' ->]. cbn. by eexists _, _.
Qed.

Lemma chat_login_run w uid u token self_id root :
  parse_login (Some root) = Some (uid, token) → users (g_db w) !! uid = Some u → friends_ok weight (g_db w) →
  option_map c_str (g_redis w !! c_str (USERTOKENPREFIX ++ ll_string uid)) = Some token →
  g_redis w !! c_str (USER_BASE_INFO ++ ll_string uid) = None →
  ∃ rt w', LoginHandler self_name self_id (Some root) w [] = (Some tt, w', []) ∧
    g_uid w' = uid ∧ g_sessions w' !! uid = Some self_id ∧
    last (g_out w') = Some (Sent (MsgId_code MSG_CHAT_LOGIN_RSP) (JObject rt)) ∧ assoc (§ "error") rt = Some (jcode ERR_SUCCESS).
Proof.
  intros Hp Hu Hf Htok Hbase. destruct w as [d rd ss cu out]. cbn [g_db g_redis] in *.
  unfold LoginHandler, deferred. rewrite Hp. unfold mbind at 1, H_bind at 1. unfold mbind at 1, H_bind at 1.
  unfold redis_get at 1. cbn [tape_next io_ok g_redis]. rewrite Htok, bool_decide_eq_true_2 by done. cbn [negb].
  assert (Hinfo : ∃ rd1, GetBaseInfo (USER_BASE_INFO ++ ll_string uid) uid (World d rd ss cu out) [] =
    (Some (Some (ReadUser uid u)), World d rd1 ss cu out, [])).
  { unfold GetBaseInfo, mbind, H_bind, redis_get. cbn [tape_next io_ok g_redis]. rewrite Hbase. cbn [option_map].
    unfold hdao, GetUser, with_connection, catch, query, exec, user_of. cbn. rewrite Hu. by eexists. }
  destruct Hinfo as [rd1 Hinfo]. unfold mbind at 1, H_bind at 1. rewrite Hinfo.
  destruct (login_data_run (World d rd1 ss cu out) uid u Hf Hu) as (rt & Hdata & Herr).
  unfold mbind at 1, H_bind at 1. rewrite Hdata.
  destruct (login_bind_run (World d rd1 ss cu out) uid self_id rt) as (out2 & rd2 & Hbind). rewrite Hbind.
  cbn [emit g_db g_redis g_sessions g_uid g_out]. eexists rt, _. split; [reflexivity |]. cbn.
  split; [done |]. split; [apply lookup_insert_eq |]. by rewrite last_snoc.
Qed.
End chat.

(** ** From the registration to the session *)

Section way.
Context `{JsonLib, Pbkdf2Lib} (weight : bytes → bytes) (verify_rpc : bytes → Z) (res_host res_port : bytes).
Context (hash_order : gmap bytes bytes → list (bytes * bytes)).
Context (deadlock_retries : nat) (self_name max_image max_file : bytes).
Hypothesis order_ok : ∀ m, hash_order m ≡ₚ map_to_list m.

#[local] Abbreviation gate_serve := (serve weight verify_rpc res_host res_port hash_order).
#[local] Abbreviation step := (servers_step weight verify_rpc res_host res_port hash_order).
#[local] Abbreviation dispatch := (DispatchClientMessage weight deadlock_retries self_name max_image max_file).

Lemma keys_differ a b : c_str (USER_BASE_INFO ++ a) ≠ c_str (USERTOKENPREFIX ++ b).
Proof. by intros [=]. Qed.

(** The row of a registration, as long as nobody resets its password. *)
Lemma registered_row g0 body0 root0 random t0 rt0 g1 t1 name mail pwd uid d2 :
  chat_ok weight (ga_db g0) → users_ok weight (ga_db g0) → kSaltBytes <= zlen random →
  json_parse body0 = Some root0 → given root0 (§ "user") name → given root0 (§ "email") mail → given root0 (§ "passwd") pwd →
  gate_serve UserRegister random body0 g0 t0 = (Done rt0, g1, t1) →
  assoc (§ "error") rt0 = Some (jnum 0) → assoc (§ "uid") rt0 = Some (jnum uid) →
  reachable (λ d, d = ga_db g1) (λ d l d', spares weight name l ∧ step d l d') d2 →
  uid = next_id (ga_db g0) ∧ chat_ok weight d2 ∧ users_ok weight d2 ∧
  ∃ v, users d2 !! uid = Some v ∧ email v = mail ∧ VerifyPassword pwd (password_hash v) [] = (true, []).
Proof.
  intros Hok Hd He Hroot Hname Hmail Hpwd Hrun Herr Huid Hreach.
  assert (Hstep : step (ga_db g0) (GateRequest UserRegister random body0) (ga_db g1)).
  { exists (ga_status g0), (ga_pool g0), t0. eexists _, _, _. split; [| done]. destruct g0. exact Hrun. }
  destruct (servers_step_ok _ _ _ _ _ _ _ _ Hstep Hok Hd) as [Hok1 Hd1].
  unfold serve in Hrun. rewrite Hroot in Hrun.
  destruct (register_success _ _ _ _ _ _ _ _ Hd Hrun Herr) as (name' & mail' & pwd' & icon & hashed & Hn & Hm & Hp & Hh & Hu & E).
  unfold given in *. simplify_eq. split; [done |].
  set (u := UserRow name mail hashed (Profile name [] 0 icon) 0) in *.
  assert (Hrow : users (ga_db g1) !! next_id (ga_db g0) = Some u) by (rewrite E; cbn; apply lookup_insert_eq).
  destruct (reachable_login weight verify_rpc res_host res_port hash_order (ga_db g1) d2 _ u Hok1 Hd1 Hrow Hreach)
    as (Hok2 & Hd2 & v & Hv & F1 & F2 & F3).
  split_and!; [done.. |]. exists v. split; [done |]. split; [done |]. rewrite F3. by eapply verify_hash.
Qed.

End way.

(** ** A concrete run *)

(** A parser that knows the bodies of three requests; the rest are
    registrations of ChatServers. *)
Definition way_json : JsonLib := {|
  json_parse b :=
    if decide (b = § "register") then Some (JObject account_body)
    else if decide (b = § "login") then Some (JObject account_body)
    else if decide (b = § "hello") then Some (JObject [(§ "uid", JInteger 1); (§ "token", JString § "tok")])
    else Some (JObject (registration_fields b));
  json_dump _ := [];
|}.

Definition way_serve (r : route) (random body : bytes) (g : gate) : outcome fields * gate * tape :=
  @serve way_json toy_pbkdf2 demo_weight (λ _, 0) [] [] map_to_list r random body g [].
Definition way_registered : outcome fields * gate * tape := way_serve UserRegister demo_random (§ "register") demo_fresh.
Definition way_status : status := StatusState {[ChatServerLeaseKey § "a" := § "1"]} {[§ "a" := § "a"]} 0.
Definition way_later : gate := Gate (ga_db way_registered.1.2) way_status (Pool 1 0 false).

Lemma way_server : @some_server way_json way_status.
Proof.
  exists (Server (§ "a") (§ "h") (§ "80")), 1. exists (§ "a"), (§ "1"). split_and!; vm_compute; reflexivity.
Qed.

Definition way_logged_in : outcome fields * gate * tape := way_serve UserLogin (§ "tok") (§ "login") way_later.

