(* ===== verification/GatePool.v ===== *)
(** * Who may change an account, and the connections of the gate

    What [GateSafety.serve_effect] means for a single account, and for the
    pool of database connections: every request gives its connection back,
    except a password reset for a name nobody has. *)

From S2P Require Import Prelude ProtocolIds JsonFields Database ResourceDb TxLogic ChatDb ChatDbMessages ChatFriends SystemDb ChatSession ChatLogic PasswordHash StatusService GateAccounts GateSafety GateSystem.

#[local] Set Default Proof Using "Type*".

Section accounts.
Context `{JsonLib, Pbkdf2Lib} (weight : bytes → bytes) (verify_rpc : bytes → Z) (res_host res_port : bytes).
Context (hash_order : gmap bytes bytes → list (bytes * bytes)).

#[local] Abbreviation gate_serve := (serve weight verify_rpc res_host res_port hash_order).

(** ** Changes of one account *)

(** The request proves that its sender reads the mail of an address, and
    [hashed] is made of the password in it. *)
Definition proven (root : json) (random : bytes) (s : status) (mail hashed : bytes) : Prop :=
  given root (§ "email") mail ∧ holds_code root s mail ∧ ∃ pwd, given root (§ "passwd") pwd ∧ hash_of pwd random hashed.

Lemma account_effect_old random root s d r d' i u :
  account_effect weight random root s d r d' → users_ok weight d → users d !! i = Some u →
  ∃ u', users d' !! i = Some u' ∧ same_account u u' ∧
    (password_hash u' = password_hash u ∨ r = ResetPwd ∧ proven root random s (email u) (password_hash u')).
Proof.
  intros Heff Hd Hu.
  destruct Heff as [r d' [_ ->] | name mail pwd icon hashed d' _ _ _ _ _ _ _ _ -> | j v name pwd hashed d' Hn Hm Hp Hc Hh Hv Hw ->].
  - exists u. split_and!; [done.. | by left].
  - exists u. cbn. rewrite lookup_insert_ne; [split_and!; [done.. | by left] |].
    intros <-. by rewrite (uo_fresh _ _ Hd) in Hu by lia.
  - rewrite with_password_lookup, Hu. cbn. eexists. split; [reflexivity |]. destruct (named weight name u) eqn:En; [| by split; [| left]].
    apply bool_decide_eq_true_1 in En. split; [done |]. right. split; [done |].
    assert (i = j) as -> by (eapply (uo_name _ _ Hd); [done.. | congruence]). simplify_eq. by split_and!; [.. | exists pwd].
Qed.

Lemma account_effect_new random root s d r d' i u' :
  account_effect weight random root s d r d' → users d !! i = None → users d' !! i = Some u' →
  r = UserRegister ∧ given root (§ "user") (username u') ∧ proven root random s (email u') (password_hash u').
Proof.
  intros Heff Hu Hu'.
  destruct Heff as [r d' [_ ->] | name mail pwd icon hashed d' Hn Hm Hp _ Hc Hh _ _ -> | j v name pwd hashed d' _ _ _ _ _ _ _ ->].
  - cbn in Hu'. congruence.
  - cbn in Hu'. apply lookup_insert_Some in Hu' as [[_ <-] | [_ Hu']]; [| congruence].
    split; [done |]. split; [done |]. by split_and!; [.. | exists pwd].
  - rewrite with_password_lookup, Hu in Hu'. done.
Qed.

Lemma only_users_eq d d' : only_users d d' → d' = set_next (set_users d (users d')) (next_id d').
Proof. apply ou_rest. Qed.

(** C7: only who reads the mail of an address changes its account. For every
    request to the gate and every pattern of failures: the other tables stay;
    an account that was there is still there with its name, address and
    profile, and when its password changed, the request was a reset that
    carried the account's address and the verification code Redis holds for
    it, and the new hash is made of the password it carried; and an account
    that was not there before is the registration of the name and address in
    the request, with the code of this address and the hash of its
    password. *)
Theorem only_code_holders_change_accounts r random body g t o g' t' :
  users_ok weight (ga_db g) → gate_serve r random body g t = (o, g', t') →
  ga_db g' = set_next (set_users (ga_db g) (users (ga_db g'))) (next_id (ga_db g')) ∧
  (∀ i u, users (ga_db g) !! i = Some u → ∃ u', users (ga_db g') !! i = Some u' ∧ same_account u u' ∧
     (password_hash u' = password_hash u ∨
      r = ResetPwd ∧ ∃ root, json_parse body = Some root ∧ proven root random (ga_status g) (email u) (password_hash u'))) ∧
  (∀ i u', users (ga_db g) !! i = None → users (ga_db g') !! i = Some u' →
     r = UserRegister ∧ ∃ root, json_parse body = Some root ∧ given root (§ "user") (username u') ∧
       proven root random (ga_status g) (email u') (password_hash u')).
Proof.
  intros Hd Hrun. destruct (json_parse body) as [root |] eqn:Hroot; cycle 1.
  { unfold serve in Hrun. rewrite Hroot in Hrun. injection Hrun as _ <- _. split_and!; [by destruct (ga_db g) | |].
    - intros i u Hu. exists u. split_and!; [done.. | by left].
    - intros i u' Hu Hu'. congruence. }
  pose proof (serve_effect weight verify_rpc res_host res_port hash_order r random body root g Hd Hroot t) as Hs.
  rewrite Hrun in Hs. destruct Hs as [Heff _]. split; [| split].
  - destruct Heff as [r d' Hs | name mail pwd icon hashed d' _ _ _ _ _ _ _ _ -> | j v name pwd hashed d' _ _ _ _ _ _ _ ->];
      [by apply ou_rest, only_users_same_rows | done | by apply ou_rest, only_users_password].
  - intros i u Hu. destruct (account_effect_old _ _ _ _ _ _ _ _ Heff Hd Hu) as (u' & Hu' & Hsame & [E | [Hr Hp]]);
      exists u'; (split_and!; [done.. |]); [by left | right]. split; [done |]. by exists root.
  - intros i u' Hu Hu'. destruct (account_effect_new _ _ _ _ _ _ _ _ Heff Hu Hu') as (Hr & Hn & Hp). split; [done |]. by exists root.
Qed.

(** ** The pool *)

(** A reset for a name that is not in the table. *)
Definition stray_reset (g : gate) (r : route) (body : bytes) : Prop :=
  r = ResetPwd ∧ ∃ root name, json_parse body = Some root ∧ given root (§ "user") name ∧ find_user (named weight name) (ga_db g) = None.

Lemma serve_lent r random body g t o g' t' :
  users_ok weight (ga_db g) → gate_serve r random body g t = (o, g', t') → ¬ stray_reset g r body → lent 0 g g'.
Proof.
  intros Hd Hrun Hr. destruct (json_parse body) as [root |] eqn:Hroot.
  - pose proof (serve_effect weight verify_rpc res_host res_port hash_order r random body root g Hd Hroot t) as Hs.
    rewrite Hrun in Hs. destruct Hs as [_ [Hl | (_ & Er & _ & name & Hn & Hf)]]; [done |].
    exfalso. apply Hr. split; [done |]. by exists root, name.
  - unfold serve in Hrun. rewrite Hroot in Hrun. injection Hrun as _ <- _. apply lent_refl.
Qed.

Lemma serve_users_ok r random body g t o g' t' :
  users_ok weight (ga_db g) → gate_serve r random body g t = (o, g', t') → users_ok weight (ga_db g').
Proof.
  intros Hd Hrun. destruct (json_parse body) as [root |] eqn:Hroot.
  - pose proof (serve_effect weight verify_rpc res_host res_port hash_order r random body root g Hd Hroot t) as Hs.
    rewrite Hrun in Hs. destruct Hs as [Heff _]. by eapply account_effect_users_ok.
  - unfold serve in Hrun. rewrite Hroot in Hrun. by injection Hrun as _ <- _.
Qed.

Definition same_pool_size (g g' : gate) : Prop := same_data g g' ∧ p_stop (ga_pool g') = p_stop (ga_pool g) ∧ conns g' = conns g.

Lemma same_pool_size_trans g1 g2 g3 : same_pool_size g1 g2 → same_pool_size g2 g3 → same_pool_size g1 g3.
Proof. intros ([? ?] & ? & ?) ([? ?] & ? & ?). split_and!; [split |..]; congruence. Qed.

Lemma reconnect_run g t b g' t' :
  p_stop (ga_pool g) = false → reconnect g t = (Done b, g', t') →
  g' = with_pool (Pool ((if b then 1 else 0) + p_idle (ga_pool g)) (p_failed (ga_pool g)) false) g.
Proof.
  intros Hs. unfold reconnect. rewrite Hs. destruct (tape_next t) as [[| n] t1]; intros [= <- <- _]; [done |].
  destruct g as [? ? [? ? s]]. cbn in *. by subst s.
Qed.

Lemma check_idle_wp n g : (n ≤ p_idle (ga_pool g))%nat →
  g_wp (check_idle n) (λ o g', o = Done tt ∧ same_pool_size g g') g.
Proof.
  revert g. induction n as [| n IH]; intros g Hn; cbn [check_idle]; [by apply g_wp_ret |].
  apply g_wp_bind, g_wp_io. intros [| k]; cbn [io_ok]; apply g_wp_bind.
  - apply g_wp_ret. apply IH. lia.
  - intros t. unfold adjust. eapply g_wp_mono, IH; [| cbn; lia].
    intros o g' [-> Hs]. split; [done |]. eapply same_pool_size_trans, Hs. split; [done |]. split; [done |].
    unfold conns. cbn. lia.
Qed.

Lemma replace_failed_wp n g : (n ≤ p_failed (ga_pool g))%nat → p_stop (ga_pool g) = false →
  g_wp (replace_failed n) (λ o g', o = Done tt ∧ same_pool_size g g') g.
Proof.
  revert g. induction n as [| n IH]; intros g Hn Hs; cbn [replace_failed]; [by apply g_wp_ret |].
  apply g_wp_bind. intros t. destruct (reconnect g t) as [[o g1] t1] eqn:E.
  assert (exists b, o = Done b) as [b ->].
  { unfold reconnect in E. rewrite Hs in E. destruct (tape_next t) as [[| ?] ?]; injection E as <- _ _; by eexists. }
  apply (reconnect_run _ _ _ _ _ Hs) in E as ->. destruct b.
  - apply g_wp_bind. intros t2. unfold adjust. eapply g_wp_mono, IH; [| cbn; lia | done].
    intros o g' [-> Hx]. split; [done |]. eapply same_pool_size_trans, Hx. split; [done |]. split; [done |].
    unfold conns. cbn. lia.
  - apply g_wp_ret. split; [done |]. split; [done |]. split; [done |]. unfold conns. cbn. lia.
Qed.

(** A stopped pool is not checked any more: the thread has ended. *)
Lemma checkConnectionPro_wp g : p_stop (ga_pool g) = false →
  g_wp checkConnectionPro (λ o g', o = Done tt ∧ same_pool_size g g') g.
Proof.
  intros Hs. unfold checkConnectionPro. apply g_wp_bind. intros t. unfold the_pool. apply g_wp_bind.
  eapply g_wp_mono, check_idle_wp; [| done]. intros o g1 [-> Hx]. apply g_wp_bind. intros t1. unfold the_pool.
  eapply g_wp_mono, replace_failed_wp; [| done | destruct Hx as (_ & E & _); congruence].
  intros o g2 [-> Hy]. split; [done |]. by eapply same_pool_size_trans.
Qed.

(** One step of the gate: a request, a round of the health check, or the
    other servers at work. *)
Inductive pool_label := PoolRequest (r : route) (random body : bytes) | PoolCheck | Elsewhere.

Inductive pool_step (g : gate) : pool_label → gate → Prop :=
  | pool_request r random body t o g' t' :
      gate_serve r random body g t = (o, g', t') → ¬ stray_reset g r body → pool_step g (PoolRequest r random body) g'
  | pool_check t o g' t' : checkConnectionPro g t = (o, g', t') → pool_step g PoolCheck g'
  | pool_elsewhere d s : users_ok weight d → pool_step g Elsewhere (Gate d s (ga_pool g)).

Lemma pool_step_conns n g l g' :
  users_ok weight (ga_db g) ∧ p_stop (ga_pool g) = false ∧ conns g = n → pool_step g l g' →
  users_ok weight (ga_db g') ∧ p_stop (ga_pool g') = false ∧ conns g' = n.
Proof.
  intros (Hd & Hs & Hc) Hstep. destruct Hstep as [r random body t o g' t' Hrun Hr | t o g' t' Hrun | d s Hd'].
  - destruct (serve_lent _ _ _ _ _ _ _ _ Hd Hrun Hr) as [E L]. specialize (L Hs).
    split_and!; [by eapply serve_users_ok | congruence | lia].
  - pose proof (checkConnectionPro_wp g Hs t) as Hw. rewrite Hrun in Hw. destruct Hw as (_ & [E _] & E2 & E3).
    split_and!; [by rewrite E | congruence..].
  - done.
Qed.

Lemma checks_run g : p_stop (ga_pool g) = false →
  checkConnectionPro g [] = (Done tt, with_pool (Pool (conns g) 0 false) g, []).
Proof.
  intros Hs. destruct g as [d s [n f b]]. cbn in Hs. subst b. unfold checkConnectionPro.
  assert (Hi : ∀ k, check_idle k (Gate d s (Pool n f false)) [] = (Done tt, Gate d s (Pool n f false), [])).
  { intros k. induction k as [| k IH]; [done |]. cbn [check_idle]. unfold mbind at 1, G_bind at 1. cbn. exact IH. }
  assert (Hf : ∀ k n, replace_failed k (Gate d s (Pool n k false)) [] = (Done tt, Gate d s (Pool (n + k) 0 false), [])).
  { intros k. induction k as [| k IH]; intros m; [by rewrite Nat.add_0_r |].
    transitivity (replace_failed k (Gate d s (Pool (S m) k false)) []); [reflexivity |]. rewrite IH. by rewrite Nat.add_succ_r. }
  unfold mbind at 1, G_bind at 1. cbn. unfold mbind at 1, G_bind at 1. rewrite Hi. unfold mbind at 1, G_bind at 1. cbn. apply Hf.
Qed.

(** Connections come back. Let the gate serve requests and check its
    connections while the other servers work, with any failures, except that
    nobody resets the password of a name that does not exist. Then the idle
    connections and those waiting for their replacement are together always
    as many as at the start, and one round of the health check in which
    nothing fails makes them all idle again. *)
Theorem connections_return g0 g :
  users_ok weight (ga_db g0) → p_stop (ga_pool g0) = false → reachable (λ g, g = g0) pool_step g →
  conns g = conns g0 ∧
  checkConnectionPro g [] = (Done tt, Gate (ga_db g) (ga_status g) (Pool (conns g0) 0 false), []).
Proof.
  intros Hd Hs Hr.
  assert (Hi : users_ok weight (ga_db g) ∧ p_stop (ga_pool g) = false ∧ conns g = conns g0).
  { revert g Hr. apply reachable_invariant; [by intros ? -> |]. intros g l g'. apply pool_step_conns. }
  destruct Hi as (_ & Hs' & E). split; [done |]. rewrite (checks_run g Hs'), E. done.
Qed.

(** ** The one that does not come back *)

(** Requests one after the other. *)
Fixpoint serve_each (r : route) (random body : bytes) (n : nat) (g : gate) (t : tape) : list (outcome fields) * gate * tape :=
  match n with
  | O => ([], g, t)
  | S n => let '(o, g, t) := gate_serve r random body g t in
           let '(l, g, t) := serve_each r random body n g t in (o :: l, g, t)
  end.

Lemma check_code_run root mail stored go g :
  s_redis (ga_status g) !! c_str (CODEPREFIX ++ mail) = Some stored → given root (§ "varifycode") (c_str stored) →
  check_code root mail go g [] = go g [].
Proof.
  intros Hc Hg. unfold check_code.
  assert (Hr : redis (Get (CODEPREFIX ++ mail)) g [] = (Done (Some (c_str stored)), g, [])).
  { unfold redis, Get. cbn [tape_next io_ok]. rewrite Hc. by destruct g. }
  rewrite (G_bind_run _ _ _ _ _ _ _ Hr), (G_bind_run _ _ _ _ _ _ _ (text_at_run _ _ _ _ _ Hg)).
  by rewrite bool_decide_eq_true_2.
Qed.

Lemma stray_reset_run g root random mail name pwd stored n f :
  given root (§ "email") mail → given root (§ "user") name → given root (§ "passwd") pwd →
  s_redis (ga_status g) !! c_str (CODEPREFIX ++ mail) = Some stored → given root (§ "varifycode") (c_str stored) →
  find_user (named weight name) (ga_db g) = None → ga_pool g = Pool (S n) f false →
  reset_pwd weight random root g [] = (Done (ecode ERR_EMAIL_NOT_MATCH), with_pool (Pool n f false) g, []).
Proof.
  intros Hm Hn Hp Hc Hv Hf Hpool. unfold reset_pwd.
  rewrite (G_bind_run _ _ _ _ _ _ _ (text_at_run _ _ _ _ _ Hm)), (G_bind_run _ _ _ _ _ _ _ (text_at_run _ _ _ _ _ Hn)),
    (G_bind_run _ _ _ _ _ _ _ (text_at_run _ _ _ _ _ Hp)), (check_code_run _ _ _ _ _ Hc Hv).
  destruct g as [d s p]. cbn [ga_pool ga_db ga_status] in *. subst p.
  assert (He : CheckEmail weight name mail (Gate d s (Pool (S n) f false)) [] = (Done false, Gate d s (Pool n f false), [])).
  { unfold CheckEmail. erewrite G_bind_run by reflexivity. cbn [negb]. unfold with_pool. cbn [ga_db ga_status].
    assert (Hq : tx (query (find_user (named weight name))) (Gate d s (Pool n f false)) [] = (Done (inr None), Gate d s (Pool n f false), []))
      by (unfold tx, query, exec; cbn; by rewrite Hf).
    by rewrite (G_bind_run _ _ _ _ _ _ _ Hq). }
  by rewrite (G_bind_run _ _ _ _ _ _ _ He).
Qed.

Definition without_connections (g : gate) : gate := with_pool (Pool 0 0 false) g.

Lemma login_blocks g uuid root mail pwd t :
  given root (§ "email") mail → given root (§ "passwd") pwd →
  user_login weight res_host res_port hash_order uuid root (without_connections g) t = (Blocked, without_connections g, t).
Proof.
  intros Hm Hp. unfold user_login.
  rewrite (G_bind_run _ _ _ _ _ _ _ (text_at_run _ _ _ _ _ Hm)), (G_bind_run _ _ _ _ _ _ _ (text_at_run _ _ _ _ _ Hp)).
  apply G_bind_blocked. unfold CheckPwd. by apply G_bind_blocked.
Qed.

(** C35: resets for a name nobody has stop the gate. Somebody who once got a
    verification code for an address of theirs sends as many resets with it as
    there are database connections, for a name that is not in the table. Each
    is answered with [ERR_EMAIL_NOT_MATCH] and keeps its connection; after
    the last one no connection is left, the health check does not bring any
    back, whatever happens, and every login waits for one. *)
Theorem unknown_name_resets_block g root body random mail name pwd stored n :
  json_parse body = Some root → given root (§ "email") mail → given root (§ "user") name → given root (§ "passwd") pwd →
  s_redis (ga_status g) !! c_str (CODEPREFIX ++ mail) = Some stored → given root (§ "varifycode") (c_str stored) →
  find_user (named weight name) (ga_db g) = None → ga_pool g = Pool n 0 false →
  serve_each ResetPwd random body n g [] = (replicate n (Done (ecode ERR_EMAIL_NOT_MATCH)), without_connections g, []) ∧
  (∀ t, checkConnectionPro (without_connections g) t = (Done tt, without_connections g, t)) ∧
  ∀ uuid body' root' mail' pwd' t,
    json_parse body' = Some root' → given root' (§ "email") mail' → given root' (§ "passwd") pwd' →
    gate_serve UserLogin uuid body' (without_connections g) t = (Blocked, without_connections g, t).
Proof.
  intros Hroot Hm Hn Hp Hc Hv Hf Hpool. split; [| split; [done |]].
  - revert g Hc Hf Hpool. induction n as [| n IH]; intros g Hc Hf Hpool; cbn [serve_each replicate].
    + unfold without_connections, with_pool. rewrite <- Hpool. by destruct g.
    + unfold serve at 1. rewrite Hroot, (stray_reset_run _ _ _ _ _ _ _ _ _ Hm Hn Hp Hc Hv Hf Hpool).
      by rewrite (IH (with_pool (Pool n 0 false) g)).
  - intros uuid body' root' mail' pwd' t Hroot' Hm' Hp'. unfold serve. rewrite Hroot'. by eapply login_blocks.
Qed.
End accounts.

(** ** Concrete runs *)

Lemma surjective_pairing3 {A B C} (x : A * B * C) : x = (x.1.1, x.1.2, x.2).
Proof. by destruct x as [[? ?] ?]. Qed.

Definition demo_registered : outcome fields * gate * tape := demo_serve UserRegister demo_fresh.

Lemma only_code_holders_change_accounts_witness :
  ∃ u', users (ga_db demo_registered.1.2) !! 1 = Some u' ∧ email u' = § "m@x" ∧
  @proven toy_pbkdf2 (JObject account_body) demo_random demo_codes (§ "m@x") (password_hash u').
Proof.
  destruct (users (ga_db demo_registered.1.2) !! 1) as [u' |] eqn:Hu; [| by vm_compute in Hu].
  exists u'. split; [done |]. assert (He : email u' = § "m@x") by (vm_compute in Hu; injection Hu as <-; reflexivity).
  split; [done |]. rewrite <- He.
  destruct (proj2 (proj2 (@only_code_holders_change_accounts account_json toy_pbkdf2 demo_weight (λ _, 0) [] [] map_to_list
    UserRegister demo_random (§ "{}") demo_fresh [] demo_registered.1.1 demo_registered.1.2 demo_registered.2
    (no_accounts_ok 1) (surjective_pairing3 _))) 1 u' ltac:(apply lookup_empty) Hu)
    as (_ & root & Hroot & _ & Hp).
  by injection Hroot as <-.
Defined.

(** One connection of five is found dead and not replaced. *)
Definition demo_checked : gate := (checkConnectionPro demo_fresh [IoFail 0; IoOk; IoOk; IoOk; IoOk; IoFail 0]).1.2.

Lemma connections_return_witness :
  ga_pool demo_checked = Pool 4 1 false ∧
  (checkConnectionPro demo_checked []).1.2 = demo_fresh.
Proof.
  split; [vm_compute; reflexivity |].
  assert (Hr : reachable (λ g, g = demo_fresh)
    (@pool_step account_json toy_pbkdf2 demo_weight (λ _, 0) [] [] map_to_list) demo_checked).
  { eapply (reach_step _ _ demo_fresh PoolCheck); [by apply reach_init |].
    eapply (pool_check _ _ _ _ _ _ [IoFail 0; IoOk; IoOk; IoOk; IoOk; IoFail 0]). apply surjective_pairing3. }
  rewrite (proj2 (@connections_return account_json toy_pbkdf2 demo_weight (λ _, 0) [] [] map_to_list demo_fresh demo_checked
    (no_accounts_ok 1) eq_refl Hr)).
  vm_compute. reflexivity.
Defined.

Lemma unknown_name_resets_block_witness :
  @serve_each account_json toy_pbkdf2 demo_weight (λ _, 0) [] [] map_to_list ResetPwd [] (§ "{}") 5 demo_fresh [] =
    (replicate 5 (Done (ecode ERR_EMAIL_NOT_MATCH)), without_connections demo_fresh, []).
Proof.
  apply (@unknown_name_resets_block account_json toy_pbkdf2 demo_weight (λ _, 0) [] [] map_to_list demo_fresh
    (JObject account_body) (§ "{}") [] (§ "m@x") (§ "mia") (§ "secret") (§ "1234") 5); vm_compute; reflexivity.
Defined.
