(* ===== verification/GateHttp.v ===== *)
(** * URLs of the gate (GateServer/src/HttpConnection.cpp)

    The percent encoding, the parameters of a GET request, the lookup of the
    handler, and the test handler that answers with the parameters. A failing
    [assert] ends the process: the build does not define [NDEBUG]. *)

From stdpp Require Import gmap.
From S2P Require Import Prelude JsonFields Sha256 Database ResourceDb ChatSession ChatLogic GateAccounts.

(** ** Percent encoding *)

Definition ToHex (x : Z) : Z := if 9 <? x then x + 55 else x + 48.

(** [None] is the failing [assert]. *)
Definition FromHex (x : Z) : option Z :=
  if (65 <=? x) && (x <=? 90) then Some (x - 65 + 10)
  else if (97 <=? x) && (x <=? 122) then Some (x - 97 + 10)
  else if (48 <=? x) && (x <=? 57) then Some (x - 48)
  else None.

Definition isalnum (c : Byte.byte) : bool :=
  isdigit c || ((65 <=? bval c) && (bval c <=? 90)) || ((97 <=? bval c) && (bval c <=? 122)).

(** What is appended for one character. *)
Definition encode_char (c : Byte.byte) : bytes :=
  if isalnum c || (bval c =? 45) || (bval c =? 95) || (bval c =? 46) || (bval c =? 126) then [c]
  else if bval c =? 32 then [x2b]
  else [x25; mkbyte (ToHex (Z.shiftr (bval c) 4)); mkbyte (ToHex (Z.land (bval c) 15))].

Fixpoint UrlEncode (str : bytes) : bytes :=
  match str with
  | [] => []
  | c :: str => encode_char c ++ UrlEncode str
  end.

Fixpoint UrlDecode (str : bytes) : option bytes :=
  match str with
  | [] => Some []
  | c :: str =>
      if bval c =? 43 then s ← UrlDecode str; Some (x20 :: s)
      else if bval c =? 37 then
        match str with
        | h :: l :: str =>
            high ← FromHex (bval h);
            low ← FromHex (bval l);
            s ← UrlDecode str;
            Some (mkbyte (high * 16 + low) :: s)
        | _ => None
        end
      else s ← UrlDecode str; Some (c :: s)
  end.

(** ** Parameters *)

(** [find(c)]: what is before the first [c] and what is behind it. *)
Fixpoint find_char (c : Byte.byte) (s : bytes) : option (bytes * bytes) :=
  match s with
  | [] => None
  | d :: s => if decide (d = c) then Some ([], s) else '(a, b) ← find_char c s; Some (d :: a, b)
  end.

Definition params := gmap bytes bytes.

(** A pair without an equals sign is skipped. *)
Definition add_pair (item : bytes) (ps : params) : option params :=
  match find_char x3d item with
  | None => Some ps
  | Some (k, v) => key ← UrlDecode k; value ← UrlDecode v; Some (<[key := value]> ps)
  end.

(** The loop over the pairs. Every turn removes at least the ampersand, so
    the length of the query is enough fuel; without fuel it is empty. *)
Fixpoint add_pairs (fuel : nat) (query : bytes) (ps : params) : option params :=
  match fuel with
  | O => Some ps
  | S fuel =>
      match find_char x26 query with
      | Some (item, rest) => ps ← add_pair item ps; add_pairs fuel rest ps
      | None => if bool_decide (query = []) then Some ps else add_pair query ps
      end
  end.

(** [_get_url] and [_get_params]. *)
Definition PreParseGetParam (uri : bytes) : option (bytes * params) :=
  match find_char x3f uri with
  | None => Some (uri, ∅)
  | Some (url, query) => ps ← add_pairs (length query) query ∅; Some (url, ps)
  end.

(** ** Routing *)

Inductive verb := VGet | VPost | VOther.

(** The handler of [/get_test] and those of the POST routes. *)
Inductive handler := GetTest | PostRoute (r : route).

Definition find_handler (method : verb) (path : bytes) : option handler :=
  match method with
  | VGet => if bool_decide (path = § "/get_test") then Some GetTest else None
  | VPost => PostRoute <$> route_of path
  | VOther => None
  end.

(** [HandleReq] up to the handler: [None] is the end of the process. *)
Definition route_request (method : verb) (target : bytes) : option (option handler) :=
  match method with
  | VGet => '(url, _) ← PreParseGetParam target; Some (find_handler VGet url)
  | _ => Some (find_handler method target)
  end.

(** The body of the answer of [/get_test]; [l] are the parameters in the
    order of the hash table. *)
Fixpoint get_test_params (i : Z) (l : list (bytes * bytes)) : bytes :=
  match l with
  | [] => []
  | (k, v) :: l =>
      § "param" ++ ll_string i ++ § " key is " ++ k ++ § ",  value is " ++ v ++ [x0a] ++ get_test_params (i + 1) l
  end.

Definition get_test (l : list (bytes * bytes)) : bytes := § "receive get_test req " ++ [x0a] ++ get_test_params 1 l.

(** ** Encoding and decoding *)

Lemma FromHex_ToHex x : 0 <= x < 16 → FromHex (bval (mkbyte (ToHex x))) = Some x.
Proof.
  intros Hx. unfold ToHex. destruct (9 <? x) eqn:E; bool_to_prop; rewrite bval_mkbyte_small by lia; unfold FromHex.
  - rewrite (proj2 (Z.leb_le 65 _)), (proj2 (Z.leb_le _ 90)) by lia. cbn. f_equal. lia.
  - rewrite (proj2 (Z.leb_gt 65 _)), (proj2 (Z.leb_gt 97 _)), (proj2 (Z.leb_le 48 _)), (proj2 (Z.leb_le _ 57)) by lia.
    cbn. f_equal. lia.
Qed.

(** Characters an encoded text consists of. *)
Definition url_char (c : Byte.byte) : bool :=
  isalnum c || (bval c =? 45) || (bval c =? 95) || (bval c =? 46) || (bval c =? 126) || (bval c =? 43) || (bval c =? 37).

Lemma UrlDecode_plain c str : isalnum c || (bval c =? 45) || (bval c =? 95) || (bval c =? 46) || (bval c =? 126) = true →
  UrlDecode (c :: str) = s ← UrlDecode str; Some (c :: s).
Proof.
  intros Hc. assert (bval c ≠ 43 ∧ bval c ≠ 37) as [N1 N2].
  { unfold isalnum, isdigit in Hc. split; intros E; rewrite E in Hc; done. }
  cbn [UrlDecode]. by rewrite (proj2 (Z.eqb_neq _ _) N1), (proj2 (Z.eqb_neq _ _) N2).
Qed.

Lemma UrlDecode_encode_char c str : UrlDecode (encode_char c ++ str) = s ← UrlDecode str; Some (c :: s).
Proof.
  unfold encode_char. destruct (isalnum c || _ || _ || _ || _) eqn:Hc; [by apply UrlDecode_plain |].
  destruct (bval c =? 32) eqn:E.
  - apply Z.eqb_eq in E. assert (c = x20) as -> by by apply bval_inj. done.
  - destruct (nibbles c) as (H1 & H2 & E2). cbn [app UrlDecode].
    change (bval x25 =? 43) with false. change (bval x25 =? 37) with true. cbn iota.
    rewrite !FromHex_ToHex by done. cbn [mbind option_bind]. by rewrite <- E2, mkbyte_bval.
Qed.

Lemma UrlDecode_UrlEncode s : UrlDecode (UrlEncode s) = Some s.
Proof. induction s as [| c s IH]; [done |]. cbn [UrlEncode]. rewrite UrlDecode_encode_char, IH. done. Qed.

Lemma url_char_hex x : 0 <= x < 16 → url_char (mkbyte (ToHex x)) = true.
Proof.
  intros Hx. unfold ToHex, url_char, isalnum, isdigit. destruct (9 <? x) eqn:E; bool_to_prop; rewrite bval_mkbyte_small by lia.
  - by rewrite (proj2 (Z.leb_le 65 _)), (proj2 (Z.leb_le _ 90)), !orb_true_r by lia.
  - by rewrite (proj2 (Z.leb_le 48 _)), (proj2 (Z.leb_le _ 57)) by lia.
Qed.

Lemma UrlEncode_chars s : Forall (λ c, url_char c = true) (UrlEncode s).
Proof.
  induction s as [| c s IH]; [constructor |]. cbn [UrlEncode]. apply Forall_app_2; [| done]. unfold encode_char.
  destruct (isalnum c || _ || _ || _ || _) eqn:Hc.
  - apply Forall_singleton. unfold url_char. by rewrite Hc.
  - destruct (bval c =? 32); [by apply Forall_singleton |]. destruct (nibbles c) as (H1 & H2 & _).
    repeat apply Forall_cons_2; [done | by apply url_char_hex.. | constructor].
Qed.

(** ** Parsing what was built *)

Lemma find_char_app c s rest : c ∉ s → find_char c (s ++ c :: rest) = Some (s, rest).
Proof.
  induction s as [| d s IH]; cbn; [by rewrite decide_True |]. intros [Hd Hs]%not_elem_of_cons.
  rewrite decide_False by congruence. by rewrite IH.
Qed.

Lemma find_char_none c s : c ∉ s → find_char c s = None.
Proof.
  induction s as [| d s IH]; cbn; [done |]. intros [Hd Hs]%not_elem_of_cons.
  rewrite decide_False by congruence. by rewrite IH.
Qed.

Lemma not_in_encoded c s : url_char c = false → c ∉ UrlEncode s.
Proof. intros Hc Hin. pose proof (UrlEncode_chars s) as Hf. rewrite Forall_forall in Hf. specialize (Hf c Hin). congruence. Qed.

Definition encode_pair (kv : bytes * bytes) : bytes := UrlEncode kv.1 ++ x3d :: UrlEncode kv.2.

(** The query a client builds. *)
Fixpoint build_query (kvs : list (bytes * bytes)) : bytes :=
  match kvs with
  | [] => []
  | [kv] => encode_pair kv
  | kv :: kvs => encode_pair kv ++ x26 :: build_query kvs
  end.

Definition add_params (kvs : list (bytes * bytes)) (ps : params) : params := foldl (λ ps kv, <[kv.1 := kv.2]> ps) ps kvs.

Lemma add_pair_encoded kv ps : add_pair (encode_pair kv) ps = Some (<[kv.1 := kv.2]> ps).
Proof.
  unfold add_pair, encode_pair. rewrite find_char_app by by apply not_in_encoded.
  by rewrite !UrlDecode_UrlEncode.
Qed.

Lemma amp_not_in_pair kv : x26 ∉ encode_pair kv.
Proof. unfold encode_pair. rewrite elem_of_app, elem_of_cons. intros [H | [H | H]]; [| done |]; revert H; by apply not_in_encoded. Qed.

Lemma encode_pair_not_nil kv : encode_pair kv ≠ [].
Proof. unfold encode_pair. by destruct (UrlEncode kv.1). Qed.

Lemma add_pairs_built kvs fuel ps : (length (build_query kvs) ≤ fuel)%nat → add_pairs fuel (build_query kvs) ps = Some (add_params kvs ps).
Proof.
  revert fuel ps. induction kvs as [| kv kvs IH]; intros fuel ps Hf; [by destruct fuel |].
  destruct kvs as [| kv2 kvs].
  - cbn [build_query] in *. destruct fuel as [| fuel].
    { destruct (encode_pair kv) eqn:E; [by apply encode_pair_not_nil in E | cbn in Hf; lia]. }
    cbn [add_pairs]. rewrite find_char_none by apply amp_not_in_pair.
    rewrite bool_decide_eq_false_2 by apply encode_pair_not_nil. by rewrite add_pair_encoded.
  - change (build_query (kv :: kv2 :: kvs)) with (encode_pair kv ++ x26 :: build_query (kv2 :: kvs)) in *.
    rewrite length_app in Hf. destruct fuel as [| fuel]; [cbn in Hf; lia |]. cbn [add_pairs].
    rewrite find_char_app by apply amp_not_in_pair. rewrite add_pair_encoded. cbn [mbind option_bind].
    rewrite IH; [done |]. cbn [length] in Hf. lia.
Qed.

(** A query a client encodes comes back. For a path without a question
    mark and any list of keys and values, bytes of any kind included, the
    request target that joins them, percent encoded, is parsed to that path
    and to the map of these parameters, the last value of a key counting; and
    no request built this way fails an assertion. *)
Theorem PreParseGetParam_round_trip url kvs :
  x3f ∉ url → PreParseGetParam (url ++ x3f :: build_query kvs) = Some (url, add_params kvs ∅).
Proof.
  intros Hu. unfold PreParseGetParam. rewrite find_char_app by done. by rewrite add_pairs_built by lia.
Qed.

Lemma PreParseGetParam_round_trip_witness :
  PreParseGetParam (§ "/get_test" ++ x3f :: build_query [(§ "a b", § "100%"); (§ "k&", § "v=1")]) =
    Some (§ "/get_test", add_params [(§ "a b", § "100%"); (§ "k&", § "v=1")] ∅).
Proof.
  apply PreParseGetParam_round_trip. apply (bool_decide_unpack _). vm_compute. exact I.
Defined.

(** ** Escapes that end the process *)

(** A percent sign needs two letters or digits behind it. *)
Definition bad_escape (tail : bytes) : Prop :=
  match tail with
  | h :: l :: _ => isalnum h = false ∨ isalnum l = false
  | _ => True
  end.

Lemma FromHex_None c : isalnum c = false → FromHex (bval c) = None.
Proof.
  unfold isalnum, isdigit, FromHex. intros [[E1 E2]%orb_false_iff E3]%orb_false_iff. by rewrite E1, E2, E3.
Qed.

Lemma UrlDecode_bad tail : bad_escape tail → UrlDecode (x25 :: tail) = None.
Proof.
  intros Hb. cbn [UrlDecode]. change (bval x25 =? 43) with false. change (bval x25 =? 37) with true. cbn iota.
  destruct tail as [| h [| l tail]]; [done.. |]. destruct Hb as [Hh | Hl].
  - by rewrite (FromHex_None _ Hh).
  - destruct (FromHex (bval h)); [| done]. cbn. by rewrite (FromHex_None _ Hl).
Qed.

Lemma UrlDecode_app pre s p : UrlDecode pre = Some p → UrlDecode (pre ++ s) = q ← UrlDecode s; Some (p ++ q).
Proof.
  remember (length pre) as n eqn:En. revert pre p En. induction (lt_wf n) as [n _ IH]. intros pre p ->.
  destruct pre as [| c pre]; [intros [= <-]; cbn; by destruct (UrlDecode s) |].
  cbn [app UrlDecode]. destruct (bval c =? 43).
  { intros (q & Hq & [= <-])%bind_Some. rewrite (IH (length pre) ltac:(cbn; lia) pre q eq_refl Hq). by destruct (UrlDecode s). }
  destruct (bval c =? 37).
  - destruct pre as [| h [| l pre]]; [done.. |]. cbn [app].
    intros (high & -> & (low & -> & (q & Hq & [= <-])%bind_Some)%bind_Some)%bind_Some. cbn [mbind option_bind].
    rewrite (IH (length pre) ltac:(cbn; lia) pre q eq_refl Hq). by destruct (UrlDecode s).
  - intros (q & Hq & [= <-])%bind_Some. rewrite (IH (length pre) ltac:(cbn; lia) pre q eq_refl Hq). by destruct (UrlDecode s).
Qed.

(** A malformed escape ends the process. A GET request whose last
    parameter contains a percent sign that is not followed by two letters or
    digits fails the assertion in [UrlDecode] and ends the gate, for every
    path, known or not, and whatever precedes the escape. *)
Theorem malformed_escape_ends_process url kvs key pre p tail :
  x3f ∉ url → UrlDecode pre = Some p → x26 ∉ pre ++ x25 :: tail → bad_escape tail →
  route_request VGet (url ++ x3f :: (concat ((λ kv, encode_pair kv ++ [x26]) <$> kvs) ++ UrlEncode key ++ x3d :: pre ++ x25 :: tail)) = None.
Proof.
  intros Hu Hp Hamp Hbad. unfold route_request, PreParseGetParam. rewrite find_char_app by done.
  set (q := UrlEncode key ++ x3d :: pre ++ x25 :: tail).
  assert (Hq : ∀ ps, add_pair q ps = None).
  { intros ps. unfold add_pair, q. rewrite find_char_app by by apply not_in_encoded.
    by rewrite UrlDecode_UrlEncode, (UrlDecode_app _ _ _ Hp), (UrlDecode_bad _ Hbad). }
  assert (Hqa : x26 ∉ q).
  { unfold q. rewrite elem_of_app, elem_of_cons. intros [H | [H | H]]; [by apply not_in_encoded in H | done | done]. }
  assert (Hqn : q ≠ []) by (unfold q; by destruct (UrlEncode key)).
  clearbody q. assert (Hgen : ∀ fuel ps, (length (concat ((λ kv, encode_pair kv ++ [x26]) <$> kvs) ++ q) ≤ fuel)%nat →
    add_pairs fuel (concat ((λ kv, encode_pair kv ++ [x26]) <$> kvs) ++ q) ps = None).
  { clear - Hq Hqa Hqn. induction kvs as [| kv kvs IH]; intros fuel ps Hf.
    - cbn in *. destruct fuel as [| fuel]; [destruct q; [done | cbn in Hf; lia] |]. cbn [add_pairs].
      rewrite find_char_none by done. by rewrite bool_decide_eq_false_2.
    - cbn [fmap list_fmap concat] in *. rewrite <- !app_assoc in *. cbn [app] in *. rewrite length_app in Hf. cbn [length] in Hf.
      destruct fuel as [| fuel]; [lia |]. cbn [add_pairs].
      rewrite find_char_app by apply amp_not_in_pair. rewrite add_pair_encoded. cbn [mbind option_bind]. apply IH. lia. }
  by rewrite Hgen.
Qed.

Lemma malformed_escape_ends_process_witness :
  route_request VGet (§ "/" ++ x3f :: (encode_pair (§ "a", § "1") ++ [x26]) ++ § "x" ++ x3d :: [] ++ x25 :: § "4") = None.
Proof.
  apply (malformed_escape_ends_process (§ "/") [(§ "a", § "1")] (§ "x") [] [] (§ "4")).
  - apply (bool_decide_unpack _). vm_compute. exact I.
  - done.
  - apply (bool_decide_unpack _). vm_compute. exact I.
  - done.
Defined.
