(* ===== verification/GateExecutor.v ===== *)
(** * Requests of the gate and their answers

    GateServer/src/HandlerExecutor.cpp, LogicSystem::Dispatch and the life of
    an HTTP connection (HttpConnection.cpp), as one step relation: the threads
    that read and answer, the worker threads, the deadline timers and the
    shutdown. A handler is what it answers; GateAccounts.v says which. *)

From stdpp Require Import gmap.
From S2P Require Import Prelude JsonFields Database ResourceDb ChatSession ChatLogic PasswordHash StatusService GateAccounts GateHttp.

(** ** The bounded executor *)

(** A task is the connection it belongs to. A worker holds a task from when
    it takes it off the queue until it has counted it as done; the flag says
    whether the task has run. *)
Record executor := Executor {
  workers : nat;
  task_que : list Z;
  busy : list (Z * bool);
  gone : nat;               (* workers that left [RunLoop] *)
  outstanding : nat;
  capacity : nat;
  stopping : bool;
}.

Definition HandlerExecutor (worker_count queue_capacity : nat) : executor :=
  Executor (if bool_decide (worker_count = 0%nat) then 1 else worker_count) [] [] 0 0
    (if bool_decide (queue_capacity = 0%nat) then 1 else queue_capacity) false.

(** A positive number of the configuration, or the fallback. *)
Definition ReadConcurrencySize (val : bytes) (fallback : Z) : Z :=
  if bool_decide (val = []) then fallback
  else match stol val with
       | Some (n, pos) => if negb (pos =? zlen val) || (n <=? 0) then fallback else n
       | None => fallback
       end.

Definition Post (task : Z) (e : executor) : bool * executor :=
  if stopping e then (false, e)
  else if (capacity e <=? outstanding e)%nat then (false, e)
  else (true, Executor (workers e) (task_que e ++ [task]) (busy e) (gone e) (S (outstanding e)) (capacity e) (stopping e)).

Definition set_stopping (e : executor) : executor :=
  Executor (workers e) (task_que e) (busy e) (gone e) (outstanding e) (capacity e) true.

Definition idle_worker (e : executor) : bool := (length (busy e) + gone e <? workers e)%nat.

(** An idle worker takes the next task, or leaves when there is none and the
    executor stops. *)
Definition take_task (e : executor) : option executor :=
  if idle_worker e then
    match task_que e with
    | task :: q => Some (Executor (workers e) q (busy e ++ [(task, false)]) (gone e) (outstanding e) (capacity e) (stopping e))
    | [] => if stopping e then Some (Executor (workers e) [] (busy e) (S (gone e)) (outstanding e) (capacity e) true) else None
    end
  else None.

(** The task has run; the worker still has to count it. *)
Definition task_ran (task : Z) (e : executor) : executor :=
  Executor (workers e) (task_que e) ((λ x, if decide (x = (task, false)) then (task, true) else x) <$> busy e) (gone e) (outstanding e)
    (capacity e) (stopping e).

Definition count_task (task : Z) (e : executor) : executor :=
  Executor (workers e) (task_que e) (filter (λ x, x ≠ (task, true)) (busy e)) (gone e) (pred (outstanding e)) (capacity e) (stopping e).

(** ** Connections *)

Inductive DispatchResult := Accepted | NotFound | Overloaded | Stopping.

(** [h] is the handler of the route. *)
Definition Dispatch (h : option handler) (task : Z) (e : executor) : DispatchResult * executor :=
  match h with
  | None => (NotFound, e)
  | Some _ =>
      if stopping e then (Stopping, e)
      else
        let '(ok, e) := Post task e in
        if negb ok then (if stopping e then Stopping else Overloaded, e) else (Accepted, e)
  end.

(** The status of an answer. *)
Inductive answer := Ok200 | NotFound404 | Failed500 | Busy503.

Inductive phase :=
  | Reading
  | Handling (h : handler)                (* queued, or held by a worker *)
  | Ready (h : handler) (a : answer)      (* posted back to the connection's thread *)
  | Answered (a : answer)                 (* [WriteResponse] was called *)
  | ReadFailed
  | Dropped.                              (* the socket was closed before the answer came *)

Record conn := Conn { c_open : bool; c_phase : phase }.

Record server := Serving {
  sv_exec : executor;
  sv_conns : gmap Z conn;
  sv_io : bool;            (* the connections' threads run *)
  sv_sent : list (Z * answer);
}.

Definition with_exec (e : executor) (s : server) : server := Serving e (sv_conns s) (sv_io s) (sv_sent s).
Definition with_conn (i : Z) (c : conn) (s : server) : server := Serving (sv_exec s) (<[i := c]> (sv_conns s)) (sv_io s) (sv_sent s).

Definition WriteResponse (i : Z) (o : bool) (a : answer) (s : server) : server :=
  Serving (sv_exec s) (<[i := Conn o (Answered a)]> (sv_conns s)) (sv_io s) (sv_sent s ++ [(i, a)]).

(** A request has been read. *)
Definition HandleReq (i : Z) (o : bool) (h : option handler) (s : server) : server :=
  let '(r, e) := Dispatch h i (sv_exec s) in
  let s := with_exec e s in
  match r, h with
  | NotFound, _ => WriteResponse i o NotFound404 s
  | Accepted, Some h => with_conn i (Conn o (Handling h)) s
  | _, _ => WriteResponse i o Busy503 s
  end.

(** What a worker posts back. *)
Definition outcome_of (threw : bool) : answer := if threw then Failed500 else Ok200.

(** The closure that is posted back: a closed socket is not written to. *)
Definition post_back (i : Z) (o : bool) (a : answer) (s : server) : server :=
  if o then WriteResponse i o a s else with_conn i (Conn o Dropped) s.

Inductive label :=
  | Accept (i : Z)
  | Read (i : Z) (method : verb) (target : bytes)
  | ReadError (i : Z)
  | Deadline (i : Z)
  | Take
  | Run (i : Z) (threw : bool)
  | Count (i : Z)
  | PostBack (i : Z)
  | StopHandlers
  | StopIo.

(** [Stop] of the pool of connection threads comes after [LogicSystem::Stop],
    which waits for the workers. *)
Inductive step (s : server) : label → server → Prop :=
  | step_accept i : sv_io s = true → sv_conns s !! i = None → step s (Accept i) (with_conn i (Conn true Reading) s)
  | step_read i o method target h : sv_io s = true → sv_conns s !! i = Some (Conn o Reading) →
      route_request method target = Some h → step s (Read i method target) (HandleReq i o h s)
  | step_read_error i o : sv_io s = true → sv_conns s !! i = Some (Conn o Reading) → step s (ReadError i) (with_conn i (Conn o ReadFailed) s)
  | step_deadline i o p : sv_io s = true → sv_conns s !! i = Some (Conn o p) → step s (Deadline i) (with_conn i (Conn false p) s)
  | step_take e : take_task (sv_exec s) = Some e → step s Take (with_exec e s)
  | step_run i o h threw : (i, false) ∈ busy (sv_exec s) → sv_conns s !! i = Some (Conn o (Handling h)) →
      step s (Run i threw) (with_conn i (Conn o (Ready h (outcome_of threw))) (with_exec (task_ran i (sv_exec s)) s))
  | step_count i : (i, true) ∈ busy (sv_exec s) → step s (Count i) (with_exec (count_task i (sv_exec s)) s)
  | step_post_back i o h a : sv_io s = true → sv_conns s !! i = Some (Conn o (Ready h a)) → step s (PostBack i) (post_back i o a s)
  | step_stop_handlers : step s StopHandlers (with_exec (set_stopping (sv_exec s)) s)
  | step_stop_io : stopping (sv_exec s) = true → gone (sv_exec s) = workers (sv_exec s) →
      step s StopIo (Serving (sv_exec s) (sv_conns s) false (sv_sent s)).

Definition new_server (worker_count queue_capacity : nat) : server := Serving (HandlerExecutor worker_count queue_capacity) ∅ true [].
Definition server_init (s : server) : Prop := ∃ w c, s = new_server w c.

(** ** Invariants *)

Definition exec_ok (e : executor) : Prop :=
  outstanding e = (length (task_que e) + length (busy e))%nat ∧ (outstanding e ≤ capacity e)%nat ∧
  (length (busy e) + gone e ≤ workers e)%nat ∧ (0 < workers e)%nat ∧
  NoDup (task_que e ++ (busy e).*1) ∧ ((0 < gone e)%nat → stopping e = true ∧ task_que e = []).

Definition waiting (e : executor) (i : Z) : Prop := i ∈ task_que e ∨ (i, false) ∈ busy e.

Record server_ok (s : server) : Prop := {
  so_exec : exec_ok (sv_exec s);
  so_waiting : ∀ i, waiting (sv_exec s) i ↔ ∃ o h, sv_conns s !! i = Some (Conn o (Handling h));
  so_known : ∀ i, (i, true) ∈ busy (sv_exec s) → is_Some (sv_conns s !! i) ∧ ∀ o, sv_conns s !! i ≠ Some (Conn o Reading);
  so_sent : ∀ i a, (i, a) ∈ sv_sent s ↔ ∃ o, sv_conns s !! i = Some (Conn o (Answered a));
  so_once : NoDup (sv_sent s).*1;
  so_dropped : ∀ i o, sv_conns s !! i = Some (Conn o Dropped) → o = false;
  so_io : sv_io s = false → stopping (sv_exec s) = true ∧ gone (sv_exec s) = workers (sv_exec s);
}.

(** *** The executor *)

Lemma busy_split (l : list (Z * bool)) i b : NoDup l.*1 → (i, b) ∈ l →
  ∃ l1 l2, l = l1 ++ (i, b) :: l2 ∧ i ∉ l1.*1 ∧ i ∉ l2.*1.
Proof.
  intros Hnd (l1 & l2 & ->)%list_elem_of_split. exists l1, l2. split; [done |].
  rewrite fmap_app, fmap_cons in Hnd. apply NoDup_app in Hnd as (_ & Hd & [Hn _]%NoDup_cons).
  split; [| done]. intros Hin. apply (Hd i Hin). by left.
Qed.

Lemma run_other i (l : list (Z * bool)) : i ∉ l.*1 → (λ x, if decide (x = (i, false)) then (i, true) else x) <$> l = l.
Proof.
  intros Hi. rewrite <- (list_fmap_id l) at 2. apply list_fmap_ext. intros _ [j b] Hj%list_elem_of_lookup_2.
  rewrite decide_False; [done |]. intros [= -> ->]. apply Hi. by apply (list_elem_of_fmap_2 fst) in Hj.
Qed.

Lemma keep_other i (l : list (Z * bool)) : i ∉ l.*1 → filter (λ x, x ≠ (i, true)) l = l.
Proof.
  induction l as [| [j b] l IH]; [done |]. rewrite fmap_cons. intros [Hj Hi]%not_elem_of_cons.
  rewrite filter_cons_True by (intros [= -> ->]; done). by rewrite IH.
Qed.

Lemma task_ran_split e i l1 l2 : busy e = l1 ++ (i, false) :: l2 → i ∉ l1.*1 → i ∉ l2.*1 → busy (task_ran i e) = l1 ++ (i, true) :: l2.
Proof. intros E H1 H2. unfold task_ran. cbn. rewrite E, fmap_app, fmap_cons, !run_other by done. by rewrite decide_True. Qed.

Lemma count_task_split e i l1 l2 : busy e = l1 ++ (i, true) :: l2 → i ∉ l1.*1 → i ∉ l2.*1 → busy (count_task i e) = l1 ++ l2.
Proof.
  intros E H1 H2. unfold count_task. cbn. rewrite E, filter_app, filter_cons_False by (intros Hx; by apply Hx).
  by rewrite !keep_other.
Qed.

(** The executor after a step. [queued e i] is what a new task must not be. *)
Definition queued (e : executor) (i : Z) : Prop := i ∈ task_que e ++ (busy e).*1.

Lemma queued_waiting e i : queued e i ↔ waiting e i ∨ (i, true) ∈ busy e.
Proof.
  unfold queued, waiting. rewrite elem_of_app, list_elem_of_fmap. split.
  - intros [Hq | ([j []] & -> & Hj)]; [by left; left | by right | left; by right].
  - intros [[Hq | Hb] | Hb]; [by left | right; by exists (i, false) | right; by exists (i, true)].
Qed.

Lemma Post_ok e i : exec_ok e → ¬ queued e i → (Post i e).1 = true → exec_ok (Post i e).2 ∧
  (∀ j, waiting (Post i e).2 j ↔ waiting e j ∨ j = i) ∧ busy (Post i e).2 = busy e ∧ stopping e = false.
Proof.
  intros (Ho & Hc & Hw & Hp & Hnd & Hg) Hq. unfold Post. destruct (stopping e) eqn:Es; [done |].
  destruct (capacity e <=? outstanding e)%nat eqn:Ec; [done |]. apply Nat.leb_gt in Ec. intros _. split_and!; [| | done | done].
  - split_and!; cbn; [rewrite length_app; cbn; lia | lia | done | done | | naive_solver congruence].
    rewrite <- app_assoc. rewrite (Permutation_app_comm [i]), app_assoc. apply NoDup_app. split; [done |]. split; [| by apply NoDup_singleton].
    intros j Hj ->%list_elem_of_singleton. by apply Hq.
  - intros j. unfold waiting. cbn. rewrite elem_of_app, list_elem_of_singleton. tauto.
Qed.

Lemma take_task_ok e e' : exec_ok e → take_task e = Some e' →
  exec_ok e' ∧ (∀ i, waiting e' i ↔ waiting e i) ∧ (∀ i, (i, true) ∈ busy e' ↔ (i, true) ∈ busy e) ∧
  stopping e' = stopping e ∧ workers e' = workers e.
Proof.
  intros (Ho & Hc & Hw & Hp & Hnd & Hg). unfold take_task, idle_worker. destruct (_ <? _)%nat eqn:Ei; [| done]. apply Nat.ltb_lt in Ei.
  destruct (task_que e) as [| i q] eqn:Eq.
  - destruct (stopping e) eqn:Es; [| done]. intros [= <-]. split; [| split; [intros i; unfold waiting; cbn; by rewrite Eq |]; done].
    split_and!; cbn; [done | done | lia | done | done | done].
  - intros [= <-]. cbn [app] in *. split; [split_and!; cbn; [rewrite length_app; cbn in *; lia | done | rewrite length_app; cbn; lia | done | | by intros [? ?]%Hg] |].
    + rewrite fmap_app. cbn. rewrite app_assoc, Permutation_app_comm. done.
    + split; [| split; [| done]].
      * intros j. unfold waiting. cbn. rewrite Eq, elem_of_app, list_elem_of_singleton, elem_of_cons.
        split; [intros [? | [? | [= ->]]] | intros [[-> | ?] | ?]]; auto.
      * intros j. cbn. rewrite elem_of_app, list_elem_of_singleton. naive_solver.
Qed.

Lemma exec_ok_NoDup e : exec_ok e → NoDup (busy e).*1.
Proof. intros (_ & _ & _ & _ & Hnd & _). by apply NoDup_app in Hnd as (_ & _ & ?). Qed.

Lemma task_ran_ok e i : exec_ok e → (i, false) ∈ busy e →
  exec_ok (task_ran i e) ∧ (∀ j, waiting (task_ran i e) j ↔ waiting e j ∧ j ≠ i) ∧
  (∀ j, (j, true) ∈ busy (task_ran i e) ↔ (j, true) ∈ busy e ∨ j = i).
Proof.
  intros Hok Hi. destruct (busy_split _ _ _ (exec_ok_NoDup _ Hok) Hi) as (l1 & l2 & E & H1 & H2).
  pose proof (task_ran_split _ _ _ _ E H1 H2) as E'. destruct Hok as (Ho & Hc & Hw & Hp & Hnd & Hg).
  assert (Hx : ∀ j b l, j ∉ l.*1 → (j, b) ∉ (l : list (Z * bool))) by (intros j b l Hn Hin; apply Hn; by apply (list_elem_of_fmap_2 fst) in Hin).
  assert (Hfst : (busy (task_ran i e)).*1 = (busy e).*1) by (by rewrite E', E, !fmap_app, !fmap_cons).
  assert (Hlen : length (busy (task_ran i e)) = length (busy e)) by (unfold task_ran; cbn; by rewrite length_fmap).
  split; [split_and!; cbn [outstanding task_que capacity workers gone stopping task_ran]; rewrite ?Hfst, ?Hlen; done |]. split.
  - intros j. unfold waiting. rewrite E'. cbn [task_que task_ran]. rewrite E, !elem_of_app, !elem_of_cons. split.
    + intros [Hj | [Hj | [[= ] | Hj]]].
      * split; [by left |]. intros ->. apply NoDup_app in Hnd as (_ & Hd & _). apply (Hd i Hj). rewrite E, fmap_app, fmap_cons. set_solver.
      * split; [auto |]. intros ->. by eapply Hx, Hj.
      * split; [auto |]. intros ->. by eapply Hx, Hj.
    + intros [[Hj | [Hj | [[= ->] | Hj]]] Hne]; auto; done.
  - intros j. rewrite E', E, !elem_of_app, !elem_of_cons. naive_solver.
Qed.

Lemma count_task_ok e i : exec_ok e → (i, true) ∈ busy e →
  exec_ok (count_task i e) ∧ (∀ j, waiting (count_task i e) j ↔ waiting e j) ∧
  (∀ j, (j, true) ∈ busy (count_task i e) → (j, true) ∈ busy e) ∧ length (busy e) = S (length (busy (count_task i e))).
Proof.
  intros Hok Hi. destruct (busy_split _ _ _ (exec_ok_NoDup _ Hok) Hi) as (l1 & l2 & E & H1 & H2).
  pose proof (count_task_split _ _ _ _ E H1 H2) as E'. destruct Hok as (Ho & Hc & Hw & Hp & Hnd & Hg).
  assert (Hlen : length (busy e) = S (length (busy (count_task i e)))) by (rewrite E', E, !length_app; cbn; lia).
  split; [split_and!; cbn [outstanding task_que capacity workers gone stopping count_task]; [lia.. | done | | done] |]; [| split; [| split; [| done]]].
  - change (busy (Executor _ _ ?b _ _ _ _)) with b. fold (busy (count_task i e)). 
    change (filter _ (busy e)) with (busy (count_task i e)). rewrite E'. rewrite E, !fmap_app, fmap_cons in Hnd. rewrite fmap_app.
    apply (sublist_NoDup _ _ Hnd). apply sublist_app; [done |]. apply sublist_app; [done | by apply sublist_cons].
  - intros j. unfold waiting. rewrite E'. cbn [task_que count_task]. rewrite E, !elem_of_app, !elem_of_cons. naive_solver.
  - intros j. rewrite E', E, !elem_of_app, !elem_of_cons. naive_solver.
Qed.

(** *** The connections *)

Lemma new_server_ok w c : server_ok (new_server w c).
Proof.
  assert (Hn : ∀ i, sv_conns (new_server w c) !! i = None) by (intros i; apply lookup_empty).
  split; try (intros i; setoid_rewrite Hn); cbn.
  - split_and!; cbn; [done | lia | case_bool_decide; lia | case_bool_decide; lia | constructor | lia].
  - split; [intros [H | H]; by apply not_elem_of_nil in H | intros (? & ? & [=])].
  - by intros ?%not_elem_of_nil.
  - intros a. split; [by intros ?%not_elem_of_nil | by intros [? ?]].
  - constructor.
  - done.
  - done.
Qed.

(** The executor does its part; the phases of the connections stay. *)
Lemma with_exec_ok s e :
  server_ok s → exec_ok e → (∀ i, waiting e i ↔ waiting (sv_exec s) i) → (∀ i, (i, true) ∈ busy e → (i, true) ∈ busy (sv_exec s)) →
  (sv_io s = false → stopping e = true ∧ gone e = workers e) → server_ok (with_exec e s).
Proof.
  intros [H1 H2 H3 H4 H5 H6 H7] He Hw Hb Hio. split; cbn; try done.
  - intros i. by rewrite Hw.
  - intros i Hi. by apply H3, Hb.
Qed.

(** A connection goes from one phase to another that is neither in the hands
    of the executor nor answered. *)
Lemma with_conn_ok s i c c0 :
  server_ok s → sv_conns s !! i = c0 →
  (∀ o h, c0 ≠ Some (Conn o (Handling h)) ∧ c ≠ Conn o (Handling h)) →
  (∀ o a, c0 ≠ Some (Conn o (Answered a)) ∧ c ≠ Conn o (Answered a)) →
  (∀ o, c ≠ Conn o Reading ∨ (i, true) ∉ busy (sv_exec s)) → (∀ o, c = Conn o Dropped → o = false) → server_ok (with_conn i c s).
Proof.
  intros [H1 H2 H3 H4 H5 H6 H7] Hc Hh Ha Hr Hd.
  assert (Hl : ∀ j, sv_conns (with_conn i c s) !! j = if decide (i = j) then Some c else sv_conns s !! j).
  { intros j. cbn. destruct (decide (i = j)) as [-> |]; [apply lookup_insert_eq | by apply lookup_insert_ne]. }
  split; cbn [sv_exec sv_sent sv_io with_conn]; try done.
  - intros j. setoid_rewrite Hl. rewrite H2. case_decide as E; [subst j | done]. rewrite Hc. split; intros (o & h & E).
    + by destruct (Hh o h).
    + destruct (Hh o h) as [_ Hx]. congruence.
  - intros j Hj. rewrite !Hl. case_decide as E; [subst j | by apply H3]. split; [done |]. intros o E.
    injection E as E. by destruct (Hr o).
  - intros j a. setoid_rewrite Hl. rewrite H4. case_decide as E; [subst j | done]. rewrite Hc. split; intros (o & E).
    + by destruct (Ha o a).
    + destruct (Ha o a) as [_ Hx]. congruence.
  - intros j o. rewrite Hl. case_decide as E; [subst j | by apply H6]. intros [= E]. by apply Hd.
Qed.

(** An answer is written on a connection that waits for it. *)
Lemma WriteResponse_ok s i o a c0 :
  server_ok s → sv_conns s !! i = Some c0 →
  (∀ o h, c0 ≠ Conn o (Handling h)) → (∀ o a, c0 ≠ Conn o (Answered a)) → server_ok (WriteResponse i o a s).
Proof.
  intros [H1 H2 H3 H4 H5 H6 H7] Hc Hh Ha.
  assert (Hl : ∀ j, sv_conns (WriteResponse i o a s) !! j = if decide (i = j) then Some (Conn o (Answered a)) else sv_conns s !! j).
  { intros j. cbn. destruct (decide (i = j)) as [-> |]; [apply lookup_insert_eq | by apply lookup_insert_ne]. }
  assert (Hnot : i ∉ (sv_sent s).*1).
  { intros ([j a'] & -> & Hin)%list_elem_of_fmap. apply H4 in Hin as [o' E]. cbn in Hc. rewrite Hc in E. injection E as E.
    by apply (Ha o' a'). }
  split; cbn [sv_exec sv_sent sv_io WriteResponse]; try done.
  - intros j. setoid_rewrite Hl. rewrite H2. case_decide as E; [subst j | done]. rewrite Hc. split; intros (o' & h & E); [| done].
    injection E as E. by destruct (Hh o' h).
  - intros j Hj. rewrite !Hl. case_decide as E; [subst j | by apply H3]. by split.
  - intros j a'. setoid_rewrite Hl. rewrite elem_of_app, list_elem_of_singleton, H4. case_decide as E.
    + subst j. split.
      * intros [[o' E] | [= ->]]; [| by eexists]. rewrite Hc in E. injection E as E. by destruct (Ha o' a').
      * intros [o' [= _ <-]]. by right.
    + split; [intros [? | [= -> _]]; done | by left].
  - rewrite fmap_app. apply NoDup_app. split; [done |]. split; [| by apply NoDup_singleton].
    intros j Hj ->%list_elem_of_singleton. done.
  - intros j o'. rewrite Hl. case_decide as E; [done | by apply H6].
Qed.

Lemma reading_not_queued s i o : server_ok s → sv_conns s !! i = Some (Conn o Reading) → ¬ queued (sv_exec s) i.
Proof.
  intros Hs Hc [Hw | Hb]%queued_waiting.
  - apply (so_waiting _ Hs) in Hw as (o' & h & E). congruence.
  - by destruct (so_known _ Hs _ Hb) as [_ Hn], (Hn o).
Qed.

Lemma HandleReq_ok s i o h : server_ok s → sv_io s = true → sv_conns s !! i = Some (Conn o Reading) → server_ok (HandleReq i o h s).
Proof.
  intros Hs Hio Hc. pose proof (reading_not_queued _ _ _ Hs Hc) as Hq.
  assert (Hself : with_exec (sv_exec s) s = s) by by destruct s.
  assert (Hwrite : ∀ a, server_ok (WriteResponse i o a (with_exec (sv_exec s) s))).
  { intros a. rewrite Hself. by eapply WriteResponse_ok. }
  unfold HandleReq, Dispatch. destruct h as [h |]; [| apply Hwrite]. destruct (stopping (sv_exec s)) eqn:Es; [apply Hwrite |].
  destruct (Post i (sv_exec s)) as [ok e] eqn:Ep. destruct ok; cbn [negb].
  - destruct (Post_ok (sv_exec s) i (so_exec _ Hs) Hq) as (He & Hw & Hb & _); [by rewrite Ep |]. rewrite Ep in He, Hw, Hb. cbn in He, Hw, Hb.
    destruct Hs as [H1 H2 H3 H4 H5 H6 H7].
    assert (Hl : ∀ j, sv_conns (with_conn i (Conn o (Handling h)) (with_exec e s)) !! j =
      if decide (i = j) then Some (Conn o (Handling h)) else sv_conns s !! j).
    { intros j. cbn. destruct (decide (i = j)) as [-> |]; [apply lookup_insert_eq | by apply lookup_insert_ne]. }
    split; cbn [sv_exec sv_sent sv_io with_conn with_exec]; try done; try congruence.
    + intros j. setoid_rewrite Hl. rewrite Hw, H2. case_decide as E.
      * subst j. split; [intros _; by eexists _, _ | by right].
      * split; [intros [? | ->]; done | by left].
    + intros j. rewrite Hb. intros Hj. rewrite !Hl. case_decide as E; [by split | by apply H3].
    + intros j a. setoid_rewrite Hl. rewrite H4. case_decide as E; [subst j | done]. rewrite Hc. split; by intros [? ?].
    + intros j o'. rewrite Hl. case_decide as E; [done | by apply H6].
  - assert (e = sv_exec s) as ->.
    { unfold Post in Ep. rewrite Es in Ep. destruct (_ <=? _)%nat; by simplify_eq. }
    rewrite Es. apply Hwrite.
Qed.

(** Closing a socket keeps the phase. *)
Lemma close_ok s i o p : server_ok s → sv_conns s !! i = Some (Conn o p) → server_ok (with_conn i (Conn false p) s).
Proof.
  intros [H1 H2 H3 H4 H5 H6 H7] Hc.
  assert (Hl : ∀ j, sv_conns (with_conn i (Conn false p) s) !! j = if decide (i = j) then Some (Conn false p) else sv_conns s !! j).
  { intros j. cbn. destruct (decide (i = j)) as [-> |]; [apply lookup_insert_eq | by apply lookup_insert_ne]. }
  split; cbn [sv_exec sv_sent sv_io with_conn]; try done.
  - intros j. setoid_rewrite Hl. rewrite H2. case_decide as E; [subst j; rewrite Hc | done]. naive_solver.
  - intros j Hj. rewrite !Hl. case_decide as E; [subst j | by apply H3]. split; [done |]. intros o' [= _ ->].
    by destruct (H3 _ Hj) as [_ Hx], (Hx o).
  - intros j a. setoid_rewrite Hl. rewrite H4. case_decide as E; [subst j; rewrite Hc | done]. naive_solver.
  - intros j o'. rewrite Hl. case_decide as E; [by intros [= <- _] | by apply H6].
Qed.

(** A worker has run a task and posted the answer back. *)
Lemma handler_ran_ok s i o h a : server_ok s → (i, false) ∈ busy (sv_exec s) → sv_conns s !! i = Some (Conn o (Handling h)) →
  server_ok (with_conn i (Conn o (Ready h a)) (with_exec (task_ran i (sv_exec s)) s)).
Proof.
  intros Hs Hi Hc. destruct (task_ran_ok _ _ (so_exec _ Hs) Hi) as (He & Hw & Hb). destruct Hs as [H1 H2 H3 H4 H5 H6 H7].
  assert (Hl : ∀ j, sv_conns (with_conn i (Conn o (Ready h a)) (with_exec (task_ran i (sv_exec s)) s)) !! j =
    if decide (i = j) then Some (Conn o (Ready h a)) else sv_conns s !! j).
  { intros j. cbn. destruct (decide (i = j)) as [-> |]; [apply lookup_insert_eq | by apply lookup_insert_ne]. }
  split; cbn [sv_exec sv_sent sv_io with_conn with_exec]; try done.
  - intros j. setoid_rewrite Hl. rewrite Hw, H2. case_decide as E; [subst j; naive_solver |]. split; [by intros [? _] | done].
  - intros j. rewrite Hb. intros Hj. rewrite !Hl. case_decide as E; [by split |]. destruct Hj as [Hj | ->]; [by apply H3 | done].
  - intros j a'. setoid_rewrite Hl. rewrite H4. case_decide as E; [subst j; rewrite Hc; naive_solver | done].
  - intros j o'. rewrite Hl. case_decide as E; [done | by apply H6].
Qed.

Lemma step_ok s l s' : server_ok s → step s l s' → server_ok s'.
Proof.
  intros Hs Hstep. destruct Hstep as [i Hio Hc | i o method target h Hio Hc Hr | i o Hio Hc | i o p Hio Hc | e Ht | i o h threw Hi Hc | i Hi | i o h a Hio Hc | | Hst Hg].
  - eapply with_conn_ok; [done | exact Hc | done | done | | done]. intros o. right. intros Hb.
    destruct (so_known _ Hs _ Hb) as [[x Hx] _]. congruence.
  - by apply HandleReq_ok.
  - by eapply with_conn_ok; [done | exact Hc | | | intros; left |].
  - by eapply close_ok.
  - destruct (take_task_ok _ _ (so_exec _ Hs) Ht) as (He & Hw & Hb & Est & Ewk).
    apply with_exec_ok; [done | done | done | by intros i Hi%Hb |]. intros Hio. destruct (so_io _ Hs Hio) as [Hst Hg].
    unfold take_task, idle_worker in Ht. destruct (_ <? _)%nat eqn:E; [apply Nat.ltb_lt in E; lia | done].
  - by apply handler_ran_ok.
  - destruct (count_task_ok _ _ (so_exec _ Hs) Hi) as (He & Hw & Hb & _).
    apply with_exec_ok; [done | done | done | done |]. by apply (so_io _ Hs).
  - unfold post_back. destruct o.
    + by eapply WriteResponse_ok.
    + by eapply with_conn_ok; [done | exact Hc | done | done | intros; left | intros ? [= <-]].
  - apply with_exec_ok; [done | | done | done |].
    + destruct (so_exec _ Hs) as (? & ? & ? & ? & ? & Hg). split_and!; [done.. |]. by intros [? ?]%Hg.
    + intros Hio. by destruct (so_io _ Hs Hio).
  - destruct Hs as [H1 H2 H3 H4 H5 H6 H7]. by split.
Qed.

Lemma reachable_ok s : reachable server_init step s → server_ok s.
Proof. apply reachable_invariant; [intros ? (w & c & ->); apply new_server_ok | exact step_ok]. Qed.

(** C30: every request is answered at most once, and none gets lost on the
    way. In every interleaving of connections, workers, timers and the
    shutdown: no more tasks are queued and running than the capacity and none
    runs without a worker; no connection gets two answers; a connection whose
    request has been accepted is in the hands of the executor, or its answer
    is posted back, or it was answered, or its socket was closed by the
    deadline before. *)
Theorem each_request_answered_once s :
  reachable server_init step s →
  (length (task_que (sv_exec s)) + length (busy (sv_exec s)) ≤ capacity (sv_exec s))%nat ∧
  (length (busy (sv_exec s)) ≤ workers (sv_exec s))%nat ∧
  NoDup (sv_sent s).*1 ∧
  ∀ i o p, sv_conns s !! i = Some (Conn o p) →
    match p with
    | Handling _ => waiting (sv_exec s) i ∧ i ∉ (sv_sent s).*1
    | Answered a => (i, a) ∈ sv_sent s
    | Dropped => o = false ∧ i ∉ (sv_sent s).*1
    | Reading | ReadFailed | Ready _ _ => ¬ waiting (sv_exec s) i ∧ i ∉ (sv_sent s).*1
    end.
Proof.
  intros Hs%reachable_ok. destruct (so_exec _ Hs) as (Ho & Hc & Hw & _). split_and!; [lia | lia | apply (so_once _ Hs) |].
  intros i o p Hi.
  assert (Hsent : (∀ a, p ≠ Answered a) → i ∉ (sv_sent s).*1).
  { intros Hp ([j a] & -> & Hin)%list_elem_of_fmap. apply (so_sent _ Hs) in Hin as [o' E]. cbn in Hi. naive_solver. }
  assert (Hwait : (∀ h, p ≠ Handling h) → ¬ waiting (sv_exec s) i).
  { intros Hp (o' & h & E)%(so_waiting _ Hs). naive_solver. }
  destruct p as [| h | h a | a | |].
  1, 3, 5: split; [by apply Hwait | by apply Hsent].
  - split; [| by apply Hsent]. apply (so_waiting _ Hs). by eexists _, _.
  - apply (so_sent _ Hs). by exists o.
  - split; [by apply (so_dropped _ Hs i) | by apply Hsent].
Qed.

(** *** Shutdown *)

(** What goes on while [LogicSystem::Stop] waits: the workers, and the
    threads of the connections that run what was posted back. *)
Definition work (s s' : server) : Prop :=
  step s Take s' ∨ (∃ i threw, step s (Run i threw) s') ∨ (∃ i, step s (Count i) s') ∨ (∃ i, step s (PostBack i) s').

Definition is_ready (kc : Z * conn) : Prop := ∃ h a, c_phase kc.2 = Ready h a.
#[local] Instance is_ready_dec kc : Decision (is_ready kc).
Proof. unfold is_ready. destruct (c_phase kc.2); try (right; naive_solver); left; by eexists _, _. Defined.

Definition ready_count (s : server) : nat := size (filter is_ready (sv_conns s)).
Definition busy_left (e : executor) : nat := sum_list_with (λ x, if x.2 : bool then 1 else 3)%nat (busy e).
Definition work_left (s : server) : nat :=
  (4 * length (task_que (sv_exec s)) + busy_left (sv_exec s) + (workers (sv_exec s) - gone (sv_exec s)) + ready_count s)%nat.

Lemma ready_count_insert s i c0 c : sv_conns s !! i = Some c0 →
  (size (filter is_ready (<[i := c]> (sv_conns s))) + (if decide (is_ready (i, c0)) then 1 else 0) =
   ready_count s + (if decide (is_ready (i, c)) then 1 else 0))%nat.
Proof.
  intros Hc. unfold ready_count. rewrite <- (insert_id _ _ _ Hc) at 2. rewrite <- (insert_delete_eq (sv_conns s) i c0), <- (insert_delete_eq (sv_conns s) i c).
  assert (Hi : ∀ x, size (filter is_ready (<[i := x]> (delete i (sv_conns s)))) =
    (size (filter is_ready (delete i (sv_conns s))) + if decide (is_ready (i, x)) then 1 else 0)%nat).
  { intros x. rewrite map_filter_insert. case_decide.
    - rewrite map_size_insert_None; [lia |]. apply map_lookup_filter_None. left. apply lookup_delete_eq.
    - rewrite delete_delete_eq. lia. }
  rewrite !Hi. lia.
Qed.

Lemma ready_count_with s i c0 c e : sv_conns s !! i = Some c0 →
  (ready_count (with_conn i c (with_exec e s)) + (if decide (is_ready (i, c0)) then 1 else 0) =
   ready_count s + (if decide (is_ready (i, c)) then 1 else 0))%nat.
Proof. intros Hc. exact (ready_count_insert s i c0 c Hc). Qed.

Lemma work_decreases s s' : server_ok s → work s s' → (work_left s' < work_left s)%nat.
Proof.
  intros Hs [Hstep | [(i & threw & Hstep) | [(i & Hstep) | (i & Hstep)]]]; inversion Hstep; subst; clear Hstep.
  - match goal with Ht : take_task _ = Some _ |- _ => revert Ht end. unfold take_task, idle_worker.
    destruct (_ <? _)%nat eqn:Ei; [| done]. apply Nat.ltb_lt in Ei. unfold work_left, with_exec, ready_count, busy_left. cbn [sv_exec sv_conns].
    destruct (task_que (sv_exec s)) as [| j q] eqn:Eq.
    + destruct (stopping (sv_exec s)); [| done]. intros [= <-]. cbn. lia.
    + intros [= <-]. cbn. rewrite sum_list_with_app. cbn. lia.
  - match goal with Hb : (i, false) ∈ _, Hc : _ !! i = _ |- _ => rename Hb into Hbusy, Hc into Hconn end.
    destruct (busy_split _ _ _ (exec_ok_NoDup _ (so_exec _ Hs)) Hbusy) as (l1 & l2 & E & H1 & H2).
    pose proof (task_ran_split _ _ _ _ E H1 H2) as E'.
    pose proof (ready_count_with s i _ (Conn o (Ready h (outcome_of threw))) (task_ran i (sv_exec s)) Hconn) as Hr.
    rewrite decide_False in Hr by (intros (h' & a' & [=])). rewrite decide_True in Hr by (by eexists _, _).
    set (s' := with_conn _ _ _) in *. assert (Ex : sv_exec s' = task_ran i (sv_exec s)) by done. clearbody s'.
    unfold work_left, busy_left. rewrite Ex, E', E, !sum_list_with_app. cbn. lia.
  - match goal with Hb : (i, true) ∈ _ |- _ => rename Hb into Hbusy end.
    destruct (busy_split _ _ _ (exec_ok_NoDup _ (so_exec _ Hs)) Hbusy) as (l1 & l2 & E & H1 & H2).
    pose proof (count_task_split _ _ _ _ E H1 H2) as E'.
    unfold work_left, busy_left, with_exec, ready_count. cbn [sv_exec sv_conns]. rewrite E'. rewrite E, !sum_list_with_app. cbn. lia.
  - match goal with Hc : _ !! i = _ |- _ => rename Hc into Hconn end.
    unfold post_back. destruct o.
    + pose proof (ready_count_insert s i _ (Conn true (Answered a)) Hconn) as Hr.
      rewrite decide_True in Hr by (by eexists _, _). rewrite decide_False in Hr by (intros (h' & a' & [=])).
      unfold work_left. cbn [sv_exec WriteResponse]. unfold ready_count at 1, WriteResponse. cbn [sv_conns]. lia.
    + pose proof (ready_count_insert s i _ (Conn false Dropped) Hconn) as Hr.
      rewrite decide_True in Hr by (by eexists _, _). rewrite decide_False in Hr by (intros (h' & a' & [=])).
      unfold work_left. cbn [sv_exec with_conn]. unfold ready_count at 1, with_conn. cbn [sv_conns]. lia.
Qed.

Lemma work_step s s' : work s s' → (∃ l, step s l s').
Proof. intros [Hx | [(i & threw & Hx) | [(i & Hx) | (i & Hx)]]]; by eexists. Qed.

Lemma work_ok s s' : server_ok s → work s s' → server_ok s'.
Proof. intros Hs [l Hl]%work_step. by eapply step_ok. Qed.

Lemma work_sn s : server_ok s → sn work s.
Proof.
  remember (work_left s) as n eqn:En. revert s En. induction (lt_wf n) as [n _ IH]. intros s -> Hs. constructor. intros s' Hw.
  eapply IH; [by apply work_decreases | done | by eapply work_ok].
Qed.

(** Nothing of the shutdown's work undoes the stop. *)
Lemma work_stopping s s' : work s s' → stopping (sv_exec s) = true → sv_io s = true → stopping (sv_exec s') = true ∧ sv_io s' = true.
Proof.
  intros [Hx | [(i & threw & Hx) | [(i & Hx) | (i & Hx)]]] Hst Hio; inversion Hx; subst; try done.
  - cbn. match goal with Ht : take_task _ = Some _ |- _ => revert Ht end. unfold take_task. rewrite Hst.
    destruct (idle_worker _); [| done]. destruct (task_que _); by intros [= <-].
  - unfold post_back. by destruct o.
Qed.

(** All workers have left, and nothing is posted back any more. *)
Definition drained (s : server) : Prop :=
  task_que (sv_exec s) = [] ∧ busy (sv_exec s) = [] ∧ gone (sv_exec s) = workers (sv_exec s) ∧
  ∀ i o h a, sv_conns s !! i ≠ Some (Conn o (Ready h a)).

Lemma work_progress s : server_ok s → stopping (sv_exec s) = true → sv_io s = true → nf work s → drained s.
Proof.
  intros Hs Hst Hio Hnf. assert (Hno : ∀ s', ¬ work s s') by (intros s' Hw; apply Hnf; by exists s').
  destruct (so_exec _ Hs) as (Ho & Hc & Hw & Hp & Hnd & Hg).
  assert (Hb : busy (sv_exec s) = []).
  { destruct (busy (sv_exec s)) as [| [i []] l] eqn:Eb; [done | |].
    - exfalso. eapply Hno. right; right; left. exists i. apply step_count. rewrite Eb. by left.
    - exfalso. assert (Hi : (i, false) ∈ busy (sv_exec s)) by (rewrite Eb; by left).
      destruct (proj1 (so_waiting _ Hs i) (or_intror Hi)) as (o & h & Hx).
      eapply Hno. right; left. exists i, false. by eapply step_run. }
  assert (Hgone : gone (sv_exec s) = workers (sv_exec s)).
  { destruct (decide (gone (sv_exec s) = workers (sv_exec s))) as [| Hne]; [done |]. exfalso. rewrite Hb in Hw. cbn in Hw.
    assert (Ht : is_Some (take_task (sv_exec s))).
    { unfold take_task, idle_worker. rewrite Hb, Hst, (proj2 (Nat.ltb_lt _ _)) by (cbn; lia). by destruct (task_que _). }
    destruct Ht as [e Ht]. eapply Hno. left. by apply step_take. }
  split_and!; [apply Hg; lia | done | done |].
  intros i o h a Hi. eapply Hno. right; right; right. exists i. by eapply step_post_back.
Qed.


Lemma stopped_io s l s' i o h a : sv_io s = false → server_ok s → sv_conns s !! i = Some (Conn o (Ready h a)) → step s l s' →
  sv_io s' = false ∧ sv_conns s' !! i = Some (Conn o (Ready h a)).
Proof.
  intros Hio Hs Hi Hstep. destruct Hstep as [j Hio' Hc | j o' method target h' Hio' Hc Hr | j o' Hio' Hc | j o' p Hio' Hc | e Ht | j o' h' threw Hb Hc | j Hb | j o' h' a' Hio' Hc | | Hst Hg];
    try congruence; try done.
  cbn. split; [done |]. rewrite lookup_insert_ne; [done |]. intros ->. congruence.
Qed.

(** But the gate does not wait for them. [LogicSystem::Stop] waits for
    the workers only, and the shutdown then stops the threads of the
    connections. A request whose handler has run by then, and whose answer is
    posted back to such a thread, is never answered, though its connection is
    open. *)
Theorem shutdown_drops_posted_answers s i h a :
  reachable server_init step s → stopping (sv_exec s) = true → gone (sv_exec s) = workers (sv_exec s) →
  sv_conns s !! i = Some (Conn true (Ready h a)) →
  ∃ s', step s StopIo s' ∧ ∀ s'', reachable (λ x, x = s') step s'' →
    sv_conns s'' !! i = Some (Conn true (Ready h a)) ∧ i ∉ (sv_sent s'').*1.
Proof.
  intros Hs%reachable_ok Hst Hg Hi. eexists. split; [by apply step_stop_io |]. intros s'' Hr.
  assert (Hx : server_ok s'' ∧ sv_io s'' = false ∧ sv_conns s'' !! i = Some (Conn true (Ready h a))).
  { revert s'' Hr. apply reachable_invariant.
    - intros ? ->. split; [| done]. eapply step_ok; [exact Hs | by apply step_stop_io].
    - intros s1 l s2 (Hs1 & Hio & Hc) Hstep. split; [by eapply step_ok |]. by eapply stopped_io. }
  destruct Hx as (Hs'' & _ & Hc). split; [done |]. intros ([j a'] & -> & Hin)%list_elem_of_fmap.
  apply (so_sent _ Hs'') in Hin as [o E]. cbn in Hc. congruence.
Qed.

(** ** Concrete runs *)

(** The steps as a function. *)
Definition do_step (s : server) (l : label) : option server :=
  match l with
  | Accept i => match sv_conns s !! i with None => if sv_io s then Some (with_conn i (Conn true Reading) s) else None | Some _ => None end
  | Read i method target =>
      match sv_conns s !! i, route_request method target with
      | Some (Conn o Reading), Some h => if sv_io s then Some (HandleReq i o h s) else None
      | _, _ => None
      end
  | ReadError i => match sv_conns s !! i with Some (Conn o Reading) => if sv_io s then Some (with_conn i (Conn o ReadFailed) s) else None | _ => None end
  | Deadline i => match sv_conns s !! i with Some (Conn o p) => if sv_io s then Some (with_conn i (Conn false p) s) else None | _ => None end
  | Take => match take_task (sv_exec s) with Some e => Some (with_exec e s) | None => None end
  | Run i threw =>
      match sv_conns s !! i with
      | Some (Conn o (Handling h)) =>
          if decide ((i, false) ∈ busy (sv_exec s)) then Some (with_conn i (Conn o (Ready h (outcome_of threw))) (with_exec (task_ran i (sv_exec s)) s)) else None
      | _ => None
      end
  | Count i => if decide ((i, true) ∈ busy (sv_exec s)) then Some (with_exec (count_task i (sv_exec s)) s) else None
  | PostBack i => match sv_conns s !! i with Some (Conn o (Ready h a)) => if sv_io s then Some (post_back i o a s) else None | _ => None end
  | StopHandlers => Some (with_exec (set_stopping (sv_exec s)) s)
  | StopIo => if stopping (sv_exec s) && bool_decide (gone (sv_exec s) = workers (sv_exec s))
              then Some (Serving (sv_exec s) (sv_conns s) false (sv_sent s)) else None
  end.

Lemma do_step_sound s l s' : do_step s l = Some s' → step s l s'.
Proof.
  destruct l; cbn [do_step]; intros Hd; repeat (case_match; simplify_eq); simplify_eq; bool_to_prop; eauto using step.
Qed.

Fixpoint do_steps (ls : list label) (s : server) : option server :=
  match ls with
  | [] => Some s
  | l :: ls => match do_step s l with Some s => do_steps ls s | None => None end
  end.

Lemma do_steps_reachable ls s s' : reachable server_init step s → do_steps ls s = Some s' → reachable server_init step s'.
Proof.
  revert s. induction ls as [| l ls IH]; intros s Hr; cbn; [by intros [= <-] |].
  destruct (do_step s l) as [s1 |] eqn:E; [| done]. apply IH. eapply reach_step; [done | by apply do_step_sound].
Qed.

(** One worker and room for two requests. The third one is refused; then the
    handlers are stopped while the first request is being handled. *)
Definition demo_labels : list label :=
  [Accept 1; Accept 2; Accept 3; Accept 4; Read 1 VPost (§ "/user_login"); Take; Read 2 VPost (§ "/reset_pwd"); Read 3 VPost (§ "/user_login");
   Read 4 VGet (§ "/nothing"); StopHandlers; Run 1 false].
Definition demo_server : server := default (new_server 1 2) (do_steps demo_labels (new_server 1 2)).

Lemma demo_server_reachable : reachable server_init step demo_server.
Proof.
  apply (do_steps_reachable demo_labels (new_server 1 2)); [apply reach_init; by exists 1%nat, 2%nat |]. vm_compute. reflexivity.
Qed.

Lemma each_request_answered_once_witness :
  sv_sent demo_server = [(3, Busy503); (4, NotFound404)] ∧ NoDup (sv_sent demo_server).*1 ∧ length (busy (sv_exec demo_server)) = 1%nat.
Proof.
  split; [vm_compute; reflexivity |].
  destruct (each_request_answered_once demo_server demo_server_reachable) as (_ & _ & Hnd & _).
  split; [exact Hnd | vm_compute; reflexivity].
Defined.


(** The rest of the shutdown, without the thread of the connections. *)
Definition demo_stopped : server := default demo_server (do_steps [Count 1; Take; Run 2 true; Count 2; Take] demo_server).

Lemma shutdown_drops_posted_answers_witness :
  ∃ s', step demo_stopped StopIo s' ∧ ∀ s'', reachable (λ x, x = s') step s'' →
    sv_conns s'' !! 1 = Some (Conn true (Ready (PostRoute UserLogin) Ok200)) ∧ 1 ∉ (sv_sent s'').*1.
Proof.
  apply (shutdown_drops_posted_answers demo_stopped 1 (PostRoute UserLogin) Ok200).
  - apply (do_steps_reachable [Count 1; Take; Run 2 true; Count 2; Take] demo_server); [apply demo_server_reachable |].
    vm_compute. reflexivity.
  - vm_compute. reflexivity.
  - vm_compute. reflexivity.
  - vm_compute. reflexivity.
Defined.
