(* ===== verification/BlobFrames.v ===== *)
(** * Uploads leave blobs and published messages alone

    A frame for the requests of the upload worker that needs no invariant of
    its sessions: whatever a request does, the files under blobs/ that exist
    when it starts keep their inode and their bytes, and the tables keep what
    they say of published messages. The rules follow the monads of the code,
    so one pass over a handler proves it. *)

From S2P Require Import Prelude ResourceWire ProtocolIds JsonFields Sha256 UploadFile Database ResourceDb TxLogic FileWorker FileWorkerProofs.

(** ** Published messages *)

(** What a download uses of a message: sender, recipient, type and resource. *)
Record published_facts := Facts { pf_sender : Z; pf_recipient : Z; pf_type : Z; pf_resource : res_row }.

Definition published_as (b : db) (mid : Z) (f : published_facts) : Prop :=
  ∃ m, chat_messages b !! mid = Some m ∧ m_status m = Published ∧ m_sender m = pf_sender f ∧ m_type m = pf_type f ∧
    recipient_of b m = Some (pf_recipient f) ∧ message_resources b !! mid = Some (pf_resource f).

Definition facts_kept (b b' : db) : Prop := ∀ mid f, published_as b mid f → published_as b' mid f.

#[global] Instance facts_kept_preorder : PreOrder facts_kept.
Proof. split; [by intros b mid f | intros b1 b2 b3 H1 H2 mid f Hf; by apply H2, H1]. Qed.

Lemma status_facts b b' mid m st :
  chat_messages b !! mid = Some m → m_status m ≠ Published →
  chat_messages b' = <[mid := with_status m st]> (chat_messages b) →
  private_chats b' = private_chats b → message_resources b' = message_resources b → facts_kept b b'.
Proof.
  intros Hm Hst Em Ec Er n f (x & Hx & Hs & H1 & H2 & H3 & H4).
  exists x. rewrite Em, Er. unfold recipient_of in *. rewrite Ec.
  rewrite lookup_insert_ne by congruence. done.
Qed.

Lemma update_status_facts mid new b : facts_kept b (update_status mid new Pending b).2.
Proof.
  unfold update_status. destruct (chat_messages b !! mid) as [m |] eqn:Hm; [| done].
  case_decide as Hs; [| done]. by apply (status_facts _ _ mid m new); [| congruence | ..].
Qed.

Lemma publish_facts mid sender b t r b' t' :
  ResourceDb.CompleteResourceUpload mid sender b t = (r, b', t') → facts_kept b b'.
Proof.
  destruct r as [rc seq]. intros [(-> & _) | (_ & m & r & u & (Hm & _) & Hst & Hu & -> & _)]%CompleteResourceUpload_spec; [done |].
  unfold publish_effect, append_event. cbn. rewrite Hu.
  by apply (status_facts _ _ mid m Published); [| congruence | ..].
Qed.

Lemma failed_facts mid b t r b' t' : MarkResourceFailed mid b t = (r, b', t') → facts_kept b b'.
Proof.
  unfold MarkResourceFailed, with_connection, catch, mbind, Tx_bind, mret, Tx_ret, exec_auto.
  pose proof (update_status_facts mid Failed b) as Hf. destruct (update_status mid Failed Pending b) as [a b1]. cbn in *.
  destruct (tape_next t) as [[| n] t1]; [| by intros [= <- <- <-]].
  destruct (tape_next t1) as [[| n] t2]; [by intros [= <- <- <-] |]. case_decide; by intros [= <- <- <-].
Qed.

(** ** Rules for file operations *)

(** From [d], whatever fails, the operation ends in [Q]. *)
Definition io_wp {A} (m : IO A) (Q : A → disk → Prop) (d : disk) : Prop :=
  ∀ t, Q (m d t).1.1 (m d t).1.2.

Lemma io_wp_run {A} (m : IO A) Q d t a d' t' : io_wp m Q d → m d t = (a, d', t') → Q a d'.
Proof. intros Hm E. specialize (Hm t). by rewrite E in Hm. Qed.

Lemma io_wp_spec {A} (m : IO A) (Q : A → disk → Prop) d :
  (∀ t a d' t', m d t = (a, d', t') → Q a d') → io_wp m Q d.
Proof. intros Hm t. destruct (m d t) as [[a d'] t'] eqn:E. by eapply Hm. Qed.

Lemma io_wp_ret {A} (a : A) (Q : A → disk → Prop) d : Q a d → io_wp (mret a) Q d.
Proof. by intros Hq t. Qed.

Lemma io_wp_bind {A B} (m : IO A) (k : A → IO B) Q d :
  io_wp m (λ a, io_wp (k a) Q) d → io_wp (m ≫= k) Q d.
Proof.
  intros Hm t. specialize (Hm t). unfold mbind, IO_bind. destruct (m d t) as [[a d'] t']. apply Hm.
Qed.

Lemma io_wp_get (Q : disk → disk → Prop) d : Q d d → io_wp get Q d.
Proof. by intros Hq t. Qed.

Lemma io_wp_put d1 (Q : unit → disk → Prop) d : Q tt d1 → io_wp (put d1) Q d.
Proof. by intros Hq t. Qed.

Lemma io_wp_syscall (Q : io_outcome → disk → Prop) d : (∀ o, Q o d) → io_wp syscall Q d.
Proof. intros Hq t. unfold syscall. by destruct (tape_next t). Qed.

Lemma io_wp_with_tape {A} (f : tape → A * tape) (Q : A → disk → Prop) d : (∀ a, Q a d) → io_wp (with_tape f) Q d.
Proof. intros Hq t. unfold with_tape. by destruct (f t). Qed.

Lemma io_wp_mono {A} (m : IO A) (Q Q' : A → disk → Prop) d :
  (∀ a d', Q a d' → Q' a d') → io_wp m Q d → io_wp m Q' d.
Proof. intros Hq Hm t. by apply Hq. Qed.

(** One step; branches are followed, the steps of known operations are left. *)
Ltac io_step :=
  lazymatch goal with
  | |- io_wp (mret _) _ _ => apply io_wp_ret
  | |- io_wp (_ ≫= _) _ _ => apply io_wp_bind
  | |- io_wp get _ _ => apply io_wp_get
  | |- io_wp (put _) _ _ => apply io_wp_put
  | |- io_wp syscall _ _ => apply io_wp_syscall; intros ?
  | |- io_wp (with_tape _) _ _ => apply io_wp_with_tape; intros ?
  | |- io_wp (if decide _ then _ else _) _ _ => case_decide
  | |- io_wp (match ?x with _ => _ end) _ _ => destruct x eqn:?
  end.

(** ** Blobs *)

Section frames.
Context `{Sha256Lib} (root : path).
Abbreviation Part := (UploadingPartPath root).
Abbreviation Blob := (BlobPathOf root).

Definition blob_inode (d : disk) (i : nat) : Prop := ∃ sha, names d !! Blob sha = Some i.

(** The blobs of [d0] are in [d], and no partial file shares an inode with one. *)
Definition shielded (d0 d : disk) : Prop :=
  (∀ sha i, names d0 !! Blob sha = Some i → names d !! Blob sha = Some i) ∧
  (∀ i, blob_inode d0 i → is_Some (inodes d0 !! i) ∧ inodes d !! i = inodes d0 !! i) ∧
  (∀ mid i, names d !! Part mid = Some i → ¬ blob_inode d0 i).

Lemma shielded_start d : disk_wf d → parts_private root d → shielded d d.
Proof.
  intros Hw Hp. split; [done |]. split.
  - intros i [sha Hi]. split; [| done]. exact (Hw _ _ Hi).
  - intros mid i Hi [sha Hs]. apply (Hp mid (Blob sha)); [apply not_eq_sym, part_blob_ne |]. by exists i.
Qed.

Lemma shielded_same d0 d d' : names d' = names d → inodes d' = inodes d → shielded d0 d → shielded d0 d'.
Proof. unfold shielded. by intros -> ->. Qed.

Lemma shielded_set_bytes d0 d mid i f :
  names d !! Part mid = Some i → shielded d0 d → shielded d0 (set_bytes d i f).
Proof.
  intros Hi (Hn & Hb & Hp). split; [done |]. split; [| done].
  intros j Hj. destruct (Hb j Hj) as [? E]. split; [done |]. cbn. rewrite lookup_insert_ne; [done |].
  intros ->. by apply (Hp mid j).
Qed.

Lemma shielded_fresh d0 d j : shielded d0 d → inodes d !! j = None → ¬ blob_inode d0 j.
Proof. intros (_ & Hb & _) Hj Hi. destruct (Hb j Hi) as [[x Hx] E]. congruence. Qed.

(** A name that is not a blob's gets an inode that is not a blob's. *)
Lemma shielded_add_name d0 d mid i :
  ¬ blob_inode d0 i → shielded d0 d → shielded d0 (add_name d (Part mid) i).
Proof.
  intros Hi (Hn & Hb & Hp). split; [| split; [done |]]; cbn.
  - intros sha j Hj. rewrite lookup_insert_ne by apply part_blob_ne. by apply Hn.
  - intros n j. destruct (decide (Part n = Part mid)) as [-> |].
    + rewrite lookup_insert_eq. by intros [= <-].
    + rewrite lookup_insert_ne by done. apply Hp.
Qed.

Lemma shielded_create d0 d mid :
  names d !! Part mid = None → shielded d0 d → shielded d0 (create_file d (Part mid)).
Proof.
  intros Hn Hs. set (i := fresh (dom (inodes d))).
  assert (Hi : inodes d !! i = None) by apply not_elem_of_dom, is_fresh.
  unfold create_file. fold i. apply shielded_add_name; [by eapply shielded_fresh |].
  destruct Hs as (Hs1 & Hs2 & Hs3). split; [done |]. split; [| done].
  intros j Hj. destruct (Hs2 j Hj) as [? E]. split; [done |]. cbn. rewrite lookup_insert_ne; [done |].
  intros <-. by apply (shielded_fresh d0 d i).
Qed.

(** A new blob out of a partial file. *)
Lemma shielded_link d0 d sha i :
  names d !! Blob sha = None → shielded d0 d → shielded d0 (add_name d (Blob sha) i).
Proof.
  intros Hf (Hn & Hb & Hp). split; [| split; [done |]]; cbn.
  - intros s j Hj. rewrite lookup_insert_ne; [by apply Hn |]. intros E. rewrite <- E in Hj.
    apply Hn in Hj. congruence.
  - intros n j. rewrite lookup_insert_ne by apply not_eq_sym, part_blob_ne. apply Hp.
Qed.

Lemma shielded_del_part d0 d mid : shielded d0 d → shielded d0 (del_name d (Part mid)).
Proof.
  intros (Hn & Hb & Hp). split; [| split; [done |]]; cbn.
  - intros s j Hj. rewrite lookup_delete_ne by apply part_blob_ne. by apply Hn.
  - intros n j [_ Hj]%lookup_delete_Some. by apply (Hp n).
Qed.

(** *** File operations *)

(** An operation that keeps the blobs of [d0]. *)
Definition io_shields {A} (m : IO A) : Prop := ∀ d0 d, shielded d0 d → io_wp m (λ _, shielded d0) d.

Lemma io_shields_same {A} (m : IO A) :
  (∀ d t a d' t', m d t = (a, d', t') → names d' = names d ∧ inodes d' = inodes d) → io_shields m.
Proof. intros Hm d0 d Hs. apply io_wp_spec. intros t a d' t' [? ?]%Hm. by apply (shielded_same d0 d). Qed.

Lemma ReadLength_shields p : io_shields (ReadLength p).
Proof. intros d0 d Hs. unfold ReadLength. by repeat io_step. Qed.

Lemma HashRange_shields p off len : io_shields (HashRange p off len).
Proof. intros d0 d Hs. unfold HashRange. by repeat io_step. Qed.

Lemma hash_file_shields p : io_shields (hash_file p).
Proof. intros d0 d Hs. unfold hash_file. by repeat io_step. Qed.

Lemma file_size_shields p : io_shields (file_size p).
Proof. intros d0 d Hs. unfold file_size. by repeat io_step. Qed.

Lemma read_section_shields p off len : io_shields (read_section p off len).
Proof. intros d0 d Hs. unfold read_section. by repeat io_step. Qed.

Lemma with_tape_shields {A} (f : tape → A * tape) : io_shields (with_tape f).
Proof. intros d0 d Hs. by io_step. Qed.

Lemma FlushFileToDisk_shields p : io_shields (FlushFileToDisk p).
Proof.
  apply io_shields_same. intros d t b d' t' Hr. apply FlushFileToDisk_spec in Hr.
  destruct b; [by destruct Hr as (i & _ & ->) | by subst].
Qed.

Lemma create_directories_shields p : io_shields (create_directories p).
Proof.
  apply io_shields_same. intros d t b d' t' Hr. by apply create_directories_spec in Hr.
Qed.

Lemma EnsureDirectoryDurable_shields p : io_shields (EnsureDirectoryDurable p).
Proof.
  apply io_shields_same. intros d t b d' t' Hr. by apply EnsureDirectoryDurable_spec in Hr as ((? & ? & _) & _).
Qed.

Lemma ok_name {A} (o : io_outcome) (x : option A) i : (if io_ok o then x else None) = Some i → x = Some i.
Proof. by destruct (io_ok o). Qed.

Lemma write_and_read_back_shields mid i off data d0 d :
  names d !! Part mid = Some i → shielded d0 d →
  io_wp (write_and_read_back (Part mid) i off data) (λ _, shielded d0) d.
Proof.
  intros Hi Hs. unfold write_and_read_back.
  repeat io_step; by eapply shielded_set_bytes.
Qed.

Lemma WriteAndVerify_shields mid off data : io_shields (WriteAndVerify (Part mid) off data).
Proof.
  intros d0 d Hs. unfold WriteAndVerify. do 4 io_step. io_step.
  { apply write_and_read_back_shields; [by eapply ok_name | done]. }
  io_step; [by io_step |]. do 4 io_step. io_step; [by io_step |]. io_step.
  apply (io_wp_mono _ (λ _, shielded d0)).
  - intros _ d' Hd'. do 4 io_step. io_step; [| by io_step].
    apply write_and_read_back_shields; [by eapply ok_name | done].
  - destruct (names d !! Part mid) eqn:En; io_step; [done |]. by apply shielded_create.
Qed.

Lemma TruncateUploadFile_shields mid r : io_shields (TruncateUploadFile (Part mid) r).
Proof.
  intros d0 d Hs. unfold TruncateUploadFile. io_step. eapply io_wp_mono; [| by apply ReadLength_shields].
  intros l d' Hs'. repeat io_step; try done. eapply shielded_set_bytes; [by eapply ok_name | done].
Qed.

Lemma RecoverUploadFile_shields mid total chunk : io_shields (RecoverUploadFile (Part mid) total chunk).
Proof.
  intros d0 d Hs. unfold RecoverUploadFile. io_step; [by io_step |].
  io_step. eapply io_wp_mono; [| by apply ReadLength_shields]. intros l d' Hs'. io_step; [| by io_step].
  io_step. eapply io_wp_mono; [| by apply TruncateUploadFile_shields]. intros b d2 Hs2. by io_step.
Qed.

(** A known operation first. *)
Ltac io_call L :=
  io_step; eapply io_wp_mono; [| by apply L]; let Hs := fresh "Hs" in intros ? ? Hs; cbv beta in Hs.

Lemma WriteUploadChunk_shields mid total chunk off data sha r :
  io_shields (WriteUploadChunk (Part mid) total chunk off data sha r).
Proof.
  intros d0 d Hs. unfold WriteUploadChunk.
  io_step; [by io_step |]. cbv zeta. do 4 (io_step; [by io_step |]). io_step.
  apply (io_wp_mono _ (λ _, shielded d0)); [| by repeat io_step].
  intros ok d1 Hs1. io_step; [by io_step |]. io_step.
  - io_call HashRange_shields. do 2 (io_step; [by io_step |]).
    io_call TruncateUploadFile_shields. by repeat io_step.
  - io_step. apply (io_wp_mono _ (λ _, shielded d0)).
    + intros made d2 Hs2. io_step; [by io_step |]. io_call WriteAndVerify_shields. io_step; [| by io_step].
      io_call TruncateUploadFile_shields. by io_step.
    + io_step; [by io_step | by apply create_directories_shields].
Qed.

Lemma sync_parents_shields from to : io_shields (sync_parents from to).
Proof.
  apply io_shields_same. intros d t b d' t' Hr. by apply sync_parents_spec in Hr as ((? & ? & _) & _).
Qed.

(** Installing a partial file as a blob; an existing blob stays. *)
Lemma DurableRename_shields mid sha : io_shields (DurableRename (Part mid) (Blob sha) false true).
Proof.
  intros d0 d Hs. unfold DurableRename. io_call EnsureDirectoryDurable_shields. io_step; [by io_step |].
  cbn [negb]. do 4 io_step. io_step; [by io_step |]. io_step; [by repeat io_step |].
  io_step; [| by io_step]. match goal with E : _ || _ = false |- _ => apply orb_false_elim in E as [E%bool_decide_eq_false _] end.
  do 2 io_step. match goal with |- io_wp _ _ ?d => assert (Hl : shielded d0 d) end.
  { apply shielded_link; [by apply eq_None_not_Some | done]. }
  do 2 io_step. io_step; [by io_step |]. do 4 io_step.
  assert (Hd : shielded d0 (del_name (add_name d' (Blob sha) n) (Part mid))) by by apply shielded_del_part.
  io_call sync_parents_shields. by io_step.
Qed.

Lemma remove_shields mid : io_shields (remove (Part mid)).
Proof.
  intros d0 d Hs. unfold remove. do 4 io_step. io_step; [by io_step |]. io_step.
  - repeat io_step. by apply shielded_del_part.
  - by repeat io_step.
Qed.

Lemma copy_file_shields from mid : io_shields (copy_file from (Part mid)).
Proof.
  intros d0 d Hs. unfold copy_file. do 4 io_step. io_step; [| by io_step]. io_step; [by io_step |].
  match goal with E : _ || _ || _ = false |- _ => apply orb_false_elim in E as [[E%bool_decide_eq_false _]%orb_false_elim _] end.
  cbv zeta. assert (Hn : names d !! Part mid = None) by by apply eq_None_not_Some.
  assert (Hc : ∀ f, shielded d0 (set_bytes (create_file d (Part mid)) (fresh (dom (inodes d))) f)).
  { intros f. apply (shielded_set_bytes d0 _ mid); [cbn; by rewrite lookup_insert_eq | by apply shielded_create]. }
  repeat io_step; apply Hc.
Qed.

(** *** Requests *)

(** The worker's two writing operations keep a property of the tables. *)
Context (I : db → Prop)
  (I_publish : ∀ mid sender b t r b' t', ResourceDb.CompleteResourceUpload mid sender b t = (r, b', t') → I b → I b')
  (I_failed : ∀ mid b t r b' t', MarkResourceFailed mid b t = (r, b', t') → I b → I b').

#[local] Set Default Proof Using "Type*".

Definition safe (d0 : disk) (w : worker) : Prop := shielded d0 (w_disk w) ∧ I (w_db w).

(** A handler that keeps the blobs and the property. *)
Definition w_safe {A} (m : W A) : Prop :=
  ∀ d0 w t a w' t', m w t = (a, w', t') → safe d0 w → safe d0 w'.

Lemma w_safe_ret {A} (a : A) : w_safe (mret a).
Proof. by intros d0 w t ? ? ? [= <- <- <-]. Qed.

Lemma w_safe_bind {A B} (m : W A) (k : A → W B) : w_safe m → (∀ a, w_safe (k a)) → w_safe (m ≫= k).
Proof.
  intros Hm Hk d0 w t b w2 t2 Hr Hs. apply W_bind_inv in Hr as (a & w1 & t1 & H1 & H2).
  by eapply Hk, Hm.
Qed.

Lemma w_safe_io {A} (m : IO A) : io_shields m → w_safe (io m).
Proof.
  intros Hm d0 w t a w' t' Hr [Hs Hf]. apply io_inv in Hr as (d' & Hr & ->).
  split; [| done]. by eapply (io_wp_run m (λ _, shielded d0)) in Hr; [| apply Hm].
Qed.

Lemma w_safe_dao {A} (m : Dao A) :
  (∀ b t a b' t', m b t = (a, b', t') → I b → I b') → w_safe (dao m).
Proof.
  intros Hm d0 w t a w' t' Hr [Hs Hf]. apply dao_inv in Hr as (b' & Hr & ->).
  split; [done |]. by eapply Hm.
Qed.

(** The connections, the sessions and the notices are no part of it. *)
Lemma w_safe_frame {A} (m : W A) :
  (∀ w t, w_disk (m w t).1.2 = w_disk w ∧ w_db (m w t).1.2 = w_db w) → w_safe m.
Proof.
  intros Hm d0 w t a w' t' Hr [Hs Hf]. destruct (Hm w t) as [E1 E2]. rewrite Hr in E1, E2. cbn in E1, E2.
  unfold safe. by rewrite E1, E2.
Qed.

Lemma send_safe conn ty j : w_safe (send conn ty j).
Proof. by apply w_safe_frame. Qed.
Lemma notify_safe mid ty r : w_safe (notify mid ty r).
Proof. by apply w_safe_frame. Qed.
Lemma update_sessions_safe f : w_safe (update_sessions f).
Proof. by apply w_safe_frame. Qed.
Lemma FindUploadSession_safe now mid : w_safe (FindUploadSession now mid).
Proof. apply w_safe_frame. intros w t. unfold FindUploadSession. by destruct (upload_sessions w !! mid). Qed.
Lemma peek_session_safe mid : w_safe (λ w t, (upload_sessions w !! mid, w, t)).
Proof. by apply w_safe_frame. Qed.

Lemma get_message_safe mid : w_safe (dao (GetChatMsgById mid)).
Proof. apply w_safe_dao. by intros b t r b' t' [-> _]%GetChatMsgById_spec. Qed.
Lemma publish_safe mid sender : w_safe (dao (ResourceDb.CompleteResourceUpload mid sender)).
Proof. apply w_safe_dao, I_publish. Qed.
Lemma mark_failed_safe mid : w_safe (dao (MarkResourceFailed mid)).
Proof. apply w_safe_dao, I_failed. Qed.
Lemma has_content_safe sender sha size : w_safe (dao (SenderHasPublishedContent sender sha size)).
Proof. apply w_safe_dao. by intros b t r b' t' [-> _]%SenderHasPublishedContent_spec. Qed.

#[local] Hint Resolve w_safe_ret send_safe notify_safe update_sessions_safe FindUploadSession_safe peek_session_safe
  get_message_safe publish_safe mark_failed_safe has_content_safe : w_safe.
#[local] Hint Resolve ReadLength_shields HashRange_shields hash_file_shields file_size_shields read_section_shields
  @with_tape_shields FlushFileToDisk_shields create_directories_shields EnsureDirectoryDurable_shields
  RecoverUploadFile_shields WriteUploadChunk_shields DurableRename_shields remove_shields copy_file_shields : w_safe.

(** Through a handler: its branches, then the operations it calls. *)
Ltac w_walk :=
  repeat (cbv zeta;
    lazymatch goal with
    | |- w_safe (_ ≫= _) => apply w_safe_bind; [| intros ?]
    | |- w_safe (io _) => apply w_safe_io
    | |- w_safe (match ?x with _ => _ end) => destruct x
    | |- _ => solve [auto with w_safe | eapply update_sessions_safe]
    end).

Lemma restore_part_safe mid s : w_safe (restore_part root mid s).
Proof. unfold restore_part. w_walk. Qed.
#[local] Hint Resolve restore_part_safe : w_safe.

Lemma install_blob_safe mid s : w_safe (install_blob root mid s).
Proof. unfold install_blob. w_walk. Qed.
#[local] Hint Resolve install_blob_safe : w_safe.

Lemma publish_section_safe conn mid offset s : w_safe (publish_section root conn mid offset s).
Proof. unfold publish_section. w_walk. Qed.
#[local] Hint Resolve publish_section_safe : w_safe.

Lemma hash_mismatch_safe conn mid offset s : w_safe (hash_mismatch root conn mid offset s).
Proof. unfold hash_mismatch. w_walk. Qed.
#[local] Hint Resolve hash_mismatch_safe : w_safe.

Lemma CompleteResourceUpload_safe conn mid offset s : w_safe (CompleteResourceUpload root conn mid offset s).
Proof. unfold CompleteResourceUpload, whole_hash. w_walk. Qed.
#[local] Hint Resolve CompleteResourceUpload_safe : w_safe.

Lemma LoadUploadSession_safe now mid c : w_safe (LoadUploadSession root now mid c).
Proof. unfold LoadUploadSession. w_walk. Qed.
#[local] Hint Resolve LoadUploadSession_safe : w_safe.

Lemma open_session_safe now conn uid mid offset : w_safe (open_session root now conn uid mid offset).
Proof. unfold open_session. w_walk. Qed.
#[local] Hint Resolve open_session_safe : w_safe.

Lemma HandleResourceChunk_safe now conn uid mid offset op sha data :
  w_safe (HandleResourceChunk root now conn uid mid offset op sha data).
Proof. unfold HandleResourceChunk, write_chunk. w_walk. Qed.

Lemma HandleInstantProof_safe now conn uid mid proof : w_safe (HandleInstantProof root now conn uid mid proof).
Proof. unfold HandleInstantProof, proof_section, RemoveStubPart. w_walk. Qed.

Lemma UploadProgress_safe entropy now conn uid mid : w_safe (UploadProgress root entropy now conn uid mid).
Proof. unfold UploadProgress, pending_progress, instant_hit. w_walk. Qed.

Lemma serve_safe r : w_safe (serve root r).
Proof. destruct r; [apply HandleResourceChunk_safe | apply HandleInstantProof_safe | apply UploadProgress_safe]. Qed.

(** A request to a worker whose partial files have no second names. *)
Lemma serve_keeps_blobs r w t u w' t' :
  disk_wf (w_disk w) → parts_private root (w_disk w) → I (w_db w) → serve root r w t = (u, w', t') →
  (∀ sha i f, names (w_disk w) !! Blob sha = Some i → inodes (w_disk w) !! i = Some f →
     names (w_disk w') !! Blob sha = Some i ∧ inodes (w_disk w') !! i = Some f) ∧ I (w_db w').
Proof.
  intros Hw Hp Hi0 Hr. destruct (serve_safe r (w_disk w) w t u w' t' Hr) as [(Hn & Hb & _) Hf].
  - split; [by apply shielded_start | done].
  - split; [| done]. intros sha i f Hi Hf'. split; [by apply Hn |].
    destruct (Hb i) as [_ ->]; [by exists sha | done].
Qed.
End frames.
