(* ===== verification/DownloadWorker.v ===== *)
(** * The download worker (ResourceServer/src/FileWorker.cpp, class DownloadWorker)

    One thread answers the requests 1509 and 1511 of its messages: it decides
    from the message's row, or from what it has cached of it, whether the
    requester may have the file, and reads chunks from the blob through files
    it keeps open. The clock is read once per request; times are
    nanoseconds. *)

From S2P Require Import Prelude ResourceWire ProtocolIds JsonFields Sha256 UploadFile Database ResourceDb FileWorker.

(** ** State *)

(** A connection has one number for all its life: the weak pointer in the
    entry gives it back exactly when the numbers agree. *)
Record PublishedCacheEntry := Entry {
  first_session : Z;
  e_sender : Z;
  e_recipient : Z;
  e_type : Z;
  e_path : path;
  e_size : Z;
  e_sha : bytes;
  e_name : bytes;
  e_mime : bytes;
}.

(** An open file is its inode. *)
Record FileHandleEntry := Handle { h_inode : nat; h_last_used : Z }.

(** The disk and the tables belong to the server; replies are a connection,
    a message type, the JSON and the raw bytes. *)
Record dworker := DWorker {
  dw_disk : disk;
  dw_db : db;
  published_cache : gmap Z PublishedCacheEntry;
  file_handles : gmap Z FileHandleEntry;
  dw_sent : list (Z * Z * json * bytes);
}.

Definition D (A : Type) : Type := dworker → tape → A * dworker * tape.
#[global] Instance D_ret : MRet D := λ A a w t, (a, w, t).
#[global] Instance D_bind : MBind D := λ A B k m w t, let '(a, w', t') := m w t in k a w' t'.

Definition d_io {A} (m : IO A) : D A := λ w t,
  let '(a, d, t') := m (dw_disk w) t in (a, DWorker d (dw_db w) (published_cache w) (file_handles w) (dw_sent w), t').
Definition d_dao {A} (m : Dao A) : D A := λ w t,
  let '(a, b, t') := m (dw_db w) t in (a, DWorker (dw_disk w) b (published_cache w) (file_handles w) (dw_sent w), t').

Definition the_cache : D (gmap Z PublishedCacheEntry) := λ w t, (published_cache w, w, t).
Definition put_cache (c : gmap Z PublishedCacheEntry) : D unit := λ w t,
  (tt, DWorker (dw_disk w) (dw_db w) c (file_handles w) (dw_sent w), t).
Definition the_handles : D (gmap Z FileHandleEntry) := λ w t, (file_handles w, w, t).
Definition put_handles (h : gmap Z FileHandleEntry) : D unit := λ w t,
  (tt, DWorker (dw_disk w) (dw_db w) (published_cache w) h (dw_sent w), t).
Definition d_send (conn ty : Z) (j : json) (raw : bytes) : D unit := λ w t,
  (tt, DWorker (dw_disk w) (dw_db w) (published_cache w) (file_handles w) (dw_sent w ++ [(conn, ty, j, raw)]), t).

Definition kPublishedCacheLimit : nat := 1024.
Definition kFileHandleLimit : nat := 64.
Definition kFileHandleIdle : Z := 60 * kSecond.

Inductive resolved := Authorized (e : PublishedCacheEntry) | Forbidden | NotReady | NotFound | DbError.

Section downloads.
Context `{Sha256Lib} (root : path).

(** ** Authorization *)

Definition with_session (conn : Z) (e : PublishedCacheEntry) : PublishedCacheEntry :=
  Entry conn (e_sender e) (e_recipient e) (e_type e) (e_path e) (e_size e) (e_sha e) (e_name e) (e_mime e).

Definition entry_of (conn : Z) (m : ChatMessage) : PublishedCacheEntry :=
  let res := resource m in
  Entry conn (sender_user_id m) (recipient_user_id m) (message_type m) (BlobPathOf root (r_sha res))
    (r_size res) (r_sha res) (r_name res) (r_mime res).

Definition ResolvePublished (conn mid uid : Z) : D resolved :=
  cache ← the_cache;
  match cache !! mid with
  | Some entry =>
      if first_session entry =? conn then mret (Authorized entry)
      else if negb (uid =? 0) && ((uid =? e_sender entry) || (uid =? e_recipient entry)) then
        put_cache (<[mid := with_session conn entry]> cache);;
        mret (Authorized (with_session conn entry))
      else mret Forbidden
  | None =>
      lookup ← d_dao (GetChatMsgById mid);
      match lookup with
      | LkNotFound => mret NotFound
      | LkTransient => mret DbError
      | LkFound msg =>
          if (uid =? 0) || (negb (uid =? sender_user_id msg) && negb (uid =? recipient_user_id msg)) then mret Forbidden
          else if negb (bool_decide (status msg = Published)) then mret NotReady
          else
            let cache := if (kPublishedCacheLimit <=? size cache)%nat then ∅ else cache in
            put_cache (<[mid := entry_of conn msg]> cache);;
            mret (Authorized (entry_of conn msg))
      end
  end.

(** The code of a refusal. *)
Definition refusal (r : resolved) : Z :=
  match r with
  | Authorized _ => ok_code
  | Forbidden => rs RS_RESOURCE_FORBIDDEN
  | NotReady => rs RS_RESOURCE_NOT_READY
  | NotFound => rs RS_MSG_ID_ERR
  | DbError => rpc_failed
  end.

(** ** Request 1509 *)

Definition info_error (mid error : Z) : json := JObject [(§ "error", jint error); (§ "message_id", jtext mid)].

Definition info_reply (mid : Z) (e : PublishedCacheEntry) : json :=
  JObject [(§ "error", jint ok_code); (§ "message_id", jtext mid); (§ "original_file_name", JString (e_name e));
           (§ "file_size_bytes", jtext (e_size e)); (§ "sha256", JString (e_sha e)); (§ "mime_type", JString (e_mime e));
           (§ "message_type", jint (e_type e)); (§ "status", jint (st Published))].

(** [exists(path, ec)] without an error. *)
Definition file_exists (p : path) : IO bool :=
  o ← syscall;
  d ← get;
  mret (io_ok o && (bool_decide (is_Some (names d !! p)) || bool_decide (p ∈ dirs d))).

Definition HandleResourceDownInfo (conn uid mid : Z) : D unit :=
  let respond j := d_send conn (MsgId_code MSG_RESOURCE_DOWN_INFO_RSP) j [] in
  r ← ResolvePublished conn mid uid;
  match r with
  | Authorized e =>
      there ← d_io (file_exists (e_path e));
      if negb there then respond (info_error mid (rs RS_FILE_NOT_EXISTS)) else respond (info_reply mid e)
  | _ => respond (info_error mid (refusal r))
  end.

(** ** Request 1511 *)

Definition chunk_down_reply (mid offset error bytes_read : Z) (chunk_hash : bytes) (is_last : bool) (total : Z) : json :=
  JObject ([(§ "error", jint error); (§ "message_id", jtext mid); (§ "offset", jtext offset); (§ "bytes", jtext bytes_read)] ++
           (if bool_decide (chunk_hash = []) then [] else [(§ "chunk_sha256", JString chunk_hash)]) ++
           [(§ "total_size", jtext total); (§ "is_last", JBool is_last)]).

Definition EvictIdleFileHandles (now : Z) : D unit :=
  hs ← the_handles; put_handles (filter (λ p, now - h_last_used p.2 <= kFileHandleIdle) hs).

(** The order of the hash table decides between handles used at the same time. *)
Variable handle_order : gmap Z FileHandleEntry → list (Z * FileHandleEntry).

(** The handle that has not been used for the longest time, the one of [mid]
    excepted. *)
Fixpoint oldest (mid : Z) (l : list (Z * FileHandleEntry)) (victim : option (Z * FileHandleEntry)) : option (Z * FileHandleEntry) :=
  match l with
  | [] => victim
  | (i, h) :: l =>
      let better := match victim with None => true | Some (_, v) => h_last_used h <? h_last_used v end in
      oldest mid l (if negb (i =? mid) && better then Some (i, h) else victim)
  end.

Definition drop_oldest (mid : Z) (hs : gmap Z FileHandleEntry) : gmap Z FileHandleEntry :=
  if (kFileHandleLimit <? size hs)%nat then
    match oldest mid (handle_order hs) None with
    | Some (victim, _) => delete victim hs
    | None => hs
    end
  else hs.

(** The file of a message: open already, or opened now. *)
Definition open_handle (now mid : Z) (p : path) : D (option nat) :=
  EvictIdleFileHandles now;;
  hs ← the_handles;
  match hs !! mid with
  | Some h => put_handles (<[mid := Handle (h_inode h) now]> hs);; mret (Some (h_inode h))
  | None =>
      inode ← d_io (o ← syscall; d ← get; mret (if io_ok o then names d !! p else None));
      match inode with
      | None => mret None
      | Some i => put_handles (drop_oldest mid (<[mid := Handle i now]> hs));; mret (Some i)
      end
  end.

(** Reading from an open file. *)
Definition read_inode (i : nat) (offset len : Z) : IO bytes :=
  d ← get; r ← syscall; mret (read_range (default [] (inodes d !! i)) offset len r).

Definition HandleResourceChunkDown (now conn uid mid task_offset : Z) : D unit :=
  let respond error raw n hash is_last total :=
    d_send conn (MsgId_code MSG_RESOURCE_CHUNK_DOWN_RSP) (chunk_down_reply mid task_offset error n hash is_last total) raw in
  let fail error total := respond error [] 0 [] false total in
  r ← ResolvePublished conn mid uid;
  match r with
  | Authorized e =>
      let total := e_size e in
      let offset := u64 task_offset in
      if total <=? offset then fail (rs RS_FILE_OFFSET_INVALID) total
      else
        handle ← open_handle now mid (e_path e);
        match handle with
        | None => fail (rs RS_FILE_NOT_EXISTS) total
        | Some i =>
            let want := Z.min kUploadChunkSize (total - offset) in
            buf ← d_io (read_inode i offset want);
            if negb (zlen buf =? want) then
              hs ← the_handles;
              put_handles (delete mid hs);;
              fail (rs RS_FILE_READ_FAILED) total
            else
              hash ← d_io (with_tape (Sha256Hex buf));
              respond ok_code buf (zlen buf) hash (total <=? offset + zlen buf) total
        end
  | _ => fail (refusal r) 0
  end.
End downloads.
