(* ===== verification/DownloadProofs.v ===== *)
(** * What the download worker hands out

    A worker in order has in its cache only authorizations that were given to
    a connection when it was logged in as sender or recipient of a published
    message, and its open files are the blobs of published messages. Every
    request keeps that, and its one reply is an error without bytes or a
    section of the file whose digest the message declares. *)

From S2P Require Import Prelude ResourceWire ProtocolIds JsonFields Sha256 UploadFile Database ResourceDb FileWorker FileWorkerProofs BlobFrames DownloadWorker.

Lemma D_bind_inv {A B} (m : D A) (k : A → D B) w t b w2 t2 :
  (m ≫= k) w t = (b, w2, t2) → ∃ a w1 t1, m w t = (a, w1, t1) ∧ k a w1 t1 = (b, w2, t2).
Proof. unfold mbind, D_bind. destruct (m w t) as [[a w1] t1] eqn:E. intros Hk. by exists a, w1, t1. Qed.

Ltac dbind H a w1 t1 H1 := apply D_bind_inv in H as (a & w1 & t1 & H1 & H).
Ltac dret H := unfold mret, D_ret in H; simplify_eq.

(** The cache, the open files and the replies are the worker's own. *)
Definition d_same (w w' : dworker) : Prop := dw_disk w' = dw_disk w ∧ dw_db w' = dw_db w.

Lemma d_io_inv {A} (m : IO A) w t a w' t' :
  (∀ d t a d' t', m d t = (a, d', t') → d' = d) → d_io m w t = (a, w', t') → w' = w ∧ m (dw_disk w) t = (a, dw_disk w, t').
Proof.
  intros Hm. unfold d_io. destruct (m (dw_disk w) t) as [[a0 d] t0] eqn:E. intros [= <- <- <-].
  pose proof (Hm _ _ _ _ _ E) as ->. by destruct w.
Qed.

Section proofs.
Context `{Sha256Lib} (root : path) (handle_order : gmap Z FileHandleEntry → list (Z * FileHandleEntry)).
Abbreviation Blob := (BlobPathOf root).

(** [seen conn uid]: the connection has been logged in as that user. *)
Context (seen : Z → Z → Prop).

Definition member (f : published_facts) (uid : Z) : Prop := uid ≠ 0 ∧ (uid = pf_sender f ∨ uid = pf_recipient f).

Definition entry_from (conn : Z) (f : published_facts) : PublishedCacheEntry :=
  let res := pf_resource f in
  Entry conn (pf_sender f) (pf_recipient f) (pf_type f) (Blob (r_sha res)) (r_size res) (r_sha res) (r_name res) (r_mime res).

(** [conn] may have the file of message [mid]. *)
Definition may_read (b : db) (conn mid : Z) (f : published_facts) : Prop :=
  published_as b mid f ∧ ∃ uid, seen conn uid ∧ member f uid.

Definition cache_ok (b : db) (c : gmap Z PublishedCacheEntry) : Prop :=
  ∀ mid e, c !! mid = Some e → ∃ f, may_read b (first_session e) mid f ∧ e = entry_from (first_session e) f.

Definition handles_ok (d : disk) (b : db) (hs : gmap Z FileHandleEntry) : Prop :=
  ∀ mid h, hs !! mid = Some h → ∃ f, published_as b mid f ∧ names d !! Blob (r_sha (pf_resource f)) = Some (h_inode h).

Definition download_ok (w : dworker) : Prop :=
  cache_ok (dw_db w) (published_cache w) ∧ handles_ok (dw_disk w) (dw_db w) (file_handles w) ∧
  published_backed root (dw_disk w) (dw_db w).

Lemma published_as_unique b mid f g : published_as b mid f → published_as b mid g → f = g.
Proof.
  intros (m & Hm & _ & S1 & T1 & R1 & E1) (m' & Hm' & _ & S2 & T2 & R2 & E2). destruct f, g. cbn in *. simplify_eq. done.
Qed.

Lemma published_message b mid m :
  chat_message_of b mid = Some m → status m = Published →
  published_as b mid (Facts (sender_user_id m) (recipient_user_id m) (message_type m) (resource m)).
Proof.
  intros (r & Hr & He & Hs & Ht & Hst & Hrec & _)%chat_message_of_Some Hp. exists r. cbn. by rewrite <- Hst.
Qed.

(** ** Authorization *)

Lemma ResolvePublished_done conn mid uid w t r w' t' :
  cache_ok (dw_db w) (published_cache w) → seen conn uid → ResolvePublished root conn mid uid w t = (r, w', t') →
  d_same w w' ∧ file_handles w' = file_handles w ∧ dw_sent w' = dw_sent w ∧
  cache_ok (dw_db w') (published_cache w') ∧
  ∀ e, r = Authorized e → ∃ f, may_read (dw_db w) conn mid f ∧ e = entry_from conn f.
Proof.
  intros Hc Hseen Hr. unfold ResolvePublished in Hr. dbind Hr c w1 t1 H1. injection H1 as <- <- <-.
  destruct (published_cache w !! mid) as [e |] eqn:Ec.
  - destruct (Hc mid e Ec) as (f & Hf & He). pose proof Hf as [Hp _].
    destruct (first_session e =? conn) eqn:Ef.
    { apply Z.eqb_eq in Ef as <-. dret Hr. split_and!; try done. intros ? [= <-]. by exists f. }
    destruct (_ && _) eqn:Em; [| by dret Hr].
    dbind Hr u w2 t2 H2. injection H2 as <- <- <-. dret Hr.
    assert (Hw : with_session conn e = entry_from conn f) by (by rewrite He).
    assert (Hm : may_read (dw_db w) conn mid f).
    { split; [done |]. exists uid. split; [done |].
      apply andb_prop in Em as [E1 E2]. rewrite He in E2. cbn in E2. bool_to_prop. split; [done |].
      destruct E2 as [?%Z.eqb_eq | ?%Z.eqb_eq]; auto. }
    split_and!; try done.
    + cbn. intros n x. destruct (decide (n = mid)) as [-> |].
      * rewrite lookup_insert_eq. intros [= <-]. exists f. by rewrite Hw.
      * rewrite lookup_insert_ne by done. apply Hc.
    + intros ? [= <-]. by exists f.
  - dbind Hr lk w1 t1 H1. unfold d_dao in H1.
    destruct (GetChatMsgById mid (dw_db w) t) as [[lk0 b] t0] eqn:Eg. apply GetChatMsgById_spec in Eg as [-> Hlk].
    injection H1 as <- <- <-. assert (Hw : DWorker (dw_disk w) (dw_db w) (published_cache w) (file_handles w) (dw_sent w) = w)
      by by destruct w. rewrite Hw in Hr. clear Hw.
    destruct lk0 as [m | |]; [| by dret Hr ..]. specialize (Hlk m eq_refl).
    destruct (_ || _) eqn:Em; [by dret Hr |].
    destruct (bool_decide (status m = Published)) eqn:Es; cbn [negb] in Hr; [| by dret Hr].
    apply bool_decide_eq_true in Es. pose proof (published_message _ _ _ Hlk Es) as Hp.
    set (f := Facts _ _ _ _) in Hp. cbv zeta in Hr.
    dbind Hr u w2 t2 H2. injection H2 as <- <- <-. dret Hr.
    assert (Hm : may_read (dw_db w) conn mid f).
    { split; [done |]. exists uid. split; [done |]. apply orb_false_elim in Em as [E1 E2]. bool_to_prop. split; [done |].
      destruct E2 as [E2 | E2]; bool_to_prop; auto. }
    split_and!; try done.
    + cbn. intros n x. destruct (decide (n = mid)) as [-> |].
      * rewrite lookup_insert_eq. intros [= <-]. by exists f.
      * rewrite lookup_insert_ne by done. case_match; [by rewrite lookup_empty | apply Hc].
    + intros ? [= <-]. by exists f.
Qed.

(** ** Open files *)

Lemma drop_oldest_sub mid hs : drop_oldest handle_order mid hs ⊆ hs.
Proof.
  unfold drop_oldest. case_match; [| done]. destruct (oldest mid _ None) as [[v ?] |]; [| done]. apply delete_subseteq.
Qed.

Lemma handles_ok_sub d b hs hs' : hs' ⊆ hs → handles_ok d b hs → handles_ok d b hs'.
Proof. intros Hs Hh mid h Hm. apply (Hh mid h). by eapply lookup_weaken. Qed.

Lemma handles_ok_insert d b hs mid f i now :
  published_as b mid f → names d !! Blob (r_sha (pf_resource f)) = Some i → handles_ok d b hs →
  handles_ok d b (<[mid := Handle i now]> hs).
Proof.
  intros Hp Hi Hh n h. destruct (decide (n = mid)) as [-> |].
  - rewrite lookup_insert_eq. intros [= <-]. by exists f.
  - rewrite lookup_insert_ne by done. apply Hh.
Qed.

Lemma open_handle_done now mid f w t r w' t' :
  handles_ok (dw_disk w) (dw_db w) (file_handles w) → published_as (dw_db w) mid f →
  open_handle handle_order now mid (Blob (r_sha (pf_resource f))) w t = (r, w', t') →
  d_same w w' ∧ published_cache w' = published_cache w ∧ dw_sent w' = dw_sent w ∧
  handles_ok (dw_disk w') (dw_db w') (file_handles w') ∧
  ∀ i, r = Some i → names (dw_disk w) !! Blob (r_sha (pf_resource f)) = Some i.
Proof.
  intros Hh Hp Hr. unfold open_handle in Hr.
  dbind Hr u w1 t1 H1. unfold EvictIdleFileHandles in H1. dbind H1 hs0 w0 t0 H0. injection H0 as <- <- <-.
  injection H1 as _ <- <-. dbind Hr hs w2 t2 H2. injection H2 as <- <- <-. cbn [file_handles] in Hr.
  set (hs := filter _ (file_handles w)) in Hr.
  assert (Hhs : handles_ok (dw_disk w) (dw_db w) hs) by (eapply handles_ok_sub, Hh; apply map_filter_subseteq).
  destruct (hs !! mid) as [h |] eqn:Eh.
  - dbind Hr v w3 t3 H3. injection H3 as _ <- <-. dret Hr.
    destruct (Hhs mid h Eh) as (g & Hg & Hi). pose proof (published_as_unique _ _ _ _ Hp Hg) as <-.
    split_and!; try done; [by eapply handles_ok_insert | by intros ? [= <-]].
  - dbind Hr o w3 t3 H3. apply d_io_inv in H3 as [-> H3].
    2: { intros d t0 a d' t0'. unfold mbind, IO_bind, syscall, get, mret, IO_ret.
         destruct (tape_next t0) as [o0 t4]. by intros [= _ <- _]. }
    destruct o as [i |]; [| by dret Hr]. dbind Hr v w4 t4 H4. injection H4 as _ <- <-. dret Hr.
    assert (Hi : names (dw_disk w) !! Blob (r_sha (pf_resource f)) = Some i).
    { revert H3. unfold mbind, IO_bind, syscall, get, mret, IO_ret. cbn [dw_disk].
      destruct (tape_next _) as [o0 t4]. intros [= Hi _]. by eapply ok_name. }
    split_and!; try done; [| by intros ? [= <-]].
    eapply handles_ok_sub; [apply drop_oldest_sub |]. by eapply handles_ok_insert.
Qed.

(** ** Requests *)

(** The reply of request 1511: an error without bytes, or the section of the
    file of a message that this connection may read. *)
Definition chunk_down_outcome (conn mid offset : Z) (d : disk) (b : db) (x : Z * Z * json * bytes) : Prop :=
  (∃ error total, error ≠ 0 ∧
     x = (conn, MsgId_code MSG_RESOURCE_CHUNK_DOWN_RSP, chunk_down_reply mid offset error 0 [] false total, [])) ∨
  ∃ f file hash, let size := r_size (pf_resource f) in let off := u64 offset in
    let n := Z.min kUploadChunkSize (size - off) in
    may_read b conn mid f ∧ content d (Blob (r_sha (pf_resource f))) = Some file ∧ zlen file = size ∧
    ToLowerHex (sha256 file) = r_sha (pf_resource f) ∧ off < size ∧
    (hash = [] ∨ hash = ToLowerHex (sha256 (zslice file off n))) ∧
    x = (conn, MsgId_code MSG_RESOURCE_CHUNK_DOWN_RSP,
         chunk_down_reply mid offset ok_code n hash (size <=? off + n) size, zslice file off n).

(** The reply of request 1509. *)
Definition info_outcome (conn mid : Z) (b : db) (x : Z * Z * json * bytes) : Prop :=
  (∃ error, error ≠ 0 ∧ x = (conn, MsgId_code MSG_RESOURCE_DOWN_INFO_RSP, info_error mid error, [])) ∨
  ∃ f, may_read b conn mid f ∧ x = (conn, MsgId_code MSG_RESOURCE_DOWN_INFO_RSP, info_reply mid (entry_from conn f), []).

Lemma refusal_error r : (∀ e, r ≠ Authorized e) → refusal r ≠ 0.
Proof. destruct r; [by intros Hn; destruct (Hn e) | done ..]. Qed.

Lemma d_send_inv conn ty j raw w t u w' t' :
  d_send conn ty j raw w t = (u, w', t') →
  w' = DWorker (dw_disk w) (dw_db w) (published_cache w) (file_handles w) (dw_sent w ++ [(conn, ty, j, raw)]).
Proof. by intros [= _ <- _]. Qed.

Lemma HandleResourceDownInfo_done conn uid mid w t u w' t' :
  download_ok w → seen conn uid → HandleResourceDownInfo root conn uid mid w t = (u, w', t') →
  d_same w w' ∧ download_ok w' ∧ ∃ x, dw_sent w' = dw_sent w ++ [x] ∧ info_outcome conn mid (dw_db w) x.
Proof.
  intros (Hc & Hh & Hb) Hseen Hr. unfold HandleResourceDownInfo in Hr. cbv zeta in Hr.
  dbind Hr r w1 t1 H1. apply ResolvePublished_done in H1 as ([E1 E2] & E3 & E4 & Hc1 & He); [| done | done].
  assert (Hend : ∀ j w2 t2, w2 = w1 → info_outcome conn mid (dw_db w) (conn, MsgId_code MSG_RESOURCE_DOWN_INFO_RSP, j, []) →
    d_send conn (MsgId_code MSG_RESOURCE_DOWN_INFO_RSP) j [] w2 t2 = (u, w', t') →
    d_same w w' ∧ download_ok w' ∧ ∃ x, dw_sent w' = dw_sent w ++ [x] ∧ info_outcome conn mid (dw_db w) x).
  { intros j w2 t2 -> Ho ->%d_send_inv. split; [done |]. split; [| cbn; rewrite E4; by eexists].
    unfold download_ok. cbn. rewrite E1, E2, E3 in *. done. }
  destruct r as [e | | | |]; [| (apply (Hend _ _ _ eq_refl) in Hr; [done |];
    left; eexists; split; [| reflexivity]; apply refusal_error; intros ?; discriminate) ..].
  destruct (He e eq_refl) as (f & Hf & ->).
  dbind Hr there w2 t2 H2. apply d_io_inv in H2 as [-> _].
  2: { intros d t0 a d' t0'. unfold file_exists, mbind, IO_bind, syscall, get, mret, IO_ret.
       destruct (tape_next t0) as [o0 t4]. by intros [= _ <- _]. }
  destruct (negb there); apply (Hend _ _ _ eq_refl) in Hr; try done.
  - left. eexists. split; [| reflexivity]. done.
  - right. by exists f.
Qed.

Lemma read_inode_inv i off len w t buf w' t' :
  d_io (read_inode i off len) w t = (buf, w', t') →
  w' = w ∧ ∃ o, buf = read_range (default [] (inodes (dw_disk w) !! i)) off len o.
Proof.
  intros Hr. apply d_io_inv in Hr as [-> Hr].
  - split; [done |]. revert Hr. unfold read_inode, mbind, IO_bind, get, syscall, mret, IO_ret.
    destruct (tape_next t) as [o t1]. intros [= <- _]. by exists o.
  - intros d t0 a d' t0'. unfold read_inode, mbind, IO_bind, get, syscall, mret, IO_ret.
    destruct (tape_next t0) as [o t1]. by intros [= _ <- _].
Qed.

Lemma Sha256Hex_one data t h t' : Sha256Hex data t = (h, t') → h = [] ∨ h = ToLowerHex (sha256 data).
Proof. unfold Sha256Hex. repeat case_match; intros [= <- _]; auto. Qed.

Lemma chunk_down_error conn mid offset d b error total :
  error ≠ 0 → chunk_down_outcome conn mid offset d b
    (conn, MsgId_code MSG_RESOURCE_CHUNK_DOWN_RSP, chunk_down_reply mid offset error 0 [] false total, []).
Proof. intros He. left. by exists error, total. Qed.

(** A worker that has answered with one frame. *)
Definition answered (conn mid offset : Z) (w w' : dworker) : Prop :=
  d_same w w' ∧ download_ok w' ∧
  ∃ x, dw_sent w' = dw_sent w ++ [x] ∧ chunk_down_outcome conn mid offset (dw_disk w) (dw_db w) x.

Lemma answer_send conn mid offset w w1 ty j raw t u w' t' :
  d_same w w1 → download_ok w1 → dw_sent w1 = dw_sent w →
  chunk_down_outcome conn mid offset (dw_disk w) (dw_db w) (conn, ty, j, raw) →
  d_send conn ty j raw w1 t = (u, w', t') → answered conn mid offset w w'.
Proof.
  intros Hs Hok Hse Ho ->%d_send_inv. split; [done |]. split; [done |]. cbn. rewrite Hse. by eexists.
Qed.

Lemma d_with_tape_inv {A} (f : tape → A * tape) w t a w' t' :
  d_io (with_tape f) w t = (a, w', t') → w' = w ∧ f t = (a, t').
Proof. unfold d_io, with_tape. destruct (f t) as [a0 t0]. intros [= <- <- <-]. by destruct w. Qed.

Lemma HandleResourceChunkDown_done now conn uid mid offset w t u w' t' :
  download_ok w → seen conn uid →
  HandleResourceChunkDown root handle_order now conn uid mid offset w t = (u, w', t') → answered conn mid offset w w'.
Proof.
  intros (Hc & Hh & Hb) Hseen Hr. unfold HandleResourceChunkDown in Hr. cbv zeta in Hr.
  dbind Hr r w1 t1 H1. apply ResolvePublished_done in H1 as ([E1 E2] & E3 & E4 & Hc1 & He); [| done | done].
  assert (Hok1 : download_ok w1) by (unfold download_ok; by rewrite E1, E2, E3 in *).
  destruct r as [e | | | |];
    [| (eapply answer_send, Hr; [done | done | done |]; apply chunk_down_error, refusal_error; intros ?; discriminate) ..].
  destruct (He e eq_refl) as (f & Hf & ->). cbn [e_size entry_from e_path] in Hr.
  set (size := r_size (pf_resource f)) in Hr. set (off := u64 offset) in Hr.
  destruct (size <=? off) eqn:El. { eapply answer_send, Hr; try done. by apply chunk_down_error. }
  dbind Hr oi w2 t2 H2. eapply open_handle_done in H2 as ([F1 F2] & F3 & F4 & Hh2 & Hi); [| by rewrite E1, E2, E3 | by rewrite E2; apply Hf].
  assert (Hok2 : download_ok w2) by (unfold download_ok in *; rewrite F1, F2, F3 in *; split; [apply Hok1 | split; [done | apply Hok1]]).
  assert (Hs2 : d_same w w2) by (split; congruence). assert (Hse2 : dw_sent w2 = dw_sent w) by congruence.
  destruct oi as [i |]; [| by eapply answer_send, Hr; [done | done | done | apply chunk_down_error]].
  specialize (Hi i eq_refl). dbind Hr buf w3 t3 H3. apply read_inode_inv in H3 as (-> & o & Hbuf).
  assert (Hoff : 0 <= off) by apply u64_range. bool_to_prop.
  destruct (negb (zlen buf =? Z.min kUploadChunkSize (size - off))) eqn:Ez.
  - dbind Hr hs w4 t4 H4. injection H4 as <- <- <-. dbind Hr v w5 t5 H5. injection H5 as _ <- <-.
    eapply answer_send, Hr; try done; [| by apply chunk_down_error].
    destruct Hok2 as (? & ? & ?). split; [done |]. split; [| done]. eapply handles_ok_sub; [apply delete_subseteq | done].
  - bool_to_prop. dbind Hr hash w4 t4 H4. apply d_with_tape_inv in H4 as [-> Hhash].
    assert (Hfile : ∃ file, content (dw_disk w) (Blob (r_sha (pf_resource f))) = Some file ∧ zlen file = size ∧
      ToLowerHex (sha256 file) = r_sha (pf_resource f)).
    { destruct Hf as [(m & Hm & Hst & _ & _ & _ & Hres) _]. by apply (Hb mid m). }
    destruct Hfile as (file & Hfile & Hsz & Hsha).
    assert (Hin : inodes (dw_disk w2) !! i = Some file).
    { unfold content in Hfile. rewrite E1 in Hi. rewrite Hi in Hfile. by destruct Hs2 as [-> _]. }
    rewrite Hin in Hbuf. change (default [] (Some file)) with file in Hbuf.
    assert (Hbuf' : buf = zslice file off (Z.min kUploadChunkSize (size - off))).
    { rewrite Hbuf. apply read_range_full; [done | | by rewrite <- Hbuf]. unfold kUploadChunkSize, kResourceChunkSize. lia. }
    eapply answer_send, Hr; try done. right. exists f, file, hash. cbv zeta. fold size off.
    rewrite Ez, <- Hbuf'. split_and!; try done. by eapply Sha256Hex_one.
Qed.

(** ** When nothing fails *)

Lemma D_bind_run {A B} (m : D A) (k : A → D B) w t a w1 t1 : m w t = (a, w1, t1) → (m ≫= k) w t = k a w1 t1.
Proof. unfold mbind, D_bind. by intros ->. Qed.

Lemma published_as_message b mid f :
  published_as b mid f → ∃ m, chat_message_of b mid = Some m ∧ status m = Published ∧
    sender_user_id m = pf_sender f ∧ recipient_user_id m = pf_recipient f ∧ ∀ conn, entry_of root conn m = entry_from conn f.
Proof.
  intros (r & Hr & Hst & Hs & Ht & Hrec & Hres). unfold recipient_of in Hrec.
  destruct (private_chats b !! m_thread r) as [pc |] eqn:Ep; [| done]. cbn in Hrec. simplify_eq.
  assert (Hc : ∃ m, chat_message_of b mid = Some m).
  { unfold chat_message_of. rewrite Hr. cbn. rewrite Ep. cbn. rewrite Hres. cbn. by eexists. }
  destruct Hc as [m Hm]. exists m. pose proof Hm as (r' & Hr' & Hres' & Hs' & Ht' & Hst' & Hrec' & _)%chat_message_of_Some.
  unfold recipient_of in Hrec'. simplify_eq. rewrite Ep in Hrec'. cbn in Hrec'. simplify_eq.
  split_and!; try congruence. intros conn. unfold entry_of, entry_from. congruence.
Qed.

Lemma member_not_refused f uid :
  member f uid → negb (uid =? 0) && ((uid =? pf_sender f) || (uid =? pf_recipient f)) = true.
Proof. intros [? [-> | ->]]; rewrite (proj2 (Z.eqb_neq _ 0)), Z.eqb_refl, ?orb_true_r by done; done. Qed.

Lemma ResolvePublished_run conn mid uid f w :
  cache_ok (dw_db w) (published_cache w) → published_as (dw_db w) mid f → member f uid →
  ∃ w', ResolvePublished root conn mid uid w [] = (Authorized (entry_from conn f), w', []).
Proof.
  intros Hc Hp Hm. pose proof (member_not_refused f uid Hm) as Hn. unfold ResolvePublished.
  rewrite (D_bind_run _ _ _ _ _ _ _ (eq_refl : the_cache w [] = _)).
  destruct (published_cache w !! mid) as [e |] eqn:Ec.
  - destruct (Hc mid e Ec) as (g & [Hg _] & He). pose proof (published_as_unique _ _ _ _ Hp Hg) as <-.
    destruct (first_session e =? conn) eqn:Ef; [apply Z.eqb_eq in Ef as <-; rewrite He; by eexists |].
    rewrite He. cbn [e_sender e_recipient entry_from]. rewrite Hn. by eexists.
  - destruct (published_as_message _ _ _ Hp) as (m & Hcm & Hst & Hs & Hr & He).
    assert (Hg : d_dao (GetChatMsgById mid) w [] = (LkFound m, w, [])).
    { unfold d_dao, GetChatMsgById, with_connection, catch, mbind, Tx_bind, query, exec. cbn. rewrite Hcm. by destruct w. }
    rewrite (D_bind_run _ _ _ _ _ _ _ Hg), Hs, Hr, He, (bool_decide_eq_true_2 _ Hst).
    apply andb_prop in Hn as [->%negb_true_iff Hor]. rewrite <- negb_orb, Hor. by eexists.
Qed.

Lemma open_handle_run now mid f w i :
  handles_ok (dw_disk w) (dw_db w) (file_handles w) → published_as (dw_db w) mid f →
  names (dw_disk w) !! Blob (r_sha (pf_resource f)) = Some i →
  ∃ w', open_handle handle_order now mid (Blob (r_sha (pf_resource f))) w [] = (Some i, w', []).
Proof.
  intros Hh Hp Hi. unfold open_handle.
  rewrite (D_bind_run _ _ _ _ _ _ _ (eq_refl : EvictIdleFileHandles now w [] = _)).
  rewrite (D_bind_run _ _ _ _ _ _ _ (eq_refl : the_handles _ [] = _)).
  match goal with |- context [file_handles ?w0 !! mid] => destruct (file_handles w0 !! mid) as [h |] eqn:Eh end.
  - cbn in Eh. apply map_lookup_filter_Some in Eh as [Eh _].
    destruct (Hh mid h Eh) as (g & Hg & Hi'). pose proof (published_as_unique _ _ _ _ Hp Hg) as <-.
    simplify_eq. by eexists.
  - erewrite D_bind_run by (unfold d_io, mbind, IO_bind, syscall, get, mret, IO_ret; cbn; rewrite Hi; reflexivity).
    by eexists.
Qed.

(** A member asks for a chunk that is there. *)
Lemma chunk_down_run now conn uid mid off f w :
  download_ok w → seen conn uid → published_as (dw_db w) mid f → member f uid →
  0 <= off < r_size (pf_resource f) → r_size (pf_resource f) < 2 ^ 64 →
  ∃ w' file, HandleResourceChunkDown root handle_order now conn uid mid off w [] = (tt, w', []) ∧
    content (dw_disk w) (Blob (r_sha (pf_resource f))) = Some file ∧ zlen file = r_size (pf_resource f) ∧
    let n := Z.min kUploadChunkSize (r_size (pf_resource f) - off) in
    dw_sent w' = dw_sent w ++ [(conn, MsgId_code MSG_RESOURCE_CHUNK_DOWN_RSP,
      chunk_down_reply mid off ok_code n (ToLowerHex (sha256 (zslice file off n))) (r_size (pf_resource f) <=? off + n)
        (r_size (pf_resource f)), zslice file off n)].
Proof.
  intros Hok Hseen Hp Hm Hoff Hsz. pose proof Hok as (Hc & Hh & Hb).
  assert (Hu : u64 off = off) by (unfold u64; apply Z.mod_small; lia).
  destruct (ResolvePublished_run conn mid uid f w Hc Hp Hm) as [w1 H1].
  pose proof H1 as ([E1 E2] & E3 & E4 & _)%ResolvePublished_done; [| done | done].
  assert (Hfile : ∃ file, content (dw_disk w) (Blob (r_sha (pf_resource f))) = Some file ∧
    zlen file = r_size (pf_resource f)).
  { destruct Hp as (m & Hmm & Hst & _ & _ & _ & Hres). destruct (Hb mid m _ Hmm Hst Hres) as (file & ? & ? & _). by exists file. }
  destruct Hfile as (file & Hf & Hz). pose proof Hf as Hn. unfold content in Hn.
  destruct (names (dw_disk w) !! Blob (r_sha (pf_resource f))) as [i |] eqn:Ei; [| done]. cbn in Hn.
  destruct (open_handle_run now mid f w1 i) as [w2 H2]; [by rewrite E1, E2, E3 | by rewrite E2 | by rewrite E1 |].
  pose proof H2 as ([F1 F2] & F3 & F4 & _)%open_handle_done; [| by rewrite E1, E2, E3 | by rewrite E2].
  unfold HandleResourceChunkDown. rewrite (D_bind_run _ _ _ _ _ _ _ H1). cbn [e_size e_path entry_from]. cbv zeta.
  rewrite Hu, (proj2 (Z.leb_gt _ _)) by lia. rewrite (D_bind_run _ _ _ _ _ _ _ H2).
  set (n := Z.min kUploadChunkSize (r_size (pf_resource f) - off)).
  assert (Hr : d_io (read_inode i off n) w2 [] = (zslice file off n, w2, [])).
  { unfold d_io, read_inode, mbind, IO_bind, get, syscall, mret, IO_ret. replace (inodes (dw_disk w2) !! i) with (Some file) by (by rewrite F1, E1). cbn. by destruct w2. }
  rewrite (D_bind_run _ _ _ _ _ _ _ Hr). assert (Hzn : zlen (zslice file off n) = n).
  { rewrite zlen_zslice; unfold n, kUploadChunkSize, kResourceChunkSize; lia. }
  rewrite Hzn, Z.eqb_refl. cbn [negb].
  assert (Hs : d_io (with_tape (Sha256Hex (zslice file off n))) w2 [] = (ToLowerHex (sha256 (zslice file off n)), w2, [])).
  { unfold d_io, with_tape, Sha256Hex. cbn. by destruct w2. }
  rewrite (D_bind_run _ _ _ _ _ _ _ Hs). eexists _, file. split; [reflexivity |]. split; [done |]. split; [done |].
  cbn. by rewrite F4, E4.
Qed.

(** One request per chunk, each as long as the longest chunk. *)
Fixpoint ask_chunks (times : list Z) (conn uid mid off : Z) : D unit :=
  match times with
  | [] => mret tt
  | now :: times =>
      HandleResourceChunkDown root handle_order now conn uid mid off;;
      ask_chunks times conn uid mid (off + kUploadChunkSize)
  end.

Lemma zslice_step {A} (l : list A) off n m :
  0 <= off → 0 <= n → 0 <= m → zslice l off n ++ zslice l (off + n) m = zslice l off (n + m).
Proof.
  intros Ho Hn Hm. unfold zslice. rewrite (Z2Nat.inj_add off n), (Z2Nat.inj_add n m), <- drop_drop by lia.
  rewrite take_take_drop. done.
Qed.

Definition chunk_sent (conn mid size : Z) (x : Z * Z * json * bytes) : Prop :=
  ∃ off hash is_last, x.1 = (conn, MsgId_code MSG_RESOURCE_CHUNK_DOWN_RSP,
    chunk_down_reply mid off ok_code (zlen x.2) hash is_last size).

Lemma ask_chunks_run times conn uid mid off f w file :
  download_ok w → seen conn uid → published_as (dw_db w) mid f → member f uid →
  content (dw_disk w) (Blob (r_sha (pf_resource f))) = Some file → zlen file = r_size (pf_resource f) →
  0 <= off → r_size (pf_resource f) < 2 ^ 64 →
  off + (Z.of_nat (length times) - 1) * kUploadChunkSize < r_size (pf_resource f) →
  ∃ w' replies, ask_chunks times conn uid mid off w [] = (tt, w', []) ∧ dw_sent w' = dw_sent w ++ replies ∧
    length replies = length times ∧ concat (snd <$> replies) = zslice file off (Z.min (Z.of_nat (length times) * kUploadChunkSize) (r_size (pf_resource f) - off)) ∧
    Forall (chunk_sent conn mid (r_size (pf_resource f))) replies.
Proof.
  intros Hok Hseen Hp Hm Hf Hz Ho Hsz. revert off w Hok Hp Hf Ho.
  assert (Hk : 0 < kUploadChunkSize) by done. set (K := kUploadChunkSize) in *.
  induction times as [| now times IH]; intros off w Hok Hp Hf Ho Hlen.
  { exists w, []. cbn. rewrite app_nil_r. cbn [length] in Hlen. split_and!; try done.
    unfold zslice. by replace (Z.to_nat _) with 0%nat by lia. }
  cbn [length] in *. rewrite Nat2Z.inj_succ in *. assert (Hoff : 0 <= off < r_size (pf_resource f)) by nia.
  destruct (chunk_down_run now conn uid mid off f w Hok Hseen Hp Hm Hoff Hsz) as (w1 & file' & Hr & Hf' & _ & Hs1).
  rewrite Hf in Hf'. injection Hf' as <-. cbv zeta in Hs1. fold K in Hs1.
  pose proof (HandleResourceChunkDown_done _ _ _ _ _ _ _ _ _ _ Hok Hseen Hr) as ([E1 E2] & Hok1 & _).
  set (n := Z.min K (r_size (pf_resource f) - off)) in *.
  assert (Hzn : zlen (zslice file off n) = n) by (apply zlen_zslice; unfold n; lia).
  destruct times as [| now2 times].
  - exists w1. eexists. cbn [ask_chunks]. rewrite (D_bind_run _ _ _ _ _ _ _ Hr). split; [reflexivity |]. split; [exact Hs1 |].
    split; [done |]. split; [cbn; rewrite app_nil_r; f_equal; unfold n; lia |]. constructor; [| done].
    eexists off, _, _. cbn [fst snd]. rewrite Hzn. reflexivity.
  - assert (En : n = K) by (unfold n; cbn [length] in Hlen; nia).
    destruct (IH (off + K) w1) as (w2 & replies & Hr2 & Hs2 & Hl & Hc & Hall);
      [done | by rewrite E2 | by rewrite E1 | lia | lia |].
    exists w2. eexists (_ :: replies). cbn [ask_chunks]. rewrite (D_bind_run _ _ _ _ _ _ _ Hr).
    split; [exact Hr2 |]. rewrite Hs2, Hs1, <- app_assoc. split; [reflexivity |]. split; [cbn [length]; by rewrite Hl |]. split.
    + cbn [fmap list_fmap concat snd]. rewrite Hc, En, zslice_step by (cbn [length] in *; nia). f_equal. cbn [length] in *. nia.
    + constructor; [| done]. eexists off, _, _. cbn [fst snd]. rewrite Hzn. reflexivity.
Qed.
End proofs.
