(* ===== verification/Cleanup.v ===== *)
(** * The cleanup thread (ResourceServer/src/ResourceServer.cpp)

    Once an hour, uploads that nobody has continued for a week are marked
    Failed, page after page, and old partial files and blobs that no
    published message refers to are removed. Modification times are a
    parameter; the thread uses the disk and the tables of the workers. *)

From stdpp Require Import sorting.
From S2P Require Import Prelude ResourceWire ProtocolIds JsonFields Sha256 UploadFile Database ResourceDb TxLogic FileWorker.

Definition kResourceRetentionSeconds : Z := 7 * 24 * 3600.
Definition kCleanupPageSize : Z := 200.

(** ** The query *)

Record ExpiredResource := Expired { x_message : Z; x_sender : Z; x_created : bytes }.

#[global] Instance ExpiredResource_eq_dec : EqDecision ExpiredResource.
Proof. solve_decision. Defined.

(** (created_at, message_id) in the order of the query. *)
Definition cursor_le (x y : bytes * Z) : Prop := bytes_leb x.1 y.1 = true ∧ (x.1 = y.1 → x.2 <= y.2).
#[global] Instance cursor_le_dec x y : Decision (cursor_le x y).
Proof. unfold cursor_le. apply _. Defined.

Definition cursor_of (x : ExpiredResource) : bytes * Z := (x_created x, x_message x).
Definition expired_le (x y : ExpiredResource) : Prop := cursor_le (cursor_of x) (cursor_of y).
#[global] Instance expired_le_dec x y : Decision (expired_le x y).
Proof. unfold expired_le. apply _. Defined.

(** Older than [before] and not finished. *)
Definition unfinished (before : bytes) (m : msg_row) : bool :=
  bool_decide (m_status m = Pending) && ((m_type m =? PIC) || (m_type m =? FILE)) && negb (bytes_leb before (m_created m)).

(** After the cursor; the empty cursor is before everything. *)
Definition past (cursor : bytes * Z) (x : ExpiredResource) : bool :=
  bool_decide (cursor.1 = []) || negb (bool_decide (expired_le x (Expired cursor.2 0 cursor.1))).

Definition expired_rows (before : bytes) (d : db) : list ExpiredResource :=
  merge_sort expired_le
    (omap (λ p : Z * msg_row, if unfinished before p.2 then Some (Expired p.1 (m_sender p.2) (m_created p.2)) else None)
       (map_to_list (chat_messages d))).

Definition GetExpiredResourceIds (before : bytes) (cursor : bytes * Z) (lim : Z) : Dao (option (list ExpiredResource)) :=
  with_connection None
    (catch (rows ← query (λ d, limit lim (filter (λ x, past cursor x = true) (expired_rows before d)));
            mret (Some rows)) (λ _, None)).

Section cleanup.
Context (root : path).

(** What the file system and the clock say. *)
Context (mtime : path → Z) (now : Z) (before : bytes).

(** [exists] and [last_write_time]: 0 when either fails. *)
Definition FileMTime (p : path) : IO Z :=
  o ← syscall;
  d ← get;
  if negb (io_ok o && (bool_decide (is_Some (names d !! p)) || bool_decide (p ∈ dirs d))) then mret 0
  else o ← syscall; mret (if io_ok o then mtime p else 0).

(** ** Marking *)

Fixpoint stale_of (page : list ExpiredResource) : W (list ExpiredResource) :=
  match page with
  | [] => mret []
  | x :: page =>
      t ← io (FileMTime (UploadingPartPath root (x_message x)));
      l ← stale_of page;
      mret (if (t =? 0) || (t <? now - kResourceRetentionSeconds) then x :: l else l)
  end.

(** The loop over the pages; [None] when the fuel is out, the number of marked
    messages otherwise. *)
Fixpoint expire_pages (fuel : nat) (cursor : bytes * Z) (total : Z) : W (option Z) :=
  match fuel with
  | O => mret None
  | S fuel =>
      page ← dao (GetExpiredResourceIds before cursor kCleanupPageSize);
      match page with
      | None | Some [] => mret (Some total)
      | Some (x :: rest) =>
          let page := x :: rest in
          let cursor := cursor_of (List.last page x) in
          to_expire ← stale_of page;
          marked ← (if bool_decide (to_expire = []) then mret true
                    else dao (MarkResourceExpired (x_message <$> to_expire)));
          if negb marked then mret (Some total)
          else
            let total := total + zlen to_expire in
            if zlen page <? kCleanupPageSize then mret (Some total) else expire_pages fuel cursor total
      end
  end.

(** ** Removing *)

Definition filename (p : path) : bytes := match rcomps p with [] => [] | c :: _ => c end.

Definition in_uploading (p : path) : bool := bool_decide (filename (parent_path p) = § "uploading").
Definition in_blobs (p : path) : bool :=
  (zlen (filename (parent_path p)) =? 2) && bool_decide (filename (parent_path (parent_path p)) = § "blobs").

Definition is_part_name (name : bytes) : bool :=
  (5 <? zlen name) && bool_decide (zslice name (zlen name - 5) 5 = § ".part").

Definition is_regular_file (p : path) : IO bool :=
  o ← syscall;
  d ← get;
  mret (io_ok o && bool_decide (is_Some (names d !! p))).

(** One entry of the directory tree. *)
Definition sweep_file (p : path) : W unit :=
  regular ← io (is_regular_file p);
  if negb regular then mret tt
  else if negb (in_uploading p) && negb (in_blobs p) then mret tt
  else
    t ← io (FileMTime p);
    if (t =? 0) || (now - kResourceRetentionSeconds <=? t) then mret tt
    else if in_uploading p then
      if negb (is_part_name (filename p)) then mret tt
      else io (remove p);; mret tt
    else if negb (zlen (filename p) =? 64) then mret tt
    else
      ref ← dao (BlobHasPublishedReference (filename p));
      match ref with
      | TriNo => io (remove p);; mret tt
      | _ => mret tt
      end.

(** [listing] is what the directory iterator delivers. *)
Fixpoint sweep (listing : list path) : W unit :=
  match listing with
  | [] => mret tt
  | p :: listing => sweep_file p;; sweep listing
  end.

Definition RunResourceCleanup (fuel : nat) (listing : list path) : W unit :=
  expire_pages fuel ([], 0) 0;;
  there ← io (o ← syscall; d ← get; mret (io_ok o && bool_decide (root ∈ dirs d)));
  if negb (there : bool) then mret tt else sweep listing.
End cleanup.
