(* ===== verification/CleanupProofs.v ===== *)
(** * What the cleanup does

    The pages of the cleanup see every message once, whatever else fails the
    loop ends, and when nothing fails exactly the stale unfinished uploads
    are marked. Removing files keeps what is published. *)

From stdpp Require Import sorting.
From S2P Require Import Prelude ResourceWire ProtocolIds JsonFields Sha256 UploadFile Database ResourceDb TxLogic FileWorker FileWorkerProofs ChatDb ChatDbMessages ChatFriends ChatSync SystemDb Cleanup.

(** ** The order of the query *)

Lemma bytes_le_refl a : bytes_le a a.
Proof. by destruct (total bytes_le a a). Qed.

#[global] Instance expired_le_total : Total expired_le.
Proof.
  intros x y. unfold expired_le, cursor_le, cursor_of. cbn.
  destruct (decide (x_created x = x_created y)) as [-> | Hne].
  - pose proof (bytes_le_refl (x_created y)) as Hr. unfold bytes_le in Hr.
    destruct (Z.le_ge_cases (x_message x) (x_message y)); [left | right]; auto.
  - destruct (total bytes_le (x_created x) (x_created y)); [left | right]; by split.
Qed.

#[global] Instance expired_le_trans : Transitive expired_le.
Proof.
  intros x y z [H1 H2] [H3 H4]. unfold expired_le, cursor_le, cursor_of in *. cbn in *. split.
  - by apply (bytes_le_trans _ (x_created y)).
  - intros E. assert (E1 : x_created x = x_created y).
    { apply bytes_le_antisymm; [done |]. rewrite E. done. }
    specialize (H2 E1). specialize (H4 ltac:(congruence)). lia.
Qed.

Lemma expired_le_antisymm x y : expired_le x y → expired_le y x → cursor_of x = cursor_of y.
Proof.
  intros [H1 H2] [H3 H4]. unfold cursor_of in *. cbn in *.
  assert (E : x_created x = x_created y) by by apply bytes_le_antisymm.
  specialize (H2 E). specialize (H4 (eq_sym E)). f_equal; [done | lia].
Qed.

(** A cursor in use: it comes from a row. *)
Lemma past_cursor x y : x_created x ≠ [] → past (cursor_of x) y = true ↔ ¬ expired_le y x.
Proof.
  intros Hne. unfold past. cbn. rewrite bool_decide_eq_false_2 by done. cbn [orb].
  rewrite negb_true_iff, bool_decide_eq_false. done.
Qed.

Lemma W_bind_run {A B} (m : W A) (k : A → W B) w t a w1 t1 : m w t = (a, w1, t1) → (m ≫= k) w t = k a w1 t1.
Proof. unfold mbind, W_bind. by intros ->. Qed.

Section rows.
Context (before : bytes).

Lemma expired_rows_elem b x :
  x ∈ expired_rows before b ↔
  ∃ m, chat_messages b !! x_message x = Some m ∧ unfinished before m = true ∧ x = Expired (x_message x) (m_sender m) (m_created m).
Proof.
  unfold expired_rows. rewrite merge_sort_Permutation, list_elem_of_omap. split.
  - intros ([mid m] & Hm & Hx). apply elem_of_map_to_list in Hm. cbn in Hx.
    destruct (unfinished before m) eqn:E; [| done]. injection Hx as <-. by exists m.
  - intros (m & Hm & Hu & ->). exists (x_message x, m). rewrite elem_of_map_to_list. cbn. by rewrite Hu.
Qed.

Lemma expired_rows_sorted b : StronglySorted expired_le (expired_rows before b).
Proof. apply (StronglySorted_merge_sort expired_le). Qed.

Lemma expired_rows_nodup b : NoDup (expired_rows before b).
Proof.
  unfold expired_rows. rewrite merge_sort_Permutation.
  assert (Hl : NoDup (map_to_list (chat_messages b)).*1) by apply NoDup_fst_map_to_list.
  induction (map_to_list (chat_messages b)) as [| [mid m] l IH]; [constructor |].
  cbn in *. apply NoDup_cons in Hl as [Hn Hl]. specialize (IH Hl).
  destruct (unfinished before m); [| done]. apply NoDup_cons. split; [| done].
  intros ([mid' m'] & Hin & Hx)%list_elem_of_omap. cbn in Hx. destruct (unfinished before m'); [| done].
  injection Hx as -> _ _. apply Hn. apply list_elem_of_fmap. by exists (mid, m').
Qed.

Lemma expired_rows_eq b x y : x ∈ expired_rows before b → y ∈ expired_rows before b → cursor_of x = cursor_of y → x = y.
Proof.
  intros (m & Hm & _ & Ex)%expired_rows_elem (n & Hn & _ & Ey)%expired_rows_elem [= _ E].
  rewrite Ex, Ey. rewrite E in *. by simplify_eq.
Qed.

(** What is left after a cursor. *)
Definition remaining (b : db) (cursor : bytes * Z) : list ExpiredResource :=
  filter (λ x, past cursor x = true) (expired_rows before b).

Lemma last_elem {A} (x : A) l d : List.last (x :: l) d ∈ x :: l.
Proof. revert x. induction l as [| z l IH]; intros x; [by left |]. right. apply IH. Qed.

Lemma sorted_last l d y : StronglySorted expired_le l → y ∈ l → expired_le y (List.last l d).
Proof.
  induction l as [| x l IH]; intros Hs Hy; [by apply not_elem_of_nil in Hy |].
  apply StronglySorted_inv in Hs as [Hs Hx]. destruct l as [| z l].
  - apply list_elem_of_singleton in Hy as ->. by destruct (total expired_le x x).
  - apply elem_of_cons in Hy as [-> | Hy]; [| by apply IH]. rewrite Forall_forall in Hx. apply Hx. exact (last_elem z l d).
Qed.

(** The rows after a full page are those that are left. *)
Lemma next_page b cursor x rest :
  (∀ mid m, chat_messages b !! mid = Some m → m_created m ≠ []) →
  limit kCleanupPageSize (remaining b cursor) = x :: rest →
  let c' := cursor_of (List.last (x :: rest) x) in
  ∀ y, y ∈ expired_rows before b → (past c' y = true ↔ past cursor y = true ∧ y ∉ x :: rest).
Proof.
  intros Hne Hpage c' y Hy. set (z := List.last (x :: rest) x) in *.
  assert (Hsplit : remaining b cursor = (x :: rest) ++ drop (Z.to_nat kCleanupPageSize) (remaining b cursor)).
  { rewrite <- Hpage. unfold limit. by rewrite take_drop. }
  assert (Hz : z ∈ remaining b cursor) by (rewrite Hsplit; apply elem_of_app; left; apply last_elem).
  apply list_elem_of_filter in Hz as [Hzp Hz]. pose proof Hz as (mz & Hmz & _ & Ez)%expired_rows_elem.
  assert (Hzc : x_created z ≠ []) by (rewrite Ez; by eapply Hne).
  assert (Hsorted : StronglySorted expired_le (remaining b cursor)).
  { unfold remaining. generalize (expired_rows_sorted b). generalize (expired_rows before b). clear.
    induction 1 as [| w l Hl IH Hw]; [constructor |]. rewrite filter_cons. case_decide; [| done]. constructor; [done |].
    apply Forall_forall. intros v [_ Hv]%list_elem_of_filter. rewrite Forall_forall in Hw. by apply Hw. }
  assert (Hnd : NoDup (remaining b cursor)) by apply NoDup_filter, expired_rows_nodup.
  unfold c'. rewrite past_cursor by done. split.
  - intros Hn. split.
    + unfold past in *. destruct (bool_decide (cursor.1 = [])); [done |]. cbn [orb] in *.
      rewrite negb_true_iff, bool_decide_eq_false in *. intros Hle. apply Hn.
      destruct (total expired_le y z) as [| Hzy]; [done |]. exfalso. by apply Hzp; etrans.
    + intros Hin. apply Hn. apply sorted_last; [| done].
      rewrite Hsplit in Hsorted. by apply StronglySorted_app_1_l in Hsorted.
  - intros [Hp Hnin] Hle. apply Hnin.
    assert (Hyr : y ∈ remaining b cursor) by by apply list_elem_of_filter.
    rewrite Hsplit in Hyr. apply elem_of_app in Hyr as [| Hyd]; [done |]. exfalso.
    assert (Hzy : expired_le z y).
    { rewrite Hsplit in Hsorted. eapply StronglySorted_app_1_elem_of; [exact Hsorted | apply last_elem | done]. }
    assert (y = z) as ->.
    { apply (expired_rows_eq b); [done | done | by apply expired_le_antisymm]. }
    rewrite Hsplit in Hnd. apply NoDup_app in Hnd as (_ & Hd & _). by apply (Hd z); [apply last_elem |].
Qed.
End rows.

(** ** Marking *)

(** Every row is as before, or has gone from Pending to Failed. *)
Definition failing (b b' : db) : Prop :=
  ∀ mid, chat_messages b' !! mid = chat_messages b !! mid ∨
    ∃ m, chat_messages b !! mid = Some m ∧ m_status m = Pending ∧ chat_messages b' !! mid = Some (with_status m Failed).

Lemma failed_rtc_failing b b' : rtc failed_once b b' → failing b b'.
Proof.
  induction 1 as [| b b1 b2 (mid & m & Hm & Hs & ->) _ IH]; intros n; [by left |].
  specialize (IH n). cbn in IH. destruct (decide (n = mid)) as [-> |].
  - rewrite lookup_insert_eq in IH. right. exists m. destruct IH as [IH | (x & [= <-] & Hx & _)]; [done |]. done.
  - by rewrite lookup_insert_ne in IH by done.
Qed.

Lemma mark_expired_failing mids b t : failing b (MarkResourceExpired mids b t).1.2.
Proof.
  destruct (MarkResourceExpired_fails mids b t) as [[_ ->] | H]; [by intros mid; left | by apply failed_rtc_failing].
Qed.

(** Rows have a date ([NOT NULL]). *)
Definition dated (b : db) : Prop := ∀ mid m, chat_messages b !! mid = Some m → m_created m ≠ [].

Lemma failing_dated b b' : failing b b' → dated b → dated b'.
Proof.
  intros Hf Hd mid m Hm. destruct (Hf mid) as [E | (x & Hx & _ & E)]; rewrite E in Hm; [by eapply Hd |].
  injection Hm as <-. by apply (Hd mid x).
Qed.

Lemma failing_expired before b b' x : failing b b' → x ∈ expired_rows before b' → x ∈ expired_rows before b.
Proof.
  intros Hf (m & Hm & Hu & Ex)%expired_rows_elem. apply expired_rows_elem. exists m.
  destruct (Hf (x_message x)) as [E | (y & Hy & _ & E)]; rewrite E in Hm; [done |].
  injection Hm as <-. unfold unfinished in Hu. cbn in Hu. done.
Qed.

Lemma get_expired_spec before cursor lim b t r b' t' :
  GetExpiredResourceIds before cursor lim b t = (r, b', t') →
  b' = b ∧ (r = None ∨ r = Some (limit lim (remaining before b cursor))).
Proof.
  unfold GetExpiredResourceIds, with_connection, catch, mbind, Tx_bind, mret, Tx_ret, query, exec.
  destruct (tape_next t) as [[| n] t1]; [| by intros [= <- <- <-]; auto].
  destruct (tape_next t1) as [[| n] t2]; intros [= <- <- <-]; auto.
Qed.

(** *** When nothing fails *)

Definition marked_row (P : bool) (m : msg_row) : msg_row := if P then with_status m Failed else m.

(** [b'] is [b] with the rows marked that [P] selects. *)
Definition marks (P : Z → msg_row → bool) (b b' : db) : Prop :=
  b' = set_messages b (chat_messages b') ∧
  ∀ mid, chat_messages b' !! mid = (λ m, marked_row (P mid m) m) <$> chat_messages b !! mid.

Lemma marks_none P b : (∀ mid m, chat_messages b !! mid = Some m → P mid m = false) → marks P b b.
Proof.
  intros Hp. split; [by destruct b |]. intros mid. destruct (chat_messages b !! mid) as [m |] eqn:E; [| done].
  cbn. by rewrite (Hp mid m).
Qed.

Lemma marks_trans P Q R b b1 b2 :
  marks P b b1 → marks Q b1 b2 →
  (∀ mid m, chat_messages b !! mid = Some m → R mid m = P mid m || Q mid (marked_row (P mid m) m)) → marks R b b2.
Proof.
  intros [E1 H1] [E2 H2] Hr. split; [by rewrite E2, E1 |]. intros mid. rewrite H2, H1.
  destruct (chat_messages b !! mid) as [m |] eqn:E; [| done]. cbn. rewrite (Hr mid m E). f_equal. unfold marked_row.
  by destruct (P mid m), (Q mid _).
Qed.

Lemma marks_ext P Q b b' :
  (∀ mid m, chat_messages b !! mid = Some m → P mid m = Q mid m) → marks P b b' → marks Q b b'.
Proof.
  intros Hpq [E Hm]. split; [done |]. intros mid. rewrite Hm.
  destruct (chat_messages b !! mid) as [m |] eqn:Em; [| done]. cbn. by rewrite (Hpq mid m).
Qed.

Lemma update_status_marks mid b :
  marks (λ n m, (n =? mid) && bool_decide (m_status m = Pending)) b (update_status mid Failed Pending b).2.
Proof.
  unfold update_status. destruct (chat_messages b !! mid) as [m |] eqn:Em.
  2: { cbn [snd]. apply marks_none. intros n m Hn. destruct (Z.eqb_spec n mid) as [-> |]; [congruence | done]. }
  case_decide as Hs; cbn [snd].
  - split; [done |]. intros n. cbn. destruct (decide (n = mid)) as [-> |].
    + rewrite lookup_insert_eq, Em. cbn. by rewrite Z.eqb_refl, bool_decide_eq_true_2.
    + rewrite lookup_insert_ne by done. destruct (chat_messages b !! n); [| done]. cbn.
      by rewrite (proj2 (Z.eqb_neq n mid)).
  - apply marks_none. intros n x Hn. destruct (Z.eqb_spec n mid) as [-> |]; [| done].
    simplify_eq. cbn. by apply bool_decide_eq_false_2.
Qed.

Lemma expire_all_run mids b :
  ∃ b', expire_all mids b [] = (inr tt, b', []) ∧
    marks (λ n m, bool_decide (n ∈ mids) && bool_decide (m_status m = Pending)) b b'.
Proof.
  revert b. induction mids as [| mid mids IH]; intros b.
  { exists b. split; [done |]. apply marks_none. intros n m _. by rewrite bool_decide_eq_false_2 by apply not_elem_of_nil. }
  destruct (IH (update_status mid Failed Pending b).2) as (b' & Hr & Hm). exists b'. split.
  - cbn [expire_all]. unfold mbind, Tx_bind, exec in *. cbn. destruct (update_status mid Failed Pending b). exact Hr.
  - eapply marks_trans; [apply update_status_marks | exact Hm |]. intros n m Hn. cbn. unfold marked_row.
    destruct (Z.eqb_spec n mid) as [-> | Hne]; cbn.
    + rewrite bool_decide_eq_true_2 by by left. destruct (bool_decide (m_status m = Pending)) eqn:Es; cbn; [done |].
      by rewrite Es, andb_false_r.
    + f_equal. apply bool_decide_ext. rewrite elem_of_cons. naive_solver.
Qed.

Lemma mark_expired_run mids b :
  ∃ b', MarkResourceExpired mids b [] = (true, b', []) ∧
    marks (λ n m, bool_decide (n ∈ mids) && bool_decide (m_status m = Pending)) b b'.
Proof.
  unfold MarkResourceExpired. case_bool_decide as E.
  { exists b. split; [done |]. apply marks_none. intros n m _. subst. by rewrite bool_decide_eq_false_2 by apply not_elem_of_nil. }
  destruct (expire_all_run mids b) as (b' & Hr & Hm). exists b'. split; [| done].
  unfold with_connection, catch, transaction, mbind, Tx_bind, mret, Tx_ret. cbn.
  unfold mbind, Tx_bind, mret, Tx_ret in Hr. by rewrite Hr.
Qed.

Section cleanup.
Context (root : path) (mtime : path → Z) (now : Z) (before : bytes).

Lemma file_mtime_same p d t v d' t' : FileMTime mtime p d t = (v, d', t') → d' = d.
Proof.
  unfold FileMTime, mbind, IO_bind, mret, IO_ret, syscall, get. destruct (tape_next t) as [o t1].
  case_match; [by intros [= _ <- _] |]. destruct (tape_next t1) as [o2 t2]. by intros [= _ <- _].
Qed.

Lemma stale_of_same page w t l w' t' : stale_of root mtime now page w t = (l, w', t') → w' = w.
Proof.
  revert w t l w' t'. induction page as [| x page IH]; intros w t l w' t' Hr; [by injection Hr as <- <- <- |].
  cbn [stale_of] in Hr. wbind Hr v w1 t1 H1. apply io_inv in H1 as (d & Hd & ->). apply file_mtime_same in Hd as ->.
  wbind Hr l0 w2 t2 H2. apply IH in H2 as ->. injection Hr as _ <- _. by destruct w.
Qed.

(** A page and what is left of it. *)
Lemma page_shrinks b b' cursor x rest :
  dated b → failing b b' → limit kCleanupPageSize (remaining before b cursor) = x :: rest →
  (length (remaining before b' (cursor_of (List.last (x :: rest) x))) < length (remaining before b cursor))%nat.
Proof.
  intros Hd Hf Hp. pose proof (next_page before b cursor x rest Hd Hp) as Hnext. cbv zeta in Hnext.
  set (z := List.last (x :: rest) x) in *.
  assert (Hz : z ∈ remaining before b cursor).
  { assert (Hin : z ∈ x :: rest) by apply last_elem. rewrite <- Hp in Hin. unfold limit in Hin.
    by eapply subseteq_take. }
  assert (Hsub : z :: remaining before b' (cursor_of z) ⊆+ remaining before b cursor).
  { apply NoDup_submseteq.
    - apply NoDup_cons. split; [| apply NoDup_filter, expired_rows_nodup].
      intros [Hpz Hzb]%list_elem_of_filter. apply (failing_expired _ b) in Hzb; [| done].
      apply (Hnext z Hzb) in Hpz as [_ Hn]. apply Hn, last_elem.
    - intros y [-> | Hy]%elem_of_cons; [done |]. apply list_elem_of_filter in Hy as [Hpy Hy].
      apply (failing_expired _ b) in Hy; [| done]. apply list_elem_of_filter. split; [| done].
      by apply (Hnext y Hy) in Hpy as [? _]. }
  apply submseteq_length in Hsub. cbn [length] in Hsub. lia.
Qed.

Lemma expire_pages_total fuel cursor total w t :
  dated (w_db w) → (length (remaining before (w_db w) cursor) < fuel)%nat →
  ∃ n w' t', expire_pages root mtime now before fuel cursor total w t = (Some n, w', t') ∧
    failing (w_db w) (w_db w') ∧ w_disk w' = w_disk w ∧ upload_sessions w' = upload_sessions w.
Proof.
  revert cursor total w t. induction fuel as [| fuel IH]; intros cursor total w t Hd Hf; [lia |].
  destruct (expire_pages root mtime now before (S fuel) cursor total w t) as [[r w'] t'] eqn:Hr.
  cbn [expire_pages] in Hr. wbind Hr page w1 t1 H1. apply dao_inv in H1 as (b & H1 & ->).
  apply get_expired_spec in H1 as [-> Hpage].
  assert (Hw : with_db w (w_db w) = w) by by destruct w. rewrite Hw in Hr. clear Hw.
  assert (Hself : failing (w_db w) (w_db w)) by (intros mid; by left).
  destruct page as [[| x rest] |]; [by injection Hr as <- <- <-; eauto 10 | | by injection Hr as <- <- <-; eauto 10].
  destruct Hpage as [| [= Hp]]; [done |]. cbv zeta in Hr.
  wbind Hr l w2 t2 H2. apply stale_of_same in H2 as ->.
  wbind Hr marked w3 t3 H3.
  assert (H3' : failing (w_db w) (w_db w3) ∧ w_disk w3 = w_disk w ∧ upload_sessions w3 = upload_sessions w).
  { case_bool_decide; [by injection H3 as _ <- _ |]. apply dao_inv in H3 as (b3 & H3 & ->). split; [| done].
    pose proof (mark_expired_failing (x_message <$> l) (w_db w) t2) as Hfl. by rewrite H3 in Hfl. }
  destruct H3' as (Hf3 & Hd3 & Hs3).
  destruct (negb marked); [by injection Hr as <- <- <-; eauto 10 |].
  destruct (zlen (x :: rest) <? kCleanupPageSize); [by injection Hr as <- <- <-; eauto 10 |].
  destruct (IH (cursor_of (List.last (x :: rest) x)) (total + zlen l) w3 t3) as (n & w4 & t4 & E & Hf4 & Hd4 & Hs4).
  - by eapply failing_dated.
  - pose proof (page_shrinks _ _ cursor x rest Hd Hf3 (eq_sym Hp)). lia.
  - rewrite E in Hr. injection Hr as <- <- <-. exists n, w4, t4. split; [done |]. split; [| split; congruence].
    intros mid. destruct (Hf4 mid) as [E4 | (m & Hm & Hst & E4)]; rewrite E4; [apply Hf3 |].
    destruct (Hf3 mid) as [E3 | (m3 & Hm3 & Hst3 & E3)]; rewrite E3 in Hm; [right; by exists m |].
    injection Hm as <-. done.
Qed.

(** The partial file of a message is missing or old. *)
Definition stale (d : disk) (mid : Z) : bool :=
  let p := UploadingPartPath root mid in
  let t := if bool_decide (is_Some (names d !! p)) || bool_decide (p ∈ dirs d) then mtime p else 0 in
  (t =? 0) || (t <? now - kResourceRetentionSeconds).

Lemma stale_of_run page w :
  stale_of root mtime now page w [] = (filter (λ x, stale (w_disk w) (x_message x) = true) page, w, []).
Proof.
  induction page as [| x page IH]; [done |]. cbn [stale_of]. set (p := UploadingPartPath root (x_message x)).
  assert (Ht : io (FileMTime mtime p) w [] =
    (if bool_decide (is_Some (names (w_disk w) !! p)) || bool_decide (p ∈ dirs (w_disk w)) then mtime p else 0, w, [])).
  { unfold io, FileMTime, mbind, IO_bind, mret, IO_ret, syscall, get. cbn. destruct (_ || _); cbn; by destruct w. }
  unfold mbind, W_bind in *. rewrite Ht, IH. rewrite filter_cons. unfold mret, W_ret.
  destruct (stale (w_disk w) (x_message x)) eqn:E; unfold stale in E; fold p in E; cbv zeta in E; rewrite E; [by rewrite decide_True | by rewrite decide_False].
Qed.

Definition to_mark (cursor : bytes * Z) (d : disk) (mid : Z) (m : msg_row) : bool :=
  unfinished before m && past cursor (Expired mid (m_sender m) (m_created m)) && stale d mid.

Lemma to_mark_elem cursor d b mid m :
  chat_messages b !! mid = Some m →
  to_mark cursor d mid m = true ↔
    Expired mid (m_sender m) (m_created m) ∈ remaining before b cursor ∧ stale d mid = true.
Proof.
  intros Hm. unfold to_mark, remaining. rewrite !andb_true_iff, list_elem_of_filter, expired_rows_elem. cbn.
  split; [intros [[Hu Hp] Hs]; split_and!; try done; by exists m |].
  intros [[Hp (m' & Hm' & Hu & _)] Hs]. by simplify_eq.
Qed.

(** The rows a page marks. *)
Definition in_page (page : list ExpiredResource) (d : disk) (mid : Z) (m : msg_row) : bool :=
  bool_decide (Expired mid (m_sender m) (m_created m) ∈ page) && stale d mid.

Lemma page_in_remaining b cursor page y :
  limit kCleanupPageSize (remaining before b cursor) = page → y ∈ page → y ∈ remaining before b cursor.
Proof. intros <- Hy. unfold limit in Hy. by eapply subseteq_take. Qed.

Lemma page_marks b b1 cursor d page :
  limit kCleanupPageSize (remaining before b cursor) = page →
  marks (λ n m, bool_decide (n ∈ x_message <$> filter (λ y, stale d (x_message y) = true) page) && bool_decide (m_status m = Pending)) b b1 →
  marks (in_page page d) b b1.
Proof.
  intros Hp. apply marks_ext. intros mid m Hmm. apply eq_iff_eq_true. unfold in_page.
  rewrite !andb_true_iff, !bool_decide_eq_true, list_elem_of_fmap. split.
  - intros [(y & -> & [Hst Hy]%list_elem_of_filter) _]. split; [| done].
    pose proof (page_in_remaining _ _ _ _ Hp Hy) as [_ (m' & Hm' & _ & Ey)%expired_rows_elem]%list_elem_of_filter.
    assert (m' = m) as -> by congruence. by rewrite <- Ey.
  - intros [Hy Hst]. split; [exists (Expired mid (m_sender m) (m_created m)); by rewrite list_elem_of_filter |].
    pose proof (page_in_remaining _ _ _ _ Hp Hy) as [_ (m' & Hm' & Hu & _)%expired_rows_elem]%list_elem_of_filter.
    cbn in Hm'. assert (m' = m) as -> by congruence. unfold unfinished in Hu. bool_to_prop. tauto.
Qed.

Lemma to_mark_page b cursor d page mid m :
  limit kCleanupPageSize (remaining before b cursor) = page → chat_messages b !! mid = Some m →
  in_page page d mid m = true → to_mark cursor d mid m = true.
Proof.
  intros Hp Hm [Hy%bool_decide_eq_true Hs]%andb_true_iff. apply (to_mark_elem _ _ b); [done |].
  split; [by eapply page_in_remaining | done].
Qed.

(** What a full page leaves is marked later. *)
Lemma to_mark_next b cursor d x rest mid m :
  dated b → limit kCleanupPageSize (remaining before b cursor) = x :: rest → chat_messages b !! mid = Some m →
  to_mark cursor d mid m = in_page (x :: rest) d mid m ||
    to_mark (cursor_of (List.last (x :: rest) x)) d mid (marked_row (in_page (x :: rest) d mid m) m).
Proof.
  intros Hd Hp Hm. destruct (in_page (x :: rest) d mid m) eqn:E.
  { by rewrite (to_mark_page b cursor d (x :: rest)). }
  cbn [orb marked_row]. apply eq_iff_eq_true. rewrite !(to_mark_elem _ _ b) by done.
  unfold remaining. rewrite !list_elem_of_filter.
  pose proof (next_page before b cursor x rest Hd Hp (Expired mid (m_sender m) (m_created m))) as Hnext. cbv zeta in Hnext.
  unfold in_page in E. apply andb_false_iff in E. rewrite bool_decide_eq_false in E.
  split; intros [[H1 H2] H3]; (split; [split; [| done] | done]).
  - apply Hnext; [done |]. split; [done |]. destruct E; [done | congruence].
  - by apply Hnext.
Qed.

(** A short page is the last one. *)
Lemma to_mark_last b cursor d page mid m :
  limit kCleanupPageSize (remaining before b cursor) = page → zlen page < kCleanupPageSize →
  chat_messages b !! mid = Some m → to_mark cursor d mid m = in_page page d mid m.
Proof.
  intros Hp Hlen Hm. apply eq_iff_eq_true. rewrite (to_mark_elem _ _ b) by done. unfold in_page.
  rewrite andb_true_iff, bool_decide_eq_true. rewrite <- Hp in *. unfold limit in *.
  rewrite take_ge; [done |]. unfold zlen, kCleanupPageSize in *. rewrite length_take in Hlen. lia.
Qed.

(** Of the uploads that are past the cursor, the stale ones get marked. *)
Lemma expire_pages_run fuel cursor total w :
  dated (w_db w) → (length (remaining before (w_db w) cursor) < fuel)%nat →
  ∃ n w', expire_pages root mtime now before fuel cursor total w [] = (Some n, w', []) ∧
    marks (to_mark cursor (w_disk w)) (w_db w) (w_db w') ∧ w_disk w' = w_disk w.
Proof.
  revert cursor total w. induction fuel as [| fuel IH]; intros cursor total w Hd Hf; [lia |].
  set (L := remaining before (w_db w) cursor) in *.
  assert (Hq : dao (GetExpiredResourceIds before cursor kCleanupPageSize) w [] = (Some (limit kCleanupPageSize L), w, []))
    by by destruct w.
  cbn [expire_pages]. rewrite (W_bind_run _ _ _ _ _ _ _ Hq).
  destruct (limit kCleanupPageSize L) as [| x rest] eqn:Hp.
  { exists total, w. split; [done |]. split; [| done]. apply marks_none. intros mid m Hm.
    rewrite (to_mark_last _ _ _ [] _ _ Hp) by done. unfold in_page. by rewrite bool_decide_eq_false_2 by apply not_elem_of_nil. }
  cbv zeta. rewrite (W_bind_run _ _ _ _ _ _ _ (stale_of_run (x :: rest) w)).
  set (ids := x_message <$> filter (λ y, stale (w_disk w) (x_message y) = true) (x :: rest)).
  set (xs := filter (λ y, stale (w_disk w) (x_message y) = true) (x :: rest)) in *.
  destruct (mark_expired_run ids (w_db w)) as (b1 & Hr1 & Hm1).
  assert (Hmark : (if bool_decide (xs = []) then mret true else dao (MarkResourceExpired ids)) w [] = (true, with_db w b1, [])).
  { case_bool_decide as E.
    - assert (Hids : ids = []) by (unfold ids; by rewrite E). rewrite Hids in Hr1. unfold MarkResourceExpired in Hr1.
      rewrite bool_decide_eq_true_2 in Hr1 by done. injection Hr1 as <-. by destruct w.
    - unfold dao. by rewrite Hr1. }
  rewrite (W_bind_run _ _ _ _ _ _ _ Hmark). cbn [negb].
  pose proof (page_marks _ _ _ (w_disk w) _ Hp Hm1) as Hpm.
  destruct (zlen (x :: rest) <? kCleanupPageSize) eqn:El.
  - apply Z.ltb_lt in El. exists (total + zlen xs), (with_db w b1). split; [done |]. split; [| done].
    eapply marks_ext; [| exact Hpm]. intros mid m Hm. symmetry. by eapply to_mark_last.
  - assert (Hf1 : failing (w_db w) b1).
    { pose proof (mark_expired_failing ids (w_db w) []) as Hfl. by rewrite Hr1 in Hfl. }
    destruct (IH (cursor_of (List.last (x :: rest) x)) (total + zlen xs) (with_db w b1)) as (n & w' & Hr & Hm & Hdk).
    + by eapply failing_dated.
    + pose proof (page_shrinks _ _ cursor x rest Hd Hf1 Hp). cbn [with_db w_db]. unfold L in Hf. lia.
    + exists n, w'. split; [exact Hr |]. split; [| by rewrite Hdk].
      eapply marks_trans; [exact Hpm | exact Hm |]. intros mid m Hmm. by eapply to_mark_next.
Qed.

(** ** Removing *)

(** No published message has this digest. *)
Definition unreferenced (b : db) (sha : bytes) : Prop :=
  ∀ mid m res, chat_messages b !! mid = Some m → m_status m = Published → message_resources b !! mid = Some res → r_sha res ≠ sha.

(** What one entry of the listing can lose. *)
Definition sweep_effect (p : path) (w w' : worker) : Prop :=
  w' = w ∨ (w' = with_disk w (del_name (w_disk w) p) ∧ is_Some (names (w_disk w) !! p) ∧
            (in_uploading p = true ∨ in_blobs p = true ∧ unreferenced (w_db w) (filename p))).

Lemma remove_named p d t r d' t' :
  is_Some (names d !! p) → remove p d t = (r, d', t') → d' = d ∨ d' = del_name d p.
Proof.
  intros [i Hi]. unfold remove, mbind, IO_bind, mret, IO_ret, syscall, get, put.
  destruct (tape_next t) as [o t1]. destruct (negb (io_ok o)); [intros [= _ <- _]; by left |].
  rewrite Hi. intros [= _ <- _]. by right.
Qed.

Lemma sweep_file_effect p w t u w' t' :
  sweep_file mtime now p w t = (u, w', t') → sweep_effect p w w'.
Proof.
  intros Hr. assert (Hw : ∀ v, with_db (with_disk v (w_disk v)) (w_db v) = v) by by intros [].
  assert (Hwd : ∀ v, with_disk v (w_disk v) = v) by by intros [].
  unfold sweep_file in Hr. wbind Hr reg w1 t1 H1. apply io_inv in H1 as (d & H1 & ->).
  assert (Hreg : d = w_disk w ∧ (reg = true → is_Some (names (w_disk w) !! p))).
  { revert H1. unfold is_regular_file, mbind, IO_bind, mret, IO_ret, syscall, get. destruct (tape_next t) as [o t2].
    intros [= <- <- _]. split; [done |]. by intros [_ Hx%bool_decide_eq_true]%andb_true_iff. }
  destruct Hreg as [-> Hreg]. rewrite Hwd in Hr.
  destruct reg; cbn [negb] in Hr; [| left; by injection Hr as _ <- _]. specialize (Hreg eq_refl).
  destruct (in_uploading p) eqn:Eu; cbn [negb andb] in Hr.
  - wbind Hr v w2 t2 H2. apply io_inv in H2 as (d & Hd & ->). apply file_mtime_same in Hd as ->. rewrite Hwd in Hr.
    destruct (_ || _); [left; by injection Hr as _ <- _ |].
    destruct (negb (is_part_name _)); [left; by injection Hr as _ <- _ |].
    wbind Hr r w3 t3 H3. apply io_inv in H3 as (d & Hd & ->). injection Hr as _ <- _.
    apply remove_named in Hd as [-> | ->]; [by left; rewrite Hwd | right; auto | done].
  - destruct (in_blobs p) eqn:Eb; cbn [negb] in Hr; [| left; by injection Hr as _ <- _].
    wbind Hr v w2 t2 H2. apply io_inv in H2 as (d & Hd & ->). apply file_mtime_same in Hd as ->. rewrite Hwd in Hr.
    destruct (_ || _); [left; by injection Hr as _ <- _ |].
    destruct (negb (zlen _ =? 64)); [left; by injection Hr as _ <- _ |].
    wbind Hr ref w3 t3 H3. apply dao_inv in H3 as (b & H3 & ->). apply BlobHasPublishedReference_spec in H3 as [-> Href].
    assert (Hwb : with_db w (w_db w) = w) by by destruct w. rewrite Hwb in Hr.
    destruct ref; [left; by injection Hr as _ <- _ | | left; by injection Hr as _ <- _].
    wbind Hr r w4 t4 H4. apply io_inv in H4 as (d & Hd & ->). injection Hr as _ <- _.
    apply remove_named in Hd as [-> | ->]; [by left; rewrite Hwd | right | done].
    split; [done |]. split; [done |]. right. split; [done |]. intros mid m res. by apply Href.
Qed.

(** A blob that a published message refers to is not removed. *)
Lemma sweep_effect_blob p w w' sha :
  sweep_effect p w w' → ¬ unreferenced (w_db w) sha →
  names (w_disk w') !! BlobPathOf root sha = names (w_disk w) !! BlobPathOf root sha.
Proof.
  intros [-> | (-> & _ & Hp)] Hu; [done |]. cbn. apply lookup_delete_ne. intros ->.
  destruct Hp as [Hp | (_ & Hp)]; [| done].
  unfold in_uploading in Hp. apply bool_decide_eq_true in Hp. cbn in Hp.
  apply (f_equal length) in Hp. unfold ztake in Hp. rewrite length_take in Hp. cbn in Hp. lia.
Qed.

(** *** When nothing fails *)

Definition removable (d : disk) (b : db) (p : path) : bool :=
  bool_decide (is_Some (names d !! p)) && negb (mtime p =? 0) && (mtime p <? now - kResourceRetentionSeconds) &&
  (if in_uploading p then is_part_name (filename p)
   else in_blobs p && (zlen (filename p) =? 64) && negb (published_with_sha b (filename p) (λ _ _ _, true))).

Lemma sweep_file_run p w :
  sweep_file mtime now p w [] =
    (tt, if removable (w_disk w) (w_db w) p then with_disk w (del_name (w_disk w) p) else w, []).
Proof.
  assert (Hwd : with_disk w (w_disk w) = w) by by destruct w.
  assert (Hreg : io (is_regular_file p) w [] = (bool_decide (is_Some (names (w_disk w) !! p)), w, [])) by by destruct w.
  unfold sweep_file, removable. rewrite (W_bind_run _ _ _ _ _ _ _ Hreg).
  destruct (names (w_disk w) !! p) as [i |] eqn:Ei; [| done]. rewrite bool_decide_eq_true_2 by done. cbn [negb andb].
  assert (Ht : io (FileMTime mtime p) w [] = (mtime p, w, [])).
  { unfold io, FileMTime, mbind, IO_bind, mret, IO_ret, syscall, get. cbn. rewrite Ei. cbn. by destruct w. }
  assert (Hrm : io (remove p) w [] = (true, with_disk w (del_name (w_disk w) p), [])).
  { unfold io, remove, mbind, IO_bind, mret, IO_ret, syscall, get, put. cbn. rewrite Ei. done. }
  destruct (in_uploading p) eqn:Eu; [| destruct (in_blobs p) eqn:Eb]; cbn [negb andb]; [| | by rewrite andb_false_r].
  - rewrite (W_bind_run _ _ _ _ _ _ _ Ht). rewrite Z.leb_antisym.
    destruct (mtime p =? 0); [done |]. destruct (mtime p <? _); [| done]. cbn [negb orb andb].
    destruct (is_part_name _); [| done]. cbn [negb]. by rewrite (W_bind_run _ _ _ _ _ _ _ Hrm).
  - rewrite (W_bind_run _ _ _ _ _ _ _ Ht). rewrite Z.leb_antisym.
    destruct (mtime p =? 0); [done |]. destruct (mtime p <? _); [| done]. cbn [negb orb andb].
    destruct (zlen _ =? 64); [| done]. cbn [negb andb].
    assert (Hq : dao (BlobHasPublishedReference (filename p)) w [] =
      (if published_with_sha (w_db w) (filename p) (λ _ _ _, true) then TriYes else TriNo, w, [])).
    { unfold dao, BlobHasPublishedReference, with_connection, catch, mbind, Tx_bind, mret, Tx_ret, query, exec. cbn.
      destruct (published_with_sha _ _ _); by destruct w. }
    rewrite (W_bind_run _ _ _ _ _ _ _ Hq). destruct (published_with_sha _ _ _); [done |]. cbn [negb].
    by rewrite (W_bind_run _ _ _ _ _ _ _ Hrm).
Qed.

Lemma removable_del d b p q : removable (del_name d q) b p = (if decide (p = q) then false else removable d b p).
Proof.
  unfold removable. cbn. case_decide as E.
  - subst. by rewrite lookup_delete_eq.
  - by rewrite lookup_delete_ne.
Qed.

Lemma sweep_run listing w :
  ∃ w', sweep mtime now listing w [] = (tt, w', []) ∧ w_db w' = w_db w ∧
    (∀ p, names (w_disk w') !! p = if bool_decide (p ∈ listing) && removable (w_disk w) (w_db w) p then None else names (w_disk w) !! p).
Proof.
  revert w. induction listing as [| q listing IH]; intros w.
  { exists w. split; [done |]. split; [done |]. intros p. by rewrite bool_decide_eq_false_2 by apply not_elem_of_nil. }
  cbn [sweep]. rewrite (W_bind_run _ _ _ _ _ _ _ (sweep_file_run q w)).
  set (w1 := if removable (w_disk w) (w_db w) q then _ else w). destruct (IH w1) as (w' & Hr & Hb & Hn).
  assert (Hb1 : w_db w1 = w_db w) by (unfold w1; by destruct (removable _ _ q)).
  exists w'. split; [exact Hr |]. split; [by rewrite Hb |]. intros p. rewrite Hn, Hb1.
  assert (Hin : bool_decide (p ∈ q :: listing) = bool_decide (p = q) || bool_decide (p ∈ listing)).
  { apply eq_iff_eq_true. rewrite orb_true_iff, !bool_decide_eq_true, elem_of_cons. done. }
  rewrite Hin. unfold w1. destruct (removable (w_disk w) (w_db w) q) eqn:Eq; cbn [w_disk with_disk].
  - rewrite removable_del. cbn [names del_name]. destruct (decide (p = q)) as [E | E].
    + subst p. by rewrite andb_false_r, lookup_delete_eq, Eq, (bool_decide_eq_true_2 (q = q)).
    + rewrite (bool_decide_eq_false_2 (p = q)), lookup_delete_ne by done. done.
  - destruct (decide (p = q)) as [-> | E].
    + by rewrite Eq, !andb_false_r.
    + by rewrite (bool_decide_eq_false_2 (p = q)).
Qed.

Lemma published_with_sha_marks P b b' sha :
  marks P b b' → (∀ mid m, chat_messages b !! mid = Some m → P mid m = true → m_status m = Pending) →
  published_with_sha b' sha (λ _ _ _, true) = published_with_sha b sha (λ _ _ _, true).
Proof.
  intros [Eb Hm] Hp. unfold published_with_sha. rewrite Eb. cbn [message_resources chat_messages set_messages].
  induction (map_to_list (message_resources b)) as [| x l IH]; [done |]. cbn [existsb]. rewrite IH. f_equal.
  rewrite Hm. destruct (chat_messages b !! x.1) as [m |] eqn:E; [| done]. cbn.
  destruct (P x.1 m) eqn:Ep; [| done]. cbn. by rewrite (Hp _ _ E Ep).
Qed.

Lemma to_mark_pending cursor d mid m : to_mark cursor d mid m = true → m_status m = Pending.
Proof. unfold to_mark, unfinished. rewrite !andb_true_iff, bool_decide_eq_true. tauto. Qed.

(** The fuel that the number of messages needs. *)
Definition cleanup_fuel (b : db) : nat := S (S (size (chat_messages b))).

Lemma remaining_size b cursor : (length (remaining before b cursor) < cleanup_fuel b)%nat.
Proof.
  unfold cleanup_fuel, remaining. apply Nat.lt_succ_r. etrans; [apply length_filter |].
  unfold expired_rows. rewrite merge_sort_Permutation.
  etrans; [| apply Nat.le_succ_diag_r]. rewrite <- length_map_to_list.
  induction (map_to_list (chat_messages b)) as [| x l IH]; [done |]. cbn. case_match; cbn; lia.
Qed.
End cleanup.

Section theorems.
Context (root : path) (mtime : path → Z) (now : Z) (before : bytes).

(** The scan of the cleanup ends. Whatever fails, after as many pages as there are
    messages the loop has seen a short page, an empty one or an error: each
    page starts after the last row of the one before. *)
Theorem cleanup_scan_ends w t :
  dated (w_db w) →
  ∃ n w' t', expire_pages root mtime now before (cleanup_fuel (w_db w)) ([], 0) 0 w t = (Some n, w', t') ∧
    failing (w_db w) (w_db w').
Proof.
  intros Hd. destruct (expire_pages_total root mtime now before (cleanup_fuel (w_db w)) ([], 0) 0 w t) as (n & w' & t' & Hr & Hf & _);
    [done | apply remaining_size |]. by exists n, w', t'.
Qed.

(** C22: the cleanup takes exactly what is stale. When nothing fails it marks as Failed
    the resource messages that are Pending, older than the limit and whose
    partial file is missing or has not been written for a week, and no other
    row of any table changes; of the listed files it removes the partial
    files and the blobs that are a week old, but no blob that a published
    message refers to, and no other name. *)
Theorem RunResourceCleanup_exact listing w :
  dated (w_db w) → root ∈ dirs (w_disk w) →
  ∃ w', RunResourceCleanup root mtime now before (cleanup_fuel (w_db w)) listing w [] = (tt, w', []) ∧
    marks (λ mid m, unfinished before m && stale root mtime now (w_disk w) mid) (w_db w) (w_db w') ∧
    ∀ p, names (w_disk w') !! p =
      if bool_decide (p ∈ listing) && removable mtime now (w_disk w) (w_db w) p then None else names (w_disk w) !! p.
Proof.
  intros Hd Hroot.
  destruct (expire_pages_run root mtime now before (cleanup_fuel (w_db w)) ([], 0) 0 w) as (n & w1 & H1 & Hm & Hdk);
    [done | apply remaining_size |].
  destruct (sweep_run mtime now listing w1) as (w' & H2 & Hb & Hn). exists w'. split; [| split].
  - unfold RunResourceCleanup. rewrite (W_bind_run _ _ _ _ _ _ _ H1).
    assert (Ht : io (o ← syscall; d ← get; mret (io_ok o && bool_decide (root ∈ dirs d))) w1 [] = (true, w1, [])).
    { unfold io, mbind, IO_bind, mret, IO_ret, syscall, get. cbn. replace (bool_decide (root ∈ dirs (w_disk w1))) with true by (by rewrite Hdk, bool_decide_eq_true_2). by destruct w1. }
    rewrite (W_bind_run _ _ _ _ _ _ _ Ht). exact H2.
  - rewrite Hb. eapply marks_ext; [| exact Hm]. intros mid m _. unfold to_mark. by rewrite andb_true_r.
  - intros p. rewrite Hn, Hdk. unfold removable.
    rewrite (published_with_sha_marks _ _ _ _ Hm); [done |]. intros mid m _. apply to_mark_pending.
Qed.
End theorems.

(** ** A concrete run *)

(** Message 9 is still being uploaded, message 10 never was; an old blob that
    nobody refers to. Time is 10^6 seconds. *)
Definition demo_orphan : bytes := replicate 64 (mkbyte 97).
Definition demo_clean_disk : disk :=
  Disk {[ UploadingPartPath demo_root 9 := 0%nat; BlobPathOf demo_root demo_orphan := 1%nat ]}
    {[ 0%nat := § "abc"; 1%nat := § "xyz" ]} {[ demo_root; child demo_root (§ "uploading") ]} ∅ ∅.
Definition demo_clean : worker :=
  Worker demo_clean_disk (demo_db_of (ResRow (§ "f.png") 6 demo_sha (§ "image/png"))) ∅ [] [].
Definition demo_mtime (p : path) : Z := if bool_decide (p = UploadingPartPath demo_root 9) then 999999 else 1.
Definition demo_listing : list path := [UploadingPartPath demo_root 9; BlobPathOf demo_root demo_orphan].

Lemma demo_clean_dated : dated (w_db demo_clean).
Proof. by intros mid m [[-> ->] | [-> ->]]%demo_messages. Qed.

Definition demo_cleaned : unit * worker * tape :=
  RunResourceCleanup demo_root demo_mtime 1000000 (§ "2026-02-01") (cleanup_fuel (w_db demo_clean)) demo_listing demo_clean [].

Lemma cleanup_scan_ends_witness :
  ∃ n, (expire_pages demo_root demo_mtime 1000000 (§ "2026-02-01") (cleanup_fuel (w_db demo_clean)) ([], 0) 0 demo_clean [IoOk; IoOk; IoOk; IoFail 1]).1.1 = Some n.
Proof.
  destruct (cleanup_scan_ends demo_root demo_mtime 1000000 (§ "2026-02-01") demo_clean [IoOk; IoOk; IoOk; IoFail 1] demo_clean_dated)
    as (n & w' & t' & -> & _).
  by exists n.
Defined.

Lemma RunResourceCleanup_exact_witness :
  m_status <$> chat_messages (w_db demo_cleaned.1.2) !! 9 = Some Pending ∧
  m_status <$> chat_messages (w_db demo_cleaned.1.2) !! 10 = Some Failed ∧
  (∃ i, names (w_disk demo_cleaned.1.2) !! UploadingPartPath demo_root 9 = Some i) ∧
  names (w_disk demo_cleaned.1.2) !! BlobPathOf demo_root demo_orphan = None.
Proof.
  destruct (RunResourceCleanup_exact demo_root demo_mtime 1000000 (§ "2026-02-01") demo_listing demo_clean demo_clean_dated)
    as (w' & Hr & [_ Hm] & Hn); [apply (bool_decide_unpack _); vm_compute; exact I |].
  unfold demo_cleaned. rewrite Hr. cbn [fst snd]. rewrite !Hm, !Hn.
  split; [vm_compute; reflexivity |]. split; [vm_compute; reflexivity |].
  split; [exists 0%nat; vm_compute; reflexivity | vm_compute; reflexivity].
Defined.
