(* ===== verification/DownloadSystem.v ===== *)
(** * Uploads, chats and downloads together

    One disk and one set of tables under the upload worker, the download
    worker, the cleanup thread and the operations of the ChatServer: requests
    of any kind in any order, with any call failing. Whoever downloads a resource gets the bytes
    whose digest the message declares, and only members of the chat do. *)

From S2P Require Import Prelude ResourceWire ProtocolIds JsonFields Sha256 UploadFile Database ResourceDb FileWorker FileWorkerProofs TxLogic ChatDb ChatDbMessages ChatFriends ChatSync SystemDb BlobFrames DownloadWorker DownloadProofs Cleanup CleanupProofs.

(** ** What the other writers do to messages *)

(** Messages and resources are only added, a new message is no published
    resource, and a status goes from Pending to Failed at most. *)
Record db_grows (b b' : db) : Prop := {
  g_old : ∀ mid m, chat_messages b !! mid = Some m → ∃ m', chat_messages b' !! mid = Some m' ∧
    m_sender m' = m_sender m ∧ m_type m' = m_type m ∧ m_thread m' = m_thread m ∧
    (m_status m' = m_status m ∨ m_status m = Pending ∧ m_status m' = Failed);
  g_new : ∀ mid m', chat_messages b' !! mid = Some m' → chat_messages b !! mid = None →
    0 < mid ∧ (m_status m' = Published → message_resources b' !! mid = None);
  g_res : ∀ mid, is_Some (chat_messages b !! mid) → message_resources b' !! mid = message_resources b !! mid;
  g_pos : ∀ mid r, message_resources b' !! mid = Some r → message_resources b !! mid = Some r ∨ 0 < r_size r;
  g_chats : ∀ i pc, private_chats b !! i = Some pc → private_chats b' !! i = Some pc;
}.

Lemma db_grows_same b b' :
  chat_messages b' = chat_messages b → message_resources b' = message_resources b →
  (∀ i pc, private_chats b !! i = Some pc → private_chats b' !! i = Some pc) → db_grows b b'.
Proof.
  intros Em Er Hc. constructor; rewrite ?Em, ?Er; [| | done | auto | done].
  - intros mid m Hm. exists m. auto 10.
  - intros mid m Hm Hn. congruence.
Qed.

#[global] Instance db_grows_preorder : PreOrder db_grows.
Proof.
  split; [intros b; by apply db_grows_same |]. intros b b1 b2 H1 H2. constructor.
  - intros mid m (m1 & Hm1 & E1 & E2 & E3 & E4)%(g_old _ _ H1).
    destruct (g_old _ _ H2 mid m1 Hm1) as (m2 & Hm2 & F1 & F2 & F3 & F4).
    exists m2. split_and!; try congruence. destruct F4 as [F4 | [F4 F5]], E4 as [E4 | [E4 E5]]; [left; congruence | right; split; congruence ..].
  - intros mid m2 Hm2 Hn. destruct (chat_messages b1 !! mid) as [m1 |] eqn:Hm1; [| by apply (g_new _ _ H2)].
    destruct (g_new _ _ H1 mid m1 Hm1 Hn) as [Hp Hr]. split; [done |]. intros Hs.
    destruct (g_old _ _ H2 mid m1 Hm1) as (m & Hm & _ & _ & _ & [E | [_ E]]); simplify_eq; [| congruence].
    rewrite (g_res _ _ H2) by done. apply Hr. congruence.
  - intros mid Hm. rewrite (g_res _ _ H2), (g_res _ _ H1); [done | done |].
    destruct Hm as [m Hm]. by destruct (g_old _ _ H1 mid m Hm) as (m1 & -> & _).
  - intros mid r [Hr | ?]%(g_pos _ _ H2); [by apply (g_pos _ _ H1) | by right].
  - intros i pc Hi. by apply (g_chats _ _ H2), (g_chats _ _ H1).
Qed.

Lemma grows_append b r e : db_grows b (append_event b r e).
Proof.
  destruct (append_event_frame b r e) as (E1 & E2 & E3 & _). apply db_grows_same; [done | done |]. by rewrite E2.
Qed.

Lemma grows_same_rows b b' : same_rows b b' → db_grows b b'.
Proof. intros [_ ->]. by apply db_grows_same. Qed.

Lemma grows_more_chats b b' : more_chats b b' → db_grows b b'.
Proof.
  intros Hm. apply db_grows_same; [by rewrite (mc_same _ _ Hm) .. | apply (mc_chats _ _ Hm)].
Qed.

Lemma grows_failed b b' : rtc failed_once b b' → db_grows b b'.
Proof.
  induction 1 as [| b b1 b2 (mid & m & Hm & Hs & ->) _ IH]; [done |]. etrans; [| exact IH].
  constructor; [| | done | auto | done].
  - intros n x Hx. cbn. destruct (decide (n = mid)) as [-> |].
    + rewrite lookup_insert_eq. simplify_eq. eexists. split; [done |]. cbn. auto 10.
    + rewrite lookup_insert_ne by done. exists x. auto 10.
  - intros n x. cbn. destruct (decide (n = mid)) as [-> |]; [congruence |].
    rewrite lookup_insert_ne by done. congruence.
Qed.

Lemma grows_facts b b' : db_grows b b' → facts_kept b b'.
Proof.
  intros Hg mid f (m & Hm & Hs & E1 & E2 & Hr & Hres).
  destruct (g_old _ _ Hg mid m Hm) as (m' & Hm' & F1 & F2 & F3 & F4). exists m'.
  split_and!; try congruence.
  - destruct F4 as [| [? _]]; congruence.
  - unfold recipient_of in *. rewrite F3, F1. destruct (private_chats b !! m_thread m) as [pc |] eqn:Ep; [| done].
    by rewrite (g_chats _ _ Hg _ _ Ep).
  - rewrite (g_res _ _ Hg) by done. done.
Qed.

Section ops.
Context (weight : bytes → bytes).

(** The operations of other threads and of the ChatServer; sizes of resources
    are positive ([chk_message_resources_size]). *)
Definition outside (op : db_op) : Prop :=
  match op with
  | OpAddChatMsg _ message => match resource message with Some r => 0 < r_size r | None => True end
  | OpCompleteResourceUpload _ _ => False
  | _ => True
  end.

Lemma insert_message_grows b row :
  chat_messages b !! next_id b = None → 0 < next_id b → (m_status row = Published → message_resources b !! next_id b = None) →
  db_grows b (insert_message b row).
Proof.
  intros Hf Hn Hr. constructor; [| | done | auto | done].
  - intros mid m Hm. exists m. cbn. rewrite lookup_insert_ne by congruence. auto 10.
  - intros mid m. cbn. destruct (decide (mid = next_id b)) as [-> |].
    + rewrite lookup_insert_eq. intros [= <-] _. auto.
    + rewrite lookup_insert_ne by done. congruence.
Qed.

Lemma store_effect_grows b message r :
  chat_ok weight b → outside (OpAddChatMsg 0 message) → db_grows b (store_effect b message r).
Proof.
  intros (Ht & _) Ho. pose proof (fresh_message b (t_inv _ _ Ht)) as Hf.
  assert (Hres : message_resources b !! next_id b = None).
  { apply eq_None_not_Some. intros Hs%(t_resources _ _ Ht). rewrite Hf in Hs. by destruct Hs. }
  unfold store_effect. cbn in Ho. destruct (is_resource_type (message_type message)) eqn:Et.
  - destruct (resource message) as [res |].
    + constructor.
      * intros mid m Hm. exists m. cbn. rewrite lookup_insert_ne by congruence. auto 10.
      * intros mid m. cbn. destruct (decide (mid = next_id b)) as [-> |].
        -- rewrite lookup_insert_eq. intros [= <-] _. split; [apply (t_next _ _ Ht) |]. unfold row_of. cbn. by rewrite Et.
        -- rewrite lookup_insert_ne by done. congruence.
      * intros mid Hs. cbn. rewrite lookup_insert_ne; [done |]. intros <-. rewrite Hf in Hs. by destruct Hs.
      * intros mid x. cbn. destruct (decide (mid = next_id b)) as [-> |].
        -- rewrite lookup_insert_eq. intros [= <-]. by right.
        -- rewrite lookup_insert_ne by done. by left.
      * done.
    + etrans; [| apply grows_append]. apply insert_message_grows; [done | apply (t_next _ _ Ht) | done].
  - etrans; [| apply grows_append]. apply insert_message_grows; [done | apply (t_next _ _ Ht) | done].
Qed.

Lemma outside_grows op b b' : chat_ok weight b → outside op → db_step weight b op b' → db_grows b b'.
Proof.
  intros Hok Ho [t ->]. destruct op as [k message | q g message client | h fid accept | q g | | mid | mids | u icon]; cbn [run_op]; [| | | | done | | |].
  - destruct (AddChatMsg weight k message b t) as [[[rc c] d'] t'] eqn:E. cbn.
    apply AddChatMsg_spec in E as [(Hs & _) | (d0 & r & Hs & _ & -> & _)]; [by apply grows_same_rows |].
    etrans; [by apply grows_same_rows |]. apply store_effect_grows; [by eapply chat_ok_same_rows | exact Ho].
  - destruct (AddFriendApply weight q g message client b t) as [[res d'] t'] eqn:E. cbn.
    apply AddFriendApply_spec in E as [Hout _]; [| apply (t_next _ _ (proj1 Hok))].
    destruct Hout as [[Hs _] | (x & [[-> _] | (Hq & -> & _)] & _)]; [by apply grows_same_rows | done |].
    unfold request_effect. etrans; [| apply grows_append]. by apply db_grows_same.
  - destruct (HandleFriendApply h fid accept b t) as [[res d'] t'] eqn:E. cbn.
    apply (HandleFriendApply_spec weight) in E as [[Hs _] | (x & (f & Hi & _ & [(_ & -> & _) | (Hst & _ & Heff)]) & _)];
      [by apply grows_same_rows | done | | done].
    destruct accept.
    + destruct Heff as (tid & d1 & Hup & -> & _). etrans; [by apply grows_more_chats, (up_more _ _ _ _ _ _ Hup) |].
      unfold accept_effect. etrans; [| apply grows_append]. by apply db_grows_same.
    + subst d'. unfold reject_effect. etrans; [| apply grows_append]. by apply db_grows_same.
  - destruct (CreatePrivateChat q g b t) as [[[ok tid] d'] t'] eqn:E. cbn.
    apply (CreatePrivateChat_spec weight) in E as [[-> _] | (_ & _ & tid' & Hup & _)]; [done | | done].
    apply grows_more_chats, (up_more _ _ _ _ _ _ Hup).
  - apply grows_failed, MarkResourceFailed_fails.
  - destruct (MarkResourceExpired_fails mids b t); [by apply grows_same_rows | by apply grows_failed].
  - destruct (UpdateHeadInfo_effect u icon b t) as [Hs | (r & v & i & _ & ->)]; [by apply grows_same_rows | by apply db_grows_same].
Qed.
End ops.

(** ** The server *)

(** [s_uids] is the user a connection is logged in as; a connection logs in
    at most once ([TrySetAuth]). *)
Record system := System {
  s_worker : worker;
  s_cache : gmap Z PublishedCacheEntry;
  s_handles : gmap Z FileHandleEntry;
  s_replies : list (Z * Z * json * bytes);
  s_uids : gmap Z Z;
}.

Definition s_db (s : system) : db := w_db (s_worker s).
Definition s_disk (s : system) : disk := w_disk (s_worker s).
Definition down_view (s : system) : dworker := DWorker (s_disk s) (s_db s) (s_cache s) (s_handles s) (s_replies s).
Definition with_worker (s : system) (w : worker) : system :=
  System w (s_cache s) (s_handles s) (s_replies s) (s_uids s).
Definition with_down (s : system) (w : dworker) : system :=
  System (with_db (with_disk (s_worker s) (dw_disk w)) (dw_db w)) (published_cache w) (file_handles w) (dw_sent w) (s_uids s).
Definition uid_of (s : system) (conn : Z) : Z := default 0 (s_uids s !! conn).
Definition seen_in (s : system) (conn uid : Z) : Prop := uid = 0 ∨ s_uids s !! conn = Some uid.

Inductive sys_op :=
  | OpLogin (conn uid : Z)
  | OpUpload (r : request)
  | OpOther (op : db_op)
  | OpSweep (p : path)
  | OpInfo (conn mid : Z)
  | OpChunk (now conn mid offset : Z).

Section system.
Context `{Sha256Lib} (root : path) (handle_order : gmap Z FileHandleEntry → list (Z * FileHandleEntry))
  (weight : bytes → bytes).
Abbreviation Blob := (BlobPathOf root).

(** An upload request that leaves a partial file with a second name or a
    stale digest (possible when an [unlink] fails in a request answered with
    an error) is not a step: from there on the worker writes through the
    blob. The cleanup marks by [OpMarkResourceExpired] and takes its files one
    by one; it holds the lock of the publication while it takes one. That it
    leaves the partial files of open sessions is assumed: they are a week
    old, and sessions are dropped after half an hour. *)
Inductive sys_step : system → sys_op → system → Prop :=
  | StepLogin s conn uid :
      s_uids s !! conn = None → 0 < uid →
      sys_step s (OpLogin conn uid)
        (System (s_worker s) (s_cache s) (s_handles s) (s_replies s) (<[conn := uid]> (s_uids s)))
  | StepUpload s r t u w' t' :
      serve root r (s_worker s) t = (u, w', t') → worker_trusted root w' → sys_step s (OpUpload r) (with_worker s w')
  | StepOther s op b' :
      outside op → db_step weight (s_db s) op b' → sys_step s (OpOther op) (with_worker s (with_db (s_worker s) b'))
  | StepSweep s mtime now p t u w' t' :
      (∀ mid, is_Some (upload_sessions (s_worker s) !! mid) → p ≠ UploadingPartPath root mid) →
      sweep_file mtime now p (s_worker s) t = (u, w', t') → sys_step s (OpSweep p) (with_worker s w')
  | StepInfo s conn mid t u w' t' :
      HandleResourceDownInfo root conn (uid_of s conn) mid (down_view s) t = (u, w', t') →
      sys_step s (OpInfo conn mid) (with_down s w')
  | StepChunk s now conn mid offset t u w' t' :
      HandleResourceChunkDown root handle_order now conn (uid_of s conn) mid offset (down_view s) t = (u, w', t') →
      sys_step s (OpChunk now conn mid offset) (with_down s w').

Definition reply_true (s : system) (x : Z * Z * json * bytes) : Prop :=
  ∃ conn mid, info_outcome root (seen_in s) conn mid (s_db s) x ∨
    ∃ offset, chunk_down_outcome root (seen_in s) conn mid offset (s_disk s) (s_db s) x.

Record sys_ok (s : system) : Prop := {
  so_tables : chat_ok weight (s_db s);
  so_worker : worker_ok root (s_worker s);
  so_trusted : worker_trusted root (s_worker s);
  so_down : download_ok root (seen_in s) (down_view s);
  so_replies : Forall (reply_true s) (s_replies s);
}.

(** *** What was true stays true *)

Definition blobs_stay (b : db) (d d' : disk) : Prop :=
  ∀ mid f i x, published_as b mid f → names d !! Blob (r_sha (pf_resource f)) = Some i → inodes d !! i = Some x →
    names d' !! Blob (r_sha (pf_resource f)) = Some i ∧ inodes d' !! i = Some x.

(** The later state knows everything the earlier one knew. *)
Record later (s s' : system) : Prop := {
  l_facts : facts_kept (s_db s) (s_db s');
  l_blobs : blobs_stay (s_db s) (s_disk s) (s_disk s');
  l_uids : s_uids s ⊆ s_uids s';
}.

Lemma blobs_stay_content b d d' mid f x :
  blobs_stay b d d' → published_as b mid f → content d (Blob (r_sha (pf_resource f))) = Some x →
  content d' (Blob (r_sha (pf_resource f))) = Some x.
Proof.
  unfold content. intros Hb Hp. destruct (names d !! Blob _) as [i |] eqn:Ei; [| done]. cbn. intros Hf.
  destruct (Hb mid f i x Hp Ei Hf) as [-> Hf']. done.
Qed.

Lemma may_read_later s s' conn mid f :
  later s s' → may_read (seen_in s) (s_db s) conn mid f → may_read (seen_in s') (s_db s') conn mid f.
Proof.
  intros [Hf _ Hs] (Hp & uid & Hu & Hm). split; [by apply Hf |]. exists uid. split; [| done].
  destruct Hu as [| Hu]; [by left | right]. by eapply lookup_weaken.
Qed.

Lemma reply_true_later s s' x : later s s' → reply_true s x → reply_true s' x.
Proof.
  intros Hl (conn & mid & Hx). exists conn, mid. destruct Hx as [[Hx | (f & Hf & Hx)] | (offset & Hx)].
  - left. by left.
  - left. right. exists f. split; [by eapply may_read_later | done].
  - right. exists offset. destruct Hx as [Hx | (f & file & hash & Hf & Hc & Hrest)]; [by left | right].
    exists f, file, hash. cbv zeta in *. split; [by eapply may_read_later |]. split; [| done].
    eapply blobs_stay_content; [apply (l_blobs _ _ Hl) | apply Hf | done].
Qed.

Lemma down_later s s' :
  later s s' → disk_wf (s_disk s) → s_cache s' = s_cache s → s_handles s' = s_handles s →
  published_backed root (s_disk s') (s_db s') → download_ok root (seen_in s) (down_view s) → download_ok root (seen_in s') (down_view s').
Proof.
  intros Hl Hw Ec Eh Hb (Hc & Hh & _). split; [| split; [| done]]; cbn in *.
  - rewrite Ec. intros mid e He. destruct (Hc mid e He) as (f & Hf & ->). exists f. split; [by eapply may_read_later | done].
  - rewrite Eh. intros mid h Hm. destruct (Hh mid h Hm) as (f & Hf & Hi). exists f. split; [by apply (l_facts _ _ Hl) |].
    destruct (Hw _ _ Hi) as [x Hx]. by apply (l_blobs _ _ Hl mid f _ x).
Qed.

(** A file that is no longer there was of no use. *)
Lemma swept_worker p w w' :
  worker_ok root w → worker_trusted root w → sweep_effect p w w' →
  (∀ mid, is_Some (upload_sessions w !! mid) → p ≠ UploadingPartPath root mid) →
  worker_ok root w' ∧ worker_trusted root w' ∧ w_db w' = w_db w ∧ blobs_stay (w_db w) (w_disk w) (w_disk w').
Proof.
  intros Hok Htr Heff Hs. assert (Hblob : ∀ sha, ¬ unreferenced (w_db w) sha → names (w_disk w') !! Blob sha = names (w_disk w) !! Blob sha)
    by (intros sha; by apply (sweep_effect_blob root p)).
  destruct Heff as [-> | (-> & _ & _)]; [split_and!; try done; by intros ? |]. cbn [w_disk with_disk] in Hblob.
  destruct Hok as (Hw & Hi & Hp & Hb & Hses), Htr as [Hpr Hh].
  assert (Hpart : ∀ mid, is_Some (upload_sessions w !! mid) →
    part_bytes (del_name (w_disk w) p) (UploadingPartPath root mid) = part_bytes (w_disk w) (UploadingPartPath root mid)).
  { intros mid Hm. unfold part_bytes, content. cbn. by rewrite lookup_delete_ne by by apply Hs. }
  split; [| split; [| split; [done |]]].
  - split; [intros q i Hq; cbn in Hq; apply lookup_delete_Some in Hq as [_ Hq]; by eapply Hw |]. split; [done |]. split; [done |]. split.
    + intros mid m res Hm Hst Hr. destruct (Hb mid m res Hm Hst Hr) as (f & Hf & Hrest). exists f. split; [| done].
      unfold content in *. rewrite Hblob; [done |]. intros Hu. by apply (Hu mid m res).
    + intros mid s Hms. destruct (Hses mid s Hms) as (Hrow & Hpo & Hc). split; [done |]. split; [| done].
      cbn [w_disk with_disk]. unfold part_ok in *. by rewrite Hpart.
  - split.
    + intros mid q Hq (i & Hi1 & Hi2). cbn in Hi1, Hi2. apply lookup_delete_Some in Hi1 as [_ Hi1], Hi2 as [_ Hi2]. apply (Hpr mid q Hq). by exists i.
    + intros mid s Hms. pose proof (Hh mid s Hms) as Hhs. unfold hash_ok in *. cbn [w_disk with_disk]. by rewrite Hpart.
  - intros mid f i x (m & Hm & Hst & _ & _ & _ & Hr) Hn Hx. split; [| done].
    rewrite Hblob; [done |]. intros Hu. by apply (Hu mid m (pf_resource f)).
Qed.

Lemma worker_ok_grows w b' :
  worker_ok root w → db_inv b' → db_grows (w_db w) b' → worker_ok root (with_db w b').
Proof.
  intros (Hw & _ & [Hp1 Hp2] & Hb & Hs) Hi Hg.
  assert (Hkept : ∀ mid m, chat_messages (w_db w) !! mid = Some m → message_resources b' !! mid = message_resources (w_db w) !! mid)
    by (intros mid m Hm; apply (g_res _ _ Hg); by exists m).
  split; [done |]. split; [done |]. split; [split |]; cbn.
  - intros mid m Hm. destruct (chat_messages (w_db w) !! mid) as [x |] eqn:E; [by eapply Hp1 | by eapply (g_new _ _ Hg)].
  - intros mid r [Hr | ?]%(g_pos _ _ Hg); [by eapply Hp2 | done].
  - split.
    + intros mid m res Hm Hst Hr. cbn in *. destruct (chat_messages (w_db w) !! mid) as [x |] eqn:E.
      * destruct (g_old _ _ Hg mid x E) as (m' & Hm' & _ & _ & _ & [Es | [_ Es]]); simplify_eq; [| congruence].
        apply (Hb mid x); [done | congruence |]. by rewrite <- (Hkept mid x).
      * destruct (g_new _ _ Hg mid m Hm E) as [_ Hn]. rewrite Hn in Hr by done. done.
    + intros mid s Hms. destruct (Hs mid s Hms) as ((m & res & Hm & Hr & E1 & E2 & E3) & Hp & Hc). split; [| split; [done |]].
      * destruct (g_old _ _ Hg mid m Hm) as (m' & Hm' & F1 & _). exists m', res. cbn. rewrite (Hkept mid m Hm). split_and!; congruence.
      * intros Ha. destruct (Hc Ha) as (n & x & r & Hx & Hst & Hres & ? & ?).
        destruct (g_old _ _ Hg n x Hx) as (x' & Hx' & _ & _ & _ & [Es | [Es _]]); [| congruence].
        exists n, x', r. cbn. rewrite (Hkept n x Hx). split_and!; congruence.
Qed.

(** *** Every step *)

Lemma later_refl s : later s s.
Proof. constructor; [done | by intros ? | done]. Qed.

Lemma sys_ok_login s conn uid :
  sys_ok s → s_uids s !! conn = None →
  sys_ok (System (s_worker s) (s_cache s) (s_handles s) (s_replies s) (<[conn := uid]> (s_uids s))).
Proof.
  intros [Ht Hw Htr Hd Hr] Hn. set (s' := System _ _ _ _ _).
  assert (Hl : later s s') by (constructor; [done | by intros ? | by apply insert_subseteq]).
  constructor; try done; cbn.
  - apply (down_later s s'); try done; [apply Hw | apply Hd].
  - eapply Forall_impl; [exact Hr |]. intros x. by apply reply_true_later.
Qed.

(** A step of another component that keeps the blobs and the published
    messages, and leaves the upload worker in order. *)
Lemma sys_ok_worker s w' :
  sys_ok s → chat_ok weight (w_db w') → worker_ok root w' → worker_trusted root w' →
  facts_kept (s_db s) (w_db w') → blobs_stay (s_db s) (s_disk s) (w_disk w') → sys_ok (with_worker s w').
Proof.
  intros [Ht Hw Htr Hd Hr] Ht' Hw' Htr' Hf Hb. set (s' := with_worker s w').
  assert (Hl : later s s') by by constructor.
  constructor; try done.
  - apply (down_later s s'); try done; [apply Hw | apply Hw'].
  - eapply Forall_impl; [exact Hr |]. intros x. by apply reply_true_later.
Qed.

(** A request to the download worker, once its answer is known to be true. *)
Lemma sys_ok_down s w' x :
  sys_ok s → d_same (down_view s) w' → download_ok root (seen_in s) w' →
  dw_sent w' = s_replies s ++ [x] → reply_true s x → sys_ok (with_down s w').
Proof.
  intros [Ht Hw Htr Hd Hr] [E1 E2] Hd' Es Hx. cbn in E1, E2.
  assert (Hww : with_db (with_disk (s_worker s) (dw_disk w')) (dw_db w') = s_worker s).
  { rewrite E1, E2. unfold s_disk, s_db. by destruct (s_worker s). }
  assert (Hdb : s_db (with_down s w') = s_db s) by exact E2.
  assert (Hdk : s_disk (with_down s w') = s_disk s) by exact E1.
  constructor; cbn [with_down s_worker s_uids s_replies].
  - by rewrite Hdb.
  - by rewrite Hww.
  - by rewrite Hww.
  - unfold down_view. rewrite Hdb, Hdk. cbn. unfold download_ok in *. cbn. by rewrite E1, E2 in Hd'.
  - rewrite Es. assert (Hl : later s (with_down s w')).
    { constructor; [by rewrite Hdb | by rewrite Hdk; intros ? | done]. }
    apply Forall_app_2; [| constructor; [| done]].
    + eapply Forall_impl; [exact Hr |]. intros y. by apply reply_true_later.
    + by eapply reply_true_later.
Qed.

Lemma seen_now s conn : seen_in s conn (uid_of s conn).
Proof. unfold uid_of, seen_in. destruct (s_uids s !! conn) as [uid |] eqn:E; auto. Qed.

Lemma sys_step_ok s op s' : sys_ok s → sys_step s op s' → sys_ok s'.
Proof.
  intros Hok Hstep. pose proof Hok as [Ht Hw Htr _ _].
  destruct Hstep as [s conn uid Hn Hp | s r t u w' t' Hr Htr' | s op b' Ho Hb | s mtime now p t u w' t' Hs Hr | s conn mid t u w' t' Hr | s now conn mid offset t u w' t' Hr].
  - by apply sys_ok_login.
  - destruct (serve_keeps_blobs root (λ b, chat_ok weight b ∧ facts_kept (s_db s) b)) with (6 := Hr) as [Hbl [Ht' Hf]].
    + intros mid sender b t0 x b1 t1 Hc [Hk Hf]. split; [| by etrans; [| eapply publish_facts]].
      pose proof (CompleteResourceUpload_good weight mid sender b t0 Hk) as [Hg _]. by rewrite Hc in Hg.
    + intros mid b t0 x b1 t1 Hc [Hk Hf]. split; [| by etrans; [| eapply failed_facts]].
      pose proof (MarkResourceFailed_good weight mid b t0 Hk) as [Hg _]. by rewrite Hc in Hg.
    + apply Hw.
    + apply Htr.
    + by split.
    + apply sys_ok_worker; try done.
      * by destruct (upload_requests_ok root r _ _ _ _ _ Hw Htr Hr).
      * intros mid f i x _. apply Hbl.
  - pose proof (outside_grows weight op _ _ Ht Ho Hb) as Hg.
    destruct (db_step_good weight _ _ _ Ht Hb) as [Ht' _].
    apply sys_ok_worker; try done; [| by apply grows_facts].
    apply worker_ok_grows; [done | apply (t_inv _ _ (proj1 Ht')) | done].
  - apply sweep_file_effect in Hr. destruct (swept_worker p _ _ Hw Htr Hr Hs) as (Hw' & Htr' & Hdb & Hbl).
    apply sys_ok_worker; try done; by rewrite Hdb.
  - apply HandleResourceDownInfo_done with (seen := seen_in s) in Hr as (Hs & Hd & x & Hx & Ho); [| apply Hok | apply seen_now].
    eapply sys_ok_down; try done. exists conn, mid. by left.
  - apply HandleResourceChunkDown_done with (seen := seen_in s) in Hr as (Hs & Hd & x & Hx & Ho); [| apply Hok | apply seen_now].
    eapply sys_ok_down; try done. exists conn, mid. right. by exists offset.
Qed.

(** Empty caches, nobody logged in, nothing sent. *)
Record sys_start (s : system) : Prop := {
  ss_tables : chat_ok weight (s_db s);
  ss_worker : worker_ok root (s_worker s);
  ss_trusted : worker_trusted root (s_worker s);
  ss_empty : s_cache s = ∅ ∧ s_handles s = ∅ ∧ s_replies s = [] ∧ s_uids s = ∅;
}.

Lemma sys_start_ok s : sys_start s → sys_ok s.
Proof.
  intros [Ht Hw Htr (Ec & Eh & Er & Eu)]. constructor; try done.
  - split; [| split; [| apply Hw]]; cbn; rewrite ?Ec, ?Eh; intros mid e; by rewrite lookup_empty.
  - rewrite Er. constructor.
Qed.

Lemma reachable_sys_ok s : reachable sys_start sys_step s → sys_ok s.
Proof. apply reachable_invariant; [apply sys_start_ok | apply sys_step_ok]. Qed.


(** Members can always download. In every reachable state, a connection logged in
    as a member of a Published message that asks for one chunk after the
    other gets, when no call fails, exactly one successful reply each, and
    their bytes together are the file: the declared size, the declared
    digest. *)
Theorem members_get_the_file s conn uid mid f times :
  reachable sys_start sys_step s → s_uids s !! conn = Some uid → published_as (s_db s) mid f → member f uid →
  r_size (pf_resource f) < 2 ^ 64 →
  (Z.of_nat (length times) - 1) * kUploadChunkSize < r_size (pf_resource f) <= Z.of_nat (length times) * kUploadChunkSize →
  ∃ w' replies, ask_chunks root handle_order times conn uid mid 0 (down_view s) [] = (tt, w', []) ∧
    dw_sent w' = s_replies s ++ replies ∧ length replies = length times ∧
    Forall (chunk_sent conn mid (r_size (pf_resource f))) replies ∧
    zlen (concat (snd <$> replies)) = r_size (pf_resource f) ∧
    ToLowerHex (sha256 (concat (snd <$> replies))) = r_sha (pf_resource f).
Proof.
  intros Hs Hu Hp Hm Hsz Hlen. pose proof (reachable_sys_ok s Hs) as Hok.
  assert (Hfile : ∃ file, content (s_disk s) (Blob (r_sha (pf_resource f))) = Some file ∧
    zlen file = r_size (pf_resource f) ∧ ToLowerHex (sha256 file) = r_sha (pf_resource f)).
  { destruct Hp as (m & Hmm & Hst & _ & _ & _ & Hres). by apply (proj2 (proj2 (so_down _ Hok)) mid m). }
  destruct Hfile as (file & Hf & Hz & Hsha).
  destruct (ask_chunks_run root handle_order (seen_in s) times conn uid mid 0 f (down_view s) file) as (w' & replies & Hr & Hse & Hl & Hc & Hall);
    try done; [apply Hok | by right | lia |].
  exists w', replies. rewrite Z.sub_0_r, Z.min_r in Hc by lia.
  assert (Ha : concat (snd <$> replies) = file).
  { rewrite Hc. unfold zslice. rewrite drop_0. apply take_ge. unfold zlen in Hz. lia. }
  rewrite Ha. by split_and!.
Qed.
End system.

(** ** A concrete run *)

(** A store without files and two users. *)
Definition demo_store : system :=
  System (Worker (w_disk demo_worker) demo_strangers ∅ [] []) ∅ ∅ [] ∅.

Lemma demo_store_start : @sys_start toy_sha256 demo_root demo_weight demo_store.
Proof.
  assert (Hn : ∀ p i, names (w_disk demo_worker) !! p = Some i → False) by (intros p i Hp; cbn in Hp; by rewrite lookup_empty in Hp).
  constructor.
  - apply demo_strangers_ok.
  - split; [intros p i Hp; by destruct (Hn p i) |]. split; [apply (t_inv _ _ (proj1 demo_strangers_ok)) |].
    split; [split; intros i x Hx; cbn in Hx; by rewrite lookup_empty in Hx |].
    split; [intros i x r Hx; cbn in Hx; by rewrite lookup_empty in Hx | apply map_Forall_empty].
  - split; [intros mid q _ (i & Hi & _); by destruct (Hn _ _ Hi) | apply map_Forall_empty].
  - done.
Qed.

Definition demo_order (m : gmap Z FileHandleEntry) : list (Z * FileHandleEntry) := map_to_list m.

(** A chat, a picture in it, its upload, the recipient's login and download. *)
Definition demo_picture : ChatDb.ChatMessage :=
  ChatDb.ChatMsg 0 1 1 0 (§ "c1") PIC [] Pending (§ "2026-01-01") (Some (ResRow (§ "f.png") 6 demo_sha (§ "image/png"))) 0.

Definition after_db (op : db_op) (s : system) : system :=
  with_worker s (with_db (s_worker s) (run_op demo_weight op (s_db s) [])).
Definition demo_chat : system := after_db (OpCreatePrivateChat 1 2) demo_store.
Definition demo_sent : system := after_db (OpAddChatMsg 2 demo_picture) demo_chat.
Definition demo_upload : unit * worker * tape :=
  @serve toy_sha256 demo_root (ReqChunk 0 7 1 2 0 true demo_sha (§ "abcdef")) (s_worker demo_sent) [].
Definition demo_published : system := with_worker demo_sent demo_upload.1.2.
Definition demo_login : system :=
  System (s_worker demo_published) ∅ ∅ [] (<[8 := 2]> ∅).
Definition demo_down : unit * dworker * tape :=
  @HandleResourceChunkDown toy_sha256 demo_root demo_order 5 8 2 2 0 (down_view demo_login) [].

Lemma demo_sent_ok : @sys_ok toy_sha256 demo_root demo_weight demo_sent.
Proof.
  eapply sys_step_ok; [eapply sys_step_ok; [apply sys_start_ok, demo_store_start |] |].
  - apply (StepOther _ demo_order _ demo_store (OpCreatePrivateChat 1 2)); [done | by exists []].
  - apply (StepOther _ demo_order _ demo_chat (OpAddChatMsg 2 demo_picture)); [done | by exists []].
Qed.

Lemma demo_upload_sent : sent demo_upload.1.2 = [rsp 7 (published_chunk_reply 2 0 6 1)].
Proof. vm_compute. reflexivity. Qed.

Lemma demo_upload_trusted : @worker_trusted toy_sha256 demo_root demo_upload.1.2.
Proof.
  pose proof demo_sent_ok as Hok.
  destruct (@upload_requests_ok toy_sha256 demo_root (ReqChunk 0 7 1 2 0 true demo_sha (§ "abcdef")) _ [] _ _ _
    (so_worker _ _ _ Hok) (so_trusted _ _ _ Hok) (run_W demo_upload)) as [_ [Ht | (c & mid & off & e & o & He & Hs)]]; [exact Ht | exfalso].
  pose proof (eq_trans (eq_sym demo_upload_sent) Hs) as Hx.
  apply (f_equal (λ l, match l with [(_, _, JObject ((_, JInteger z) :: _))] => z | _ => 1 end)) in Hx.
  apply He. symmetry. exact Hx.
Qed.

Lemma run_D {A} (r : A * dworker * tape) : r = (r.1.1, r.1.2, r.2).
Proof. by destruct r as [[a w] t]. Qed.

Lemma demo_login_reachable :
  reachable (@sys_start toy_sha256 demo_root demo_weight) (@sys_step toy_sha256 demo_root demo_order demo_weight) demo_login.
Proof.
  apply (reach_step _ _ demo_published (OpLogin 8 2)); [| by apply StepLogin].
  apply (reach_step _ _ demo_sent (OpUpload (ReqChunk 0 7 1 2 0 true demo_sha (§ "abcdef"))));
    [| eapply StepUpload; [exact (run_W demo_upload) | exact demo_upload_trusted]].
  apply (reach_step _ _ demo_chat (OpOther (OpAddChatMsg 2 demo_picture))); [| apply StepOther; [done | by exists []]].
  apply (reach_step _ _ demo_store (OpOther (OpCreatePrivateChat 1 2))); [| apply StepOther; [done | by exists []]].
  apply reach_init, demo_store_start.
Qed.


Definition demo_facts : published_facts := Facts 1 2 PIC (ResRow (§ "f.png") 6 demo_sha (§ "image/png")).

Lemma members_get_the_file_witness :
  ∃ w' replies, @ask_chunks toy_sha256 demo_root demo_order [5] 8 2 2 0 (down_view demo_login) [] = (tt, w', []) ∧
    dw_sent w' = replies ∧ zlen (concat (snd <$> replies)) = 6.
Proof.
  destruct (@members_get_the_file toy_sha256 demo_root demo_order demo_weight demo_login 8 2 2 demo_facts [5] demo_login_reachable)
    as (w' & replies & H1 & H2 & _ & _ & H3 & _).
  - vm_compute. reflexivity.
  - eexists. split; [vm_compute; reflexivity |]. split_and!; vm_compute; reflexivity.
  - split; [done | by right].
  - done.
  - done.
  - exists w', replies. split; [exact H1 |]. split; [exact H2 | exact H3].
Defined.
