(* ===== verification/ResourceDispatch.v ===== *)
(** * Dispatch of requests (ResourceServer/src/ResourceLogicWorker.cpp)

    A frame a session has read is a task of a logic worker. [task_callback]
    lets a login through, refuses everything else on a session that has not
    logged in, and parses the other requests into tasks for the upload and
    download workers (FileWorker.v, DownloadWorker.v); a message goes to the
    same worker every time. An exception of a handler ends the task and is
    swallowed by [RunGuarded]; it is [None] here. *)

From S2P Require Import Prelude ResourceWire ProtocolIds SessionLifecycle JsonFields Sha256 UploadFile ChatSession ChatLogic StatusService ResourceSession.

(** ** Routing *)

Definition FILE_WORKER_COUNT : Z := 4.
Definition DOWN_LOAD_WORKER_COUNT : Z := 4.

Definition ResourceWorkerIndex (message_id worker_count : Z) : Z := s32 (u64 message_id mod u64 worker_count).

(** ** Tasks of the workers *)

(** [FileTask] of an avatar, with what its callback has captured. *)
Record FileTask := Avatar {
  av_uid : Z; av_path : path; av_name : bytes; av_seq : Z; av_total : Z; av_trans : Z; av_last : Z; av_data : bytes;
  av_md5 : bytes; av_last_seq : Z }.

Record DownloadTask := AvatarDown {
  ad_uid : Z; ad_name : bytes; ad_seq : Z; ad_path : path; ad_client : bytes; ad_type : bytes }.

Inductive job :=
  | JobAvatar (a : FileTask)
  | JobAvatarDown (a : DownloadTask)
  | JobChunk (message_id offset : Z) (chunk_sha256 data : bytes)
  | JobProgress (uid message_id : Z)
  | JobProof (uid message_id : Z) (proof : bytes)
  | JobDownInfo (message_id : Z)
  | JobChunkDown (message_id offset : Z).

(** The queue of an upload worker or of a download worker. *)
Inductive queue := Uploads (index : Z) | Downloads (index : Z).

(** The session of the task, the strings of Redis, and what has been posted. *)
Record front := Front {
  f_session : session;
  f_redis : gmap bytes bytes;
  f_jobs : list (queue * job);
}.

Definition F (A : Type) : Type := front → tape → option A * front * tape.
#[global] Instance F_ret : MRet F := λ A a f t, (Some a, f, t).
#[global] Instance F_bind : MBind F := λ A B k m f t,
  match m f t with
  | (None, f', t') => (None, f', t')
  | (Some a, f', t') => k a f' t'
  end.

Definition throw {A} : F A := λ f t, (None, f, t).
(** [get<T>()] of a value of another type throws. *)
Definition need {A} (o : option A) : F A := λ f t, (o, f, t).

Definition on_session (g : session → session) : F unit := λ f t,
  (Some tt, Front (g (f_session f)) (f_redis f) (f_jobs f), t).
Definition post (q : queue) (j : job) : F unit := λ f t,
  (Some tt, Front (f_session f) (f_redis f) (f_jobs f ++ [(q, j)]), t).
Definition GetUserId : F Z := λ f t, (Some (user_uid (f_session f)), f, t).

(** [RedisMgr::Get] and [RedisMgr::SetExp]. *)
Definition Get (k : bytes) : F (option bytes) := λ f t,
  let '(o, t') := tape_next t in
  (Some (if io_ok o then option_map c_str (f_redis f !! c_str k) else None), f, t').

Definition SetExp (k v : bytes) : F bool := λ f t,
  let '(o, t') := tape_next t in
  let f' := Front (f_session f) (<[c_str k := c_str v]> (f_redis f)) (f_jobs f) in
  match o with
  | IoOk => (Some true, f', t')
  | IoFail 0 => (Some false, f, t')
  | IoFail (S _) => (Some false, f', t')
  end.

(** [std::stoll]: blanks, a sign, digits; what follows is ignored. *)
Definition isspace (b : Byte.byte) : bool := (bval b =? 32) || ((9 <=? bval b) && (bval b <=? 13)).

Fixpoint skip_space (s : bytes) : bytes :=
  match s with
  | b :: r => if isspace b then skip_space r else s
  | [] => []
  end.

Fixpoint leading_digits (s : bytes) : bytes :=
  match s with
  | b :: r => if isdigit b then b :: leading_digits r else []
  | [] => []
  end.

Definition sign_of (s : bytes) : bool * bytes :=
  match s with
  | b :: r => if bval b =? 45 then (true, r) else if bval b =? 43 then (false, r) else (false, s)
  | [] => (false, [])
  end.

Definition stoll (s : bytes) : option Z :=
  let '(negative, s) := sign_of (skip_space s) in
  let digits := leading_digits s in
  if bool_decide (digits = []) then None
  else
    let z := if negative then - digits_value digits else digits_value digits in
    if (z <? - 2 ^ 63) || (int64_max <? z) then None else Some z.

(** ** Progress of avatars in Redis (ResourceServer/src/RedisMgr.cpp) *)

Record FileInfo := Info { fi_path : bytes; fi_name : bytes; fi_seq : Z; fi_total : Z; fi_trans : Z }.

Definition info_json (i : FileInfo) : json :=
  JObject [(§ "file_path_str", JString (fi_path i)); (§ "name", JString (fi_name i)); (§ "seq", jnum (fi_seq i));
           (§ "total_size", JString (ll_string (fi_total i))); (§ "trans_size", JString (ll_string (fi_trans i)))].

(** [root[k].get<std::string>()] and [root[k].get<int>()]; [None] throws. *)
Definition text_at (root : option json) (k : bytes) : option bytes := v ← at_key root k; get_string v.
Definition int_at (root : option json) (k : bytes) : option Z := v ← at_key root k; get_int v.
Definition number_at (root : option json) (k : bytes) : option Z := s ← text_at root k; stoll s.

Definition parse_info (root : option json) : option FileInfo :=
  p ← text_at root (§ "file_path_str");
  n ← text_at root (§ "name");
  s ← int_at root (§ "seq");
  total ← number_at root (§ "total_size");
  trans ← number_at root (§ "trans_size");
  Some (Info p n s total trans).

Section dispatch.
Context `{JsonLib} (out_path : path) (path_string : path → bytes) (hash : bytes → Z).

Definition SetFileInfo (name : bytes) (i : FileInfo) : F bool := SetExp (§ "file_upload_" ++ name) (json_dump (info_json i)).

Definition GetFileInfo (name : bytes) : F (option FileInfo) :=
  value ← Get (§ "file_upload_" ++ name);
  match value with
  | None | Some [] => mret None
  | Some s => mret (match json_parse s with None => None | root => parse_info root end)
  end.

(** ** Replies *)

(** A 1512 reply is a binary frame, every other one is JSON text. *)
Definition rsp_body (rsp_id : Z) (meta : json) (raw : bytes) : option bytes :=
  if rsp_id =? MsgId_code MSG_RESOURCE_CHUNK_DOWN_RSP then EncodeFrame (json_dump meta) raw false
  else Some (json_dump meta).

Definition SendRspFrame (rsp_id : Z) (meta : json) (raw : bytes) : F unit :=
  match rsp_body rsp_id meta raw with
  | Some body => on_session (λ s, Send s body rsp_id)
  | None => mret tt
  end.

Definition SendRspFrameAndClose (rsp_id : Z) (meta : json) : F unit :=
  match rsp_body rsp_id meta [] with
  | Some body => on_session (λ s, SendAndClose s body rsp_id)
  | None => mret tt
  end.

Definition reply (rsp : MsgId) (meta : json) : F unit := SendRspFrame (MsgId_code rsp) meta [].

Definition bad_json : json := JObject [(§ "error", jcode ERR_JSON)].

(** ** The handlers *)

Definition string_of (root : option json) (k : bytes) : F bytes := need (text_at root k).
Definition int_of (root : option json) (k : bytes) : F Z := need (int_at root k).

Definition avatar_error (error : Z) (seq : Z) (name : bytes) : json :=
  JObject [(§ "error", jnum error); (§ "seq", jnum seq); (§ "name", JString name)].
Definition avatar_path (uid : Z) (name : bytes) : path := child (child out_path (ll_string uid)) name.
Definition name_index (name : bytes) (worker_count : Z) : Z := s32 (hash name mod worker_count).

(** Redis remembers the upload from its first packet on. *)
Definition remember_avatar (seq total trans : Z) (name path : bytes) : F (option ResourceErrCode) :=
  if seq =? 1 then
    ok ← SetFileInfo name (Info path name seq total trans);
    mret (if ok : bool then None else Some RS_FILE_SAVE_REDIS_FAILED)
  else
    info ← GetFileInfo name;
    match info with
    | None => mret (Some RS_FILE_NOT_EXISTS)
    | Some i =>
        ok ← SetFileInfo name (Info (fi_path i) (fi_name i) seq (fi_total i) trans);
        mret (if ok : bool then None else Some RS_FILE_SAVE_REDIS_FAILED)
    end.

Definition handleUploadHeadIcon (data : bytes) : F unit :=
  let root := json_parse data in
  md5 ← string_of root (§ "md5");
  seq ← int_of root (§ "seq");
  name ← string_of root (§ "name");
  total_size ← int_of root (§ "total_size");
  trans_size ← int_of root (§ "trans_size");
  is_last ← int_of root (§ "last");
  file_data ← string_of root (§ "data");
  uid ← GetUserId;
  last_seq ← int_of root (§ "last_seq");
  let file_path := avatar_path uid name in
  if negb (IsValidAvatarName name) then
    reply MSG_UPLOAD_HEAD_ICON_RSP (avatar_error (CommonErrCode_code ERR_RESOURCE_INVALID) seq name)
  else
    failed ← remember_avatar seq total_size trans_size name (path_string file_path);
    match failed with
    | Some e => reply MSG_UPLOAD_HEAD_ICON_RSP (JObject [(§ "error", jnum (ResourceErrCode_code e))])
    | None =>
        post (Uploads (name_index name FILE_WORKER_COUNT))
          (JobAvatar (Avatar uid file_path name seq total_size trans_size is_last file_data md5 last_seq))
    end.

Definition handleDownloadFile (data : bytes) : F unit :=
  let root := json_parse data in
  seq ← int_of root (§ "seq");
  name ← string_of root (§ "name");
  uid ← GetUserId;
  client_path ← string_of root (§ "client_path");
  req_type ← string_of root (§ "req_type");
  if negb (IsValidAvatarName name) then
    reply MSG_DOWN_LOAD_FILE_RSP (avatar_error (CommonErrCode_code ERR_RESOURCE_INVALID) seq name)
  else
    post (Downloads (name_index name FILE_WORKER_COUNT))
      (JobAvatarDown (AvatarDown uid name seq (avatar_path uid name) client_path req_type)).

(** [contains(k)] and a well-formed number under it. *)
Definition u64_field (root : option json) (k : bytes) : option Z := v ← object_field root k; ParseJsonUInt64 v.

(** The [message_id] a refused chunk is answered with. *)
Definition echoed_id (root : json) : bytes := default (§ "0") (string_field (Some root) (§ "message_id")).

Definition handleResourceChunkUpload (data : bytes) : F unit :=
  let fail id := reply MSG_RESOURCE_CHUNK_UPLOAD_RSP (JObject [(§ "error", jcode ERR_JSON); (§ "message_id", JString id)]) in
  match DecodeFrame data with
  | None => reply MSG_RESOURCE_CHUNK_UPLOAD_RSP bad_json
  | Some (meta, file_data) =>
      match json_parse meta with
      | Some (JObject o) =>
          let root := JObject o in
          match u64_field (Some root) (§ "message_id"), u64_field (Some root) (§ "offset"),
                string_field (Some root) (§ "chunk_sha256"), file_data with
          | Some message_id, Some offset, Some sha, _ :: _ =>
              if (message_id =? 0) || negb (IsValidSha256Hex sha) then fail (ll_string message_id)
              else
                post (Uploads (ResourceWorkerIndex message_id FILE_WORKER_COUNT)) (JobChunk message_id offset sha file_data)
          | _, _, _, _ => fail (echoed_id root)
          end
      | _ => reply MSG_RESOURCE_CHUNK_UPLOAD_RSP bad_json
      end
  end.

(** The identifier of a request, which must be there and not zero. *)
Definition request_id (root : option json) : option Z :=
  mid ← u64_field root (§ "message_id");
  if mid =? 0 then None else Some mid.

Definition handleResourceUploadProgress (data : bytes) : F unit :=
  match request_id (json_parse data) with
  | None => reply MSG_RESOURCE_UPLOAD_PROGRESS_RSP bad_json
  | Some mid => uid ← GetUserId; post (Uploads (ResourceWorkerIndex mid FILE_WORKER_COUNT)) (JobProgress uid mid)
  end.

Definition handleInstantProof (data : bytes) : F unit :=
  let root := json_parse data in
  match request_id root, string_field root (§ "proof") with
  | Some mid, Some proof =>
      uid ← GetUserId; post (Uploads (ResourceWorkerIndex mid FILE_WORKER_COUNT)) (JobProof uid mid proof)
  | _, _ => reply MSG_RESOURCE_INSTANT_PROOF_RSP bad_json
  end.

Definition handleResourceDownInfo (data : bytes) : F unit :=
  match request_id (json_parse data) with
  | None => reply MSG_RESOURCE_DOWN_INFO_RSP bad_json
  | Some mid => post (Downloads (ResourceWorkerIndex mid DOWN_LOAD_WORKER_COUNT)) (JobDownInfo mid)
  end.

Definition handleResourceChunkDown (data : bytes) : F unit :=
  let root := json_parse data in
  match request_id root, u64_field root (§ "offset") with
  | Some mid, Some offset =>
      post (Downloads (ResourceWorkerIndex mid DOWN_LOAD_WORKER_COUNT)) (JobChunkDown mid offset)
  | _, _ => reply MSG_RESOURCE_CHUNK_DOWN_RSP bad_json
  end.

(** The two fields of a login; a missing one reads as null and throws. *)
Definition login_fields (root : option json) : option (Z * bytes) :=
  match root with
  | Some (JObject o) =>
      uid ← int_at root (§ "uid");
      token ← text_at root (§ "token");
      Some (uid, token)
  | _ => None
  end.

Definition handleResourceLogin (data : bytes) : F unit :=
  let fail := reply MSG_RESOURCE_LOGIN_RSP (JObject [(§ "error", jcode ERR_TOKEN_INVALID)]) in
  match login_fields (json_parse data) with
  | None => fail
  | Some (uid, token) =>
      stored ← Get (token_key uid);
      if negb (bool_decide (stored = Some token)) then fail
      else
        s ← (λ f t, (Some (f_session f), f, t));
        let '(ok, s') := TrySetAuth s uid in
        if negb ok then mret tt
        else
          on_session (λ _, s');;
          reply MSG_RESOURCE_LOGIN_RSP (JObject [(§ "error", jcode ERR_SUCCESS); (§ "uid", jnum uid)])
  end.

(** The handler [RegisterCallBacks] installs. *)
Definition handler (q : MsgId) : option (bytes → F unit) :=
  match q with
  | MSG_UPLOAD_HEAD_ICON_REQ => Some handleUploadHeadIcon
  | MSG_DOWN_LOAD_FILE_REQ => Some handleDownloadFile
  | MSG_RESOURCE_CHUNK_UPLOAD_REQ => Some handleResourceChunkUpload
  | MSG_RESOURCE_UPLOAD_PROGRESS_REQ => Some handleResourceUploadProgress
  | MSG_RESOURCE_INSTANT_PROOF_REQ => Some handleInstantProof
  | MSG_RESOURCE_DOWN_INFO_REQ => Some handleResourceDownInfo
  | MSG_RESOURCE_CHUNK_DOWN_REQ => Some handleResourceChunkDown
  | MSG_RESOURCE_LOGIN_REQ => Some handleResourceLogin
  | _ => None
  end.

Definition find_handler (msg_type : Z) : option (bytes → F unit) :=
  q ← list_find (λ q, MsgId_code q = msg_type) ProtocolIds.Resource.RegisterCallBacks; handler q.2.

Definition token_invalid : json := JObject [(§ "error", jcode ERR_TOKEN_INVALID)].

Definition task_callback (msg_type : Z) (data : bytes) : F unit := λ f t,
  let run := match find_handler msg_type with Some h => h data f t | None => (Some tt, f, t) end in
  if negb (IsOpen (lifecycle (f_session f))) then (Some tt, f, t)
  else if msg_type =? MsgId_code MSG_RESOURCE_LOGIN_REQ then run
  else if negb (authed (f_session f)) then
    let rsp_id := ProtocolIds.Resource.ReqToRspId msg_type in
    if negb (rsp_id =? 0) then SendRspFrameAndClose rsp_id token_invalid f t
    else on_session Close f t
  else run.

End dispatch.

(** ** What a handler does

    At most one task or one reply; a task is for the user of the session, its
    message goes to the queue of its number, and the path of an avatar stays
    in the directory of the user. *)

Definition message_of (j : job) : option Z :=
  match j with
  | JobChunk mid _ _ _ | JobProgress _ mid | JobProof _ mid _ | JobDownInfo mid | JobChunkDown mid _ => Some mid
  | JobAvatar _ | JobAvatarDown _ => None
  end.

Definition user_of (j : job) : option Z :=
  match j with
  | JobAvatar a => Some (av_uid a)
  | JobAvatarDown a => Some (ad_uid a)
  | JobProgress uid _ | JobProof uid _ _ => Some uid
  | JobChunk _ _ _ _ | JobDownInfo _ | JobChunkDown _ _ => None
  end.

(** The queue of a message. *)
Definition home (j : job) (mid : Z) : queue :=
  match j with
  | JobDownInfo _ | JobChunkDown _ _ => Downloads (mid mod DOWN_LOAD_WORKER_COUNT)
  | _ => Uploads (mid mod FILE_WORKER_COUNT)
  end.

Section outcomes.
Context `{JsonLib} (out_path : path) (path_string : path → bytes) (hash : bytes → Z).

Definition well_formed (uid : Z) (q : queue) (j : job) : Prop :=
  (∀ u, user_of j = Some u → u = uid) ∧
  (∀ mid, message_of j = Some mid → 0 < mid <= int64_max ∧ q = home j mid) ∧
  match j with
  | JobChunk _ offset sha data => 0 <= offset <= int64_max ∧ IsValidSha256Hex sha = true ∧ data ≠ []
  | JobChunkDown _ offset => 0 <= offset <= int64_max
  | JobAvatar a => IsValidAvatarName (av_name a) = true ∧ av_path a = avatar_path out_path uid (av_name a)
  | JobAvatarDown a => IsValidAvatarName (ad_name a) = true ∧ ad_path a = avatar_path out_path uid (ad_name a)
  | _ => True
  end.

Inductive handled (f f' : front) : Prop :=
  | handled_posted q j :
      f_jobs f' = f_jobs f ++ [(q, j)] → f_session f' = f_session f → well_formed (user_uid (f_session f)) q j → handled f f'
  | handled_replied body rsp :
      f_jobs f' = f_jobs f → f_session f' = Send (f_session f) body (MsgId_code rsp) → handled f f'
  | handled_silent : f_jobs f' = f_jobs f → f_session f' = f_session f → handled f f'.

(** Only Redis has changed. *)
Definition same_front (f f' : front) : Prop := f_jobs f' = f_jobs f ∧ f_session f' = f_session f.

Lemma handled_same f f' f'' : same_front f f' → handled f' f'' → handled f f''.
Proof.
  intros [Ej Es] Hh. destruct Hh as [q j H1 H2 H3 | body rsp H1 H2 | H1 H2].
  - eapply handled_posted; [by rewrite H1, Ej | congruence | by rewrite <- Es].
  - eapply handled_replied; [congruence | by rewrite H2, Es].
  - apply handled_silent; congruence.
Qed.

Lemma reply_handled rsp meta f t r f' t' : reply rsp meta f t = (r, f', t') → handled f f'.
Proof.
  unfold reply, SendRspFrame. destruct (rsp_body _ _ _) as [body |] eqn:Eb; intros [= <- <- <-].
  - by apply (handled_replied _ _ body rsp).
  - by apply handled_silent.
Qed.

Lemma post_handled q j f t r f' t' :
  post q j f t = (r, f', t') → well_formed (user_uid (f_session f)) q j → handled f f'.
Proof. intros [= <- <- <-] Hj. by apply (handled_posted _ _ q j). Qed.

Lemma front_Get_same k f t : ∃ o t', Get k f t = (Some o, f, t').
Proof. unfold Get. destruct (tape_next t) as [o t']. eauto. Qed.

Lemma SetExp_same k v f t r f' t' : SetExp k v f t = (r, f', t') → (∃ b, r = Some b) ∧ same_front f f'.
Proof. unfold SetExp. destruct (tape_next t) as [[| []] t'']; intros [= <- <- <-]; split; eauto; done. Qed.

Lemma ParseJsonUInt64_range v n : ParseJsonUInt64 v = Some n → 0 <= n <= int64_max.
Proof.
  unfold ParseJsonUInt64. destruct v; try done. destruct (_ || _) eqn:E; [done |]. unfold stoull_digits.
  destruct (uint64_max <? digits_value s); [done |]. destruct (Z.leb_spec (digits_value s) int64_max); [| done].
  intros [= <-]. split; [| done]. bool_to_prop. by apply digits_value_nonneg.
Qed.

Lemma u64_field_range root k n : u64_field root k = Some n → 0 <= n <= int64_max.
Proof.
  unfold u64_field. destruct (object_field root k); [| done]. apply ParseJsonUInt64_range.
Qed.

Lemma request_id_range root mid : request_id root = Some mid → 0 < mid <= int64_max.
Proof.
  unfold request_id. destruct (u64_field root §"message_id") as [n |] eqn:E; [| done]. cbn. apply u64_field_range in E.
  destruct (Z.eqb_spec n 0); [done |]. intros [= <-]. lia.
Qed.

(** The index of a worker is the remainder of the number, and in range. *)
Lemma ResourceWorkerIndex_mod mid n : 0 <= mid <= int64_max → 0 < n <= int_max →
  ResourceWorkerIndex mid n = mid mod n ∧ 0 <= mid mod n < n.
Proof.
  intros Hm Hn. unfold ResourceWorkerIndex, int64_max, int_max in *. rewrite !u64_small by lia.
  pose proof (Z.mod_pos_bound mid n). rewrite s32_small; lia.
Qed.

Lemma upload_index mid : 0 < mid <= int64_max → ResourceWorkerIndex mid FILE_WORKER_COUNT = mid mod FILE_WORKER_COUNT.
Proof. intros Hm. apply ResourceWorkerIndex_mod; [lia | done]. Qed.

Lemma download_index mid : 0 < mid <= int64_max → ResourceWorkerIndex mid DOWN_LOAD_WORKER_COUNT = mid mod DOWN_LOAD_WORKER_COUNT.
Proof. intros Hm. apply ResourceWorkerIndex_mod; [lia | done]. Qed.

Lemma handleResourceChunkUpload_done data f t r f' t' :
  handleResourceChunkUpload data f t = (r, f', t') → handled f f'.
Proof.
  unfold handleResourceChunkUpload. destruct (DecodeFrame data) as [[meta raw] |]; [| apply reply_handled].
  destruct (json_parse meta) as [[] |]; try apply reply_handled. cbv zeta.
  destruct (u64_field (Some (JObject o)) §"message_id") as [mid |] eqn:Em; [| apply reply_handled].
  destruct (u64_field (Some (JObject o)) §"offset") as [off |] eqn:Eo; [| apply reply_handled].
  destruct (string_field (Some (JObject o)) §"chunk_sha256") as [sha |]; [| apply reply_handled].
  destruct raw as [| b raw]; [apply reply_handled |].
  destruct ((mid =? 0) || negb (IsValidSha256Hex sha)) eqn:Ev; [apply reply_handled |].
  intros Hr. eapply post_handled; [done |]. apply u64_field_range in Em, Eo. bool_to_prop.
  assert (0 < mid <= int64_max) by lia.
  split_and!; try done; try lia. intros m [= <-]. split; [done |]. cbn [home]. by rewrite upload_index.
Qed.

Lemma handleResourceUploadProgress_done data f t r f' t' :
  handleResourceUploadProgress data f t = (r, f', t') → handled f f'.
Proof.
  unfold handleResourceUploadProgress. destruct (request_id _) as [mid |] eqn:Em; [| apply reply_handled].
  apply request_id_range in Em. intros Hr. eapply post_handled; [exact Hr |]. split_and!; [by intros u [= <-] | | done].
  intros m [= <-]. split; [done |]. cbn [home]. by rewrite upload_index.
Qed.

Lemma handleInstantProof_done data f t r f' t' : handleInstantProof data f t = (r, f', t') → handled f f'.
Proof.
  unfold handleInstantProof. cbv zeta. destruct (request_id _) as [mid |] eqn:Em; [| apply reply_handled].
  destruct (string_field _ _) as [proof |]; [| apply reply_handled].
  apply request_id_range in Em. intros Hr. eapply post_handled; [exact Hr |]. split_and!; [by intros u [= <-] | | done].
  intros m [= <-]. split; [done |]. cbn [home]. by rewrite upload_index.
Qed.

Lemma handleResourceDownInfo_done data f t r f' t' : handleResourceDownInfo data f t = (r, f', t') → handled f f'.
Proof.
  unfold handleResourceDownInfo. destruct (request_id _) as [mid |] eqn:Em; [| apply reply_handled].
  apply request_id_range in Em. intros Hr. eapply post_handled; [exact Hr |]. split_and!; [done | | done].
  intros m [= <-]. split; [done |]. cbn [home]. by rewrite download_index.
Qed.

Lemma handleResourceChunkDown_done data f t r f' t' : handleResourceChunkDown data f t = (r, f', t') → handled f f'.
Proof.
  unfold handleResourceChunkDown. cbv zeta. destruct (request_id _) as [mid |] eqn:Em; [| apply reply_handled].
  destruct (u64_field _ _) as [off |] eqn:Eo; [| apply reply_handled].
  apply request_id_range in Em. apply u64_field_range in Eo. intros Hr. eapply post_handled; [exact Hr |]. split_and!; [done | | lia..].
  intros m [= <-]. split; [done |]. cbn [home]. by rewrite download_index.
Qed.

(** A field that is missing ends the handler at once. *)
Lemma need_handled {A B} (o : option A) (k : A → F B) f t r f' t' :
  (need o ≫= k) f t = (r, f', t') → (∀ a, o = Some a → k a f t = (r, f', t') → handled f f') → handled f f'.
Proof. destruct o as [a |]; [eauto |]. intros [= <- <- <-] _. by apply handled_silent. Qed.

Lemma SetFileInfo_same name i f t r f' t' :
  SetFileInfo name i f t = (r, f', t') → (∃ b, r = Some b) ∧ same_front f f'.
Proof. apply SetExp_same. Qed.

Lemma GetFileInfo_same name f t : ∃ o t', GetFileInfo name f t = (Some o, f, t').
Proof.
  unfold GetFileInfo, mbind, F_bind. destruct (front_Get_same (§ "file_upload_" ++ name) f t) as (v & t' & ->).
  destruct v as [[| b s] |]; unfold mret, F_ret; eauto.
Qed.

Lemma remember_avatar_same seq total trans name path f t r f' t' :
  remember_avatar seq total trans name path f t = (r, f', t') → (∃ e, r = Some e) ∧ same_front f f'.
Proof.
  unfold remember_avatar, mbind, F_bind. destruct (seq =? 1).
  - destruct (SetFileInfo _ _ f t) as [[r1 f1] t1] eqn:E. apply SetFileInfo_same in E as [[b ->] Hs].
    intros [= <- <- <-]. eauto.
  - destruct (GetFileInfo_same name f t) as (o & t1 & ->). destruct o as [i |]; [| intros [= <- <- <-]; split; eauto; done].
    destruct (SetFileInfo _ _ f t1) as [[r1 f1] t2] eqn:E. apply SetFileInfo_same in E as [[b ->] Hs].
    intros [= <- <- <-]. eauto.
Qed.

Lemma handleUploadHeadIcon_done data f t r f' t' :
  handleUploadHeadIcon out_path path_string hash data f t = (r, f', t') → handled f f'.
Proof.
  unfold handleUploadHeadIcon. cbv zeta.
  do 7 (intros Hr; eapply need_handled; [exact Hr |]; clear Hr; intros ? _).
  unfold GetUserId, mbind at 1, F_bind at 1.
  intros Hr; eapply need_handled; [exact Hr |]; clear Hr; intros last_seq _.
  destruct (IsValidAvatarName _) eqn:Ev; cbn [negb]; [| apply reply_handled].
  unfold mbind, F_bind. destruct (remember_avatar _ _ _ _ _ f t) as [[r1 f1] t1] eqn:E.
  apply remember_avatar_same in E as [[e ->] Hs]. intros Hr. eapply handled_same; [exact Hs |].
  destruct e as [e |]; [by eapply reply_handled |]. eapply post_handled; [exact Hr |].
  destruct Hs as [_ ->]. split_and!; [by intros u [= <-] | done | done | done].
Qed.

Lemma handleDownloadFile_done data f t r f' t' :
  handleDownloadFile out_path hash data f t = (r, f', t') → handled f f'.
Proof.
  unfold handleDownloadFile. cbv zeta.
  do 2 (intros Hr; eapply need_handled; [exact Hr |]; clear Hr; intros ? _).
  unfold GetUserId, mbind at 1, F_bind at 1.
  do 2 (intros Hr; eapply need_handled; [exact Hr |]; clear Hr; intros ? _).
  destruct (IsValidAvatarName _) eqn:Ev; cbn [negb]; [| apply reply_handled].
  intros Hr. eapply post_handled; [exact Hr |]. split_and!; [by intros u [= <-] | done | done | done].
Qed.

(** ** The login *)

Definition logs_in (f : front) (data : bytes) (uid : Z) : Prop :=
  ∃ token, login_fields (json_parse data) = Some (uid, token) ∧
    option_map c_str (f_redis f !! c_str (token_key uid)) = Some token.

Lemma Send_identity s body ty : authed (Send s body ty) = authed s ∧ user_uid (Send s body ty) = user_uid s.
Proof.
  unfold Send, TryReserveSendBudget. destruct (_ || _); [| done].
  unfold Close. by destruct (BeginClose (lifecycle s)) as [[] ?].
Qed.

Lemma SendAndClose_identity s body ty :
  authed (SendAndClose s body ty) = authed s ∧ user_uid (SendAndClose s body ty) = user_uid s.
Proof.
  unfold SendAndClose, TryReserveSendBudget. destruct (_ || _); [| done].
  unfold Close. by destruct (BeginClose (lifecycle s)) as [[] ?].
Qed.

Lemma Close_identity s : authed (ResourceSession.Close s) = authed s ∧ user_uid (ResourceSession.Close s) = user_uid s.
Proof. unfold ResourceSession.Close. by destruct (BeginClose (lifecycle s)) as [[] ?]. Qed.

Definition same_identity (s s' : session) : Prop := authed s' = authed s ∧ user_uid s' = user_uid s.

#[local] Instance same_identity_trans : Transitive same_identity.
Proof. intros s s1 s2 [A1 B1] [A2 B2]. split; congruence. Qed.

Lemma handled_identity f f' : handled f f' → same_identity (f_session f) (f_session f').
Proof. intros [q j _ -> _ | body rsp _ -> | _ ->]; [done | apply Send_identity | done]. Qed.

(** A login posts nothing; it changes who the session belongs to only on the
    first valid token. *)
Lemma handleResourceLogin_done data f t r f' t' :
  handleResourceLogin data f t = (r, f', t') →
  f_jobs f' = f_jobs f ∧
  (same_identity (f_session f) (f_session f') ∨
   ∃ uid, logs_in f data uid ∧ 0 < uid ∧ authed (f_session f) = false ∧
     authed (f_session f') = true ∧ user_uid (f_session f') = uid).
Proof.
  unfold handleResourceLogin. cbv zeta.
  assert (Hfail : ∀ rsp meta f0 t0, reply rsp meta f0 t0 = (r, f', t') →
    f_jobs f' = f_jobs f0 ∧ same_identity (f_session f0) (f_session f')).
  { intros rsp meta f0 t0 Hr. unfold reply, SendRspFrame in Hr.
    destruct (rsp_body _ _ _); injection Hr as <- <- <-; [| done]. split; [done | apply Send_identity]. }
  destruct (login_fields _) as [[uid token] |] eqn:El; [| intros [? ?]%Hfail; split; [done | by left]].
  unfold mbind, F_bind. destruct (tape_next t) as [o t1] eqn:Et. unfold Get. rewrite Et.
  destruct (bool_decide _) eqn:Eb; cbn [negb]; [| intros [? ?]%Hfail; split; [done | by left]]. apply bool_decide_eq_true in Eb.
  destruct (TrySetAuth (f_session f) uid) as [ok s'] eqn:Ea. destruct ok; cbn [negb].
  - unfold TrySetAuth in Ea. destruct (Z.leb_spec uid 0) as [| Hpos]; [done |]. destruct (negb _ || authed _) eqn:Eo; [done |].
    injection Ea as <-. bool_to_prop. unfold on_session. intros [Hj [Ha Hu]]%Hfail. cbn in Hj, Ha, Hu.
    split; [done |]. right. exists uid. split_and!; try done. exists token. split; [done |]. by destruct (io_ok o).
  - intros [= <- <- <-]. split; [done |]. by left.
Qed.

(** ** One task *)

#[local] Abbreviation callback := (task_callback out_path path_string hash).

Lemma find_handler_login : find_handler out_path path_string hash (MsgId_code MSG_RESOURCE_LOGIN_REQ) = Some handleResourceLogin.
Proof. done. Qed.

Lemma find_handler_done ty h data f t r f' t' :
  find_handler out_path path_string hash ty = Some h → ty ≠ MsgId_code MSG_RESOURCE_LOGIN_REQ →
  h data f t = (r, f', t') → handled f f'.
Proof.
  unfold find_handler. intros Hf Hne. destruct (list_find _ _) as [[i q] |] eqn:E; [| done]. cbn in Hf.
  apply list_find_Some in E as (_ & Hq & _). destruct q; try done; injection Hf as <-.
  - apply handleResourceChunkUpload_done.
  - apply handleResourceUploadProgress_done.
  - apply handleResourceDownInfo_done.
  - apply handleResourceChunkDown_done.
  - apply handleInstantProof_done.
  - apply handleUploadHeadIcon_done.
  - apply handleDownloadFile_done.
Qed.

(** What a task does to its session and to the queues. *)
Inductive task_outcome (ty : Z) (data : bytes) (f f' : front) : Prop :=
  | task_dropped : IsOpen (lifecycle (f_session f)) = false → f' = f → task_outcome ty data f f'
  | task_login :
      IsOpen (lifecycle (f_session f)) = true → ty = MsgId_code MSG_RESOURCE_LOGIN_REQ → f_jobs f' = f_jobs f →
      same_identity (f_session f) (f_session f') ∨
      (∃ uid, logs_in f data uid ∧ 0 < uid ∧ authed (f_session f) = false ∧
        authed (f_session f') = true ∧ user_uid (f_session f') = uid) →
      task_outcome ty data f f'
  | task_refused :
      IsOpen (lifecycle (f_session f)) = true → authed (f_session f) = false → f_jobs f' = f_jobs f →
      f_session f' = ResourceSession.Close (f_session f) ∨ f_session f' = f_session f ∨
      (∃ body rsp, f_session f' = SendAndClose (f_session f) body rsp) →
      task_outcome ty data f f'
  | task_served :
      IsOpen (lifecycle (f_session f)) = true → authed (f_session f) = true → handled f f' → task_outcome ty data f f'.

Lemma task_callback_done ty data f t r f' t' : callback ty data f t = (r, f', t') → task_outcome ty data f f'.
Proof.
  unfold task_callback. destruct (IsOpen _) eqn:Eo; cbn [negb]; [| intros [= <- <- <-]; by apply task_dropped].
  destruct (Z.eqb_spec ty (MsgId_code MSG_RESOURCE_LOGIN_REQ)) as [-> | Hne].
  { rewrite find_handler_login. intros [Hj Hs]%handleResourceLogin_done. by apply task_login. }
  destruct (authed (f_session f)) eqn:Ea; cbn [negb].
  - intros Hr. apply task_served; [done.. |]. destruct (find_handler _ _ _ ty) as [h |] eqn:Eh.
    + by eapply find_handler_done.
    + injection Hr as <- <- <-. by apply handled_silent.
  - intros Hr. apply task_refused; [done.. | |]; destruct (negb _); unfold SendRspFrameAndClose in Hr;
      try destruct (rsp_body _ _ _); injection Hr as <- <- <-; eauto.
Qed.

Lemma task_keeps_identity ty data f f' : task_outcome ty data f f' →
  (same_identity (f_session f) (f_session f') ∨
   ty = MsgId_code MSG_RESOURCE_LOGIN_REQ ∧
   ∃ uid, logs_in f data uid ∧ 0 < uid ∧ authed (f_session f) = false ∧
     authed (f_session f') = true ∧ user_uid (f_session f') = uid).
Proof.
  intros [_ -> | _ Hty _ [Hs | Hl] | _ _ _ Hs | _ _ Hh]; [by left | by left | by right | left | left].
  - destruct Hs as [-> | [-> | (body & rsp & ->)]]; [apply Close_identity | done | apply SendAndClose_identity].
  - by apply handled_identity.
Qed.

(** The tasks that are there afterwards. *)
Lemma task_jobs ty data f f' : task_outcome ty data f f' →
  f_jobs f' = f_jobs f ∨
  ∃ q j, f_jobs f' = f_jobs f ++ [(q, j)] ∧ authed (f_session f) = true ∧ well_formed (user_uid (f_session f)) q j.
Proof.
  intros [_ -> | _ _ Hj _ | _ _ Hj _ | _ Ha [q j Hj _ Hw | body rsp Hj _ | Hj _]]; try by left.
  right. exists q, j. done.
Qed.

(** ** The life of a session *)

Inductive event :=
  | EvSession (l : ResourceSession.label)             (* the IO thread, other workers *)
  | EvRedis (r : gmap bytes bytes)                    (* other servers, expiry *)
  | EvTask (msg_type : Z) (data : bytes) (t : tape).

Definition internal (l : ResourceSession.label) : Prop := ∀ uid, l ≠ LAuth uid.

Inductive front_step : front → event → front → Prop :=
  | fs_session f l s' : session_step (f_session f) l s' → internal l →
      front_step f (EvSession l) (Front s' (f_redis f) (f_jobs f))
  | fs_redis f r : front_step f (EvRedis r) (Front (f_session f) r (f_jobs f))
  | fs_task f ty data t r f' t' : callback ty data f t = (r, f', t') → front_step f (EvTask ty data t) f'.

Inductive life : list event → front → Prop :=
  | life_accept redis : life [] (Front new_session redis [])
  | life_step es f e f' : life es f → front_step f e f' → life (es ++ [e]) f'.

Lemma task_step f ty data t : front_step f (EvTask ty data t) (callback ty data f t).1.2.
Proof. destruct (callback ty data f t) as [[r f1] t1] eqn:E. by apply (fs_task _ _ _ _ r _ t1). Qed.

Lemma clear_budget_identity s q : same_identity s (clear_budget s q).
Proof. revert s. induction q as [| x q IH]; intros s; [done |]. cbn. destruct (IH (ReleaseSendBudget s (zlen x))). done. Qed.

Lemma session_step_identity s l s' : session_step s l s' → internal l → same_identity s s'.
Proof.
  intros Hs Hi. destruct Hs as [s msg ty Hm | s msg ty Hm | s | s uid | s i x Hx | s i x Hx | s e Hw | s n ec got Hn | s i].
  - apply Send_identity.
  - apply SendAndClose_identity.
  - apply Close_identity.
  - by destruct (Hi uid).
  - destruct x as [fr | fr |]; cbn; [| | done].
    + unfold run_send. by destruct (_ || _).
    + unfold run_send_and_close. destruct (negb _); [| destruct (BeginDrain _) as [[] ?]; done].
      destruct (Close_identity (ReleaseSendBudget (set_posted s (delete i (posted s))) (zlen fr))). done.
  - by destruct x.
  - unfold HandleWrite. destruct e; cbn.
    + match goal with |- same_identity _ (ResourceSession.Close ?x) =>
        trans x; [apply clear_budget_identity | apply Close_identity] end.
    + destruct (send_que s) as [| fr [| g q]] eqn:E; cbn; rewrite ?E; cbn; try case_decide; try done;
        match goal with |- same_identity _ (ResourceSession.Close ?x) => apply (Close_identity x) end.
  - unfold AsyncReadBody. repeat case_match; cbn; try apply Close_identity; try done.
    unfold AcquireQuota, TryAcquireTaskBytes in *. repeat case_match; simplify_eq; done.
  - unfold DestroyQuota, ReleaseTaskBytes. repeat case_match; done.
Qed.

(** The login that made the session what it is. *)
Definition logged_in (es : list event) (f : front) : Prop :=
  ∃ es1 data t es2 f1, es = es1 ++ EvTask (MsgId_code MSG_RESOURCE_LOGIN_REQ) data t :: es2 ∧ life es1 f1 ∧
    logs_in f1 data (user_uid (f_session f)) ∧ 0 < user_uid (f_session f).

Definition owned (uid : Z) (f : front) : Prop := Forall (λ x, well_formed uid x.1 x.2) (f_jobs f).

Lemma logged_in_snoc es f e f' :
  logged_in es f → user_uid (f_session f') = user_uid (f_session f) → logged_in (es ++ [e]) f'.
Proof.
  intros (es1 & data & t & es2 & f1 & -> & Hl & Hin & Hp) Eu. exists es1, data, t, (es2 ++ [e]), f1. rewrite Eu.
  split_and!; try done. by rewrite <- app_assoc.
Qed.

Lemma life_inv es f : life es f →
  if authed (f_session f) then logged_in es f ∧ owned (user_uid (f_session f)) f else f_jobs f = [].
Proof.
  induction 1 as [redis | es f e f' Hl IH Hs]; [done |].
  destruct Hs as [f l s' Hs Hi | f r | f ty data t r f' t' Hr].
  - cbn [f_session f_jobs]. apply session_step_identity in Hs as [-> Eu]; [| done]. destruct (authed (f_session f)); [| done].
    destruct IH as [Hin Ho]. split; [by eapply logged_in_snoc | by rewrite Eu].
  - cbn [f_session f_jobs]. destruct (authed (f_session f)); [| done]. destruct IH as [Hin Ho].
    split; [by eapply logged_in_snoc | done].
  - apply task_callback_done in Hr. pose proof (task_jobs _ _ _ _ Hr) as Hj.
    destruct (task_keeps_identity _ _ _ _ Hr) as [[Ea Eu] | (-> & uid & Hin & Hp & Hna & Ha' & Eu)].
    + rewrite Ea. destruct (authed (f_session f)).
      * destruct IH as [Hin Ho]. split; [by eapply logged_in_snoc |]. rewrite Eu. unfold owned in *.
        destruct Hj as [-> | (q & j & -> & _ & Hw)]; [done |]. apply Forall_app. split; [done |]. by apply Forall_singleton.
      * destruct Hj as [-> | (q & j & _ & Ht & _)]; done.
    + rewrite Ha', Eu. rewrite Hna in *. destruct Hj as [Ej | (q & j & _ & Ht & _)]; [| done]. split.
      * exists es, data, t, [], f. by rewrite Eu.
      * unfold owned. by rewrite Ej, IH.
Qed.

(** C20: nothing is done for a connection that has not logged in. In every
    life of a session, whatever frames arrive and however the network, the
    other workers and Redis interleave, a task that was posted means that an
    earlier frame was a login with the token Redis held at that moment for the
    user the session belongs to. The task is for that user, the message of a
    resource goes to the queue of its number, numbers and digests are in
    range, and the path of an avatar is a plain name in the user's own
    directory. *)
Theorem tasks_belong_to_a_login es f q j :
  life es f → (q, j) ∈ f_jobs f → logged_in es f ∧ well_formed (user_uid (f_session f)) q j.
Proof.
  intros Hl Hj. apply life_inv in Hl. destruct (authed (f_session f)).
  - destruct Hl as [Hin Ho]. split; [done |]. by apply (proj1 (Forall_forall _ _) Ho (q, j)).
  - rewrite Hl in Hj. by apply not_elem_of_nil in Hj.
Qed.
End outcomes.

(** A session that logs in and asks for a download. *)
Definition front_json : JsonLib := {|
  json_parse b :=
    if decide (b = § "login") then Some (JObject [(§ "uid", JUnsigned 7); (§ "token", JString § "tok")])
    else Some (JObject [(§ "message_id", JString § "41"); (§ "offset", JString § "0")]);
  json_dump _ := § "{}";
|}.
Definition front_redis : gmap bytes bytes := {[ § "utoken_7" := § "tok" ]}.
Definition front_task (ty : MsgId) (data : bytes) (f : front) : option unit * front * tape :=
  @task_callback front_json (Path true []) (λ _, []) (λ _, 0) (MsgId_code ty) data f [].
Definition front_logged : front := (front_task MSG_RESOURCE_LOGIN_REQ (§ "login") (Front new_session front_redis [])).1.2.
Definition front_asked : front := (front_task MSG_RESOURCE_CHUNK_DOWN_REQ (§ "chunk") front_logged).1.2.

Lemma tasks_belong_to_a_login_witness :
  f_jobs front_asked = [(Downloads 1, JobChunkDown 41 0)] ∧ user_uid (f_session front_asked) = 7 ∧
  @well_formed (Path true []) 7 (Downloads 1) (JobChunkDown 41 0).
Proof.
  assert (Ej : f_jobs front_asked = [(Downloads 1, JobChunkDown 41 0)]) by (vm_compute; reflexivity).
  split; [exact Ej |]. split; [vm_compute; reflexivity |].
  pose (e1 := EvTask (MsgId_code MSG_RESOURCE_LOGIN_REQ) (§ "login") []).
  pose (e2 := EvTask (MsgId_code MSG_RESOURCE_CHUNK_DOWN_REQ) (§ "chunk") []).
  assert (Hl : @life front_json (Path true []) (λ _, []) (λ _, 0) (([] ++ [e1]) ++ [e2]) front_asked).
  { eapply life_step; [eapply life_step; [apply (life_accept _ _ _ front_redis) |] |]; apply task_step. }
  refine (proj2 (@tasks_belong_to_a_login front_json (Path true []) (λ _, []) (λ _, 0) _ front_asked _ _ Hl _)).
  rewrite Ej. by apply list_elem_of_singleton.
Defined.
