(* ===== verification/ResourceCodec.v ===== *)
(** * Frames of the resource domain on the client (client/llfcchat/src/net/resourcecodec.cpp)

    What the transfer engine sends becomes the body of a frame, and the body
    of an answer becomes a record or is refused. Numbers of 64 bits are
    decimal strings. The text of JSON and Qt's conversion of a decimal string
    are the library's. *)

From S2P Require Import Prelude ProtocolIds ResourceWire JsonFields ChatLogic ClientSync ResourceTransfer TransferEngine.

(** [QJsonDocument::fromJson] without an error, [toJson(Compact)] of an
    object and [QString::toULongLong]. *)
Class QtText := {
  fromJson : bytes → option qjson;
  toJson : qobject → bytes;
  toULongLong : bytes → option Z;
}.

Section codec.
Context `{QtText}.

(** ** Fields *)

Definition StrictU64 (v : qjson) : option Z :=
  match v with
  | QString s =>
      if bool_decide (s = []) || negb (forallb isdigit s) then None
      else match toULongLong s with
           | Some u => if int64_max <? u then None else Some u
           | None => None
           end
  | _ => None
  end.

Definition StrictI32 (v : qjson) : option Z :=
  match v with QNumber d => if (d <? - 2 ^ 31) || (int_max <? d) then None else Some d | _ => None end.

Definition OptU64 (obj : qobject) (key : bytes) (dflt : Z) : Z := default dflt (StrictU64 (value obj key)).
Definition OptI32 (obj : qobject) (key : bytes) (dflt : Z) : Z := default dflt (StrictI32 (value obj key)).

Definition hex_digit (c : Byte.byte) : bool := isdigit c || ((97 <=? bval c) && (bval c <=? 102)).
Definition IsValidSha256Hex (s : bytes) : bool := (qsize s =? 64) && forallb hex_digit s.

Definition ReadString (obj : qobject) (key : bytes) : bytes := toString (value obj key).

(** The identifier and the object; [None] is the result [false]. *)
Definition ParseObject (payload : bytes) : option (Z * qobject) :=
  match fromJson payload with
  | Some (QObject obj) => mid ← StrictU64 (value obj §"message_id"); Some (mid, obj)
  | _ => None
  end.

Definition ReadError (obj : qobject) : option Z := StrictI32 (value obj §"error").

(** ** Requests *)

Definition number (z : Z) : qjson := QString (ll_string z).

(** A frame that cannot be encoded is an empty body. *)
Definition EncodeChunkUploadReq (message_id offset : Z) (chunk_sha256 raw : bytes) : bytes :=
  default [] (EncodeFrame (toJson [(§"message_id", number message_id); (§"offset", number offset);
                                   (§"chunk_sha256", QString chunk_sha256)]) raw false).

Definition EncodeProgressReq (message_id : Z) : bytes := toJson [(§"message_id", number message_id)].
Definition EncodeDownInfoReq (message_id : Z) : bytes := toJson [(§"message_id", number message_id)].
Definition EncodeChunkDownReq (message_id offset : Z) : bytes :=
  toJson [(§"message_id", number message_id); (§"offset", number offset)].
Definition EncodeInstantProofReq (message_id : Z) (proof_hex : bytes) : bytes :=
  toJson [(§"message_id", number message_id); (§"proof", QString proof_hex)].

(** ** Answers

    [None] is the result [false]; the record with [ok = false] keeps the
    defaults of its fields when the error code is missing. *)

Definition DecodeChunkUploadRsp (payload : bytes) : option ChunkUploadRsp :=
  '(mid, obj) ← ParseObject payload;
  match ReadError obj with
  | None => Some (ChunkUp false 0 mid (-1) (-1) (-1) 0)
  | Some error =>
      let offset := OptU64 obj §"offset" (-1) in
      let server_offset := OptU64 obj §"server_offset" (-1) in
      let status := OptI32 obj §"status" (-1) in
      let event_seq := OptU64 obj §"event_seq" 0 in
      let ok := negb (error =? 0) || ((0 <=? offset) && (0 <=? server_offset) && (0 <=? status)) in
      Some (ChunkUp ok error mid offset server_offset status event_seq)
  end.

(** Nonce, offset and length of a challenge. *)
Definition ReadChallenge (v : qjson) : bytes * Z * Z :=
  match v with
  | QObject ch => (ReadString ch §"nonce", OptU64 ch §"offset" (-1), OptU64 ch §"length" (-1))
  | _ => ([], -1, -1)
  end.

Definition DecodeProgressRsp (payload : bytes) : option ProgressRsp :=
  '(mid, obj) ← ParseObject payload;
  match ReadError obj with
  | None => Some (Progress false 0 mid (-1) (-1) (-1) [] (-1) 0 [] [] (-1) (-1))
  | Some error =>
      let server_offset := OptU64 obj §"server_offset" (-1) in
      let file_size_bytes := OptU64 obj §"file_size_bytes" (-1) in
      let status := OptI32 obj §"status" (-1) in
      let sha256 := ReadString obj §"sha256" in
      let mode := ReadString obj §"mode" in
      let '(nonce, ch_offset, ch_length) := ReadChallenge (value obj §"challenge") in
      let proof_ok := negb (bool_decide (mode = § "proof")) || ((qsize nonce =? 32) && (0 <=? ch_offset) && (0 <? ch_length)) in
      let ok := negb (error =? 0) || ((0 <=? server_offset) && (0 <=? file_size_bytes) && (0 <=? status)
                                      && IsValidSha256Hex sha256 && proof_ok) in
      Some (Progress ok error mid server_offset file_size_bytes status sha256 (OptU64 obj §"chunk_size" (-1))
              (OptU64 obj §"event_seq" 0) mode nonce ch_offset ch_length)
  end.

Definition DecodeDownInfoRsp (payload : bytes) : option DownInfoRsp :=
  '(mid, obj) ← ParseObject payload;
  match ReadError obj with
  | None => Some (DownInfo false 0 mid [] (-1) [] [] 0 (-1))
  | Some error =>
      let file_size_bytes := OptU64 obj §"file_size_bytes" (-1) in
      let sha256 := ReadString obj §"sha256" in
      let status := OptI32 obj §"status" (-1) in
      let ok := negb (error =? 0) || ((0 <=? file_size_bytes) && (0 <=? status) && IsValidSha256Hex sha256) in
      Some (DownInfo ok error mid (ReadString obj §"original_file_name") file_size_bytes sha256 (ReadString obj §"mime_type")
              (OptI32 obj §"message_type" 0) status)
  end.

Definition DecodeChunkDownRsp (payload : bytes) : option ChunkDownRsp :=
  '(meta, data) ← DecodeFrame payload;
  '(mid, obj) ← ParseObject meta;
  match ReadError obj with
  | None => Some (ChunkDown false 0 mid (-1) (-1) [] data (-1) false)
  | Some error =>
      let offset := OptU64 obj §"offset" (-1) in
      let nbytes := OptU64 obj §"bytes" (-1) in
      let chunk_sha256 := ReadString obj §"chunk_sha256" in
      let total_size := OptU64 obj §"total_size" (-1) in
      let is_last := toBool (value obj §"is_last") in
      let ok := negb (error =? 0) || ((0 <=? offset) && (0 <? nbytes) && negb (bool_decide (data = []))
                                      && (0 <=? total_size) && IsValidSha256Hex chunk_sha256) in
      Some (ChunkDown ok error mid offset nbytes chunk_sha256 data total_size is_last)
  end.

Definition DecodeInstantProofRsp (payload : bytes) : option InstantProofRsp :=
  '(mid, obj) ← ParseObject payload;
  match ReadError obj with
  | None => Some (ProofRsp false 0 mid (-1) (-1) 0)
  | Some error =>
      let status := OptI32 obj §"status" (-1) in
      let server_offset := OptU64 obj §"server_offset" (-1) in
      let event_seq := OptU64 obj §"event_seq" 0 in
      let ok := negb (error =? 0) || ((0 <=? status) && (0 <=? server_offset) && (0 <? event_seq)) in
      Some (ProofRsp ok error mid status server_offset event_seq)
  end.

(** ** The engine's side of the channel *)

(** The message type and the body of a frame the engine sends. *)
Definition request_frame (f : frame) : MsgId * bytes :=
  match f with
  | ProgressReq mid => (MSG_RESOURCE_UPLOAD_PROGRESS_REQ, EncodeProgressReq mid)
  | ChunkUploadReq mid offset sha raw => (MSG_RESOURCE_CHUNK_UPLOAD_REQ, EncodeChunkUploadReq mid offset sha raw)
  | DownInfoReq mid => (MSG_RESOURCE_DOWN_INFO_REQ, EncodeDownInfoReq mid)
  | ChunkDownReq mid offset => (MSG_RESOURCE_CHUNK_DOWN_REQ, EncodeChunkDownReq mid offset)
  | InstantProofReq mid proof => (MSG_RESOURCE_INSTANT_PROOF_REQ, EncodeInstantProofReq mid proof)
  end.

(** The answer [OnFrame] hands to its handler, if it can be decoded. *)
Definition read_answer (msg_id : Z) (payload : bytes) : option answer :=
  if msg_id =? MsgId_code MSG_RESOURCE_CHUNK_UPLOAD_RSP then OnChunkUpload <$> DecodeChunkUploadRsp payload
  else if msg_id =? MsgId_code MSG_RESOURCE_UPLOAD_PROGRESS_RSP then OnProgress <$> DecodeProgressRsp payload
  else if msg_id =? MsgId_code MSG_RESOURCE_DOWN_INFO_RSP then OnDownInfo <$> DecodeDownInfoRsp payload
  else if msg_id =? MsgId_code MSG_RESOURCE_CHUNK_DOWN_RSP then OnChunkDown <$> DecodeChunkDownRsp payload
  else if msg_id =? MsgId_code MSG_RESOURCE_INSTANT_PROOF_RSP then OnInstantProof <$> DecodeInstantProofRsp payload
  else None.

End codec.
