(* ===== verification/ResourceLink.v ===== *)
(** * Client and ResourceServer read the same frames

    The frames the client's codec builds (ResourceCodec.v) are the tasks the
    server's dispatch posts (ResourceDispatch.v), and the replies of the
    upload and download workers (FileWorker.v, DownloadWorker.v) are the
    answers the engine gets. JSON text is the libraries': of each text that
    is sent it is assumed that the other side reads it as the value that was
    written. *)

From S2P Require Import Prelude ResourceWire ProtocolIds SessionLifecycle JsonFields Sha256 UploadFile Database ResourceDb FileWorker DownloadWorker.
From S2P Require Import ChatSession ChatLogic ClientSync SyncLoop ResourceTransfer TransferEngine ResourceSession ResourceDispatch ResourceCodec.

Class QtNumbers `{QtText} := { toULongLong_digits : ∀ z, 0 <= z <= int64_max → toULongLong (ll_string z) = Some z }.

(** The other side reads a text as what was written. *)
Definition server_reads `{JsonLib, QtText, Wire} (o : qobject) : Prop := json_parse (toJson o) = Some (to_server (QObject o)).
Definition client_reads `{JsonLib, QtText, Wire} (j : json) : Prop := fromJson (json_dump j) = Some (to_client j).

Section link.
Context `{!JsonLib, !QtText, !QtNumbers, !Wire, !WireLaws}.
#[local] Set Default Proof Using "Type*".

(** ** Numbers *)

Lemma ll_string_digits z : 0 <= z → ll_string z ≠ [] ∧ forallb isdigit (ll_string z) = true ∧ digits_value (ll_string z) = z.
Proof.
  intros Hz. unfold ll_string. destruct (Z.ltb_spec z 0); [lia |]. apply to_string_spec. lia.
Qed.

Lemma server_reads_number z : 0 <= z <= int64_max → ParseJsonUInt64 (to_server (number z)) = Some z.
Proof.
  intros Hz. unfold number. rewrite to_server_string. unfold ParseJsonUInt64, stoull_digits.
  destruct (ll_string_digits z) as (Hn & Hd & ->); [lia |]. rewrite bool_decide_eq_false_2, Hd by done. cbn [orb negb].
  unfold int64_max, uint64_max in *. destruct (Z.ltb_spec (2 ^ 64 - 1) z); [lia |]. destruct (Z.leb_spec z (2 ^ 63 - 1)); [done | lia].
Qed.

Lemma client_reads_number z : 0 <= z <= int64_max → StrictU64 (to_client (jtext z)) = Some z.
Proof.
  intros Hz. unfold jtext. rewrite to_client_string. cbn [StrictU64].
  destruct (ll_string_digits z) as (Hn & Hd & _); [lia |]. rewrite bool_decide_eq_false_2, Hd by done. cbn [orb negb].
  rewrite toULongLong_digits by done. destruct (Z.ltb_spec int64_max z); [lia | done].
Qed.

Lemma client_reads_int z : - 2 ^ 31 <= z <= int_max → StrictI32 (to_client (jint z)) = Some z.
Proof.
  intros Hz. unfold jint. rewrite to_client_int by (unfold int_max in Hz; lia). cbn [StrictI32].
  destruct (Z.ltb_spec z (- 2 ^ 31)); [lia |]. destruct (Z.ltb_spec int_max z); [lia | done].
Qed.

(** ** Requests *)

(** The fields of an object as the server gets them. *)
Lemma server_object o : ∃ o', to_server (QObject o) = JObject o' ∧
  ∀ k, object_field (Some (JObject o')) k = to_server <$> qassoc k o.
Proof. destruct (to_server_object o) as (o' & E & Hk). exists o'. by split. Qed.

Lemma server_number o o' k z :
  (∀ k, object_field (Some (JObject o')) k = to_server <$> qassoc k o) → qassoc k o = Some (number z) → 0 <= z <= int64_max →
  u64_field (Some (JObject o')) k = Some z.
Proof. intros Ho Hk Hz. unfold u64_field. rewrite Ho, Hk. cbn. by apply server_reads_number. Qed.

Lemma server_string o o' k s :
  (∀ k, object_field (Some (JObject o')) k = to_server <$> qassoc k o) → qassoc k o = Some (QString s) →
  string_field (Some (JObject o')) k = Some s.
Proof. intros Ho Hk. unfold string_field. rewrite Ho, Hk. cbn. by rewrite to_server_string. Qed.

Lemma request_id_number o o' mid :
  (∀ k, object_field (Some (JObject o')) k = to_server <$> qassoc k o) → qassoc §"message_id" o = Some (number mid) →
  0 < mid <= int64_max → request_id (Some (JObject o')) = Some mid.
Proof.
  intros Ho Hk Hz. unfold request_id. rewrite (server_number o o' _ mid) by (done || lia). cbn.
  by destruct (Z.eqb_spec mid 0); [lia |].
Qed.

(** The JSON of a frame. *)
Definition request_object (f : frame) : qobject :=
  match f with
  | ProgressReq mid | DownInfoReq mid => [(§"message_id", number mid)]
  | ChunkUploadReq mid offset sha _ => [(§"message_id", number mid); (§"offset", number offset); (§"chunk_sha256", QString sha)]
  | ChunkDownReq mid offset => [(§"message_id", number mid); (§"offset", number offset)]
  | InstantProofReq mid proof => [(§"message_id", number mid); (§"proof", QString proof)]
  end.

Definition frame_message (f : frame) : Z :=
  match f with
  | ProgressReq mid | DownInfoReq mid | ChunkUploadReq mid _ _ _ | ChunkDownReq mid _ | InstantProofReq mid _ => mid
  end.

(** What the engine may send: identifiers and offsets in range, a chunk of
    bytes with a digest, a header of at most 8 KiB. *)
Definition sendable (f : frame) : Prop :=
  0 < frame_message f <= int64_max ∧ server_reads (request_object f) ∧
  match f with
  | ChunkUploadReq _ offset sha raw =>
      0 <= offset <= int64_max ∧ Sha256.IsValidSha256Hex sha = true ∧ raw ≠ [] ∧ frame_ok (toJson (request_object f)) raw
  | ChunkDownReq _ offset => 0 <= offset <= int64_max
  | _ => True
  end.

(** The task a frame stands for. *)
Definition intended_job (uid : Z) (f : frame) : job :=
  match f with
  | ProgressReq mid => JobProgress uid mid
  | ChunkUploadReq mid offset sha raw => JobChunk mid offset sha raw
  | DownInfoReq mid => JobDownInfo mid
  | ChunkDownReq mid offset => JobChunkDown mid offset
  | InstantProofReq mid proof => JobProof uid mid proof
  end.

Section requests.
Context (out_path : path) (path_string : path → bytes) (hash : bytes → Z).
#[local] Abbreviation callback := (task_callback out_path path_string hash).

Lemma callback_handler q h body w t :
  handler out_path path_string hash q = Some h → IsOpen (lifecycle (f_session w)) = true → authed (f_session w) = true →
  callback (MsgId_code q) body w t = h body w t.
Proof.
  intros Hq Ho Ha. unfold task_callback. rewrite Ho, Ha. cbn [negb].
  assert (Ef : find_handler out_path path_string hash (MsgId_code q) = Some h) by (destruct q; try done; injection Hq as <-; done).
  rewrite Ef. by destruct (_ =? _).
Qed.

Lemma request_dispatched f w t :
  sendable f → IsOpen (lifecycle (f_session w)) = true → authed (f_session w) = true →
  callback (MsgId_code (request_frame f).1) (request_frame f).2 w t =
    (Some tt, Front (f_session w) (f_redis w)
       (f_jobs w ++ [(home (intended_job (user_uid (f_session w)) f) (frame_message f), intended_job (user_uid (f_session w)) f)]), t).
Proof.
  intros (Hm & Hr & Hf) Ho Ha. destruct (server_object (request_object f)) as (o' & Eo & Hk).
  unfold server_reads in Hr. rewrite Eo in Hr.
  assert (Hid : request_id (Some (JObject o')) = Some (frame_message f)) by (eapply request_id_number; [exact Hk | by destruct f | done]).
  destruct f as [mid | mid off sha raw | mid | mid off | mid proof]; cbn [request_frame fst snd frame_message intended_job home request_object] in *.
  - rewrite (callback_handler MSG_RESOURCE_UPLOAD_PROGRESS_REQ handleResourceUploadProgress) by done. unfold handleResourceUploadProgress. unfold EncodeProgressReq.
    rewrite Hr, Hid. unfold post, GetUserId, mbind, F_bind. by rewrite upload_index.
  - rewrite (callback_handler MSG_RESOURCE_CHUNK_UPLOAD_REQ handleResourceChunkUpload) by done. unfold handleResourceChunkUpload.
    destruct Hf as (Hoff & Hsha & Hraw & Hframe). unfold EncodeChunkUploadReq. cbn [request_object] in *.
    assert (Ed : DecodeFrame (default [] (EncodeFrame (toJson [(§"message_id", number mid); (§"offset", number off);
        (§"chunk_sha256", QString sha)]) raw false)) = Some (toJson [(§"message_id", number mid); (§"offset", number off);
        (§"chunk_sha256", QString sha)], raw)).
    { rewrite EncodeFrame_spec, bool_decide_eq_true_2 by done. cbn [default from_option id]. apply DecodeFrame_layout. done. }
    rewrite Ed, Hr. cbv zeta.
    rewrite (server_number _ _ _ mid Hk) by (done || lia). rewrite (server_number _ _ _ off Hk) by done.
    rewrite (server_string _ _ _ sha Hk) by done. destruct raw as [| b raw]; [done |].
    rewrite Hsha. destruct (Z.eqb_spec mid 0); [lia |]. cbn [orb negb]. unfold post. by rewrite upload_index.
  - rewrite (callback_handler MSG_RESOURCE_DOWN_INFO_REQ handleResourceDownInfo) by done. unfold handleResourceDownInfo. unfold EncodeDownInfoReq.
    rewrite Hr, Hid. unfold post. by rewrite download_index.
  - rewrite (callback_handler MSG_RESOURCE_CHUNK_DOWN_REQ handleResourceChunkDown) by done. unfold handleResourceChunkDown. unfold EncodeChunkDownReq.
    cbv zeta. rewrite Hr, Hid. rewrite (server_number _ _ _ off Hk) by done. unfold post. by rewrite download_index.
  - rewrite (callback_handler MSG_RESOURCE_INSTANT_PROOF_REQ handleInstantProof) by done. unfold handleInstantProof. unfold EncodeInstantProofReq.
    cbv zeta. rewrite Hr, Hid. rewrite (server_string _ _ _ proof Hk) by done.
    unfold post, GetUserId, mbind, F_bind. by rewrite upload_index.
Qed.
End requests.
(** ** Answers *)

(** The replies of the workers. *)
Inductive server_reply :=
  | RChunk (error mid offset server_offset status event_seq : Z)
  | RChunkPublished (mid offset server_offset event_seq : Z)
  | RProgressError (mid error : Z) (status : option Z)
  | RProgress (mid server_offset size status : Z) (sha : bytes) (event_seq : Z)
  | RChallenge (mid size : Z) (sha nonce_hex : bytes) (offset length : Z)
  | RProofError (error mid status : Z)
  | RProofDone (mid size event_seq : Z)
  | RInfoError (mid error : Z)
  | RInfo (mid : Z) (e : PublishedCacheEntry)
  | RChunkDown (mid offset error nbytes : Z) (hash : bytes) (is_last : bool) (total : Z) (raw : bytes).

Definition reply_type (r : server_reply) : MsgId :=
  match r with
  | RChunk _ _ _ _ _ _ | RChunkPublished _ _ _ _ => MSG_RESOURCE_CHUNK_UPLOAD_RSP
  | RProgressError _ _ _ | RProgress _ _ _ _ _ _ | RChallenge _ _ _ _ _ _ => MSG_RESOURCE_UPLOAD_PROGRESS_RSP
  | RProofError _ _ _ | RProofDone _ _ _ => MSG_RESOURCE_INSTANT_PROOF_RSP
  | RInfoError _ _ | RInfo _ _ => MSG_RESOURCE_DOWN_INFO_RSP
  | RChunkDown _ _ _ _ _ _ _ _ => MSG_RESOURCE_CHUNK_DOWN_RSP
  end.

Definition reply_json (r : server_reply) : json :=
  match r with
  | RChunk error mid offset server_offset status event_seq => chunk_reply error mid offset server_offset status event_seq
  | RChunkPublished mid offset server_offset event_seq => published_chunk_reply mid offset server_offset event_seq
  | RProgressError mid error status => progress_error mid error status
  | RProgress mid server_offset size status sha event_seq => progress_success mid server_offset size status sha event_seq
  | RChallenge mid size sha nonce_hex offset length => progress_challenge mid size sha nonce_hex offset length
  | RProofError error mid status => proof_error error mid status
  | RProofDone mid size event_seq => proof_success mid size event_seq
  | RInfoError mid error => info_error mid error
  | RInfo mid e => info_reply mid e
  | RChunkDown mid offset error nbytes hash is_last total _ => chunk_down_reply mid offset error nbytes hash is_last total
  end.

Definition reply_raw (r : server_reply) : bytes := match r with RChunkDown _ _ _ _ _ _ _ raw => raw | _ => [] end.

(** The answer the engine gets. *)
Definition as_answer (r : server_reply) : answer :=
  match r with
  | RChunk error mid offset server_offset status event_seq =>
      OnChunkUpload (ChunkUp true error mid offset server_offset status (Z.max 0 event_seq))
  | RChunkPublished mid offset server_offset event_seq =>
      OnChunkUpload (ChunkUp true ok_code mid offset server_offset (st Published) event_seq)
  | RProgressError mid error status => OnProgress (Progress true error mid (-1) (-1) (default (-1) status) [] (-1) 0 [] [] (-1) (-1))
  | RProgress mid server_offset size status sha event_seq =>
      OnProgress (Progress true ok_code mid server_offset size status sha kUploadChunkSize (Z.max 0 event_seq) [] [] (-1) (-1))
  | RChallenge mid size sha nonce_hex offset length =>
      OnProgress (Progress true ok_code mid 0 size (st Pending) sha kUploadChunkSize 0 (§ "proof") nonce_hex offset length)
  | RProofError error mid status => OnInstantProof (ProofRsp true error mid status (-1) 0)
  | RProofDone mid size event_seq => OnInstantProof (ProofRsp true ok_code mid (st Published) size event_seq)
  | RInfoError mid error => OnDownInfo (DownInfo true error mid [] (-1) [] [] 0 (-1))
  | RInfo mid e => OnDownInfo (DownInfo true ok_code mid (e_name e) (e_size e) (e_sha e) (e_mime e) (e_type e) (st Published))
  | RChunkDown mid offset error nbytes hash is_last total raw =>
      OnChunkDown (ChunkDown true error mid offset nbytes hash raw total is_last)
  end.

Definition in64 (z : Z) : Prop := 0 <= z <= int64_max.
Definition in32 (z : Z) : Prop := - 2 ^ 31 <= z <= int_max.
Definition hex64 (s : bytes) : Prop := ResourceCodec.IsValidSha256Hex s = true.

(** The numbers of a reply are in range, its digests are digests, and a
    challenge or a chunk is not empty. *)
Definition reply_fits (r : server_reply) : Prop :=
  match r with
  | RChunk error mid offset server_offset status event_seq =>
      in32 error ∧ in64 mid ∧ in64 offset ∧ in64 server_offset ∧ in32 status ∧ 0 <= status ∧ event_seq <= int64_max
  | RChunkPublished mid offset server_offset event_seq => in64 mid ∧ in64 offset ∧ in64 server_offset ∧ in64 event_seq
  | RProgressError mid error status => in64 mid ∧ in32 error ∧ error ≠ 0 ∧ (∀ s, status = Some s → in32 s)
  | RProgress mid server_offset size status sha event_seq =>
      in64 mid ∧ in64 server_offset ∧ in64 size ∧ in32 status ∧ 0 <= status ∧ hex64 sha ∧ event_seq <= int64_max
  | RChallenge mid size sha nonce_hex offset length =>
      in64 mid ∧ in64 size ∧ hex64 sha ∧ qsize nonce_hex = 32 ∧ in64 offset ∧ in64 length ∧ 0 < length
  | RProofError error mid status => in32 error ∧ error ≠ 0 ∧ in64 mid ∧ in32 status
  | RProofDone mid size event_seq => in64 mid ∧ in64 size ∧ in64 event_seq ∧ 0 < event_seq
  | RInfoError mid error => in64 mid ∧ in32 error ∧ error ≠ 0
  | RInfo mid e => in64 mid ∧ in64 (e_size e) ∧ hex64 (e_sha e) ∧ in32 (e_type e)
  | RChunkDown mid offset error nbytes hash is_last total raw =>
      in64 mid ∧ in64 offset ∧ in32 error ∧ in64 nbytes ∧ in64 total ∧
      (error = 0 → 0 < nbytes ∧ raw ≠ [] ∧ hex64 hash)
  end.

(** Reading a field the server wrote, or has left out. *)
Lemma OptU64_there o k d z : assoc k o = Some (jtext z) → in64 z → OptU64 (client_object (JObject o)) k d = z.
Proof. intros Ho Hz. unfold OptU64. rewrite value_client, Ho. cbn. by rewrite client_reads_number. Qed.

Lemma OptI32_there o k d z : assoc k o = Some (jint z) → in32 z → OptI32 (client_object (JObject o)) k d = z.
Proof. intros Ho Hz. unfold OptI32. rewrite value_client, Ho. cbn. by rewrite client_reads_int. Qed.

Lemma ReadString_there o k s : assoc k o = Some (JString s) → ReadString (client_object (JObject o)) k = s.
Proof. intros Ho. unfold ReadString. rewrite value_client, Ho. cbn. by rewrite to_client_string. Qed.

Lemma OptU64_missing o k d : assoc k o = None → OptU64 (client_object (JObject o)) k d = d.
Proof. intros Ho. unfold OptU64. by rewrite value_client, Ho. Qed.

Lemma OptI32_missing o k d : assoc k o = None → OptI32 (client_object (JObject o)) k d = d.
Proof. intros Ho. unfold OptI32. by rewrite value_client, Ho. Qed.

Lemma ReadString_missing o k : assoc k o = None → ReadString (client_object (JObject o)) k = [].
Proof. intros Ho. unfold ReadString. by rewrite value_client, Ho. Qed.

Lemma ParseObject_text j o mid :
  j = JObject o → client_reads j → assoc §"message_id" o = Some (jtext mid) → in64 mid →
  ParseObject (json_dump j) = Some (mid, client_object j).
Proof.
  intros -> Hr Hm Hmid. unfold ParseObject. rewrite Hr. pose proof (value_client o §"message_id") as Hv.
  unfold client_object in *. destruct (to_client_object o) as (o' & Eo & _). rewrite Eo in *.
  rewrite Hv, Hm. cbn. by rewrite client_reads_number.
Qed.

Lemma ReadError_there o error : assoc §"error" o = Some (jint error) → in32 error →
  ReadError (client_object (JObject o)) = Some error.
Proof. intros Ho Hz. unfold ReadError. rewrite value_client, Ho. cbn. by rewrite client_reads_int. Qed.

Lemma ReadChallenge_there o :
  ReadChallenge (to_client (JObject o)) =
    (ReadString (client_object (JObject o)) §"nonce", OptU64 (client_object (JObject o)) §"offset" (-1),
     OptU64 (client_object (JObject o)) §"length" (-1)).
Proof. unfold client_object. destruct (to_client_object o) as (o' & Eo & _). by rewrite Eo. Qed.

Lemma value_there o k v : assoc k o = Some v → value (client_object (JObject o)) k = to_client v.
Proof. intros Ho. by rewrite value_client, Ho. Qed.

Lemma value_missing o k : assoc k o = None → value (client_object (JObject o)) k = QUndefined.
Proof. intros Ho. by rewrite value_client, Ho. Qed.

(** Read the fields of a written object. *)
Ltac read_fields :=
  repeat first
    [ erewrite OptU64_there; [| reflexivity | first [eassumption | done]]
    | erewrite OptI32_there; [| reflexivity | first [eassumption | done]]
    | erewrite ReadString_there; [| reflexivity]
    | rewrite OptU64_missing by reflexivity
    | rewrite OptI32_missing by reflexivity
    | rewrite ReadString_missing by reflexivity
    | rewrite value_missing by reflexivity ].

(** Open an object whose identifier and error code are there. *)
Ltac open_object Hr :=
  erewrite ParseObject_text; [| reflexivity | exact Hr | reflexivity | first [eassumption | done]]; cbn [mbind option_bind];
  erewrite ReadError_there; [| reflexivity | first [eassumption | done]].

Lemma nonneg_eq z : 0 <= z → (0 <=? z) = true.
Proof. intros. by apply Z.leb_le. Qed.

Lemma RChunk_decoded error mid offset server_offset status event_seq :
  let r := RChunk error mid offset server_offset status event_seq in
  reply_fits r → client_reads (reply_json r) → OnChunkUpload <$> DecodeChunkUploadRsp (json_dump (reply_json r)) = Some (as_answer r).
Proof.
  intros r (A1 & A2 & A3 & A4 & A5 & A6 & A7) Hr. subst r. unfold DecodeChunkUploadRsp. cbn [reply_json as_answer] in *.
  unfold chunk_reply in *. destruct (Z.ltb_spec 0 event_seq) as [Hs | Hs].
  - assert (in64 event_seq) by (unfold in64; lia). open_object Hr. read_fields. unfold in64 in *. rewrite !nonneg_eq by lia.
    rewrite orb_true_r, Z.max_r by lia. done.
  - open_object Hr. read_fields. unfold in64 in *. rewrite !nonneg_eq by lia. rewrite orb_true_r, Z.max_l by lia. done.
Qed.

Lemma RChunkPublished_decoded mid offset server_offset event_seq :
  let r := RChunkPublished mid offset server_offset event_seq in
  reply_fits r → client_reads (reply_json r) → OnChunkUpload <$> DecodeChunkUploadRsp (json_dump (reply_json r)) = Some (as_answer r).
Proof.
  intros r (A1 & A2 & A3 & A4) Hr. subst r. unfold DecodeChunkUploadRsp. cbn [reply_json as_answer] in *.
  unfold published_chunk_reply in *. open_object Hr. read_fields. unfold in64 in *. rewrite !nonneg_eq by lia. done.
Qed.

Lemma RProgressError_decoded mid error status :
  let r := RProgressError mid error status in
  reply_fits r → client_reads (reply_json r) → OnProgress <$> DecodeProgressRsp (json_dump (reply_json r)) = Some (as_answer r).
Proof.
  intros r (A1 & A2 & A3 & A4) Hr. subst r. unfold DecodeProgressRsp. cbn [reply_json as_answer] in *.
  unfold progress_error in *. destruct status as [x |].
  - specialize (A4 x eq_refl). open_object Hr. read_fields. cbn [ReadChallenge]. destruct (Z.eqb_spec error 0); done.
  - open_object Hr. read_fields. cbn [ReadChallenge]. destruct (Z.eqb_spec error 0); done.
Qed.

Lemma RProgress_decoded mid server_offset size status sha event_seq :
  let r := RProgress mid server_offset size status sha event_seq in
  reply_fits r → client_reads (reply_json r) → OnProgress <$> DecodeProgressRsp (json_dump (reply_json r)) = Some (as_answer r).
Proof.
  intros r (A1 & A2 & A3 & A4 & A5 & A6 & A7) Hr. subst r. unfold DecodeProgressRsp. cbn [reply_json as_answer] in *.
  assert (in64 kUploadChunkSize) by done. unfold hex64 in A6.
  unfold progress_success in *. destruct (Z.ltb_spec 0 event_seq) as [Hs | Hs].
  - assert (in64 event_seq) by (unfold in64; lia). open_object Hr. read_fields. cbn [ReadChallenge].
    unfold in64 in *. rewrite !nonneg_eq, A6, orb_true_r, Z.max_r by lia. done.
  - open_object Hr. read_fields. cbn [ReadChallenge]. unfold in64 in *.
    rewrite !nonneg_eq, A6, orb_true_r, Z.max_l by lia. done.
Qed.

Lemma RChallenge_decoded mid size sha nonce_hex offset length :
  let r := RChallenge mid size sha nonce_hex offset length in
  reply_fits r → client_reads (reply_json r) → OnProgress <$> DecodeProgressRsp (json_dump (reply_json r)) = Some (as_answer r).
Proof.
  intros r (A1 & A2 & A3 & A4 & A5 & A6 & A7) Hr. subst r. unfold DecodeProgressRsp. cbn [reply_json as_answer] in *.
  assert (in64 kUploadChunkSize) by done. unfold hex64 in A3. unfold progress_challenge in *. open_object Hr.
  erewrite (value_there _ §"challenge"); [| reflexivity]. rewrite ReadChallenge_there. read_fields.
  unfold in64 in *. rewrite !nonneg_eq, A3, A4 by lia. rewrite (proj2 (Z.ltb_lt 0 length)) by done.
  rewrite (nonneg_eq offset), (bool_decide_eq_true_2 (§ "proof" = § "proof")) by (done || lia). done.
Qed.

Lemma RProofError_decoded error mid status :
  let r := RProofError error mid status in
  reply_fits r → client_reads (reply_json r) → OnInstantProof <$> DecodeInstantProofRsp (json_dump (reply_json r)) = Some (as_answer r).
Proof.
  intros r (A1 & A2 & A3 & A4) Hr. subst r. unfold DecodeInstantProofRsp. cbn [reply_json as_answer] in *.
  unfold proof_error in *. open_object Hr. read_fields. destruct (Z.eqb_spec error 0); done.
Qed.

Lemma RProofDone_decoded mid size event_seq :
  let r := RProofDone mid size event_seq in
  reply_fits r → client_reads (reply_json r) → OnInstantProof <$> DecodeInstantProofRsp (json_dump (reply_json r)) = Some (as_answer r).
Proof.
  intros r (A1 & A2 & A3 & A4) Hr. subst r. unfold DecodeInstantProofRsp. cbn [reply_json as_answer] in *.
  unfold proof_success in *. open_object Hr. read_fields. unfold in64 in *.
  rewrite (nonneg_eq size) by lia. rewrite (proj2 (Z.ltb_lt 0 event_seq)) by done. done.
Qed.

Lemma RInfoError_decoded mid error :
  let r := RInfoError mid error in
  reply_fits r → client_reads (reply_json r) → OnDownInfo <$> DecodeDownInfoRsp (json_dump (reply_json r)) = Some (as_answer r).
Proof.
  intros r (A1 & A2 & A3) Hr. subst r. unfold DecodeDownInfoRsp. cbn [reply_json as_answer] in *.
  unfold info_error in *. open_object Hr. read_fields. destruct (Z.eqb_spec error 0); done.
Qed.

Lemma RInfo_decoded mid e :
  let r := RInfo mid e in
  reply_fits r → client_reads (reply_json r) → OnDownInfo <$> DecodeDownInfoRsp (json_dump (reply_json r)) = Some (as_answer r).
Proof.
  intros r (A1 & A2 & A3 & A4) Hr. subst r. unfold DecodeDownInfoRsp. cbn [reply_json as_answer] in *.
  unfold hex64 in A3. unfold info_reply in *. open_object Hr. read_fields. unfold in64 in *.
  rewrite !nonneg_eq, A3 by lia. done.
Qed.

Lemma RChunkDown_decoded mid offset error nbytes hash is_last total raw body :
  let r := RChunkDown mid offset error nbytes hash is_last total raw in
  reply_fits r → client_reads (reply_json r) → EncodeFrame (json_dump (reply_json r)) raw false = Some body →
  OnChunkDown <$> DecodeChunkDownRsp body = Some (as_answer r).
Proof.
  intros r (A1 & A2 & A3 & A4 & A5 & A6) Hr He. subst r. unfold DecodeChunkDownRsp. cbn [reply_json as_answer] in *.
  assert (Ed : DecodeFrame body = Some (json_dump (chunk_down_reply mid offset error nbytes hash is_last total), raw)).
  { rewrite EncodeFrame_spec in He. case_bool_decide; [| done]. injection He as <-. by apply DecodeFrame_layout. }
  rewrite Ed. cbn [mbind option_bind]. unfold chunk_down_reply in *.
  assert (Hok : negb (error =? 0) || ((0 <=? offset) && (0 <? nbytes) && negb (bool_decide (raw = [])) && (0 <=? total) &&
    ResourceCodec.IsValidSha256Hex hash) = true).
  { destruct (Z.eqb_spec error 0) as [He0 |]; [| done]. destruct (A6 He0) as (A7 & A8 & A9). unfold in64 in *.
    rewrite !nonneg_eq, A9, bool_decide_eq_false_2 by (done || lia). rewrite (proj2 (Z.ltb_lt 0 nbytes)) by done. done. }
  destruct (bool_decide (hash = [])) eqn:Eh.
  - apply bool_decide_eq_true in Eh as ->. cbn [app] in *. open_object Hr. read_fields.
    erewrite (value_there _ §"is_last"); [| reflexivity]. rewrite to_client_bool. cbn [toBool]. rewrite Hok. done.
  - cbn [app] in *. open_object Hr. read_fields.
    erewrite (value_there _ §"is_last"); [| reflexivity]. rewrite to_client_bool. cbn [toBool]. rewrite Hok. done.
Qed.

(** Every reply is read as it was meant. *)
Lemma answer_decoded r body :
  reply_fits r → client_reads (reply_json r) → rsp_body (MsgId_code (reply_type r)) (reply_json r) (reply_raw r) = Some body →
  read_answer (MsgId_code (reply_type r)) body = Some (as_answer r).
Proof.
  intros Hf Hr Hb.
  destruct r; cbn [reply_type reply_raw] in *; unfold rsp_body in Hb; cbn -[json_dump EncodeFrame reply_json] in Hb;
    try (injection Hb as <-); cbn -[reply_json as_answer].
  - by apply RChunk_decoded.
  - by apply RChunkPublished_decoded.
  - by apply RProgressError_decoded.
  - by apply RProgress_decoded.
  - by apply RChallenge_decoded.
  - by apply RProofError_decoded.
  - by apply RProofDone_decoded.
  - by apply RInfoError_decoded.
  - by apply RInfo_decoded.
  - by apply (RChunkDown_decoded _ _ _ _ _ _ _ _ _ Hf).
Qed.

(** C21: client and server mean the same by a frame. A frame of the transfer
    engine, encoded by the client, posts on an authenticated session exactly
    the task it stands for, on the queue of its message, with the same
    identifiers, offset, digest and bytes, and without a reply or an
    exception; and every reply of the upload and download workers, errors
    included, written by the server and decoded by the client, is exactly the
    answer the engine is meant to get. *)
Theorem frames_agree (out_path : path) (path_string : path → bytes) (hash : bytes → Z) :
  (∀ f w t, sendable f → IsOpen (lifecycle (f_session w)) = true → authed (f_session w) = true →
     task_callback out_path path_string hash (MsgId_code (request_frame f).1) (request_frame f).2 w t =
       (Some tt, Front (f_session w) (f_redis w)
          (f_jobs w ++ [(home (intended_job (user_uid (f_session w)) f) (frame_message f), intended_job (user_uid (f_session w)) f)]), t)) ∧
  (∀ r body, reply_fits r → client_reads (reply_json r) →
     rsp_body (MsgId_code (reply_type r)) (reply_json r) (reply_raw r) = Some body →
     read_answer (MsgId_code (reply_type r)) body = Some (as_answer r)).
Proof. split; [intros f w t; apply request_dispatched | intros r body; apply answer_decoded]. Qed.
End link.

(** A request for a chunk and its answer, with libraries that know the two
    texts. *)
Definition link_request : frame := ChunkDownReq 41 0.
Definition link_reply : server_reply := RChunkDown 41 0 ok_code 3 (§ "0123456789abcdef0123456789abcdef0123456789abcdef0123456789abcdef") true 3 (§ "abc").
Definition link_json : JsonLib := {|
  json_parse _ := Some (@to_server demo_wire (QObject (request_object link_request))); json_dump _ := § "{}" |}.
Definition link_text : QtText := {|
  fromJson _ := Some (@to_client demo_wire (reply_json link_reply));
  toJson _ := § "{}";
  toULongLong s := Some (digits_value s) |}.

Lemma link_numbers : @QtNumbers link_text.
Proof.
  constructor. intros z Hz. cbn. f_equal. unfold ll_string. destruct (Z.ltb_spec z 0); [lia |].
  apply to_string_spec. lia.
Qed.

Lemma frames_agree_witness :
  (@task_callback link_json (Path true []) (λ _, []) (λ _, 0) 1511 (§ "{}") front_logged [] =
     (Some tt, Front (f_session front_logged) (f_redis front_logged) [(Downloads 1, JobChunkDown 41 0)], [])) ∧
  @read_answer link_text 1512 (be16 2 ++ § "{}" ++ § "abc") =
    Some (OnChunkDown (ChunkDown true 0 41 0 3 (§ "0123456789abcdef0123456789abcdef0123456789abcdef0123456789abcdef") (§ "abc") 3 true)).
Proof.
  pose proof (@frames_agree link_json link_text link_numbers demo_wire demo_wire_laws (Path true []) (λ _, []) (λ _, 0)) as [Hq Ha].
  split.
  - refine (Hq link_request front_logged [] _ eq_refl eq_refl). split_and!; vm_compute; done.
  - refine (Ha link_reply _ _ _ _); [| by vm_compute ..].
    split_and!; vm_compute; done.
Defined.
