(* ===== verification/DownloadClient.v ===== *)
(** * A download from its start to its end, on the client

    The engine of TransferEngine.v with one download, a connection and no
    failures, against a server that answers one frame after the other. The
    window, the part file and the digest fit together: when the last chunk has
    been answered the file is there. *)

From S2P Require Import Prelude ProtocolIds ResourceWire Sha256 ResourceTransfer TransferEngine TransferSlots.

#[local] Arguments zlen {_} _ : simpl never.

(** The frames among the outputs. *)
Definition frames_of (l : list output) : list frame := omap (λ o, match o with Frame f => Some f | _ => None end) l.

(** What the engine has sent since it had [e_out e] behind it. *)
Definition new_frames (e e' : engine) : list frame := frames_of (drop (length (e_out e)) (e_out e')).

Section converse.
Context `{Sha256Lib} (cfg : Config) {S : Type} (serve : S → frame → option answer * S).

(** Frames wait in the order they were sent; the server answers the first one
    and the engine handles the answer, at a time and with a world of its own. *)
Fixpoint converse (vs : list env) (s : S) (waiting : list frame) (e : engine) : S * list frame * engine :=
  match vs, waiting with
  | v :: vs, f :: waiting =>
      match serve s f with
      | (None, s) => converse vs s waiting e
      | (Some a, s) =>
          let e' := OnFrame cfg v a e in
          converse vs s (waiting ++ new_frames e e') e'
      end
  | _, _ => (s, waiting, e)
  end.
End converse.

(** ** One download *)

Section one.
Context `{Sha256Lib} (cfg : Config) (mid : Z).
#[local] Abbreviation K := kResourceChunkSize.

(** The engine with this download only. *)
Definition one (t : ResourceTransferRuntime) (disk : gmap bytes bytes) (out : list output) : engine :=
  Engine ∅ {[ mid := t ]} [] [] true false disk [] out.

Lemma put_one t' t disk out : put TRANSFER_DOWNLOAD mid t' (one t disk out) = one t' disk out.
Proof. unfold put, one, with_map, MapFor. cbn. by rewrite insert_singleton_eq. Qed.

Lemma get_one t disk out : get TRANSFER_DOWNLOAD mid (one t disk out) = Some t.
Proof. unfold get, one, MapFor. cbn. apply lookup_singleton_eq. Qed.

Lemma candidates_one t disk out : candidates (one t disk out) = [(TRANSFER_DOWNLOAD, mid, t)].
Proof. unfold candidates, one. cbn. by rewrite map_to_list_empty, map_to_list_singleton. Qed.

Lemma send_one f t disk out : send f (one t disk out) = one t disk (out ++ [Frame f]).
Proof. done. Qed.

Lemma EmitUpdate_one t disk out :
  EmitUpdate TRANSFER_DOWNLOAD mid (one t disk out) = one t disk (out ++ [Updated (MakeSnapshot TRANSFER_DOWNLOAD mid t)]).
Proof. unfold EmitUpdate. by rewrite get_one. Qed.

(** Chunks in flight from [a] on, up to [w]. *)
Fixpoint window (total a : Z) (l : list InflightChunk) (w : Z) : Prop :=
  match l with
  | [] => w = a
  | c :: l => ic_offset c = a ∧ a < total ∧ ic_length c = Z.min K (total - a) ∧ window total (a + ic_length c) l w
  end.

Lemma window_snoc total a l w c :
  window total a l w → ic_offset c = w → w < total → ic_length c = Z.min K (total - w) →
  window total a (l ++ [c]) (w + ic_length c).
Proof.
  revert a. induction l as [| c' l IH]; intros a; cbn.
  - intros -> Eo Hw El. by rewrite Eo.
  - intros (? & ? & ? & Hl) Eo Hw El. split_and!; try done. by apply IH.
Qed.

(** Filling the window of a transfer that may be pumped. *)
Definition fills (t t' : ResourceTransferRuntime) (new : list InflightChunk) : Prop :=
  t' = with_wire (t_wire t') (with_window (t_inflight t ++ new) [] t).

Definition ready (t : ResourceTransferRuntime) : Prop :=
  t_phase t = TRANSFER_ACTIVE ∧ t_slot t = true ∧ t_reconnect t = false ∧ t_paused t = false ∧ t_stale t = [].

Lemma pumpable_ready t : ready t →
  pumpable cfg t = (zlen (t_inflight t) <? max_inflight_chunks cfg) && (t_wire t <? t_total t).
Proof. intros (E1 & E2 & E3 & E4 & _). unfold pumpable. by rewrite E1, E2, E3, E4. Qed.

Lemma SendNextChunk_one v t disk out :
  ready t → zlen (t_inflight t) < max_inflight_chunks cfg → t_wire t < t_total t →
  let len := Z.min K (t_total t - t_wire t) in
  let c := Inflight (t_wire t) len [] (v_now v) in
  SendNextChunk cfg v TRANSFER_DOWNLOAD mid (one t disk out) =
    (true, one (with_wire (t_wire t + len) (with_window (t_inflight t ++ [c]) [] t)) disk (out ++ [Frame (ChunkDownReq mid (t_wire t))])).
Proof.
  intros (_ & _ & _ & _ & Es) Hz Hw. cbv zeta. unfold SendNextChunk. rewrite get_one. cbv zeta. unfold chunk_len.
  assert (0 < K) by done.
  rewrite (proj2 (Z.leb_gt _ _)) by lia. rewrite (proj2 (Z.leb_gt _ _)) by lia. cbn [orb].
  by rewrite put_one, send_one, Es.
Qed.

Lemma pump_one v fuel : ∀ t a disk out,
  ready t → window (t_total t) a (t_inflight t) (t_wire t) →
  ∃ t' new, pump cfg v fuel (one t disk out) = one t' disk (out ++ (Frame <$> (ChunkDownReq mid <$> (ic_offset <$> new)))) ∧
    fills t t' new ∧ window (t_total t) a (t_inflight t') (t_wire t') ∧
    ((0 < fuel)%nat → 0 < max_inflight_chunks cfg → a < t_total t → t_inflight t' ≠ []).
Proof.
  induction fuel as [| fuel IH]; intros t a disk out Hr Hw.
  { exists t, []. cbn. rewrite app_nil_r. split_and!; try done; [| lia].
    unfold fills. rewrite app_nil_r. destruct Hr as (_ & _ & _ & _ & Es). by rewrite <- Es; destruct t. }
  cbn [pump]. rewrite candidates_one. cbn [fewest]. rewrite pumpable_ready by done.
  destruct (Z.ltb_spec (zlen (t_inflight t)) (max_inflight_chunks cfg)) as [Hz |];
    [destruct (Z.ltb_spec (t_wire t) (t_total t)) as [Hlt |] |]; cbn [negb andb].
  - rewrite SendNextChunk_one by done. cbv zeta.
    set (c := Inflight (t_wire t) (Z.min K (t_total t - t_wire t)) [] (v_now v)).
    set (t1 := with_wire _ _).
    destruct (IH t1 a disk (out ++ [Frame (ChunkDownReq mid (t_wire t))])) as (t' & new & -> & Hf & Hw' & _).
    + destruct Hr as (? & ? & ? & ? & ?). done.
    + apply (window_snoc _ _ _ _ c Hw); done.
    + exists t', (c :: new). cbn [fmap list_fmap]. split; [by rewrite <- app_assoc |]. unfold fills in *. split.
      { rewrite Hf at 1. unfold t1. cbn. by rewrite <- app_assoc. }
      split; [done |]. intros _ _ _. rewrite Hf. cbn. by destruct (t_inflight t).
  - exists t, []. cbn. rewrite app_nil_r. split; [done |]. unfold fills. rewrite app_nil_r.
    destruct Hr as (_ & _ & _ & _ & Es). split; [by rewrite <- Es; destruct t |]. split; [done |].
    intros _ _ Ha Hn. rewrite Hn in Hw. cbn in Hw. lia.
  - exists t, []. cbn. rewrite app_nil_r. split; [done |]. unfold fills. rewrite app_nil_r.
    destruct Hr as (_ & _ & _ & _ & Es). split; [by rewrite <- Es; destruct t |]. split; [done |].
    intros _ Hm Ha Hn. rewrite Hn in *. cbn in *. unfold zlen in *. cbn in *. lia.
Qed.

Lemma frames_of_app l k : frames_of (l ++ k) = frames_of l ++ frames_of k.
Proof. unfold frames_of. apply omap_app. Qed.

Lemma frames_of_frames l : frames_of (Frame <$> l) = l.
Proof. unfold frames_of. induction l as [| f l IH]; [done |]. cbn. f_equal. exact IH. Qed.

(** ** The download *)

Section download.
Context (x : bytes) (r : DownloadRequest).
#[local] Abbreviation total := (zlen x).
#[local] Abbreviation dest := (dn_path r).
#[local] Abbreviation part := (PartPathOf (dn_path r)).
#[local] Abbreviation digest := (ToLowerHex (sha256 x)).

Definition piece (a : Z) : bytes := zslice x a (Z.min K (total - a)).

(** The answers of a server that has the file. *)
Definition true_info (name mime : bytes) (ty stt : Z) : DownInfoRsp := DownInfo true 0 mid name total digest mime ty stt.
Definition true_chunk (a : Z) (last : bool) : ChunkDownRsp :=
  ChunkDown true 0 mid a (Z.min K (total - a)) (ToLowerHex (sha256 (piece a))) (piece a) total last.

Record halfway (a : Z) (t : ResourceTransferRuntime) (disk : gmap bytes bytes) : Prop := {
  hw_ready : ready t;
  hw_total : t_total t = total;
  hw_acked : t_acked t = a;
  hw_part : t_part t = true;
  hw_dest : t_download t = r;
  hw_expected : t_expected t = digest;
  hw_hash : t_hash_valid t = true → t_hashed t = ztake a x;
  hw_disk : disk !! part = Some (ztake a x);
  hw_window : window total a (t_inflight t) (t_wire t);
  hw_offset : 0 <= a;
}.

(** The file is there, and the transfer knows. *)
Definition complete (e : engine) : Prop :=
  e_disk e !! dest = Some x ∧ e_disk e !! part = None ∧
  ∃ t, get TRANSFER_DOWNLOAD mid e = Some t ∧ t_phase t = TRANSFER_COMPLETED ∧ t_acked t = total ∧
    last (e_out e) = Some (Finished (MakeSnapshot TRANSFER_DOWNLOAD mid t)).

Lemma part_not_dest : part ≠ dest.
Proof. unfold PartPathOf. intros E. apply (f_equal length) in E. rewrite length_app in E. cbn in E. lia. Qed.

Lemma lower_digest (s : bytes) : lower (ToLowerHex s) = ToLowerHex s.
Proof.
  pose proof (ToLowerHex_lower s) as Hl. unfold lower. induction (ToLowerHex s) as [| b l IH]; [done |].
  cbn in Hl. apply andb_prop in Hl as [Hb Hl]. cbn. f_equal; [| by apply IH].
  unfold is_lower_hex in Hb. destruct (Z.leb_spec 65 (bval b)); [| done]. destruct (Z.leb_spec (bval b) 90); [| done].
  exfalso. bool_to_prop. lia.
Qed.

Lemma FinishDownload_one v t disk out :
  t_part t = true → t_download t = r → t_total t = total → t_expected t = digest →
  (t_hash_valid t = true → t_hashed t = x) → disk !! part = Some x →
  ∃ e', FinishDownload cfg v mid (one t disk out) = e' ∧ complete e' ∧
    new_frames (one t disk out) e' = [].
Proof.
  intros Ep Ed Et Ee Eh Ek. eexists. split; [reflexivity |]. unfold FinishDownload. rewrite get_one, Ep. cbn [negb]. cbv zeta.
  unfold part_of. rewrite Ed. cbn [e_disk one]. rewrite Ek. cbn [default from_option id].
  assert (Eh' : (if t_hash_valid t then (inr (sha256 (t_hashed t)), one t disk out)
     else let '(o, e) := io (one t disk out) in
          if negb (io_ok o) then (inl §"part file seek failed", e)
          else let '(o0, e0) := io e in
               if negb (io_ok o0) then (inl §"part file read failed", e0) else (inr (sha256 x), e0)) =
     (inr (sha256 x) : bytes + bytes, one t disk out)).
  { destruct (t_hash_valid t); [by rewrite Eh | done]. }
  unfold one in *. rewrite Eh'. rewrite Ee, lower_digest. rewrite (bool_decide_eq_true_2 (digest = digest)) by done.
  rewrite andb_false_r.
  assert (Eo : (if bool_decide (is_Some (disk !! dest)) then io (Engine ∅ {[mid := t]} [] [] true false disk [] out)
     else (IoOk, Engine ∅ {[mid := t]} [] [] true false disk [] out)) = (IoOk, Engine ∅ {[mid := t]} [] [] true false disk [] out)).
  { by destruct (bool_decide _). }
  cbn [e_disk] in *. rewrite Eo. cbn [io_ok negb].
  change (io (with_disk (delete dest (e_disk (Engine ∅ {[mid := t]} [] [] true false disk [] out)))
    (Engine ∅ {[mid := t]} [] [] true false disk [] out))) with (IoOk, one t (delete dest disk) out).
  cbn [io_ok negb]. change (with_disk ?d (one t ?d0 out)) with (one t d out).
  rewrite put_one. unfold CompleteTransfer. rewrite get_one. cbv zeta. rewrite put_one.
  set (t' := CloseFiles _). unfold PromoteWaiting. cbn [WaitFor emit one e_down_wait length promote].
  split; [split_and! |].
  - cbn. by rewrite lookup_insert_eq.
  - cbn. rewrite lookup_insert_ne by (apply not_eq_sym, part_not_dest). by rewrite lookup_delete_eq.
  - exists t'. unfold get, MapFor, emit. cbn [e_down e_out one]. rewrite lookup_singleton_eq, last_snoc. split_and!; try done.
  - unfold new_frames, emit, one. cbn [e_out]. by rewrite drop_app_length.
Qed.

Lemma piece_length a : 0 <= a < total → zlen (piece a) = Z.min K (total - a).
Proof. intros Ha. assert (0 < K) by done. apply zlen_zslice; lia. Qed.

Lemma ztake_piece a : 0 <= a < total → ztake a x ++ piece a = ztake (a + Z.min K (total - a)) x.
Proof.
  intros Ha. assert (0 < K) by done. unfold piece, ztake, zslice. rewrite Z2Nat.inj_add by lia.
  by rewrite take_take_drop.
Qed.

Definition asked_chunks (l : list InflightChunk) : list frame := ChunkDownReq mid <$> (ic_offset <$> l).

Lemma new_frames_put t t' disk disk' out fs o :
  new_frames (one t disk out) (one t' disk' ((out ++ (Frame <$> fs)) ++ [Updated o])) = fs.
Proof.
  unfold new_frames, one. cbn [e_out]. rewrite <- app_assoc, drop_app_length, frames_of_app, frames_of_frames.
  cbn. by rewrite app_nil_r.
Qed.

(** Filling the window keeps a half-way download half-way. *)
Lemma pump_halfway v t a disk out :
  0 < max_inflight_chunks cfg → a < total → halfway a t disk →
  ∃ t' new, EmitUpdate TRANSFER_DOWNLOAD mid (Pump cfg v (one t disk out)) =
      one t' disk ((out ++ (Frame <$> asked_chunks new)) ++ [Updated (MakeSnapshot TRANSFER_DOWNLOAD mid t')]) ∧
    halfway a t' disk ∧ t_inflight t' = t_inflight t ++ new ∧ t_inflight t' ≠ [].
Proof.
  intros Hm Ha [Hr Et Eac Ep Ed Ee Eh Ek Hw Ho].   destruct (pump_one v (pump_fuel cfg (one t disk out)) t a disk out Hr) as (t' & new & Hp & Hf & Hw' & Hn);
    [by rewrite Et |]. rewrite Et in Hw'.
  exists t', new. split.
  { unfold Pump. cbn [e_conn one negb]. unfold one in *. rewrite Hp. apply EmitUpdate_one. }
  assert (Ei : t_inflight t' = t_inflight t ++ new) by (rewrite Hf; done).
  split; [| split; [done |]].
  2: { apply Hn; [unfold pump_fuel; lia | done | by rewrite Et]. }
  assert (Hg : ∀ A (g : ResourceTransferRuntime → A), (∀ w l, g (with_wire w (with_window l [] t)) = g t) → g t' = g t).
  { intros A g Hg. rewrite Hf. apply Hg. }
  destruct Hr as (R1 & R2 & R3 & R4 & R5).
  constructor; [split_and! | ..]; try (rewrite Hg; done); [by rewrite Hf | done..].
Qed.

(** The transfer after the chunk at [a]. *)
Definition after_chunk (a : Z) (l : list InflightChunk) (t : ResourceTransferRuntime) : ResourceTransferRuntime :=
  landed a (piece a) (with_json 0 (with_chunk 0 (with_window l [] t))).
Definition disk_after (a : Z) (disk : gmap bytes bytes) : gmap bytes bytes :=
  <[part := ztake (a + Z.min K (total - a)) x]> disk.

Lemma chunk_lands v t a disk out c l last :
  a < total → halfway a t disk → t_inflight t = c :: l →
  OnFrame cfg v (OnChunkDown (true_chunk a last)) (one t disk out) =
    let e := one (after_chunk a l t) (disk_after a disk) out in
    if t_total (after_chunk a l t) <=? t_acked (after_chunk a l t) then FinishDownload cfg v mid e
    else EmitUpdate TRANSFER_DOWNLOAD mid (Pump cfg v e).
Proof.
  intros Ha [Hr Et Eac Ep Ed Ee Eh Ek Hw Ho] Ei.
  pose proof Hr as (R1 & R2 & R3 & R4 & R5). rewrite Ei in Hw. destruct Hw as (Ec & _ & El & Hw).
  pose proof (piece_length a (conj Ho Ha)) as Hpl. assert (HK : 0 < K) by done.
  cbn [OnFrame]. unfold HandleChunkDownRsp. cbv zeta. cbn [cd_message true_chunk]. unfold FindActive. rewrite get_one.
  unfold terminal. rewrite R1. unfold idle_query. rewrite R1. rewrite (bool_decide_eq_false_2 (_ = _)) by done. cbn [andb].
  unfold drains. rewrite R5. cbn [cd_ok cd_error true_chunk negb orb Z.eqb].
  unfold heads. rewrite Ei. cbn [cd_offset true_chunk tail]. rewrite Ec, Z.eqb_refl, (proj2 (Z.leb_le 0 a)) by done. cbn [andb negb].
  assert (Hv : chunk_valid (true_chunk a last) (ic_length c) (with_window l [] t) = true).
  { unfold chunk_valid. cbn [cd_data cd_bytes cd_total cd_offset cd_sha true_chunk t_total t_acked with_window].
    rewrite El, Hpl, Et, Eac, !Z.eqb_refl. rewrite (proj2 (Z.leb_le a _)) by lia.
    rewrite bool_decide_eq_false_2 by (intros E; rewrite E in Hpl; change (zlen []) with 0 in Hpl; lia).
    unfold Sha256HexOf. by rewrite bool_decide_eq_true_2. }
  rewrite Hv. cbn [negb]. rewrite put_one.
  match goal with |- context [one ?t2 disk out] => set (t' := t2) end.
  change (io (one t' disk out)) with (IoOk, one t' disk out). cbn [io_ok negb].
  assert (Ep2 : t_part t' = true) by exact Ep. rewrite Ep2. cbn [negb orb].
  unfold write_part. change (io (one t' disk out)) with (IoOk, one t' disk out).
  assert (Epart : part_of t' = part) by (unfold part_of, t'; cbn; by rewrite Ed).
  cbn [e_disk one]. rewrite Epart, Ek. cbn [default from_option id cd_data true_chunk].
  rewrite ztake_piece by done.
  change (with_disk ?d (one t' disk out)) with (one t' d out). cbn [negb]. by rewrite put_one.
Qed.

Lemma after_chunk_halfway a l t disk :
  a < total → halfway a t disk → ready (after_chunk a l t) ∧ t_total (after_chunk a l t) = total ∧
  t_acked (after_chunk a l t) = a + Z.min K (total - a) ∧ t_part (after_chunk a l t) = true ∧
  t_download (after_chunk a l t) = r ∧ t_expected (after_chunk a l t) = digest ∧
  (t_hash_valid (after_chunk a l t) = true → t_hashed (after_chunk a l t) = ztake (a + Z.min K (total - a)) x) ∧
  t_inflight (after_chunk a l t) = l ∧ t_wire (after_chunk a l t) = t_wire t.
Proof.
  intros Ha [Hr Et Eac Ep Ed Ee Eh Ek Hw Ho]. pose proof Hr as (R1 & R2 & R3 & R4 & R5).
  pose proof (piece_length a (conj Ho Ha)) as Hpl.
  unfold after_chunk, landed. cbn [t_hash_valid t_hashed with_json with_chunk with_count with_window].
  destruct (t_hash_valid t) eqn:Ev; cbn [andb].
  - rewrite (Eh eq_refl), zlen_ztake by lia. rewrite Z.eqb_refl. rewrite Hpl. split_and!; try done.
    intros _. cbn. by apply ztake_piece.
  - rewrite Hpl. split_and!; done.
Qed.

Lemma chunk_step v t a disk out c l last :
  0 < max_inflight_chunks cfg → a < total → halfway a t disk → t_inflight t = c :: l →
  ∃ e', OnFrame cfg v (OnChunkDown (true_chunk a last)) (one t disk out) = e' ∧
    if total <=? a + Z.min K (total - a) then complete e' ∧ new_frames (one t disk out) e' = [] ∧ l = []
    else ∃ t' disk' out' new, e' = one t' disk' out' ∧ halfway (a + Z.min K (total - a)) t' disk' ∧
           t_inflight t' = l ++ new ∧ t_inflight t' ≠ [] ∧ new_frames (one t disk out) e' = asked_chunks new.
Proof.
  intros Hm Ha Hh Ei. eexists. split; [by apply (chunk_lands v t a disk out c l last) |]. cbv zeta.
  destruct (after_chunk_halfway a l t disk Ha Hh) as (F1 & F2 & F3 & F4 & F5 & F6 & F7 & F9 & F10).
  destruct Hh as [Hr Et Eac Ep Ed Ee Eh Ek Hw Ho]. rewrite Ei in Hw. destruct Hw as (Ec & _ & El & Hw).
  assert (HK : 0 < K) by done. set (t3 := after_chunk a l t) in *. set (n := Z.min K (total - a)) in *.
  assert (F8 : disk_after a disk !! part = Some (ztake (a + n) x)) by apply lookup_insert_eq.
  rewrite F2, F3. destruct (Z.leb_spec total (a + n)) as [Hend | Hmore].
  - assert (Ex : ztake (a + n) x = x) by (apply ztake_all; lia). rewrite Ex in *.
    destruct (FinishDownload_one v t3 (disk_after a disk) out) as (e' & Hf & Hc & Hn'); try done.
    rewrite Hf. split; [done |]. split; [done |].
    destruct l as [| c' l]; [done |]. destruct Hw as (_ & Hlt & _). lia.
  - assert (Hh3 : halfway (a + n) t3 (disk_after a disk)).
    { constructor; try done; [| lia]. rewrite F9, F10, <- El. exact Hw. }
    destruct (pump_halfway v t3 (a + n) (disk_after a disk) out Hm Hmore Hh3) as (t' & new & -> & Hh' & Hi & Hne).
    exists t', (disk_after a disk). eexists. exists new. rewrite F9 in Hi. split_and!; try done. apply new_frames_put.
Qed.

(** A server that has the file and answers the requests for it. *)
Section served.
Context {S : Type} (serve : S → frame → option answer * S) (I : S → Prop).
Hypothesis serve_info : ∀ s, I s → ∃ name mime ty stt s',
  serve s (DownInfoReq mid) = (Some (OnDownInfo (true_info name mime ty stt)), s') ∧ I s'.
Hypothesis serve_chunk : ∀ s a, I s → 0 <= a < total → ∃ last s',
  serve s (ChunkDownReq mid a) = (Some (OnChunkDown (true_chunk a last)), s') ∧ I s'.
Hypothesis window_size : 0 < max_inflight_chunks cfg.
#[local] Set Default Proof Using "Type*".

Lemma converse_chunks vs : ∀ s t a disk out,
  I s → halfway a t disk → a < total → t_inflight t ≠ [] → total - a <= Z.of_nat (length vs) * K →
  ∃ s' e', converse cfg serve vs s (asked_chunks (t_inflight t)) (one t disk out) = (s', [], e') ∧ I s' ∧ complete e'.
Proof.
  assert (HK : 0 < K) by done.
  induction vs as [| v vs IH]; intros s t a disk out Hs Hh Ha Hne Hlen; [cbn in Hlen; lia |].
  destruct (t_inflight t) as [| c l] eqn:Ei; [done |].
  assert (Ec : ic_offset c = a) by (pose proof (hw_window _ _ _ Hh) as Hw; rewrite Ei in Hw; apply Hw).
  destruct (serve_chunk s a Hs) as (last & s1 & Hserve & Hs1); [split; [apply Hh | done] |].
  destruct (chunk_step v t a disk out c l last window_size Ha Hh Ei) as (e1 & He1 & Hcase).
  cbn [asked_chunks fmap list_fmap converse]. rewrite Ec, Hserve. cbv zeta. rewrite He1.
  destruct (Z.leb_spec total (a + Z.min K (total - a))) as [Hend | Hmore].
  - destruct Hcase as (Hc & -> & ->). cbn [fmap list_fmap app]. exists s1, e1. by destruct vs.
  - destruct Hcase as (t' & disk' & out' & new & -> & Hh' & Hi & Hne' & ->).
    assert (Hl : asked_chunks l ++ asked_chunks new = asked_chunks (t_inflight t')).
    { unfold asked_chunks. by rewrite Hi, !fmap_app. }
    unfold asked_chunks in Hl at 1. rewrite Hl. cbn [length] in Hlen.
    destruct (IH s1 t' (a + Z.min K (total - a)) disk' out') as (s' & e' & Hr & Hs' & Hc); try done; [lia |].
    by exists s', e'.
Qed.

(** What is left of an earlier download is used up to the last whole chunk. *)
Lemma resume_at_bounds size : 0 <= size <= total →
  0 <= resume_at size total <= size ∧ (0 < total → resume_at size total < total).
Proof.
  intros Hs. unfold resume_at. rewrite (proj2 (Z.ltb_ge total size)) by lia.
  assert (HK : 0 < K) by done. destruct (Z.ltb_spec 0 size); [| lia].
  pose proof (Z.mul_div_le (size - 1) K HK). pose proof (Z.div_pos (size - 1) K). nia.
Qed.

Definition started (v : env) : ResourceTransferRuntime :=
  with_window [] [] (with_query (v_now v) (with_phase TRANSFER_QUERYING (with_pending false (with_slot true (new_download r))))).

Lemma StartDownload_one v disk out :
  dn_message r = mid → 0 < mid → dest ≠ [] → v_mkpath v dest = true → 0 < max_active_downloads cfg →
  StartDownload cfg v r (Engine ∅ ∅ [] [] true false disk [] out) =
    (true, one (started v) disk ((out ++ (Frame <$> [DownInfoReq mid])) ++
       [Updated (MakeSnapshot TRANSFER_DOWNLOAD mid (started v))])).
Proof.
  intros Em Hm Hd Hk Hl. unfold StartDownload. rewrite Em, (proj2 (Z.leb_gt mid 0)), bool_decide_eq_false_2 by done. cbn [orb].
  change (FindActive TRANSFER_DOWNLOAD mid (Engine ∅ ∅ [] [] true false disk [] out)) with (None : option ResourceTransferRuntime).
  rewrite Hk. cbn [negb]. f_equal. unfold start_transfer.
  assert (Ep : ∀ t, put TRANSFER_DOWNLOAD mid t (with_map TRANSFER_DOWNLOAD (delete mid (e_down (Engine ∅ ∅ [] [] true false disk [] out)))
    (Engine ∅ ∅ [] [] true false disk [] out)) = one t disk out).
  { intros t. unfold put, with_map, MapFor, one. cbn. by rewrite delete_empty, insert_empty. }
  rewrite Ep. unfold ActiveCount, one at 1. cbn [MapFor e_down].
  rewrite map_filter_singleton_False by done. cbn [limit]. rewrite map_size_empty. cbn [Z.of_nat].
  rewrite (proj2 (Z.leb_gt _ _)) by done.
  assert (Eu : upd TRANSFER_DOWNLOAD mid (with_slot true) (one (new_download r) disk out) = one (with_slot true (new_download r)) disk out).
  { unfold upd, with_map, MapFor, one. cbn. by rewrite alter_singleton_eq. }
  rewrite Eu. unfold BeginQuery. rewrite get_one. cbv zeta. cbn [e_conn one negb orb t_paused with_phase with_pending with_proof with_slot new_download].
  rewrite put_one, send_one, EmitUpdate_one. done.
Qed.

(** Either the file was empty, or the first chunks have been asked for. *)
Definition opened (e e' : engine) : Prop :=
  (complete e' ∧ new_frames e e' = []) ∨
  ∃ t' a disk' out', e' = one t' disk' out' ∧ halfway a t' disk' ∧ a < total ∧ t_inflight t' ≠ [] ∧
    new_frames e e' = asked_chunks (t_inflight t').

Lemma OpenDownloadPart_one v t0 t disk out :
  t_slot t = true → t_reconnect t = false → t_paused t = false → t_download t = r → t_total t = total → t_expected t = digest →
  default [] (disk !! part) `prefix_of` x →
  opened (one t0 disk out) (OpenDownloadPart cfg v mid (one t disk out)).
Proof.
  intros E2 E3 E4 E5 Et Ee Hpre. set (content := default [] (disk !! part)) in *.
  assert (Hlen : 0 <= zlen content <= total).
  { split; [apply zlen_nonneg |]. apply prefix_length in Hpre. unfold zlen. lia. }
  destruct (resume_at_bounds (zlen content) Hlen) as [Hres Hlt].
  assert (Htake : ztake (resume_at (zlen content) total) content = ztake (resume_at (zlen content) total) x).
  { destruct Hpre as [k ->]. symmetry. apply ztake_app_le. lia. }
  assert (Epart : part_of t = part) by (unfold part_of; by rewrite E5).
  unfold opened, OpenDownloadPart. rewrite get_one. change (io (one t disk out)) with (IoOk, one t disk out). cbn [io_ok negb].
  cbv zeta. change (e_disk (one t disk out)) with disk. rewrite Epart. fold content. rewrite Et.
  set (a := resume_at (zlen content) total) in *.
  assert (Eo : (if a =? zlen content then (IoOk, one t disk out) else io (one t disk out)) = (IoOk, one t disk out)) by (by destruct (_ =? _)).
  rewrite Eo. cbn [io_ok negb]. change (e_disk (one t disk out)) with disk.
  change (with_disk ?d (one t disk out)) with (one t d out). rewrite put_one. rewrite Htake.
  set (t2 := with_window [] [] _). set (disk' := <[part := ztake a x]> disk).
  assert (Ek : disk' !! part = Some (ztake a x)) by apply lookup_insert_eq.
  change (t_total t2) with total. change (t_acked t2) with a.
  destruct (Z.eqb_spec total 0) as [Hz | Hz]; [| destruct (Z.leb_spec total a); [lia |]]; cbn [orb].
  - left. assert (Ea : ztake a x = x) by (apply ztake_all; lia).
    destruct (FinishDownload_one v t2 disk' out) as (e' & Hf & Hc & Hn); try done; [| by rewrite Ek, Ea |].
    + intros _. cbn. symmetry. by apply zlen_nil_inv.
    + by rewrite Hf.
  - right. rewrite put_one. set (t3 := with_phase TRANSFER_ACTIVE t2).
    assert (Hh : halfway a t3 disk').
    { constructor; try done; [| lia]. intros Hv. apply Z.eqb_eq in Hv. rewrite Hv. done. }
    destruct (pump_halfway v t3 a disk' out window_size) as (t4 & new & -> & Hh' & Hi & Hne); [lia | done |].
    exists t4, a, disk'. eexists. split_and!; try done. rewrite new_frames_put, Hi. done.
Qed.

Lemma info_step v t disk out name mime ty stt :
  t_phase t = TRANSFER_QUERYING → t_slot t = true → t_reconnect t = false → t_paused t = false → t_download t = r →
  dn_size r <= 0 ∨ dn_size r = total → default [] (disk !! part) `prefix_of` x →
  opened (one t disk out) (OnFrame cfg v (OnDownInfo (true_info name mime ty stt)) (one t disk out)).
Proof.
  intros E1 E2 E3 E4 E5 Hsize Hpre. cbn [OnFrame]. unfold HandleDownInfoRsp. cbv zeta. cbn [di_message true_info].
  unfold FindActive. rewrite get_one. unfold terminal. rewrite E1. cbn [di_ok di_error true_info negb orb Z.eqb].
  rewrite !put_one.
  assert (Esz : (0 <? dn_size (t_download (with_json 0 (with_query 0 t)))) &&
    negb (dn_size (t_download (with_json 0 (with_query 0 t))) =? di_size (true_info name mime ty stt)) = false).
  { cbn [t_download with_json with_count with_query with_timers di_size true_info]. rewrite E5.
    destruct Hsize as [Hs | ->]; [by rewrite (proj2 (Z.ltb_ge 0 _)) | by rewrite Z.eqb_refl, andb_false_r]. }
  rewrite Esz. cbn [di_sha true_info]. rewrite (bool_decide_eq_false_2 (digest = [])) by apply Sha256_hex_not_nil.
  by apply OpenDownloadPart_one.
Qed.

Lemma download_completes_run v0 vs s disk out :
  I s → dn_message r = mid → 0 < mid → dest ≠ [] → v_mkpath v0 dest = true → 0 < max_active_downloads cfg →
  dn_size r <= 0 ∨ dn_size r = total → default [] (disk !! part) `prefix_of` x →
  total <= (Z.of_nat (length vs) - 1) * K → (0 < length vs)%nat →
  ∃ s' e', let e0 := Engine ∅ ∅ [] [] true false disk [] out in let e1 := (StartDownload cfg v0 r e0).2 in
    converse cfg serve vs s (new_frames e0 e1) e1 = (s', [], e') ∧ I s' ∧ complete e'.
Proof.
  intros Hs Em Hm Hd Hk Hl Hsize Hpre Hlen Hpos. cbv zeta.
  rewrite (StartDownload_one v0 disk out) by done. cbn [snd].
  assert (En : new_frames (Engine ∅ ∅ [] [] true false disk [] out) (one (started v0) disk
    ((out ++ (Frame <$> [DownInfoReq mid])) ++ [Updated (MakeSnapshot TRANSFER_DOWNLOAD mid (started v0))])) = [DownInfoReq mid])
    by (exact (new_frames_put (started v0) (started v0) disk disk out [DownInfoReq mid] _)).
  rewrite En. set (out1 := (out ++ _) ++ _). destruct vs as [| v vs]; [cbn in Hpos; lia |].
  destruct (serve_info s Hs) as (name & mime & ty & stt & s1 & Hserve & Hs1).
  cbn [converse]. rewrite Hserve. cbv zeta.
  assert (Hcase : opened (one (started v0) disk out1) (OnFrame cfg v (OnDownInfo (true_info name mime ty stt)) (one (started v0) disk out1)))
    by (by apply info_step).
  set (e1 := OnFrame cfg v _ _) in *. clearbody e1.
  destruct Hcase as [[Hc ->] | (t' & a & disk' & out' & -> & Hh & Ha & Hne & ->)].
  - exists s1, e1. by destruct vs.
  - cbn [app]. apply (converse_chunks vs s1 t' a disk' out'); try done. cbn [length] in Hlen.
    pose proof (hw_offset _ _ _ Hh). lia.
Qed.
End served.
End download.
End one.
