(* ===== verification/DownloadEnd.v ===== *)
(** * A download from end to end

    The client's engine (DownloadClient.v), the frames between client and
    server (ResourceLink.v), the dispatch of the ResourceServer
    (ResourceDispatch.v) and its download worker (DownloadWorker.v) on a
    server in any reachable state (DownloadSystem.v): what the engine asks
    for, encoded, is dispatched to the worker, and the worker's reply,
    encoded, is what the engine handles. *)

From S2P Require Import Prelude ResourceWire ProtocolIds SessionLifecycle JsonFields Sha256 UploadFile Database ResourceDb FileWorker FileWorkerProofs TxLogic ChatDb SystemDb.
From S2P Require Import ChatDbMessages BlobFrames DownloadWorker DownloadProofs DownloadSystem.
From S2P Require Import ChatSession ChatLogic ClientSync SyncLoop ResourceTransfer TransferEngine ResourceSession ResourceDispatch ResourceCodec ResourceLink DownloadClient.

#[local] Arguments zlen {_} _ : simpl never.

(** The front of the connection, and its download worker. *)
Record server := Server { sv_front : front; sv_down : dworker }.

Section wire.
Context `{Sha256Lib, !JsonLib, !QtText, !QtNumbers, !Wire, !WireLaws}.
Context (root : path) (handle_order : gmap Z FileHandleEntry → list (Z * FileHandleEntry)).
Context (out_path : path) (path_string : path → bytes) (hash : bytes → Z).
Context (conn : Z) (clock : nat → Z).
#[local] Set Default Proof Using "Type*".

(** The download worker runs a task; the connection is the one of the
    session, and the user the one it has logged in as. The clock is read once
    per request. *)
Definition run_job (uid : Z) (j : job) : D unit := λ w t,
  match j with
  | JobDownInfo mid => HandleResourceDownInfo root conn uid mid w t
  | JobChunkDown mid offset => HandleResourceChunkDown root handle_order (clock (length (dw_sent w))) conn uid mid offset w t
  | _ => (tt, w, t)
  end.

(** What has been appended to a log. *)
Definition appended {A} (old new : list A) : list A := drop (length old) new.

(** The reply as the client's engine gets it. *)
Definition reply_answer (x : Z * Z * json * bytes) : option answer :=
  let '(_, ty, meta, raw) := x in body ← rsp_body ty meta raw; read_answer ty body.

(** A frame of the client on its way through the server and back: the task it
    posts, if any, runs, and its reply, if any, is read. *)
Definition serve_frame (s : server) (fr : frame) : option answer * server :=
  let '(_, fr1, _) := task_callback out_path path_string hash (MsgId_code (request_frame fr).1) (request_frame fr).2 (sv_front s) [] in
  match head (appended (f_jobs (sv_front s)) (f_jobs fr1)) with
  | None => (None, Server fr1 (sv_down s))
  | Some (_, j) =>
      let '(_, w, _) := run_job (user_uid (f_session fr1)) j (sv_down s) [] in
      (head (appended (dw_sent (sv_down s)) (dw_sent w)) ≫= reply_answer, Server fr1 w)
  end.

(** ** What a member gets *)

Context (seen : Z → Z → Prop) (uid mid : Z) (f : published_facts) (file : bytes).
#[local] Abbreviation res := (pf_resource f).

Record serving (s : server) : Prop := {
  sg_open : IsOpen (lifecycle (f_session (sv_front s))) = true;
  sg_authed : authed (f_session (sv_front s)) = true;
  sg_uid : user_uid (f_session (sv_front s)) = uid;
  sg_seen : seen conn uid;
  sg_down : download_ok root seen (sv_down s);
  sg_published : published_as (dw_db (sv_down s)) mid f;
  sg_member : member f uid;
  sg_file : content (dw_disk (sv_down s)) (BlobPathOf root (r_sha res)) = Some file;
  sg_size : zlen file = r_size res;
  sg_digest : ToLowerHex (sha256 file) = r_sha res;
}.

(** The replies of a successful download. *)
Definition info_json : json := info_reply mid (entry_from root conn f).
Definition chunk_json (off : Z) : json :=
  let n := Z.min kUploadChunkSize (r_size res - off) in
  chunk_down_reply mid off ok_code n (ToLowerHex (sha256 (zslice file off n))) (r_size res <=? off + n) (r_size res).

(** The texts of a download are read as they were written, and the header of
    a chunk fits the frame. *)
Record texts_ok : Prop := {
  tx_info_req : server_reads (request_object (DownInfoReq mid));
  tx_chunk_req : ∀ off, 0 <= off < r_size res → server_reads (request_object (ChunkDownReq mid off));
  tx_info : client_reads info_json;
  tx_chunk : ∀ off, 0 <= off < r_size res →
    client_reads (chunk_json off) ∧ 1 <= zlen (json_dump (chunk_json off)) <= kMaxMetaLen;
}.

Hypothesis texts : texts_ok.
Hypothesis mid_fits : 0 < mid <= int64_max.
Hypothesis size_fits : 0 <= r_size res <= int64_max.
Hypothesis type_fits : in32 (pf_type f).

Lemma info_run w :
  download_ok root seen w → published_as (dw_db w) mid f → member f uid →
  is_Some (content (dw_disk w) (BlobPathOf root (r_sha res))) → seen conn uid →
  ∃ w', HandleResourceDownInfo root conn uid mid w [] = (tt, w', []) ∧
    dw_sent w' = dw_sent w ++ [(conn, MsgId_code MSG_RESOURCE_DOWN_INFO_RSP, info_json, [])].
Proof.
  intros (Hc & Hh & Hb) Hp Hm [x Hx] Hseen.
  destruct (ResolvePublished_run root seen conn mid uid f w Hc Hp Hm) as [w1 Hres].
  pose proof Hres as ([E1 E2] & E3 & E4 & _)%(ResolvePublished_done root seen); [| done | done].
  unfold HandleResourceDownInfo. cbv zeta. rewrite (D_bind_run _ _ _ _ _ _ _ Hres).
  assert (Hex : d_io (file_exists (e_path (entry_from root conn f))) w1 [] = (true, w1, [])).
  { unfold d_io, file_exists, mbind, IO_bind, syscall, get, mret, IO_ret. cbn. rewrite E1. unfold content in Hx.
    destruct (names (dw_disk w) !! _) as [i |] eqn:Ei; [| done].
    rewrite (bool_decide_eq_true_2 (is_Some _)) by done. cbn [orb]. destruct w1. cbn in *. by subst. }
  rewrite (D_bind_run _ _ _ _ _ _ _ Hex). eexists. split; [reflexivity |]. cbn. by rewrite E4.
Qed.

Lemma appended_snoc {A} (l : list A) x : head (appended l (l ++ [x])) = Some x.
Proof. unfold appended. by rewrite drop_app_length. Qed.

Lemma hex64_digest (m : bytes) : hex64 (ToLowerHex (sha256 m)).
Proof.
  unfold hex64, ResourceCodec.IsValidSha256Hex. pose proof (ToLowerHex_lower (sha256 m)) as Hl.
  assert (Hh : ∀ s, forallb is_lower_hex s = true → forallb hex_digit s = true ∧ qsize s = zlen s).
  { induction s as [| b s IH]; [done |]. cbn [forallb]. intros [Hb Hs]%andb_prop. destruct (IH Hs) as [Hx Hq].
    unfold is_lower_hex in Hb. split.
    - rewrite Hx, andb_true_r. unfold hex_digit, isdigit. exact Hb.
    - unfold qsize in *. cbn [foldr]. rewrite Hq. unfold utf16_units. change (zlen (b :: s)) with (zlen ([b] ++ s)).
      rewrite zlen_app. change (zlen [b]) with 1. f_equal.
      assert (Hlt : bval b < 128) by (apply orb_prop in Hb as [[_ ?]%andb_prop | [_ ?]%andb_prop]; bool_to_prop; lia).
      destruct (is_continuation b) eqn:Ec; [apply is_continuation_range in Ec; lia |].
      by rewrite (proj2 (Z.leb_gt 240 _)) by lia. }
  destruct (Hh _ Hl) as [-> ->]. rewrite andb_true_r. apply Z.eqb_eq. unfold zlen. rewrite ToLowerHex_length, sha256_length. done.
Qed.

(** One frame of a download and its answer. *)
Lemma serve_frame_run s fr q j w x a :
  sendable fr → serving s → home (intended_job uid fr) (frame_message fr) = q → intended_job uid fr = j →
  run_job uid j (sv_down s) [] = (tt, w, []) → dw_sent w = dw_sent (sv_down s) ++ [x] → reply_answer x = Some a →
  d_same (sv_down s) w → download_ok root seen w →
  ∃ s', serve_frame s fr = (Some a, s') ∧ serving s'.
Proof.
  intros Hs Hg <- <- Hr Hx Ha [Ed Eb] Hok. destruct Hg as [G1 G2 G3 G4 G5 G6 G7 G8 G9 G10].
  unfold serve_frame. rewrite (request_dispatched _ _ _ _ _ _ Hs G1 G2). cbn [f_jobs f_session]. rewrite appended_snoc, G3.
  rewrite Hr, Hx, appended_snoc. cbn [mbind option_bind]. rewrite Ha. eexists. split; [reflexivity |].
  constructor; cbn [sv_front sv_down f_session]; try done; by rewrite ?Ed, ?Eb.
Qed.

Lemma serve_info s : serving s → ∃ s',
  serve_frame s (DownInfoReq mid) =
    (Some (OnDownInfo (true_info mid file (r_name res) (r_mime res) (pf_type f) (st Published))), s') ∧ serving s'.
Proof.
  intros Hg. destruct texts as [T1 _ T3 _].
  destruct (info_run (sv_down s)) as (w & Hr & Hx); try apply Hg; [by rewrite (sg_file _ Hg) |].
  pose proof (HandleResourceDownInfo_done root seen _ _ _ _ _ _ _ _ (sg_down _ Hg) (sg_seen _ Hg) Hr) as (Hd & Hok & _).
  assert (Hsend : sendable (DownInfoReq mid)) by (split; [exact mid_fits | by split]).
  eapply (serve_frame_run s (DownInfoReq mid) _ (JobDownInfo mid) w); try done.
  - assert (Hf : reply_fits (RInfo mid (entry_from root conn f))).
    { split_and!; try (unfold in64; lia); try done; try apply size_fits; try apply type_fits.
      cbn. rewrite <- (sg_digest _ Hg). apply hex64_digest. }
    pose proof (answer_decoded _ (json_dump info_json) Hf T3 eq_refl) as Hans.
    unfold reply_answer. change (rsp_body _ info_json []) with (Some (json_dump info_json)). cbn [mbind option_bind].
    change (MsgId_code (reply_type (RInfo mid (entry_from root conn f)))) with (MsgId_code MSG_RESOURCE_DOWN_INFO_RSP) in Hans.
    rewrite Hans. cbn [as_answer]. unfold true_info. cbn. by rewrite (sg_size _ Hg), (sg_digest _ Hg).
Qed.

Lemma serve_chunk s off : serving s → 0 <= off < zlen file → ∃ last s',
  serve_frame s (ChunkDownReq mid off) = (Some (OnChunkDown (true_chunk mid file off last)), s') ∧ serving s'.
Proof.
  intros Hg Hoff. destruct texts as [_ T2 _ T4]. rewrite (sg_size _ Hg) in Hoff.
  assert (Hsz : r_size res < 2 ^ 64) by (unfold int64_max in *; lia).
  destruct (chunk_down_run root handle_order seen (clock (length (dw_sent (sv_down s)))) conn uid mid off f (sv_down s))
    as (w & file' & Hr & Hf' & _ & Hx); try apply Hg; [done.. |].
  rewrite (sg_file _ Hg) in Hf'. injection Hf' as <-. cbv zeta in Hx.
  pose proof (HandleResourceChunkDown_done root handle_order seen _ _ _ _ _ _ _ _ _ _ (sg_down _ Hg) (sg_seen _ Hg) Hr) as (Hd & Hok & _).
  destruct (T4 off Hoff) as [T5 T6]. set (n := Z.min kUploadChunkSize (r_size res - off)) in *.
  assert (Hn : 0 < n) by (unfold n, kUploadChunkSize, kResourceChunkSize; lia).
  assert (Hz : zlen (zslice file off n) = n) by (apply zlen_zslice; rewrite ?(sg_size _ Hg); unfold n; lia).
  exists (r_size res <=? off + n).
  assert (Hsend : sendable (ChunkDownReq mid off)) by (split; [exact mid_fits |]; split; [by apply T2 | lia]).
  eapply (serve_frame_run s (ChunkDownReq mid off) _ (JobChunkDown mid off) w); try done.
  - unfold reply_answer.
    set (rep := RChunkDown mid off ok_code n (ToLowerHex (sha256 (zslice file off n))) (r_size res <=? off + n) (r_size res) (zslice file off n)).
    assert (Hf : reply_fits rep).
    { cbn. unfold in64. split_and!; try lia; try done. intros _. split_and!; [done | | apply hex64_digest].
      intros E. rewrite E in Hz. change (zlen []) with 0 in Hz. lia. }
    destruct (rsp_body (MsgId_code MSG_RESOURCE_CHUNK_DOWN_RSP) (chunk_json off) (zslice file off n)) as [body |] eqn:Eb.
    + pose proof (answer_decoded rep body Hf T5 Eb) as Hans. cbn [mbind option_bind].
      change (reply_json rep) with (chunk_json off) in *. unfold chunk_json in Eb. fold n in Eb. rewrite Eb. cbn [mbind option_bind].
      change (MsgId_code (reply_type rep)) with (MsgId_code MSG_RESOURCE_CHUNK_DOWN_RSP) in Hans. rewrite Hans.
      unfold rep. cbn [as_answer]. unfold true_chunk, piece. rewrite (sg_size _ Hg). done.
    + exfalso. unfold rsp_body in Eb. cbn -[json_dump EncodeFrame chunk_json] in Eb. rewrite EncodeFrame_spec in Eb.
      rewrite bool_decide_eq_true_2 in Eb; [done |]. split; [exact T6 |]. rewrite Hz. unfold n, kUploadChunkSize. lia.
Qed.
End wire.

(** ** From end to end *)

Section ends.
Context `{Sha256Lib, !JsonLib, !QtText, !QtNumbers, !Wire, !WireLaws}.
Context (root : path) (handle_order : gmap Z FileHandleEntry → list (Z * FileHandleEntry)) (weight : bytes → bytes).
Context (out_path : path) (path_string : path → bytes) (hash : bytes → Z) (clock : nat → Z) (cfg : Config).
#[local] Set Default Proof Using "Type*".

End ends.

(** ** A concrete download

    The recipient of the picture in DownloadSystem.v fetches it. The texts of
    this toy are the name of the kind and the offset. *)

Definition end_offset (o : list (bytes * json)) : bytes := default [] (assoc §"offset" o ≫= get_string).
Definition end_chunk (off : Z) : json := @chunk_json toy_sha256 2 demo_facts (§ "abcdef") off.
Definition end_info : json := @info_json demo_root 8 2 demo_facts.

Definition end_json : JsonLib := {|
  json_parse s :=
    match s with
    | b :: off => Some (@to_server demo_wire (QObject ([(§"message_id", number 2)] ++
        if bval b =? 99 then [(§"offset", QString off)] else [])))
    | [] => None
    end;
  json_dump j :=
    match j with
    | JObject o => if bool_decide (is_Some (assoc §"offset" o)) then § "c" ++ end_offset o else § "i"
    | _ => []
    end |}.
Definition end_text : QtText := {|
  fromJson s :=
    match s with
    | b :: off => Some (@to_client demo_wire (if bval b =? 99 then end_chunk (digits_value off) else end_info))
    | [] => None
    end;
  toJson o := match qassoc §"offset" o with Some (QString off) => § "c" ++ off | _ => § "i" end;
  toULongLong s := Some (digits_value s) |}.

Lemma end_numbers : @QtNumbers end_text.
Proof.
  constructor. intros z Hz. cbn. f_equal. unfold ll_string. destruct (Z.ltb_spec z 0); [lia |].
  apply to_string_spec. lia.
Qed.

Lemma below_six off : 0 <= off < 6 → off = 0 ∨ off = 1 ∨ off = 2 ∨ off = 3 ∨ off = 4 ∨ off = 5.
Proof. lia. Qed.

Lemma end_texts : @texts_ok toy_sha256 end_json end_text demo_wire demo_root 8 2 demo_facts (§ "abcdef").
Proof.
  constructor.
  - vm_compute. reflexivity.
  - intros off Hoff. destruct (below_six off Hoff) as [-> | [-> | [-> | [-> | [-> | ->]]]]]; vm_compute; reflexivity.
  - vm_compute. reflexivity.
  - intros off Hoff. destruct (below_six off Hoff) as [-> | [-> | [-> | [-> | [-> | ->]]]]];
      (split; [vm_compute; reflexivity |]; vm_compute; split; discriminate).
Qed.

Definition end_front : front := Front (TrySetAuth new_session 2).2 ∅ [].
Definition end_request : DownloadRequest := Download 2 (§ "d/f.png") demo_sha 6.
Definition end_env : env := Env 5 (λ _, None) (λ _, false) (λ _ _ _, None) (λ _, None) (λ _, true).
Definition end_disk : gmap bytes bytes := {[ § "d/f.png.part" := § "abc" ]}.

