(* ===== verification/ClientSocket.v ===== *)
(** * The socket and the send queue of the client's channels

    [QTcpSocket] is Qt's and is an interface here. Both channels
    (client/llfcchat/src/net/tcpmgr.cpp and filetcpmgr.cpp) hand frames to it
    in the same way: a queue of whole frames, one [write] per frame while the
    socket holds less than a high-water mark, and the suffix of a frame that
    was accepted in part, which goes first when the socket has room again. *)

From S2P Require Import Prelude ResourceWire.

Inductive SocketState := UnconnectedState | ConnectingState | ConnectedState | ClosingState.
#[global] Instance SocketState_eq_dec : EqDecision SocketState.
Proof. solve_decision. Defined.

Inductive SocketError :=
  | ConnectionRefusedError | RemoteHostClosedError | HostNotFoundError | SocketTimeoutError | NetworkError | OtherError.

(** [write] returns the number of bytes accepted or a negative number;
    [abort] and [close] say whether [disconnected] is emitted on the way. *)
Class QtSocket := {
  sock : Type;
  sk_state : sock → SocketState;
  sk_bytesToWrite : sock → Z;
  sk_write : bytes → sock → Z * sock;
  sk_abort : sock → bool * sock;
  sk_close : sock → bool * sock;
  sk_connectToHost : bytes → Z → sock → sock;
}.

Class QtSocketLaws `{!QtSocket} := {
  write_bound : ∀ b s, -1 <= (sk_write b s).1 <= zlen b;
  write_keeps_state : ∀ b s, sk_state (sk_write b s).2 = sk_state s;
  abort_unconnects : ∀ s, sk_state (sk_abort s).2 = UnconnectedState;
  abort_unconnected : ∀ s, sk_state s = UnconnectedState → (sk_abort s).1 = false;
  abort_connected : ∀ s, sk_state s = ConnectedState → (sk_abort s).1 = true;
}.

(** ** The state of both channels *)

(** An unsigned number as [QDataStream] reads it. *)
Definition be_val (b : bytes) : Z := foldl (λ n x, n * 256 + bval x) 0 b.

(** [_send_queue], [_send_queue_bytes], [_current_block], [_bytes_sent] and
    [_pending]. *)
Record sendq := SendQ {
  sq_queue : list bytes;
  sq_bytes : Z;
  sq_block : bytes;
  sq_sent : Z;
  sq_pending : bool;
}.

Definition empty_queue : sendq := SendQ [] 0 [] 0 false.

(** [_buffer], [_b_recv_pending], [_message_type] and [_message_len]: what has
    been received and not yet handled. *)
Record reader := Reader {
  rx_buffer : bytes;
  rx_pending : bool;
  rx_type : Z;
  rx_len : Z;
}.

Definition empty_reader : reader := Reader [] false 0 0.

Definition with_frames (l : list bytes) (q : sendq) : sendq := SendQ l (sq_bytes q) (sq_block q) (sq_sent q) (sq_pending q).

Definition enqueue (b : bytes) (q : sendq) : sendq :=
  SendQ (sq_queue q ++ [b]) (sq_bytes q + zlen b) (sq_block q) (sq_sent q) (sq_pending q).

(** An operation returns the socket and the queue, the bytes the socket has
    accepted, and whether [write] has failed, in which case the caller resets
    the connection. *)
Section queue.
Context `{!QtSocket} (high_watermark : Z).

(** The loop of [tryDequeueSend] over the queued frames. *)
Fixpoint dequeue (l : list bytes) (q : sendq) (s : sock) : sock * sendq * bytes * bool :=
  match l with
  | [] => (s, with_frames [] q, [], false)
  | b :: l' =>
      if sq_pending q || negb (sk_bytesToWrite s <? high_watermark) then (s, with_frames l q, [], false)
      else
        let n := sq_bytes q - zlen b in
        let '(accepted, s) := sk_write b s in
        if accepted <? 0 then (s, SendQ l' n b 0 false, [], true)
        else if accepted <? zlen b then
          (s, SendQ l' n (drop (Z.to_nat accepted) b) accepted true, ztake accepted b, false)
        else
          let '(s, q, w, failed) := dequeue l' (SendQ l' n [] 0 false) s in
          (s, q, b ++ w, failed)
  end.

Definition tryDequeueSend (q : sendq) (s : sock) : sock * sendq * bytes * bool := dequeue (sq_queue q) q s.

(** [flushPendingSuffix]: [retries] counts the writes that accepted nothing. *)
Fixpoint flush (fuel : nat) (retries : Z) (q : sendq) (s : sock) : sock * sendq * bytes * bool :=
  match fuel with
  | O => (s, q, [], false)
  | S fuel =>
      if bool_decide (sq_block q = []) then (s, SendQ (sq_queue q) (sq_bytes q) (sq_block q) 0 false, [], false)
      else
        let '(accepted, s) := sk_write (sq_block q) s in
        if accepted <? 0 then (s, q, [], true)
        else
          let retries := if accepted =? 0 then retries + 1 else retries in
          if (accepted =? 0) && (3 <=? retries) then (s, q, [], true)
          else if accepted <? zlen (sq_block q) then
            (s, SendQ (sq_queue q) (sq_bytes q) (drop (Z.to_nat accepted) (sq_block q)) (sq_sent q + accepted) (sq_pending q),
             ztake accepted (sq_block q), false)
          else
            let '(s, q', w, failed) := flush fuel retries (SendQ (sq_queue q) (sq_bytes q) [] 0 false) s in
            (s, q', sq_block q ++ w, failed)
  end.

Definition flushPendingSuffix (q : sendq) (s : sock) : sock * sendq * bytes * bool :=
  if negb (sq_pending q) then (s, q, [], false) else flush 2 0 q s.

(** ** Well-formed queues *)

(** What is still to be written, in order. *)
Definition backlog (q : sendq) : bytes := (if sq_pending q then sq_block q else []) ++ concat (sq_queue q).

Definition queued (q : sendq) : Z := zlen (concat (sq_queue q)).

(** A suffix is kept exactly while it is to be written, and the counter is
    at least the size of the queue. *)
Record queue_wf (q : sendq) : Prop := {
  qw_block : sq_pending q = negb (bool_decide (sq_block q = []));
  qw_bytes : queued q <= sq_bytes q;
  qw_sent : 0 <= sq_sent q;
}.

(** ** No byte is lost, repeated or reordered *)

#[local] Set Default Proof Using "Type*".
Context `{!QtSocketLaws}.

Lemma ztake_drop_z (b : bytes) n : 0 <= n → ztake n b ++ drop (Z.to_nat n) b = b.
Proof. intros _. apply take_drop. Qed.

Lemma drop_not_nil (b : bytes) n : n < zlen b → 0 <= n → drop (Z.to_nat n) b ≠ [].
Proof. intros Hn ? Hd. apply (f_equal length) in Hd. rewrite length_drop in Hd. unfold zlen in Hn. cbn in Hd. lia. Qed.

Lemma dequeue_conserves l q s s' q' w failed :
  dequeue l q s = (s', q', w, failed) →
  if failed then w `prefix_of` backlog (with_frames l q) else w ++ backlog q' = backlog (with_frames l q).
Proof.
  revert q s s' q' w. induction l as [| b l IH]; intros q s s' q' w E; cbn in E; [by injection E as <- <- <- <- |].
  destruct (sq_pending q) eqn:Ep; cbn [orb] in E; [by injection E as <- <- <- <- |].
  destruct (negb _); [by injection E as <- <- <- <- |].
  pose proof (write_bound b s) as Hw. destruct (sk_write b s) as [n s1]. cbn in Hw.
  assert (Eb : backlog (with_frames (b :: l) q) = b ++ concat l) by (unfold backlog; cbn; by rewrite Ep).
  rewrite Eb. destruct (Z.ltb_spec n 0); [injection E as <- <- <- <-; apply prefix_nil |].
  destruct (Z.ltb_spec n (zlen b)).
  - injection E as <- <- <- <-. unfold backlog. cbn. by rewrite app_assoc, ztake_drop_z.
  - destruct (dequeue l _ s1) as [[[s2 q2] w2] f2] eqn:E2. injection E as <- <- <- <-. apply IH in E2. destruct f2.
    + destruct E2 as [r Er]. exists r. rewrite <- app_assoc. f_equal. unfold backlog in Er. cbn in Er. done.
    + rewrite <- app_assoc. f_equal. rewrite E2. done.
Qed.

Lemma tryDequeueSend_conserves q s s' q' w failed :
  tryDequeueSend q s = (s', q', w, failed) →
  if failed then w `prefix_of` backlog q else w ++ backlog q' = backlog q.
Proof. intros E%dequeue_conserves. by destruct q. Qed.

Lemma dequeue_wf l q s s' q' w :
  queue_wf (with_frames l q) → dequeue l q s = (s', q', w, false) → queue_wf q'.
Proof.
  revert q s s' q' w. induction l as [| b l IH]; intros q s s' q' w Hq E; cbn in E; [by injection E as <- <- <- |].
  destruct (sq_pending q) eqn:Ep; cbn [orb] in E; [by injection E as <- <- <- |].
  destruct (negb _); [by injection E as <- <- <- |].
  pose proof (write_bound b s) as Hw. destruct (sk_write b s) as [n s1]. cbn in Hw.
  assert (Hn : zlen (concat l) <= sq_bytes q - zlen b).
  { pose proof (qw_bytes _ Hq) as Hb. unfold queued in Hb. cbn in Hb. rewrite zlen_app in Hb. lia. }
  destruct (Z.ltb_spec n 0); [done |]. destruct (Z.ltb_spec n (zlen b)).
  - injection E as <- <- <-. split; [cbn | done | done]. by rewrite bool_decide_eq_false_2 by (apply drop_not_nil; lia).
  - destruct (dequeue l _ s1) as [[[s2 q2] w2] f2] eqn:E2. injection E as <- <- <- ->. eapply IH; [| exact E2]. by split.
Qed.

Lemma tryDequeueSend_wf q s s' q' w : queue_wf q → tryDequeueSend q s = (s', q', w, false) → queue_wf q'.
Proof. intros Hq. apply dequeue_wf. by destruct q. Qed.

(** One turn of the loop decides: either a part is left, or nothing. *)
Lemma flush_once q s :
  queue_wf q → sq_pending q = true →
  flushPendingSuffix q s =
    let '(n, s') := sk_write (sq_block q) s in
    if n <? 0 then (s', q, [], true)
    else if n <? zlen (sq_block q) then
      (s', SendQ (sq_queue q) (sq_bytes q) (drop (Z.to_nat n) (sq_block q)) (sq_sent q + n) true, ztake n (sq_block q), false)
    else (s', SendQ (sq_queue q) (sq_bytes q) [] 0 false, sq_block q, false).
Proof.
  intros Hq Ep. pose proof (qw_block _ Hq) as Hb. rewrite Ep in Hb. symmetry in Hb. apply negb_true_iff in Hb.
  unfold flushPendingSuffix. rewrite Ep. cbn [negb flush]. rewrite Hb. rewrite Ep.
  apply bool_decide_eq_false in Hb. apply zlen_pos in Hb.
  destruct (sk_write (sq_block q) s) as [n s']. destruct (Z.ltb_spec n 0); [done |].
  destruct (Z.eqb_spec n 0) as [-> | Hn]; cbn.
  - destruct (Z.ltb_spec 0 (zlen (sq_block q))); [done | lia].
  - destruct (Z.ltb_spec n (zlen (sq_block q))); [done |]. cbn. by rewrite app_nil_r.
Qed.

Lemma flush_idle q s : sq_pending q = false → flushPendingSuffix q s = (s, q, [], false).
Proof. unfold flushPendingSuffix. by intros ->. Qed.

Lemma flush_conserves q s s' q' w failed :
  queue_wf q → flushPendingSuffix q s = (s', q', w, failed) →
  if failed then w = [] else w ++ backlog q' = backlog q ∧ queue_wf q'.
Proof.
  intros Hq E. destruct (sq_pending q) eqn:Ep; [| rewrite flush_idle in E by done; by injection E as <- <- <- <-].
  rewrite flush_once in E by done. pose proof (write_bound (sq_block q) s) as Hw.
  destruct (sk_write (sq_block q) s) as [n s1]. cbn in Hw.
  destruct (Z.ltb_spec n 0); [by injection E as <- <- <- <- |].
  unfold backlog. rewrite Ep. destruct (Z.ltb_spec n (zlen (sq_block q))); injection E as <- <- <- <-; cbn.
  - split; [by rewrite app_assoc, ztake_drop_z |]. split; cbn; [| apply Hq | pose proof (qw_sent _ Hq); lia].
    by rewrite bool_decide_eq_false_2 by (apply drop_not_nil; lia).
  - split; [done |]. split; cbn; [done | apply Hq | lia].
Qed.

(** The counter only grows when a frame is queued. *)
Lemma dequeue_bytes l q s s' q' w failed : dequeue l q s = (s', q', w, failed) → sq_bytes q' <= sq_bytes q.
Proof.
  revert q s s' q' w failed. induction l as [| b l IH]; intros q s s' q' w failed E; cbn in E; [by injection E as <- <- <- <- |].
  destruct (_ || _); [by injection E as <- <- <- <- |]. destruct (sk_write b s) as [n s1]. pose proof (zlen_nonneg b).
  destruct (n <? 0); [injection E as <- <- <- <-; cbn; lia |]. destruct (n <? zlen b); [injection E as <- <- <- <-; cbn; lia |].
  destruct (dequeue l _ s1) as [[[s2 q2] w2] f2] eqn:E2. injection E as <- <- <- <-. apply IH in E2. cbn in E2. lia.
Qed.

Lemma flush_bytes q s s' q' w failed :
  queue_wf q → flushPendingSuffix q s = (s', q', w, failed) → sq_bytes q' = sq_bytes q.
Proof.
  intros Hq E. destruct (sq_pending q) eqn:Ep; [| rewrite flush_idle in E by done; by injection E as <- <- <- <-].
  rewrite flush_once in E by done. destruct (sk_write (sq_block q) s) as [n s1].
  destruct (n <? 0); [by injection E as <- <- <- <- |]. by destruct (n <? zlen (sq_block q)); injection E as <- <- <- <-.
Qed.

(** Writing does not change the state of the socket. *)
Lemma dequeue_state l q s s' q' w failed : dequeue l q s = (s', q', w, failed) → sk_state s' = sk_state s.
Proof.
  revert q s s' q' w failed. induction l as [| b l IH]; intros q s s' q' w failed E; cbn in E; [by injection E as <- <- <- <- |].
  destruct (_ || _); [by injection E as <- <- <- <- |]. pose proof (write_keeps_state b s) as Es. destruct (sk_write b s) as [n s1].
  cbn in Es. destruct (n <? 0); [by injection E as <- <- <- <- |]. destruct (n <? zlen b); [by injection E as <- <- <- <- |].
  destruct (dequeue l _ s1) as [[[s2 q2] w2] f2] eqn:E2. injection E as <- <- <- <-. apply IH in E2. congruence.
Qed.

Lemma flush_fuel_state fuel retries q s s' q' w failed : flush fuel retries q s = (s', q', w, failed) → sk_state s' = sk_state s.
Proof.
  revert retries q s s' q' w failed. induction fuel as [| fuel IH]; intros retries q s s' q' w failed E; cbn in E; [by injection E as <- <- <- <- |].
  destruct (bool_decide _); [by injection E as <- <- <- <- |]. pose proof (write_keeps_state (sq_block q) s) as Es.
  destruct (sk_write _ s) as [n s1]. cbn in Es. destruct (n <? 0); [by injection E as <- <- <- <- |].
  destruct (_ && _); [by injection E as <- <- <- <- |]. destruct (n <? zlen _); [by injection E as <- <- <- <- |].
  destruct (flush fuel _ _ s1) as [[[s2 q2] w2] f2] eqn:E2. injection E as <- <- <- <-. apply IH in E2. congruence.
Qed.

Lemma flush_state q s s' q' w failed : flushPendingSuffix q s = (s', q', w, failed) → sk_state s' = sk_state s.
Proof. unfold flushPendingSuffix. destruct (negb _); [by intros [= <- <- <- <-] |]. apply flush_fuel_state. Qed.

(** A socket that takes every frame whole and never fills. *)
Definition takes_all (P : sock → Prop) : Prop :=
  ∀ s, P s → sk_bytesToWrite s < high_watermark ∧ ∀ b, (sk_write b s).1 = zlen b ∧ P (sk_write b s).2.

Lemma dequeue_all P l q s :
  takes_all P → P s → sq_pending q = false →
  ∃ s' q', dequeue l q s = (s', q', concat l, false) ∧ P s' ∧ sq_queue q' = [] ∧ sq_pending q' = false.
Proof.
  intros HP. revert q s. induction l as [| b l IH]; intros q s Hs Hp; cbn; [by eexists _, _ |].
  destruct (HP s Hs) as [Hm Hw]. rewrite Hp, (proj2 (Z.ltb_lt _ _) Hm). cbn [orb negb].
  destruct (Hw b) as [Hn Hs']. destruct (sk_write b s) as [n s1]. cbn in Hn, Hs'. subst n.
  pose proof (zlen_nonneg b). destruct (Z.ltb_spec (zlen b) 0); [lia |]. rewrite Z.ltb_irrefl.
  destruct (IH (SendQ l (sq_bytes q - zlen b) [] 0 false) s1 Hs' eq_refl) as (s' & q' & -> & ? & ? & ?). by eexists _, _.
Qed.

Lemma tryDequeueSend_all P q s :
  takes_all P → P s → sq_pending q = false →
  ∃ s' q', tryDequeueSend q s = (s', q', concat (sq_queue q), false) ∧ P s' ∧ sq_queue q' = [] ∧ sq_pending q' = false.
Proof. apply dequeue_all. Qed.

End queue.

(** ** Framing

    A frame is a type of 16 bits, a length of [n] bytes and a body. A stream
    splits into whole frames and an incomplete rest in one way only, so a
    reader that hands on what is complete and keeps the rest does not depend
    on how the stream was cut. *)

Fixpoint be_bytes (n : nat) (v : Z) : bytes :=
  match n with O => [] | S n => be_bytes n (v / 256) ++ [mkbyte v] end.

Lemma be_val_snoc l x : be_val (l ++ [x]) = be_val l * 256 + bval x.
Proof. unfold be_val. by rewrite foldl_app. Qed.

Lemma zlen_be_bytes n v : zlen (be_bytes n v) = Z.of_nat n.
Proof. revert v. induction n as [| n IH]; intros v; cbn [be_bytes]; [done |]. rewrite zlen_snoc, IH. lia. Qed.

Lemma be_val_bytes n v : 0 <= v < 256 ^ Z.of_nat n → be_val (be_bytes n v) = v.
Proof.
  revert v. induction n as [| n IH]; intros v Hv; cbn [be_bytes].
  - cbn in *. lia.
  - rewrite be_val_snoc, bval_mkbyte. rewrite Nat2Z.inj_succ, Z.pow_succ_r in Hv by lia. rewrite IH.
    + pose proof (Z.div_mod v 256). lia.
    + split; [apply Z.div_pos; lia | apply Z.div_lt_upper_bound; lia].
Qed.

Lemma be_bytes_val l : be_bytes (length l) (be_val l) = l.
Proof.
  induction l as [| x l IH] using rev_ind; [done |]. rewrite length_app, Nat.add_1_r, be_val_snoc. cbn [be_bytes].
  pose proof (bval_range x). rewrite Z.div_add_l, (Z.div_small (bval x)), Z.add_0_r, IH by lia.
  f_equal. f_equal. apply bval_inj. rewrite bval_mkbyte, Z.add_comm, Z.mod_add by lia. apply Z.mod_small. lia.
Qed.

Lemma be_val_range l : 0 <= be_val l < 256 ^ zlen l.
Proof.
  induction l as [| x l IH] using rev_ind; [change (0 <= 0 < 1); lia |]. rewrite be_val_snoc, zlen_snoc, Z.pow_add_r by (pose proof (zlen_nonneg l); lia).
  pose proof (bval_range x). lia.
Qed.

Section framing.
Context (n : nat).

Definition head_type (b : bytes) : Z := be_val (take 2 b).
Definition head_len (b : bytes) : Z := be_val (take n (drop 2 b)).
Definition frame_head (ty len : Z) : bytes := be_bytes 2 ty ++ be_bytes n len.
Definition framed (m : Z * bytes) : bytes := frame_head m.1 (zlen m.2) ++ m.2.

#[local] Arguments framed : simpl never.

Definition fits (m : Z * bytes) : Prop := 0 <= m.1 < 2 ^ 16 ∧ zlen m.2 < 256 ^ Z.of_nat n.

(** No whole frame is at the front. *)
Definition incomplete (b : bytes) : Prop := zlen b < 2 + Z.of_nat n ∨ zlen b < 2 + Z.of_nat n + head_len b.

Lemma head_decodes ty len rest :
  0 <= ty < 2 ^ 16 → 0 <= len < 256 ^ Z.of_nat n →
  head_type (frame_head ty len ++ rest) = ty ∧ head_len (frame_head ty len ++ rest) = len.
Proof.
  intros Ht Hl. unfold head_type, head_len, frame_head. rewrite <- app_assoc.
  assert (E2 : length (be_bytes 2 ty) = 2%nat) by done.
  assert (En : length (be_bytes n len) = n) by (pose proof (zlen_be_bytes n len) as E; unfold zlen in E; lia).
  rewrite (take_app_length' _ _ 2), (drop_app_length' _ _ 2), (take_app_length' _ _ n) by done.
  split; apply be_val_bytes; [cbn; lia | done].
Qed.

Lemma zlen_head ty len : zlen (frame_head ty len) = 2 + Z.of_nat n.
Proof. unfold frame_head. by rewrite zlen_app, !zlen_be_bytes. Qed.

(** The bytes of a head. *)
Lemma head_encodes b : 2 + Z.of_nat n <= zlen b → frame_head (head_type b) (head_len b) ++ drop (2 + n) b = b.
Proof.
  intros Hb. unfold frame_head, head_type, head_len, zlen in *.
  assert (E2 : be_bytes 2 (be_val (take 2 b)) = take 2 b).
  { rewrite <- (be_bytes_val (take 2 b)) at 2. f_equal. rewrite length_take. lia. }
  assert (En : be_bytes n (be_val (take n (drop 2 b))) = take n (drop 2 b)).
  { rewrite <- (be_bytes_val (take n (drop 2 b))) at 2. f_equal. rewrite length_take, length_drop. lia. }
  rewrite E2, En, <- app_assoc, <- drop_drop, !take_drop. done.
Qed.

Lemma fits_len m : fits m → 0 <= zlen m.2 < 256 ^ Z.of_nat n.
Proof. intros [_ Hm]. split; [apply zlen_nonneg | done]. Qed.

Lemma framed_not_incomplete m rest : fits m → ¬ incomplete (framed m ++ rest).
Proof.
  intros Hm. pose proof (fits_len m Hm). destruct Hm as [Ht _]. unfold framed. rewrite <- app_assoc. intros [Hi | Hi].
  - rewrite !zlen_app, zlen_head in Hi. pose proof (zlen_nonneg rest). lia.
  - rewrite (proj2 (head_decodes _ _ _ Ht ltac:(done))) in Hi. rewrite !zlen_app, zlen_head in Hi. pose proof (zlen_nonneg rest). lia.
Qed.

Lemma framed_inj m1 m2 r1 r2 : fits m1 → fits m2 → framed m1 ++ r1 = framed m2 ++ r2 → m1 = m2 ∧ r1 = r2.
Proof.
  intros H1 H2 E. pose proof (fits_len m1 H1) as L1. pose proof (fits_len m2 H2) as L2.
  destruct m1 as [t1 b1], m2 as [t2 b2], H1 as [T1 _], H2 as [T2 _]. unfold framed in E. rewrite <- !app_assoc in E. cbn [fst snd] in *.
  destruct (head_decodes t1 (zlen b1) (b1 ++ r1) T1 L1) as [D1 D1']. destruct (head_decodes t2 (zlen b2) (b2 ++ r2) T2 L2) as [D2 D2'].
  rewrite E, D2 in D1. rewrite E, D2' in D1'. subst t2. rewrite D1' in E. apply app_inv_head in E.
  unfold zlen in D1'. apply app_inj_1 in E as [-> ->]; [done | lia].
Qed.

Lemma parse_unique l1 l2 r1 r2 :
  Forall fits l1 → Forall fits l2 → incomplete r1 → incomplete r2 →
  concat (framed <$> l1) ++ r1 = concat (framed <$> l2) ++ r2 → l1 = l2 ∧ r1 = r2.
Proof.
  intros H1. revert l2. induction H1 as [| m1 l1 Hm1 H1 IH]; intros l2 H2 I1 I2 E; destruct H2 as [| m2 l2 Hm2 H2].
  - done.
  - cbn in E. subst r1. rewrite <- app_assoc in I1. by apply framed_not_incomplete in I1.
  - cbn in E. subst r2. rewrite <- app_assoc in I2. by apply framed_not_incomplete in I2.
  - cbn in E. rewrite <- !app_assoc in E. apply framed_inj in E as [-> E]; [| done..]. by apply IH in E as [-> ->].
Qed.

Lemma incomplete_nil : incomplete [].
Proof. left. change (0 < 2 + Z.of_nat n). lia. Qed.

End framing.

(** ** A concrete socket *)

(** It takes at most so many more bytes. *)
Definition demo_room (s : SocketState * Z) (b : bytes) : Z := Z.min (Z.max 0 s.2) (zlen b).

#[local] Instance demo_socket : QtSocket := {|
  sock := SocketState * Z;
  sk_state s := s.1;
  sk_bytesToWrite _ := 0;
  sk_write b s := if decide (s.1 = ConnectedState) then (demo_room s b, (s.1, s.2 - demo_room s b)) else (-1, s);
  sk_abort s := (bool_decide (s.1 = ConnectedState), (UnconnectedState, 0));
  sk_close s := (bool_decide (s.1 = ConnectedState), (UnconnectedState, 0));
  sk_connectToHost _ _ s := (ConnectingState, 0);
|}.

#[local] Instance demo_socket_laws : QtSocketLaws.
Proof.
  constructor; cbn; try done.
  - intros b [st room]. cbn. pose proof (zlen_nonneg b). destruct (decide _); cbn; [unfold demo_room |]; cbn; lia.
  - intros b [st room]. cbn. by destruct (decide _).
  - intros [st room]. cbn. by intros ->.
  - intros [st room]. cbn. by intros ->.
Qed.
