(* ===== verification/ClientHandlers.v ===== *)
(** * Answers of the ChatServer on the client (client/llfcchat/src/net/tcpmgr.cpp)

    [TcpMgr::initHandlers] maps the identifier of a frame to a handler, which
    reads the body as JSON and emits a signal for the pages, the outbox or the
    synchronisation, or changes the user cache. The handler of the login
    answer also changes the connection and is in ClientChannel.v. The slots a
    signal reaches in the same thread run while it is emitted, but no handler
    reads what they change: the signals are the output of a handler. *)

From S2P Require Import Prelude ProtocolIds JsonFields Database TxLogic ChatDb LocalDb LocalStore ClientSync ResourceTransfer TransferEngine ResourceCodec.

(** ** What the signals carry (store/userdata.h) *)

Record UserInfo := User { ui_uid : Z; ui_name : bytes; ui_nick : bytes; ui_icon : bytes; ui_sex : Z; ui_desc : bytes }.
Record SearchInfo := Search { si_uid : Z; si_name : bytes; si_nick : bytes; si_desc : bytes; si_sex : Z; si_icon : bytes }.
Record AuthRsp := Auth { ar_uid : Z; ar_name : bytes; ar_nick : bytes; ar_icon : bytes; ar_sex : Z; ar_thread : Z }.

(** The addresses and the credentials the gate has given ([ServerInfo]); a
    port is text. *)
Record ServerInfo := Server {
  sv_chat_host : bytes; sv_chat_port : bytes; sv_res_host : bytes; sv_res_port : bytes; sv_token : bytes; sv_uid : Z }.

(** The signals of [TcpMgr], the calls of [UserMgr], and what is done to the
    socket: a frame is queued, bytes are accepted, an abort, a close, a new connection. *)
Inductive output :=
  | sig_con_success (bsuccess : bool)
  | sig_reconnect_finished (success : bool)
  | sig_connection_closed
  | sig_chat_login_ready
  | sig_login_snapshot (snapshot : qobject) (initialLogin : bool)
  | sig_swich_chatdlg
  | sig_connect_resource (si : ServerInfo)
  | sig_login_failed (error : Z)
  | sig_user_search (info : option SearchInfo)
  | sig_friend_request_handled (id status : Z)
  | sig_auth_rsp (rsp : AuthRsp)
  | sig_notify_offline
  | sig_load_chat_thread (load_more : bool) (last_thread_id : Z) (l : list thread_info)
  | sig_create_private_chat (target thread : Z)
  | sig_load_chat_msg (thread next : Z) (loadMore : bool) (messages : list (LocalMessageDTO * LocalMessageResourceDTO))
  | sig_text_msg_rsp_forward (error : Z) (client : bytes) (message : Z) (createdAt : bytes)
  | sig_resource_msg_meta_rsp_forward (error : Z) (client : bytes) (message : Z)
  | sig_user_message_notify (envelope : qobject)
  | sig_sync_message_rsp (rsp : qobject)
  | CallSetUserInfo (info : UserInfo)
  | CallSetToken (token : bytes)
  | CallAppendApplyList (array : list qjson)
  | CallAppendFriendList (array : list qjson)
  | CallUpdateApplyStatus (id status : Z)
  | Queued (b : bytes)
  | Wrote (b : bytes)
  | Aborted
  | Closed
  | ConnectTo (host : bytes) (port : Z).

Section handlers.
Context `{!QtLib, !QtText}.

(** [jsonInt64] is [JsonId] of ClientSync.v. An unreadable time is the
    present one. *)
Definition serverTimeToEpoch (now : Z) (v : qjson) : Z :=
  match v with
  | QString s =>
      match from_format s with
      | Some t => t
      | None => default now (from_iso s)
      end
  | _ => 0
  end.

(** [QJsonDocument::object] is empty for an array; [value[key]] of a value
    that is no object is undefined. *)
Definition object_of (v : qjson) : qobject := match v with QObject o => o | _ => [] end.
Definition at_key (v : qjson) (k : bytes) : qjson := value (object_of v) k.

(** The prefix of most handlers: nothing happens to a body that is no JSON;
    [k_bad] runs without the field "error", [k_err] with one that is not 0. *)
Definition with_answer (data : bytes) (k_bad : list output) (k_err : Z → qobject → list output)
    (k : qobject → list output) : list output :=
  match fromJson data with
  | None => []
  | Some v =>
      let o := object_of v in
      if negb (contains o §"error") then k_bad
      else
        let err := toInt 0 (value o §"error") in
        if negb (err =? SUCCESS) then k_err err o else k o
  end.

Definition handleSearchUserRsp (data : bytes) : list output :=
  with_answer data [sig_user_search None] (λ _ _, [sig_user_search None]) (λ o,
    [sig_user_search (Some (Search (toInt 0 (value o §"uid")) (toString (value o §"name")) (toString (value o §"nick"))
       (toString (value o §"desc")) (toInt 0 (value o §"sex")) (toString (value o §"icon"))))]).

(** Only logged. *)
Definition handleAddFriendRsp (data : bytes) : list output := with_answer data [] (λ _ _, []) (λ _, []).
Definition handleHeartbeatRsp (data : bytes) : list output := with_answer data [] (λ _ _, []) (λ _, []).

Definition ACCEPTED : Z := 1.

Definition handleAuthFriendRsp (data : bytes) : list output :=
  with_answer data [] (λ _ _, []) (λ o,
    let id := JsonId (value o §"friend_request_id") in
    let status := toInt 0 (value o §"status") in
    [CallUpdateApplyStatus id status; sig_friend_request_handled id status]
    ++ (if status =? ACCEPTED then
          [sig_auth_rsp (Auth (toInt 0 (value o §"requester_user_id")) (toString (value o §"peer_username"))
             (toString (value o §"peer_nickname")) (toString (value o §"peer_avatar_key")) (toInt 0 (value o §"peer_gender"))
             (JsonId (value o §"thread_id")))]
        else [])).

Definition handleTextChatMsgRsp (data : bytes) : list output :=
  with_answer data []
    (λ err o, [sig_text_msg_rsp_forward err (toString (value o §"client_message_id")) 0 []])
    (λ o, [sig_text_msg_rsp_forward SUCCESS (toString (value o §"client_message_id")) (JsonId (value o §"message_id"))
             (toString (value o §"created_at"))]).

Definition handleNotifyOfflineReq (data : bytes) : list output :=
  with_answer data [] (λ _ _, []) (λ _, [sig_notify_offline]).

Definition read_thread (v : qjson) : thread_info :=
  ThreadInfo (JsonId (at_key v §"thread_id")) (toInt 0 (at_key v §"lower_user_id")) (toInt 0 (at_key v §"higher_user_id"))
    (JsonId (at_key v §"last_message_id")).

Definition handleLoadChatThreadRsp (data : bytes) : list output :=
  with_answer data [] (λ _ _, []) (λ o,
    [sig_load_chat_thread (toBool (value o §"load_more")) (JsonId (value o §"next_last_id"))
       (read_thread <$> toArray (value o §"threads"))]).

Definition handleCreatePrivateChatRsp (data : bytes) : list output :=
  with_answer data [] (λ _ _, []) (λ o,
    let target := toInt 0 (value o §"target_user_id") in
    let thread := JsonId (value o §"thread_id") in
    if (target <=? 0) || (thread <=? 0) then [] else [sig_create_private_chat target thread]).

(** One entry of a page of history; [None] is skipped. The resource of a text
    is empty. *)
Definition history_message (now self : Z) (o : qobject) : LocalMessageDTO :=
  let sender := toInt 0 (value o §"sender_user_id") in
  MsgDTO 0 (JsonId (value o §"message_id")) (if sender =? self then toString (value o §"client_message_id") else [])
    (JsonId (value o §"thread_id")) sender (toInt (-1) (value o §"message_type")) (toString (value o §"text_content"))
    LocalDb.Sent (serverTimeToEpoch now (value o §"created_at")).

Definition history_resource_ok (r : LocalMessageResourceDTO) : bool :=
  negb (bool_decide (rd_name r = []) || (rd_size r <=? 0) || bool_decide (rd_sha r = []) || bool_decide (rd_mime r = [])).

Definition history_entry (now self thread : Z) (v : qjson) : option (LocalMessageDTO * LocalMessageResourceDTO) :=
  match v with
  | QObject o =>
      let m := history_message now self o in
      if (md_id m <=? 0) || negb (md_thread m =? thread) || (md_sender m <=? 0) || negb (is_message_type (md_type m)) then None
      else if md_type m =? TEXT then Some (m, no_resource)
      else
        let r := read_resource o in
        if history_resource_ok r then Some (m, r) else None
  | _ => None
  end.

Definition handleLoadChatMsgRsp (now self : Z) (data : bytes) : list output :=
  with_answer data [] (λ _ _, []) (λ o,
    let thread := JsonId (value o §"thread_id") in
    [sig_load_chat_msg thread (JsonId (value o §"next_message_id")) (toBool (value o §"load_more"))
       (omap (history_entry now self thread) (toArray (value o §"messages")))]).

Definition handleCreateResourceMsgRsp (data : bytes) : list output :=
  with_answer data []
    (λ err o, [sig_resource_msg_meta_rsp_forward err (toString (value o §"client_message_id")) 0])
    (λ o, [sig_resource_msg_meta_rsp_forward SUCCESS (toString (value o §"client_message_id")) (JsonId (value o §"message_id"))]).

Definition handleUserMessageNotify (data : bytes) : list output :=
  match fromJson data with
  | Some (QObject o) => if toInt CLIENT_ERR_JSON (value o §"error") =? SUCCESS then [sig_user_message_notify o] else []
  | _ => []
  end.

Definition handleSyncMessageRsp (data : bytes) : list output :=
  match fromJson data with
  | Some (QObject o) => [sig_sync_message_rsp o]
  | _ => []
  end.

(** The table of [initHandlers] without the login; an identifier that is not
    in the table is ignored. *)
Definition stateless_handler (now self id : Z) : bytes → list output :=
  if id =? MsgId_code MSG_SEARCH_USER_RSP then handleSearchUserRsp
  else if id =? MsgId_code MSG_ADD_FRIEND_RSP then handleAddFriendRsp
  else if id =? MsgId_code MSG_HANDLE_FRIEND_RSP then handleAuthFriendRsp
  else if id =? MsgId_code MSG_TEXT_CHAT_RSP then handleTextChatMsgRsp
  else if id =? MsgId_code MSG_NOTIFY_USER_MESSAGE then handleUserMessageNotify
  else if id =? MsgId_code MSG_NOTIFY_OFF_LINE then handleNotifyOfflineReq
  else if id =? MsgId_code MSG_HEARTBEAT_RSP then handleHeartbeatRsp
  else if id =? MsgId_code MSG_LOAD_CHAT_THREAD_RSP then handleLoadChatThreadRsp
  else if id =? MsgId_code MSG_CREATE_PRIVATE_CHAT_RSP then handleCreatePrivateChatRsp
  else if id =? MsgId_code MSG_LOAD_CHAT_MSG_RSP then handleLoadChatMsgRsp now self
  else if id =? MsgId_code MSG_CREATE_RESOURCE_RSP then handleCreateResourceMsgRsp
  else if id =? MsgId_code MSG_SYNC_USER_MESSAGE_RSP then handleSyncMessageRsp
  else λ _, [].

End handlers.
