(* ===== verification/ClientChannel.v ===== *)
(** * The connection to the ChatServer (client/llfcchat/src/net/tcpmgr.cpp)

    [TcpMgr]: the slots of the socket's signals, the requests of the pages to
    connect, to reconnect, to close and to send, and the handler of the login
    answer. Frames carry an identifier and a length of 16 bits each. A slot is
    a function to the next state and its outputs; a signal of the socket that
    an [abort] emits runs its slot at once. *)

From S2P Require Import Prelude ResourceWire ProtocolIds JsonFields ChatSession ClientSync ResourceTransfer TransferEngine ResourceCodec ClientSocket ClientHandlers.

Section channel.
(** The clock, [UserMgr::GetUid] and [QString::toUInt]. *)
Context `{!QtSocket, !QtLib, !QtText} (now self : Z) (toUInt : bytes → Z).

(** ** State *)

Record channel := Channel {
  t_sock : sock;
  t_host : bytes;
  t_port : Z;
  t_info : option ServerInfo;    (* [_server_info] *)
  t_reader : reader;
  t_q : sendq;
  t_manual : bool;               (* [_manual_close] *)
  t_reconnecting : bool;
  t_notified : bool;             (* [_disconnect_notified] *)
}.

Definition TcpMgr (s : sock) : channel := Channel s [] 0 None empty_reader empty_queue false false false.

Definition with_sock (x : sock) (c : channel) : channel :=
  Channel x (t_host c) (t_port c) (t_info c) (t_reader c) (t_q c) (t_manual c) (t_reconnecting c) (t_notified c).
Definition with_target (h : bytes) (p : Z) (i : ServerInfo) (c : channel) : channel :=
  Channel (t_sock c) h p (Some i) (t_reader c) (t_q c) (t_manual c) (t_reconnecting c) (t_notified c).
Definition with_reader (x : reader) (c : channel) : channel :=
  Channel (t_sock c) (t_host c) (t_port c) (t_info c) x (t_q c) (t_manual c) (t_reconnecting c) (t_notified c).
Definition with_q (x : sendq) (c : channel) : channel :=
  Channel (t_sock c) (t_host c) (t_port c) (t_info c) (t_reader c) x (t_manual c) (t_reconnecting c) (t_notified c).
Definition with_flags (manual reconnecting notified : bool) (c : channel) : channel :=
  Channel (t_sock c) (t_host c) (t_port c) (t_info c) (t_reader c) (t_q c) manual reconnecting notified.
Definition with_notified (x : bool) (c : channel) : channel := with_flags (t_manual c) (t_reconnecting c) x c.

Abbreviation slot := (channel → channel * list output).

Definition emit (o : output) : slot := λ c, (c, [o]).
Definition nothing : slot := λ c, (c, []).

Definition andThen (f g : slot) : slot := λ c,
  let '(c, o1) := f c in
  let '(c, o2) := g c in
  (c, o1 ++ o2).

(** ** Failures *)

(** [_socket.abort()]: [disconnected] may be emitted before it returns. *)
Definition abort_with (disconnected : slot) : slot := λ c,
  let '(emitted, s) := sk_abort (t_sock c) in
  andThen (emit Aborted) (if emitted then disconnected else nothing) (with_sock s c).

Definition finishReconnectFailure_with (disconnected : slot) : slot := λ c,
  if negb (t_reconnecting c) then (c, [])
  else andThen (abort_with disconnected) (emit (sig_reconnect_finished false)) (with_flags true false (t_notified c) c).

(** The slot of [disconnected]; [depth] bounds how often it runs within
    itself. *)
Fixpoint disconnected_slot (depth : nat) : slot := λ c,
  match depth with
  | O => (c, [])
  | S depth =>
      if t_manual c then (c, [])
      else if t_reconnecting c then finishReconnectFailure_with (disconnected_slot depth) c
      else if negb (t_notified c) then (with_notified true c, [sig_connection_closed])
      else (c, [])
  end.

Definition on_disconnected : slot := disconnected_slot 2.
Definition abort : slot := abort_with on_disconnected.
Definition finishReconnectFailure : slot := finishReconnectFailure_with on_disconnected.

Definition handleWriteFailure : slot := λ c,
  andThen abort (λ c, if negb (t_manual c) && negb (t_notified c) then (with_notified true c, [sig_connection_closed]) else (c, []))
    (with_q empty_queue c).

Definition on_error (socketError : SocketError) : slot := λ c,
  if t_reconnecting c then finishReconnectFailure c
  else if t_manual c || t_notified c then (c, [])
  else match socketError with
       | ConnectionRefusedError | HostNotFoundError | SocketTimeoutError => emit (sig_con_success false) c
       | RemoteHostClosedError | NetworkError | OtherError => (c, [])
       end.

(** ** Sending *)

Definition send_high_watermark : Z := 4 * 1024 * 1024.
Definition send_queue_limit : Z := 64 * 1024 * 1024.

Definition after_write (r : sock * sendq * bytes * bool) : slot := λ c,
  let '(s, q, w, failed) := r in
  andThen (emit (Wrote w)) (if failed then handleWriteFailure else nothing) (with_q q (with_sock s c)).

Definition tryDequeueSend : slot := λ c, after_write (ClientSocket.tryDequeueSend send_high_watermark (t_q c) (t_sock c)) c.
Definition flushPendingSuffix : slot := λ c, after_write (ClientSocket.flushPendingSuffix (t_q c) (t_sock c)) c.
Definition on_bytesWritten : slot := andThen flushPendingSuffix tryDequeueSend.

(** [QDataStream] writes the identifier and the length, both of 16 bits. *)
Definition block (id : Z) (data : bytes) : bytes := frame_head 2 (u16 id) (u16 (zlen data)) ++ data.

Definition slot_send_data (id : Z) (data : bytes) : slot := λ c,
  let b := block id data in
  if send_queue_limit <? sq_bytes (t_q c) + zlen b then handleWriteFailure c
  else andThen (emit (Queued b)) tryDequeueSend (with_q (enqueue b (t_q c)) c).

(** ** The login answer *)

Definition report_login_failure (error : Z) : slot := λ c,
  if t_reconnecting c then finishReconnectFailure c else (c, [sig_login_failed error]).

Definition array_call (call : list qjson → output) (o : qobject) (k : bytes) : list output :=
  if contains o k then [call (toArray (value o k))] else [].

(** [_server_info] is set by the first [slot_tcp_connect]. *)
Definition handleChatLoginRsp (data : bytes) : slot := λ c,
  match fromJson data with
  | Some (QObject o) =>
      if negb (contains o §"error") then report_login_failure CLIENT_ERR_JSON c
      else
        let err := toInt 0 (value o §"error") in
        if negb (err =? SUCCESS) then report_login_failure err c
        else
          let uid := toInt 0 (value o §"uid") in
          if t_reconnecting c then
            if match t_info c with Some si => uid =? sv_uid si | None => false end then
              (with_flags false false false c,
               [CallAppendApplyList (toArray (value o §"apply_list")); CallAppendFriendList (toArray (value o §"friend_list"));
                sig_login_snapshot o false; sig_chat_login_ready; sig_reconnect_finished true])
            else report_login_failure CLIENT_ERR_JSON c
          else
            match t_info c with
            | None => (c, [])
            | Some si =>
                (c, [CallSetUserInfo (User uid (toString (value o §"name")) (toString (value o §"nick"))
                                        (toString (value o §"icon")) (toInt 0 (value o §"sex")) (toString (value o §"desc")));
                     CallSetToken (sv_token si)]
                    ++ array_call CallAppendApplyList o §"apply_list" ++ array_call CallAppendFriendList o §"friend_list"
                    ++ [sig_login_snapshot o true; sig_chat_login_ready; sig_swich_chatdlg; sig_connect_resource si])
            end
  | _ => report_login_failure CLIENT_ERR_JSON c
  end.

Definition handleMsg (id : Z) (data : bytes) : slot := λ c,
  if id =? MsgId_code MSG_CHAT_LOGIN_RSP then handleChatLoginRsp data c
  else (c, stateless_handler now self id data).

(** ** Receiving *)

(** The head of the next frame, unless it was read before. *)
Definition next_head (r : reader) : option reader :=
  if rx_pending r then Some r
  else if zlen (rx_buffer r) <? 4 then None
  else Some (Reader (drop 4 (rx_buffer r)) false (head_type (rx_buffer r)) (head_len 2 (rx_buffer r))).

(** The loop of the slot of [readyRead]; each turn handles at least the four
    bytes of a head. *)
Fixpoint receive (fuel : nat) : slot := λ c,
  match fuel with
  | O => (c, [])
  | S fuel =>
      match next_head (t_reader c) with
      | None => (c, [])
      | Some r =>
          if zlen (rx_buffer r) <? rx_len r then (with_reader (Reader (rx_buffer r) true (rx_type r) (rx_len r)) c, [])
          else
            andThen (handleMsg (rx_type r) (ztake (rx_len r) (rx_buffer r))) (receive fuel)
              (with_reader (Reader (drop (Z.to_nat (rx_len r)) (rx_buffer r)) false (rx_type r) (rx_len r)) c)
      end
  end.

Definition append (data : bytes) (r : reader) : reader := Reader (rx_buffer r ++ data) (rx_pending r) (rx_type r) (rx_len r).

Definition on_readyRead (data : bytes) : slot := λ c,
  receive (5 + length (rx_buffer (t_reader c) ++ data)) (with_reader (append data (t_reader c)) c).

(** ** Connecting *)

Definition on_connected : slot := λ c,
  let c := with_notified false c in
  if t_reconnecting c then
    match t_info c with
    | Some si =>
        slot_send_data (MsgId_code MSG_CHAT_LOGIN) (toJson [(§"uid", QNumber (sv_uid si)); (§"token", QString (sv_token si))]) c
    | None => (c, [])
    end
  else emit (sig_con_success true) c.

(** [close] may emit [disconnected], whose slot sees the manual close. *)
Definition slot_tcp_close : slot := λ c,
  let c := with_flags true false (t_notified c) c in
  let '(emitted, s) := sk_close (t_sock c) in
  andThen (emit Closed) (if emitted then on_disconnected else nothing) (with_sock s c).

Definition connectToHost (host : bytes) (port : Z) : slot := λ c,
  (with_sock (sk_connectToHost host port (t_sock c)) c, [ConnectTo host port]).

Definition slot_tcp_connect (si : ServerInfo) : slot := λ c,
  let host := sv_chat_host si in
  let port := u16 (toUInt (sv_chat_port si)) in
  connectToHost host port (with_target host port si (with_flags false false false c)).

Definition with_chat_address (host port : bytes) (si : ServerInfo) : ServerInfo :=
  Server host port (sv_res_host si) (sv_res_port si) (sv_token si) (sv_uid si).

(** The byte counter of the queue is not cleared. *)
Definition slot_reconnect_chat (host : bytes) (port : Z) : slot := λ c,
  match t_info c with
  | Some si =>
      if bool_decide (host = []) || (port =? 0) || negb (bool_decide (sk_state (t_sock c) = UnconnectedState))
      then (c, [sig_reconnect_finished false])
      else
        connectToHost host port
          (with_flags false true false
             (with_q (SendQ [] (sq_bytes (t_q c)) [] 0 false)
                (with_reader empty_reader (with_target host port (with_chat_address host (ll_string port) si) c))))
  | None => (c, [sig_reconnect_finished false])
  end.

(** ** Runs *)

Inductive event :=
  | EvConnected
  | EvReadyRead (data : bytes)
  | EvError (e : SocketError)
  | EvDisconnected
  | EvBytesWritten
  | EvClose
  | EvConnect (si : ServerInfo)
  | EvReconnect (host : bytes) (port : Z)
  | EvSend (id : Z) (data : bytes).

Definition on_event (e : event) : slot :=
  match e with
  | EvConnected => on_connected
  | EvReadyRead data => on_readyRead data
  | EvError e => on_error e
  | EvDisconnected => on_disconnected
  | EvBytesWritten => on_bytesWritten
  | EvClose => slot_tcp_close
  | EvConnect si => slot_tcp_connect si
  | EvReconnect host port => slot_reconnect_chat host port
  | EvSend id data => slot_send_data id data
  end.

(** Between two events the socket does what it does. *)
Fixpoint run (evs : list (sock * event)) : slot := λ c,
  match evs with
  | [] => (c, [])
  | (s, e) :: evs => andThen (on_event e) (run evs) (with_sock s c)
  end.

End channel.
