(* ===== verification/ChannelProofs.v ===== *)
(** * What the connection to the ChatServer guarantees

    About ClientChannel.v: frames are handled in order however the stream is
    cut, the bytes accepted by the socket are a prefix of the frames that were
    queued, the state is well formed in every run, and every reconnection is
    answered once. *)

From S2P Require Import Prelude ResourceWire ProtocolIds JsonFields ChatSession ClientSync ResourceTransfer TransferEngine ResourceCodec ClientSocket ClientHandlers ClientChannel.

#[local] Arguments zlen {_} _ : simpl never.
#[local] Arguments ztake {_} _ _ : simpl never.

Section proofs.
Context `{!QtSocket, !QtLib, !QtText} (now self : Z) (toUInt : bytes → Z).
#[local] Abbreviation slot := (channel → channel * list output).
#[local] Abbreviation handleMsg := (handleMsg now self).
#[local] Abbreviation receive := (receive now self).
#[local] Abbreviation on_readyRead := (on_readyRead now self).

Lemma andThen_assoc f g h c : andThen (andThen f g) h c = andThen f (andThen g h) c.
Proof.
  unfold andThen. destruct (f c) as [c1 o1]. destruct (g c1) as [c2 o2]. destruct (h c2) as [c3 o3]. by rewrite app_assoc.
Qed.

Lemma andThen_nothing f c : andThen f nothing c = f c.
Proof. unfold andThen, nothing. destruct (f c). by rewrite app_nil_r. Qed.

(** ** Slots that do not look at the reader *)

Definition keep (r : reader) (x : channel * list output) : channel * list output := (with_reader r x.1, x.2).
Definition blind (f : slot) : Prop := ∀ r c, f (with_reader r c) = keep r (f c).

Lemma blind_andThen f g : blind f → blind g → blind (andThen f g).
Proof.
  intros Hf Hg r c. unfold andThen. rewrite Hf. destruct (f c) as [c1 o1]. cbn. rewrite Hg. by destruct (g c1).
Qed.

Lemma blind_emit o : blind (emit o).
Proof. done. Qed.

Lemma blind_nothing : blind nothing.
Proof. done. Qed.

Lemma blind_abort_with f : blind f → blind (abort_with f).
Proof.
  intros Hf r c. unfold abort_with. cbn [with_reader t_sock]. destruct (sk_abort (t_sock c)) as [[] s].
  - apply (blind_andThen (emit Aborted) f (blind_emit _) Hf r (with_sock s c)).
  - done.
Qed.

Lemma blind_finish_with f : blind f → blind (finishReconnectFailure_with f).
Proof.
  intros Hf r c. unfold finishReconnectFailure_with. cbn [with_reader t_reconnecting]. destruct (t_reconnecting c); [| done].
  apply (blind_andThen _ _ (blind_abort_with f Hf) (blind_emit _) r (with_flags true false (t_notified c) c)).
Qed.

Lemma blind_disconnected d : blind (disconnected_slot d).
Proof.
  induction d as [| d IH]; intros r c; [done |]. cbn [disconnected_slot].
  cbn [with_reader t_manual t_reconnecting t_notified]. destruct (t_manual c); [done |].
  destruct (t_reconnecting c) eqn:E; [by apply blind_finish_with |]. by destruct (t_notified c).
Qed.

Lemma blind_finish : blind finishReconnectFailure.
Proof. apply blind_finish_with, blind_disconnected. Qed.

Lemma blind_report e : blind (report_login_failure e).
Proof.
  intros r c. unfold report_login_failure. cbn [with_reader t_reconnecting].
  destruct (t_reconnecting c); [apply blind_finish | done].
Qed.

Lemma blind_login data : blind (handleChatLoginRsp data).
Proof.
  intros r c. unfold handleChatLoginRsp.
  destruct (fromJson data) as [[| | | | | | | o] |]; try apply (blind_report CLIENT_ERR_JSON r c).
  destruct (negb (contains o _)); [apply (blind_report CLIENT_ERR_JSON r c) |].
  destruct (negb (toInt 0 _ =? SUCCESS)); [apply (blind_report _ r c) |]. cbn [with_reader t_reconnecting t_info].
  destruct (t_reconnecting c) eqn:E; [| by destruct (t_info c)].
  destruct (match t_info c with Some _ => _ | None => _ end); [done | apply (blind_report CLIENT_ERR_JSON r c)].
Qed.

Lemma blind_handleMsg id data : blind (handleMsg id data).
Proof. intros r c. unfold handleMsg. destruct (id =? _); [apply blind_login | done]. Qed.

(** All messages of a list, one after the other. *)
Definition handle_all (l : list (Z * bytes)) : slot := foldr (λ m, andThen (handleMsg m.1 m.2)) nothing l.

Lemma blind_handle_all l : blind (handle_all l).
Proof. induction l as [| m l IH]; cbn; [apply blind_nothing | apply blind_andThen; [apply blind_handleMsg | done]]. Qed.

Lemma handle_all_app l1 l2 c : handle_all (l1 ++ l2) c = andThen (handle_all l1) (handle_all l2) c.
Proof.
  revert c. induction l1 as [| m l1 IH]; intros c.
  - cbn [app]. unfold andThen. cbn. by destruct (handle_all l2 c).
  - change (handle_all ((m :: l1) ++ l2)) with (andThen (handleMsg m.1 m.2) (handle_all (l1 ++ l2))).
    change (handle_all (m :: l1)) with (andThen (handleMsg m.1 m.2) (handle_all l1)). rewrite andThen_assoc.
    unfold andThen at 1 2. destruct (handleMsg m.1 m.2 c) as [c1 o1]. by rewrite IH.
Qed.

(** ** Framing *)

(** A pending head has a body that is not complete. *)
Record reader_wf (r : reader) : Prop := {
  rw_pending : rx_pending r = true → zlen (rx_buffer r) < rx_len r;
  rw_type : 0 <= rx_type r < 2 ^ 16;
  rw_len : 0 <= rx_len r < 2 ^ 16;
}.

(** What has been received and not handled. *)
Definition unread (r : reader) : bytes := (if rx_pending r then frame_head 2 (rx_type r) (rx_len r) else []) ++ rx_buffer r.

Lemma head_len_range b : 0 <= head_len 2 b < 2 ^ 16.
Proof.
  unfold head_len. pose proof (be_val_range (take 2 (drop 2 b))) as Hb.
  assert (Hl : zlen (take 2 (drop 2 b)) <= 2) by (unfold zlen; rewrite length_take; lia).
  assert (256 ^ zlen (take 2 (drop 2 b)) <= 256 ^ 2) by (apply Z.pow_le_mono_r; lia).
  change (256 ^ 2) with (2 ^ 16) in *. lia.
Qed.

Lemma head_type_range b : 0 <= head_type b < 2 ^ 16.
Proof.
  unfold head_type. pose proof (be_val_range (take 2 b)) as Hb.
  assert (Hl : zlen (take 2 b) <= 2) by (unfold zlen; rewrite length_take; lia).
  assert (256 ^ zlen (take 2 b) <= 256 ^ 2) by (apply Z.pow_le_mono_r; lia). change (256 ^ 2) with (2 ^ 16) in *. lia.
Qed.

Lemma next_head_spec r :
  0 <= rx_type r < 2 ^ 16 → 0 <= rx_len r < 2 ^ 16 →
  match next_head r with
  | None => rx_pending r = false ∧ zlen (unread r) < 4
  | Some r' => unread r = frame_head 2 (rx_type r') (rx_len r') ++ rx_buffer r' ∧ 0 <= rx_type r' < 2 ^ 16 ∧ 0 <= rx_len r' < 2 ^ 16 ∧
      zlen (rx_buffer r') <= zlen (rx_buffer r)
  end.
Proof.
  intros Ht Hl. unfold next_head, unread. destruct (rx_pending r); [done |]. cbn [app].
  destruct (Z.ltb_spec (zlen (rx_buffer r)) 4); [done |]. cbn [rx_type rx_len rx_buffer].
  split_and!; try apply head_type_range; try apply head_len_range.
  - symmetry. apply (head_encodes 2). lia.
  - unfold zlen. rewrite length_drop. lia.
Qed.

(** What the loop leaves behind is well formed, and so is what it handles. *)
Lemma receive_spec fuel c :
  0 <= rx_type (t_reader c) < 2 ^ 16 → 0 <= rx_len (t_reader c) < 2 ^ 16 →
  zlen (unread (t_reader c)) < Z.of_nat fuel →
  ∃ msgs r, unread (t_reader c) = concat (framed 2 <$> msgs) ++ unread r ∧ Forall (fits 2) msgs ∧
    incomplete 2 (unread r) ∧ reader_wf r ∧ receive fuel c = keep r (handle_all msgs c).
Proof.
  revert c. induction fuel as [| fuel IH]; intros c Ht Hl Hf; [pose proof (zlen_nonneg (unread (t_reader c))); lia |].
  cbn [ClientChannel.receive]. pose proof (next_head_spec (t_reader c) Ht Hl) as Hn. destruct (next_head (t_reader c)) as [r |].
  - destruct Hn as (Eu & Ht' & Hl' & Hz). destruct (Z.ltb_spec (zlen (rx_buffer r)) (rx_len r)) as [Hs | Hs].
    + exists [], (Reader (rx_buffer r) true (rx_type r) (rx_len r)). split_and!; [done | done | | by split |].
      * right. unfold unread. cbn [rx_pending rx_type rx_len rx_buffer].
        rewrite (proj2 (head_decodes 2 _ _ _ Ht' Hl')), zlen_app, zlen_head. lia.
      * unfold keep, handle_all, nothing. cbn. done.
    + set (r1 := Reader (drop (Z.to_nat (rx_len r)) (rx_buffer r)) false (rx_type r) (rx_len r)).
      set (body := ztake (rx_len r) (rx_buffer r)).
      assert (Hbody : zlen body = rx_len r) by (apply zlen_ztake; lia).
      assert (E : unread (t_reader c) = framed 2 (rx_type r, body) ++ rx_buffer r1).
      { rewrite Eu. unfold framed. cbn [fst snd]. rewrite Hbody, <- app_assoc. do 2 f_equal. symmetry. apply take_drop. }
      destruct (IH (with_reader r1 (handleMsg (rx_type r) body c).1)) as (msgs & r' & E' & Hm & Hi & Hw & ER).
      { done. } { done. }
      { cbn [with_reader t_reader]. unfold unread at 1. cbn [r1 rx_pending rx_buffer app].
        assert (zlen (unread (t_reader c)) = 4 + rx_len r + zlen (rx_buffer r1)) as Ez.
        { rewrite E. unfold framed. cbn [fst snd]. rewrite !zlen_app, zlen_head, Hbody. lia. }
        cbn [r1 rx_buffer] in Ez. lia. }
      exists ((rx_type r, body) :: msgs), r'. split_and!; try done.
      * rewrite E. cbn [fmap list_fmap concat]. rewrite <- app_assoc. f_equal.
        cbn [with_reader t_reader] in E'. unfold unread at 1 in E'. cbn [r1 rx_pending app] in E'. exact E'.
      * constructor; [| done]. split; cbn [fst snd]; [done |]. rewrite Hbody. change (256 ^ Z.of_nat 2) with (2 ^ 16). lia.
      * change (handle_all ((rx_type r, body) :: msgs)) with (andThen (handleMsg (rx_type r) body) (handle_all msgs)).
        unfold andThen. rewrite blind_handleMsg. destruct (handleMsg (rx_type r) body c) as [c1 o1].
        unfold keep at 1. cbn [fst snd] in *. rewrite ER, blind_handle_all. by destruct (handle_all msgs c1).
  - destruct Hn as [Hp Hz]. exists [], (t_reader c). split_and!; [done | done | | split; [congruence | done..] |].
    + left. change (2 + Z.of_nat 2) with 4. done.
    + unfold keep, handle_all, nothing. cbn. by destruct c.
Qed.

Lemma on_readyRead_spec data c :
  reader_wf (t_reader c) →
  ∃ msgs r, unread (t_reader c) ++ data = concat (framed 2 <$> msgs) ++ unread r ∧ Forall (fits 2) msgs ∧
    incomplete 2 (unread r) ∧ reader_wf r ∧ on_readyRead data c = keep r (handle_all msgs c).
Proof.
  intros Hr. unfold ClientChannel.on_readyRead. set (c0 := with_reader (append data (t_reader c)) c).
  assert (Eu : unread (t_reader c0) = unread (t_reader c) ++ data) by (unfold unread; cbn; by rewrite app_assoc).
  destruct (receive_spec (5 + length (rx_buffer (t_reader c) ++ data)) c0) as (msgs & r & E & Hm & Hi & Hw & ER).
  - apply Hr.
  - apply Hr.
  - rewrite Eu. unfold unread. destruct (rx_pending _); rewrite !zlen_app, ?zlen_head; unfold zlen; rewrite length_app; cbn; lia.
  - exists msgs, r. rewrite <- Eu. split_and!; try done. rewrite ER. unfold c0. rewrite blind_handle_all. by destruct (handle_all msgs c).
Qed.

(** The slot for one piece of the stream after the other. *)
Definition feed (chunks : list bytes) : slot := foldr (λ d, andThen (on_readyRead d)) nothing chunks.

Lemma feed_spec chunks c :
  reader_wf (t_reader c) → incomplete 2 (unread (t_reader c)) →
  ∃ msgs r, unread (t_reader c) ++ concat chunks = concat (framed 2 <$> msgs) ++ unread r ∧ Forall (fits 2) msgs ∧
    incomplete 2 (unread r) ∧ reader_wf r ∧ feed chunks c = keep r (handle_all msgs c).
Proof.
  revert c. induction chunks as [| d chunks IH]; intros c Hr Hi; cbn [concat feed foldr].
  - exists [], (t_reader c). rewrite app_nil_r. split_and!; try done. unfold keep, nothing. cbn. by destruct c.
  - destruct (on_readyRead_spec d c Hr) as (m1 & r1 & E1 & F1 & I1 & W1 & R1).
    destruct (IH (with_reader r1 (handle_all m1 c).1)) as (m2 & r2 & E2 & F2 & I2 & W2 & R2); [done | done |].
    exists (m1 ++ m2), r2. split_and!; try done.
    + cbn in E2. rewrite app_assoc, E1, <- app_assoc, E2, fmap_app, concat_app, app_assoc. done.
    + by apply Forall_app.
    + fold (feed chunks). unfold andThen. rewrite R1. unfold keep at 1. rewrite R2, handle_all_app, (blind_handle_all m2).
      unfold andThen. destruct (handle_all m1 c) as [c1 o1]. cbn [fst snd]. by destruct (handle_all m2 c1) as [c2 o2].
Qed.

(** ** The stream to the server *)

(** What is put on the wire until the connection is aborted. *)
Definition is_abort (o : output) : bool := match o with Aborted => true | _ => false end.
Definition aborts (l : list output) : bool := existsb is_abort l.

Fixpoint until_abort (l : list output) : list output :=
  match l with [] => [] | o :: l => if is_abort o then [] else o :: until_abort l end.

Definition accepted (l : list output) : bytes := concat (omap (λ o, match o with Wrote b => Some b | _ => None end) l).
Definition queued_frames (l : list output) : list bytes := omap (λ o, match o with Queued b => Some b | _ => None end) l.

Lemma until_abort_all l : aborts l = false → until_abort l = l.
Proof. induction l as [| o l IH]; [done |]. cbn. destruct (is_abort o); [done |]. intros E. by rewrite IH. Qed.

Lemma until_abort_app l k : until_abort (l ++ k) = if aborts l then until_abort l else l ++ until_abort k.
Proof.
  induction l as [| o l IH]; [done |]. unfold aborts in *. cbn. destruct (is_abort o); [done |]. rewrite IH. cbn. by destruct (existsb _ l).
Qed.

Lemma aborts_app l k : aborts (l ++ k) = aborts l || aborts k.
Proof. apply existsb_app. Qed.

Lemma accepted_app l k : accepted (l ++ k) = accepted l ++ accepted k.
Proof. unfold accepted. by rewrite omap_app, concat_app. Qed.

Lemma queued_app l k : queued_frames (l ++ k) = queued_frames l ++ queued_frames k.
Proof. unfold queued_frames. by rewrite omap_app. Qed.

(** What a slot does to the stream: nothing is lost, repeated or reordered
    while the connection lives, and what an aborted one has taken is a prefix
    of what it was given. *)
Definition streams (c : channel) (x : channel * list output) : Prop :=
  if aborts x.2 then accepted (until_abort x.2) `prefix_of` backlog (t_q c) ++ concat (queued_frames (until_abort x.2))
  else accepted x.2 ++ backlog (t_q x.1) = backlog (t_q c) ++ concat (queued_frames x.2) ∧ queue_wf (t_q x.1).

(** A slot that neither writes nor queues, until it aborts. *)
Definition silent (c : channel) (x : channel * list output) : Prop :=
  accepted x.2 = [] ∧ queued_frames x.2 = [] ∧ (aborts x.2 = false → t_q x.1 = t_q c).

Lemma silent_until l : accepted l = [] → accepted (until_abort l) = [].
Proof.
  intros Hl. assert (until_abort l `prefix_of` l) as [k E].
  { clear Hl. induction l as [| o l IH]; cbn; [done |]. destruct (is_abort o); [apply prefix_nil | by apply prefix_cons]. }
  rewrite E, accepted_app in Hl. by apply app_eq_nil in Hl as [-> _].
Qed.

Lemma silent_streams c x : queue_wf (t_q c) → silent c x → streams c x.
Proof.
  intros Hw (Ha & Hq & Hs). unfold streams. destruct (aborts x.2).
  - rewrite (silent_until _ Ha). apply prefix_nil.
  - rewrite Ha, Hq, Hs by done. cbn. by rewrite app_nil_r.
Qed.

Lemma silent_andThen f g c : silent c (f c) → silent (f c).1 (g (f c).1) → silent c (andThen f g c).
Proof.
  unfold silent, andThen. destruct (f c) as [c1 o1]. cbn [fst snd]. destruct (g c1) as [c2 o2]. cbn [fst snd].
  intros (A1 & Q1 & S1) (A2 & Q2 & S2). rewrite accepted_app, queued_app, aborts_app, A1, A2, Q1, Q2.
  split_and!; [done | done |]. intros [E1 E2]%orb_false_elim. by rewrite S2, S1.
Qed.

Lemma silent_outputs c o : accepted o = [] → queued_frames o = [] → silent c (c, o).
Proof. done. Qed.

Lemma streams_andThen f g c :
  streams c (f c) → (queue_wf (t_q (f c).1) → streams (f c).1 (g (f c).1)) → streams c (andThen f g c).
Proof.
  unfold streams, andThen. destruct (f c) as [c1 o1]. cbn [fst snd]. destruct (g c1) as [c2 o2]. cbn [fst snd].
  rewrite aborts_app, until_abort_app. destruct (aborts o1); cbn [orb]; [done |]. intros [E1 W1] Hg. specialize (Hg W1).
  destruct (aborts o2).
  - rewrite !accepted_app, queued_app, concat_app, app_assoc, <- E1, <- app_assoc. by apply prefix_app.
  - destruct Hg as [E2 W2]. split; [| done]. by rewrite accepted_app, queued_app, concat_app, app_assoc, <- E1, <- !app_assoc, E2.
Qed.

(** *** Slots that are silent *)

Lemma silent_abort_with f c : (∀ c, silent c (f c)) → silent c (abort_with f c).
Proof.
  intros Hf. unfold abort_with. destruct (sk_abort (t_sock c)) as [[] s]; [| done].
  destruct (Hf (with_sock s c)) as (A & Q & _). unfold andThen, emit. destruct (f _) as [c1 o1]. split_and!; done.
Qed.

Lemma silent_finish_with f c : (∀ c, silent c (f c)) → silent c (finishReconnectFailure_with f c).
Proof.
  intros Hf. unfold finishReconnectFailure_with. destruct (t_reconnecting c); [| done]. cbn [negb].
  apply (silent_andThen _ _ (with_flags true false (t_notified c) c)); [by apply silent_abort_with | done].
Qed.

Lemma silent_disconnected d c : silent c (disconnected_slot d c).
Proof.
  revert c. induction d as [| d IH]; intros c; [done |]. cbn [disconnected_slot]. destruct (t_manual c); [done |].
  destruct (t_reconnecting c); [by apply silent_finish_with |]. by destruct (t_notified c).
Qed.

Lemma silent_finish c : silent c (finishReconnectFailure c).
Proof. apply silent_finish_with. intros c'. apply silent_disconnected. Qed.

Lemma silent_report e c : silent c (report_login_failure e c).
Proof. unfold report_login_failure. destruct (t_reconnecting c); [apply silent_finish | done]. Qed.

Lemma silent_login data c : silent c (handleChatLoginRsp data c).
Proof.
  unfold handleChatLoginRsp. destruct (fromJson data) as [[| | | | | | | o] |]; try apply silent_report.
  destruct (negb (contains o _)); [apply silent_report |]. destruct (negb (toInt 0 _ =? SUCCESS)); [apply silent_report |].
  destruct (t_reconnecting c).
  - destruct (match t_info c with Some _ => _ | None => _ end); [done | apply silent_report].
  - destruct (t_info c) as [si |]; [| done]. apply silent_outputs; unfold array_call; by destruct (contains o _), (contains o _).
Qed.

Lemma with_answer_quiet data bad err ok :
  accepted bad = [] → queued_frames bad = [] → (∀ e o, accepted (err e o) = [] ∧ queued_frames (err e o) = []) →
  (∀ o, accepted (ok o) = [] ∧ queued_frames (ok o) = []) →
  accepted (with_answer data bad err ok) = [] ∧ queued_frames (with_answer data bad err ok) = [].
Proof.
  intros ? ? He Ho. unfold with_answer. destruct (fromJson data) as [v |]; [| done].
  destruct (negb (contains _ _)); [done |]. destruct (negb _); [apply He | apply Ho].
Qed.

Lemma stateless_quiet id data :
  accepted (stateless_handler now self id data) = [] ∧ queued_frames (stateless_handler now self id data) = [].
Proof.
  unfold stateless_handler. repeat match goal with |- context [if ?b then _ else _] => destruct b end;
    try (apply with_answer_quiet; [done | done | done |]; intros; cbv zeta; repeat case_match; done); try done.
  - unfold handleUserMessageNotify. by repeat case_match.
  - unfold handleSyncMessageRsp. by repeat case_match.
Qed.

Lemma silent_handleMsg id data c : silent c (handleMsg id data c).
Proof.
  unfold ClientChannel.handleMsg. destruct (id =? _); [apply silent_login |]. destruct (stateless_quiet id data). by apply silent_outputs.
Qed.

Lemma silent_receive fuel c : silent c (receive fuel c).
Proof.
  revert c. induction fuel as [| fuel IH]; intros c; [done |]. cbn [ClientChannel.receive].
  destruct (next_head (t_reader c)) as [r |]; [| done]. destruct (_ <? _); [done |].
  match goal with |- silent c (andThen ?f ?g ?c') => apply (silent_andThen f g c') end; [apply silent_handleMsg | apply IH].
Qed.

(** *** Slots that write *)

Lemma failure_aborts c : ∃ o, (handleWriteFailure c).2 = Aborted :: o ∧ accepted o = [].
Proof.
  unfold handleWriteFailure, abort, andThen at 1, abort_with.
  destruct (sk_abort _) as [e s]. set (c1 := with_sock s _).
  assert (∃ c2 o2, (if e then on_disconnected else nothing) c1 = (c2, o2) ∧ accepted o2 = []) as (c2 & o2 & E & A).
  { destruct e; [| by eexists _, _]. destruct (on_disconnected c1) as [c2 o2] eqn:E. exists c2, o2. split; [done |].
    pose proof (silent_disconnected 2 c1) as (A & _). unfold on_disconnected in E. by rewrite E in A. }
  unfold andThen, emit. rewrite E. destruct (negb (t_manual c2) && _); cbn; eexists; (split; [done |]).
  - by rewrite accepted_app, A.
  - by rewrite app_nil_r.
Qed.

Context `{!QtSocketLaws}.
#[local] Set Default Proof Using "Type*".

Lemma streams_after_write (r : sock * sendq * bytes * bool) c :
  (let '(_, q, w, failed) := r in
   if failed then w `prefix_of` backlog (t_q c) else w ++ backlog q = backlog (t_q c) ∧ queue_wf q) →
  streams c (after_write r c).
Proof.
  destruct r as [[[s q] w] failed]. unfold after_write. destruct failed.
  - intros Hw. destruct (failure_aborts (with_q q (with_sock s c))) as (o & E & _). unfold andThen, emit.
    destruct (handleWriteFailure _) as [c2 o2]. cbn in E. subst o2. unfold streams. cbn. by rewrite !app_nil_r.
  - intros [E W]. unfold streams, andThen, emit, nothing. cbn. split; [| done]. by rewrite !app_nil_r.
Qed.

Lemma streams_tryDequeueSend c : queue_wf (t_q c) → streams c (tryDequeueSend c).
Proof.
  intros Hw. apply streams_after_write. destruct (ClientSocket.tryDequeueSend _ _ _) as [[[s q] w] []] eqn:E.
  - by apply (tryDequeueSend_conserves send_high_watermark) in E.
  - split; [by apply (tryDequeueSend_conserves send_high_watermark) in E | by eapply (tryDequeueSend_wf send_high_watermark)].
Qed.

Lemma streams_flush c : queue_wf (t_q c) → streams c (flushPendingSuffix c).
Proof.
  intros Hw. apply streams_after_write. destruct (ClientSocket.flushPendingSuffix _ _) as [[[s q] w] []] eqn:E;
    apply flush_conserves in E; try done. subst w. apply prefix_nil.
Qed.

Lemma enqueue_wf b q : queue_wf q → queue_wf (enqueue b q) ∧ backlog (enqueue b q) = backlog q ++ b.
Proof.
  intros [W1 W2 W3]. unfold queued, backlog in *. split.
  - split; cbn; [done | | done]. unfold queued. cbn. rewrite concat_app, zlen_app. cbn. rewrite app_nil_r. lia.
  - cbn. rewrite concat_app. cbn. by rewrite app_nil_r, app_assoc.
Qed.

Lemma queued_cons b l : queued_frames (Queued b :: l) = b :: queued_frames l.
Proof. done. Qed.

Lemma streams_send id data c : queue_wf (t_q c) → streams c (slot_send_data id data c).
Proof.
  intros Hw. unfold slot_send_data. destruct (_ <? _).
  - destruct (failure_aborts c) as (o & E & _). destruct (handleWriteFailure c) as [c2 o2]. cbn in E. subst o2.
    unfold streams. cbn. apply prefix_nil.
  - destruct (enqueue_wf (block id data) (t_q c) Hw) as [We Eb]. set (c1 := with_q _ c).
    assert (Hs : streams c1 (tryDequeueSend c1)) by by apply streams_tryDequeueSend.
    unfold andThen, emit, streams in *. destruct (tryDequeueSend c1) as [c2 o2]. cbn [fst snd app] in *.
    assert (E1 : t_q c1 = enqueue (block id data) (t_q c)) by done. rewrite E1, Eb in Hs.
    unfold aborts in *. cbn [existsb is_abort orb until_abort]. destruct (existsb is_abort o2).
    + rewrite queued_cons. cbn [concat]. rewrite app_assoc. exact Hs.
    + rewrite queued_cons. cbn [concat]. rewrite app_assoc. exact Hs.
Qed.

Lemma streams_same c c' x : t_q c = t_q c' → streams c' x → streams c x.
Proof. unfold streams. by intros ->. Qed.

Definition is_reconnect (e : event) : bool := match e with EvReconnect _ _ => true | _ => false end.

Lemma streams_on_event e c : queue_wf (t_q c) → is_reconnect e = false → streams c (on_event now self toUInt e c).
Proof.
  intros Hw He. destruct e as [| data | e | | | | si | | id data]; cbn [on_event]; try done.
  - unfold on_connected. apply (streams_same _ (with_notified false c)); [done |].
    destruct (t_reconnecting _); [| by apply silent_streams].
    destruct (t_info _); [by apply streams_send | by apply silent_streams].
  - apply silent_streams; [done |]. apply (silent_receive _ (with_reader _ c)).
  - apply silent_streams; [done |]. unfold on_error. destruct (t_reconnecting c); [apply silent_finish |].
    destruct (t_manual c || t_notified c); [done | by destruct e].
  - apply silent_streams; [done | apply silent_disconnected].
  - apply streams_andThen; [by apply streams_flush | by apply streams_tryDequeueSend].
  - apply silent_streams; [done |]. unfold slot_tcp_close. cbv zeta. destruct (sk_close _) as [[] s].
    + match goal with |- silent c (ClientChannel.andThen ?f ?g ?x) => apply (silent_andThen f g x) end; [done | apply silent_disconnected].
    + done.
  - by apply silent_streams.
  - by apply streams_send.
Qed.

(** Every run without a reconnection, which starts with an empty queue. *)
Lemma run_streams evs c :
  queue_wf (t_q c) → Forall (λ e, is_reconnect e.2 = false) evs → streams c (run now self toUInt evs c).
Proof.
  intros Hw Hevs. revert c Hw. induction Hevs as [| [s e] evs He Hevs IH]; intros c Hw; [by apply silent_streams |].
  cbn [run]. apply (streams_same _ (with_sock s c)); [done |].
  apply (streams_andThen (on_event now self toUInt e)); [by apply streams_on_event | apply IH].
Qed.

(** ** Well-formed channels *)

Record channel_wf (c : channel) : Prop := {
  cw_reader : reader_wf (t_reader c);
  cw_queue : queue_wf (t_q c);
  cw_bound : sq_bytes (t_q c) <= send_queue_limit;
  cw_reconnecting : t_reconnecting c = true → is_Some (t_info c) ∧ t_manual c = false;
}.

Definition preserves (f : slot) : Prop := ∀ c, channel_wf c → channel_wf (f c).1.

Lemma preserves_andThen f g : preserves f → preserves g → preserves (andThen f g).
Proof.
  intros Hf Hg c Hc. unfold andThen. specialize (Hf c Hc). destruct (f c) as [c1 o1]. specialize (Hg c1 Hf). by destruct (g c1).
Qed.

Lemma preserves_outputs (o : channel → list output) : preserves (λ c, (c, o c)).
Proof. by intros c Hc. Qed.

Lemma preserves_flags m r n c : channel_wf c → (r = true → t_reconnecting c = true ∧ m = t_manual c) → channel_wf (with_flags m r n c).
Proof. intros [W1 W2 W3 W4] Hr. split; cbn; try done. intros ->. destruct (Hr eq_refl) as [E ->]. by apply W4. Qed.

Lemma preserves_sock s c : channel_wf c → channel_wf (with_sock s c).
Proof. by intros [W1 W2 W3 W4]. Qed.

Lemma preserves_q q c : channel_wf c → queue_wf q → sq_bytes q <= send_queue_limit → channel_wf (with_q q c).
Proof. by intros [W1 W2 W3 W4]. Qed.

Lemma preserves_reader r c : channel_wf c → reader_wf r → channel_wf (with_reader r c).
Proof. by intros [W1 W2 W3 W4]. Qed.

Lemma preserves_abort_with f : preserves f → preserves (abort_with f).
Proof.
  intros Hf c Hc. unfold abort_with. destruct (sk_abort (t_sock c)) as [[] s].
  - apply (preserves_andThen (emit Aborted) f (preserves_outputs _) Hf). by apply preserves_sock.
  - by apply preserves_sock.
Qed.

Lemma preserves_finish_with f : preserves f → preserves (finishReconnectFailure_with f).
Proof.
  intros Hf c Hc. unfold finishReconnectFailure_with. destruct (t_reconnecting c); [| done]. cbn [negb].
  apply (preserves_andThen _ _ (preserves_abort_with f Hf) (preserves_outputs _)). by apply preserves_flags.
Qed.

Lemma preserves_disconnected d : preserves (disconnected_slot d).
Proof.
  induction d as [| d IH]; intros c Hc; [done |]. cbn [disconnected_slot]. destruct (t_manual c) eqn:Em; [done |].
  destruct (t_reconnecting c) eqn:E; [by apply preserves_finish_with |]. destruct (t_notified c); [done |].
  apply preserves_flags; [done |]. by rewrite E.
Qed.

Lemma preserves_finish : preserves finishReconnectFailure.
Proof. apply preserves_finish_with, preserves_disconnected. Qed.

Lemma empty_queue_wf : queue_wf empty_queue.
Proof. by split. Qed.

Lemma preserves_failure : preserves handleWriteFailure.
Proof.
  intros c Hc. unfold handleWriteFailure. apply preserves_andThen.
  - apply preserves_abort_with, preserves_disconnected.
  - intros c' Hc'. destruct (negb (t_manual c') && _); [| done]. by apply preserves_flags.
  - apply preserves_q; [done | apply empty_queue_wf | done].
Qed.

Lemma preserves_after_write (r : sock * sendq * bytes * bool) c :
  channel_wf c → (let '(_, q, _, failed) := r in failed = false → queue_wf q ∧ sq_bytes q <= send_queue_limit) →
  channel_wf (after_write r c).1.
Proof.
  destruct r as [[[s q] w] []]; intros Hc Hq; unfold after_write.
  - assert (Hf : channel_wf (handleWriteFailure (with_sock s c)).1) by (apply preserves_failure; by apply preserves_sock).
    unfold andThen, emit. change (handleWriteFailure (with_q q (with_sock s c))) with (handleWriteFailure (with_sock s c)).
    by destruct (handleWriteFailure (with_sock s c)).
  - destruct (Hq eq_refl). cbn. by apply preserves_q; [apply preserves_sock | ..].
Qed.

Lemma preserves_tryDequeueSend : preserves tryDequeueSend.
Proof.
  intros c Hc. apply preserves_after_write; [done |]. destruct (ClientSocket.tryDequeueSend _ _ _) as [[[s q] w] []] eqn:E; [done |].
  intros _. split; [eapply (tryDequeueSend_wf send_high_watermark); [apply Hc | done] |].
  apply (dequeue_bytes send_high_watermark) in E. pose proof (cw_bound c Hc). lia.
Qed.

Lemma preserves_flush : preserves flushPendingSuffix.
Proof.
  intros c Hc. apply preserves_after_write; [done |]. destruct (ClientSocket.flushPendingSuffix _ _) as [[[s q] w] []] eqn:E; [done |].
  intros _. pose proof (flush_conserves _ _ _ _ _ _ (cw_queue c Hc) E) as [_ W]. split; [done |].
  rewrite (flush_bytes _ _ _ _ _ _ (cw_queue c Hc) E). apply Hc.
Qed.

Lemma preserves_send id data : preserves (slot_send_data id data).
Proof.
  intros c Hc. unfold slot_send_data. destruct (Z.ltb_spec send_queue_limit (sq_bytes (t_q c) + zlen (block id data)));
    [by apply preserves_failure |].
  apply (preserves_andThen _ _ (preserves_outputs _) preserves_tryDequeueSend). apply preserves_q; [done | | done].
  by apply enqueue_wf, Hc.
Qed.

Lemma preserves_handle_all msgs : preserves (handle_all msgs).
Proof.
  induction msgs as [| m msgs IH]; [by intros c |]. apply preserves_andThen; [| done]. intros c Hc.
  unfold ClientChannel.handleMsg. destruct (m.1 =? _); [| done].
  assert (Hr : ∀ e, channel_wf (report_login_failure e c).1).
  { intros e. unfold report_login_failure. destruct (t_reconnecting c); [by apply preserves_finish | done]. }
  unfold handleChatLoginRsp. destruct (fromJson m.2) as [[| | | | | | | o] |]; try apply Hr.
  destruct (negb (contains o _)); [apply Hr |]. destruct (negb (toInt 0 _ =? SUCCESS)); [apply Hr |].
  destruct (t_reconnecting c); [| by destruct (t_info c)].
  destruct (match t_info c with Some _ => _ | None => _ end); [by apply preserves_flags | apply Hr].
Qed.

Lemma empty_reader_wf : reader_wf empty_reader.
Proof. by split. Qed.

Lemma preserves_on_event e : preserves (on_event now self toUInt e).
Proof.
  intros c Hc. destruct e as [| data | e | | | | si | host port | id data]; cbn [on_event].
  - assert (Hn : channel_wf (with_notified false c)) by by apply preserves_flags.
    unfold on_connected. destruct (t_reconnecting _); [| done]. destruct (t_info _); [by apply preserves_send | done].
  - destruct (on_readyRead_spec data c (cw_reader c Hc)) as (msgs & r & _ & _ & _ & Hr & ->).
    apply preserves_reader; [by apply preserves_handle_all | done].
  - unfold on_error. destruct (t_reconnecting c) eqn:E; [by apply preserves_finish |].
    destruct (t_manual c || t_notified c); [done | by destruct e].
  - by apply preserves_disconnected.
  - by apply (preserves_andThen _ _ preserves_flush preserves_tryDequeueSend).
  - unfold slot_tcp_close. cbv zeta. assert (Hn : channel_wf (with_flags true false (t_notified c) c)) by by apply preserves_flags.
    destruct (sk_close _) as [[] s]; [| by apply preserves_sock].
    apply (preserves_andThen _ _ (preserves_outputs _) (preserves_disconnected 2)). by apply preserves_sock.
  - destruct Hc as [W1 W2 W3 W4]. by split.
  - unfold slot_reconnect_chat. destruct (t_info c) as [si |]; [| done]. destruct (_ || _ || _); [done |].
    destruct Hc as [W1 W2 W3 W4]. split; cbn; [apply empty_reader_wf | | done | by eauto].
    split; cbn; [done | | done]. destruct W2 as [_ W2 _]. pose proof (zlen_nonneg (concat (sq_queue (t_q c)))). unfold queued in *. cbn. unfold zlen at 1. cbn. lia.
  - by apply preserves_send.
Qed.

Lemma run_wf evs c : channel_wf c → channel_wf (run now self toUInt evs c).1.
Proof.
  revert c. induction evs as [| [s e] evs IH]; intros c Hc; [done |]. cbn [run].
  apply (preserves_andThen _ _ (preserves_on_event e) (λ c, IH c)). by apply preserves_sock.
Qed.

Lemma fresh_wf s : channel_wf (TcpMgr s).
Proof. by split; [apply empty_reader_wf | apply empty_queue_wf | |]. Qed.

(** ** Answers to a reconnection, notices of a lost connection *)

Definition finished_w (o : output) : Z := match o with sig_reconnect_finished _ => 1 | _ => 0 end.

(** A reconnection that succeeds makes room for one more notice. *)
Definition closed_w (o : output) : Z :=
  match o with sig_connection_closed => 1 | sig_reconnect_finished true => -1 | _ => 0 end.

Lemma b2z_nonneg b : 0 <= Z.b2z b.
Proof. by destruct b. Qed.

Fixpoint total (w : output → Z) (l : list output) : Z := match l with [] => 0 | o :: l => w o + total w l end.

Lemma total_app w l k : total w (l ++ k) = total w l + total w k.
Proof. induction l as [| o l IH]; cbn; [done |]. rewrite IH. lia. Qed.

(** A pending reconnection is the same, or answered and no longer pending; a
    connection not yet reported as lost is the same, or reported. *)
Record ledger (c : channel) (x : channel * list output) : Prop := {
  ld_answers : total finished_w x.2 + Z.b2z (t_reconnecting x.1) = Z.b2z (t_reconnecting c);
  ld_closed : total closed_w x.2 + Z.b2z (negb (t_notified x.1)) <= Z.b2z (negb (t_notified c));
}.

Lemma ledger_andThen f g c : ledger c (f c) → ledger (f c).1 (g (f c).1) → ledger c (andThen f g c).
Proof.
  unfold andThen. destruct (f c) as [c1 o1]. cbn [fst snd]. destruct (g c1) as [c2 o2]. intros [A1 C1] [A2 C2].
  cbn [fst snd] in *. split; cbn [fst snd]; rewrite total_app; lia.
Qed.

Lemma ledger_outputs c o : total finished_w o = 0 → total closed_w o = 0 → ledger c (c, o).
Proof. intros E1 E2. split; cbn [fst snd]; rewrite ?E1, ?E2; lia. Qed.

Lemma ledger_same c c' x : t_reconnecting c = t_reconnecting c' → t_notified c = t_notified c' → ledger c' x → ledger c x.
Proof. intros E1 E2 [A C]. split; by rewrite ?E1, ?E2. Qed.

Lemma ledger_abort_with f c : (∀ c, ledger c (f c)) → ledger c (abort_with f c).
Proof.
  intros Hf. unfold abort_with. destruct (sk_abort (t_sock c)) as [e s].
  apply (ledger_same _ (with_sock s c)); [done | done |].
  apply (ledger_andThen (emit Aborted) (if e then f else nothing)); [by apply ledger_outputs |].
  destruct e; [apply Hf | by apply ledger_outputs].
Qed.

Lemma ledger_finish_with f c : (∀ c, ledger c (f c)) → ledger c (finishReconnectFailure_with f c).
Proof.
  intros Hf. unfold finishReconnectFailure_with. destruct (t_reconnecting c) eqn:E; [| by apply ledger_outputs]. cbn [negb].
  set (c1 := with_flags true false (t_notified c) c).
  assert (Ha : ledger c1 (abort_with f c1)) by by apply ledger_abort_with.
  unfold andThen, emit. destruct (abort_with f c1) as [c2 o2]. destruct Ha as [A C]. cbn [fst snd c1 t_reconnecting with_flags t_notified] in *.
  split; cbn [fst snd]; rewrite total_app; cbn; rewrite ?E; cbn in *; lia.
Qed.

Lemma ledger_disconnected d c : ledger c (disconnected_slot d c).
Proof.
  revert c. induction d as [| d IH]; intros c; [by apply ledger_outputs |]. cbn [disconnected_slot].
  destruct (t_manual c); [by apply ledger_outputs |]. destruct (t_reconnecting c); [by apply ledger_finish_with |].
  destruct (t_notified c) eqn:En; [by apply ledger_outputs |]. split; cbn; rewrite ?En; cbn; lia.
Qed.

Lemma ledger_finish c : ledger c (finishReconnectFailure c).
Proof. apply ledger_finish_with. intros c'. apply ledger_disconnected. Qed.

Lemma ledger_failure c : ledger c (handleWriteFailure c).
Proof.
  unfold handleWriteFailure. apply (ledger_same _ (with_q empty_queue c)); [done | done |].
  apply ledger_andThen; [apply ledger_abort_with; intros c'; apply ledger_disconnected |].
  set (c1 := (abort _).1). destruct (t_manual c1); [by apply ledger_outputs |]. destruct (t_notified c1) eqn:En; [by apply ledger_outputs |].
  cbn. split; cbn; rewrite ?En; cbn; lia.
Qed.

Lemma ledger_report e c : ledger c (report_login_failure e c).
Proof. unfold report_login_failure. destruct (t_reconnecting c); [apply ledger_finish | by apply ledger_outputs]. Qed.

Lemma ledger_login data c : ledger c (handleChatLoginRsp data c).
Proof.
  unfold handleChatLoginRsp. destruct (fromJson data) as [[| | | | | | | o] |]; try apply ledger_report.
  destruct (negb (contains o _)); [apply ledger_report |]. destruct (negb (toInt 0 _ =? SUCCESS)); [apply ledger_report |].
  destruct (t_reconnecting c) eqn:Er.
  - destruct (match t_info c with Some _ => _ | None => _ end); [| apply ledger_report].
    split; cbn; rewrite ?Er; cbn; destruct (t_notified c); cbn; lia.
  - destruct (t_info c); [| by apply ledger_outputs].
    apply ledger_outputs; unfold array_call; by destruct (contains o _), (contains o _).
Qed.

Lemma with_answer_free w data bad err ok :
  total w bad = 0 → (∀ e o, total w (err e o) = 0) → (∀ o, total w (ok o) = 0) → total w (with_answer data bad err ok) = 0.
Proof.
  intros ? He Ho. unfold with_answer. destruct (fromJson data) as [v |]; [| done].
  destruct (negb (contains _ _)); [done |]. destruct (negb _); [apply He | apply Ho].
Qed.

Lemma stateless_free id data :
  total finished_w (stateless_handler now self id data) = 0 ∧ total closed_w (stateless_handler now self id data) = 0.
Proof.
  unfold stateless_handler. repeat match goal with |- context [if ?b then _ else _] => destruct b end;
    try (split; (apply with_answer_free; [done | done |]); intros; cbv zeta; repeat case_match; done); try done.
  - unfold handleUserMessageNotify. by repeat case_match.
  - unfold handleSyncMessageRsp. by repeat case_match.
Qed.

Lemma ledger_receive fuel c : ledger c (receive fuel c).
Proof.
  revert c. induction fuel as [| fuel IH]; intros c; [by apply ledger_outputs |]. cbn [ClientChannel.receive].
  destruct (next_head (t_reader c)) as [r |]; [| by apply ledger_outputs]. destruct (_ <? _).
  - by apply (ledger_same _ (with_reader (Reader (rx_buffer r) true (rx_type r) (rx_len r)) c)); [.. | apply ledger_outputs].
  - match goal with |- ledger c (andThen ?f ?g ?c') => apply (ledger_same _ c'); [done | done |]; apply (ledger_andThen f g c') end;
      [| apply IH].
    unfold ClientChannel.handleMsg. destruct (_ =? MsgId_code _); [apply ledger_login |]. apply ledger_outputs; apply stateless_free.
Qed.

Lemma ledger_after_write (r : sock * sendq * bytes * bool) c : ledger c (after_write r c).
Proof.
  destruct r as [[[s q] w] failed]. unfold after_write. apply (ledger_same _ (with_q q (with_sock s c))); [done | done |].
  apply ledger_andThen; [by apply ledger_outputs |]. destruct failed; [apply ledger_failure | by apply ledger_outputs].
Qed.

Lemma ledger_send id data c : ledger c (slot_send_data id data c).
Proof.
  unfold slot_send_data. destruct (_ <? _); [apply ledger_failure |].
  apply (ledger_same _ (with_q (enqueue (block id data) (t_q c)) c)); [done | done |].
  apply ledger_andThen; [by apply ledger_outputs | apply ledger_after_write].
Qed.

Fixpoint zsum {A} (f : A → Z) (l : list A) : Z := match l with [] => 0 | x :: l => f x + zsum f l end.

(** The events that start or end a reconnection or a connection. *)
Definition asks_reconnect (e : event) : Z := match e with EvReconnect _ _ => 1 | _ => 0 end.
Definition new_connection (e : event) : Z := match e with EvConnected | EvConnect _ | EvReconnect _ _ => 1 | _ => 0 end.
Definition user_decides (e : event) : bool := match e with EvClose | EvConnect _ | EvReconnect _ _ => true | _ => false end.

Lemma ledger_on_event e c (x := on_event now self toUInt e c) :
  total finished_w x.2 + Z.b2z (t_reconnecting x.1) <= Z.b2z (t_reconnecting c) + asks_reconnect e ∧
  (user_decides e = false → total finished_w x.2 + Z.b2z (t_reconnecting x.1) = Z.b2z (t_reconnecting c)) ∧
  total closed_w x.2 + Z.b2z (negb (t_notified x.1)) <= Z.b2z (negb (t_notified c)) + new_connection e.
Proof.
  assert (Hl : ∀ x, ledger c x → user_decides e = false →
    total finished_w x.2 + Z.b2z (t_reconnecting x.1) <= Z.b2z (t_reconnecting c) + asks_reconnect e ∧
    (user_decides e = false → total finished_w x.2 + Z.b2z (t_reconnecting x.1) = Z.b2z (t_reconnecting c)) ∧
    total closed_w x.2 + Z.b2z (negb (t_notified x.1)) <= Z.b2z (negb (t_notified c)) + new_connection e).
  { intros y [A C] He. split_and!; [| done |]; destruct e; cbn in *; try done; lia. }
  subst x. destruct e as [| data | e | | | | si | host port | id data]; cbn [on_event].
  - assert (Hn : ledger (with_notified false c) (on_connected c)).
    { unfold on_connected. cbv zeta. destruct (t_reconnecting (with_notified false c)); [| by apply ledger_outputs].
      destruct (t_info _); [apply ledger_send | by apply ledger_outputs]. }
    destruct Hn as [A C]. cbn in A, C. destruct (on_connected c) as [c' o]. cbn in *. split_and!; [lia | done |].
    pose proof (b2z_nonneg (negb (t_notified c))). lia.
  - apply Hl; [| done]. apply (ledger_same _ (with_reader (append data (t_reader c)) c)); [done | done | apply ledger_receive].
  - apply Hl; [| done]. unfold on_error. destruct (t_reconnecting c) eqn:Er; [apply ledger_finish |].
    destruct (t_manual c || t_notified c); [by apply ledger_outputs | destruct e; by apply ledger_outputs].
  - apply Hl; [| done]. apply ledger_disconnected.
  - apply Hl; [| done]. apply ledger_andThen; apply ledger_after_write.
  - unfold slot_tcp_close. cbv zeta. set (c1 := with_flags true false (t_notified c) c).
    destruct (sk_close (t_sock c1)) as [em s]. set (g := if em then on_disconnected else nothing).
    assert (Hc : ledger (with_sock s c1) (andThen (emit Closed) g (with_sock s c1))).
    { apply ledger_andThen; [by apply ledger_outputs |]. unfold g. destruct em; [apply ledger_disconnected | by apply ledger_outputs]. }
    destruct Hc as [A C]. cbn [c1 with_sock with_flags t_reconnecting t_notified] in *. pose proof (b2z_nonneg (t_reconnecting c)).
    cbn in A, C |- *. split_and!; [lia | done | lia].
  - cbn. pose proof (b2z_nonneg (t_reconnecting c)). pose proof (b2z_nonneg (negb (t_notified c))). split_and!; [lia | done | lia].
  - unfold slot_reconnect_chat. pose proof (b2z_nonneg (t_reconnecting c)). pose proof (b2z_nonneg (negb (t_notified c))).
    destruct (t_info c); [| cbn; split_and!; [lia | done | lia]].
    destruct (_ || _ || _); cbn; (split_and!; [lia | done | lia]).
  - apply Hl; [apply ledger_send | done].
Qed.

Lemma run_ledger evs c (x := run now self toUInt evs c) :
  total finished_w x.2 + Z.b2z (t_reconnecting x.1) <= Z.b2z (t_reconnecting c) + zsum (asks_reconnect ∘ snd) evs ∧
  (Forall (λ e, user_decides e.2 = false) evs →
     total finished_w x.2 + Z.b2z (t_reconnecting x.1) = Z.b2z (t_reconnecting c)) ∧
  total closed_w x.2 + Z.b2z (negb (t_notified x.1)) <= Z.b2z (negb (t_notified c)) + zsum (new_connection ∘ snd) evs.
Proof.
  subst x. revert c. induction evs as [| [s e] evs IH]; intros c; [cbn; split_and!; [lia | done | lia] |]. cbn [run].
  pose proof (ledger_on_event e (with_sock s c)) as (A & B & C). unfold andThen.
  destruct (on_event now self toUInt e (with_sock s c)) as [c1 o1]. specialize (IH c1) as (A' & B' & C').
  destruct (run now self toUInt evs c1) as [c2 o2]. cbn [fst snd zsum compose with_sock t_reconnecting t_notified] in *.
  rewrite !total_app. split_and!; [lia | | lia]. intros [He Hevs]%Forall_cons. cbn in He. specialize (B He). specialize (B' Hevs). lia.
Qed.

End proofs.

(** ** The frames of the two ends *)

Lemma be16_be_bytes n : be16 n = be_bytes 2 n.
Proof.
  unfold be16. cbn [be_bytes app]. f_equal; [| f_equal]; rewrite ?shiftr_8, land_255.
  all: apply bval_inj; rewrite !bval_mkbyte, ?land_255, !Z.mod_mod by lia; done.
Qed.

(** What the server may send: a type of 16 bits and a body that fits its
    signed length. *)
Definition server_sends (m : Z * bytes) : Prop := 0 <= m.1 < 2 ^ 16 ∧ zlen m.2 <= SHRT_MAX.

Lemma u16_small n : 0 <= n < 2 ^ 16 → u16 n = n.
Proof. intros. unfold u16. by apply Z.mod_small. Qed.

Lemma SendNode_framed m : server_sends m → SendNode m.2 m.1 = framed 2 m ∧ fits 2 m.
Proof.
  intros [Ht Hl]. unfold SHRT_MAX in Hl. pose proof (zlen_nonneg m.2). split.
  - unfold SendNode, framed, frame_head. rewrite s16_small, !u16_small, !be16_be_bytes, ztake_all by lia. by rewrite <- ?app_assoc.
  - split; [done |]. change (256 ^ Z.of_nat 2) with (2 ^ 16). lia.
Qed.

Lemma prefix_length_split {A} (h l k : list A) :
  l `prefix_of` h ++ k → (length h <= length l)%nat → ∃ t, l = h ++ t ∧ t `prefix_of` k.
Proof.
  intros [r E] Hl. assert (Eh : take (length h) l = h).
  { pose proof (take_app_length h k) as Et. by rewrite E, take_app_le in Et. }
  exists (drop (length h) l). split; [rewrite <- Eh at 1; symmetry; apply take_drop |].
  exists r. rewrite <- (take_drop (length h) l), Eh, <- app_assoc in E. by apply app_inv_head in E.
Qed.

(** What the client may send is read back by the server. *)
Lemma block_SendNode id data : sendable (id, data) → block id data = SendNode data id.
Proof.
  intros [Ht Hl]. cbn in Ht, Hl. unfold MAX_LENGTH in *. pose proof (zlen_nonneg data).
  unfold SendNode, block, frame_head. rewrite s16_small, !u16_small, !be16_be_bytes, ztake_all by lia. by rewrite <- ?app_assoc.
Qed.

Lemma asyncReadLen_short segs got n : zlen got + zlen (concat segs) < n → asyncReadLen segs got n = (true, got ++ concat segs, []).
Proof.
  revert got. induction segs as [| seg segs IH]; intros got Hn; cbn in Hn |- *.
  - unfold zlen at 2 in Hn. cbn in Hn. rewrite (proj2 (Z.eqb_neq _ _)), app_nil_r by lia. done.
  - rewrite zlen_app in Hn. pose proof (zlen_nonneg (concat segs)).
    pose proof (zlen_nonneg seg).
    rewrite (proj2 (Z.eqb_neq _ _)), (proj2 (Z.leb_le (zlen seg) (n - zlen got))), (proj2 (Z.leb_gt n (zlen (got ++ seg))))
      by (rewrite ?zlen_app; lia).
    rewrite IH, <- app_assoc by (rewrite zlen_app; lia). done.
Qed.

(** The server reads whole messages of a stream that breaks off. *)
Lemma receive_frames_prefix msgs segs :
  Forall sendable msgs → concat segs `prefix_of` concat ((λ m, SendNode m.2 m.1) <$> msgs) →
  ∃ n, receive_frames (S (length msgs)) segs = (take n msgs, HeadClose).
Proof.
  intros Hm. revert segs. induction Hm as [| [ty msg] msgs Hs Hm IH]; intros segs Hp.
  - exists O. apply prefix_nil_inv in Hp. cbn -[asyncReadFull]. by rewrite (asyncReadFull_eof segs HEAD_TOTAL_LEN Hp).
  - destruct (chat_SendNode_head ty msg Hs) as [Hn Hh]. cbn [fmap list_fmap concat fst snd] in Hp. rewrite Hn, <- app_assoc in Hp.
    set (hd := be16 (u16 ty) ++ be16 (u16 (zlen msg))) in *. assert (zlen hd = HEAD_TOTAL_LEN) as Ehd by done.
    change (length ((ty, msg) :: msgs)) with (S (length msgs)). remember (S (length msgs)) as f.
    cbn -[asyncReadFull]. destruct (decide (zlen (concat segs) < HEAD_TOTAL_LEN)) as [Hl | Hl].
    { exists O. unfold asyncReadFull. rewrite asyncReadLen_short by (change (zlen (@nil Byte.byte)) with 0; unfold HEAD_TOTAL_LEN in *; lia). by cbn. }
    destruct (prefix_length_split hd (concat segs) _ Hp) as (tl & Etl & Hp'); [unfold zlen in *; lia |].
    destruct (asyncReadFull_complete segs HEAD_TOTAL_LEN _ _ Etl Ehd) as (r1 & -> & Hr1). rewrite Hh.
    destruct (decide (zlen tl < zlen msg)) as [Hl' | Hl'].
    { exists O. unfold asyncReadFull. rewrite asyncReadLen_short by (rewrite Hr1; change (zlen (@nil Byte.byte)) with 0; lia). by cbn. }
    destruct (prefix_length_split msg tl _ Hp') as (tl' & Etl' & Hp''); [unfold zlen in *; lia |].
    rewrite Etl' in Hr1. destruct (asyncReadFull_complete r1 (zlen msg) _ _ Hr1 eq_refl) as (r2 & -> & Hr2).
    rewrite <- Hr2 in Hp''. destruct (IH r2 Hp'') as (n & ->). by exists (S n).
Qed.

(** ** Properties *)

Section properties.
Context `{!QtSocket, !QtSocketLaws, !QtLib, !QtText} (now self : Z) (toUInt : bytes → Z).
#[local] Set Default Proof Using "Type*".
#[local] Abbreviation run := (run now self toUInt).
#[local] Abbreviation feed := (feed now self).

(** A reader between two frames. *)
Definition idle (r : reader) : Prop := reader_wf r ∧ unread r = [].

(** C37: the pieces in which the bytes of the ChatServer arrive do not matter.
    Handling a stream piece by piece is the same as handling it in one piece:
    the same signals in the same order, the same channel, and the same bytes
    kept for later. A stream of whole frames that the server has sent is
    handled frame by frame, in order, each once, and nothing is kept. *)
Theorem feed_any_segmentation c chunks :
  reader_wf (t_reader c) → incomplete 2 (unread (t_reader c)) →
  (∃ r1 r2, unread r1 = unread r2 ∧ ∃ x, feed chunks c = keep r1 x ∧ on_readyRead now self (concat chunks) c = keep r2 x) ∧
  (∀ msgs, unread (t_reader c) = [] → Forall server_sends msgs → concat chunks = concat ((λ m, SendNode m.2 m.1) <$> msgs) →
     ∃ r, idle r ∧ feed chunks c = keep r (handle_all now self msgs c)).
Proof.
  intros Hr Hi. destruct (feed_spec now self chunks c Hr Hi) as (m1 & r1 & E1 & F1 & I1 & W1 & R1). split.
  - destruct (on_readyRead_spec now self (concat chunks) c Hr) as (m2 & r2 & E2 & F2 & I2 & W2 & R2).
    rewrite E1 in E2. apply (parse_unique 2) in E2 as [-> Eu]; [| done..]. exists r1, r2. split; [done |]. by exists (handle_all now self m2 c).
  - intros msgs Hu Hm Hc. rewrite Hu, Hc in E1. cbn [app] in E1.
    assert (Ef : (λ m, SendNode m.2 m.1) <$> msgs = framed 2 <$> msgs).
    { apply list_fmap_ext. intros i m Hm'. apply SendNode_framed. by eapply Forall_lookup. }
    assert (Hf : Forall (fits 2) msgs) by (eapply Forall_impl; [exact Hm |]; intros m ?; by apply SendNode_framed).
    rewrite Ef, <- (app_nil_r (concat (framed 2 <$> msgs))) in E1.
    apply (parse_unique 2) in E1 as [-> Eu]; [| done | done | apply incomplete_nil | done].
    exists r1. split; [by split | done].
Qed.


(** C39: the state of the connection stays well formed.
    From the start and in every run, with any socket: a head is pending only
    while its body is incomplete, the suffix of a frame is kept exactly while
    it has to be written, the counter of queued bytes covers the queue and
    never passes 64 MiB, and a reconnection has credentials and no manual
    close. *)
Theorem channel_stays_well_formed s evs : channel_wf (run evs (TcpMgr s)).1.
Proof. apply run_wf, fresh_wf; exact _. Qed.

(** C40: every reconnection is answered at most once, every loss reported at most once.
    In any run there are at most as many answers to reconnections as requests;
    without a close, a new connection or a further request a pending
    reconnection has exactly one answer, at the moment it is no longer
    pending. A lost connection is reported at most once for each connection
    that was requested, established or recovered. *)
Theorem reconnections_answered_once evs c (x := run evs c) :
  total finished_w x.2 + Z.b2z (t_reconnecting x.1) <= Z.b2z (t_reconnecting c) + zsum (asks_reconnect ∘ snd) evs ∧
  (Forall (λ e, user_decides e.2 = false) evs →
     total finished_w x.2 + Z.b2z (t_reconnecting x.1) = Z.b2z (t_reconnecting c)) ∧
  total closed_w x.2 + Z.b2z (negb (t_notified x.1)) <= Z.b2z (negb (t_notified c)) + zsum (new_connection ∘ snd) evs.
Proof. apply run_ledger; exact _. Qed.

End properties.

(** ** A concrete channel *)

#[local] Existing Instances demo_socket demo_socket_laws.

(** The library's results for one text. *)
#[local] Instance demo_lib : QtLib := {| toLongLong _ := Some 7; from_format _ := None; from_iso_ms _ := None; from_iso _ := None |}.
#[local] Instance demo_text : QtText := {|
  fromJson _ := Some (QObject [(§ "error", QNumber 0); (§ "message_id", QString § "7"); (§ "client_message_id", QString § "c1")]);
  toJson _ := § "{}"; toULongLong _ := Some 7 |}.

Definition demo_frames : list (Z * bytes) := [(1302, § "{a}"); (1104, § "{}")].
Definition demo_stream : bytes := concat ((λ m, SendNode m.2 m.1) <$> demo_frames).
Definition demo_sock : @sock demo_socket := (ConnectedState, 100).
Definition demo_channel : channel := TcpMgr demo_sock.

Lemma feed_any_segmentation_witness :
  (feed 0 1 [take 1 demo_stream; zslice demo_stream 1 9; drop 10 demo_stream] demo_channel).2 = [sig_text_msg_rsp_forward 0 (§ "c1") 7 []].
Proof.
  destruct (feed_any_segmentation 0 1 demo_channel [take 1 demo_stream; zslice demo_stream 1 9; drop 10 demo_stream]) as [_ Hm].
  - apply empty_reader_wf.
  - apply incomplete_nil.
  - destruct (Hm demo_frames) as (r & _ & ->); [reflexivity | repeat constructor; vm_compute; discriminate | vm_compute; reflexivity |].
    vm_compute. reflexivity.
Defined.

(** Six bytes for the first frame, three for the second, then the write
    fails. *)
Definition demo_events : list (sock * event) :=
  [((ConnectedState, 4), EvSend 1301 (§ "hi")); ((ConnectedState, 5), EvSend 1103 (§ "ok"));
   ((ConnectedState, 5), EvBytesWritten); ((UnconnectedState, 0), EvBytesWritten)].


Lemma channel_stays_well_formed_witness :
  let c := (run 0 1 (λ _, 0) (take 3 demo_events) demo_channel).1 in channel_wf c ∧ sq_pending (t_q c) = true.
Proof.
  intros c. split; [| vm_compute; reflexivity].
  unfold c, demo_channel. apply (channel_stays_well_formed 0 1 (λ _, 0) demo_sock (take 3 demo_events)).
Defined.

(** A login, a loss of the connection, a reconnection that is refused. *)
Definition demo_server : ServerInfo := Server (§ "h") (§ "80") [] [] (§ "t") 1.
Definition demo_losses : list (sock * event) :=
  [((UnconnectedState, 0), EvConnect demo_server); ((ConnectedState, 100), EvConnected); ((UnconnectedState, 0), EvDisconnected);
   ((UnconnectedState, 0), EvReconnect (§ "h") 80); ((UnconnectedState, 0), EvError ConnectionRefusedError)].

Lemma reconnections_answered_once_witness :
  let x := run 0 1 (λ _, 0) demo_losses demo_channel in
  total finished_w x.2 <= 1 ∧ total closed_w x.2 <= 4 ∧ t_reconnecting x.1 = false ∧ total finished_w x.2 = 1 ∧ total closed_w x.2 = 1.
Proof.
  intros x. destruct (reconnections_answered_once 0 1 (λ _, 0) demo_losses demo_channel) as (A & _ & C). fold x in A, C.
  split; [| split]; [| | vm_compute; auto].
  - pose proof (b2z_nonneg (t_reconnecting x.1)). vm_compute in A |- *. exact A.
  - vm_compute in C |- *. discriminate.
Defined.
