(* ===== verification/ChatLink.v ===== *)
(** * A text from the outbox to the database and back

    The frames of the connection (ClientChannel.v) meet the handler of the
    ChatServer (ChatLogic.v): what the client's outbox (Outbox.v) takes for a
    success is a message that is stored. JSON text is the libraries'. *)

From S2P Require Import Prelude ResourceWire ProtocolIds SessionLifecycle JsonFields Sha256 UploadFile Database ResourceDb TxLogic ChatDb ChatDbMessages ChatFriends ChatSync ChatUsers ChatLogic ChatHandlers.
From S2P Require Import LocalDb LocalStore ClientSync SyncLoop ResourceTransfer TransferEngine Outbox ResourceSession ResourceDispatch ResourceCodec ResourceLink.
From S2P Require Import ChatSession ClientSocket ClientHandlers ClientChannel ChannelProofs.

Section link.
Context `{!JsonLib, !QtText, !QtLib, !QtLaws, !Wire, !WireLaws, !QtSocket, !QtSocketLaws}.
#[local] Set Default Proof Using "Type*".

(** The frames a handler sends on its session. *)
Definition session_frames (out : list action) : list (Z * bytes) :=
  omap (λ a, match a with ChatLogic.Sent id j => Some (id, json_dump j) | _ => None end) out.

Lemma code_range e : - 2 ^ 31 <= CommonErrCode_code e <= int_max.
Proof. destruct e; unfold int_max; cbn; lia. Qed.

Lemma success_code e : CommonErrCode_code e = SUCCESS → e = ERR_SUCCESS.
Proof. by destruct e. Qed.

(** A reply as the client's handler sees it. *)
Lemma with_answer_reply o e bad err ok :
  client_reads (JObject o) → assoc (§ "error") o = Some (jcode e) →
  with_answer (json_dump (JObject o)) bad err ok =
    if CommonErrCode_code e =? SUCCESS then ok (client_object (JObject o)) else err (CommonErrCode_code e) (client_object (JObject o)).
Proof.
  intros Hr He. unfold with_answer, client_reads in *. rewrite Hr.
  change (object_of (to_client (JObject o))) with (client_object (JObject o)).
  rewrite contains_client, He, bool_decide_eq_true_2 by done. cbn [negb]. rewrite value_client, He. cbn [fmap option_fmap option_map default from_option id].
  pose proof (code_range e). assert (toInt 0 (to_client (jcode e)) = CommonErrCode_code e) as -> by (by apply (toInt_jnum 0)). by destruct (_ =? SUCCESS).
Qed.

Lemma stored_id weight d uid target tid text client mid seq :
  tables_ok weight d → next_id d <= int64_max → text_stored weight d uid target tid text client mid seq → - 2 ^ 63 <= mid <= int64_max.
Proof.
  intros Ht Hn (m & Hm & _). destruct (t_inv _ _ Ht) as (_ & _ & _ & (_ & Hnext & _)).
  destruct (decide (mid <= 0)) as [Hle |]; [by destruct (t_ids _ _ Ht _ Hle); congruence |].
  destruct (decide (next_id d <= mid)) as [Hle |]; [by destruct (Hnext _ Hle) as (? & _); congruence | lia].
Qed.

Lemma text_message_stored_fields weight (w w' : world) root rsp notices :
  text_answer weight w root w' rsp notices → next_id (g_db w') <= int64_max → client_reads rsp →
  ∃ error client mid at_, handleTextChatMsgRsp (json_dump rsp) = [sig_text_msg_rsp_forward error client mid at_] ∧
    (error = SUCCESS → ∃ req tid seq, parse_text root = Some req ∧ ParseJsonId (tr_thread req) = Some tid ∧
       text_stored weight (g_db w') (g_uid w) (tr_target req) tid (tr_text req) (tr_client req) mid seq).
Proof.
  intros Ha Hn Hr. destruct (ta_reply _ _ _ _ _ _ Ha) as (o & e & -> & He). unfold handleTextChatMsgRsp.
  rewrite (with_answer_reply o e) by done. destruct (Z.eqb_spec (CommonErrCode_code e) SUCCESS) as [Es | Es]; do 4 eexists; (split; [reflexivity |]).
  - intros _. apply success_code in Es as ->.
    destruct (ta_stored _ _ _ _ _ _ Ha He) as (req & tid & mid & seq & Hp & Ht & Hm & _ & Hs & _).
    exists req, tid, seq. split_and!; try done. cbn [field] in Hm. rewrite value_client, Hm. cbn [fmap option_fmap option_map default from_option id].
    rewrite JsonId_jid; [done |]. eapply stored_id; [apply Ha | done | exact Hs].
  - done.
Qed.

(** Only a success makes the outbox confirm a text. *)
Lemma outbox_confirms_success retry_initial retry_max now error client mid created disp clock client' mid' created' :
  ToStore (ReqConfirmText clock client' mid' created') ∈ (slot_text_msg_rsp retry_initial retry_max now error client mid created disp).2 →
  error = SUCCESS ∧ mid' = mid.
Proof.
  unfold slot_text_msg_rsp. destruct (o_entries disp !! client) as [rt |]; [| by intros ?%elem_of_nil].
  destruct (negb _); [by intros ?%elem_of_nil |].
  destruct (Z.eqb_spec error (CommonErrCode_code ERR_SUCCESS)) as [-> |].
  - cbn. rewrite list_elem_of_singleton. by intros [= _ _ -> _].
  - destruct (error =? _); [| by intros ?%elem_of_nil]. cbn. by rewrite list_elem_of_singleton.
Qed.

Lemma notices_silent weight (w w' : world) root rsp notices :
  text_answer weight w root w' rsp notices → session_frames notices = [].
Proof.
  intros Ha. destruct notices as [| a l]; [done |]. pose proof (ta_order _ _ _ _ _ _ Ha ltac:(done)) as He.
  destruct (ta_stored _ _ _ _ _ _ Ha He) as (req & tid & mid & seq & _ & _ & _ & _ & _ & Hall).
  clear - Hall. revert Hall. generalize (a :: l). intros k Hall. induction Hall as [| b k Hb Hk IH]; [done |]. by destruct Hb.
Qed.

(** One frame, in pieces, is handled once. *)
Lemma fed_one now self chunks (c : channel) id body :
  reader_wf (t_reader c) → unread (t_reader c) = [] → concat chunks = concat [SendNode body id] → server_sends (id, body) →
  (feed now self chunks c).2 = (handleMsg now self id body c).2.
Proof.
  intros Hw Hu Hc Hs. destruct (feed_spec now self chunks c) as (m & r & E & F & I & W & ->); [done | rewrite Hu; apply incomplete_nil |].
  rewrite Hu, Hc in E. cbn [app concat] in E. rewrite app_nil_r in E. destruct (SendNode_framed (id, body) Hs) as [Ef Hf]. cbn [fst snd] in Ef.
  rewrite Ef in E. destruct (parse_unique 2 [(id, body)] m [] (unread r)) as [<- _]; [by constructor | done | apply incomplete_nil | done | |].
  { cbn [fmap list_fmap concat]. by rewrite !app_nil_r. }
  cbn. unfold keep, andThen, nothing. cbn. destruct (handleMsg now self id body c). cbn. apply app_nil_r.
Qed.

Context (weight : bytes → bytes) (deadlock_retries : nat) (self_name max_image max_file : bytes) (now self : Z).

End link.

(** ** A concrete exchange *)

Definition chat_run (root : option json) : option unit * world * tape :=
  DealChatTextMsg demo_weight 2 (§ "chat1") (§ "now") root (demo_world demo_db 1) [].

Definition chat_reply : json :=
  match g_out (chat_run demo_text_request).1.2 with ChatLogic.Sent _ j :: _ => j | _ => JNull end.

(** The libraries on the one request and the one reply. *)
#[local] Instance chat_json : JsonLib := {| json_parse _ := demo_text_request; json_dump _ := § "{reply}" |}.
#[local] Instance chat_text : QtText := {|
  fromJson _ := Some (@to_client demo_wire chat_reply); toJson _ := § "{}"; toULongLong _ := None |}.

