(* ===== verification/FileChannel.v ===== *)
(** * The connection to the ResourceServer (client/llfcchat/src/net/filetcpmgr.cpp)

    [FileTcpMgr]: the slots of the socket's signals and of its two timers, the
    login (requests 1501 and 1502), the gate in front of every other frame and
    the reconnection with growing delays. Frames carry an identifier of 16
    bits and a length of 32 bits. The transfer engine (TransferEngine.v) is
    called through the outputs, and what it sends comes back as calls of
    [slot_send_data]; the avatar frames are handed on (AvatarClient.v). *)

From S2P Require Import Prelude ResourceWire ProtocolIds JsonFields ClientSync ResourceTransfer TransferEngine ResourceCodec ClientSocket ClientHandlers.

(** The signals, the calls of the engine, what is done to the socket. *)
Inductive output :=
  | sig_con_success (bsuccess : bool)
  | sig_resource_login_success
  | sig_resource_login_failed
  | sig_resource_token_invalid
  | EngineAuthenticated              (* [OnConnectionAuthenticated] *)
  | EngineDown                       (* [OnConnectionDown] *)
  | EngineReset                      (* [Reset] *)
  | EngineFrame (id : Z) (payload : bytes)
  | AvatarFrame (id : Z) (payload : bytes)
  | Queued (id : Z) (data : bytes)
  | Wrote (b : bytes)
  | Aborted
  | Closed
  | ConnectTo (host : bytes) (port : Z).

Section channel.
(** [QString::toUInt] and the values of config.ini. *)
Context `{!QtSocket, !QtText} (toUInt : bytes → Z).
Context (reconnect_initial_ms reconnect_max_ms high_watermark : Z).

(** ** State *)

Record channel := Channel {
  f_sock : sock;
  f_host : bytes;
  f_port : Z;
  f_reader : reader;
  f_q : sendq;
  f_auth : bool;              (* [_authenticated] *)
  f_manual : bool;            (* [_manual_close] *)
  f_timer : option Z;         (* [_reconnect_timer]: its delay while it runs *)
  f_attempt : Z;              (* [_reconnect_attempt] *)
  f_auth_timer : bool;        (* [_auth_timer] runs *)
  f_uid : Z;
  f_token : bytes;
  f_generation : Z;           (* [_login_generation] *)
}.

Definition FileTcpMgr (s : sock) : channel := Channel s [] 0 empty_reader empty_queue false false None 0 false 0 [] 0.

Definition with_sock (x : sock) (c : channel) : channel :=
  Channel x (f_host c) (f_port c) (f_reader c) (f_q c) (f_auth c) (f_manual c) (f_timer c) (f_attempt c) (f_auth_timer c)
    (f_uid c) (f_token c) (f_generation c).
Definition with_buffers (r : reader) (q : sendq) (c : channel) : channel :=
  Channel (f_sock c) (f_host c) (f_port c) r q (f_auth c) (f_manual c) (f_timer c) (f_attempt c) (f_auth_timer c)
    (f_uid c) (f_token c) (f_generation c).
Definition with_reader (r : reader) (c : channel) : channel := with_buffers r (f_q c) c.
Definition with_q (q : sendq) (c : channel) : channel := with_buffers (f_reader c) q c.
Definition with_auth (x : bool) (c : channel) : channel :=
  Channel (f_sock c) (f_host c) (f_port c) (f_reader c) (f_q c) x (f_manual c) (f_timer c) (f_attempt c) (f_auth_timer c)
    (f_uid c) (f_token c) (f_generation c).
Definition with_auth_timer (x : bool) (c : channel) : channel :=
  Channel (f_sock c) (f_host c) (f_port c) (f_reader c) (f_q c) (f_auth c) (f_manual c) (f_timer c) (f_attempt c) x
    (f_uid c) (f_token c) (f_generation c).
Definition with_reconnect (manual : bool) (timer : option Z) (attempt : Z) (c : channel) : channel :=
  Channel (f_sock c) (f_host c) (f_port c) (f_reader c) (f_q c) (f_auth c) manual timer attempt (f_auth_timer c)
    (f_uid c) (f_token c) (f_generation c).
Definition with_target (host : bytes) (port uid : Z) (token : bytes) (generation : Z) (c : channel) : channel :=
  Channel (f_sock c) host port (f_reader c) (f_q c) (f_auth c) (f_manual c) (f_timer c) (f_attempt c) (f_auth_timer c)
    uid token generation.

Abbreviation slot := (channel → channel * list output).

Definition emit (o : output) : slot := λ c, (c, [o]).
Definition nothing : slot := λ c, (c, []).
Definition update (f : channel → channel) : slot := λ c, (f c, []).
Definition when (b : channel → bool) (f : slot) : slot := λ c, if b c then f c else (c, []).

Definition andThen (f g : slot) : slot := λ c,
  let '(c, o1) := f c in
  let '(c, o2) := g c in
  (c, o1 ++ o2).

(** ** Reconnection *)

(** The delay doubles with each attempt, up to the maximum. *)
Fixpoint backoff (n : nat) (delay : Z) : Z :=
  match n with
  | O => delay
  | S n => let delay := delay * 2 in if reconnect_max_ms <=? delay then reconnect_max_ms else backoff n delay
  end.

Definition reconnect_delay (attempt : Z) : Z :=
  Z.min (backoff (Z.to_nat (Z.min attempt 30)) reconnect_initial_ms) reconnect_max_ms.

Definition scheduleReconnect : slot := λ c,
  if f_manual c || bool_decide (is_Some (f_timer c)) then (c, [])
  else (with_reconnect (f_manual c) (Some (s32 (reconnect_delay (f_attempt c)))) (f_attempt c + 1) c, []).

(** The receive and the send buffers, the login and its timer. *)
Definition reset_buffers (c : channel) : channel := with_auth_timer false (with_auth false (with_buffers empty_reader empty_queue c)).

Definition on_disconnected : slot := λ c,
  let was_authenticated := f_auth c in
  andThen (emit EngineDown)
    (when (λ c, negb (f_manual c))
       (andThen (if was_authenticated then nothing else emit (sig_con_success false)) scheduleReconnect))
    (reset_buffers c).

(** [_socket.abort()], which may emit [disconnected]. *)
Definition abort : slot := λ c,
  let '(emitted, s) := sk_abort (f_sock c) in
  andThen (emit Aborted) (if emitted then on_disconnected else nothing) (with_sock s c).

Definition resetConnection : slot := λ c, andThen abort (emit EngineDown) (reset_buffers c).

Definition reset_and_reconnect : slot := andThen resetConnection scheduleReconnect.

(** [sig_request_reconnect] of the engine: no answer for too long. *)
Definition on_request_reconnect : slot :=
  when (λ c, negb (f_manual c))
    (andThen (update (with_auth false)) (andThen (emit EngineDown) (andThen abort scheduleReconnect))).

Definition on_error (e : SocketError) : slot := λ c,
  if f_manual c then (c, [])
  else
    let first_connect_fail := match e with ConnectionRefusedError | HostNotFoundError => true | _ => false end in
    andThen (if first_connect_fail && negb (f_auth c) then emit (sig_con_success false) else nothing) reset_and_reconnect c.

Definition on_auth_timeout : slot := λ c,
  if f_manual c || f_auth c then (with_auth_timer false c, []) else reset_and_reconnect (with_auth_timer false c).

(** ** Sending *)

Definition send_queue_limit : Z := 64 * 1024 * 1024.

Definition after_write (r : sock * sendq * bytes * bool) : slot := λ c,
  let '(s, q, w, failed) := r in
  andThen (emit (Wrote w)) (if failed then reset_and_reconnect else nothing) (with_q q (with_sock s c)).

Definition tryDequeueSend : slot := λ c, after_write (ClientSocket.tryDequeueSend high_watermark (f_q c) (f_sock c)) c.
Definition flushPendingSuffix : slot := λ c, after_write (ClientSocket.flushPendingSuffix (f_q c) (f_sock c)) c.
Definition on_bytesWritten : slot := andThen flushPendingSuffix tryDequeueSend.

Definition LOGIN : Z := MsgId_code MSG_RESOURCE_LOGIN_REQ.

(** An identifier of 16 bits and a length of 32. *)
Definition block (id : Z) (data : bytes) : bytes := frame_head 4 (u16 id) (u32 (zlen data)) ++ data.

(** Before the login only its own frame may pass. *)
Definition slot_send_data (id : Z) (data : bytes) : slot := λ c,
  if negb (f_auth c) && negb (id =? LOGIN) then (c, [])
  else
    let b := block id data in
    if send_queue_limit <? sq_bytes (f_q c) + zlen b then reset_and_reconnect c
    else andThen (emit (Queued id data)) tryDequeueSend (with_q (enqueue b (f_q c)) c).

(** ** The login *)

Definition login_failed : slot := andThen (emit sig_resource_login_failed) (emit EngineDown).

Definition sendResourceLogin : slot := λ c,
  if (f_uid c <=? 0) || bool_decide (f_token c = []) then login_failed c
  else
    andThen (slot_send_data LOGIN (toJson [(§"uid", QNumber (f_uid c)); (§"token", QString (f_token c))]))
      (update (with_auth_timer true)) c.

Definition on_connected : slot := λ c, sendResourceLogin (with_auth_timer false (with_auth false c)).

Definition TOKEN_INVALID : Z := CommonErrCode_code ERR_TOKEN_INVALID.

Definition handleResourceLoginRsp (data : bytes) : slot := λ c,
  match fromJson data with
  | Some (QObject o) =>
      let c := with_auth_timer false c in
      let err := if contains o §"error" then toInt 0 (value o §"error") else CLIENT_ERR_JSON in
      if err =? TOKEN_INVALID then emit sig_resource_token_invalid (with_auth false c)
      else if negb (err =? SUCCESS) then login_failed (with_auth false c)
      else andThen (emit sig_resource_login_success) (emit EngineAuthenticated) (with_auth true c)
  | _ => login_failed (with_auth false c)
  end.

(** ** Receiving *)

Definition engine_answers : list MsgId :=
  [MSG_RESOURCE_CHUNK_UPLOAD_RSP; MSG_RESOURCE_UPLOAD_PROGRESS_RSP; MSG_RESOURCE_DOWN_INFO_RSP; MSG_RESOURCE_CHUNK_DOWN_RSP;
   MSG_RESOURCE_INSTANT_PROOF_RSP].

(** The table of [initHandlers]. *)
Definition handleMsg (id : Z) (data : bytes) : slot :=
  if id =? MsgId_code MSG_RESOURCE_LOGIN_RSP then handleResourceLoginRsp data
  else if bool_decide (id ∈ MsgId_code <$> engine_answers) then emit (EngineFrame id data)
  else if (id =? MsgId_code MSG_UPLOAD_HEAD_ICON_RSP) || (id =? MsgId_code MSG_DOWN_LOAD_FILE_RSP) then emit (AvatarFrame id data)
  else nothing.

Inductive head_result := HeadMissing | HeadBad | HeadOk (r : reader).

(** A head is checked before its bytes are consumed. *)
Definition next_head (r : reader) : head_result :=
  if rx_pending r then HeadOk r
  else if zlen (rx_buffer r) <? 6 then HeadMissing
  else
    let ty := head_type (rx_buffer r) in
    let len := head_len 4 (rx_buffer r) in
    if (len =? 0) || (kMaxFrameBody <? len) || (ty =? 0) || (kMaxMsgId <? ty) then HeadBad
    else HeadOk (Reader (drop 6 (rx_buffer r)) false ty len).

(** The loop of the slot of [readyRead]; each turn handles at least the six
    bytes of a head. *)
Fixpoint receive (fuel : nat) : slot := λ c,
  match fuel with
  | O => (c, [])
  | S fuel =>
      match next_head (f_reader c) with
      | HeadMissing => (c, [])
      | HeadBad => resetConnection c
      | HeadOk r =>
          if zlen (rx_buffer r) <? rx_len r then (with_reader (Reader (rx_buffer r) true (rx_type r) (rx_len r)) c, [])
          else
            andThen (handleMsg (rx_type r) (ztake (rx_len r) (rx_buffer r))) (receive fuel)
              (with_reader (Reader (drop (Z.to_nat (rx_len r)) (rx_buffer r)) false (rx_type r) (rx_len r)) c)
      end
  end.

Definition append (data : bytes) (r : reader) : reader := Reader (rx_buffer r ++ data) (rx_pending r) (rx_type r) (rx_len r).

Definition on_readyRead (data : bytes) : slot := λ c,
  receive (7 + length (rx_buffer (f_reader c) ++ data)) (with_reader (append data (f_reader c)) c).

(** ** Connecting and closing *)

Definition connectToHost : slot := λ c,
  (with_sock (sk_connectToHost (f_host c) (f_port c) (f_sock c)) c, [ConnectTo (f_host c) (f_port c)]).

(** Everything of the user is forgotten before the socket closes. *)
Definition slot_tcp_close : slot := λ c,
  let c := with_target [] 0 0 [] (f_generation c + 1) (reset_buffers (with_reconnect true None (f_attempt c) c)) in
  let '(emitted, s) := sk_close (f_sock c) in
  andThen (emit EngineReset) (andThen (emit Closed) (if emitted then on_disconnected else nothing)) (with_sock s c).

Definition socket_live (c : channel) : bool :=
  bool_decide (sk_state (f_sock c) = ConnectedState) || bool_decide (sk_state (f_sock c) = ConnectingState).

Definition slot_tcp_connect (si : ServerInfo) : slot := λ c,
  let uid := sv_uid si in
  let host := sv_res_host si in
  let port := u16 (toUInt (sv_res_port si)) in
  let same_target := (uid =? f_uid c) && bool_decide (host = f_host c) && (port =? f_port c) in
  if same_target && socket_live c then (c, [])
  else
    andThen (if (0 <? uid) && negb (uid =? f_uid c) && (0 <? f_uid c) then slot_tcp_close else nothing)
      (andThen
         (update (λ c, with_auth_timer true (with_target host port uid (sv_token si) (f_generation c)
                         (with_reconnect false (f_timer c) 0 c))))
         (andThen abort connectToHost)) c.

Definition slot_reconnect_timeout : slot := λ c,
  let c := with_reconnect (f_manual c) None (f_attempt c) c in
  if f_manual c || bool_decide (f_host c = []) || (f_port c =? 0) then (c, []) else andThen abort connectToHost c.

(** The owner and the generation a snapshot of the engine is sent with. *)
Definition stamp (c : channel) : Z * Z := (f_uid c, f_generation c).

(** ** Runs *)

Inductive event :=
  | EvConnected
  | EvReadyRead (data : bytes)
  | EvError (e : SocketError)
  | EvDisconnected
  | EvBytesWritten
  | EvReconnectTimeout
  | EvAuthTimeout
  | EvRequestReconnect
  | EvClose
  | EvConnect (si : ServerInfo)
  | EvSend (id : Z) (data : bytes).

Definition on_event (e : event) : slot :=
  match e with
  | EvConnected => on_connected
  | EvReadyRead data => on_readyRead data
  | EvError e => on_error e
  | EvDisconnected => on_disconnected
  | EvBytesWritten => on_bytesWritten
  | EvReconnectTimeout => slot_reconnect_timeout
  | EvAuthTimeout => on_auth_timeout
  | EvRequestReconnect => on_request_reconnect
  | EvClose => slot_tcp_close
  | EvConnect si => slot_tcp_connect si
  | EvSend id data => slot_send_data id data
  end.

(** Between two events the socket does what it does. *)
Fixpoint run (evs : list (sock * event)) : slot := λ c,
  match evs with
  | [] => (c, [])
  | (s, e) :: evs => andThen (on_event e) (run evs) (with_sock s c)
  end.

End channel.
