(* ===== verification/FileChannelProofs.v ===== *)
(** * What the connection to the ResourceServer guarantees

    About FileChannel.v: no frame of the transfer engine or of the avatars is
    sent on a connection before its login has succeeded, the delays of the
    reconnection, and the number that tells sessions apart. *)

From S2P Require Import Prelude ResourceWire ProtocolIds JsonFields ClientSync ResourceTransfer TransferEngine ResourceCodec ClientSocket ClientHandlers FileChannel.

#[local] Arguments zlen {_} _ : simpl never.

Section proofs.
Context `{!QtSocket, !QtSocketLaws, !QtText} (toUInt : bytes → Z).
Context (reconnect_initial_ms reconnect_max_ms high_watermark : Z).
#[local] Set Default Proof Using "Type*".
#[local] Abbreviation slot := (channel → channel * list output).
#[local] Abbreviation scheduleReconnect := (scheduleReconnect reconnect_initial_ms reconnect_max_ms).
#[local] Abbreviation on_disconnected := (on_disconnected reconnect_initial_ms reconnect_max_ms).
#[local] Abbreviation abort := (abort reconnect_initial_ms reconnect_max_ms).
#[local] Abbreviation resetConnection := (resetConnection reconnect_initial_ms reconnect_max_ms).
#[local] Abbreviation reset_and_reconnect := (reset_and_reconnect reconnect_initial_ms reconnect_max_ms).
#[local] Abbreviation slot_send_data := (slot_send_data reconnect_initial_ms reconnect_max_ms high_watermark).
#[local] Abbreviation on_event := (on_event toUInt reconnect_initial_ms reconnect_max_ms high_watermark).
#[local] Abbreviation run := (run toUInt reconnect_initial_ms reconnect_max_ms high_watermark).

(** ** The gate *)

(** Whether the login has succeeded on the present connection, along the
    outputs; [None] when a frame other than the login passes before. *)
Fixpoint gate (b : bool) (l : list output) : option bool :=
  match l with
  | [] => Some b
  | o :: l =>
      match o with
      | sig_resource_login_success => gate true l
      | sig_resource_login_failed | sig_resource_token_invalid | EngineDown | Aborted | Closed | ConnectTo _ _ => gate false l
      | Queued id _ => if (id =? LOGIN) || b then gate b l else None
      | _ => gate b l
      end
  end.

Lemma gate_app b l k : gate b (l ++ k) = gate b l ≫= λ b', gate b' k.
Proof. revert b. induction l as [| o l IH]; intros b; [done |]. destruct o; cbn; try apply IH. by destruct (_ || b). Qed.

(** A login is only remembered on a connected socket that has seen it. *)
Definition safe (b : bool) (c : channel) : Prop := f_auth c = true → b = true ∧ sk_state (f_sock c) = ConnectedState.

Definition gated (b : bool) (x : channel * list output) : Prop := ∃ b', gate b x.2 = Some b' ∧ safe b' x.1.

Lemma gated_andThen f g b c : gated b (f c) → (∀ b', safe b' (f c).1 → gated b' (g (f c).1)) → gated b (andThen f g c).
Proof.
  unfold gated, andThen. destruct (f c) as [c1 o1]. cbn [fst snd]. intros (b1 & E1 & S1) Hg. destruct (Hg b1 S1) as (b2 & E2 & S2).
  destruct (g c1) as [c2 o2]. exists b2. cbn [fst snd] in *. by rewrite gate_app, E1.
Qed.

Lemma gated_emit o b c : (∀ b, gate b [o] = Some b) → safe b c → gated b (emit o c).
Proof. intros Ho Hs. exists b. by rewrite Ho. Qed.

Lemma safe_unauth b c : f_auth c = false → safe b c.
Proof. intros E E'. congruence. Qed.

Lemma gated_down b c : f_auth c = false → gated b (emit EngineDown c).
Proof. intros Ha. exists false. split; [done | by apply safe_unauth]. Qed.

Lemma gated_nothing b c : safe b c → gated b (nothing c).
Proof. intros Hs. by exists b. Qed.

Lemma gated_when p f b c : safe b c → gated b (f c) → gated b (when p f c).
Proof. intros Hs Hf. unfold when. destruct (p c); [done | by exists b]. Qed.

Lemma gated_schedule b c : safe b c → gated b (scheduleReconnect c).
Proof. intros Hs. unfold scheduleReconnect. destruct (_ || _); by exists b. Qed.

Lemma schedule_auth c : f_auth (scheduleReconnect c).1 = f_auth c.
Proof. unfold scheduleReconnect. by destruct (_ || _). Qed.

Lemma gated_disconnected b c : gated b (on_disconnected c) ∧ f_auth (on_disconnected c).1 = false.
Proof.
  unfold on_disconnected. set (c1 := reset_buffers c). assert (Hs : ∀ b, safe b c1) by (intros b'; by apply safe_unauth). split.
  - apply gated_andThen; [by apply gated_down |]. intros b' Hb. apply gated_when; [by apply safe_unauth |].
    apply gated_andThen; [by destruct (f_auth c); [apply gated_nothing | apply gated_emit] |].
    intros b'' Hb'. by apply gated_schedule.
  - unfold andThen, when, emit. cbn [fst snd]. destruct (negb (f_manual c1)); [| done].
    assert (E : ∀ f : slot, f c1 = (c1, (f c1).2) → f_auth (andThen f scheduleReconnect c1).1 = false).
    { intros f Ef. unfold andThen. rewrite Ef. pose proof (schedule_auth c1) as Ea. by destruct (scheduleReconnect c1). }
    unfold andThen in E. destruct (f_auth c).
    + specialize (E nothing eq_refl). unfold nothing in *. destruct (scheduleReconnect c1). exact E.
    + specialize (E (emit (sig_con_success false)) eq_refl). unfold emit in *. destruct (scheduleReconnect c1). exact E.
Qed.

Lemma gated_abort b c : safe b c → gated b (abort c) ∧ f_auth (abort c).1 = false.
Proof.
  intros Hs. unfold abort. pose proof (abort_connected (f_sock c)) as Hc. destruct (sk_abort (f_sock c)) as [e s]. cbn in Hc.
  set (c1 := with_sock s c). destruct e.
  - destruct (gated_disconnected false c1) as [(b' & Hb & Hb') Ha]. unfold andThen, emit. unfold gated.
    destruct (on_disconnected c1) as [c2 o2]. split; [exists b'; by split | exact Ha].
  - assert (E : f_auth c = false).
    { destruct (f_auth c) eqn:E; [| done]. destruct (Hs E) as [_ Es]. by specialize (Hc Es). }
    split; [| done]. exists false. split; [done |]. by apply safe_unauth.
Qed.

Lemma gated_reset b c : gated b (resetConnection c).
Proof.
  unfold resetConnection. assert (Hs : safe b (reset_buffers c)) by by apply safe_unauth.
  destruct (gated_abort b _ Hs) as [Hg Ha]. apply gated_andThen; [exact Hg |]. intros b' _. by apply gated_down.
Qed.

Lemma gated_reset_and_reconnect b c : gated b (reset_and_reconnect c).
Proof. apply gated_andThen; [apply gated_reset |]. intros b' Hb. by apply gated_schedule. Qed.

Lemma gated_after_write (r : sock * sendq * bytes * bool) b c :
  safe b c → sk_state r.1.1.1 = sk_state (f_sock c) → gated b (after_write reconnect_initial_ms reconnect_max_ms r c).
Proof.
  destruct r as [[[s q] w] failed]. cbn [fst]. intros Hs Es. unfold after_write. apply gated_andThen.
  - apply gated_emit; [done |]. intros Ha. destruct (Hs Ha) as [-> E]. split; [done |]. cbn. congruence.
  - intros b' Hb. destruct failed; [apply gated_reset_and_reconnect | by apply gated_nothing].
Qed.

Lemma gated_tryDequeue b c : safe b c → gated b (tryDequeueSend reconnect_initial_ms reconnect_max_ms high_watermark c).
Proof.
  intros Hs. unfold tryDequeueSend. destruct (ClientSocket.tryDequeueSend _ _ _) as [[[s q] w] f] eqn:E. apply gated_after_write; [done |].
  by eapply dequeue_state.
Qed.

Lemma gated_flush b c : safe b c → gated b (flushPendingSuffix reconnect_initial_ms reconnect_max_ms c).
Proof.
  intros Hs. unfold flushPendingSuffix. destruct (ClientSocket.flushPendingSuffix _ _) as [[[s q] w] f] eqn:E. apply gated_after_write; [done |].
  by eapply flush_state.
Qed.

Lemma gated_send id data b c : safe b c → gated b (slot_send_data id data c).
Proof.
  intros Hs. unfold slot_send_data. destruct (negb (f_auth c) && negb (id =? LOGIN)) eqn:Eg; [by exists b |].
  destruct (_ <? _); [apply gated_reset_and_reconnect |]. apply gated_andThen.
  - exists b. split; [| exact Hs]. cbn [gate emit snd]. destruct (id =? LOGIN); [done |]. cbn [negb orb] in Eg |- *. rewrite andb_true_r in Eg. apply negb_false_iff in Eg.
    by destruct (Hs Eg) as [-> _]. 
  - intros b' Hb. by apply gated_tryDequeue.
Qed.

Lemma gated_login_failed b c : f_auth c = false → gated b (login_failed c).
Proof. intros Ha. exists false. split; [done | by apply safe_unauth]. Qed.

Lemma gated_connected b c : gated b (on_connected reconnect_initial_ms reconnect_max_ms high_watermark c).
Proof.
  unfold on_connected, sendResourceLogin. cbv zeta. set (c1 := with_auth_timer false (with_auth false c)).
  assert (Hs : safe b c1) by by apply safe_unauth. destruct (_ || _); [by apply gated_login_failed |].
  apply gated_andThen; [by apply gated_send |]. intros b' Hb. by exists b'.
Qed.

(** The answer to the login, and every other frame, on a connected socket. *)
Lemma gated_handleMsg id data b c :
  safe b c → sk_state (f_sock c) = ConnectedState →
  gated b (handleMsg id data c) ∧ sk_state (f_sock (handleMsg id data c).1) = ConnectedState.
Proof.
  intros Hs Hc. unfold handleMsg. destruct (id =? _).
  - unfold handleResourceLoginRsp. assert (Hl : gated b (login_failed (with_auth false c)) ∧
      sk_state (f_sock (login_failed (with_auth false c)).1) = ConnectedState) by by split; [apply gated_login_failed |].
    destruct (fromJson data) as [[| | | | | | | o] |]; try exact Hl. cbv zeta. destruct (_ =? TOKEN_INVALID).
    + split; [| done]. exists false. split; [done | by apply safe_unauth].
    + destruct (negb _); [split; [by apply gated_login_failed | done] |]. split; [| done]. exists true. split; [done |]. by intros _.
  - destruct (bool_decide _); [split; [by apply gated_emit | done] |].
    destruct (_ || _); (split; [| done]); [by apply gated_emit | by apply gated_nothing].
Qed.

Lemma gated_receive fuel b c :
  safe b c → sk_state (f_sock c) = ConnectedState → gated b (receive reconnect_initial_ms reconnect_max_ms fuel c).
Proof.
  revert b c. induction fuel as [| fuel IH]; intros b c Hs Hc; [by apply gated_nothing |]. cbn [receive].
  destruct (next_head (f_reader c)) as [| | r]; [by apply gated_nothing | apply gated_reset |].
  destruct (_ <? _); [by exists b |]. set (c1 := with_reader _ c).
  destruct (gated_handleMsg (rx_type r) (ztake (rx_len r) (rx_buffer r)) b c1) as [Hg Hst]; [done | done |].
  apply gated_andThen; [done |]. intros b' Hb. by apply IH.
Qed.

Lemma gated_connectToHost b c : f_auth c = false → gated b (connectToHost c).
Proof. intros Ha. exists false. split; [done | by apply safe_unauth]. Qed.

Lemma gated_abort_connect b c : safe b c → gated b (andThen abort connectToHost c).
Proof.
  intros Hs. destruct (gated_abort b c Hs) as [Hg Ha]. unfold gated, andThen. revert Hg Ha. generalize (abort c) as x. intros [c1 o1] (b1 & E1 & S1) Ha.
  exists false. cbn [fst snd] in *. split; [| exact (safe_unauth false (connectToHost c1).1 Ha)].
  change (gate b (o1 ++ [ConnectTo (f_host c1) (f_port c1)]) = Some false). by rewrite gate_app, E1.
Qed.

Lemma gated_close b c : gated b (slot_tcp_close reconnect_initial_ms reconnect_max_ms c).
Proof.
  unfold slot_tcp_close. cbv zeta. set (c1 := with_target _ _ _ _ _ _). destruct (sk_close _) as [e s].
  assert (Hs : safe b (with_sock s c1)) by by apply safe_unauth.
  apply gated_andThen; [by apply gated_emit |]. intros b1 Hb1. apply gated_andThen; [by exists false; split; [| apply safe_unauth] |].
  intros b2 Hb2. destruct e; [apply gated_disconnected | by apply gated_nothing].
Qed.

(** What Qt does to the socket between two events: it leaves the connected
    state by [disconnected] only, and has bytes to read only when connected. *)
Definition plausible_event (c : channel) (s : sock) (e : event) : Prop :=
  (f_auth c = true → sk_state s = ConnectedState ∨ e = EvDisconnected) ∧
  (∀ data, e = EvReadyRead data → sk_state s = ConnectedState).

Fixpoint plausible (evs : list (sock * event)) (c : channel) : Prop :=
  match evs with
  | [] => True
  | (s, e) :: evs => plausible_event c s e ∧ plausible evs (on_event e (with_sock s c)).1
  end.

Lemma gated_on_event e s b c : safe b c → plausible_event c s e → gated b (on_event e (with_sock s c)).
Proof.
  intros Hs [Hp Hr]. assert (Hne : e = EvDisconnected ∨ e ≠ EvDisconnected) by (destruct e; auto).
  destruct Hne as [-> | Hne]; [apply gated_disconnected |].
  assert (Hs' : safe b (with_sock s c)).
  { intros Ha. destruct (Hs Ha) as [-> _]. split; [done |]. by destruct (Hp Ha). }
  destruct e as [| data | e | | | | | | | si | id data]; cbn [FileChannel.on_event]; try done.
  - apply gated_connected.
  - apply gated_receive; [done |]. by eapply Hr.
  - unfold on_error. destruct (f_manual _); [by apply gated_nothing |].
    apply gated_andThen; [destruct (_ && _); [by apply gated_emit | by apply gated_nothing] |]. intros b' _. apply gated_reset_and_reconnect.
  - apply gated_andThen; [by apply gated_flush |]. intros b' Hb. by apply gated_tryDequeue.
  - unfold slot_reconnect_timeout. cbv zeta. destruct (_ || _ || _); [by apply gated_nothing |]. by apply gated_abort_connect.
  - unfold on_auth_timeout. destruct (_ || _); [by apply gated_nothing | apply gated_reset_and_reconnect].
  - unfold on_request_reconnect. apply gated_when; [done |].
    apply gated_andThen; [exists b; by split; [| apply safe_unauth] |]. intros b1 Hb1.
    apply gated_andThen; [by apply gated_down |]. intros b2 Hb2.
    apply gated_andThen; [by apply gated_abort |]. intros b3 Hb3. by apply gated_schedule.
  - apply gated_close.
  - unfold slot_tcp_connect. cbv zeta. destruct (_ && socket_live _); [by apply gated_nothing |].
    apply gated_andThen; [destruct (_ && _ && _); [apply gated_close | by apply gated_nothing] |]. intros b1 Hb1.
    apply gated_andThen; [exists b1; split; [done | exact Hb1] |]. intros b2 Hb2. by apply gated_abort_connect.
  - by apply gated_send.
Qed.

Lemma gated_run evs b c : safe b c → plausible evs c → gated b (run evs c).
Proof.
  revert b c. induction evs as [| [s e] evs IH]; intros b c Hs Hp; [by apply gated_nothing |]. destruct Hp as [He Hp]. cbn [FileChannel.run].
  apply (gated_andThen (on_event e) (run evs) b (with_sock s c)); [by apply gated_on_event |]. intros b' Hb. by apply IH.
Qed.

(** What ends a login: the connection is given up, or the server refuses. *)
Definition ends_login (o : output) : bool :=
  match o with
  | sig_resource_login_failed | sig_resource_token_invalid | EngineDown | Aborted | Closed | ConnectTo _ _ => true
  | _ => false
  end.

Lemma gate_true b l :
  gate b l = Some true →
  (b = true ∧ Forall (λ o, ends_login o = false) l) ∨
  ∃ l1 l2, l = l1 ++ sig_resource_login_success :: l2 ∧ Forall (λ o, ends_login o = false) l2.
Proof.
  revert b. induction l as [| o l IH]; intros b E; [left; by injection E |].
  assert (Hpast : ∀ l0, (∃ l1 l2, l0 = l1 ++ sig_resource_login_success :: l2 ∧ Forall (λ o, ends_login o = false) l2) →
    ∃ l1 l2, o :: l0 = l1 ++ sig_resource_login_success :: l2 ∧ Forall (λ o, ends_login o = false) l2).
  { intros l0 (l1 & l2 & -> & Hl). by exists (o :: l1), l2. }
  assert (Hgate : ∃ b', gate b' l = Some true ∧ (b' = true → ends_login o = false ∧ (o = sig_resource_login_success ∨ b = true))).
  { destruct o; cbn in E; try (by exists b; auto); try (by exists false); try (by exists true; auto).
    destruct (_ || _); [by exists b; auto | done]. }
  destruct Hgate as (b' & E' & Ho). destruct (IH b' E') as [[-> Hl] | Hl]; [| right; by apply Hpast].
  destruct (Ho eq_refl) as [He [-> | ->]]; [right; by exists [], l | left; by split; [| constructor]].
Qed.

(** A log that passes the gate has a login before each other frame. *)
Lemma gate_passed l1 id data l2 b' :
  gate false (l1 ++ Queued id data :: l2) = Some b' → id ≠ LOGIN →
  ∃ k1 k2, l1 = k1 ++ sig_resource_login_success :: k2 ∧ Forall (λ o, ends_login o = false) k2.
Proof.
  intros E Hid. rewrite gate_app in E. destruct (gate false l1) as [[] |] eqn:E1; [| | done].
  - by destruct (gate_true _ _ E1) as [[? _] | Hl].
  - cbn in E. by rewrite (proj2 (Z.eqb_neq _ _)) in E by done.
Qed.

(** C28: in any run of the connection to the ResourceServer a frame other than
    the login is queued only after the server has accepted the login, and
    since then the connection has been neither closed, aborted nor opened
    again, the login not refused and the engine not told that it is down. *)
Theorem frames_wait_for_login evs s l1 id data l2 :
  plausible evs (FileTcpMgr s) → (run evs (FileTcpMgr s)).2 = l1 ++ Queued id data :: l2 → id ≠ LOGIN →
  ∃ k1 k2, l1 = k1 ++ sig_resource_login_success :: k2 ∧ Forall (λ o, ends_login o = false) k2.
Proof.
  intros Hp E Hid. destruct (gated_run evs false (FileTcpMgr s)) as (b' & Eb & _); [by apply safe_unauth | done |].
  rewrite E in Eb. by eapply gate_passed.
Qed.

(** ** Reconnection *)

(** Target, user and generation stay, and the timer is at most started. *)
Definition steady (c c' : channel) : Prop :=
  f_manual c' = f_manual c ∧ f_host c' = f_host c ∧ f_port c' = f_port c ∧ stamp c' = stamp c ∧
  (f_timer c' = f_timer c ∧ f_attempt c' = f_attempt c ∨
   f_timer c = None ∧ f_timer c' = Some (s32 (reconnect_delay reconnect_initial_ms reconnect_max_ms (f_attempt c)))).

#[local] Instance steady_preorder : PreOrder steady.
Proof.
  split; [by repeat split; auto |]. intros c1 c2 c3 (M1 & Ho1 & P1 & S1 & T1) (M2 & Ho2 & P2 & S2 & T2).
  split; [congruence |]. split; [congruence |]. split; [congruence |]. split; [congruence |].
  destruct T1 as [[T1 A1] | [T1 T1']]; destruct T2 as [[T2 A2] | [T2 T2']]; try congruence.
  - left. split; congruence.
  - right. split; congruence.
  - right. split; congruence.
Qed.

Definition keeps (f : slot) : Prop := ∀ c, steady c (f c).1.

Lemma keeps_andThen f g : keeps f → keeps g → keeps (andThen f g).
Proof. intros Hf Hg c. unfold andThen. specialize (Hf c). destruct (f c) as [c1 o1]. specialize (Hg c1). destruct (g c1). by etrans. Qed.

Lemma keeps_emit o : keeps (emit o).
Proof. intros c. cbn. reflexivity. Qed.

Lemma keeps_schedule : keeps scheduleReconnect.
Proof.
  intros c. unfold scheduleReconnect. destruct (f_manual c) eqn:Em; [cbn; reflexivity |]. destruct (f_timer c) as [d |] eqn:Et; [cbn; reflexivity |].
  cbn. split; [by rewrite Em |]. repeat split. right. by rewrite Et.
Qed.

Lemma keeps_disconnected : keeps on_disconnected.
Proof.
  intros c. unfold on_disconnected. trans (reset_buffers c); [by repeat split; auto |].
  apply keeps_andThen; [apply keeps_emit |]. intros c1. unfold when. destruct (negb _); [| reflexivity].
  apply keeps_andThen; [| apply keeps_schedule]. by destruct (f_auth c); [intros c2; cbn; reflexivity | apply keeps_emit].
Qed.

Lemma keeps_abort : keeps abort.
Proof.
  intros c. unfold abort. destruct (sk_abort (f_sock c)) as [e s]. trans (with_sock s c); [by repeat split; auto |].
  apply keeps_andThen; [apply keeps_emit |]. destruct e; [apply keeps_disconnected | intros c1; cbn; reflexivity].
Qed.

Lemma keeps_reset : keeps resetConnection.
Proof.
  intros c. unfold resetConnection. trans (reset_buffers c); [by repeat split; auto |].
  apply keeps_andThen; [apply keeps_abort | apply keeps_emit].
Qed.

(** It ends with a running timer. *)
Definition retried (c : channel) (x : channel * list output) : Prop := steady c x.1 ∧ is_Some (f_timer x.1).

Lemma retried_schedule c : f_manual c = false → retried c (scheduleReconnect c).
Proof.
  intros Em. split; [apply keeps_schedule |]. unfold scheduleReconnect. rewrite Em. destruct (f_timer c) as [d |] eqn:E; cbn; [rewrite E |]; eauto.
Qed.

Lemma retried_from c c1 x : steady c c1 → retried c1 x → retried c x.
Proof. intros Hs [Hc Ht]. split; [by etrans | done]. Qed.

Lemma retried_then f g c :
  keeps f → (∀ c1, f_manual c1 = false → retried c1 (g c1)) → f_manual c = false → retried c (andThen f g c).
Proof.
  intros Hf Hg Em. unfold andThen. pose proof (Hf c) as Hc. destruct (f c) as [c1 o1]. cbn in Hc.
  assert (Em1 : f_manual c1 = false) by (destruct Hc as [-> _]; done). specialize (Hg c1 Em1). destruct (g c1) as [c2 o2].
  by apply (retried_from c c1).
Qed.

Lemma retried_reset c : f_manual c = false → retried c (reset_and_reconnect c).
Proof. intros Em. apply retried_then; [apply keeps_reset | apply retried_schedule | done]. Qed.

Lemma retried_disconnected c : f_manual c = false → retried c (on_disconnected c).
Proof.
  intros Em. unfold on_disconnected. apply (retried_from c (reset_buffers c)); [by repeat split; auto |].
  apply retried_then; [apply keeps_emit | | done]. intros c1 Em1. unfold when. rewrite Em1. cbn [negb].
  apply retried_then; [| apply retried_schedule | done]. by destruct (f_auth c); [intros c2; cbn; reflexivity | apply keeps_emit].
Qed.

(** The losses of a connection that the channel notices. *)
Definition loses (c : channel) (e : event) : Prop :=
  match e with
  | EvError _ | EvDisconnected | EvRequestReconnect => True
  | EvAuthTimeout => f_auth c = false
  | _ => False
  end.

Lemma retried_loss c e : f_manual c = false → loses c e → retried c (on_event e c).
Proof.
  intros Em Hl. destruct e as [| | e | | | | | | | |]; try done; cbn [FileChannel.on_event].
  - unfold on_error. rewrite Em. apply retried_then; [| apply retried_reset | done].
    by destruct (_ && _); [apply keeps_emit | intros c1; cbn; reflexivity].
  - by apply retried_disconnected.
  - cbn in Hl. unfold on_auth_timeout. rewrite Em, Hl. cbn [orb].
    apply (retried_from c (with_auth_timer false c)); [by repeat split; auto | by apply retried_reset].
  - unfold on_request_reconnect, when. rewrite Em. cbn [negb]. apply retried_then; [by repeat split; auto | | done].
    intros c1 Em1. apply retried_then; [apply keeps_emit | | done].
    intros c2 Em2. apply retried_then; [apply keeps_abort | apply retried_schedule | done].
Qed.

Lemma timeout_connects c :
  f_manual c = false → f_host c ≠ [] → f_port c ≠ 0 →
  ConnectTo (f_host c) (f_port c) ∈ (slot_reconnect_timeout reconnect_initial_ms reconnect_max_ms c).2.
Proof.
  intros Em Hh Hp. unfold slot_reconnect_timeout. cbv zeta. set (c1 := with_reconnect _ _ _ c).
  replace (f_manual c1 || _ || _) with false by (cbn; by rewrite Em, (bool_decide_eq_false_2 _ Hh), (proj2 (Z.eqb_neq _ _) Hp)).
  unfold andThen. pose proof (keeps_abort c1) as (_ & Eh & Ep & _). destruct (abort c1) as [c2 o]. cbn [fst snd connectToHost] in *.
  rewrite Eh, Ep. apply elem_of_app. right. by left.
Qed.

(** ** The generation of the login *)

Lemma keeps_reset_and_reconnect : keeps reset_and_reconnect.
Proof. apply keeps_andThen; [apply keeps_reset | apply keeps_schedule]. Qed.

Lemma keeps_nothing : keeps nothing.
Proof. intros c. cbn. reflexivity. Qed.

Lemma keeps_after_write r : keeps (after_write reconnect_initial_ms reconnect_max_ms r).
Proof.
  destruct r as [[[s q] w] failed]. intros c. unfold after_write. trans (with_q q (with_sock s c)); [by repeat split; auto |].
  apply keeps_andThen; [apply keeps_emit |]. destruct failed; [apply keeps_reset_and_reconnect | apply keeps_nothing].
Qed.

Lemma keeps_send id data : keeps (slot_send_data id data).
Proof.
  intros c. unfold slot_send_data. destruct (_ && _); [cbn; reflexivity |]. destruct (_ <? _); [apply keeps_reset_and_reconnect |].
  trans (with_q (enqueue (block id data) (f_q c)) c); [by repeat split; auto |].
  apply keeps_andThen; [apply keeps_emit | intros c1; apply keeps_after_write].
Qed.

Lemma keeps_connected : keeps (on_connected reconnect_initial_ms reconnect_max_ms high_watermark).
Proof.
  intros c. unfold on_connected, sendResourceLogin. set (c1 := with_auth_timer false (with_auth false c)).
  trans c1; [by repeat split; auto |]. destruct (_ || _); [apply keeps_andThen; apply keeps_emit |].
  apply keeps_andThen; [apply keeps_send | by repeat split; auto].
Qed.

Lemma keeps_handleMsg id data : keeps (handleMsg id data).
Proof.
  intros c. unfold handleMsg. destruct (id =? _).
  - unfold handleResourceLoginRsp. destruct (fromJson data) as [[| | | | | | | o] |]; try by repeat split; auto.
    cbv zeta. destruct (_ =? TOKEN_INVALID); [by repeat split; auto |]. destruct (negb _); by repeat split; auto.
  - destruct (bool_decide _); [apply keeps_emit |]. destruct (_ || _); [apply keeps_emit | apply keeps_nothing].
Qed.

Lemma keeps_receive fuel : keeps (receive reconnect_initial_ms reconnect_max_ms fuel).
Proof.
  induction fuel as [| fuel IH]; intros c; [cbn; reflexivity |]. cbn [receive]. destruct (next_head (f_reader c)) as [| | r].
  - cbn. reflexivity.
  - apply keeps_reset.
  - destruct (_ <? _); [by repeat split; auto |]. set (c1 := with_reader _ c). trans c1; [by repeat split; auto |].
    apply keeps_andThen; [apply keeps_handleMsg | exact IH].
Qed.

(** A generation has at most one user. *)
Definition one_user (c c' : channel) : Prop :=
  f_generation c <= f_generation c' ∧ (f_generation c = f_generation c' → 0 < f_uid c → f_uid c' = f_uid c).

#[local] Instance one_user_preorder : PreOrder one_user.
Proof.
  split; [split; [lia | done] |]. intros c1 c2 c3 [L1 U1] [L2 U2]. split; [lia |]. intros E Hu.
  assert (f_uid c2 = f_uid c1) by (apply U1; lia). rewrite U2; lia.
Qed.

Lemma one_user_steady c c' : steady c c' → one_user c c'.
Proof. intros (_ & _ & _ & Es & _). injection Es as Eu Eg. split; [lia | done]. Qed.

Lemma one_user_andThen f g c : one_user c (f c).1 → (∀ c1, one_user c1 (g c1).1) → one_user c (andThen f g c).1.
Proof. intros Hf Hg. unfold andThen. destruct (f c) as [c1 o1]. specialize (Hg c1). destruct (g c1). by trans c1. Qed.

Lemma one_user_close c : f_generation c < f_generation (slot_tcp_close reconnect_initial_ms reconnect_max_ms c).1 ∧
  f_uid (slot_tcp_close reconnect_initial_ms reconnect_max_ms c).1 = 0.
Proof.
  unfold slot_tcp_close. cbv zeta. set (c1 := with_target _ _ _ _ _ _). destruct (sk_close _) as [e s]. set (c2 := with_sock s c1).
  assert (Hk : steady c2 (andThen (emit EngineReset) (andThen (emit Closed) (if e then on_disconnected else nothing)) c2).1).
  { apply keeps_andThen; [apply keeps_emit |]. apply keeps_andThen; [apply keeps_emit |].
    destruct e; [apply keeps_disconnected | apply keeps_nothing]. }
  destruct Hk as (_ & _ & _ & Es & _). injection Es as -> ->. cbn. lia.
Qed.

Lemma one_user_abort_connect c : one_user c (andThen abort connectToHost c).1.
Proof. apply one_user_andThen; [apply one_user_steady, keeps_abort |]. intros c1. split; [cbn; lia | done]. Qed.

Lemma one_user_connect si c : 0 < sv_uid si → one_user c (slot_tcp_connect toUInt reconnect_initial_ms reconnect_max_ms si c).1.
Proof.
  intros Hu. unfold slot_tcp_connect. cbv zeta. destruct (_ && socket_live c); [reflexivity |].
  set (f := update _). unfold andThen at 1. set (g := if (_ : bool) then _ else nothing).
  assert (Hg : one_user c (g c).1 ∧ (0 < f_uid (g c).1 → f_uid (g c).1 = sv_uid si)).
  { subst g. apply Z.ltb_lt in Hu as Hu'. rewrite Hu'. cbn [andb]. destruct (sv_uid si =? f_uid c) eqn:Ee; cbn [negb andb].
    - apply Z.eqb_eq in Ee. split; [cbn; reflexivity | cbn; lia].
    - destruct (0 <? f_uid c) eqn:E0; [| apply Z.ltb_ge in E0; split; [cbn; reflexivity | cbn; lia]].
      pose proof (one_user_close c) as [Hl Hz]. split; [split; lia | lia]. }
  destruct (g c) as [c1 o1]. cbn [fst] in Hg. destruct Hg as [Hg Huid].
  pose proof (one_user_andThen f (andThen abort connectToHost) c1) as Hf. destruct (andThen f _ c1) as [c2 o2].
  trans c1; [done |]. apply Hf; [| exact one_user_abort_connect]. split; [cbn; lia |]. intros _ H0'. cbn. symmetry. by apply Huid.
Qed.

(** Users are numbered from 1. *)
Definition numbered (e : event) : Prop := match e with EvConnect si => 0 < sv_uid si | _ => True end.

Lemma one_user_event e c : numbered e → one_user c (on_event e c).1.
Proof.
  intros Hn. destruct e as [| data | e | | | | | | | si | id data]; cbn [FileChannel.on_event].
  - apply one_user_steady. apply keeps_connected.
  - apply one_user_steady. unfold on_readyRead. trans (with_reader (append data (f_reader c)) c); [by repeat split; auto | apply keeps_receive].
  - apply one_user_steady. unfold on_error. destruct (f_manual c); [cbn; reflexivity |].
    apply keeps_andThen; [destruct (_ && _); [apply keeps_emit | apply keeps_nothing] | apply keeps_reset_and_reconnect].
  - apply one_user_steady. apply keeps_disconnected.
  - apply one_user_steady. apply keeps_andThen; intros c1; apply keeps_after_write.
  - unfold slot_reconnect_timeout. cbv zeta. set (c1 := with_reconnect _ _ _ c). trans c1; [by split |].
    destruct (_ || _ || _); [cbn; reflexivity | apply one_user_abort_connect].
  - apply one_user_steady. unfold on_auth_timeout. trans (with_auth_timer false c); [by repeat split; auto |].
    destruct (_ || _); [cbn; reflexivity | apply keeps_reset_and_reconnect].
  - apply one_user_steady. unfold on_request_reconnect, when. destruct (negb _); [| cbn; reflexivity].
    apply keeps_andThen; [by repeat split; auto |]. apply keeps_andThen; [apply keeps_emit |].
    apply keeps_andThen; [apply keeps_abort | apply keeps_schedule].
  - pose proof (one_user_close c) as [Hl Hz]. split; lia.
  - by apply one_user_connect.
  - apply one_user_steady. apply keeps_send.
Qed.

(** Two snapshots with the same generation are of the same user. *)
Lemma generation_names_the_user evs c :
  Forall (numbered ∘ snd) evs → f_generation (run evs c).1 = f_generation c → 0 < f_uid c → f_uid (run evs c).1 = f_uid c.
Proof.
  intros Hn E. assert (Ho : one_user c (run evs c).1) by
    (clear E; revert c; induction Hn as [| [s e] evs He _ IH]; intros c;
     [cbn; reflexivity | exact (one_user_andThen (on_event e) (run evs) (with_sock s c) (one_user_event e _ He) IH)]).
  by destruct Ho as [_ Ho]; apply Ho.
Qed.

(** ** The delay *)

Hypothesis initial_positive : 0 < reconnect_initial_ms.
Hypothesis max_fits : 0 < reconnect_max_ms < 2 ^ 31.

Lemma backoff_doubles n d :
  0 < d → Z.min (backoff reconnect_max_ms n d) reconnect_max_ms = Z.min (d * 2 ^ Z.of_nat n) reconnect_max_ms.
Proof.
  revert d. induction n as [| n IH]; intros d Hd; [cbn [backoff]; f_equal; lia |].
  cbn [backoff]. rewrite Nat2Z.inj_succ, Z.pow_succ_r by lia. assert (1 <= 2 ^ Z.of_nat n) by (apply Z.lt_pred_le, Z.pow_pos_nonneg; lia).
  destruct (reconnect_max_ms <=? d * 2) eqn:E; [apply Z.leb_le in E; nia |]. rewrite IH by lia. f_equal. lia.
Qed.

Lemma reconnect_delay_doubles a :
  0 <= a → s32 (reconnect_delay reconnect_initial_ms reconnect_max_ms a) = Z.min (reconnect_initial_ms * 2 ^ Z.min a 30) reconnect_max_ms.
Proof.
  intros Ha. unfold reconnect_delay. rewrite backoff_doubles, Z2Nat.id by lia.
  assert (0 < 2 ^ Z.min a 30) by (apply Z.pow_pos_nonneg; lia). apply s32_small. nia.
Qed.


End proofs.

(** ** A concrete connection *)

#[local] Existing Instances demo_socket demo_socket_laws.

(** The library's results for one text. *)
#[local] Instance demo_text : QtText := {| fromJson _ := Some (QObject [(§ "error", QNumber 0)]); toJson _ := § "{}"; toULongLong _ := None |}.

Definition demo_server : ServerInfo := Server [] [] (§ "h") (§ "90") (§ "t") 1.
Definition demo_sock : @sock demo_socket := (UnconnectedState, 0).

(** A login, then a chunk that was refused before. *)
Definition demo_events : list (sock * event) :=
  [((UnconnectedState, 0), EvConnect demo_server); ((ConnectedState, 100), EvConnected); ((ConnectedState, 100), EvSend 1507 (§ "a"));
   ((ConnectedState, 100), EvReadyRead (block 1502 (§ "{}"))); ((ConnectedState, 100), EvSend 1507 (§ "b"))].

Lemma frames_wait_for_login_witness :
  let l := (run (λ _, 90) 1000 30000 1000 demo_events (FileTcpMgr demo_sock)).2 in
  take 2 (drop 5 l) = [EngineAuthenticated; Queued 1507 (§ "b")] ∧
  ∃ k1 k2, take 6 l = k1 ++ sig_resource_login_success :: k2 ∧ Forall (λ o, ends_login o = false) k2.
Proof.
  intros l. split; [vm_compute; reflexivity |].
  apply (frames_wait_for_login (λ _, 90) 1000 30000 1000 demo_events demo_sock (take 6 l) 1507 (§ "b") (drop 7 l)).
  - repeat split; try (vm_compute; intros; discriminate); vm_compute; auto.
  - vm_compute. reflexivity.
  - vm_compute. discriminate.
Defined.

