(* ===== verification/Base64.v ===== *)
(** * Base64 (ResourceServer/src/base64.cpp)

    The encoding of the avatars' bytes in JSON: three bytes are four
    characters of six bits each. [base64_decode] takes both alphabets, and
    [None] is an exception: a character outside of them, or a text that ends
    after the first character of a block ([std::string::at]). *)

From S2P Require Import Prelude.

Definition base64_chars (url : bool) : bytes :=
  if url then § "ABCDEFGHIJKLMNOPQRSTUVWXYZabcdefghijklmnopqrstuvwxyz0123456789-_"
  else § "ABCDEFGHIJKLMNOPQRSTUVWXYZabcdefghijklmnopqrstuvwxyz0123456789+/".

Definition char_of (url : bool) (n : Z) : Byte.byte := nth (Z.to_nat n) (base64_chars url) x00.

Definition trailing_char (url : bool) : Byte.byte := mkbyte (if url then 46 else 61).

Fixpoint base64_encode (url : bool) (s : bytes) : bytes :=
  match s with
  | [] => []
  | a :: s =>
      let a := bval a in
      char_of url (Z.shiftr (Z.land a 252) 2) ::
      match s with
      | [] => [char_of url (Z.shiftl (Z.land a 3) 4); trailing_char url; trailing_char url]
      | b :: s =>
          let b := bval b in
          char_of url (Z.shiftl (Z.land a 3) 4 + Z.shiftr (Z.land b 240) 4) ::
          match s with
          | [] => [char_of url (Z.shiftl (Z.land b 15) 2); trailing_char url]
          | c :: s =>
              let c := bval c in
              char_of url (Z.shiftl (Z.land b 15) 2 + Z.shiftr (Z.land c 192) 6) ::
              char_of url (Z.land c 63) :: base64_encode url s
          end
      end
  end.

Definition pos_of_char (chr : Byte.byte) : option Z :=
  let c := bval chr in
  if (65 <=? c) && (c <=? 90) then Some (c - 65)
  else if (97 <=? c) && (c <=? 122) then Some (c - 97 + 25 + 1)
  else if (48 <=? c) && (c <=? 57) then Some (c - 48 + 25 + 25 + 2)
  else if (c =? 43) || (c =? 45) then Some 62
  else if (c =? 47) || (c =? 95) then Some 63
  else None.

Definition is_padding (c : Byte.byte) : bool := (bval c =? 61) || (bval c =? 46).

(** The third byte of a block, from its last character. *)
Definition decode_third (p2 : Z) (c3 : option Byte.byte) : option bytes :=
  match c3 with
  | Some c3 =>
      if is_padding c3 then Some []
      else p3 ← pos_of_char c3; Some [mkbyte (Z.shiftl (Z.land p2 3) 6 + p3)]
  | None => Some []
  end.

(** The second byte and the third. *)
Definition decode_second (p1 : Z) (c2 c3 : option Byte.byte) : option bytes :=
  match c2 with
  | Some c2 =>
      if is_padding c2 then Some []
      else
        p2 ← pos_of_char c2;
        rest ← decode_third p2 c3;
        Some (mkbyte (Z.shiftl (Z.land p1 15) 4 + Z.shiftr (Z.land p2 60) 2) :: rest)
  | None => Some []
  end.

Definition decode_block (c0 c1 : Byte.byte) (c2 c3 : option Byte.byte) : option bytes :=
  p1 ← pos_of_char c1;
  p0 ← pos_of_char c0;
  rest ← decode_second p1 c2 c3;
  Some (mkbyte (Z.shiftl p0 2 + Z.shiftr (Z.land p1 48) 4) :: rest).

Fixpoint decode_blocks (s : bytes) : option bytes :=
  match s with
  | [] => Some []
  | [_] => None
  | c0 :: c1 :: c2 :: c3 :: s => b ← decode_block c0 c1 (Some c2) (Some c3); rest ← decode_blocks s; Some (b ++ rest)
  | [c0; c1; c2] => decode_block c0 c1 (Some c2) None
  | [c0; c1] => decode_block c0 c1 None None
  end.

Definition base64_decode (s : bytes) (remove_linebreaks : bool) : option bytes :=
  decode_blocks (if remove_linebreaks then List.filter (λ c, negb (bval c =? 10)) s else s).

(** ** Decoding what was encoded *)

Lemma below (P : Z → bool) n z : forallb P (Z.of_nat <$> seq 0 n) = true → 0 <= z < Z.of_nat n → P z = true.
Proof.
  intros Hf Hz. rewrite forallb_forall in Hf. apply Hf, list_elem_of_In, list_elem_of_fmap. exists (Z.to_nat z).
  split; [lia | apply elem_of_seq; lia].
Qed.

(** The alphabet, and no character of it is padding. *)
Lemma char_of_pos url n : 0 <= n < 64 → pos_of_char (char_of url n) = Some n ∧ is_padding (char_of url n) = false.
Proof.
  intros Hn.
  assert (E : bool_decide (pos_of_char (char_of url n) = Some n) && negb (is_padding (char_of url n)) = true).
  { revert n Hn. refine (λ n, below (λ n, bool_decide (pos_of_char (char_of url n) = Some n) && negb (is_padding (char_of url n))) 64 n _).
    destruct url; vm_compute; reflexivity. }
  apply andb_true_iff in E as [E1 E2]. by apply bool_decide_eq_true in E1; apply negb_true_iff in E2.
Qed.

Lemma trailing_is_padding url : is_padding (trailing_char url) = true.
Proof. by destruct url. Qed.

(** The bits of a byte, and of a position. *)
Lemma byte_bits a : 0 <= a < 256 →
  Z.shiftr (Z.land a 252) 2 = a / 4 ∧ Z.shiftl (Z.land a 3) 4 = a mod 4 * 16 ∧ Z.shiftr (Z.land a 240) 4 = a / 16 ∧
  Z.shiftl (Z.land a 15) 2 = a mod 16 * 4 ∧ Z.shiftr (Z.land a 192) 6 = a / 64 ∧ Z.land a 63 = a mod 64.
Proof.
  intros Ha. pose proof (below (λ a,
    (Z.shiftr (Z.land a 252) 2 =? a / 4) && (Z.shiftl (Z.land a 3) 4 =? a mod 4 * 16) && (Z.shiftr (Z.land a 240) 4 =? a / 16) &&
    (Z.shiftl (Z.land a 15) 2 =? a mod 16 * 4) && (Z.shiftr (Z.land a 192) 6 =? a / 64) && (Z.land a 63 =? a mod 64)) 256 a) as H.
  specialize (H ltac:(vm_compute; reflexivity) Ha). repeat (apply andb_true_iff in H as [H ?]). by repeat split; apply Z.eqb_eq.
Qed.

Lemma position_bits p : 0 <= p < 64 →
  Z.shiftl p 2 = p * 4 ∧ Z.shiftr (Z.land p 48) 4 = p / 16 ∧ Z.shiftl (Z.land p 15) 4 = p mod 16 * 16 ∧
  Z.shiftr (Z.land p 60) 2 = p / 4 ∧ Z.shiftl (Z.land p 3) 6 = p mod 4 * 64.
Proof.
  intros Hp. pose proof (below (λ p,
    (Z.shiftl p 2 =? p * 4) && (Z.shiftr (Z.land p 48) 4 =? p / 16) && (Z.shiftl (Z.land p 15) 4 =? p mod 16 * 16) &&
    (Z.shiftr (Z.land p 60) 2 =? p / 4) && (Z.shiftl (Z.land p 3) 6 =? p mod 4 * 64)) 64 p) as H.
  specialize (H ltac:(vm_compute; reflexivity) Hp). repeat (apply andb_true_iff in H as [H ?]). by repeat split; apply Z.eqb_eq.
Qed.

(** The three bytes of a block, from the positions of its characters. *)
Lemma decode_block_first url p0 p1 c2 c3 rest (a : Byte.byte) :
  0 <= p0 < 64 → 0 <= p1 < 64 → decode_second p1 c2 c3 = Some rest → p0 * 4 + p1 / 16 = bval a →
  decode_block (char_of url p0) (char_of url p1) c2 c3 = Some (a :: rest).
Proof.
  intros H0 H1 Hr Ha. unfold decode_block. destruct (char_of_pos url p0 H0) as [-> _]. destruct (char_of_pos url p1 H1) as [-> _]. cbn.
  rewrite Hr. cbn. destruct (position_bits p0 H0) as (-> & _). destruct (position_bits p1 H1) as (_ & -> & _). by rewrite Ha, mkbyte_bval.
Qed.

Lemma decode_second_char url p1 p2 c3 rest (b : Byte.byte) :
  0 <= p1 < 64 → 0 <= p2 < 64 → decode_third p2 c3 = Some rest → p1 mod 16 * 16 + p2 / 4 = bval b →
  decode_second p1 (Some (char_of url p2)) c3 = Some (b :: rest).
Proof.
  intros H1 H2 Hr Hb. unfold decode_second. destruct (char_of_pos url p2 H2) as [-> ->]. cbn. rewrite Hr. cbn.
  destruct (position_bits p1 H1) as (_ & _ & -> & _). destruct (position_bits p2 H2) as (_ & _ & _ & -> & _). by rewrite Hb, mkbyte_bval.
Qed.

Lemma decode_third_char url p2 p3 (c : Byte.byte) :
  0 <= p2 < 64 → 0 <= p3 < 64 → p2 mod 4 * 64 + p3 = bval c → decode_third p2 (Some (char_of url p3)) = Some [c].
Proof.
  intros H2 H3 Hc. unfold decode_third. destruct (char_of_pos url p3 H3) as [-> ->]. cbn.
  destruct (position_bits p2 H2) as (_ & _ & _ & _ & ->). by rewrite Hc, mkbyte_bval.
Qed.

(** [lia] with quotients and remainders. *)
#[local] Ltac Zify.zify_post_hook ::= Z.to_euclidean_division_equations.

Lemma decode_encode url s : decode_blocks (base64_encode url s) = Some s.
Proof.
  revert s. fix IH 1. intros [| a s]; [done |]. pose proof (bval_range a) as Ha.
  destruct (byte_bits _ Ha) as (A1 & A2 & A3 & A4 & A5 & A6).
  cbn [base64_encode]. cbv zeta. rewrite A1, A2. destruct s as [| b s].
  - cbn [decode_blocks]. rewrite (decode_block_first url _ _ _ _ [] a); [done | lia | lia | | lia].
    unfold decode_second. by rewrite trailing_is_padding.
  - pose proof (bval_range b) as Hb. destruct (byte_bits _ Hb) as (B1 & B2 & B3 & B4 & B5 & B6). rewrite B3, B4. destruct s as [| c s].
    + cbn [decode_blocks]. rewrite (decode_block_first url _ _ _ _ [b] a); [done | lia | lia | | lia].
      apply decode_second_char; [lia | lia | | lia]. unfold decode_third. by rewrite trailing_is_padding.
    + pose proof (bval_range c) as Hc. destruct (byte_bits _ Hc) as (C1 & C2 & C3 & C4 & C5 & C6). rewrite C5, C6.
      cbn [decode_blocks]. rewrite (decode_block_first url _ _ _ _ [b; c] a); [cbn; by rewrite IH | lia | lia | | lia].
      apply decode_second_char; [lia | lia | | lia]. apply decode_third_char; lia.
Qed.

Lemma base64_round_trip url s : base64_decode (base64_encode url s) false = Some s.
Proof. apply decode_encode. Qed.
