(* ===== verification/AvatarWorker.v ===== *)
(** * Avatars on the ResourceServer (ResourceServer/src/FileWorker.cpp)

    The handler of 1601 of a file worker and [DownloadWorker::task_callback]
    for 1603: the packets of an avatar are appended to a file of the user, and
    read back by number, in Base64. The state is the disk, the tables and
    Redis; [None] is an exception, which ends the task without an answer. The
    dispatch that posts these tasks is in ResourceDispatch.v. *)

From S2P Require Import Prelude ProtocolIds JsonFields UploadFile Database ResourceDb ChatUsers ChatSession ChatLogic ChatHandlers ResourceDispatch Base64.

Definition MAX_FILE_LEN : Z := 1024 * 32.

(** ** The tables (ResourceServer/src/MysqlDao.cpp) *)

Definition GetUser (uid : Z) : Dao (option UserInfo) :=
  with_connection None (catch (query (λ d, ChatUsers.user_of d uid)) (λ _, None)).

(** ** State *)

Record astate := AState { as_disk : disk; as_db : db; as_redis : gmap bytes bytes }.

Definition A (T : Type) : Type := astate → tape → option T * astate * tape.
#[global] Instance A_ret : MRet A := λ T x s t, (Some x, s, t).
#[global] Instance A_bind : MBind A := λ T U k m s t,
  match m s t with
  | (None, s', t') => (None, s', t')
  | (Some x, s', t') => k x s' t'
  end.

Definition a_throw {T} : A T := λ s t, (None, s, t).
Definition a_need {T} (o : option T) : A T := λ s t, (o, s, t).
Definition a_io {T} (m : IO T) : A T := λ s t,
  let '(x, d, t') := m (as_disk s) t in (Some x, AState d (as_db s) (as_redis s), t').
Definition a_dao {T} (m : Dao T) : A T := λ s t,
  let '(x, d, t') := m (as_db s) t in (Some x, AState (as_disk s) d (as_redis s), t').

Definition redis_get (k : bytes) : A (option bytes) := λ s t,
  let '(o, t') := tape_next t in
  (Some (if io_ok o then option_map c_str (as_redis s !! c_str k) else None), s, t').

(** A command that changes Redis: a failure may come after it has run. *)
Definition redis_write (g : gmap bytes bytes → gmap bytes bytes) : A bool := λ s t,
  let '(o, t') := tape_next t in
  let s' := AState (as_disk s) (as_db s) (g (as_redis s)) in
  match o with
  | IoOk => (Some true, s', t')
  | IoFail 0 => (Some false, s, t')
  | IoFail (S _) => (Some false, s', t')
  end.

Definition redis_set (k v : bytes) : A bool := redis_write <[c_str k := c_str v]>.
Definition redis_del (k : bytes) : A bool := redis_write (delete (c_str k)).

(** ** Streams *)

(** [boost::filesystem::exists] throws when the status cannot be read. *)
Definition exists_path (p : path) : A bool :=
  o ← a_io syscall;
  d ← a_io get;
  if io_ok o then mret (bool_decide (p ∈ dirs d) || bool_decide (is_Some (names d !! p))) else a_throw.

(** [std::ofstream::open] with [trunc] or [app]: the inode. *)
Definition open_output (p : path) (trunc : bool) : IO (option nat) :=
  o ← syscall;
  d ← get;
  if negb (io_ok o) || negb (bool_decide (parent_path p ∈ dirs d)) || bool_decide (p ∈ dirs d) then mret None
  else
    match names d !! p with Some _ => mret tt | None => put (create_file d p) end;;
    d ← get;
    match names d !! p with
    | None => mret None
    | Some i => if trunc then put (set_bytes d i []);; mret (Some i) else mret (Some i)
    end.

(** [write] says whether the stream has taken the bytes; what it has only
    buffered is written by [close], whose failure nobody sees. *)
Definition write_and_close (i : nat) (data : bytes) : IO bool :=
  w ← syscall;
  c ← syscall;
  d ← get;
  let f := default [] (inodes d !! i) in
  match w, c with
  | IoFail k, _ => put (set_bytes d i (f ++ take k data));; mret false
  | IoOk, IoFail k => put (set_bytes d i (f ++ take k data));; mret true
  | IoOk, IoOk => put (set_bytes d i (f ++ data));; mret true
  end.

Section avatars.
Context `{JsonLib} (path_string : path → bytes).

(** ** Uploads *)

(** The answer with what the callback has captured. *)
Definition upload_reply (a : FileTask) (error : Z) : json :=
  JObject [(§ "error", jnum error); (§ "total_size", jnum (av_total a)); (§ "seq", jnum (av_seq a)); (§ "name", JString (av_name a));
           (§ "trans_size", jnum (av_trans a)); (§ "last", jnum (av_last a)); (§ "md5", JString (av_md5 a)); (§ "uid", jnum (av_uid a));
           (§ "last_seq", jnum (av_last_seq a))].

Definition file_name (p : path) : bytes := default [] (head (rcomps p)).

(** The last packet: the user's avatar in the tables and in Redis. No answer
    when the user cannot be read back. *)
Definition publish_avatar (a : FileTask) : A bool :=
  a_dao (UpdateHeadInfo (av_uid a) (file_name (av_path a)));;
  user ← a_dao (GetUser (av_uid a));
  match user with
  | None => mret false
  | Some u => redis_set (USER_BASE_INFO ++ ll_string (av_uid a)) (json_dump (JObject (user_json (av_uid a) u)));; mret true
  end.

(** [create_directories] throws when it fails. *)
Definition make_directory (dir : path) : A unit :=
  there ← exists_path dir;
  if (there : bool) then mret tt else made ← a_io (create_directories dir); if (made : bool) then mret tt else a_throw.

Definition HandleUploadHeadIcon (a : FileTask) : A (option json) :=
  decoded ← a_need (base64_decode (av_data a) false);
  make_directory (parent_path (av_path a));;
  out ← a_io (open_output (av_path a) (av_seq a =? 1));
  match out with
  | None => mret (Some (upload_reply a (ResourceErrCode_code RS_FILE_WRITE_PERMISSION)))
  | Some i =>
      written ← a_io (write_and_close i decoded);
      if negb written then mret (Some (upload_reply a (ResourceErrCode_code RS_FILE_WRITE_PERMISSION)))
      else
        answered ← (if av_last a =? 0 then mret true else publish_avatar a);
        mret (if (answered : bool) then Some (upload_reply a (CommonErrCode_code ERR_SUCCESS)) else None)
  end.

(** ** Downloads *)

Definition download_key (name : bytes) : bytes := § "file_download_" ++ name.
Definition SetDownLoadInfo (name : bytes) (i : FileInfo) : A bool := redis_set (download_key name) (json_dump (info_json i)).
Definition DelDownLoadInfo (name : bytes) : A bool := redis_del (download_key name).

Definition GetDownloadInfo (name : bytes) : A (option FileInfo) :=
  value ← redis_get (download_key name);
  match value with
  | None | Some [] => mret None
  | Some s => mret (match json_parse s with None => None | root => parse_info root end)
  end.

(** The answer with what the callback has captured. *)
Definition download_reply (a : DownloadTask) (fields : list (bytes * json)) : json :=
  JObject (fields ++ [(§ "client_path", JString (ad_client a)); (§ "name", JString (ad_name a)); (§ "req_type", JString (ad_type a))]).

Definition download_failed (a : DownloadTask) (e : ResourceErrCode) : json :=
  download_reply a [(§ "error", jnum (ResourceErrCode_code e))].

Definition download_packet (a : DownloadTask) (data : bytes) (total current : Z) : json :=
  download_reply a [(§ "error", jnum (CommonErrCode_code ERR_SUCCESS)); (§ "data", JString (base64_encode false data)); (§ "seq", jnum (ad_seq a));
    (§ "total_size", JString (ll_string total)); (§ "current_size", JString (ll_string current)); (§ "is_last", JBool (total <=? current))].

(** The first packet starts over; a later one has to be the next one. *)
Definition download_info (a : DownloadTask) (size : Z) : A (FileInfo + ResourceErrCode) :=
  if ad_seq a =? 1 then
    let info := Info (path_string (ad_path a)) (ad_name a) 1 size 0 in
    SetDownLoadInfo (ad_name a) info;; mret (inl info)
  else
    info ← GetDownloadInfo (ad_name a);
    mret (match info with
          | None => inr RS_REDIS_READ_ERR
          | Some i => if ad_seq a =? fi_seq i then inl i else inr RS_FILE_SEQ_INVALID
          end).

(** [seekg] and [read] of at most one packet. *)
Definition read_packet (f : bytes) (offset : Z) : IO bytes :=
  o ← syscall; mret (if offset <? 0 then [] else read_range f offset MAX_FILE_LEN o).

(** The packet that starts at [offset], and the record of the progress. *)
Definition send_packet (a : DownloadTask) (f : bytes) (info : FileInfo) (offset : Z) : A json :=
  data ← a_io (read_packet f offset);
  if bool_decide (data = []) then mret (download_failed a RS_FILE_READ_FAILED)
  else
    let current := offset + zlen data in
    (if fi_total info <=? current then DelDownLoadInfo (ad_name a)
     else SetDownLoadInfo (ad_name a) (Info (fi_path info) (fi_name info) (s32 (fi_seq info + 1)) (fi_total info) current));;
    mret (download_packet a data (fi_total info) current).

(** [tellg] at the end of the file is -1 when it fails. *)
Definition file_size (f : bytes) : IO Z := o ← syscall; mret (if io_ok o then zlen f else -1).

Definition DownloadAvatar (a : DownloadTask) : A json :=
  there ← exists_path (ad_path a);
  if negb there then mret (download_failed a RS_FILE_NOT_EXISTS)
  else
    o ← a_io syscall;
    d ← a_io get;
    match (if io_ok o then content d (ad_path a) else None) with
    | None => mret (download_failed a RS_FILE_READ_PERMISSION)
    | Some f =>
        size ← (if ad_seq a =? 1 then a_io (file_size f) else mret 0);
        info ← download_info a size;
        match info with
        | inr e => mret (download_failed a e)
        | inl info =>
            let offset := (ad_seq a - 1) * MAX_FILE_LEN in
            if fi_total info <=? offset then mret (download_failed a RS_FILE_OFFSET_INVALID) else send_packet a f info offset
        end
    end.

End avatars.
