(* ===== verification/AvatarClient.v ===== *)
(** * Avatars on the client

    The upload of the page of the user's own data (app/userinfopage.cpp), the
    answers of the avatar channel (net/filetcpmgr.cpp), the request of a
    picture that is not on the disk (contact/chatuserwid.cpp) and the
    registers of both directions (store/usermgr.cpp), which are keyed by the
    name of the picture. A tape gives the outcomes of the file operations. *)

From S2P Require Import Prelude ProtocolIds JsonFields UploadFile ClientSync ResourceCodec ClientHandlers Base64 AvatarWorker.

(** [QByteArray::toBase64], [fromBase64] and the MD5 of [QCryptographicHash]. *)
Class QtBase64 := {
  toBase64 : bytes → bytes;
  fromBase64 : bytes → bytes;
  md5_hex : bytes → bytes;
}.

(** They are the encoding of RFC 4648. *)
Class QtBase64Laws `{!QtBase64} := {
  toBase64_rfc : ∀ b, toBase64 b = base64_encode false b;
  fromBase64_rfc : ∀ b, fromBase64 (base64_encode false b) = b;
}.

Record DownloadInfo := DInfo { di_name : bytes; di_total : Z; di_current : Z; di_seq : Z; di_path : bytes }.

(** The files of the client and the registers of [UserMgr]. *)
Record client := Client {
  c_files : gmap bytes bytes;
  c_uploads : gmap bytes bytes;              (* [_name_to_upload_info]: the path *)
  c_downloads : gmap bytes DownloadInfo;     (* [_name_to_download_info] *)
  c_icon : bytes;
}.

Definition with_files x (c : client) := Client x (c_uploads c) (c_downloads c) (c_icon c).
Definition with_uploads x (c : client) := Client (c_files c) x (c_downloads c) (c_icon c).
Definition with_downloads x (c : client) := Client (c_files c) (c_uploads c) x (c_icon c).
Definition SetIcon x (c : client) := Client (c_files c) (c_uploads c) (c_downloads c) x.

Definition AddUploadFile (name path : bytes) (c : client) : client := with_uploads (<[name := path]> (c_uploads c)) c.
Definition RmvUploadFile (name : bytes) (c : client) : client := with_uploads (delete name (c_uploads c)) c.
Definition GetUploadInfoByName (name : bytes) (c : client) : option bytes := c_uploads c !! name.
Definition IsDownLoading (name : bytes) (c : client) : bool := bool_decide (is_Some (c_downloads c !! name)).
Definition AddDownloadFile (name : bytes) (i : DownloadInfo) (c : client) : client := with_downloads (<[name := i]> (c_downloads c)) c.
Definition RmvDownloadFile (name : bytes) (c : client) : client := with_downloads (delete name (c_downloads c)) c.
Definition GetDownloadInfo (name : bytes) (c : client) : option DownloadInfo := c_downloads c !! name.

Inductive action :=
  | SendData (id : MsgId) (data : bytes)
  | sig_reset_label_icon (path : bytes)
  | sig_reset_head.

Definition C (T : Type) : Type := client → tape → T * client * tape.
#[global] Instance C_ret : MRet C := λ T x c t, (x, c, t).
#[global] Instance C_bind : MBind C := λ T U k m c t, let '(x, c', t') := m c t in k x c' t'.

Definition c_call : C io_outcome := λ c t, let '(o, t') := tape_next t in (o, c, t').
Definition the_client : C client := λ c t, (c, c, t).
Definition c_update (f : client → client) : C unit := λ c t, (tt, f c, t).

(** [QFile::open(ReadOnly)]. *)
Definition open_file (path : bytes) : C (option bytes) :=
  o ← c_call; c ← the_client; mret (if io_ok o then c_files c !! path else None).

(** [QFile::read] after a [seek]. *)
Definition read_at (f : bytes) (offset : Z) : C bytes :=
  o ← c_call; mret (if offset <? 0 then read_range f 0 MAX_FILE_LEN o else read_range f offset MAX_FILE_LEN o).

(** [QFile::open(WriteOnly)] or [WriteOnly | Append], [write] and [close];
    false when the file cannot be opened. *)
Definition write_file (path data : bytes) (append : bool) : C bool :=
  o ← c_call;
  if negb (io_ok o) then mret false
  else
    w ← c_call;
    c ← the_client;
    let old := if append then default [] (c_files c !! path) else [] in
    c_update (with_files (<[path := old ++ match w with IoOk => data | IoFail k => take k data end]> (c_files c)));;
    mret true.

Section avatars.
Context `{!QtText, !QtLib, !QtBase64}.

(** ** Uploads *)

(** The [seq]-th packet. *)
Definition upload_packet (md5 name : bytes) (seq : Z) (data : bytes) (total last last_seq : Z) : qobject :=
  [(§"md5", QString md5); (§"name", QString name); (§"seq", QNumber seq);
   (§"trans_size", QNumber (s32 (zlen data + (seq - 1) * MAX_FILE_LEN))); (§"total_size", QNumber total);
   (§"last", QNumber last); (§"data", QString (toBase64 data)); (§"last_seq", QNumber last_seq)].

Definition send_request (id : MsgId) (o : qobject) : action := SendData id (toJson o).

(** The slot of the page, from the saved picture on. *)
Definition UploadIcon (name path : bytes) : C (list action) :=
  file ← open_file path;
  match file with
  | None => mret []
  | Some f =>
      h ← c_call;
      if negb (io_ok h) then mret []
      else
        let total := s32 (zlen f) in
        let last_seq := if total mod MAX_FILE_LEN =? 0 then total / MAX_FILE_LEN else total / MAX_FILE_LEN + 1 in
        buffer ← read_at f 0;
        let last := if s32 (zlen buffer) =? total then 1 else 0 in
        c_update (λ c, AddUploadFile name path (SetIcon name c));;
        mret [send_request MSG_UPLOAD_HEAD_ICON_REQ (upload_packet (md5_hex f) name 1 buffer total last last_seq); sig_reset_head]
  end.

Definition handleUploadHeadIconRsp (data : bytes) : C (list action) :=
  match fromJson data with
  | None => mret []
  | Some v =>
      let o := object_of v in
      if negb (contains o §"error") then mret []
      else if negb (toInt 0 (value o §"error") =? 0) then mret []
      else
        let md5 := toString (value o §"md5") in
        let seq := toInt 0 (value o §"seq") in
        let trans_size := toInt 0 (value o §"trans_size") in
        let total_size := toInt 0 (value o §"total_size") in
        let name := toString (value o §"name") in
        if total_size =? trans_size then c_update (RmvUploadFile name);; mret []
        else
          c ← the_client;
          match GetUploadInfoByName name c with
          | None => mret []
          | Some path =>
              file ← open_file path;
              match file with
              | None => mret []
              | Some f =>
                  let seq := s32 (seq + 1) in
                  buffer ← read_at f trans_size;
                  let last := if total_size <=? s32 (zlen buffer + (seq - 1) * MAX_FILE_LEN) then 1 else 0 in
                  mret [send_request MSG_UPLOAD_HEAD_ICON_REQ
                          (upload_packet md5 name seq buffer total_size last (toInt 0 (value o §"last_seq")))]
              end
          end
  end.

(** ** Downloads *)

Definition download_request (i : DownloadInfo) (req_type : bytes) : qobject :=
  [(§"name", QString (di_name i)); (§"seq", QNumber (di_seq i)); (§"trans_size", QNumber 0); (§"total_size", QNumber 0);
   (§"client_path", QString (di_path i)); (§"req_type", QString req_type)].

Definition SendDownloadInfo (i : DownloadInfo) (req_type : bytes) : action := send_request MSG_DOWN_LOAD_FILE_REQ (download_request i req_type).

(** A picture that is being fetched is not asked for again. *)
Definition LoadHeadIcon (avatar_path name req_type : bytes) : C (list action) :=
  c ← the_client;
  if IsDownLoading name c then mret []
  else
    let info := DInfo name 0 0 1 avatar_path in
    c_update (AddDownloadFile name info);;
    mret [SendDownloadInfo info req_type].

Definition handleDownloadFileRsp (data : bytes) : C (list action) :=
  match fromJson data with
  | None => mret []
  | Some v =>
      let o := object_of v in
      if negb (contains o §"error") then mret []
      else if negb (toInt 0 (value o §"error") =? 0) then mret []
      else
        let client_path := toString (value o §"client_path") in
        let seq := toInt 0 (value o §"seq") in
        let is_last := toBool (value o §"is_last") in
        let total_size := default 0 (toLongLong (toString (value o §"total_size"))) in
        let current_size := default 0 (toLongLong (toString (value o §"current_size"))) in
        let name := toString (value o §"name") in
        let req_type := toString (value o §"req_type") in
        c ← the_client;
        match GetDownloadInfo name c with
        | None => mret []
        | Some i =>
            let i := DInfo (di_name i) (s32 total_size) (s32 current_size) (di_seq i) (di_path i) in
            c_update (AddDownloadFile name i);;
            opened ← write_file client_path (fromBase64 (toString (value o §"data"))) (negb (seq =? 1));
            if negb opened then mret []
            else if is_last then
              c_update (RmvDownloadFile name);;
              mret (if bool_decide (req_type = § "self_icon") then [sig_reset_label_icon client_path] else [])
            else
              let i := DInfo (di_name i) (di_total i) (di_current i) (s32 (seq + 1)) (di_path i) in
              c_update (AddDownloadFile name i);;
              mret [SendDownloadInfo i req_type]
        end
  end.

(** The two handlers in the table of [FileTcpMgr::initHandlers]. *)
Definition handleAvatarFrame (id : Z) (data : bytes) : C (list action) :=
  if id =? MsgId_code MSG_UPLOAD_HEAD_ICON_RSP then handleUploadHeadIconRsp data
  else if id =? MsgId_code MSG_DOWN_LOAD_FILE_RSP then handleDownloadFileRsp data
  else mret [].

(** A refused download stays registered, and its picture is never asked for
    again. *)
Lemma refused_download_stays data v c t avatar_path name req_type :
  fromJson data = Some v → toInt 0 (value (object_of v) §"error") ≠ 0 → IsDownLoading name c = true →
  handleDownloadFileRsp data c t = ([], c, t) ∧ LoadHeadIcon avatar_path name req_type c t = ([], c, t).
Proof.
  intros Ev He Hl. split.
  - unfold handleDownloadFileRsp. rewrite Ev. cbv zeta. destruct (contains _ _); [| done]. cbn [negb].
    by rewrite (proj2 (Z.eqb_neq _ _) He).
  - unfold LoadHeadIcon, mbind, C_bind, the_client. by rewrite Hl.
Qed.

End avatars.
