(* ===== verification/AvatarLink.v ===== *)
(** * An avatar from the client to the server and back

    The client (AvatarClient.v), the dispatch of the ResourceServer
    (ResourceDispatch.v) and its workers (AvatarWorker.v) together: when
    nothing fails, the packets of an upload end with the file on the server
    and its name in the tables, and the packets of a download end with the
    same bytes on the client. Of each JSON text it is assumed that the reader
    gets what was written. *)

From S2P Require Import Prelude ProtocolIds SessionLifecycle JsonFields UploadFile Database ResourceDb ChatUsers ChatSession ChatLogic ChatHandlers.
From S2P Require Import ClientSync SyncLoop ResourceTransfer ResourceSession ResourceDispatch ResourceCodec ResourceLink ClientHandlers DownloadProofs Base64 AvatarWorker AvatarClient.

#[local] Arguments zlen {_} _ : simpl never.

Lemma zlen_zslice_min {T} (l : list T) off len :
  0 <= off <= zlen l → 0 <= len → zlen (zslice l off len) = Z.min len (zlen l - off).
Proof. unfold zlen, zslice. intros. rewrite length_take, length_drop. lia. Qed.

(** ** The disk *)

(** The directory of the avatars can be made, and no directory is in the way
    of the file. *)
Record room_for (p : path) (d : disk) : Prop := {
  rf_parents : ∀ a, a ∈ ancestors (absolute (parent_path p)) (rcomps (parent_path p)) → names d !! a = None;
  rf_free : p ∉ dirs d;
  rf_child : rcomps p ≠ [];
}.

Lemma ancestors_shorter abs rc a : a ∈ ancestors abs rc → (length (rcomps a) <= length rc)%nat.
Proof.
  induction rc as [| c rc IH]; intros Ha; [by apply elem_of_nil in Ha |]. cbn [ancestors] in Ha.
  apply elem_of_app in Ha as [Ha | Ha]; [specialize (IH Ha); cbn; lia |]. apply list_elem_of_singleton in Ha as ->. cbn. lia.
Qed.

Lemma parent_shorter p a : rcomps p ≠ [] → a ∈ ancestors (absolute (parent_path p)) (rcomps (parent_path p)) → a ≠ p.
Proof.
  intros Hp Ha ->. apply ancestors_shorter in Ha. unfold parent_path in Ha. destruct (rcomps p) as [| c rc] eqn:E; [done |].
  cbn in Ha. lia.
Qed.

Lemma parent_ancestor p : rcomps (parent_path p) ≠ [] → parent_path p ∈ ancestors (absolute (parent_path p)) (rcomps (parent_path p)).
Proof.
  destruct (parent_path p) as [abs rc]. cbn. intros Hrc. destruct rc as [| c rc]; [done |]. cbn [ancestors]. apply elem_of_app. right. by left.
Qed.

Lemma foldl_add_dir_dirs d ps q : q ∈ dirs (foldl add_dir d ps) ↔ q ∈ dirs d ∨ q ∈ ps.
Proof.
  revert d. induction ps as [| p ps IH]; intros d; cbn; [set_solver |]. rewrite IH. unfold add_dir. cbn. set_solver.
Qed.

Lemma make_directory_run p s :
  room_for p (as_disk s) → rcomps (parent_path p) ≠ [] →
  ∃ d, make_directory (parent_path p) s [] = (Some tt, AState d (as_db s) (as_redis s), []) ∧
    names d = names (as_disk s) ∧ inodes d = inodes (as_disk s) ∧ parent_path p ∈ dirs d ∧ room_for p d.
Proof.
  intros [Hp Hf Hc] Hr. unfold make_directory, exists_path, mbind, A_bind, a_io, syscall, get. cbn.
  pose proof (Hp _ (parent_ancestor p Hr)) as En. rewrite En. rewrite (bool_decide_eq_false_2 (is_Some None)) by apply is_Some_None.
  rewrite orb_false_r. case_bool_decide as Ed.
  - exists (as_disk s). destruct s. done.
  - unfold create_directories, mbind, IO_bind, syscall, get. cbn. set (missing := filter _ _).
    destruct (existsb _ missing) eqn:Ex.
    { exfalso. apply existsb_exists in Ex as (a & Ha & Hs). apply list_elem_of_In in Ha. subst missing.
      apply list_elem_of_filter in Ha as [_ Ha]. apply bool_decide_eq_true in Hs. rewrite (Hp a Ha) in Hs. by destruct Hs. }
    exists (foldl add_dir (as_disk s) missing). destruct (foldl_add_dir_names (as_disk s) missing) as [-> ->]. cbn. split; [done |].
    split; [done |]. split; [done |]. subst missing. split.
    + apply foldl_add_dir_dirs. right. apply list_elem_of_filter. split; [done | by apply parent_ancestor].
    + split; [by rewrite (proj1 (foldl_add_dir_names _ _)) | | done]. rewrite foldl_add_dir_dirs. intros [? | Hq]; [done |].
      apply list_elem_of_filter in Hq as [_ Hq]. by apply (parent_shorter p p Hc Hq).
Qed.

Lemma room_for_same p d d' :
  room_for p d → dirs d' = dirs d → (∀ q, q ≠ p → names d' !! q = names d !! q) → room_for p d'.
Proof.
  intros [Hp Hf Hc] Ed En. split; [| by rewrite Ed | done]. intros a Ha. rewrite En; [by apply Hp | by apply parent_shorter].
Qed.

(** A stream opened for writing: the bytes follow what the file holds, and
    nothing else changes its name. *)
Lemma open_and_write p trunc data d :
  room_for p d → parent_path p ∈ dirs d →
  ∃ i d1, open_output p trunc d [] = (Some i, d1, []) ∧
  ∃ d2, write_and_close i data d1 [] = (true, d2, []) ∧ room_for p d2 ∧
    content d2 p = Some ((if trunc then [] else default [] (content d p)) ++ data).
Proof.
  intros Hr Hd. unfold open_output, mbind, IO_bind, syscall, get, put. cbn.
  rewrite (bool_decide_eq_true_2 (parent_path p ∈ dirs d)), (bool_decide_eq_false_2 (p ∈ dirs d)) by (done || by destruct Hr). cbn.
  set (d0 := match names d !! p with Some _ => d | None => create_file d p end).
  assert (H0 : ∃ i, names d0 !! p = Some i ∧ default [] (inodes d0 !! i) = default [] (content d p) ∧ room_for p d0).
  { subst d0. unfold content. destruct (names d !! p) as [i |] eqn:En; [by exists i |]. exists (fresh (dom (inodes d))).
    unfold create_file, add_name, set_bytes. cbn. rewrite !lookup_insert_eq. split; [done |]. split; [done |].
    eapply room_for_same; [exact Hr | done |]. intros q Hq. cbn. by rewrite lookup_insert_ne. }
  destruct H0 as (i & Ei & Ec & Hr0).
  assert (E0 : (match names d !! p with Some _ => @mret IO IO_ret unit tt | None => λ (_ : disk) (t : tape), (tt, create_file d p, t) end) d [] = (tt, d0, []))
    by (subst d0; by destruct (names d !! p)).
  rewrite E0, Ei. set (d1 := if trunc then set_bytes d0 i [] else d0).
  exists i, d1. split; [subst d1; by destruct trunc |].
  unfold write_and_close, mbind, IO_bind, syscall, get, put. cbn. eexists. split; [done |].
  assert (Hr1 : room_for p d1) by (subst d1; destruct trunc; [by eapply room_for_same | done]).
  split; [by eapply room_for_same |]. rewrite content_set_bytes, decide_True by (subst d1; by destruct trunc). f_equal. f_equal.
  subst d1. destruct trunc; [cbn; by rewrite lookup_insert_eq | by rewrite Ec].
Qed.

(** One step of the worker. *)
Lemma A_step {T U} (m : A T) (k : T → A U) s t x s' t' : m s t = (Some x, s', t') → (m ≫= k) s t = k x s' t'.
Proof. intros E. unfold mbind, A_bind. by rewrite E. Qed.

Section link.
Context `{!JsonLib, !QtText, !QtLib, !QtLaws, !Wire, !WireLaws, !QtBase64, !QtBase64Laws}.
Context (out_path : path) (path_string : path → bytes) (hash : bytes → Z).
#[local] Set Default Proof Using "Type*".

(** ** The workers *)

Lemma publish_run a u s :
  users (as_db s) !! av_uid a = Some u →
  ∃ r, publish_avatar a s [] = (Some true, AState (as_disk s) (update_avatar (av_uid a) (file_name (av_path a)) (as_db s)).2 r, []).
Proof.
  intros Hu. unfold publish_avatar, mbind, A_bind, a_dao, UpdateHeadInfo, AvatarWorker.GetUser, with_connection, catch. cbn.
  unfold exec_auto, mbind, Tx_bind. cbn. unfold update_avatar, ChatUsers.user_of, query, exec. rewrite Hu. cbn.
  rewrite lookup_insert_eq. cbn. by eexists.
Qed.

(** Bytes that [close] could not write are lost, and the write was reported
    as done. *)
Lemma close_loses_bytes data i d : write_and_close i data d [IoOk; IoFail 0] = (true, set_bytes d i (default [] (inodes d !! i)), []).
Proof. unfold write_and_close, mbind, IO_bind, syscall, get, put. cbn. by rewrite app_nil_r. Qed.

(** A packet that arrives is appended; the last one is published. *)
Lemma upload_run a data u s :
  base64_decode (av_data a) false = Some data → room_for (av_path a) (as_disk s) → rcomps (parent_path (av_path a)) ≠ [] →
  users (as_db s) !! av_uid a = Some u →
  ∃ s', HandleUploadHeadIcon a s [] = (Some (Some (upload_reply a (CommonErrCode_code ERR_SUCCESS))), s', []) ∧
    room_for (av_path a) (as_disk s') ∧
    content (as_disk s') (av_path a) = Some ((if av_seq a =? 1 then [] else default [] (content (as_disk s) (av_path a))) ++ data) ∧
    if av_last a =? 0 then as_db s' = as_db s ∧ as_redis s' = as_redis s
    else as_db s' = (update_avatar (av_uid a) (file_name (av_path a)) (as_db s)).2.
Proof.
  intros Hb Hr Hp Hu. unfold HandleUploadHeadIcon, a_need, mbind, A_bind. rewrite Hb.
  destruct (make_directory_run (av_path a) s Hr Hp) as (d & -> & En & Ei & Ed & Hr1).
  destruct (open_and_write (av_path a) (av_seq a =? 1) data d Hr1 Ed) as (i & d1 & Eo & d2 & Ew & Hr2 & Ec).
  unfold a_io. cbn [as_disk as_db as_redis]. rewrite Eo. cbn [as_disk as_db as_redis]. rewrite Ew. cbn [negb as_disk as_db as_redis].
  assert (Ec' : content d (av_path a) = content (as_disk s) (av_path a)) by (unfold content; by rewrite En, Ei). rewrite Ec' in Ec.
  destruct (av_last a =? 0).
  - by eexists.
  - destruct (publish_run a u (AState d2 (as_db s) (as_redis s)) Hu) as (r & ->). by eexists.
Qed.

(** ** Redis *)

(** The text of a record is not empty, has no zero byte and is read back. *)
Definition redis_reads (i : FileInfo) : Prop :=
  c_str (json_dump (info_json i)) ≠ [] ∧ json_parse (c_str (json_dump (info_json i))) = Some (info_json i).

Lemma c_str_idem s : c_str (c_str s) = c_str s.
Proof. induction s as [| c s IH]; [done |]. cbn. destruct (decide (c = x00)) eqn:E; [done |]. cbn. by rewrite E, IH. Qed.

Lemma leading_digits_all s : forallb isdigit s = true → leading_digits s = s.
Proof. induction s as [| c s IH]; [done |]. cbn. intros (-> & Hs)%andb_true_iff. by rewrite IH. Qed.

Lemma stoll_ll z : 0 <= z <= int64_max → stoll (ll_string z) = Some z.
Proof.
  intros Hz. destruct (ll_string_digits z) as (Hn & Hd & Hv); [lia |]. unfold stoll.
  assert (E : sign_of (skip_space (ll_string z)) = (false, ll_string z)).
  { destruct (ll_string z) as [| c s]; [done |]. cbn in Hd. apply andb_true_iff in Hd as [Hc _]. unfold isdigit in Hc.
    apply andb_true_iff in Hc as [Hlo Hhi]. apply Z.leb_le in Hlo, Hhi. cbn [skip_space].
    assert (Es : isspace c = false) by (unfold isspace; destruct (Z.eqb_spec (bval c) 32), (Z.leb_spec 9 (bval c)), (Z.leb_spec (bval c) 13); lia || done).
    rewrite Es. cbn [sign_of]. destruct (Z.eqb_spec (bval c) 45); [lia |]. destruct (Z.eqb_spec (bval c) 43); [lia |]. done. }
  rewrite E, (leading_digits_all _ Hd), (bool_decide_eq_false_2 _ Hn), Hv. unfold int64_max in *.
  destruct (Z.ltb_spec z (- 2 ^ 63)); [lia |]. by destruct (Z.ltb_spec (2 ^ 63 - 1) z); [lia |].
Qed.

Lemma parse_info_json i :
  - 2 ^ 31 <= fi_seq i < 2 ^ 31 → 0 <= fi_total i <= int64_max → 0 <= fi_trans i <= int64_max → parse_info (Some (info_json i)) = Some i.
Proof.
  intros Hs Ht Hr. unfold parse_info, number_at. 
  assert (E : ∀ k v, ChatLogic.at_key (Some (info_json i)) k = Some v → text_at (Some (info_json i)) k = get_string v ∧ int_at (Some (info_json i)) k = get_int v)
    by (intros k v Ek; unfold text_at, int_at; by rewrite Ek).
  destruct (E §"file_path_str" (JString (fi_path i)) eq_refl) as [-> _]. destruct (E §"name" (JString (fi_name i)) eq_refl) as [-> _]. destruct (E §"seq" (jnum (fi_seq i)) eq_refl) as [_ ->].
  destruct (E §"total_size" (JString (ll_string (fi_total i))) eq_refl) as [-> _]. destruct (E §"trans_size" (JString (ll_string (fi_trans i))) eq_refl) as [-> _]. cbn [get_string get_int mbind option_bind jnum].
  rewrite (stoll_ll (fi_total i)), (stoll_ll (fi_trans i)), s32_small by done. by destruct i.
Qed.

Definition upload_key (name : bytes) : bytes := c_str (§ "file_upload_" ++ name).
Definition stored (i : FileInfo) : bytes := c_str (json_dump (info_json i)).
Definition info_fits (i : FileInfo) : Prop :=
  redis_reads i ∧ 0 <= fi_seq i <= int_max ∧ 0 <= fi_total i <= int_max ∧ 0 <= fi_trans i <= int_max.

(** A stored record is read back. *)
Lemma stored_read i : info_fits i →
  match c_str (stored i) with [] => None | s => match json_parse s with None => None | root => parse_info root end end = Some i.
Proof.
  intros ((Hn & Hp) & Hs & Ht & Hr). unfold int_max in *. unfold stored. rewrite c_str_idem.
  destruct (c_str (json_dump (info_json i))) as [| c s] eqn:E; [done |]. rewrite Hp.
  apply (parse_info_json i); unfold int64_max; lia.
Qed.

Lemma GetDownloadInfo_stored name i s :
  as_redis s !! c_str (download_key name) = Some (stored i) → info_fits i → AvatarWorker.GetDownloadInfo name s [] = (Some (Some i), s, []).
Proof.
  intros Hk Hf. unfold AvatarWorker.GetDownloadInfo, redis_get, mbind, A_bind. cbn [tape_next io_ok]. rewrite Hk. cbn [option_map].
  pose proof (stored_read i Hf) as E. destruct (c_str (stored i)) as [| c l]; [done |].
  exact (f_equal (λ x, (Some x, s, [])) E).
Qed.

(** The packet of a download, and what is remembered of it. *)
Lemma download_run a f t s :
  content (as_disk s) (ad_path a) = Some f → 1 <= ad_seq a < int_max → (ad_seq a - 1) * MAX_FILE_LEN < zlen f <= int_max →
  let info k t := Info (path_string (ad_path a)) (ad_name a) k (zlen f) t in
  (ad_seq a = 1 ∨ as_redis s !! c_str (download_key (ad_name a)) = Some (stored (info (ad_seq a) t)) ∧ info_fits (info (ad_seq a) t)) →
  let data := zslice f ((ad_seq a - 1) * MAX_FILE_LEN) MAX_FILE_LEN in
  let current := (ad_seq a - 1) * MAX_FILE_LEN + zlen data in
  ∃ r, DownloadAvatar path_string a s [] = (Some (download_packet a data (zlen f) current), AState (as_disk s) (as_db s) r, []) ∧
    (current < zlen f → r !! c_str (download_key (ad_name a)) = Some (stored (info (ad_seq a + 1) current))).
Proof.
  intros Hc Hs Ho info Hi data current. unfold int_max in *.
  assert (Hex : is_Some (names (as_disk s) !! ad_path a)) by (unfold content in Hc; destruct (names _ !! _); [by eexists | done]).
  assert (Hdata : data ≠ []).
  { assert (0 < zlen data) as Hd; [| intros E; rewrite E in Hd; change (zlen (@nil Byte.byte)) with 0 in Hd; lia]. unfold data. unfold MAX_FILE_LEN in *. rewrite zlen_zslice_min; lia. }
  unfold DownloadAvatar. rewrite (A_step _ _ s [] true s []) by (unfold exists_path; by rewrite (A_step _ _ s [] IoOk s []), (A_step _ _ s [] (as_disk s) s []), (bool_decide_eq_true_2 _ Hex), orb_true_r by by destruct s).
  cbn [negb]. rewrite (A_step _ _ s [] IoOk s []), (A_step _ _ s [] (as_disk s) s []) by by destruct s. cbn [io_ok]. rewrite Hc.
  set (size := if ad_seq a =? 1 then _ else _).
  assert (Es : ∃ z r, size s [] = (Some z, s, []) ∧ ∃ q, download_info path_string a z s [] = (Some (inl (info (ad_seq a) r)), AState (as_disk s) (as_db s) q, [])).
  { subst size. unfold download_info. destruct (Z.eqb_spec (ad_seq a) 1) as [E1 |].
    - exists (zlen f), 0. split; [by destruct s |]. rewrite E1. by eexists.
    - destruct Hi as [? | [Hk Hf]]; [done |]. exists 0, t. split; [done |]. exists (as_redis s).
      rewrite (A_step _ _ _ _ _ _ _ (GetDownloadInfo_stored _ _ s Hk Hf)). cbn [info fi_seq]. rewrite Z.eqb_refl. by destruct s. }
  destruct Es as (z & r & Ez & q & Eq). rewrite (A_step _ _ _ _ _ _ _ Ez), (A_step _ _ _ _ _ _ _ Eq). cbn [fi_total info].
  destruct (Z.leb_spec (zlen f) ((ad_seq a - 1) * MAX_FILE_LEN)); [lia |].
  set (s1 := AState _ _ q). unfold send_packet. rewrite (A_step _ _ s1 [] data s1 []).
  2:{ unfold a_io, read_packet, mbind, IO_bind, syscall.
      destruct (Z.ltb_spec ((ad_seq a - 1) * MAX_FILE_LEN) 0); [unfold MAX_FILE_LEN in *; lia | reflexivity]. }
  rewrite (bool_decide_eq_false_2 _ Hdata). cbv zeta. cbn [fi_total fi_path fi_name fi_seq info]. fold current. destruct (Z.leb_spec (zlen f) current).
  - eexists. split; [done |]. lia.
  - eexists. split; [done |]. intros _. cbn. rewrite lookup_insert_eq. unfold stored, info. by rewrite s32_small by lia.
Qed.

(** ** Dispatch *)

(** The fields of a request as the server gets them. *)
Definition fields_of (o : qobject) (root : option json) : Prop :=
  ∃ o', root = Some (JObject o') ∧ ∀ k, assoc k o' = to_server <$> qassoc k o.

Lemma server_reads_fields o : server_reads o → fields_of o (json_parse (toJson o)).
Proof. unfold server_reads. intros ->. destruct (to_server_object o) as (o' & -> & Hk). by exists o'. Qed.

Lemma server_text o root k s : fields_of o root → qassoc k o = Some (QString s) → text_at root k = Some s.
Proof. intros (o' & -> & Hk) Eq. unfold text_at, ChatLogic.at_key. rewrite Hk, Eq. cbn. by rewrite to_server_string. Qed.

Lemma server_int o root k z : fields_of o root → qassoc k o = Some (QNumber z) → 0 <= z <= int_max → int_at root k = Some z.
Proof.
  unfold int_max. intros (o' & -> & Hk) Eq Hz. unfold int_at, ChatLogic.at_key. rewrite Hk, Eq. cbn. rewrite to_server_nat by lia. cbn. by rewrite s32_small by lia.
Qed.

Lemma GetFileInfo_stored name i f : f_redis f !! upload_key name = Some (stored i) → info_fits i → GetFileInfo name f [] = (Some (Some i), f, []).
Proof.
  intros Hk Hf. unfold GetFileInfo, ResourceDispatch.Get, mbind, F_bind. cbn [tape_next io_ok]. unfold upload_key in Hk. rewrite Hk. cbn [option_map].
  pose proof (stored_read i Hf) as E. destruct (c_str (stored i)) as [| c s]; [done |].
  exact (f_equal (λ x, (Some x, f, [])) E).
Qed.

Lemma remember_run name path seq total trans f :
  (seq = 1 ∨ ∃ q t, f_redis f !! upload_key name = Some (stored (Info path name q total t)) ∧ info_fits (Info path name q total t)) →
  remember_avatar seq total trans name path f [] =
    (Some None, Front (f_session f) (<[upload_key name := stored (Info path name seq total trans)]> (f_redis f)) (f_jobs f), []).
Proof.
  intros Hs. unfold remember_avatar, mbind, F_bind. destruct (Z.eqb_spec seq 1) as [-> | Hne]; [done |].
  destruct Hs as [? | (q & t & Hk & Hf)]; [done |]. rewrite (GetFileInfo_stored name _ f Hk Hf). done.
Qed.

(** The task the packet of an upload becomes. *)
Definition upload_task (uid : Z) (md5 name : bytes) (seq : Z) (data : bytes) (total last last_seq : Z) : FileTask :=
  Avatar uid (avatar_path out_path uid name) name seq total (s32 (zlen data + (seq - 1) * MAX_FILE_LEN)) last (toBase64 data) md5 last_seq.

Lemma upload_dispatched md5 name seq data total last last_seq w :
  server_reads (upload_packet md5 name seq data total last last_seq) →
  IsOpen (lifecycle (f_session w)) = true → authed (f_session w) = true → IsValidAvatarName name = true →
  0 <= seq <= int_max → 0 <= total <= int_max → 0 <= last <= int_max → 0 <= last_seq <= int_max →
  0 <= s32 (zlen data + (seq - 1) * MAX_FILE_LEN) <= int_max →
  let path := path_string (avatar_path out_path (user_uid (f_session w)) name) in
  (seq = 1 ∨ ∃ q t, f_redis w !! upload_key name = Some (stored (Info path name q total t)) ∧ info_fits (Info path name q total t)) →
  task_callback out_path path_string hash (MsgId_code MSG_UPLOAD_HEAD_ICON_REQ) (toJson (upload_packet md5 name seq data total last last_seq)) w [] =
    (Some tt, Front (f_session w)
       (<[upload_key name := stored (Info path name seq total (s32 (zlen data + (seq - 1) * MAX_FILE_LEN)))]> (f_redis w))
       (f_jobs w ++ [(Uploads (name_index hash name FILE_WORKER_COUNT),
                      JobAvatar (upload_task (user_uid (f_session w)) md5 name seq data total last last_seq))]), []).
Proof.
  intros Hr Ho Ha Hn Hs Ht Hl Hls Htr path Hk. rewrite (callback_handler out_path path_string hash MSG_UPLOAD_HEAD_ICON_REQ (handleUploadHeadIcon out_path path_string hash)) by done.
  apply server_reads_fields in Hr. unfold handleUploadHeadIcon. cbv zeta. set (root := json_parse _) in *.
  unfold mbind, F_bind, string_of, int_of, need.
  rewrite (server_text _ root §"md5" md5 Hr eq_refl), (server_int _ root §"seq" seq Hr eq_refl Hs), (server_text _ root §"name" name Hr eq_refl),
    (server_int _ root §"total_size" total Hr eq_refl Ht), (server_int _ root §"trans_size" _ Hr eq_refl Htr),
    (server_int _ root §"last" last Hr eq_refl Hl), (server_text _ root §"data" (toBase64 data) Hr eq_refl). unfold GetUserId.
  rewrite (server_int _ root §"last_seq" last_seq Hr eq_refl Hls), Hn. cbn [negb].
  rewrite (remember_run name path) by done. done.
Qed.

Lemma download_dispatched i req_type w :
  server_reads (download_request i req_type) →
  IsOpen (lifecycle (f_session w)) = true → authed (f_session w) = true → IsValidAvatarName (di_name i) = true → 0 <= di_seq i <= int_max →
  task_callback out_path path_string hash (MsgId_code MSG_DOWN_LOAD_FILE_REQ) (toJson (download_request i req_type)) w [] =
    (Some tt, Front (f_session w) (f_redis w)
       (f_jobs w ++ [(Downloads (name_index hash (di_name i) FILE_WORKER_COUNT),
          JobAvatarDown (AvatarDown (user_uid (f_session w)) (di_name i) (di_seq i)
            (avatar_path out_path (user_uid (f_session w)) (di_name i)) (di_path i) req_type))]), []).
Proof.
  intros Hr Ho Ha Hn Hs. rewrite (callback_handler out_path path_string hash MSG_DOWN_LOAD_FILE_REQ (handleDownloadFile out_path hash)) by done.
  apply server_reads_fields in Hr. unfold handleDownloadFile. cbv zeta. set (root := json_parse _) in *.
  unfold mbind, F_bind, string_of, int_of, need.
  rewrite (server_int _ root §"seq" (di_seq i) Hr eq_refl Hs), (server_text _ root §"name" (di_name i) Hr eq_refl). unfold GetUserId.
  rewrite (server_text _ root §"client_path" (di_path i) Hr eq_refl), (server_text _ root §"req_type" req_type Hr eq_refl), Hn. done.
Qed.

End link.
