(* ===== verification/AvatarEnd.v ===== *)
(** * The avatar round trip

    A user who is logged in at both ends uploads a picture and fetches it
    again: the packets go through the client's handlers, the dispatch of the
    ResourceServer and its workers until nothing is left to send. *)

From S2P Require Import Prelude ProtocolIds SessionLifecycle JsonFields UploadFile Database ResourceDb ChatUsers ChatSession ChatLogic ChatHandlers.
From S2P Require Import ClientSync SyncLoop ResourceTransfer ResourceSession ResourceDispatch ResourceCodec ResourceLink ClientHandlers DownloadProofs Base64 AvatarWorker AvatarClient AvatarLink.

#[local] Arguments zlen {_} _ : simpl never.

(** The front of the connection, the disk and the tables. *)
Record server := Server { sv_front : front; sv_disk : disk; sv_db : db }.

Section exchange.
Context `{!JsonLib, !QtText, !QtLib, !QtBase64}.
Context (out_path : path) (path_string : path → bytes) (hash : bytes → Z).

(** The avatar tasks of the workers. *)
Definition run_job (j : job) : A (option (MsgId * json)) :=
  match j with
  | JobAvatar a => r ← HandleUploadHeadIcon a; mret (pair MSG_UPLOAD_HEAD_ICON_RSP <$> r)
  | JobAvatarDown a => r ← DownloadAvatar path_string a; mret (Some (MSG_DOWN_LOAD_FILE_RSP, r))
  | _ => mret None
  end.

(** A frame is dispatched, the task it posts runs on the same Redis, and its
    answer goes back. *)
Definition serve (s : server) (id : MsgId) (data : bytes) : option (Z * bytes) * server :=
  let '(_, fr, _) := task_callback out_path path_string hash (MsgId_code id) data (sv_front s) [] in
  match head (drop (length (f_jobs (sv_front s))) (f_jobs fr)) with
  | None => (None, Server fr (sv_disk s) (sv_db s))
  | Some (_, j) =>
      let '(r, a, _) := run_job j (AState (sv_disk s) (sv_db s) (f_redis fr)) [] in
      ((λ x : MsgId * json, (MsgId_code x.1, json_dump x.2)) <$> default None r,
       Server (Front (f_session fr) (as_redis a) (f_jobs fr)) (as_disk a) (as_db a))
  end.

(** Client and server take turns until nothing is left to send. *)
Fixpoint exchange (fuel : nat) (c : client) (s : server) (out : list action) : client * server * list action :=
  match fuel, out with
  | S fuel, SendData id data :: out =>
      match serve s id data with
      | (None, s) => exchange fuel c s out
      | (Some (rsp, body), s) => let '(more, c, _) := handleAvatarFrame rsp body c [] in exchange fuel c s (more ++ out)
      end
  | S fuel, _ :: out => exchange fuel c s out
  | _, _ => (c, s, out)
  end.

End exchange.

Section round_trip.
Context `{!JsonLib, !QtText, !QtLib, !QtLaws, !Wire, !WireLaws, !QtBase64, !QtBase64Laws}.
Context (out_path : path) (path_string : path → bytes) (hash : bytes → Z).
#[local] Set Default Proof Using "Type*".

(** A user, a picture and where the client keeps it. *)
Context (sess : session) (name file source : bytes).
#[local] Abbreviation N := (zlen file).
#[local] Abbreviation M := MAX_FILE_LEN.
#[local] Abbreviation uid := (user_uid sess).
#[local] Abbreviation target := (avatar_path out_path uid name).
#[local] Abbreviation serve := (serve out_path path_string hash).
#[local] Abbreviation exchange := (exchange out_path path_string hash).

Hypothesis open : IsOpen (lifecycle sess) = true.
Hypothesis logged_in : authed sess = true.
Hypothesis valid_name : IsValidAvatarName name = true.
Hypothesis file_fits : 0 < N < int_max.

(** ** The packets *)

Definition packet (k : Z) : bytes := zslice file ((k - 1) * M) M.
Definition last_flag (k : Z) : Z := if N <=? k * M then 1 else 0.
Definition packets : Z := if N mod M =? 0 then N / M else N / M + 1.

Definition up_request (k : Z) : qobject := upload_packet (md5_hex file) name k (packet k) N (last_flag k) packets.
Definition up_task (k : Z) : FileTask := upload_task out_path uid (md5_hex file) name k (packet k) N (last_flag k) packets.
Definition up_reply (k : Z) : json := upload_reply (up_task k) (CommonErrCode_code ERR_SUCCESS).
Definition up_info (k : Z) : FileInfo := Info (path_string target) name k N (Z.min (k * M) N).

(** The numbers of the packets. *)
Definition packet_no (k : Z) : Prop := 1 <= k ∧ (k - 1) * M < N.

Lemma packet_len k : packet_no k → zlen (packet k) + (k - 1) * M = Z.min (k * M) N.
Proof. unfold packet_no, packet, MAX_FILE_LEN. intros [H1' H2']. rewrite zlen_zslice_min; lia. Qed.

Lemma packet_small k : packet_no k → k <= N ∧ s32 (zlen (packet k) + (k - 1) * M) = Z.min (k * M) N.
Proof.
  intros Hk. rewrite packet_len by done. unfold packet_no, MAX_FILE_LEN, int_max in *. split; [lia |]. apply s32_small. lia.
Qed.

Lemma packets_fit : 0 <= packets <= int_max.
Proof.
  unfold packets, MAX_FILE_LEN, int_max in *. pose proof (Z.div_le_upper_bound N (1024 * 32) N ltac:(lia) ltac:(lia)).
  pose proof (Z.div_pos N (1024 * 32) ltac:(lia) ltac:(lia)).
  assert (N / (1024 * 32) < N) by (apply Z.div_lt; lia). destruct (_ =? 0); lia.
Qed.

Lemma last_flag_fits k : 0 <= last_flag k <= int_max.
Proof. unfold last_flag, int_max. destruct (_ <=? _); lia. Qed.

(** The file up to a packet. *)
Lemma packet_append k : 1 <= k → ztake ((k - 1) * M) file ++ packet k = ztake (k * M) file.
Proof.
  intros Hk. unfold packet. change (ztake ((k - 1) * M) file) with (zslice file 0 ((k - 1) * M)).
  pose proof (zslice_step file 0 ((k - 1) * M) M) as E. rewrite Z.add_0_l in E. rewrite E by (unfold MAX_FILE_LEN; lia).
  unfold zslice, ztake. rewrite drop_0. f_equal. lia.
Qed.

(** ** Uploading *)

(** The texts of an upload are read as they were written. *)
Definition up_texts : Prop :=
  ∀ k, packet_no k → server_reads (up_request k) ∧ client_reads (up_reply k) ∧ redis_reads (up_info k).

(** The server before the [k]-th packet. *)
Record receiving (u : user_row) (k : Z) (s : server) : Prop := {
  rv_session : f_session (sv_front s) = sess;
  rv_room : room_for target (sv_disk s);
  rv_user : users (sv_db s) !! uid = Some u;
  rv_part : k = 1 ∨ 1 < k ∧ content (sv_disk s) target = Some (ztake ((k - 1) * M) file) ∧
    f_redis (sv_front s) !! upload_key name = Some (stored (up_info (k - 1)));
}.

Lemma up_info_fits k : up_texts → packet_no k → info_fits (up_info k).
Proof.
  intros Ht Hk. destruct (Ht k Hk) as (_ & _ & Hr). split; [done |]. destruct (packet_small k Hk) as [Hs _].
  cbn [up_info fi_seq fi_total fi_trans]. unfold packet_no, MAX_FILE_LEN, int_max in *. lia.
Qed.

Lemma serve_upload u k s :
  up_texts → packet_no k → receiving u k s →
  ∃ s', serve s MSG_UPLOAD_HEAD_ICON_REQ (toJson (up_request k)) = (Some (MsgId_code MSG_UPLOAD_HEAD_ICON_RSP, json_dump (up_reply k)), s') ∧
    f_session (sv_front s') = sess ∧ content (sv_disk s') target = Some (ztake (k * M) file) ∧
    if N <=? k * M then users (sv_db s') !! uid = Some (with_avatar name u)
    else receiving u (k + 1) s'.
Proof.
  intros Ht Hk [Es Hroom Hu Hpart]. destruct (Ht k Hk) as (Hq & _ & _). destruct (packet_small k Hk) as [Hkn Htr].
  assert (Hk' : 1 <= k) by by destruct Hk.
  unfold AvatarEnd.serve. unfold up_request.
  rewrite (upload_dispatched out_path path_string hash (md5_hex file) name k (packet k) N (last_flag k) packets (sv_front s)); rewrite ?Es; try done;
    rewrite ?Htr; try apply packets_fit; try apply last_flag_fits; try (unfold int_max, MAX_FILE_LEN in *; lia).
  2:{ destruct Hpart as [? | (H2' & _ & Hr)]; [by left | right]. exists (k - 1), (Z.min ((k - 1) * M) N).
      split; [exact Hr |]. apply (up_info_fits (k - 1) Ht). unfold packet_no, MAX_FILE_LEN in *. lia. }
  cbn [f_jobs f_session f_redis]. rewrite drop_app_length. cbn [head].
  set (a0 := AState (sv_disk s) (sv_db s) _).
  destruct (upload_run (up_task k) (packet k) u a0) as (a1 & Erun & Hroom1 & Hc & Hdb); [| done | done | done |].
  { cbn [up_task upload_task av_data]. rewrite toBase64_rfc. apply base64_round_trip. }
  cbn [run_job]. rewrite (A_step _ _ _ _ _ _ _ Erun). cbn [mret A_ret fmap option_fmap option_map default fst snd].
  eexists. split; [done |]. cbn [sv_front f_session sv_disk sv_db f_redis]. split; [done |]. cbn [up_task upload_task av_path av_seq av_last av_uid as_disk a0] in *.
  assert (Hc' : content (as_disk a1) target = Some (ztake (k * M) file)).
  { rewrite Hc. f_equal. destruct (Z.eqb_spec k 1) as [-> |].
    - rewrite <- (packet_append 1) by lia. done.
    - destruct Hpart as [? | (_ & -> & _)]; [done |]. apply packet_append. lia. }
  split; [exact Hc' |]. unfold last_flag in Hdb. destruct (N <=? k * M) eqn:El; cbn [Z.eqb] in Hdb.
  - rewrite Hdb. unfold update_avatar. subst a0. cbn [as_db]. rewrite Hu. cbn. by rewrite lookup_insert_eq.
  - destruct Hdb as [Edb Er]. split; cbn [sv_front f_session sv_disk sv_db f_redis]; [done | done | by rewrite Edb |].
    right. split; [lia |]. replace (k + 1 - 1) with k by lia. split; [done |]. rewrite Er. subst a0. cbn [as_redis].
    unfold up_info. by rewrite lookup_insert_eq.
Qed.

(** ** The client's turns *)

Lemma C_step {T U} (m : C T) (k : T → C U) c t x c' t' : m c t = (x, c', t') → (m ≫= k) c t = k x c' t'.
Proof. intros E. unfold mbind, C_bind. by rewrite E. Qed.

Lemma open_file_run path f c : c_files c !! path = Some f → open_file path c [] = (Some f, c, []).
Proof. intros Hf. unfold open_file, mbind, C_bind, c_call, the_client. cbn. by rewrite Hf. Qed.

Lemma read_at_run f off c : 0 <= off → read_at f off c [] = (zslice f off M, c, []).
Proof. intros Ho. unfold read_at, mbind, C_bind, c_call. cbn [tape_next]. by destruct (Z.ltb_spec off 0); [lia |]. Qed.

Lemma client_reads_object o : client_reads (JObject o) →
  ∃ v, fromJson (json_dump (JObject o)) = Some v ∧
    (∀ key, contains (object_of v) key = bool_decide (is_Some (assoc key o))) ∧
    ∀ key x, assoc key o = Some x → value (object_of v) key = to_client x.
Proof.
  unfold client_reads. intros ->. eexists. split; [done |]. split; [intros key; apply (contains_client o) |].
  intros key x Ex. change (object_of _) with (client_object (JObject o)). rewrite value_client. by rewrite Ex.
Qed.

Definition fields_of_reply (j : json) : list (bytes * json) := match j with JObject o => o | _ => [] end.

Definition up_send (k : Z) : action := send_request MSG_UPLOAD_HEAD_ICON_REQ (up_request k).

Lemma client_upload k c :
  up_texts → packet_no k → c_uploads c !! name = Some source → c_files c !! source = Some file →
  handleUploadHeadIconRsp (json_dump (up_reply k)) c [] =
    if N <=? k * M then ([], RmvUploadFile name c, []) else ([up_send (k + 1)], c, []).
Proof.
  intros Ht Hk Hup Hfile. destruct (Ht k Hk) as (_ & Hr & _). destruct (packet_small k Hk) as [Hkn Htr].
  change (up_reply k) with (JObject (fields_of_reply (up_reply k))) in *. set (fs := fields_of_reply (up_reply k)) in *.
  destruct (client_reads_object _ Hr) as (v & Ev & Hc & V).
  assert (Hb : 1 <= k) by by destruct Hk. pose proof packets_fit as Hpk. unfold int_max in *.
  unfold handleUploadHeadIconRsp. rewrite Ev. cbv zeta.
  rewrite (Hc §"error"), (bool_decide_eq_true_2 (is_Some (assoc §"error" fs))) by by eexists.
  set (a := up_task k) in *. assert (Et : av_trans a = Z.min (k * M) N) by exact Htr.
  rewrite (V §"error" (jnum 0) eq_refl), (V §"total_size" (jnum (av_total a)) eq_refl), (V §"trans_size" (jnum (av_trans a)) eq_refl),
    (V §"name" (JString (av_name a)) eq_refl), (V §"seq" (jnum (av_seq a)) eq_refl), (V §"md5" (JString (av_md5 a)) eq_refl),
    (V §"last_seq" (jnum (av_last_seq a)) eq_refl). rewrite Et. cbn [av_total av_name av_seq av_md5 av_last_seq a up_task upload_task].
  rewrite !toString_string, !toInt_jnum by (unfold int_max, MAX_FILE_LEN; lia). cbn [negb Z.eqb].
  destruct (Z.eqb_spec N (Z.min (k * M) N)) as [El | El]; destruct (Z.leb_spec N (k * M)) as [El' | El']; try lia; [done |].
  rewrite (C_step _ _ c [] c c []) by done. unfold GetUploadInfoByName. rewrite Hup.
  rewrite (C_step _ _ _ _ _ _ _ (open_file_run _ _ _ Hfile)). cbv zeta. rewrite Z.min_l by lia.
  rewrite (C_step _ _ _ _ _ _ _ (read_at_run file (k * M) c ltac:(unfold MAX_FILE_LEN; lia))). rewrite (s32_small (k + 1)) by lia.
  assert (Hk1 : packet_no (k + 1)) by (split; unfold MAX_FILE_LEN in *; lia). destruct (packet_small _ Hk1) as [_ Htr1].
  assert (Ep : zslice file (k * M) M = packet (k + 1)) by (unfold packet; f_equal; lia). rewrite Ep, Htr1.
  unfold up_send, up_request, last_flag. do 8 f_equal.
  destruct (Z.leb_spec N (Z.min ((k + 1) * M) N)), (Z.leb_spec N ((k + 1) * M)); lia || done.
Qed.

Lemma write_file_run path data append c :
  write_file path data append c [] =
    (true, with_files (<[path := (if append then default [] (c_files c !! path) else []) ++ data]> (c_files c)) c, []).
Proof. done. Qed.

(** ** A whole upload *)

Lemma exchange_upload n u k c s fuel rest :
  up_texts → packet_no k → (k - 1 + Z.of_nat n) * M < N <= (k + Z.of_nat n) * M → receiving u k s →
  c_uploads c !! name = Some source → c_files c !! source = Some file →
  ∃ s', exchange (S n + fuel) c s (up_send k :: rest) = exchange fuel (RmvUploadFile name c) s' rest ∧
    f_session (sv_front s') = sess ∧ content (sv_disk s') target = Some file ∧ users (sv_db s') !! uid = Some (with_avatar name u).
Proof.
  intros Ht. revert k s. induction n as [| n IH]; intros k s Hk Hn Hs Hup Hf; cbn [Nat.add AvatarEnd.exchange up_send send_request];
    destruct (serve_upload u k s Ht Hk Hs) as (s1 & -> & Hsess & Hc & Hnext); unfold handleAvatarFrame; cbn [MsgId_code Z.eqb Pos.eqb];
    rewrite (client_upload k c Ht Hk Hup Hf); destruct (Z.leb_spec N (k * M)) as [El | El]; try lia.
  - exists s1. rewrite ztake_all in Hc by lia. done.
  - exfalso. unfold MAX_FILE_LEN in *. nia.
  - apply (IH (k + 1) s1); try done; [split; unfold MAX_FILE_LEN in *; destruct Hk; lia | lia].
Qed.

Lemma UploadIcon_run c : c_files c !! source = Some file →
  UploadIcon name source c [] = ([up_send 1; sig_reset_head], AddUploadFile name source (SetIcon name c), []).
Proof.
  intros Hf. unfold UploadIcon. rewrite (C_step _ _ _ _ _ _ _ (open_file_run _ _ _ Hf)). rewrite (C_step _ _ c [] IoOk c []) by done.
  cbn [io_ok negb]. cbv zeta. rewrite (C_step _ _ _ _ _ _ _ (read_at_run file 0 c ltac:(done))).
  assert (H1' : packet_no 1) by (split; unfold MAX_FILE_LEN in *; lia). destruct (packet_small 1 H1') as [_ Hl].
  assert (Ep : packet 1 = zslice file 0 M) by (unfold packet; change ((1 - 1) * M) with 0; reflexivity). rewrite <- Ep. unfold int_max in *. rewrite (s32_small N) by lia.
  assert (El : (if s32 (zlen (packet 1)) =? N then 1 else 0) = last_flag 1).
  { change ((1 - 1) * M) with 0 in Hl. rewrite Z.add_0_r in Hl. rewrite Hl. unfold last_flag.
    destruct (Z.eqb_spec (Z.min (1 * M) N) N), (Z.leb_spec N (1 * M)); lia || done. }
  rewrite El. reflexivity.
Qed.

(** ** Downloading *)

Section download.
Context (dest req_type : bytes).

Definition down_request (k : Z) : qobject := download_request (DInfo name 0 0 k dest) req_type.
Definition down_send (k : Z) : action := send_request MSG_DOWN_LOAD_FILE_REQ (down_request k).
Definition down_task (k : Z) : DownloadTask := AvatarDown uid name k target dest req_type.
Definition down_reply (k : Z) : json := download_packet (down_task k) (packet k) N (Z.min (k * M) N).
Definition down_info (k : Z) : FileInfo := Info (path_string target) name k N ((k - 1) * M).

Definition down_texts : Prop :=
  ∀ k, packet_no k → server_reads (down_request k) ∧ client_reads (down_reply k) ∧ redis_reads (down_info k).

(** The server before the [k]-th packet is asked for. *)
Record sending (k : Z) (s : server) : Prop := {
  sn_session : f_session (sv_front s) = sess;
  sn_file : content (sv_disk s) target = Some file;
  sn_info : k = 1 ∨ f_redis (sv_front s) !! c_str (download_key name) = Some (stored (down_info k));
}.

Lemma serve_download k s :
  down_texts → packet_no k → sending k s →
  ∃ s', serve s MSG_DOWN_LOAD_FILE_REQ (toJson (down_request k)) = (Some (MsgId_code MSG_DOWN_LOAD_FILE_RSP, json_dump (down_reply k)), s') ∧
    sv_disk s' = sv_disk s ∧ sv_db s' = sv_db s ∧ f_session (sv_front s') = sess ∧ (k * M < N → sending (k + 1) s').
Proof.
  intros Ht Hk [Es Hf Hi]. destruct (Ht k Hk) as (Hq & _ & Hr). destruct (packet_small k Hk) as [Hkn _]. pose proof (packet_len k Hk) as Hl.
  assert (Hb : 1 <= k) by by destruct Hk. assert (Hlt : (k - 1) * M < N) by by destruct Hk. unfold int_max in *.
  unfold AvatarEnd.serve, down_request.
  rewrite (download_dispatched out_path path_string hash (DInfo name 0 0 k dest) req_type (sv_front s)); rewrite ?Es; try done; [| cbn [di_seq]; unfold int_max; lia].
  cbn [f_jobs f_session f_redis]. rewrite drop_app_length. cbn [head di_name di_seq di_path]. set (a0 := AState _ _ _).
  destruct (download_run path_string (down_task k) file ((k - 1) * M) a0) as (r & Erun & Hnext);
    [exact Hf | cbn; unfold int_max; lia | cbn [ad_seq down_task]; unfold int_max; lia | |].
  { cbn [down_task ad_seq ad_name ad_path]. destruct Hi as [? | Hi]; [by left | right]. split; [exact Hi |]. split; [exact Hr |].
    cbn [fi_seq fi_total fi_trans]. unfold MAX_FILE_LEN, int_max in *. lia. }
  cbn [run_job]. cbn [down_task ad_seq ad_name ad_path] in Erun, Hnext. assert (Ep : zslice file ((k - 1) * M) M = packet k) by (unfold packet; reflexivity).
  rewrite Ep in Erun, Hnext. rewrite (Z.add_comm ((k - 1) * M)), Hl in Erun, Hnext.
  change (download_packet _ _ _ _) with (down_reply k) in Erun.
  rewrite (A_step _ _ _ _ _ _ _ Erun). cbn [mret A_ret default fst snd fmap option_fmap option_map].
  eexists. split; [reflexivity |]. cbn [sv_disk sv_db sv_front f_session as_disk as_db]. split; [reflexivity |]. split; [reflexivity |].
  split; [reflexivity |]. intros El. split; [reflexivity | exact Hf |]. right.
  cbn [sv_front f_redis as_redis]. rewrite Hnext by lia. unfold down_info. do 3 f_equal. lia.
Qed.

Lemma client_download k c i :
  down_texts → packet_no k → c_downloads c !! name = Some i → di_name i = name → di_path i = dest →
  (k = 1 ∨ c_files c !! dest = Some (ztake ((k - 1) * M) file)) →
  ∃ out c', handleDownloadFileRsp (json_dump (down_reply k)) c [] = (out, c', []) ∧
    c_files c' = <[dest := ztake (k * M) file]> (c_files c) ∧
    if N <=? k * M then c_downloads c' = delete name (c_downloads c) ∧ out = (if bool_decide (req_type = § "self_icon") then [sig_reset_label_icon dest] else [])
    else out = [down_send (k + 1)] ∧ ∃ i', c_downloads c' = <[name := i']> (c_downloads c) ∧ di_name i' = name ∧ di_path i' = dest.
Proof.
  intros Ht Hk Hi Hin Hip Hold. destruct (Ht k Hk) as (_ & Hr & _). destruct (packet_small k Hk) as [Hkn _].
  assert (Hb : 1 <= k) by by destruct Hk. unfold int_max in *.
  change (down_reply k) with (JObject (fields_of_reply (down_reply k))) in *. set (fs := fields_of_reply (down_reply k)) in *.
  destruct (client_reads_object _ Hr) as (v & Ev & Hc & V).
  unfold handleDownloadFileRsp. rewrite Ev. cbv zeta.
  rewrite (Hc §"error"), (bool_decide_eq_true_2 (is_Some (assoc §"error" fs))) by by eexists.
  set (a := down_task k) in *.
  rewrite (V §"error" (jnum 0) eq_refl), (V §"client_path" (JString (ad_client a)) eq_refl), (V §"seq" (jnum (ad_seq a)) eq_refl),
    (V §"name" (JString (ad_name a)) eq_refl), (V §"req_type" (JString (ad_type a)) eq_refl),
    (V §"data" (JString (base64_encode false (packet k))) eq_refl), (V §"is_last" (JBool (N <=? Z.min (k * M) N)) eq_refl).
  cbn [ad_client ad_seq ad_name ad_type a down_task]. rewrite !toString_string, !toInt_jnum, to_client_bool by (unfold int_max; lia). cbn [negb Z.eqb toBool].
  rewrite (C_step _ _ c [] c c []) by done. unfold AvatarClient.GetDownloadInfo. rewrite Hi. rewrite fromBase64_rfc.
  set (i1 := DInfo (di_name i) _ _ (di_seq i) (di_path i)). set (c1 := AddDownloadFile name i1 c).
  rewrite (C_step (c_update (AddDownloadFile name i1)) _ c [] tt c1 []) by reflexivity. rewrite (C_step _ _ _ _ _ _ _ (write_file_run dest (packet k) (negb (k =? 1)) c1)). cbn [negb].
  set (c2 := with_files _ c1).
  assert (Ef : c_files c2 = <[dest := ztake (k * M) file]> (c_files c)).
  { subst c2 c1. cbn [with_files c_files AddDownloadFile with_downloads]. do 2 f_equal.
    destruct (Z.eqb_spec k 1) as [-> |]; cbn [negb]; [by rewrite <- (packet_append 1) by lia |].
    destruct Hold as [? | ->]; [done |]. apply packet_append. lia. }
  assert (Ed : c_downloads c2 = <[name := i1]> (c_downloads c)) by done.
  destruct (Z.leb_spec N (Z.min (k * M) N)) as [El | El]; destruct (Z.leb_spec N (k * M)) as [El' | El']; try lia.
  - rewrite (C_step _ _ c2 [] tt (RmvDownloadFile name c2) []) by done. eexists _, _. split; [reflexivity |]. split; [exact Ef |].
    split; [| done]. cbn [RmvDownloadFile with_downloads c_downloads]. by rewrite Ed, delete_insert_eq.
  - set (i2 := DInfo _ _ _ _ _). rewrite (C_step _ _ c2 [] tt (AddDownloadFile name i2 c2) []) by done. eexists _, _.
    split; [reflexivity |]. split; [exact Ef |]. split.
    + subst i2 i1. unfold SendDownloadInfo, down_send, down_request, download_request. cbn [di_name di_seq di_path]. by rewrite s32_small, Hin, Hip by lia.
    + exists i2. split; [| done]. cbn [AddDownloadFile with_downloads c_downloads]. by rewrite Ed, insert_insert_eq.
Qed.

Lemma exchange_download n k c s i fuel :
  down_texts → packet_no k → (k - 1 + Z.of_nat n) * M < N <= (k + Z.of_nat n) * M → sending k s →
  c_downloads c !! name = Some i → di_name i = name → di_path i = dest →
  (k = 1 ∨ c_files c !! dest = Some (ztake ((k - 1) * M) file)) →
  ∃ c' s', exchange (S (S n) + fuel) c s [down_send k] = (c', s', []) ∧ sv_disk s' = sv_disk s ∧ sv_db s' = sv_db s ∧
    c_files c' = <[dest := file]> (c_files c) ∧ c_downloads c' = delete name (c_downloads c).
Proof.
  intros Ht. revert k c s i. induction n as [| n IH]; intros k c s i Hk Hn Hs Hi Hin Hip Hold;
    cbn [Nat.add AvatarEnd.exchange down_send send_request];
    destruct (serve_download k s Ht Hk Hs) as (s1 & -> & Ed & Eb & Hsess & Hnext); unfold handleAvatarFrame; cbn [MsgId_code Z.eqb Pos.eqb];
    destruct (client_download k c i Ht Hk Hi Hin Hip Hold) as (out & c1 & -> & Ef & Hc); destruct (Z.leb_spec N (k * M)) as [El | El]; try lia.
  - destruct Hc as [Edl ->]. exists c1, s1. rewrite ztake_all in Ef by lia. destruct (bool_decide _); destruct fuel; done.
  - exfalso. unfold MAX_FILE_LEN in *. nia.
  - destruct Hc as [-> (i' & Edl & Hin' & Hip')]. rewrite app_nil_r.
    destruct (IH (k + 1) c1 s1 i') as (c' & s' & E & Ed' & Eb' & Ef' & Edl'); try done.
    + split; unfold MAX_FILE_LEN in *; destruct Hk; lia.
    + lia.
    + apply Hnext. lia.
    + by rewrite Edl, lookup_insert_eq.
    + right. replace (k + 1 - 1) with k by lia. by rewrite Ef, lookup_insert_eq.
    + exists c', s'. split; [exact E |]. rewrite Ed', Eb', Ef', Edl', Ef, Edl, insert_insert_eq, delete_insert_eq. done.
Qed.
End download.

(** ** There and back *)

(** How often the server is asked is bounded by the packets. *)
Lemma packets_enough : ∃ n, (n <= Z.to_nat (N / M))%nat ∧ (1 - 1 + Z.of_nat n) * M < N <= (1 + Z.of_nat n) * M.
Proof.
  pose proof (Z.div_mod N M ltac:(done)) as Hd. pose proof (Z.mod_pos_bound N M ltac:(done)) as Hm. unfold MAX_FILE_LEN in *.
  destruct (Z.eq_dec (N mod (1024 * 32)) 0) as [E | E].
  - exists (Z.to_nat (N / (1024 * 32) - 1)). assert (0 < N / (1024 * 32)) by lia. split; [lia |]. rewrite Z2Nat.id by lia. lia.
  - exists (Z.to_nat (N / (1024 * 32))). assert (0 <= N / (1024 * 32)) by (apply Z.div_pos; lia). split; [lia |]. rewrite Z2Nat.id by lia. lia.
Qed.

Context (dest req_type : bytes).

(** C26: a user who is logged in uploads a picture under a valid name: when
    nothing fails, after at most one request per packet the client has nothing
    more to send and has forgotten the upload, the server holds exactly the
    bytes of the picture in the user's directory, and the user's avatar in the
    tables is its name; fetching it then ends as well, with the same bytes in
    the file the client asked for and no other file of the client changed. *)
Theorem avatar_round_trip u c s fuel :
  f_session (sv_front s) = sess → room_for target (sv_disk s) → users (sv_db s) !! uid = Some u →
  c_files c !! source = Some file → c_downloads c !! name = None → up_texts → down_texts dest req_type →
  (Z.to_nat (N / M) + 2 < fuel)%nat →
  ∃ out c1 c2 s2, UploadIcon name source c [] = (out, c1, []) ∧ exchange fuel c1 s out = (c2, s2, []) ∧
    c_uploads c2 !! name = None ∧ c_files c2 = c_files c ∧ content (sv_disk s2) target = Some file ∧
    users (sv_db s2) !! uid = Some (with_avatar name u) ∧
  ∃ out' c3 c4 s4, LoadHeadIcon dest name req_type c2 [] = (out', c3, []) ∧ exchange fuel c3 s2 out' = (c4, s4, []) ∧
    c_files c4 = <[dest := file]> (c_files c) ∧ c_downloads c4 = c_downloads c ∧ sv_disk s4 = sv_disk s2.
Proof.
  intros Es Hr Hu Hf Hno Ht Htd Hfuel. destruct packets_enough as (n & Hn1 & Hn).
  assert (H1' : packet_no 1) by (split; unfold MAX_FILE_LEN in *; lia).
  destruct (exchange_upload n u 1 (AddUploadFile name source (SetIcon name c)) s (fuel - S n) [sig_reset_head] Ht H1' Hn) as (s2 & E & Es2 & Hc & Hu2).
  { split; [done | done | done | by left]. }
  { cbn. by rewrite lookup_insert_eq. }
  { done. }
  set (c2 := RmvUploadFile name _) in E. exists [up_send 1; sig_reset_head], (AddUploadFile name source (SetIcon name c)), c2, s2.
  split; [by apply UploadIcon_run |]. split.
  { replace fuel with (S n + (fuel - S n))%nat by lia. rewrite E. destruct (fuel - S n)%nat as [| [| k]] eqn:Ek; [lia | done | done]. }
  split; [cbn; by rewrite lookup_delete_eq |]. split; [done |]. split; [done |]. split; [done |].
  set (i := DInfo name 0 0 1 dest). set (c3 := AddDownloadFile name i c2).
  destruct (exchange_download dest req_type n 1 c3 s2 i (fuel - S (S n)) Htd H1' Hn) as (c4 & s4 & E4 & Ed4 & _ & Ef4 & Edl4); try done.
  { split; [done | done | by left]. }
  { cbn. by rewrite lookup_insert_eq. }
  { by left. }
  exists [down_send dest req_type 1], c3, c4, s4. split.
  { unfold LoadHeadIcon. rewrite (C_step _ _ c2 [] c2 c2 []) by done. unfold IsDownLoading. change (c_downloads c2) with (c_downloads c).
    rewrite Hno. rewrite bool_decide_eq_false_2 by apply is_Some_None. done. }
  split; [by replace fuel with (S (S n) + (fuel - S (S n)))%nat by lia |]. split; [done |]. split; [| done].
  rewrite Edl4. cbn. by rewrite delete_insert_id.
Qed.

End round_trip.

(** ** A small picture *)

#[local] Existing Instances demo_wire demo_wire_laws demo_qt demo_qt_laws.

#[local] Instance demo_base64 : QtBase64 := {| toBase64 := base64_encode false; fromBase64 b := default [] (base64_decode b false); md5_hex _ := § "md5" |}.
#[local] Instance demo_base64_laws : QtBase64Laws.
Proof. constructor; [done |]. intros b. cbn [fromBase64 demo_base64]. by rewrite base64_round_trip. Qed.

Definition demo_out : path := Path true [§ "avatars"].
Definition demo_string (p : path) : bytes := concat (rcomps p).
Definition demo_session : session := f_session front_logged.
Definition demo_picture : bytes := § "xyz".

(** Libraries that know the texts of this exchange. *)
Definition demo_parse (text : bytes) : option json :=
  if bool_decide (text = § "up") then Some (to_server (QObject (up_request (§ "a.png") demo_picture 1)))
  else if bool_decide (text = § "down") then Some (to_server (QObject (down_request (§ "a.png") (§ "dest") (§ "self_icon") 1)))
  else if bool_decide (text = § "received") then Some (info_json (up_info demo_out demo_string demo_session (§ "a.png") demo_picture 1))
  else if bool_decide (text = § "sent") then Some (info_json (down_info demo_out demo_string demo_session (§ "a.png") demo_picture 1))
  else None.

Definition demo_dump (j : json) : bytes :=
  match j with
  | JObject o =>
      if bool_decide (is_Some (assoc §"file_path_str" o)) then
        match assoc §"trans_size" o with Some (JString t) => if bool_decide (t = § "3") then § "received" else § "sent" | _ => [] end
      else if bool_decide (is_Some (assoc §"data" o)) then § "packet" else § "done"
  | _ => []
  end.

#[local] Instance demo_json : JsonLib := {| json_parse := demo_parse; json_dump := demo_dump |}.
#[local] Instance demo_text : QtText := {|
  fromJson text :=
    if bool_decide (text = § "done") then Some (to_client (up_reply demo_out demo_session (§ "a.png") demo_picture 1))
    else Some (to_client (down_reply demo_out demo_session (§ "a.png") demo_picture (§ "dest") (§ "self_icon") 1));
  toJson o := if bool_decide (is_Some (qassoc §"md5" o)) then § "up" else § "down";
  toULongLong _ := None |}.

Definition demo_client : client := Client {[§ "source" := demo_picture]} ∅ ∅ [].
Definition demo_user : user_row := UserRow (§ "u") (§ "u@x") [] no_profile 0.
Definition demo_server : server :=
  Server front_logged (Disk ∅ ∅ ∅ ∅ ∅) (Db {[user_uid demo_session := demo_user]} ∅ ∅ ∅ ∅ ∅ ∅ 1).

Lemma avatar_round_trip_witness :
  ∃ out c1 c2 s2, UploadIcon (§ "a.png") (§ "source") demo_client [] = (out, c1, []) ∧
    exchange demo_out demo_string (λ _, 0) 3 c1 demo_server out = (c2, s2, []) ∧
    content (sv_disk s2) (avatar_path demo_out (user_uid demo_session) (§ "a.png")) = Some demo_picture ∧
  ∃ out' c3 c4 s4, LoadHeadIcon (§ "dest") (§ "a.png") (§ "self_icon") c2 [] = (out', c3, []) ∧
    exchange demo_out demo_string (λ _, 0) 3 c3 s2 out' = (c4, s4, []) ∧ c_files c4 !! § "dest" = Some demo_picture.
Proof.
  assert (Hone : ∀ k, packet_no demo_picture k → k = 1).
  { intros k [Hk1 Hk2]. change (zlen demo_picture) with 3 in Hk2. unfold MAX_FILE_LEN in Hk2. lia. }
  destruct (avatar_round_trip demo_out demo_string (λ _, 0) demo_session (§ "a.png") demo_picture (§ "source") eq_refl eq_refl eq_refl
    ltac:(vm_compute; auto) (§ "dest") (§ "self_icon") demo_user demo_client demo_server 3)
    as (out & c1 & c2 & s2 & E1 & E2 & _ & _ & E3 & _ & out' & c3 & c4 & s4 & E4 & E5 & E6 & _).
  - reflexivity.
  - split; [intros a _; apply lookup_empty | apply not_elem_of_empty | done].
  - vm_compute. reflexivity.
  - vm_compute. reflexivity.
  - reflexivity.
  - intros k ->%Hone. split_and!; vm_compute; done.
  - intros k ->%Hone. split_and!; vm_compute; done.
  - vm_compute. lia.
  - exists out, c1, c2, s2. split; [exact E1 |]. split; [exact E2 |]. split; [exact E3 |]. exists out', c3, c4, s4.
    split; [exact E4 |]. split; [exact E5 |]. rewrite E6. by rewrite lookup_insert_eq.
Defined.
